(* ===== verification/_CoqProject ===== *)
-Q . S2P
Prelude.v
Memory.v
OrderedArray.v
YieldLock.v
KHeap.v
KHeapInv.v
KHeapGap.v
KHeapAlloc.v
KHeapMalloc.v
KHeapSpec.v
KHeapFree.v
KMalloc.v
Allocator.v
LinkedList.v
Bitmap.v
MathRand.v
IdPool.v
HashTable.v
HashTableInv.v
HashTableSpec.v
HashTableExpand.v
HashTableMap.v
HashTableFree.v
HashTableIter.v
HashTableTheorems.v
CStdlib.v
KeyHelp.v
Scheduler.v
SchedulerInv.v
Sync.v
MutexSteps.v
Paging.v
PagingInv.v
PageEntry.v
PagingMap.v
PagingFault.v
PagingCow.v
PagingShare.v
PagingTheorems.v
AddressSpace.v
Gdt.v
VMem.v
Elf.v
HeapSpace.v
StrArray.v
Monitor.v
Printf.v
Disk.v
NaiveFs.v
Keyboard.v
Interrupts.v
Thread.v
ThreadSpec.v
ThreadStack.v
Process.v
Tasks.v
ProcessInv.v
ProcessSpec.v
Exec.v
Syscalls.v
Shell.v
Cpu.v
ThreadRun.v
UserCalls.v
UserPrograms.v
