(* ===== verification/Prelude.v ===== *)
(** * LuckOS: a verification library for the kernel

    LuckOS is a small 32-bit x86 kernel in C (src/src) with a shell and an image
    writer (src/user).  This library translates its components into executable
    Rocq definitions and proves what each of them promises.

    ** How the code is modelled

    - Machine integers are [Z]; [u8], [u16], [u32], [s8], [s16], [s32] of this
      file wrap at the widths of the C types, and are written wherever the C
      arithmetic wraps.
    - A run of C code is an [outcome]: a value, a [Panic] (a failed ASSERT or a
      PANIC, after which the kernel stops), a [Fault] (undefined behaviour: a
      bad pointer, an access out of an array, a kernel page fault), [Blocked]
      (a loop that waits for a lock another thread holds) or out of fuel.  The
      monad's notation is [x ← e; k]; [may m Q] says that a run returns a result
      with [Q] or stops in a panic.
    - State is passed explicitly: each component has a record for its static
      variables.  Objects that other code points to live in stores, finite maps
      from addresses: bytes ([Memory]), list nodes ([LinkedList]), arrays and
      pairs ([HashTable], [Bitmap]), threads ([Scheduler]).  Aliasing is by
      address, as in C.
    - Loops whose length is bounded by a program counter are fixpoints on it;
      the others take fuel, and a theorem shows that enough fuel is at hand and
      what the result is, never only what happens if they return.

    ** Components

    Memory management.
    - [Memory]: bytes and 32-bit words in memory.
    - [OrderedArray]: utils/ordered_array.c, on memory, with a comparator.
    - [YieldLock]: sync/yieldlock.c and sync/cas.S.
    - [KHeap] (data, operations), [KHeapInv], [KHeapGap], [KHeapAlloc],
      [KHeapMalloc], [KHeapSpec], [KHeapFree], [KMalloc]: mem/kheap.c.  The
      abstract heap is a list of blocks that tile the heap; [carve],
      [split_hole] and [release] are the reference functions on such lists, and
      the byte-level operations refine them.  [KMalloc] has the entry points
      under the lock: what kmalloc returns is disjoint from every live block
      and keeps their data, kfree gives back one block, a request is served
      when the index has room, and freeing undoes allocating.  The search of
      the index takes as fuel the size of the index; expansion repeats at most
      as often as the heap can double below its limit.
    - [Allocator]: the class of allocators that the clients of the heap are
      proved against, with the kernel heap and others as instances.
    - [Paging] (data, operations), [PagingInv], [PagingMap], [PagingFault],
      [PagingCow], [PagingShare], [PagingTheorems]: mem/paging.c and paging.h
      on physical memory and the processor's address translation, with the
      recursive mapping of the directory ([PageEntry]: the bit fields of an
      entry and the translation against the processor's layout and walk).  A fault maps a fresh zeroed frame, a
      write to a shared page copies it, the last user gets the page back,
      releasing pages returns or unshares their frames; the reference counts
      are the hash table of [HashTable].
    - [AddressSpace]: the class of byte spaces, what code that reads and
      writes virtual addresses is proved against; its instances are flat memory,
      paged memory, where a miss runs the page fault handler, and the kernel's
      memory above a user's.  Paged memory behaves as flat memory.
    - [VMem]: words and the string routines on a byte space.  [HeapSpace]: a byte
      space with a heap in it, whose blocks and contents survive each other's
      accesses; the kernel's space over the current process is one.

    Data structures.
    - [LinkedList]: utils/linked_list.c on a store of nodes; a list represents
      a sequence of addresses.
    - [HashTable] (data, operations), [HashTableInv], [HashTableSpec],
      [HashTableExpand], [HashTableMap], [HashTableFree], [HashTableIter],
      [HashTableTheorems]: utils/hash_table.c refines a finite map, through
      expansion; the iterator visits each binding once; destroying frees every
      block.
    - [Bitmap], [IdPool]: utils/bitmap.c and utils/id_pool.c: the least free id
      is handed out, growing by doubling up to the maximum.
    - [MathRand]: utils/math.c, utils/rand.c.  [CStdlib]: common/stdlib.c.

    Threads and processes.
    - [Scheduler], [SchedulerInv]: the ready queue and the switches of
      task/scheduler.c, task/schedule.S, the timer of interrupt/timer.c.  The
      invariant says where every thread is queued; round robin is fair.
    - [Sync]: sync/spinlock.c, sync/mutex.c, sync/cond_var.c, a call as rounds.
      [MutexSteps]: mutex_lock and mutex_unlock one access at a time, with a
      program counter for each thread and interrupts, other threads and other
      kernel code between any two steps: mutual exclusion, of the mutex and of
      its guard.  Undisturbed steps make up the rounds of [Sync].
    - [StrArray]: utils/string.c.  [Elf]: elf/elf.c, the program loader.
    - [Thread] (data, operations), [ThreadSpec] (creation and destruction),
      [ThreadStack] (the user's stack), [ThreadRun] (the first run of a thread
      on the processor of [Cpu]): task/thread.c and thread.h.  Control blocks
      are records in a store, their names and stacks bytes of the address space.
    - [Process] (process.h, the tables of a process), [Tasks] (operations of
      task/process.c, and of task/scheduler.c where it creates, ends and cleans
      up threads and processes), [ProcessInv] (the invariant of scheduler, heap,
      dead threads and dead processes), [ProcessSpec] (exit, wait, and what is
      wrong with them), [Exec] (the state of the whole kernel and process_exec).
    - A call that blocks (a lock round of a mutex, a wait, a read of a key) is
      a round: one iteration of its loop, to the point where the thread leaves
      the processor; another definition of the same name with [_again] or a
      further round goes on behind the wake-up.  Theorems quantify over the
      rounds, and so over interleavings.

    The processor.
    - [Gdt]: mem/gdt.c, mem/gdt_load.S: the segments and the task-state segment.
    - [Interrupts]: interrupt/interrupt.c, interrupt/timer.c: the gates, the
      controllers, the timer and the common handler.
    - [Cpu]: interrupt/idt.S, syscall/syscall_wrapper.S and task/schedule.S as
      lists of instructions on registers, flags and a stack in memory, with the
      processor's trap and return.  A simulation with the stack as a list gives
      the theorems: an interrupt or a system call leaves the program as it was,
      a forked child returns 0, a new thread enters user mode, a switch resumes
      a suspended thread.  The vectors for which the processor pushes an error
      code ([cpu_errcode], from its manual) and the stubs' table ([has_errcode])
      are separate; they differ for the alignment check.

    Devices and the user.
    - [Disk], [NaiveFs]: driver/hard_disk.c, driver/disk_io.S, fs/naive_fs.c,
      fs/vfs.c and the tool user/disk_image_writer.c: a file of an image reads
      back by its name.
    - [KeyHelp], [Keyboard]: driver/keyhelp.c, driver/keyboard.c: scancodes to
      characters, the ring buffer, its interrupt and the blocking read.
    - [Monitor], [Printf]: monitor/monitor.c: the text buffer, scrolling, and
      formatted output of strings in an address space.

    System calls and programs.
    - [Syscalls]: syscall/syscall_impl.c and syscall_impl.h: the dispatch and
      every call, over the kernel's state.
    - [UserCalls]: syscall/syscall.c and syscall_trigger.S: the library
      functions; a call is followed from the user's stack through the trap to
      the dispatch and back.
    - [UserPrograms]: user/src/*.c, user/src/sys/common.c and common/stdio.c: the
      programs over those services; what cat shows is what the image writer
      put on the disk, up to the first zero byte.
    - [Shell]: user/src/shell.c: the line editor and the splitting of a line
      into arguments refine a cursor editor.

    ** How components meet

    The heap locks with [YieldLock] and keeps its holes in an [OrderedArray]
    over the same memory.  Lists, tables, bitmaps, pools, threads, processes and
    the file system call the heap through the class [Allocator] and memory
    through [ByteSpace] or [HeapSpace].  Paging counts shared frames in a hash
    table and frames in a bitmap.  The keyboard, mutexes, condition variables
    and processes queue threads in the scheduler's state.  The dispatch of the
    system calls works on one record of processes, file system, screen and
    keyboard; a system call of a program meets the processor's frame there.

    ** What the theorems show

    Safety and functional correctness of each operation on every branch
    (heap, tables, paging, screen, keyboard, threads); invariants of the
    scheduler and of the processes; refinement of finite maps, of a cursor
    editor and of formatted text; liveness of the scheduler, of wake-ups and of
    requests for memory; round trips of the image, of threads and of string
    arrays; and the transparency of interrupts, traps and demand paging.  Several
    theorems state what the code does wrong: [exit_notify_stale],
    [destroy_process_out_of_bounds], [read_file_past_end],
    [id_pool_full_reports_success], [mutex_lock_preempted],
    [mutex_append_preempted], [alignment_check_shifted].

    Fuel: a string routine takes more than the string's length, the search for
    a hole the size of the index, the expansion of the heap the number of
    doublings below its limit; the theorems ask for as much or give it.

    ** What is not modelled

    Boot code and port input and output (assembly and hardware registers);
    [main] of main.c, which calls the initialisation routines in order; the
    body of write_file, which is empty; the interrupt handler of the disk, which
    does nothing; unit tests and debugging output inside the sources; floating
    point ([rand_range]).  Preemption inside a call is an interrupt between two
    accesses of the shared state for mutexes ([MutexSteps]) and between two
    operations of the scheduler's model elsewhere ([Sync], [SchedulerInv]), not
    between any two instructions of the C code; the processor's translation
    caches are taken to follow the tables.  Values the code reads without setting
    them are arguments of the model: the local c of prepare_user_stack, which
    [user_thread_enters] takes to be 0, and the result of expand in id_pool.c, which
    its theorems take to be non-zero.  The manifest lists each part with its
    reason. *)

From Stdlib Require Export ZArith Lia Sorted.
From stdpp Require Export base tactics list gmap option.

(** stdpp's names for the list lemmas, ahead of the Standard Library's. *)
Export list_basics.list list_relations.list list_monad.list list_misc.list
  list_tactics.list list_numbers.list.

Open Scope Z_scope.

(** lia decides goals with division and remainder by literals. *)
Ltac Zify.zify_post_hook ::= Z.to_euclidean_division_equations.

(** ** Machine integers *)

(** The C types [uint8], [uint16], [uint32], [int16] and [int32] are integers
    [Z]; each wraps with the function of its name. *)
Definition u8 (z : Z) : Z := z mod 256.
Definition u16 (z : Z) : Z := z mod 65536.
Definition u32 (z : Z) : Z := z mod 4294967296.
Definition s8 (z : Z) : Z := (z + 128) mod 256 - 128.
Definition s16 (z : Z) : Z := (z + 32768) mod 65536 - 32768.
Definition s32 (z : Z) : Z := (z + 2147483648) mod 4294967296 - 2147483648.

Definition is_u8 (z : Z) : Prop := 0 <= z < 256.
Definition is_u32 (z : Z) : Prop := 0 <= z < 4294967296.
Definition is_s32 (z : Z) : Prop := -2147483648 <= z < 2147483648.

Lemma u8_range z : is_u8 (u8 z).
Proof. unfold is_u8, u8. lia. Qed.
Lemma u32_range z : is_u32 (u32 z).
Proof. unfold is_u32, u32. lia. Qed.
Lemma s32_range z : is_s32 (s32 z).
Proof. unfold is_s32, s32. lia. Qed.
Lemma u8_small z : 0 <= z < 256 -> u8 z = z.
Proof. unfold u8. lia. Qed.
Lemma u16_small z : 0 <= z < 65536 -> u16 z = z.
Proof. unfold u16. lia. Qed.
Lemma u32_small z : 0 <= z < 4294967296 -> u32 z = z.
Proof. unfold u32. lia. Qed.
Lemma s32_small z : is_s32 z -> s32 z = z.
Proof. unfold is_s32, s32. lia. Qed.
Lemma s16_small z : -32768 <= z < 32768 -> s16 z = z.
Proof. unfold s16. lia. Qed.

(** [u32_small!] removes every wrap whose argument lia bounds. *)
Ltac u32_simpl :=
  repeat match goal with
  | |- context [u32 ?z] => rewrite (u32_small z) by lia
  | H : context [u32 ?z] |- _ => rewrite (u32_small z) in H by lia
  end.

(** ** Outcomes

    A call of a kernel function returns a value, stops in [PANIC()] or a
    failed [ASSERT] (the kernel prints and spins with interrupts disabled),
    accesses an object out of its bounds, or does not return because the
    caller spins on a lock that is held.  [NoFuel] is the model's own: a
    bounded loop ran out of the bound given to it. *)
Inductive outcome (A : Type) : Type :=
  | Ok (a : A)
  | Panic
  | Fault
  | Blocked
  | NoFuel.
Arguments Ok {A} a.
Arguments Panic {A}.
Arguments Fault {A}.
Arguments Blocked {A}.
Arguments NoFuel {A}.

#[export] Instance outcome_ret : MRet outcome := fun A a => Ok a.
#[export] Instance outcome_bind : MBind outcome := fun A B f m =>
  match m with
  | Ok a => f a
  | Panic => Panic
  | Fault => Fault
  | Blocked => Blocked
  | NoFuel => NoFuel
  end.

(** [ASSERT(c)] of utils/debug.h. *)
Definition ASSERT (c : bool) : outcome unit := if c then Ok tt else Panic.

(** A read or write through a pointer or index that must be in bounds. *)
Definition deref {A} (o : option A) : outcome A :=
  match o with Some a => Ok a | None => Fault end.

Lemma bind_Ok {A B} (m : outcome A) (f : A -> outcome B) b :
  (m ≫= f) = Ok b <-> exists a, m = Ok a /\ f a = Ok b.
Proof.
  destruct m; simpl; split; try (intros [? [? ?]]; congruence); try congruence.
  - intros H. by exists a.
Qed.

Lemma ASSERT_Ok c u : ASSERT c = Ok u <-> c = true.
Proof. destruct u, c; simpl; naive_solver. Qed.

Lemma deref_Ok {A} (o : option A) a : deref o = Ok a <-> o = Some a.
Proof. destruct o; simpl; naive_solver. Qed.

Lemma bind_ret_l {A B} (a : A) (f : A -> outcome B) : (Ok a ≫= f) = f a.
Proof. done. Qed.

Lemma bind_assoc {A B C} (m : outcome A) (f : A -> outcome B) (g : B -> outcome C) :
  ((m ≫= f) ≫= g) = (m ≫= fun a => f a ≫= g).
Proof. by destruct m. Qed.

(** [out_inv] takes apart hypotheses that say a sequence of calls returned. *)
Ltac out_inv1 :=
  match goal with
  | H : Ok _ = Ok _ |- _ => injection H as H; try subst
  | H : Panic = Ok _ |- _ => discriminate H
  | H : Fault = Ok _ |- _ => discriminate H
  | H : Blocked = Ok _ |- _ => discriminate H
  | H : NoFuel = Ok _ |- _ => discriminate H
  | H : mret _ = Ok _ |- _ => injection H as H; try subst
  | H : (_ ≫= _) = Ok _ |- _ =>
      let a := fresh "a" in let H1 := fresh "H" in
      apply bind_Ok in H as (a & H1 & H)
  | H : ASSERT _ = Ok _ |- _ => apply ASSERT_Ok in H
  | H : deref _ = Ok _ |- _ => apply deref_Ok in H
  end.
Ltac out_inv := repeat (out_inv1; simpl in * |-).

(** To evaluate whether a call panics. *)
Definition is_panic {A} (m : outcome A) : bool := match m with Panic => true | _ => false end.

(** [may m Q]: the call stops the kernel in a panic, or it returns a result
    with [Q]; it does not fault, block or run out of fuel. *)
Definition may {A} (m : outcome A) (Q : A -> Prop) : Prop := m = Panic \/ exists a, m = Ok a /\ Q a.

Lemma may_ret {A} (a : A) (Q : A -> Prop) : Q a -> may (Ok a) Q.
Proof. intros HQ. right. by exists a. Qed.

Lemma may_bind {A B} (m : outcome A) (f : A -> outcome B) (P : A -> Prop) (Q : B -> Prop) :
  may m P -> (forall a, P a -> may (f a) Q) -> may (m ≫= f) Q.
Proof. intros [-> | (a & -> & HP)] Hf; [by left | by apply Hf]. Qed.

Lemma may_mono {A} (m : outcome A) (P Q : A -> Prop) : may m P -> (forall a, P a -> Q a) -> may m Q.
Proof. intros [-> | (a & -> & HP)] HPQ; [by left | right; exists a; auto]. Qed.

#[export] Instance may_proper {A} (m : outcome A) :
  Proper (pointwise_relation A iff ==> iff) (may m).
Proof.
  intros P Q HPQ. unfold may.
  split; (intros [-> | (a & -> & Ha)]; [by left | right; exists a; split; [done | by apply HPQ]]).
Qed.

(** ** Counted loops

    [for_up n i body s] is [for (; i < i + n; i++) s = body(i, s)]. *)
Fixpoint for_up {S} (n : nat) (i : Z) (body : Z -> S -> outcome S) (s : S) : outcome S :=
  match n with
  | O => Ok s
  | Datatypes.S n' => s' ← body i s; for_up n' (i + 1) body s'
  end.

(** The invariant rule, for a loop whose body always returns. *)
Lemma for_up_rule {S} (P : Z -> S -> Prop) n i body (s : S) :
  P i s ->
  (forall j s, i <= j < i + Z.of_nat n -> P j s ->
     exists s', body j s = Ok s' /\ P (j + 1) s') ->
  exists s', for_up n i body s = Ok s' /\ P (i + Z.of_nat n) s'.
Proof.
  revert i s. induction n as [|n IH]; intros i s HP Hbody; simpl.
  - exists s. by rewrite Z.add_0_r.
  - destruct (Hbody i s) as (s' & Hb & HP'); [lia | done |].
    rewrite Hb. simpl. destruct (IH (i + 1) s') as (s'' & Hf & HP''); [done | |].
    + intros j t Hj. apply Hbody. lia.
    + exists s''. split; [done |]. by replace (i + Z.of_nat (Datatypes.S n)) with (i + 1 + Z.of_nat n) by lia.
Qed.

(** The invariant rule for partial correctness. *)
Lemma for_up_inv {S} (P : Z -> S -> Prop) n i body (s s' : S) :
  P i s ->
  (forall j t t', i <= j < i + Z.of_nat n -> P j t -> body j t = Ok t' -> P (j + 1) t') ->
  for_up n i body s = Ok s' ->
  P (i + Z.of_nat n) s'.
Proof.
  revert i s. induction n as [|n IH]; intros i s HP Hbody Hf; simpl in Hf; out_inv.
  - by rewrite Z.add_0_r.
  - replace (i + Z.of_nat (Datatypes.S n)) with (i + 1 + Z.of_nat n) by lia. eapply IH; [| |done].
    + eapply Hbody; [lia | done | done].
    + intros j t t' Hj. apply Hbody. lia.
Qed.

(** [loop_up] is the same loop for a body that is a plain state update. *)
Fixpoint loop_up {S} (n : nat) (i : Z) (body : Z -> S -> S) (s : S) : S :=
  match n with
  | O => s
  | Datatypes.S n' => loop_up n' (i + 1) body (body i s)
  end.

Lemma loop_up_rule {S} (P : Z -> S -> Prop) n i body (s : S) :
  P i s ->
  (forall j t, i <= j < i + Z.of_nat n -> P j t -> P (j + 1) (body j t)) ->
  P (i + Z.of_nat n) (loop_up n i body s).
Proof.
  revert i s. induction n as [|n IH]; intros i s HP Hbody; simpl.
  - by rewrite Z.add_0_r.
  - replace (i + Z.of_nat (Datatypes.S n)) with (i + 1 + Z.of_nat n) by lia.
    apply IH; [apply Hbody; [lia | done] | intros j t Hj; apply Hbody; lia].
Qed.

(** The invariant rule, for a loop whose body may panic. *)
Lemma may_for_up {S} (P : Z -> S -> Prop) n i body (s : S) :
  P i s ->
  (forall j s, i <= j < i + Z.of_nat n -> P j s -> may (body j s) (P (j + 1))) ->
  may (for_up n i body s) (P (i + Z.of_nat n)).
Proof.
  revert i s. induction n as [|n IH]; intros i s HP Hbody; cbn [for_up].
  - apply may_ret. by rewrite Z.add_0_r.
  - eapply may_bind; [apply Hbody; [lia | done] |]. intros t Ht.
    replace (i + Z.of_nat (Datatypes.S n)) with (i + 1 + Z.of_nat n) by lia.
    apply IH; [done | intros j u Hj; apply Hbody; lia].
Qed.

Lemma removelast_snoc {A} (l : list A) x : removelast (l ++ [x]) = l.
Proof. by rewrite removelast_app, app_nil_r. Qed.

(** ** Arrays

    [buf[i]] and [buf[i] = v] for an array of bytes: out of bounds is a fault. *)

Definition buf_get (buf : list Z) (i : Z) : outcome Z :=
  if i <? 0 then Fault else deref (buf !! Z.to_nat i).
Definition buf_set (buf : list Z) (i v : Z) : outcome (list Z) :=
  _ ← buf_get buf i; Ok (<[Z.to_nat i := v]> buf).

Lemma buf_get_ok buf i : 0 <= i < Z.of_nat (length buf) ->
  exists v, buf_get buf i = Ok v /\ buf !! Z.to_nat i = Some v.
Proof.
  intros Hi. unfold buf_get. destruct (Z.ltb_spec i 0); [lia |].
  destruct (lookup_lt_is_Some_2 buf (Z.to_nat i)) as [v Hv]; [lia |]. exists v. by rewrite Hv.
Qed.

Lemma buf_get_lookup buf i v : 0 <= i -> buf !! Z.to_nat i = Some v -> buf_get buf i = Ok v.
Proof. intros Hi Hv. unfold buf_get. destruct (Z.ltb_spec i 0); [lia |]. by rewrite Hv. Qed.

Lemma buf_set_ok buf i v : 0 <= i < Z.of_nat (length buf) ->
  buf_set buf i v = Ok (<[Z.to_nat i := v]> buf).
Proof. intros Hi. unfold buf_set. by destruct (buf_get_ok buf i Hi) as (w & -> & _). Qed.

Lemma buf_set_out buf i v : Z.of_nat (length buf) <= i -> buf_set buf i v = Fault.
Proof.
  intros Hi. unfold buf_set, buf_get. destruct (Z.ltb_spec i 0); [lia |].
  by rewrite lookup_ge_None_2 by lia.
Qed.

(** ** Bits of machine words *)

Lemma testbit_one_shift off j :
  0 <= off -> Z.testbit (Z.shiftl 1 off) j = bool_decide (j = off).
Proof.
  intros Ho. rewrite Z.shiftl_1_l. case_bool_decide as Hj.
  - subst. by apply Z.pow2_bits_true.
  - by apply Z.pow2_bits_false; intros ?; subst.
Qed.

Lemma land_pow2_eqb a j :
  0 <= j -> (Z.land a (Z.shiftl 1 j) =? 0) = negb (Z.testbit a j).
Proof.
  intros Hj. apply eq_true_iff_eq. rewrite Z.eqb_eq, negb_true_iff. split.
  - intros H. assert (Z.testbit (Z.land a (Z.shiftl 1 j)) j = false) as Hb
      by (rewrite H; apply Z.bits_0).
    rewrite Z.land_spec, testbit_one_shift, bool_decide_true in Hb by done.
    by rewrite andb_true_r in Hb.
  - intros H. apply Z.bits_inj'. intros n Hn.
    rewrite Z.land_spec, testbit_one_shift, Z.bits_0 by done.
    case_bool_decide; subst; [by rewrite H | apply andb_false_r].
Qed.

Lemma u32_testbit a j : Z.testbit (u32 a) j = (j <? 32) && Z.testbit a j.
Proof.
  unfold u32. change 4294967296 with (2 ^ 32).
  destruct (Z.ltb_spec j 32); simpl.
  - destruct (decide (0 <= j)); [by apply Z.mod_pow2_bits_low |].
    by rewrite !Z.testbit_neg_r by lia.
  - apply Z.mod_pow2_bits_high. lia.
Qed.

Lemma bits_u32_eq a b :
  is_u32 a -> is_u32 b ->
  (forall j, 0 <= j < 32 -> Z.testbit a j = Z.testbit b j) -> a = b.
Proof.
  intros Ha Hb Hbits. rewrite <- (u32_small a), <- (u32_small b) by done.
  apply Z.bits_inj'. intros j Hj. rewrite !u32_testbit.
  destruct (Z.ltb_spec j 32); simpl; [apply Hbits; lia | done].
Qed.

Lemma u32_allones_testbit a :
  is_u32 a -> a <> 4294967295 -> exists j, 0 <= j < 32 /\ Z.testbit a j = false.
Proof.
  intros Ha Hne.
  destruct (decide (Forall (fun j => Z.testbit a j = true) (seqZ 0 32))) as [Hall | Hex].
  - exfalso. apply Hne. apply bits_u32_eq; [done | done |].
    intros j Hj. rewrite (proj1 (Forall_forall _ _) Hall j) by (apply elem_of_seqZ; lia).
    change 4294967295 with (Z.ones 32). symmetry. apply Z.ones_spec_low. lia.
  - apply not_Forall_Exists in Hex; [| apply _].
    apply Exists_exists in Hex as (j & Hj & Hb). apply elem_of_seqZ in Hj.
    exists j. split; [lia |]. simpl in Hb. by destruct (Z.testbit a j).
Qed.
