(* ===== verification/Memory.v ===== *)
(** * Byte-addressed memory

    The flat memory the kernel's C code reads and writes: a finite map from
    addresses to bytes, zero where nothing was written (the page-fault handler
    maps zeroed frames on demand).  Little-endian 32-bit loads and stores, and
    the framing lemmas every component on raw memory uses. *)

From S2P Require Import Prelude.

Abbreviation mem := (gmap Z Z).

Definition load8 (m : mem) (a : Z) : Z := u8 (default 0 (m !! a)).
Definition store8 (m : mem) (a v : Z) : mem := <[a := u8 v]> m.

Definition load32 (m : mem) (a : Z) : Z :=
  load8 m a + 256 * load8 m (a + 1) + 65536 * load8 m (a + 2) + 16777216 * load8 m (a + 3).

Definition store32 (m : mem) (a v : Z) : mem :=
  store8 (store8 (store8 (store8 m a v) (a + 1) (v / 256)) (a + 2) (v / 65536))
    (a + 3) (v / 16777216).

(** [same_on m m' lo hi]: the bytes of [lo, hi) are the same in both. *)
Definition same_on (m m' : mem) (lo hi : Z) : Prop :=
  forall b, lo <= b < hi -> load8 m' b = load8 m b.

(** [same_out m m' lo hi]: only the bytes of [lo, hi) may differ. *)
Definition same_out (m m' : mem) (lo hi : Z) : Prop :=
  forall b, b < lo \/ hi <= b -> load8 m' b = load8 m b.

Create HintDb mem.
Create Rewrite HintDb mem.

Lemma load8_range m a : 0 <= load8 m a < 256.
Proof. apply u8_range. Qed.

Lemma load32_range m a : is_u32 (load32 m a).
Proof.
  unfold is_u32, load32.
  pose proof (load8_range m a). pose proof (load8_range m (a + 1)).
  pose proof (load8_range m (a + 2)). pose proof (load8_range m (a + 3)). lia.
Qed.

Lemma load8_store8_same m a v : load8 (store8 m a v) a = u8 v.
Proof. unfold load8, store8. rewrite lookup_insert_eq. simpl. unfold u8. lia. Qed.

Lemma load8_store8_ne m a b v : a <> b -> load8 (store8 m a v) b = load8 m b.
Proof. intros Hne. unfold load8, store8. by rewrite lookup_insert_ne. Qed.

Lemma load8_store32_ne m a b v : b < a \/ a + 4 <= b -> load8 (store32 m a v) b = load8 m b.
Proof. intros Hne. unfold store32. by rewrite !load8_store8_ne by lia. Qed.

Lemma load32_same_on m m' a lo hi :
  same_on m m' lo hi -> lo <= a -> a + 4 <= hi -> load32 m' a = load32 m a.
Proof. intros H Hl Hh. unfold load32. by rewrite !H by lia. Qed.

Lemma load32_store8_ne m a b v :
  a < b \/ b + 4 <= a -> load32 (store8 m a v) b = load32 m b.
Proof. intros H. unfold load32. by rewrite !load8_store8_ne by lia. Qed.

Lemma load32_store32_ne m a b v :
  b + 4 <= a \/ a + 4 <= b -> load32 (store32 m a v) b = load32 m b.
Proof. intros H. unfold load32. by rewrite !load8_store32_ne by lia. Qed.

Lemma load32_store32_same m a v : load32 (store32 m a v) a = u32 v.
Proof.
  unfold load32, store32.
  repeat (rewrite load8_store8_same || rewrite load8_store8_ne by lia).
  unfold u8, u32. lia.
Qed.

#[export] Hint Rewrite load8_store8_same load32_store32_same : mem.
#[export] Hint Rewrite load8_store8_ne load8_store32_ne load32_store8_ne
  load32_store32_ne using lia : mem.

Ltac mem_simpl := autorewrite with mem.

(** ** Framing *)

Lemma same_on_refl m lo hi : same_on m m lo hi.
Proof. done. Qed.

Lemma same_on_trans m1 m2 m3 lo hi :
  same_on m1 m2 lo hi -> same_on m2 m3 lo hi -> same_on m1 m3 lo hi.
Proof. intros H12 H23 b Hb. by rewrite H23, H12. Qed.

Lemma same_on_sub m m' lo hi lo' hi' :
  same_on m m' lo hi -> lo <= lo' -> hi' <= hi -> same_on m m' lo' hi'.
Proof. intros H Hl Hh b Hb. apply H. lia. Qed.

Lemma same_out_refl m lo hi : same_out m m lo hi.
Proof. done. Qed.

Lemma same_out_trans m1 m2 m3 lo hi :
  same_out m1 m2 lo hi -> same_out m2 m3 lo hi -> same_out m1 m3 lo hi.
Proof. intros H12 H23 b Hb. by rewrite H23, H12. Qed.

Lemma same_out_sub m m' lo hi lo' hi' :
  same_out m m' lo hi -> lo' <= lo -> hi <= hi' -> same_out m m' lo' hi'.
Proof. intros H Hl Hh b Hb. apply H. lia. Qed.

Lemma same_out_on m m' lo hi lo' hi' :
  same_out m m' lo hi -> hi' <= lo \/ hi <= lo' -> same_on m m' lo' hi'.
Proof. intros H Hd b Hb. apply H. lia. Qed.

Lemma same_out_store8 m a v : same_out m (store8 m a v) a (a + 1).
Proof. intros b Hb. by mem_simpl. Qed.

Lemma same_out_store32 m a v : same_out m (store32 m a v) a (a + 4).
Proof. intros b Hb. by mem_simpl. Qed.

#[export] Hint Resolve same_on_refl same_out_refl same_out_store8 same_out_store32 : mem.
