(* ===== verification/OrderedArray.v ===== *)
(** * Ordered arrays (utils/ordered_array.c)

    An array of [type_t] (pointer-sized words) kept sorted by a comparator.
    The array lives in memory at [array]; the comparator may itself read
    memory, as the kernel heap's does. *)

From S2P Require Import Prelude.
From S2P Require Import Memory.

Record ordered_array_t := {
  oa_array : Z;
  oa_size : Z;
  oa_max_size : Z;
  oa_comparator : mem -> Z -> Z -> Z
}.

Definition set_size (this : ordered_array_t) (n : Z) : ordered_array_t :=
  {| oa_array := oa_array this; oa_size := n; oa_max_size := oa_max_size this;
     oa_comparator := oa_comparator this |}.

(** [this->array[i]] *)
Definition slot (this : ordered_array_t) (i : Z) : Z := oa_array this + 4 * i.
Definition get_slot (m : mem) (this : ordered_array_t) (i : Z) : Z := load32 m (slot this i).
Definition set_slot (m : mem) (this : ordered_array_t) (i v : Z) : mem :=
  store32 m (slot this i) v.

Definition standard_comparator (a b : Z) : Z :=
  if a <? b then -1 else if a =? b then 0 else 1.

Definition ordered_array_create (arr mx : Z) (cmp : mem -> Z -> Z -> Z) : ordered_array_t :=
  {| oa_array := arr; oa_size := 0; oa_max_size := mx; oa_comparator := cmp |}.

(** [while (iterator < size && comparator(array[iterator], item) <= 0) iterator++;]
    with [n] at least [size - iterator]. *)
Fixpoint insert_position (n : nat) (m : mem) (this : ordered_array_t) (item it : Z) : Z :=
  match n with
  | O => it
  | S n' =>
      if (it <? oa_size this) && (oa_comparator this m (get_slot m this it) item <=? 0)
      then insert_position n' m this item (it + 1)
      else it
  end.

(** [for (i = size - 1; i > iterator; i--) array[i] = array[i - 1];] with [n]
    the number of iterations left. *)
Fixpoint shift_right (n : nat) (m : mem) (this : ordered_array_t) (i : Z) : mem :=
  match n with
  | O => m
  | S n' => shift_right n' (set_slot m this i (get_slot m this (i - 1))) this (i - 1)
  end.

Definition ordered_array_insert (m : mem) (this : ordered_array_t) (item : Z) :
    mem * ordered_array_t * Z :=
  if oa_max_size this <=? oa_size this then (m, this, 0)
  else
    let iterator := insert_position (Z.to_nat (oa_size this)) m this item 0 in
    let this := set_size this (oa_size this + 1) in
    let m := shift_right (Z.to_nat (oa_size this - 1 - iterator)) m this (oa_size this - 1) in
    (set_slot m this iterator item, this, 1).

Definition ordered_array_get (m : mem) (this : ordered_array_t) (i : Z) : Z :=
  if oa_size this <=? i then 0 else get_slot m this i.

(** [while (i < size - 1) { array[i] = array[i + 1]; i++; }] with [n]
    iterations left. *)
Fixpoint shift_left (n : nat) (m : mem) (this : ordered_array_t) (i : Z) : mem :=
  match n with
  | O => m
  | S n' => shift_left n' (set_slot m this i (get_slot m this (i + 1))) this (i + 1)
  end.

Definition ordered_array_remove (m : mem) (this : ordered_array_t) (i : Z) :
    mem * ordered_array_t * Z :=
  if oa_size this <=? i then (m, this, 0)
  else
    let m := shift_left (Z.to_nat (oa_size this - 1 - i)) m this i in
    (m, set_size this (oa_size this - 1), 1).

(** [index = size; for (i = 0; i < size; i++) if (array[i] == ele) { index = i; break; }] *)
Fixpoint find_index (n : nat) (m : mem) (this : ordered_array_t) (ele i : Z) : Z :=
  match n with
  | O => oa_size this
  | S n' =>
      if get_slot m this i =? ele then i else find_index n' m this ele (i + 1)
  end.

Definition ordered_array_remove_element (m : mem) (this : ordered_array_t) (ele : Z) :
    mem * ordered_array_t * Z :=
  let index := find_index (Z.to_nat (oa_size this)) m this ele 0 in
  if index =? oa_size this then (m, this, 0)
  else
    let m := shift_left (Z.to_nat (oa_size this - 1 - index)) m this index in
    (m, set_size this (oa_size this - 1), 1).

Definition ordered_array_find_element (m : mem) (this : ordered_array_t) (ele : Z) : Z :=
  find_index (Z.to_nat (oa_size this)) m this ele 0.

(** ** Abstract contents *)

(** The contents: the list of the first [size] words. *)
Definition contents (m : mem) (this : ordered_array_t) : list Z :=
  (fun i => get_slot m this i) <$> seqZ 0 (oa_size this).

Definition oa_wf (this : ordered_array_t) : Prop := 0 <= oa_size this <= oa_max_size this.

(** The bytes of the array's storage. *)
Definition oa_lo (this : ordered_array_t) : Z := oa_array this.
Definition oa_hi (this : ordered_array_t) : Z := oa_array this + 4 * oa_max_size this.

(** Every word of the array is a [uint32]. *)
Lemma get_slot_range m this i : is_u32 (get_slot m this i).
Proof. apply load32_range. Qed.

Lemma get_set_slot m this i j v :
  get_slot (set_slot m this i v) this j = if decide (i = j) then u32 v else get_slot m this j.
Proof.
  unfold get_slot, set_slot, slot. case_decide; subst; mem_simpl; done.
Qed.

Lemma length_contents m this : 0 <= oa_size this -> length (contents m this) = Z.to_nat (oa_size this).
Proof. intros H. unfold contents. by rewrite length_fmap, length_seqZ. Qed.

Lemma contents_lookup m this i :
  contents m this !! i =
    if decide (Z.of_nat i < oa_size this) then Some (get_slot m this (Z.of_nat i)) else None.
Proof.
  unfold contents. rewrite list_lookup_fmap. case_decide.
  - by rewrite lookup_seqZ_lt.
  - by rewrite lookup_seqZ_ge by lia.
Qed.

Lemma contents_same m m' this :
  same_on m m' (oa_array this) (oa_array this + 4 * oa_size this) -> contents m' this = contents m this.
Proof.
  intros H. apply list_eq. intros i. rewrite !contents_lookup. case_decide; [|done].
  unfold get_slot, slot. f_equal. eapply load32_same_on; [done | lia | lia].
Qed.

(** ** Reference functions on lists *)

(** Insertion after every element that compares less or equal. *)
Fixpoint insert_by (le : Z -> Z -> bool) (item : Z) (l : list Z) : list Z :=
  match l with
  | [] => [item]
  | x :: l' => if le x item then x :: insert_by le item l' else item :: l
  end.

(** Deletion of the first occurrence. *)
Definition delete_first (ele : Z) (l : list Z) : list Z :=
  match list_find (ele =.) l with Some (i, _) => delete i l | None => l end.

Lemma insert_by_perm le item l : insert_by le item l ≡ₚ item :: l.
Proof.
  induction l as [|x l IH]; simpl; [done |].
  destruct (le x item); [|done]. rewrite IH. apply Permutation_swap.
Qed.

Lemma elem_of_insert_by le item l x : x ∈ insert_by le item l <-> x = item \/ x ∈ l.
Proof. by rewrite insert_by_perm, elem_of_cons. Qed.

Lemma length_insert_by le item l : length (insert_by le item l) = S (length l).
Proof. by rewrite insert_by_perm. Qed.

Lemma insert_by_ext le le' item l :
  (forall x, x ∈ l -> le x item = le' x item) -> insert_by le item l = insert_by le' item l.
Proof.
  intros H. induction l as [|x l IH]; simpl; [done |].
  rewrite H by set_solver. rewrite IH; [done |]. set_solver.
Qed.

Section sorted.
(** The order a comparator induces: [key x <= key y]. *)
Context (key : Z -> Z).
Definition key_le (x y : Z) : Prop := key x <= key y.

Lemma insert_by_sorted le item l :
  (forall x, le x item = (key x <=? key item)) ->
  StronglySorted key_le l -> StronglySorted key_le (insert_by le item l).
Proof.
  intros Hle Hs. induction Hs as [|x l Hs IH Hx]; simpl.
  - repeat constructor.
  - rewrite Hle. destruct (Z.leb_spec (key x) (key item)).
    + constructor; [done |]. apply Forall_forall. intros y [->|Hy]%elem_of_insert_by.
      * done.
      * by apply (proj1 (Forall_forall _ _) Hx).
    + constructor; [by constructor |]. constructor; [unfold key_le; lia |].
      eapply Forall_impl; [exact Hx |]. unfold key_le. simpl. lia.
Qed.

Lemma sublist_sorted l l' :
  sublist l' l -> StronglySorted key_le l -> StronglySorted key_le l'.
Proof.
  intros Hsub. induction Hsub as [|x l1 l2 Hsub IH|x l1 l2 Hsub IH];
    intros Hs; [done | |]; inversion Hs; subst; [|by apply IH].
  constructor; [by apply IH |]. apply Forall_forall. intros y Hy.
  eapply (proj1 (Forall_forall _ _)); [done |]. by eapply elem_of_sublist.
Qed.

(** The element the first-fit scan of a sorted array finds is minimal. *)
Lemma sorted_lookup_le l i j x y :
  StronglySorted key_le l -> l !! i = Some x -> l !! j = Some y -> (i <= j)%nat ->
  key x <= key y.
Proof.
  intros Hs. revert i j. induction Hs as [|z l Hs IH Hz]; intros i j Hx Hy Hij; [done |].
  destruct i as [|i], j as [|j]; simplify_eq/=; [done | | lia | eapply IH; eauto; lia].
  by apply (proj1 (Forall_forall _ _) Hz), list_elem_of_lookup_2 with j.
Qed.
End sorted.

Lemma delete_first_sublist ele l : sublist (delete_first ele l) l.
Proof.
  unfold delete_first. destruct (list_find _ _) as [[i ?]|]; [apply sublist_delete | done].
Qed.

Lemma delete_first_perm ele l : ele ∈ l -> l ≡ₚ ele :: delete_first ele l.
Proof.
  intros Hin. unfold delete_first.
  destruct (list_find_elem_of (ele =.) l ele Hin eq_refl) as [[i x] Hf]. rewrite Hf.
  apply list_find_Some in Hf as (Hl & <- & _). by apply delete_Permutation.
Qed.

Lemma elem_of_delete_first ele l x :
  NoDup l -> x ∈ delete_first ele l <-> x ∈ l /\ x <> ele.
Proof.
  intros Hnd. destruct (decide (ele ∈ l)) as [Hin|Hin].
  - pose proof (delete_first_perm ele l Hin) as Hp. rewrite Hp in Hnd.
    apply NoDup_cons in Hnd as [Hni _]. rewrite Hp at 2. rewrite elem_of_cons. split.
    + intros Hx. split; [by right |]. by intros ->.
    + intros [[->|?] ?]; done.
  - unfold delete_first. destruct (list_find _ _) as [[i y]|] eqn:Hf.
    + apply list_find_Some in Hf as (Hl & <- & _). exfalso. eauto using list_elem_of_lookup_2.
    + split; [|by intros [? _]]. intros Hx. split; [done |]. by intros ->.
Qed.

(** ** The loops *)

Lemma get_shift_right n m this i j :
  get_slot (shift_right n m this i) this j =
    if decide (i - Z.of_nat n < j <= i) then get_slot m this (j - 1) else get_slot m this j.
Proof.
  revert m i. induction n as [|n IH]; intros m i; cbn [shift_right].
  - by rewrite decide_False by lia.
  - rewrite IH, !get_set_slot. repeat case_decide; try lia; subst; try done.
    by rewrite u32_small by apply get_slot_range.
Qed.

Lemma get_shift_left n m this i j :
  get_slot (shift_left n m this i) this j =
    if decide (i <= j < i + Z.of_nat n) then get_slot m this (j + 1) else get_slot m this j.
Proof.
  revert m i. induction n as [|n IH]; intros m i; cbn [shift_left].
  - by rewrite decide_False by lia.
  - rewrite IH, !get_set_slot. repeat case_decide; try lia; subst; try done.
    by rewrite u32_small by apply get_slot_range.
Qed.

Lemma same_out_set_slot m this i v lo hi :
  lo <= slot this i -> slot this i + 4 <= hi -> same_out m (set_slot m this i v) lo hi.
Proof. intros. eapply same_out_sub; [apply same_out_store32 | lia | lia]. Qed.

Lemma same_out_shift_right n m this i :
  0 <= i - Z.of_nat n ->
  same_out m (shift_right n m this i) (oa_array this) (oa_array this + 4 * (i + 1)).
Proof.
  revert m i. induction n as [|n IH]; intros m i Hn; cbn [shift_right]; [done |].
  apply same_out_trans with (set_slot m this i (get_slot m this (i - 1)));
    [apply same_out_set_slot; unfold slot; lia |].
  eapply same_out_sub; [apply IH; lia | lia | lia].
Qed.

Lemma same_out_shift_left n m this i :
  0 <= i ->
  same_out m (shift_left n m this i) (oa_array this) (oa_array this + 4 * (i + Z.of_nat n)).
Proof.
  revert m i. induction n as [|n IH]; intros m i Hn; cbn [shift_left]; [done |].
  apply same_out_trans with (set_slot m this i (get_slot m this (i + 1)));
    [apply same_out_set_slot; unfold slot; lia |].
  eapply same_out_sub; [apply IH; lia | lia | lia].
Qed.

(** The scan stops at the first element that compares greater. *)
Lemma insert_position_spec n m this item it :
  0 <= it <= oa_size this -> oa_size this <= it + Z.of_nat n ->
  let k := insert_position n m this item it in
  it <= k <= oa_size this /\
  (forall j, it <= j < k -> oa_comparator this m (get_slot m this j) item <= 0) /\
  (k < oa_size this -> 0 < oa_comparator this m (get_slot m this k) item).
Proof.
  revert it. induction n as [|n IH]; intros it Hit Hn k; subst k; cbn [insert_position].
  - split; [lia |]. split; [intros; lia | lia].
  - destruct (Z.ltb_spec it (oa_size this)); simpl; [|split; [lia |]; split; [intros; lia | lia]].
    destruct (Z.leb_spec (oa_comparator this m (get_slot m this it) item) 0).
    + destruct (IH (it + 1)) as (Hk & Hle & Hgt); [lia | lia |].
      split; [lia |]. split; [|done]. intros j Hj.
      destruct (decide (j = it)); [by subst | apply Hle; lia].
    + split; [lia |]. split; intros; [lia | done].
Qed.

Lemma insert_by_split le item l k :
  (k <= length l)%nat ->
  (forall j x, l !! j = Some x -> (j < k)%nat -> le x item = true) ->
  (forall x, l !! k = Some x -> le x item = false) ->
  insert_by le item l = take k l ++ item :: drop k l.
Proof.
  revert k. induction l as [|x l IH]; intros [|k] Hk Hle Hgt; simpl in *; try lia; [done | |].
  - by rewrite (Hgt x).
  - rewrite (Hle 0%nat x) by (done || lia). f_equal. apply IH; [lia | |done].
    intros j y Hj Hlt. apply (Hle (S j) y); [done | lia].
Qed.

Definition cmp_le (m : mem) (this : ordered_array_t) (x y : Z) : bool :=
  oa_comparator this m x y <=? 0.

Lemma contents_insert m this item k :
  oa_wf this -> is_u32 item -> 0 <= k <= oa_size this ->
  let this' := set_size this (oa_size this + 1) in
  contents (set_slot (shift_right (Z.to_nat (oa_size this - k)) m this' (oa_size this)) this' k item) this'
  = take (Z.to_nat k) (contents m this) ++ item :: drop (Z.to_nat k) (contents m this).
Proof.
  intros [Hs Hm] Hi Hk this'. apply list_eq. intros i.
  pose proof (length_contents m this Hs) as Hlen.
  rewrite contents_lookup, get_set_slot, get_shift_right.
  change (oa_size this') with (oa_size this + 1). rewrite (u32_small item) by done.
  destruct (decide (k = Z.of_nat i)) as [->|Hki].
  { rewrite decide_True by lia. rewrite lookup_app_r by (rewrite length_take; lia).
    rewrite length_take, Hlen. by replace (i - _)%nat with 0%nat by lia. }
  destruct (decide (Z.of_nat i < k)).
  - rewrite decide_True, decide_False by lia.
    rewrite lookup_app_l by (rewrite length_take; lia).
    rewrite lookup_take_lt, contents_lookup, decide_True by lia. done.
  - rewrite lookup_app_r by (rewrite length_take; lia). rewrite length_take, Hlen.
    replace (i - Z.to_nat k `min` Z.to_nat (oa_size this))%nat with (S (i - Z.to_nat k - 1)) by lia.
    simpl. rewrite lookup_drop, contents_lookup.
    replace (Z.of_nat (Z.to_nat k + (i - Z.to_nat k - 1))) with (Z.of_nat i - 1) by lia.
    destruct (decide (Z.of_nat i < oa_size this + 1)); [|by rewrite decide_False by lia].
    by rewrite !decide_True by lia.
Qed.

(** [ordered_array_insert] below capacity: the reference insertion. *)
Lemma insert_spec m this item :
  oa_wf this -> is_u32 item -> oa_size this < oa_max_size this ->
  exists m',
    ordered_array_insert m this item = (m', set_size this (oa_size this + 1), 1) /\
    contents m' (set_size this (oa_size this + 1)) =
      insert_by (cmp_le m this) item (contents m this) /\
    same_out m m' (oa_array this) (oa_array this + 4 * (oa_size this + 1)).
Proof.
  intros Hwf Hi Hmax. pose proof Hwf as [Hs Hm]. unfold ordered_array_insert.
  rewrite (proj2 (Z.leb_gt _ _)) by lia. eexists. split; [done |].
  set (k := insert_position _ m this item 0).
  assert (0 <= k <= oa_size this /\
    (forall j, 0 <= j < k -> oa_comparator this m (get_slot m this j) item <= 0) /\
    (k < oa_size this -> 0 < oa_comparator this m (get_slot m this k) item)) as (Hk & Hle & Hgt)
    by (apply insert_position_spec; lia).
  cbn [oa_size set_size]. replace (oa_size this + 1 - 1) with (oa_size this) by lia. split.
  - rewrite contents_insert by done. symmetry. apply insert_by_split.
    + rewrite length_contents by lia. lia.
    + intros j x. rewrite contents_lookup. case_decide; intros [= <-] Hj.
      apply Z.leb_le, Hle. lia.
    + intros x. rewrite contents_lookup. case_decide; intros [= <-].
      rewrite Z2Nat.id by lia. apply Z.leb_gt, Hgt. lia.
  - eapply same_out_trans; [|apply same_out_set_slot; unfold slot; simpl; lia].
    eapply same_out_sub; [apply same_out_shift_right; lia | |]; cbn [oa_array set_size]; lia.
Qed.

(** [ordered_array_insert] at capacity: refused, nothing changes. *)
Lemma insert_full m this item :
  oa_max_size this <= oa_size this -> ordered_array_insert m this item = (m, this, 0).
Proof. intros H. unfold ordered_array_insert. by rewrite (proj2 (Z.leb_le _ _)). Qed.

Lemma contents_delete m this i :
  oa_wf this -> 0 <= i < oa_size this ->
  contents (shift_left (Z.to_nat (oa_size this - 1 - i)) m this i) (set_size this (oa_size this - 1))
  = delete (Z.to_nat i) (contents m this).
Proof.
  intros [Hs Hm] Hi. apply list_eq. intros j. rewrite contents_lookup.
  change (get_slot ?m (set_size this _) ?j) with (get_slot m this j).
  rewrite get_shift_left. change (oa_size (set_size this _)) with (oa_size this - 1).
  destruct (decide (j < Z.to_nat i)%nat).
  - rewrite list_lookup_delete_lt, contents_lookup by done.
    repeat case_decide; lia || done.
  - rewrite list_lookup_delete_ge, contents_lookup by lia.
    replace (Z.of_nat (S j)) with (Z.of_nat j + 1) by lia.
    repeat case_decide; lia || done.
Qed.

Lemma shift_left_out m this i :
  0 <= i < oa_size this ->
  same_out m (shift_left (Z.to_nat (oa_size this - 1 - i)) m this i)
    (oa_array this) (oa_array this + 4 * oa_size this).
Proof. intros Hi. eapply same_out_sub; [apply same_out_shift_left; lia | lia | lia]. Qed.

Lemma remove_spec m this i :
  oa_wf this -> 0 <= i < oa_size this ->
  exists m',
    ordered_array_remove m this i = (m', set_size this (oa_size this - 1), 1) /\
    contents m' (set_size this (oa_size this - 1)) = delete (Z.to_nat i) (contents m this) /\
    same_out m m' (oa_array this) (oa_array this + 4 * oa_size this).
Proof.
  intros Hwf Hi. unfold ordered_array_remove. rewrite (proj2 (Z.leb_gt _ _)) by lia.
  eexists. split; [done |]. split; [by apply contents_delete | by apply shift_left_out].
Qed.

Lemma find_index_spec n m this ele i :
  0 <= i -> oa_size this = i + Z.of_nat n ->
  find_index n m this ele i =
    match list_find (ele =.) (drop (Z.to_nat i) (contents m this)) with
    | Some (j, _) => i + Z.of_nat j
    | None => oa_size this
    end.
Proof.
  revert i. induction n as [|n IH]; intros i Hi Hn; cbn [find_index].
  - rewrite drop_ge; [done |]. rewrite length_contents by lia. lia.
  - assert (contents m this !! Z.to_nat i = Some (get_slot m this i)) as Hl.
    { rewrite contents_lookup, Z2Nat.id, decide_True by lia. done. }
    rewrite (drop_S _ _ _ Hl). simpl. destruct (Z.eqb_spec (get_slot m this i) ele) as [He|He].
    + rewrite decide_True by done. lia.
    + rewrite decide_False by (intros ->; done). rewrite IH by lia.
      replace (Z.to_nat (i + 1)) with (S (Z.to_nat i)) by lia.
      destruct (list_find _ _) as [[j y]|]; simpl; lia.
Qed.

Lemma find_element_spec m this ele :
  oa_wf this ->
  ordered_array_find_element m this ele =
    match list_find (ele =.) (contents m this) with
    | Some (j, _) => Z.of_nat j
    | None => oa_size this
    end.
Proof.
  intros [Hs Hm]. unfold ordered_array_find_element. rewrite find_index_spec by lia.
  change (Z.to_nat 0) with 0%nat. rewrite drop_0. by destruct (list_find _ _) as [[j y]|].
Qed.

Lemma find_element_lt m this ele :
  oa_wf this -> ele ∈ contents m this -> ordered_array_find_element m this ele < oa_size this.
Proof.
  intros Hwf Hin. rewrite find_element_spec by done.
  destruct (list_find_elem_of (ele =.) _ ele Hin eq_refl) as [[i x] Hf]. rewrite Hf.
  apply list_find_Some in Hf as (Hl & _). apply lookup_lt_Some in Hl.
  rewrite length_contents in Hl by apply Hwf. destruct Hwf. lia.
Qed.

Lemma remove_element_absent m this ele :
  oa_wf this -> ele ∉ contents m this -> ordered_array_remove_element m this ele = (m, this, 0).
Proof.
  intros Hwf Hni. unfold ordered_array_remove_element.
  change (find_index _ m this ele 0) with (ordered_array_find_element m this ele).
  rewrite find_element_spec by done.
  destruct (list_find _ _) as [[i x]|] eqn:Hf; [|by rewrite Z.eqb_refl].
  apply list_find_Some in Hf as (Hl & <- & _). exfalso. eauto using list_elem_of_lookup_2.
Qed.

Lemma remove_element_spec m this ele :
  oa_wf this -> ele ∈ contents m this ->
  exists m',
    ordered_array_remove_element m this ele = (m', set_size this (oa_size this - 1), 1) /\
    contents m' (set_size this (oa_size this - 1)) = delete_first ele (contents m this) /\
    same_out m m' (oa_array this) (oa_array this + 4 * oa_size this).
Proof.
  intros Hwf Hin. pose proof (find_element_lt _ _ _ Hwf Hin) as Hlt.
  unfold ordered_array_remove_element, delete_first.
  change (find_index _ m this ele 0) with (ordered_array_find_element m this ele).
  revert Hlt. rewrite find_element_spec by done.
  destruct (list_find _ _) as [[i x]|]; intros Hlt; [|lia].
  rewrite (proj2 (Z.eqb_neq _ _)) by lia. eexists. split; [done |]. split.
  - rewrite contents_delete by (done || lia). by rewrite Nat2Z.id.
  - apply shift_left_out. lia.
Qed.

Lemma get_spec m this i :
  0 <= i -> ordered_array_get m this i = default 0 (contents m this !! Z.to_nat i).
Proof.
  intros Hi. unfold ordered_array_get. rewrite contents_lookup, Z2Nat.id by done.
  destruct (Z.leb_spec (oa_size this) i); [by rewrite decide_False by lia |].
  by rewrite decide_True by lia.
Qed.
