(* ===== verification/YieldLock.v ===== *)
(** * Yield locks (sync/yieldlock.c, atomic_exchange of sync/cas.S)

    A call of [yieldlock_lock] on a held lock leaves the calling thread in
    [schedule_thread_yield] until another thread releases the lock: seen from
    the caller it is [Blocked]. *)

From S2P Require Import Prelude.

Definition LOCKED_YES : Z := 1.
Definition LOCKED_NO : Z := 0.

Record yieldlock_t := { hold : Z }.

(** [xchg]: stores the new value and returns the old one. *)
Definition atomic_exchange (dst src : Z) : Z * Z := (src, dst).

Definition yieldlock_init : yieldlock_t := {| hold := LOCKED_NO |}.

Definition yieldlock_trylock (l : yieldlock_t) : yieldlock_t * bool :=
  let '(h, old) := atomic_exchange (hold l) LOCKED_YES in
  ({| hold := h |}, old =? LOCKED_NO).

Definition yieldlock_lock (l : yieldlock_t) : outcome yieldlock_t :=
  let '(h, old) := atomic_exchange (hold l) LOCKED_YES in
  if negb (old =? LOCKED_NO) then Blocked else Ok {| hold := h |}.

Definition yieldlock_unlock (l : yieldlock_t) : yieldlock_t := {| hold := LOCKED_NO |}.

Definition unlocked (l : yieldlock_t) : Prop := hold l = LOCKED_NO.
Definition locked : yieldlock_t := {| hold := LOCKED_YES |}.

Lemma lock_unlocked l : unlocked l -> yieldlock_lock l = Ok locked.
Proof. destruct l as [h]. intros H. unfold unlocked in H. simpl in H. by subst. Qed.

Lemma lock_Ok l l' : yieldlock_lock l = Ok l' <-> unlocked l /\ l' = locked.
Proof.
  unfold yieldlock_lock, unlocked. simpl. destruct (Z.eqb_spec (hold l) LOCKED_NO); simpl.
  - split; [by intros [= <-] | by intros [_ ->]].
  - split; [done | by intros [? _]].
Qed.

Lemma lock_locked : yieldlock_lock locked = Blocked.
Proof. done. Qed.
