(* ===== verification/KHeap.v ===== *)
(** * The kernel heap (mem/kheap.c): data and operations

    Blocks lie back to back between [start_address] and [end_address]: a
    9-byte header (magic, is_hole, size), the data, and an 8-byte footer
    (magic, address of the header).  An ordered array just below
    [start_address] indexes the holes by size. *)

From S2P Require Import Prelude.
From S2P Require Import Memory.
From S2P Require Import OrderedArray.
From S2P Require Import YieldLock.

Definition KHEAP_START : Z := 0xC0C00000.
Definition KHEAP_MIN_SIZE : Z := 0x300000.
Definition KHEAP_MAX : Z := 0xE0000000.
Definition KHEAP_INDEX_NUM : Z := 0x20000.
Definition KHEAP_MAGIC : Z := 0x123060AB.
Definition PAGE_SIZE : Z := 4096.

Definition HEADER_SIZE : Z := 9.
Definition FOOTER_SIZE : Z := 8.
Definition BLOCK_META_SIZE : Z := 17.

Definition IS_HOLE : Z := 1.
Definition NOT_HOLE : Z := 0.

(** The packed structs [kheap_block_header] and [kheap_block_footer]. *)
Definition hdr_magic (m : mem) (h : Z) : Z := load32 m h.
Definition hdr_is_hole (m : mem) (h : Z) : Z := load8 m (h + 4).
Definition hdr_size (m : mem) (h : Z) : Z := load32 m (h + 5).
Definition ftr_magic (m : mem) (f : Z) : Z := load32 m f.
Definition ftr_header (m : mem) (f : Z) : Z := load32 m (f + 4).

Record kheap_t := {
  kh_index : ordered_array_t;
  kh_start : Z;
  kh_end : Z;
  kh_size : Z;
  kh_max : Z;
  kh_supervisor : Z;
  kh_readonly : Z
}.

Definition set_index (this : kheap_t) (ix : ordered_array_t) : kheap_t :=
  {| kh_index := ix; kh_start := kh_start this; kh_end := kh_end this;
     kh_size := kh_size this; kh_max := kh_max this;
     kh_supervisor := kh_supervisor this; kh_readonly := kh_readonly this |}.

Definition set_end_size (this : kheap_t) (e s : Z) : kheap_t :=
  {| kh_index := kh_index this; kh_start := kh_start this; kh_end := e;
     kh_size := s; kh_max := kh_max this;
     kh_supervisor := kh_supervisor this; kh_readonly := kh_readonly this |}.

Definition align_to_page (num : Z) : Z :=
  if negb (Z.land num 0xFFF =? 0) then u32 (Z.land num 0xFFFFF000 + PAGE_SIZE) else num.

(** [kheap_expand]; its log line is not modelled. *)
Definition kheap_expand (this : kheap_t) (expand_size : Z) : outcome (kheap_t * Z) :=
  let expand_size := align_to_page expand_size in
  if expand_size <=? 0 then Ok (this, 0)
  else
    let new_end := u32 (kh_end this + expand_size) in
    _ ← ASSERT (new_end <=? kh_max this);
    Ok (set_end_size this new_end (u32 (kh_size this + expand_size)), expand_size).

Definition kheap_contract (this : kheap_t) (contract_size : Z) : kheap_t * Z :=
  let contract_size := align_to_page contract_size in
  if contract_size <=? 0 then (this, 0)
  else
    let new_size := u32 (kh_size this - contract_size) in
    let new_size := if new_size <? KHEAP_MIN_SIZE then KHEAP_MIN_SIZE else new_size in
    (set_end_size this (u32 (kh_start this + new_size)) new_size, new_size).

Definition make_block (m : mem) (start size is_hole : Z) : outcome (mem * Z) :=
  _ ← ASSERT (0 <? size);
  let end_ := u32 (start + size + BLOCK_META_SIZE) in
  let block_header := start in
  let m := store32 m block_header KHEAP_MAGIC in
  let m := store32 m (block_header + 5) size in
  let m := store8 m (block_header + 4) is_hole in
  let block_footer := u32 (end_ - FOOTER_SIZE) in
  let m := store32 m block_footer KHEAP_MAGIC in
  let m := store32 m (block_footer + 4) block_header in
  Ok (m, block_header).

Definition kheap_block_comparator (m : mem) (x y : Z) : Z :=
  let size1 := hdr_size m x in
  let size2 := hdr_size m y in
  if size1 <? size2 then -1 else if size1 =? size2 then 0 else 1.

Definition create_kheap (m : mem) (start end_ mx supervisor readonly : Z) :
    outcome (mem * kheap_t) :=
  _ ← ASSERT (Z.land start 0xFFF =? 0);
  _ ← ASSERT (Z.land end_ 0xFFF =? 0);
  let ix := ordered_array_create start KHEAP_INDEX_NUM kheap_block_comparator in
  let start := u32 (start + 4 * KHEAP_INDEX_NUM) in
  '(m, _) ← make_block m start (u32 (end_ - start - BLOCK_META_SIZE)) IS_HOLE;
  let '(m, ix, _) := ordered_array_insert m ix start in
  Ok (m, {| kh_index := ix; kh_start := start; kh_end := end_; kh_size := u32 (end_ - start);
            kh_max := mx; kh_supervisor := supervisor; kh_readonly := readonly |}).

(** [while (next_page_align + size <= end) { ... next_page_align += PAGE_SIZE; }]:
    [Some pos] when the loop returns [i] with that [alloc_pos]. *)
Fixpoint find_aligned (fuel : nat) (start end_ size next_page_align : Z) : outcome (option Z) :=
  match fuel with
  | O => NoFuel
  | S fuel =>
      if u32 (next_page_align + size) <=? end_ then
        if BLOCK_META_SIZE <? u32 (next_page_align - start) then Ok (Some next_page_align)
        else find_aligned fuel start end_ size (u32 (next_page_align + PAGE_SIZE))
      else Ok None
  end.

(** Each turn of the loop moves a page up; two turns always decide it. *)
Definition ALIGN_FUEL : nat := 3.

(** The body of the loop of [find_hole] for one index entry: [Some pos] when
    it returns with that [alloc_pos]. *)
Definition hole_fits (m : mem) (header size : Z) (page_align : bool) : outcome (option Z) :=
  let start := u32 (header + HEADER_SIZE) in
  if page_align then
    let end_ := u32 (start + hdr_size m header) in
    find_aligned ALIGN_FUEL start end_ size (align_to_page start)
  else if size <=? hdr_size m header then Ok (Some start)
  else Ok None.

Fixpoint find_hole_from (n : nat) (i : Z) (m : mem) (this : kheap_t) (size : Z)
    (page_align : bool) : outcome (option (Z * Z)) :=
  match n with
  | O => Ok None
  | S n =>
      let header := ordered_array_get m (kh_index this) i in
      r ← hole_fits m header size page_align;
      match r with
      | Some alloc_pos => Ok (Some (i, alloc_pos))
      | None => find_hole_from n (i + 1) m this size page_align
      end
  end.

(** [find_hole]: [Some (i, *alloc_pos)], or [None] for the result [-1]. *)
Definition find_hole (m : mem) (this : kheap_t) (size : Z) (page_align : bool) :
    outcome (option (Z * Z)) :=
  find_hole_from (Z.to_nat (oa_size (kh_index this))) 0 m this size page_align.

(** The branch of [alloc] for which no hole fits: expand the heap and extend
    or append its last hole. *)
Definition alloc_expand (m : mem) (this : kheap_t) (size : Z) : outcome (mem * kheap_t) :=
  let old_end_address := kh_end this in
  '(this, extended_size) ← kheap_expand this (u32 (size + BLOCK_META_SIZE));
  let last_footer := u32 (old_end_address - FOOTER_SIZE) in
  let last_header := ftr_header m last_footer in
  if negb (hdr_is_hole m last_header =? 0) then
    '(m, _) ← make_block m last_header (u32 (hdr_size m last_header + extended_size)) IS_HOLE;
    let '(m, ix, remove) := ordered_array_remove_element m (kh_index this) last_header in
    _ ← ASSERT (negb (remove =? 0));
    let '(m, ix, _) := ordered_array_insert m ix last_header in
    Ok (m, set_index this ix)
  else
    '(m, new_last_header) ←
      make_block m old_end_address (u32 (extended_size - BLOCK_META_SIZE)) IS_HOLE;
    let '(m, ix, _) := ordered_array_insert m (kh_index this) new_last_header in
    Ok (m, set_index this ix).

(** The branch of [alloc] that takes the hole at position [iterator] of the
    index, in its two steps: the hole cut off in front of an aligned block, *)
Definition alloc_front (m : mem) (this : kheap_t) (header block_size alloc_pos : Z)
    (page_align : bool) : outcome (mem * kheap_t * Z * Z) :=
  if page_align then
    let alloc_block_header := u32 (alloc_pos - HEADER_SIZE) in
    if header <? alloc_block_header then
      let cut_block_size := u32 (alloc_block_header - header) in
      _ ← ASSERT (BLOCK_META_SIZE <? cut_block_size);
      '(m, _) ← make_block m header (u32 (cut_block_size - BLOCK_META_SIZE)) IS_HOLE;
      let '(m, ix, _) := ordered_array_insert m (kh_index this) header in
      Ok (m, set_index this ix, u32 (block_size - cut_block_size), alloc_block_header)
    else Ok (m, this, block_size, header)
  else Ok (m, this, block_size, header).

(** and the block itself, with the hole that remains after it. *)
Definition alloc_take (m : mem) (this : kheap_t) (header block_size size : Z) :
    outcome (mem * kheap_t) :=
  _ ← ASSERT (size <=? block_size);
  let remain_size := u32 (block_size - size) in
  let '(size, remain_size) :=
    if remain_size <=? BLOCK_META_SIZE then (block_size, 0) else (size, remain_size) in
  '(m, _) ← make_block m header size NOT_HOLE;
  if 0 <? remain_size then
    _ ← ASSERT (BLOCK_META_SIZE <? remain_size);
    '(m, remain_hole_header) ←
      make_block m (u32 (header + BLOCK_META_SIZE + size))
        (u32 (remain_size - BLOCK_META_SIZE)) IS_HOLE;
    let '(m, ix, _) := ordered_array_insert m (kh_index this) remain_hole_header in
    Ok (m, set_index this ix)
  else Ok (m, this).

Definition alloc_found (m : mem) (this : kheap_t) (size : Z) (page_align : bool)
    (iterator alloc_pos : Z) : outcome (mem * kheap_t * Z) :=
  let header := ordered_array_get m (kh_index this) iterator in
  _ ← ASSERT (hdr_magic m header =? KHEAP_MAGIC);
  let block_size := hdr_size m header in
  let '(m, ix, _) := ordered_array_remove m (kh_index this) iterator in
  let this := set_index this ix in
  '(m, this, block_size, header) ← alloc_front m this header block_size alloc_pos page_align;
  '(m, this) ← alloc_take m this header block_size size;
  Ok (m, this, alloc_pos).

(** [alloc] calls itself after each expansion; [fuel] bounds the calls. *)
Fixpoint alloc (fuel : nat) (m : mem) (this : kheap_t) (size : Z) (page_align : bool) :
    outcome (mem * kheap_t * Z) :=
  match fuel with
  | O => NoFuel
  | S fuel =>
      _ ← ASSERT (0 <? size);
      r ← find_hole m this size page_align;
      match r with
      | None =>
          '(m, this) ← alloc_expand m this size;
          alloc fuel m this size page_align
      | Some (iterator, alloc_pos) => alloc_found m this size page_align iterator alloc_pos
      end
  end.

(** One call, and one more for each page left between [end_address] and
    [max_address]. *)
Definition alloc_fuel (this : kheap_t) : nat :=
  S (S (Z.to_nat ((kh_max this - kh_end this) / PAGE_SIZE))).

(** [free], in its three steps. *)
Definition free_merge_right (m : mem) (this : kheap_t) (header footer : Z) :
    outcome (mem * kheap_t) :=
  let right_header := u32 (footer + FOOTER_SIZE) in
  if (hdr_magic m right_header =? KHEAP_MAGIC) && negb (hdr_is_hole m right_header =? 0) then
    '(m, _) ← make_block m header
      (u32 (hdr_size m header + hdr_size m right_header + BLOCK_META_SIZE)) IS_HOLE;
    let '(m, ix, remove) := ordered_array_remove_element m (kh_index this) right_header in
    _ ← ASSERT (negb (remove =? 0));
    Ok (m, set_index this ix)
  else Ok (m, this).

Definition free_merge_left (m : mem) (this : kheap_t) (header : Z) :
    outcome (mem * kheap_t * Z) :=
  let left_footer := u32 (header - FOOTER_SIZE) in
  if (ftr_magic m left_footer =? KHEAP_MAGIC) &&
     (hdr_is_hole m (ftr_header m left_footer) =? 1) then
    let left_header := ftr_header m left_footer in
    '(m, _) ← make_block m left_header
      (u32 (hdr_size m left_header + hdr_size m header + BLOCK_META_SIZE)) IS_HOLE;
    let '(m, ix, remove) := ordered_array_remove_element m (kh_index this) left_header in
    _ ← ASSERT (negb (remove =? 0));
    Ok (m, set_index this ix, left_header)
  else Ok (m, this, header).

Definition free (m : mem) (this : kheap_t) (ptr : Z) : outcome (mem * kheap_t) :=
  if ptr =? 0 then Ok (m, this)
  else
    let header := u32 (ptr - HEADER_SIZE) in
    let footer := u32 (ptr + hdr_size m header) in
    _ ← ASSERT (hdr_magic m header =? KHEAP_MAGIC);
    _ ← ASSERT (ftr_magic m footer =? KHEAP_MAGIC);
    let m := store8 m (header + 4) 1 in
    '(m, this) ← free_merge_right m this header footer;
    '(m, this, new_hole) ← free_merge_left m this header;
    let '(m, ix, _) := ordered_array_insert m (kh_index this) new_hole in
    Ok (m, set_index this ix).

(** [kheap_validate_print]: the walk over the blocks, without the printing. *)
Fixpoint validate_from (fuel : nat) (m : mem) (this : kheap_t) (start hole_num alloc_num : Z) :
    outcome (Z * Z) :=
  match fuel with
  | O => NoFuel
  | S fuel =>
      if start <? kh_end this then
        let header := start in
        _ ← ASSERT (hdr_magic m header =? KHEAP_MAGIC);
        '(hole_num, alloc_num) ←
          (if negb (hdr_is_hole m header =? 0) then
             _ ← ASSERT (ordered_array_find_element m (kh_index this) header
                           <? oa_size (kh_index this));
             Ok (u32 (hole_num + 1), alloc_num)
           else Ok (hole_num, u32 (alloc_num + 1)));
        let start := u32 (start + (hdr_size m header + BLOCK_META_SIZE)) in
        _ ← ASSERT (start <=? kh_end this);
        validate_from fuel m this start hole_num alloc_num
      else Ok (hole_num, alloc_num)
  end.

Definition kheap_validate_print (m : mem) (this : kheap_t) : outcome Z :=
  '(hole_num, alloc_num) ←
    validate_from (S (Z.to_nat (kh_size this))) m this (kh_start this) 0 0;
  _ ← ASSERT (hole_num =? oa_size (kh_index this));
  Ok alloc_num.

(** ** The entry points, under [kheap_lock] *)

(** The memory and the module's static variables [kheap] and [kheap_lock]. *)
Record kmem := { km_mem : mem; km_heap : kheap_t; km_lock : yieldlock_t }.

Definition init_kheap (m : mem) : outcome kmem :=
  '(m, h) ← create_kheap m KHEAP_START (KHEAP_START + KHEAP_MIN_SIZE) KHEAP_MAX 0 0;
  Ok {| km_mem := m; km_heap := h; km_lock := yieldlock_init |}.

Definition kmalloc_impl (m : mem) (h : kheap_t) (size : Z) (align : bool) :
    outcome (mem * kheap_t * Z) :=
  if size =? 0 then Ok (m, h, 0)
  else
    '(m, h, ptr) ← alloc (alloc_fuel h) m h size align;
    if ptr =? 0 then Panic else Ok (m, h, ptr).

Definition kmalloc_locked (s : kmem) (size : Z) (align : bool) : outcome (kmem * Z) :=
  l ← yieldlock_lock (km_lock s);
  '(m, h, ptr) ← kmalloc_impl (km_mem s) (km_heap s) size align;
  let l := yieldlock_unlock l in
  Ok ({| km_mem := m; km_heap := h; km_lock := l |}, ptr).

Definition kmalloc (s : kmem) (size : Z) : outcome (kmem * Z) := kmalloc_locked s size false.
Definition kmalloc_aligned (s : kmem) (size : Z) : outcome (kmem * Z) :=
  kmalloc_locked s size true.

Definition kfree (s : kmem) (ptr : Z) : outcome kmem :=
  if ptr =? 0 then Ok s
  else
    l ← yieldlock_lock (km_lock s);
    '(m, h) ← free (km_mem s) (km_heap s) ptr;
    let l := yieldlock_unlock l in
    Ok {| km_mem := m; km_heap := h; km_lock := l |}.
