(* ===== verification/KHeapInv.v ===== *)
(** * The kernel heap: representation and framing

    A heap represents a list of blocks; the index holds addresses of its holes
    in the order of their sizes.  The lemmas here frame that representation
    over the memory writes of the operations. *)

From S2P Require Import Prelude.
From S2P Require Import Memory.
From S2P Require Import OrderedArray.
From S2P Require Import YieldLock.
From S2P Require Import KHeap.

Record block := Blk { b_size : Z; b_hole : bool }.

#[export] Instance block_eq_dec : EqDecision block.
Proof. solve_decision. Defined.

Definition hole_flag (b : bool) : Z := if b then IS_HOLE else NOT_HOLE.
Definition b_len (b : block) : Z := b_size b + BLOCK_META_SIZE.

(** A block of the given size and kind starts at [a]. *)
Record is_block (m : mem) (a : Z) (b : block) : Prop := {
  ib_pos : 0 < b_size b;
  ib_magic : hdr_magic m a = KHEAP_MAGIC;
  ib_hole : hdr_is_hole m a = hole_flag (b_hole b);
  ib_size : hdr_size m a = b_size b;
  ib_fmagic : ftr_magic m (a + HEADER_SIZE + b_size b) = KHEAP_MAGIC;
  ib_fheader : ftr_header m (a + HEADER_SIZE + b_size b) = a
}.

Fixpoint total (bs : list block) : Z :=
  match bs with [] => 0 | b :: bs => b_len b + total bs end.

(** The blocks [bs] lie back to back from [a] to [e]. *)
Fixpoint chain (m : mem) (a : Z) (bs : list block) (e : Z) : Prop :=
  match bs with
  | [] => a = e
  | b :: bs => is_block m a b /\ chain m (a + b_len b) bs e
  end.

(** The header addresses of the holes. *)
Fixpoint holes (a : Z) (bs : list block) : list Z :=
  match bs with
  | [] => []
  | b :: bs => (if b_hole b then [a] else []) ++ holes (a + b_len b) bs
  end.

(** The allocated blocks: data address and size. *)
Fixpoint allocs (a : Z) (bs : list block) : list (Z * Z) :=
  match bs with
  | [] => []
  | b :: bs =>
      (if b_hole b then [] else [(a + HEADER_SIZE, b_size b)]) ++ allocs (a + b_len b) bs
  end.

(** No two holes are neighbours. *)
Fixpoint coalesced (bs : list block) : Prop :=
  match bs with
  | b :: ((c :: _) as bs') => (b_hole b = true -> b_hole c = false) /\ coalesced bs'
  | _ => True
  end.

Ltac kconst :=
  unfold b_len, HEADER_SIZE, FOOTER_SIZE, BLOCK_META_SIZE, PAGE_SIZE, KHEAP_MAGIC,
    KHEAP_MAX, KHEAP_MIN_SIZE, KHEAP_START, KHEAP_INDEX_NUM in *.

(** [klia]: lia with the heap's constants unfolded. *)
Ltac klia := kconst; cbn [b_size b_hole] in *; lia.

(** ** Lists of blocks *)

Lemma total_app l r : total (l ++ r) = total l + total r.
Proof. induction l as [|b l IH]; simpl; [done | rewrite IH; lia]. Qed.

Lemma total_one b : total [b] = b_len b.
Proof. simpl. lia. Qed.

Lemma total_snoc l b : total (l ++ [b]) = total l + b_len b.
Proof. by rewrite total_app, total_one. Qed.

Lemma chain_app m a l r e :
  chain m a (l ++ r) e <-> chain m a l (a + total l) /\ chain m (a + total l) r e.
Proof.
  revert a. induction l as [|b l IH]; intros a; simpl.
  - rewrite Z.add_0_r. tauto.
  - rewrite IH. rewrite !Z.add_assoc. tauto.
Qed.

Lemma chain_end m a bs e : chain m a bs e -> e = a + total bs.
Proof.
  revert a. induction bs as [|b bs IH]; intros a; simpl; [lia |].
  intros [_ H]. apply IH in H. lia.
Qed.

Lemma chain_total_nonneg m a bs e : chain m a bs e -> 0 <= total bs.
Proof.
  revert a. induction bs as [|b bs IH]; intros a; simpl; [lia |].
  intros [Hb H]. apply IH in H. destruct Hb. klia.
Qed.

Lemma holes_app a l r : holes a (l ++ r) = holes a l ++ holes (a + total l) r.
Proof.
  revert a. induction l as [|b l IH]; intros a; simpl.
  - by rewrite Z.add_0_r.
  - rewrite IH, Z.add_assoc. by destruct (b_hole b).
Qed.

Lemma allocs_app a l r : allocs a (l ++ r) = allocs a l ++ allocs (a + total l) r.
Proof.
  revert a. induction l as [|b l IH]; intros a; simpl.
  - by rewrite Z.add_0_r.
  - rewrite IH, Z.add_assoc. by destruct (b_hole b).
Qed.

Lemma is_block_same m m' a b :
  same_on m m' a (a + b_len b) -> is_block m a b -> is_block m' a b.
Proof.
  intros Hs [Hp Hm Hh Hz Hfm Hfh].
  unfold hdr_magic, hdr_is_hole, hdr_size, ftr_magic, ftr_header in *.
  constructor; unfold hdr_magic, hdr_is_hole, hdr_size, ftr_magic, ftr_header; [done | ..].
  2: by rewrite Hs by klia.
  all: rewrite (load32_same_on m m' _ a (a + b_len b)) by (done || klia); done.
Qed.

Lemma chain_same m m' a bs e :
  same_on m m' a e -> chain m a bs e -> chain m' a bs e.
Proof.
  revert a. induction bs as [|b bs IH]; intros a Hs; simpl; [done |].
  intros [Hb Hc]. pose proof (chain_end _ _ _ _ Hc). pose proof (chain_total_nonneg _ _ _ _ Hc).
  assert (0 < b_len b) by (destruct Hb; klia).
  split; [|apply IH; [|done]]; [eapply is_block_same; [|done] |];
    eapply same_on_sub; (done || lia).
Qed.

(** Rewriting the blocks of one segment. *)
Lemma chain_replace m m' a l mid mid' r e :
  chain m a (l ++ mid ++ r) e ->
  same_out m m' (a + total l) (a + total l + total mid) ->
  chain m' (a + total l) mid' (a + total l + total mid) ->
  chain m' a (l ++ mid' ++ r) e.
Proof.
  intros Hc Hs Hm. rewrite !chain_app in Hc. destruct Hc as (Hl & Hmid & Hr).
  pose proof (chain_total_nonneg _ _ _ _ Hmid). pose proof (chain_total_nonneg _ _ _ _ Hr).
  pose proof (chain_end _ _ _ _ Hm) as He. rewrite !chain_app.
  split; [|rewrite <- He; split; [done |]].
  - eapply chain_same; [|done]. eapply same_out_on; [done | lia].
  - eapply chain_same; [|done]. eapply same_out_on; [done | lia].
Qed.

(** Every block of a chain is found between two shorter chains. *)
Lemma chain_block m a l b r e :
  chain m a (l ++ b :: r) e -> is_block m (a + total l) b.
Proof. rewrite chain_app. by intros (_ & Hb & _). Qed.

Lemma elem_of_holes a bs x :
  x ∈ holes a bs <-> exists l b r, bs = l ++ b :: r /\ b_hole b = true /\ x = a + total l.
Proof.
  revert a. induction bs as [|b bs IH]; intros a; simpl.
  - split; [by intros ?%elem_of_nil | intros (l & ? & ? & ? & _); by destruct l].
  - rewrite elem_of_app, IH. split.
    + intros [Hx|(l & c & r & -> & Hc & ->)].
      * destruct (b_hole b) eqn:Hb; [|by apply elem_of_nil in Hx].
        apply list_elem_of_singleton in Hx as ->. exists [], b, bs. simpl. auto with lia.
      * exists (b :: l), c, r. simpl. auto with lia.
    + intros ([|b' l] & c & r & Heq & Hc & ->); simplify_eq/=.
      * rewrite Hc. left. apply list_elem_of_singleton. lia.
      * right. exists l, c, r. auto with lia.
Qed.

Lemma elem_of_allocs a bs p n :
  (p, n) ∈ allocs a bs <->
  exists l r, bs = l ++ Blk n false :: r /\ p = a + total l + HEADER_SIZE.
Proof.
  revert a. induction bs as [|b bs IH]; intros a; simpl.
  - split; [by intros ?%elem_of_nil | intros (l & ? & ? & _); by destruct l].
  - rewrite elem_of_app, IH. split.
    + intros [Hx|(l & r & -> & ->)].
      * destruct b as [s [|]]; simpl in Hx; [by apply elem_of_nil in Hx |].
        apply list_elem_of_singleton in Hx. simplify_eq. exists [], bs. simpl. auto with lia.
      * exists (b :: l), r. simpl. auto with lia.
    + intros ([|b' l] & r & Heq & ->); simplify_eq/=.
      * left. apply list_elem_of_singleton. f_equal. lia.
      * right. exists l, r. auto with lia.
Qed.

(** Addresses: blocks, holes and data of a chain lie within it. *)
Lemma holes_bounds m a bs e x : chain m a bs e -> x ∈ holes a bs -> a <= x /\ x + BLOCK_META_SIZE < e.
Proof.
  intros Hc (l & b & r & -> & _ & ->)%elem_of_holes.
  rewrite chain_app in Hc. destruct Hc as (Hl & Hb & Hr).
  apply chain_total_nonneg in Hl. pose proof (chain_end _ _ _ _ Hr).
  apply chain_total_nonneg in Hr. destruct Hb. klia.
Qed.

Lemma allocs_bounds m a bs e p n :
  chain m a bs e -> (p, n) ∈ allocs a bs ->
  0 < n /\ a + HEADER_SIZE <= p /\ p + n + FOOTER_SIZE <= e.
Proof.
  intros Hc (l & r & -> & ->)%elem_of_allocs.
  rewrite chain_app in Hc. destruct Hc as (Hl & Hb & Hr).
  apply chain_total_nonneg in Hl. pose proof (chain_end _ _ _ _ Hr).
  apply chain_total_nonneg in Hr. destruct Hb. klia.
Qed.

Lemma holes_size m a bs e x :
  chain m a bs e -> x ∈ holes a bs ->
  exists l r, bs = l ++ Blk (hdr_size m x) true :: r /\ x = a + total l.
Proof.
  intros Hc (l & [s h] & r & -> & Hh & ->)%elem_of_holes. simpl in Hh. subst h.
  exists l, r. split; [|done]. by rewrite (ib_size _ _ _ (chain_block _ _ _ _ _ _ Hc)).
Qed.

Lemma NoDup_holes m a bs e : chain m a bs e -> NoDup (holes a bs).
Proof.
  revert a. induction bs as [|b bs IH]; intros a Hc; simpl in *; [constructor |].
  destruct Hc as [Hb Hc]. apply NoDup_app. split; [|split; [|by apply (IH _ Hc)]].
  - destruct (b_hole b); repeat constructor. by intros ?%elem_of_nil.
  - intros x Hx Hx'. destruct (holes_bounds _ _ _ _ _ Hc Hx').
    destruct (b_hole b); [|by apply elem_of_nil in Hx].
    apply list_elem_of_singleton in Hx. destruct Hb. klia.
Qed.

(** The data of two allocated blocks never overlap. *)
Lemma allocs_disjoint m a bs e p n q k :
  chain m a bs e -> (p, n) ∈ allocs a bs -> (q, k) ∈ allocs a bs ->
  (p, n) = (q, k) \/ p + n + BLOCK_META_SIZE <= q \/ q + k + BLOCK_META_SIZE <= p.
Proof.
  revert a. induction bs as [|b bs IH]; intros a Hc Hp Hq; simpl in *;
    [by apply elem_of_nil in Hp |].
  destruct Hc as [Hb Hc]. apply elem_of_app in Hp as [Hp|Hp], Hq as [Hq|Hq].
  - destruct (b_hole b); [by apply elem_of_nil in Hp |].
    apply list_elem_of_singleton in Hp, Hq. left. congruence.
  - destruct (b_hole b); [by apply elem_of_nil in Hp |].
    apply list_elem_of_singleton in Hp. simplify_eq.
    destruct (allocs_bounds _ _ _ _ _ _ Hc Hq) as (? & ? & ?). klia.
  - destruct (b_hole b); [by apply elem_of_nil in Hq |].
    apply list_elem_of_singleton in Hq. simplify_eq.
    destruct (allocs_bounds _ _ _ _ _ _ Hc Hp) as (? & ? & ?). klia.
  - by apply (IH _ Hc).
Qed.

Lemma NoDup_allocs m a bs e : chain m a bs e -> NoDup (allocs a bs).*1.
Proof.
  revert a. induction bs as [|b bs IH]; intros a Hc; simpl in *; [constructor |].
  destruct Hc as [Hb Hc]. destruct (b_hole b); simpl; [by apply (IH _ Hc) |].
  apply NoDup_cons. split; [|by apply (IH _ Hc)].
  intros ([p n] & Hp & Hin)%list_elem_of_fmap. simpl in Hp.
  destruct (allocs_bounds _ _ _ _ _ _ Hc Hin) as (? & ? & ?). destruct Hb. klia.
Qed.

(** ** Coalescing *)

(** The first and the last block of a list are not holes. *)
Definition head_used (bs : list block) : Prop :=
  match bs with b :: _ => b_hole b = false | [] => True end.
Definition last_used (bs : list block) : Prop :=
  match last bs with Some b => b_hole b = false | None => True end.

Lemma coalesced_app l r :
  coalesced (l ++ r) <->
  coalesced l /\ coalesced r /\
  (forall b, last l = Some b -> b_hole b = true -> head_used r).
Proof.
  induction l as [|b [|c l] IH].
  - simpl. intuition discriminate.
  - destruct r as [|c r]; simpl; [tauto |].
    split; [intros [H1 H2]; repeat split; intros; simplify_eq; auto | intros (_ & H2 & H3)].
    split; [|done]. by apply H3.
  - change ((b :: c :: l) ++ r) with (b :: (c :: l) ++ r).
    change (coalesced (b :: (c :: l) ++ r)) with
      ((b_hole b = true -> b_hole c = false) /\ coalesced ((c :: l) ++ r)).
    rewrite IH. change (last (b :: c :: l)) with (last (c :: l)).
    change (coalesced (b :: c :: l)) with ((b_hole b = true -> b_hole c = false) /\ coalesced (c :: l)).
    tauto.
Qed.

(** Case analysis on the last block of a list, for the two lemmas below. *)
Ltac coalesce :=
  repeat match goal with
  | H : _ /\ _ |- _ => destruct H
  | H : forall b : block, Some ?c = Some b -> _ |- _ => specialize (H c eq_refl)
  | |- _ <-> _ => split; intros
  | |- _ /\ _ => split
  | H : Some _ = Some _ |- _ => injection H as <-
  | _ => solve [auto | discriminate | simpl in *; intuition congruence]
  end; intros; simplify_eq/=; intuition congruence.

(** A hole between two lists: its neighbours are in use. *)
Lemma coalesced_hole l s r :
  coalesced (l ++ Blk s true :: r) <->
  coalesced l /\ coalesced r /\ last_used l /\ head_used r.
Proof.
  rewrite coalesced_app. unfold last_used.
  destruct r as [|c r], (last l) as [[? []]|]; simpl; coalesce.
Qed.

Lemma coalesced_used l s r :
  coalesced (l ++ Blk s false :: r) <-> coalesced l /\ coalesced r.
Proof.
  rewrite coalesced_app. destruct r as [|c r], (last l) as [[? []]|]; simpl; coalesce.
Qed.

(** ** Writing a block *)

Lemma make_block_spec m a s fl h :
  0 < s -> 0 <= a -> a + s + BLOCK_META_SIZE < 4294967296 -> fl = hole_flag h ->
  exists m', make_block m a s fl = Ok (m', a) /\
    is_block m' a (Blk s h) /\
    same_out m m' a (a + s + BLOCK_META_SIZE).
Proof.
  intros Hs Ha Hb ->. unfold make_block. rewrite (proj2 (Z.ltb_lt 0 s)) by done. simpl.
  eexists. split; [done |]. kconst.
  rewrite (u32_small (a + s + 17)), (u32_small (a + s + 17 - 8)) by lia.
  replace (a + s + 17 - 8) with (a + 9 + s) by lia. split.
  - constructor; cbn [b_size b_hole]; [done | ..];
      unfold hdr_magic, hdr_is_hole, hdr_size, ftr_magic, ftr_header; kconst; mem_simpl.
    + done.
    + by destruct h.
    + by rewrite u32_small by lia.
    + done.
    + by rewrite u32_small by lia.
  - intros b Hb'. by mem_simpl.
Qed.

(** ** The index *)

(** The index is a well-formed ordered array ending at [lo], holds distinct
    addresses from [lo] up, and no word of it looks like a magic number. *)
Record index_ok (m : mem) (ix : ordered_array_t) (lo : Z) : Prop := {
  ix_wf : oa_wf ix;
  ix_max : oa_max_size ix = KHEAP_INDEX_NUM;
  ix_base : 0 <= oa_array ix;
  ix_end : oa_array ix + 4 * oa_max_size ix = lo;
  ix_cmp : oa_comparator ix = kheap_block_comparator;
  ix_nodup : NoDup (contents m ix);
  ix_range : Forall (fun x => lo <= x < 4294967296) (contents m ix);
  ix_sentinel : forall i, 0 <= i < oa_max_size ix -> get_slot m ix i <> KHEAP_MAGIC
}.

Lemma sorted_key_ext key key' l :
  (forall x, x ∈ l -> key x = key' x) ->
  StronglySorted (key_le key) l -> StronglySorted (key_le key') l.
Proof.
  intros Hk Hs. induction Hs as [|x l Hs IH Hx]; constructor.
  - apply IH. set_solver.
  - apply Forall_forall. intros y Hy. unfold key_le.
    rewrite <- !Hk by set_solver. by apply (proj1 (Forall_forall _ _) Hx).
Qed.

(** The index is ordered by the sizes in the headers of its entries. *)
Definition by_size (m : mem) (l : list Z) : Prop := StronglySorted (key_le (hdr_size m)) l.

(** Memory changes that leave the index alone. *)
Lemma index_ok_frame m m' ix lo :
  same_on m m' (oa_array ix) lo ->
  index_ok m ix lo -> index_ok m' ix lo /\ contents m' ix = contents m ix.
Proof.
  intros Hs [].
  assert (contents m' ix = contents m ix) as Hc.
  { apply contents_same. destruct ix_wf0. eapply same_on_sub; [done | lia | lia]. }
  split; [|done]. constructor; try done; rewrite ?Hc; try done.
  - intros i Hi. unfold get_slot, slot.
    rewrite (load32_same_on m m' _ (oa_array ix) lo) by (done || lia). by apply ix_sentinel0.
Qed.

Lemma hdr_size_same_out m m' lo hi x :
  same_out m m' lo hi -> hi <= x \/ x + HEADER_SIZE <= lo -> hdr_size m' x = hdr_size m x.
Proof.
  intros Hs Hx. unfold hdr_size. apply (load32_same_on m m' _ x (x + HEADER_SIZE)); [|klia|klia].
  eapply same_out_on; [done | klia].
Qed.

Lemma cmp_le_size m ix x y :
  oa_comparator ix = kheap_block_comparator -> cmp_le m ix x y = (hdr_size m x <=? hdr_size m y).
Proof.
  intros Hc. unfold cmp_le. rewrite Hc. unfold kheap_block_comparator.
  destruct (Z.ltb_spec (hdr_size m x) (hdr_size m y)); [by rewrite !(proj2 (Z.leb_le _ _)) by lia |].
  destruct (Z.eqb_spec (hdr_size m x) (hdr_size m y)).
  - by rewrite !(proj2 (Z.leb_le _ _)) by lia.
  - rewrite !(proj2 (Z.leb_gt _ _)) by lia. done.
Qed.

(** A new state of the index whose contents are a reordering of known
    elements; shared by the three operations. *)
Lemma index_ok_update m m' ix n lo l :
  index_ok m ix lo -> KHEAP_MAGIC < lo ->
  0 <= n <= oa_max_size ix ->
  contents m' (set_size ix n) = l ->
  same_out m m' (oa_array ix) (oa_array ix + 4 * Z.max n (oa_size ix)) ->
  oa_size ix - 1 <= n ->
  NoDup l -> Forall (fun x => lo <= x < 4294967296) l ->
  (n < oa_size ix -> forall i, get_slot m' ix i = get_slot m ix i \/
     get_slot m' ix i = get_slot m ix (i + 1) /\ i + 1 < oa_size ix) ->
  index_ok m' (set_size ix n) lo.
Proof.
  intros [] Hlo Hn Hc Hs Hge Hnd Hr Hslot. destruct ix_wf0 as [Hsz Hszm].
  constructor; try done; rewrite ?Hc; try done.
  - cbn [set_size oa_max_size]. intros i Hi.
    change (get_slot m' (set_size ix n) i) with (get_slot m' ix i).
    destruct (decide (i < n)).
    + assert (get_slot m' ix i ∈ l) as Hin.
      { rewrite <- Hc. apply list_elem_of_lookup_2 with (Z.to_nat i).
        rewrite contents_lookup, Z2Nat.id, decide_True by (cbn [set_size oa_size]; lia). done. }
      pose proof (proj1 (Forall_forall _ _) Hr _ Hin) as Hx'. simpl in Hx'. lia.
    + destruct (decide (n < oa_size ix)) as [Hlt|Hnl].
      * destruct (Hslot Hlt i) as [->|[-> ?]]; apply ix_sentinel0; lia.
      * unfold get_slot, slot. replace (Z.max n (oa_size ix)) with n in Hs by lia.
        rewrite (load32_same_on m m' _ (oa_array ix + 4 * n) (oa_array ix + 4 * oa_max_size ix)).
        -- by apply ix_sentinel0.
        -- eapply same_out_on; [done | lia].
        -- lia.
        -- lia.
Qed.

Lemma contents_is_u32 m ix lo x : index_ok m ix lo -> x ∈ contents m ix -> lo <= x < 4294967296.
Proof. intros [] Hx. by apply (proj1 (Forall_forall _ _) ix_range0). Qed.

Lemma index_region m ix lo : index_ok m ix lo -> 0 <= lo /\ oa_array ix + 4 * oa_size ix <= lo.
Proof. intros []. destruct ix_wf0. lia. Qed.

(** Writes below the heap keep the order of entries that lie in it. *)
Lemma by_size_out m m' lo hi l :
  same_out m m' lo hi -> Forall (fun x => hi <= x \/ x + HEADER_SIZE <= lo) l ->
  by_size m l -> by_size m' l.
Proof.
  intros Hs Hl. apply sorted_key_ext. intros x Hx. symmetry.
  eapply hdr_size_same_out; [done |]. by apply (proj1 (Forall_forall _ _) Hl).
Qed.

Lemma by_size_index m m' ix lo l :
  same_out m m' (oa_array ix) lo -> Forall (fun x => lo <= x < 4294967296) l ->
  by_size m l -> by_size m' l.
Proof.
  intros Hs Hl. eapply by_size_out; [done |].
  eapply Forall_impl; [done |]. simpl. lia.
Qed.

Lemma index_insert_ok m ix lo x :
  index_ok m ix lo -> by_size m (contents m ix) ->
  KHEAP_MAGIC < lo -> lo <= x < 4294967296 -> x ∉ contents m ix ->
  exists m' ix' r,
    ordered_array_insert m ix x = (m', ix', r) /\
    index_ok m' ix' lo /\ by_size m' (contents m' ix') /\
    same_out m m' (oa_array ix) lo /\ oa_array ix' = oa_array ix /\
    (if decide (oa_size ix < oa_max_size ix)
     then oa_size ix' = oa_size ix + 1 /\ contents m' ix' ≡ₚ x :: contents m ix
     else ix' = ix /\ contents m' ix' = contents m ix).
Proof.
  intros Hok Hsort Hlo Hx Hni. pose proof Hok as [].
  pose proof (index_region _ _ _ Hok) as [Hlo0 Hreg].
  destruct ix_wf0 as [Hsz Hszm]. case_decide as Hmax.
  - destruct (insert_spec m ix x) as (m' & He & Hc & Hs); [done | unfold is_u32; lia | done |].
    rewrite (insert_by_ext _ (fun a b => hdr_size m a <=? hdr_size m b)) in Hc
      by (intros; by apply cmp_le_size).
    assert (Forall (fun x => lo <= x < 4294967296)
              (insert_by (fun a b => hdr_size m a <=? hdr_size m b) x (contents m ix))) as Hr
      by (rewrite insert_by_perm; by constructor).
    assert (same_out m m' (oa_array ix) lo) as Hs' by (eapply same_out_sub; [done | lia | lia]).
    eexists _, _, _. split; [exact He |]. split; [|split; [|split; [done |split; [done|]]]].
    + eapply index_ok_update; [done | done | lia | exact Hc | | lia | | done | lia].
      * eapply same_out_sub; [exact Hs | lia | lia].
      * rewrite insert_by_perm. by constructor.
    + rewrite Hc. eapply by_size_index; [done | done |]. by apply insert_by_sorted.
    + split; [done |]. by rewrite Hc, insert_by_perm.
  - exists m, ix, 0. rewrite insert_full by lia. by repeat split.
Qed.

Lemma delete_first_at l i x : NoDup l -> l !! i = Some x -> delete_first x l = delete i l.
Proof.
  intros Hnd Hl. unfold delete_first.
  destruct (list_find_elem_of (x =.) l x) as [[j y] Hf];
    [eauto using list_elem_of_lookup_2 | done |].
  rewrite Hf. apply list_find_Some in Hf as (Hj & <- & _). f_equal.
  by eapply NoDup_lookup.
Qed.

(** The index after an entry was taken out, by position or by value. *)
Lemma index_delete_ok m ix lo x i :
  index_ok m ix lo -> KHEAP_MAGIC < lo -> by_size m (delete_first x (contents m ix)) ->
  0 <= i -> contents m ix !! Z.to_nat i = Some x ->
  let m' := shift_left (Z.to_nat (oa_size ix - 1 - i)) m ix i in
  let ix' := set_size ix (oa_size ix - 1) in
  index_ok m' ix' lo /\ by_size m' (contents m' ix') /\ same_out m m' (oa_array ix) lo /\
  contents m' ix' = delete_first x (contents m ix).
Proof.
  intros Hok Hlo Hsort Hi Hl m' ix'. pose proof Hok as [].
  pose proof (index_region _ _ _ Hok) as [Hlo0 Hreg].
  pose proof (lookup_lt_Some _ _ _ Hl) as Hlt.
  destruct ix_wf0 as [Hsz Hszm]. rewrite length_contents in Hlt by lia.
  assert (contents m' ix' = delete_first x (contents m ix)) as Hc.
  { rewrite (delete_first_at _ (Z.to_nat i)) by done. apply contents_delete; [done | lia]. }
  assert (same_out m m' (oa_array ix) (oa_array ix + 4 * oa_size ix)) as Hs
    by (apply shift_left_out; lia).
  assert (same_out m m' (oa_array ix) lo) as Hs' by (eapply same_out_sub; [done | lia | lia]).
  assert (Forall (fun x => lo <= x < 4294967296) (delete_first x (contents m ix))) as Hr.
  { apply Forall_forall. intros y Hy. apply (proj1 (Forall_forall _ _) ix_range0).
    eapply elem_of_sublist; [done | apply delete_first_sublist]. }
  split; [|split; [|split; [done | done]]].
  - eapply index_ok_update; [done | done | lia | exact Hc | | lia | | done | ].
    + eapply same_out_sub; [exact Hs | lia | lia].
    + rewrite (delete_first_perm x (contents m ix)) in ix_nodup0
        by eauto using list_elem_of_lookup_2.
      by apply NoDup_cons in ix_nodup0 as [_ ?].
    + intros _ j. unfold m'. rewrite get_shift_left.
      case_decide; [right; split; [done | lia] | by left].
  - rewrite Hc. by eapply by_size_index.
Qed.

Lemma index_remove_ok m ix lo i x :
  index_ok m ix lo -> KHEAP_MAGIC < lo -> by_size m (delete_first x (contents m ix)) ->
  0 <= i -> contents m ix !! Z.to_nat i = Some x ->
  exists m' ix' r,
    ordered_array_remove m ix i = (m', ix', r) /\
    index_ok m' ix' lo /\ by_size m' (contents m' ix') /\
    same_out m m' (oa_array ix) lo /\ oa_array ix' = oa_array ix /\
    contents m' ix' = delete_first x (contents m ix).
Proof.
  intros Hok Hlo Hsort Hi Hl. pose proof (lookup_lt_Some _ _ _ Hl) as Hlt.
  rewrite length_contents in Hlt by apply Hok.
  destruct (index_delete_ok _ _ _ _ _ Hok Hlo Hsort Hi Hl) as (? & ? & ? & ?).
  unfold ordered_array_remove. rewrite (proj2 (Z.leb_gt _ _)) by lia.
  eexists _, _, _. repeat (split; [done |]). done.
Qed.

Lemma index_remove_element_ok m ix lo x :
  index_ok m ix lo -> KHEAP_MAGIC < lo -> by_size m (delete_first x (contents m ix)) ->
  x ∈ contents m ix ->
  exists m' ix',
    ordered_array_remove_element m ix x = (m', ix', 1) /\
    index_ok m' ix' lo /\ by_size m' (contents m' ix') /\
    same_out m m' (oa_array ix) lo /\ oa_array ix' = oa_array ix /\
    contents m' ix' = delete_first x (contents m ix).
Proof.
  intros Hok Hlo Hsort Hin.
  pose proof (find_element_lt m ix x (ix_wf _ _ _ Hok) Hin) as Hlt.
  assert (exists i, 0 <= i /\ ordered_array_find_element m ix x = i /\
            contents m ix !! Z.to_nat i = Some x) as (i & Hi & Hf & Hl).
  { rewrite find_element_spec by apply Hok.
    destruct (list_find_elem_of (x =.) _ x Hin eq_refl) as [[j y] Hf]. rewrite Hf.
    apply list_find_Some in Hf as (Hl & <- & _). exists (Z.of_nat j). rewrite Nat2Z.id.
    split; [lia | done]. }
  rewrite Hf in Hlt. destruct (index_delete_ok _ _ _ _ _ Hok Hlo Hsort Hi Hl) as (? & ? & ? & ?).
  unfold ordered_array_remove_element.
  change (find_index _ m ix x 0) with (ordered_array_find_element m ix x).
  rewrite Hf, (proj2 (Z.eqb_neq _ _)) by lia. eexists _, _. repeat (split; [done |]). done.
Qed.

Lemma index_remove_element_absent m ix lo x :
  index_ok m ix lo -> x ∉ contents m ix -> ordered_array_remove_element m ix x = (m, ix, 0).
Proof. intros [] Hni. by apply remove_element_absent. Qed.

(** The size of the index after a removal. *)
Lemma removed_size m m' ix ix' lo lo' x :
  index_ok m ix lo -> index_ok m' ix' lo' -> x ∈ contents m ix ->
  contents m' ix' = delete_first x (contents m ix) -> oa_size ix' = oa_size ix - 1.
Proof.
  intros [[? _]] [[? _]] Hx Hc. pose proof (delete_first_perm _ _ Hx) as Hp%Permutation_length.
  rewrite <- Hc in Hp. cbn [length] in Hp. rewrite !length_contents in Hp by done. lia.
Qed.
