(* ===== verification/KHeapGap.v ===== *)
(** * The kernel heap: states in the middle of an operation

    An operation of the heap opens a gap in the chain of blocks, writes new
    blocks into it from the left and updates the index.  [heap_gap] describes
    the states it goes through, [heap_wf] the states between operations; the
    lemmas say what each primitive step does to them. *)

From S2P Require Import Prelude.
From S2P Require Import Memory.
From S2P Require Import OrderedArray.
From S2P Require Import YieldLock.
From S2P Require Import KHeap.
From S2P Require Import KHeapInv.

(** ** The invariant *)

Record heap_wf (m : mem) (h : kheap_t) (bs : list block) : Prop := {
  hw_chain : chain m (kh_start h) bs (kh_end h);
  hw_ne : bs <> [];
  hw_coalesced : coalesced bs;
  hw_size : kh_size h = kh_end h - kh_start h;
  hw_lo : KHEAP_MAGIC < kh_start h;
  hw_max : kh_end h <= kh_max h <= KHEAP_MAX;
  hw_index : index_ok m (kh_index h) (kh_start h);
  hw_sorted : by_size m (contents m (kh_index h));
  hw_sound : forall x, x ∈ contents m (kh_index h) -> x ∈ holes (kh_start h) bs;
  hw_zero : forall b, kh_end h <= b < kh_max h + 4 -> load8 m b = 0
}.

(** Every hole is indexed. *)
Definition indexed (m : mem) (h : kheap_t) (bs : list block) : Prop :=
  forall x, x ∈ holes (kh_start h) bs -> x ∈ contents m (kh_index h).

(** Between the blocks [l] and [r] there are [n] bytes that hold no block.
    [st] is an entry of the index that no longer is the address of a hole. *)
Record heap_gap (m : mem) (h : kheap_t) (l : list block) (n : Z) (r : list block)
    (st : option Z) : Prop := {
  hg_l : chain m (kh_start h) l (kh_start h + total l);
  hg_n : 0 <= n;
  hg_r : chain m (kh_start h + total l + n) r (kh_end h);
  hg_size : kh_size h = kh_end h - kh_start h;
  hg_lo : KHEAP_MAGIC < kh_start h;
  hg_max : kh_end h <= kh_max h <= KHEAP_MAX;
  hg_index : index_ok m (kh_index h) (kh_start h);
  hg_sorted : by_size m (match st with
                         | Some y => delete_first y (contents m (kh_index h))
                         | None => contents m (kh_index h)
                         end);
  hg_sound : forall x, x ∈ contents m (kh_index h) -> Some x <> st ->
    x ∈ holes (kh_start h) l \/ x ∈ holes (kh_start h + total l + n) r;
  hg_zero : forall b, kh_end h <= b < kh_max h + 4 -> load8 m b = 0
}.

(** Outside of the index and of [x, y) nothing changed. *)
Definition touched (m m' : mem) (h : kheap_t) (x y : Z) : Prop :=
  forall b, b < oa_array (kh_index h) \/ kh_start h <= b -> b < x \/ y <= b ->
    load8 m' b = load8 m b.

Lemma touched_refl m h x y : touched m m h x y.
Proof. done. Qed.

Lemma touched_trans m1 m2 m3 h x y :
  touched m1 m2 h x y -> touched m2 m3 h x y -> touched m1 m3 h x y.
Proof. intros H12 H23 b H1 H2. by rewrite H23, H12. Qed.

Lemma touched_sub m m' h x y x' y' :
  touched m m' h x y -> x' <= x -> y <= y' -> touched m m' h x' y'.
Proof. intros H Hx Hy b H1 H2. apply H; [done | lia]. Qed.

Lemma touched_same_heap m m' h h' x y :
  oa_array (kh_index h') = oa_array (kh_index h) -> kh_start h' = kh_start h ->
  touched m m' h x y -> touched m m' h' x y.
Proof. intros Hb Hl H b. rewrite Hb, Hl. apply H. Qed.

Lemma touched_on m m' h x y lo hi :
  touched m m' h x y -> kh_start h <= lo -> hi <= x \/ y <= lo -> same_on m m' lo hi.
Proof. intros H Hl Hd b Hb. apply H; lia. Qed.

#[export] Hint Resolve touched_refl : mem.

(** ** Opening and closing *)

Lemma gap_bounds m h l n r st :
  heap_gap m h l n r st ->
  0 <= total l /\ 0 <= total r /\ kh_end h = kh_start h + total l + n + total r /\
  kh_start h + total l + n + total r <= KHEAP_MAX.
Proof.
  intros []. apply chain_total_nonneg in hg_l0. pose proof (chain_end _ _ _ _ hg_r0).
  apply chain_total_nonneg in hg_r0. lia.
Qed.

Lemma gap_of_wf m h l r : heap_wf m h (l ++ r) -> heap_gap m h l 0 r None.
Proof.
  intros []. apply chain_app in hw_chain0 as [Hl Hr].
  constructor; rewrite ?Z.add_0_r; try done.
  intros x Hx _. apply hw_sound0 in Hx. rewrite holes_app in Hx. by apply elem_of_app in Hx.
Qed.

Lemma wf_of_gap m h l r :
  heap_gap m h l 0 r None -> l ++ r <> [] -> coalesced (l ++ r) -> heap_wf m h (l ++ r).
Proof.
  intros [] Hne Hco. rewrite Z.add_0_r in *. constructor; try done.
  - rewrite chain_app. done.
  - intros x Hx. apply hg_sound0 in Hx; [|done]. by rewrite holes_app, elem_of_app.
Qed.

(** The last block before the gap joins it; if it was a hole, its index entry
    goes stale. *)
Lemma gap_open m h l b n r :
  heap_gap m h (l ++ [b]) n r None ->
  heap_gap m h l (b_len b + n) r (Some (kh_start h + total l)).
Proof.
  intros Hg. pose proof Hg as []. pose proof (gap_bounds _ _ _ _ _ _ Hg) as (? & ? & ? & ?).
  rewrite chain_app in hg_l0. destruct hg_l0 as (Hl & Hb & Hend).
  rewrite total_snoc in *.
  replace (kh_start h + (total l + b_len b) + n)
    with (kh_start h + total l + (b_len b + n)) in * by lia.
  constructor; try done.
  - destruct Hb. klia.
  - eapply sublist_sorted; [apply delete_first_sublist | done].
  - intros x Hx Hne. destruct (hg_sound0 x Hx) as [Hh|Hh]; [done | | by right].
    rewrite holes_app, elem_of_app in Hh. destruct Hh as [?|Hh]; [by left |].
    simpl in Hh. rewrite app_nil_r in Hh. destruct (b_hole b); [|by apply elem_of_nil in Hh].
    apply list_elem_of_singleton in Hh. by subst.
Qed.

(** A stale entry that is not there. *)
Lemma gap_unstale m h l n r y :
  heap_gap m h l n r (Some y) -> y ∉ contents m (kh_index h) -> heap_gap m h l n r None.
Proof.
  intros [] Hni. constructor; try done.
  - unfold delete_first in hg_sorted0.
    destruct (list_find _ _) as [[i z]|] eqn:Hf; [|done].
    apply list_find_Some in Hf as (Hl & <- & _). exfalso. eauto using list_elem_of_lookup_2.
  - intros x Hx _. apply hg_sound0; [done |]. by intros [= ->].
Qed.

(** The gap next to a block after it. *)
Lemma gap_open_r m h l n b r :
  heap_gap m h l n (b :: r) None ->
  heap_gap m h l (n + b_len b) r (Some (kh_start h + total l + n)).
Proof.
  intros []. destruct hg_r0 as [Hb Hr].
  constructor; rewrite ?Z.add_assoc; try done.
  - destruct Hb. klia.
  - eapply sublist_sorted; [apply delete_first_sublist | done].
  - intros x Hx Hne. destruct (hg_sound0 x Hx) as [?|Hh]; [done | by left |].
    simpl in Hh. apply elem_of_app in Hh as [Hh|?]; [|by right].
    destruct (b_hole b); [|by apply elem_of_nil in Hh].
    apply list_elem_of_singleton in Hh. by subst.
Qed.

(** ** The primitive steps *)

Lemma gap_entries_outside m h l n r st y :
  heap_gap m h l n r st -> y ∈ contents m (kh_index h) -> Some y <> st ->
  (kh_start h <= y /\ y + BLOCK_META_SIZE < kh_start h + total l) \/
  (kh_start h + total l + n <= y).
Proof.
  intros [] Hy Hne. destruct (hg_sound0 y Hy Hne) as [Hh|Hh].
  - destruct (holes_bounds _ _ _ _ _ hg_l0 Hh). lia.
  - destruct (holes_bounds _ _ _ _ _ hg_r0 Hh). lia.
Qed.

(** Writes into the gap. *)
Lemma gap_write m m' h l n r st :
  heap_gap m h l n r st ->
  same_out m m' (kh_start h + total l) (kh_start h + total l + n) ->
  heap_gap m' h l n r st /\ contents m' (kh_index h) = contents m (kh_index h).
Proof.
  intros Hg Ho. pose proof Hg as []. destruct (gap_bounds _ _ _ _ _ _ Hg) as (? & ? & ? & ?).
  assert (index_ok m' (kh_index h) (kh_start h) /\
          contents m' (kh_index h) = contents m (kh_index h)) as [Hix Hc].
  { apply index_ok_frame; [|done]. eapply same_out_on; [done | lia]. }
  split; [|done]. constructor; rewrite ?Hc; try done.
  - eapply chain_same; [|done]. eapply same_out_on; [done | lia].
  - eapply chain_same; [|done]. eapply same_out_on; [done | lia].
  - eapply by_size_out; [done | | done].
    apply Forall_forall. intros y Hy.
    assert (y ∈ contents m (kh_index h) /\ Some y <> st) as [Hin Hne].
    { destruct st as [z|]; [|done].
      apply elem_of_delete_first in Hy as [? ?]; [|apply hg_index0]. split; congruence. }
    destruct (gap_entries_outside _ _ _ _ _ _ _ Hg Hin Hne); klia.
  - intros b Hb'. rewrite Ho by lia. by apply hg_zero0.
Qed.

(** A block at the start of the gap joins the left part. *)
Lemma gap_close m h l n r st b :
  heap_gap m h l n r st -> is_block m (kh_start h + total l) b -> b_len b <= n ->
  heap_gap m h (l ++ [b]) (n - b_len b) r st.
Proof.
  intros [] Hb Hn.
  assert (kh_start h + total (l ++ [b]) + (n - b_len b) = kh_start h + total l + n) as Hend
    by (rewrite total_snoc; lia).
  constructor; rewrite ?Hend; try done.
  - apply chain_app. split; [done |]. split; [done |]. rewrite total_snoc. simpl. lia.
  - lia.
  - rewrite holes_app. intros y Hy Hne.
    destruct (hg_sound0 y Hy Hne); [left; apply elem_of_app; by left | by right].
Qed.

(** [make_block] at the start of the gap adds a block to the left part. *)
Lemma gap_fill m h l n r st x s fl hole :
  heap_gap m h l n r st -> 0 < s -> s + BLOCK_META_SIZE <= n -> fl = hole_flag hole ->
  x = kh_start h + total l ->
  exists m', make_block m x s fl = Ok (m', x) /\
    heap_gap m' h (l ++ [Blk s hole]) (n - (s + BLOCK_META_SIZE)) r st /\
    contents m' (kh_index h) = contents m (kh_index h) /\
    touched m m' h x (x + s + BLOCK_META_SIZE).
Proof.
  intros Hg Hs Hn Hfl ->. pose proof Hg as [].
  destruct (gap_bounds _ _ _ _ _ _ Hg) as (? & ? & ? & ?).
  destruct (make_block_spec m (kh_start h + total l) s fl hole) as (m' & He & Hb & Ho);
    [done | klia | klia | done |].
  destruct (gap_write m m' h l n r st) as [Hg' Hc]; [done | eapply same_out_sub; [done | lia | lia] |].
  exists m'. split; [done |]. split; [|split; [done |]].
  - by apply (gap_close _ _ _ _ _ _ (Blk s hole)).
  - intros b _ Hb'. apply Ho. lia.
Qed.

(** Steps on the index alone. *)
Lemma gap_index_step m m' h ix' l n r st st' :
  heap_gap m h l n r st ->
  same_out m m' (oa_array (kh_index h)) (kh_start h) ->
  index_ok m' ix' (kh_start h) ->
  by_size m' (match st' with Some y => delete_first y (contents m' ix')
                        | None => contents m' ix' end) ->
  (forall x, x ∈ contents m' ix' -> Some x <> st' ->
     x ∈ holes (kh_start h) l \/ x ∈ holes (kh_start h + total l + n) r) ->
  heap_gap m' (set_index h ix') l n r st' /\ touched m m' h 0 0.
Proof.
  intros Hg Hs Hix Hsort Hsound. pose proof Hg as [].
  destruct (gap_bounds _ _ _ _ _ _ Hg) as (? & ? & ? & ?). split.
  - constructor; cbn [set_index kh_start kh_end kh_index kh_size kh_max]; try done.
    + eapply chain_same; [|done]. eapply same_out_on; [done | lia].
    + eapply chain_same; [|done]. eapply same_out_on; [done | lia].
    + intros b Hb. rewrite Hs by lia. by apply hg_zero0.
  - intros b Hb _. apply Hs. lia.
Qed.

Lemma gap_insert m h l n r x :
  heap_gap m h l n r None -> x ∈ holes (kh_start h) l \/ x ∈ holes (kh_start h + total l + n) r ->
  x ∉ contents m (kh_index h) ->
  exists m' ix' q, ordered_array_insert m (kh_index h) x = (m', ix', q) /\
    heap_gap m' (set_index h ix') l n r None /\
    touched m m' h 0 0 /\ oa_array ix' = oa_array (kh_index h) /\
    (if decide (oa_size (kh_index h) < KHEAP_INDEX_NUM)
     then oa_size ix' = oa_size (kh_index h) + 1 /\
          contents m' ix' ≡ₚ x :: contents m (kh_index h)
     else ix' = kh_index h /\ contents m' ix' = contents m (kh_index h)).
Proof.
  intros Hg Hx Hni. pose proof Hg as [].
  destruct (gap_bounds _ _ _ _ _ _ Hg) as (? & ? & ? & ?).
  assert (kh_start h <= x < 4294967296) as Hxr.
  { destruct Hx as [Hx|Hx]; [destruct (holes_bounds _ _ _ _ _ hg_l0 Hx)
                            |destruct (holes_bounds _ _ _ _ _ hg_r0 Hx)]; klia. }
  destruct (index_insert_ok m (kh_index h) (kh_start h) x)
    as (m' & ix' & q & He & Hix & Hsort & Hs & Hb & Hc); [done..|].
  rewrite (ix_max _ _ _ hg_index0) in Hc.
  destruct (gap_index_step m m' h ix' l n r None None) as [Hg' Ht]; [done..| |].
  { intros y Hy _. case_decide.
    - destruct Hc as [_ Hc]. rewrite Hc in Hy. apply elem_of_cons in Hy as [->|Hy]; [done |].
      by apply hg_sound0.
    - destruct Hc as [_ Hc]. rewrite Hc in Hy. by apply hg_sound0. }
  exists m', ix', q. done.
Qed.

Lemma gap_remove_at m h l n r i y :
  heap_gap m h l n r (Some y) -> 0 <= i -> contents m (kh_index h) !! Z.to_nat i = Some y ->
  exists m' ix' q, ordered_array_remove m (kh_index h) i = (m', ix', q) /\
    heap_gap m' (set_index h ix') l n r None /\
    touched m m' h 0 0 /\ oa_array ix' = oa_array (kh_index h) /\
    contents m' ix' = delete_first y (contents m (kh_index h)).
Proof.
  intros Hg Hi Hl. pose proof Hg as [].
  destruct (index_remove_ok m (kh_index h) (kh_start h) i y)
    as (m' & ix' & q & He & Hix & Hsort & Hs & Hb & Hc); [done..|].
  destruct (gap_index_step m m' h ix' l n r (Some y) None) as [Hg' Ht]; [done..| |].
  { intros z Hz _. rewrite Hc in Hz.
    apply elem_of_delete_first in Hz as [Hz Hne]; [|apply hg_index0].
    apply hg_sound0; [done |]. congruence. }
  exists m', ix', q. done.
Qed.

Lemma gap_remove_element m h l n r y m' ix' q :
  heap_gap m h l n r (Some y) ->
  ordered_array_remove_element m (kh_index h) y = (m', ix', q) ->
  if decide (y ∈ contents m (kh_index h)) then
    q = 1 /\ heap_gap m' (set_index h ix') l n r None /\ touched m m' h 0 0 /\
    oa_array ix' = oa_array (kh_index h) /\
    contents m' ix' = delete_first y (contents m (kh_index h))
  else q = 0.
Proof.
  intros Hg He. pose proof Hg as []. case_decide as Hin.
  - destruct (index_remove_element_ok m (kh_index h) (kh_start h) y)
      as (m2 & ix2 & He2 & Hix & Hsort & Hs & Hb & Hc); [done..|].
    rewrite He in He2. injection He2 as <- <- ->.
    destruct (gap_index_step m m' h ix' l n r (Some y) None) as [Hg' Ht]; [done..| |done].
    intros z Hz _. rewrite Hc in Hz.
    apply elem_of_delete_first in Hz as [Hz Hne]; [|apply hg_index0].
    apply hg_sound0; [done |]. congruence.
  - rewrite (index_remove_element_absent _ _ _ _ hg_index0 Hin) in He. congruence.
Qed.
