(* ===== verification/KHeapAlloc.v ===== *)
(** * The kernel heap: allocation

    [alloc] takes the first hole of the index that fits, splits it, and
    expands the heap when there is none.  It implements the reference
    functions [carve] and [split_hole] on lists of blocks. *)

From S2P Require Import Prelude.
From S2P Require Import Memory.
From S2P Require Import OrderedArray.
From S2P Require Import YieldLock.
From S2P Require Import KHeap.
From S2P Require Import KHeapInv.
From S2P Require Import KHeapGap.

(** ** Reference functions *)

(** [size] bytes taken at the start of a block of [b] bytes. *)
Definition carve (b size : Z) : list block :=
  if b - size <=? BLOCK_META_SIZE then [Blk b false]
  else [Blk size false; Blk (b - size - BLOCK_META_SIZE) true].

(** The hole of [cut] bytes cut off in front of an aligned block. *)
Definition front (cut : Z) : list block :=
  if cut =? 0 then [] else [Blk (cut - BLOCK_META_SIZE) true].

(** What becomes of a hole of [b] bytes. *)
Definition split_hole (cut b size : Z) : list block := front cut ++ carve (b - cut) size.

Lemma total_carve b size : 0 < size <= b -> total (carve b size) = b + BLOCK_META_SIZE.
Proof. intros H. unfold carve. destruct (Z.leb_spec (b - size) BLOCK_META_SIZE); simpl; klia. Qed.

Lemma total_front cut : total (front cut) = cut.
Proof. unfold front. destruct (Z.eqb_spec cut 0); simpl; klia. Qed.

Lemma total_split_hole cut b size :
  0 < size <= b - cut -> total (split_hole cut b size) = b + BLOCK_META_SIZE.
Proof. intros H. unfold split_hole. rewrite total_app, total_front, total_carve; lia. Qed.

(** Splitting a hole does not put two holes side by side. *)
Lemma coalesced_split l cut b size r :
  coalesced (l ++ Blk b true :: r) -> coalesced (l ++ split_hole cut b size ++ r).
Proof.
  intros (Hl & Hr & Hlu & Hhu)%coalesced_hole.
  assert (coalesced (carve (b - cut) size ++ r) /\ head_used (carve (b - cut) size ++ r)) as [Hc Hh].
  { unfold carve. destruct (_ <=? _).
    - split; [|done]. by apply (coalesced_used []).
    - split; [|done]. apply (coalesced_used []). split; [done |]. by apply (coalesced_hole []). }
  unfold split_hole, front. destruct (cut =? 0); rewrite <- app_assoc; simpl.
  - rewrite coalesced_app. repeat split; done || (intros ? He Hb; unfold last_used in Hlu;
      rewrite He in Hlu; congruence).
  - by apply coalesced_hole.
Qed.

Lemma carve_head b size : exists s q, carve b size = Blk s false :: q /\
  (size <= b -> size <= s) /\ Forall (fun c => b_hole c = true) q /\ (length q <= 1)%nat.
Proof.
  unfold carve. destruct (Z.leb_spec (b - size) BLOCK_META_SIZE).
  - exists b, []. repeat split; [done | constructor | simpl; lia].
  - eexists size, [_]. repeat split; [done | by repeat constructor | simpl; lia].
Qed.

Lemma touched_index m m' h x y : touched m m' h 0 0 -> touched m m' h x y.
Proof. intros H b Hb _. apply H; [done | lia]. Qed.

Lemma set_index_idem h ix ix' : set_index (set_index h ix) ix' = set_index h ix'.
Proof. done. Qed.

Lemma set_index_id h : set_index h (kh_index h) = h.
Proof. by destruct h. Qed.

(** What an operation may do to the index: known entries stay, and with room
    the holes of [new] are entered. *)
Definition index_grows (m m' : mem) (ix ix' : ordered_array_t) (k : Z) (new : list Z) : Prop :=
  oa_array ix' = oa_array ix /\ oa_size ix' <= oa_size ix + k /\
  (forall x, x ∈ contents m ix -> x ∈ contents m' ix') /\
  (oa_size ix + k <= KHEAP_INDEX_NUM -> forall x, x ∈ new -> x ∈ contents m' ix').

Lemma index_grows_trans m1 m2 m3 i1 i2 i3 k k' new new' :
  0 <= k' -> index_grows m1 m2 i1 i2 k new -> index_grows m2 m3 i2 i3 k' new' ->
  index_grows m1 m3 i1 i3 (k + k') (new ++ new').
Proof.
  intros Hk (Ha & Hs & Hin & Hn) (Ha' & Hs' & Hin' & Hn'). split; [congruence |].
  split; [lia |]. split; [auto |]. intros Hroom x Hx.
  apply elem_of_app in Hx as [Hx|Hx]; [apply Hin', Hn; [lia | done] | apply Hn'; [lia | done]].
Qed.

(** A block written into the gap and entered in the index as a hole. *)
Lemma gap_fill_hole m h l n r x s :
  heap_gap m h l n r None -> 0 < s -> s + BLOCK_META_SIZE <= n ->
  x = kh_start h + total l ->
  exists m1 m' ix' q,
    make_block m x s IS_HOLE = Ok (m1, x) /\
    ordered_array_insert m1 (kh_index h) x = (m', ix', q) /\
    heap_gap m' (set_index h ix') (l ++ [Blk s true]) (n - (s + BLOCK_META_SIZE)) r None /\
    touched m m' h x (x + s + BLOCK_META_SIZE) /\
    index_grows m m' (kh_index h) ix' 1 [x].
Proof.
  intros Hg Hs Hn Hx.
  destruct (gap_fill m h l n r None x s IS_HOLE true) as (m1 & He & Hg1 & Hc1 & Ht1); [done..|].
  assert (x ∈ holes (kh_start h) (l ++ [Blk s true])) as Hh.
  { rewrite holes_app, elem_of_app. right. simpl. apply list_elem_of_singleton. lia. }
  assert (x ∉ contents m1 (kh_index h)) as Hni.
  { rewrite Hc1. intros Hin. pose proof Hg as [].
    destruct (gap_entries_outside _ _ _ _ _ _ _ Hg Hin); [done | klia | klia]. }
  destruct (gap_insert m1 h _ _ _ x Hg1 (or_introl Hh) Hni)
    as (m' & ix' & q & Hi & Hg' & Ht' & Ha & Hc).
  exists m1, m', ix', q. split; [done |]. split; [done |]. split; [done |]. split.
  - eapply touched_trans; [done |]. by apply touched_index.
  - split; [done |]. rewrite <- Hc1. case_decide as Hroom.
    + destruct Hc as [Hsz Hp]. split; [lia |]. split.
      * intros z Hz. rewrite Hp. by right.
      * intros _ z ->%list_elem_of_singleton. rewrite Hp. by left.
    + destruct Hc as [-> Hc]. split; [lia |]. rewrite Hc. split; [done | lia].
Qed.

(** ** [alloc_take] *)

Lemma alloc_take_spec m h l r header b size :
  heap_gap m h l (b + BLOCK_META_SIZE) r None -> header = kh_start h + total l ->
  0 < size <= b ->
  exists m' ix',
    alloc_take m h header b size = Ok (m', set_index h ix') /\
    heap_gap m' (set_index h ix') (l ++ carve b size) 0 r None /\
    touched m m' h header (header + b + BLOCK_META_SIZE) /\
    index_grows m m' (kh_index h) ix' 1 (holes header (carve b size)).
Proof.
  intros Hg Hx Hsz. pose proof (gap_bounds _ _ _ _ _ _ Hg) as (? & ? & ? & ?). pose proof Hg as [].
  assert (b < 4294967296 /\ header + b + 17 < 4294967296 /\ 0 <= header) as (? & ? & ?) by klia.
  unfold alloc_take, carve. rewrite (proj2 (Z.leb_le size b)) by lia. cbn [ASSERT mbind outcome_bind].
  rewrite (u32_small (b - size)) by lia.
  destruct (Z.leb_spec (b - size) BLOCK_META_SIZE) as [Hsmall|Hbig].
  - destruct (gap_fill m h l (b + BLOCK_META_SIZE) r None header b NOT_HOLE false) as (m1 & He & Hg1 & Hc1 & Ht1);
      [done | lia | lia | done | done |].
    rewrite He. cbn. exists m1, (kh_index h). rewrite set_index_id. split; [done |].
    split; [by rewrite Z.sub_diag in Hg1 |]. split; [done |].
    split; [done |]. split; [lia |]. rewrite Hc1. split; [done |]. by intros _ x ?%elem_of_nil.
  - destruct (gap_fill m h l (b + BLOCK_META_SIZE) r None header size NOT_HOLE false) as (m1 & He & Hg1 & Hc1 & Ht1);
      [done | lia | klia | done | done |].
    rewrite He. cbn. rewrite (proj2 (Z.ltb_lt 0 (b - size))) by klia.
    rewrite (proj2 (Z.ltb_lt BLOCK_META_SIZE (b - size))) by klia. cbn.
    rewrite (u32_small (header + BLOCK_META_SIZE + size)), (u32_small (b - size - BLOCK_META_SIZE)) by klia.
    destruct (gap_fill_hole m1 h (l ++ [Blk size false])
                (b + BLOCK_META_SIZE - (size + BLOCK_META_SIZE)) r
                (header + BLOCK_META_SIZE + size) (b - size - BLOCK_META_SIZE))
      as (m2 & m3 & ix3 & q & He2 & Hi & Hg3 & Ht3 & Hix); [done | klia | klia | |].
    { rewrite total_snoc. klia. }
    rewrite He2. cbn. rewrite Hi. exists m3, ix3. split; [done |].
    rewrite <- app_assoc in Hg3. split; [|split].
    + replace (b + BLOCK_META_SIZE - (size + BLOCK_META_SIZE) - (b - size - BLOCK_META_SIZE + BLOCK_META_SIZE))
        with 0 in Hg3 by klia. done.
    + eapply touched_trans; (eapply touched_sub; [done | klia | klia]).
    + unfold index_grows in *. rewrite Hc1 in Hix. cbn [holes b_hole app] in *.
      replace (header + b_len (Blk size false)) with (header + BLOCK_META_SIZE + size) by klia. done.
Qed.

(** ** [alloc_front] *)

Lemma alloc_front_spec m h l r header b pos (align : bool) cut :
  heap_gap m h l (b + BLOCK_META_SIZE) r None -> header = kh_start h + total l ->
  pos = header + cut + HEADER_SIZE ->
  (if align then BLOCK_META_SIZE < cut < b else cut = 0) -> 0 < b ->
  exists m' ix',
    alloc_front m h header b pos align = Ok (m', set_index h ix', b - cut, header + cut) /\
    heap_gap m' (set_index h ix') (l ++ front cut) (b - cut + BLOCK_META_SIZE) r None /\
    touched m m' h header (header + b + BLOCK_META_SIZE) /\
    index_grows m m' (kh_index h) ix' 1 (holes header (front cut)).
Proof.
  intros Hg Hx -> Hcut Hb. pose proof (gap_bounds _ _ _ _ _ _ Hg) as (? & ? & ? & ?).
  pose proof Hg as []. unfold alloc_front, front. destruct align.
  - rewrite (u32_small (_ - HEADER_SIZE)) by klia.
    rewrite (proj2 (Z.ltb_lt header _)), (proj2 (Z.eqb_neq cut 0)) by klia.
    replace (header + cut + HEADER_SIZE - HEADER_SIZE - header) with cut by lia.
    rewrite (u32_small cut), (proj2 (Z.ltb_lt _ cut)), (u32_small (cut - _)), (u32_small (b - cut))
      by klia. cbn [ASSERT mbind outcome_bind].
    destruct (gap_fill_hole m h l (b + BLOCK_META_SIZE) r header (cut - BLOCK_META_SIZE))
      as (m1 & m' & ix' & q & He & Hi & Hg' & Ht & Hix); [done | klia | klia | done |].
    rewrite He. cbn. rewrite Hi. exists m', ix'. split; [f_equal; f_equal; lia |].
    split; [|split; [|done]].
    + by replace (b - cut + BLOCK_META_SIZE)
        with (b + BLOCK_META_SIZE - (cut - BLOCK_META_SIZE + BLOCK_META_SIZE)) by lia.
    + eapply touched_sub; [done | lia | klia].
  - subst cut. exists m, (kh_index h). rewrite set_index_id, Z.sub_0_r, Z.add_0_r.
    split; [done |]. simpl. rewrite app_nil_r. split; [done |]. split; [done |].
    split; [done |]. split; [lia |]. split; [done |]. by intros _ x ?%elem_of_nil.
Qed.

(** ** [alloc_found] *)

(** What taking the hole [header] does to the index. *)
Definition index_taken (m m' : mem) (ix ix' : ordered_array_t) (header : Z) (new : list Z) : Prop :=
  oa_array ix' = oa_array ix /\ oa_size ix' <= oa_size ix + 1 /\
  (forall x, x ∈ contents m ix -> x <> header -> x ∈ contents m' ix') /\
  (oa_size ix < KHEAP_INDEX_NUM -> forall x, x ∈ new -> x ∈ contents m' ix').

Lemma alloc_found_spec m h l r b i header size (align : bool) cut :
  heap_wf m h (l ++ Blk b true :: r) -> header = kh_start h + total l ->
  0 <= i -> contents m (kh_index h) !! Z.to_nat i = Some header ->
  (if align then BLOCK_META_SIZE < cut < b else cut = 0) -> 0 < size <= b - cut ->
  exists m' ix',
    alloc_found m h size align i (header + cut + HEADER_SIZE) =
      Ok (m', set_index h ix', header + cut + HEADER_SIZE) /\
    heap_wf m' (set_index h ix') (l ++ split_hole cut b size ++ r) /\
    touched m m' h header (header + b + BLOCK_META_SIZE) /\
    index_taken m m' (kh_index h) ix' header (holes header (split_hole cut b size)).
Proof.
  intros Hwf Hx Hi Hl Hcut Hsz. pose proof (hw_coalesced _ _ _ Hwf) as Hco.
  pose proof (chain_block _ _ _ _ _ _ (hw_chain _ _ _ Hwf)) as Hb. rewrite <- Hx in Hb.
  pose proof (hw_index _ _ _ Hwf) as Hix. destruct Hb as [Hbpos Hbm _ Hbs _ _].
  cbn [b_size] in Hbpos, Hbs.
  replace (l ++ Blk b true :: r) with ((l ++ [Blk b true]) ++ r) in Hwf by by rewrite <- app_assoc.
  pose proof (gap_open _ _ _ _ _ _ (gap_of_wf _ _ _ _ Hwf)) as Hg.
  rewrite Z.add_0_r, <- Hx in Hg. change (b_len (Blk b true)) with (b + BLOCK_META_SIZE) in Hg.
  unfold alloc_found. rewrite get_spec, Hl by done. cbn [default from_option id].
  rewrite Hbm, Hbs, Z.eqb_refl. cbn [ASSERT mbind outcome_bind].
  destruct (gap_remove_at _ _ _ _ _ _ _ Hg Hi Hl) as (m1 & ix1 & q & -> & Hg1 & Ht1 & Ha1 & Hc1).
  destruct (alloc_front_spec m1 (set_index h ix1) l r header b (header + cut + HEADER_SIZE) align cut Hg1)
    as (m2 & ix2 & -> & Hg2 & Ht2 & Hi2); [done..|]. rewrite set_index_idem in Hg2. cbn [mbind outcome_bind]. rewrite set_index_idem.
  destruct (alloc_take_spec m2 (set_index h ix2) (l ++ front cut) r (header + cut) (b - cut) size Hg2)
    as (m3 & ix3 & -> & Hg3 & Ht3 & Hi3); [simpl; rewrite total_app, total_front; lia | lia |].
  rewrite set_index_idem in Hg3. exists m3, ix3. split; [done |].
  assert (0 <= cut) by (destruct align; klia).
  pose proof (index_grows_trans _ _ _ _ _ _ _ _ _ _ Z.le_0_1 Hi2 Hi3) as Hix3.
  change (kh_index (set_index h ix1)) with ix1 in Hix3.
  replace (header + cut) with (header + total (front cut)) in Hix3 by (rewrite total_front; lia).
  rewrite <- holes_app in Hix3. fold (split_hole cut b size) in Hix3.
  split; [|split].
  - rewrite <- app_assoc in Hg3. fold (split_hole cut b size) in Hg3.
    rewrite app_assoc in *. apply wf_of_gap; [done | | by rewrite <- app_assoc; apply coalesced_split].
    destruct (carve_head (b - cut) size) as (s & q' & Hcv & _). unfold split_hole. rewrite Hcv.
    intros Hnil%(f_equal length). rewrite !length_app in Hnil. simpl in Hnil. lia.
  - eapply touched_trans; [by apply touched_index, Ht1 |]. eapply touched_trans.
    + eapply touched_same_heap; [| |exact Ht2]; [by simpl|done].
    + eapply touched_sub; [eapply touched_same_heap; [| |exact Ht3]|lia|lia]; [|done].
      simpl. destruct Hi2 as [Hi2 _]. simpl in Hi2. congruence.
  - destruct Hix3 as (Ha3 & Hs3 & Hk3 & Hn3).
    assert (oa_size ix1 = oa_size (kh_index h) - 1) as Hs1.
    { eapply removed_size; [exact Hix | apply (hg_index _ _ _ _ _ _ Hg1) | | exact Hc1].
      by eapply list_elem_of_lookup_2. }
    split; [congruence |]. split; [lia |]. split.
    + intros x Hin Hne. apply Hk3. rewrite Hc1. by apply elem_of_delete_first; [apply Hix |].
    + intros Hroom. apply Hn3. lia.
Qed.
