(* ===== verification/KHeapMalloc.v ===== *)
(** * The kernel heap: searching, expanding and allocating

    [find_hole] returns the first entry of the index that fits; [alloc]
    expands the heap until there is one. *)

From S2P Require Import Prelude.
From S2P Require Import Memory.
From S2P Require Import OrderedArray.
From S2P Require Import YieldLock.
From S2P Require Import KHeap.
From S2P Require Import KHeapInv.
From S2P Require Import KHeapGap.
From S2P Require Import KHeapAlloc.

(** Requests below this bound cannot wrap an address around. *)
Definition ALLOC_LIMIT : Z := 0x1FFF0000.

Ltac mlia := unfold ALLOC_LIMIT in *; klia.

(** ** Page alignment *)

Lemma align_to_page_spec num :
  0 <= num <= 0xFFFFF000 -> align_to_page num = (num + 4095) / 4096 * 4096.
Proof.
  intros H. unfold align_to_page.
  assert (Z.land num 0xFFF = num mod 4096) as -> by (apply (Z.land_ones num 12); lia).
  change 0xFFFFF000 with (Z.shiftl (Z.ones 20) 12).
  assert (Z.land num (Z.shiftl (Z.ones 20) 12) = num / 4096 * 4096) as ->.
  { change 4096 with (2 ^ 12). rewrite <- Z.shiftl_mul_pow2, <- Z.shiftr_div_pow2 by lia.
    apply Z.bits_inj'. intros j Hj. rewrite Z.land_spec, !Z.shiftl_spec by lia.
    destruct (Z.ltb_spec j 12).
    { rewrite !(Z.testbit_neg_r _ (j - 12)) by lia. apply andb_false_r. }
    rewrite Z.shiftr_spec, Z.sub_add by lia. rewrite Z.testbit_ones_nonneg by lia.
    destruct (Z.ltb_spec (j - 12) 20); [apply andb_true_r |]. rewrite andb_false_r. symmetry.
    destruct (decide (num = 0)) as [->|]; [apply Z.bits_0 |].
    apply Z.bits_above_log2; [lia |]. apply Z.lt_le_trans with 32; [|lia].
    apply Z.log2_lt_pow2; lia. }
  unfold PAGE_SIZE. destruct (Z.eqb_spec (num mod 4096) 0); simpl; [lia |].
  rewrite u32_small; lia.
Qed.

(** The search for an aligned position in the data [start, end_) of a hole
    takes at most two turns. *)
Lemma find_aligned_spec start b size :
  0 <= start -> 0 <= b -> start + b <= KHEAP_MAX -> 0 < size < ALLOC_LIMIT ->
  exists r, find_aligned ALIGN_FUEL start (start + b) size (align_to_page start) = Ok r /\
    match r with
    | Some pos => pos mod PAGE_SIZE = 0 /\ start + BLOCK_META_SIZE < pos /\ pos + size <= start + b
    | None => b < size + PAGE_SIZE + BLOCK_META_SIZE
    end.
Proof.
  intros H0 Hb He Hs.
  rewrite align_to_page_spec by mlia.
  set (p := (start + 4095) / 4096 * 4096).
  assert (start <= p < start + 4096 /\ p mod 4096 = 0) as [Hp Hm] by (unfold p; lia).
  unfold ALIGN_FUEL. cbn [find_aligned]. rewrite (u32_small (p + size)) by mlia.
  destruct (Z.leb_spec (p + size) (start + b)); [|exists None; split; [done | mlia]].
  rewrite (u32_small (p - start)) by mlia.
  destruct (Z.ltb_spec BLOCK_META_SIZE (p - start)).
  { exists (Some p). split; [done |]. mlia. }
  rewrite (u32_small (p + PAGE_SIZE)), (u32_small (p + PAGE_SIZE + size)) by mlia.
  destruct (Z.leb_spec (p + PAGE_SIZE + size) (start + b)); [|exists None; split; [done | mlia]].
  rewrite (u32_small (p + PAGE_SIZE - start)) by mlia.
  rewrite (proj2 (Z.ltb_lt _ _)) by mlia. exists (Some (p + PAGE_SIZE)). split; [done |]. mlia.
Qed.

(** ** [find_hole] *)

(** The bytes [cut] off a hole of [b] bytes in front of the block. *)
Definition cut_ok (align : bool) (header cut b size : Z) : Prop :=
  (if align then BLOCK_META_SIZE < cut < b /\ (header + cut + HEADER_SIZE) mod PAGE_SIZE = 0
   else cut = 0) /\ size <= b - cut.

(** A hole that is too small at worst. *)
Definition too_small (align : bool) (b size : Z) : Prop :=
  if align then b < size + PAGE_SIZE + BLOCK_META_SIZE else b < size.

Lemma hole_fits_spec m header size align :
  0 <= header -> header + hdr_size m header + BLOCK_META_SIZE <= KHEAP_MAX ->
  0 < size < ALLOC_LIMIT ->
  exists r, hole_fits m header size align = Ok r /\
    match r with
    | Some pos => exists cut, pos = header + cut + HEADER_SIZE /\
                    cut_ok align header cut (hdr_size m header) size
    | None => too_small align (hdr_size m header) size
    end.
Proof.
  intros Hh He Hs. pose proof (load32_range m (header + 5)). fold (hdr_size m header) in *.
  unfold is_u32, hole_fits in *. rewrite (u32_small (header + HEADER_SIZE)) by mlia.
  destruct align; cbv beta iota zeta.
  - rewrite u32_small by mlia.
    destruct (find_aligned_spec (header + HEADER_SIZE) (hdr_size m header) size) as (r & -> & Hr);
      [mlia | mlia | mlia | done |].
    exists r. split; [done |]. destruct r as [pos|]; [|done]. destruct Hr as (Hm & Hlo & Hhi).
    exists (pos - header - HEADER_SIZE). split; [lia |]. unfold cut_ok.
    replace (header + (pos - header - HEADER_SIZE) + HEADER_SIZE) with pos by lia. mlia.
  - destruct (Z.leb_spec size (hdr_size m header)).
    + eexists. split; [done |]. exists 0. unfold cut_ok. split; lia.
    + exists None. done.
Qed.

Lemma find_hole_from_spec n i m this size align :
  0 <= i -> i + Z.of_nat n = oa_size (kh_index this) ->
  (forall x, x ∈ contents m (kh_index this) ->
     0 <= x /\ x + hdr_size m x + BLOCK_META_SIZE <= KHEAP_MAX) ->
  0 < size < ALLOC_LIMIT ->
  exists r, find_hole_from n i m this size align = Ok r /\
    match r with
    | Some (j, pos) => i <= j /\ exists x cut,
        contents m (kh_index this) !! Z.to_nat j = Some x /\
        pos = x + cut + HEADER_SIZE /\ cut_ok align x cut (hdr_size m x) size /\
        (forall k y, i <= k < j -> contents m (kh_index this) !! Z.to_nat k = Some y ->
           too_small align (hdr_size m y) size)
    | None => forall k y, i <= k -> contents m (kh_index this) !! Z.to_nat k = Some y ->
           too_small align (hdr_size m y) size
    end.
Proof.
  revert i. induction n as [|n IH]; intros i Hi Hn Hx Hs; cbn [find_hole_from].
  - exists None. split; [done |]. intros k y Hk Hy. exfalso.
    apply lookup_lt_Some in Hy. rewrite length_contents in Hy by lia. lia.
  - rewrite get_spec by done.
    destruct (contents m (kh_index this) !! Z.to_nat i) as [x|] eqn:Hl.
    2: { apply lookup_ge_None in Hl. rewrite length_contents in Hl by lia. lia. }
    cbn [default from_option id]. destruct (Hx x) as [Hx0 Hxe]; [eauto using list_elem_of_lookup_2 |].
    destruct (hole_fits_spec m x size align) as (r & -> & Hr); [done..|]. simpl.
    destruct r as [pos|].
    + destruct Hr as (cut & -> & Hcut). eexists. split; [done |]. split; [lia |].
      exists x, cut. repeat (split; [done |]). intros; lia.
    + destruct (IH (i + 1)) as (r & -> & Hr'); [lia | lia | done | done |].
      exists r. split; [done |]. destruct r as [[j pos]|].
      * destruct Hr' as (Hij & y & cut & ? & ? & ? & Hle). split; [lia |].
        exists y, cut. repeat (split; [done |]). intros k z Hk Hz.
        destruct (decide (k = i)) as [->|]; [congruence | apply (Hle k); [lia | done]].
      * intros k z Hk Hz.
        destruct (decide (k = i)) as [->|]; [congruence | apply (Hr' k); [lia | done]].
Qed.

(** In a well-formed heap the entries are holes: the result is a hole of the
    list of blocks. *)
Lemma find_hole_spec m h bs size align :
  heap_wf m h bs -> 0 < size < ALLOC_LIMIT ->
  exists r, find_hole m h size align = Ok r /\
    match r with
    | Some (i, pos) => exists l b r header cut,
        bs = l ++ Blk b true :: r /\ header = kh_start h + total l /\
        0 <= i /\ contents m (kh_index h) !! Z.to_nat i = Some header /\
        pos = header + cut + HEADER_SIZE /\ cut_ok align header cut b size /\
        (forall k y, 0 <= k < i -> contents m (kh_index h) !! Z.to_nat k = Some y ->
           too_small align (hdr_size m y) size)
    | None => forall l b r, bs = l ++ Blk b true :: r ->
        kh_start h + total l ∈ contents m (kh_index h) -> too_small align b size
    end.
Proof.
  intros Hwf Hs. pose proof (hw_index _ _ _ Hwf) as Hix. pose proof Hwf as [].
  assert (forall x, x ∈ contents m (kh_index h) -> exists l r,
    bs = l ++ Blk (hdr_size m x) true :: r /\ x = kh_start h + total l) as Hent.
  { intros x Hx. eapply holes_size; [done | by apply hw_sound]. }
  destruct (find_hole_from_spec (Z.to_nat (oa_size (kh_index h))) 0 m h size align)
    as (r & Hf & Hr); [lia | pose proof (proj1 (ix_wf _ _ _ Hix)); lia | | done |].
  { intros x Hx. destruct (Hent x Hx) as (l & r & -> & ->).
    rewrite chain_app in hw_chain. destruct hw_chain as (Hl & _ & Hr).
    pose proof (chain_end _ _ _ _ Hr). apply chain_total_nonneg in Hl, Hr.
    cbn [b_len b_size] in *. mlia. }
  exists r. split; [exact Hf |]. destruct r as [[i pos]|].
  - destruct Hr as (Hi & x & cut & Hl & -> & Hcut & Hle).
    destruct (Hent x) as (l & r & Hbs & Hx); [eauto using list_elem_of_lookup_2 |].
    exists l, (hdr_size m x), r, x, cut. repeat (split; [done |]). done.
  - intros l b r Hbs Hin. apply list_elem_of_lookup in Hin as (k & Hk).
    specialize (Hr (Z.of_nat k) (kh_start h + total l)). rewrite Nat2Z.id in Hr.
    specialize (Hr ltac:(lia) Hk). subst bs. by rewrite (ib_size _ _ _ (chain_block _ _ _ _ _ _ hw_chain)) in Hr.
Qed.

(** ** [alloc_expand] *)

(** The blocks of a heap expanded by [ext] bytes. *)
Fixpoint grow (bs : list block) (ext : Z) : list block :=
  match bs with
  | [] => [Blk (ext - BLOCK_META_SIZE) true]
  | [Blk s true] => [Blk (s + ext) true]
  | b :: bs => b :: grow bs ext
  end.

Lemma grow_hole l s ext : grow (l ++ [Blk s true]) ext = l ++ [Blk (s + ext) true].
Proof.
  induction l as [|b l IH]; [done |]. simpl. rewrite IH.
  destruct b as [? []], (l ++ [Blk s true]) eqn:He; try done; by destruct l.
Qed.

Lemma grow_used l s ext :
  grow (l ++ [Blk s false]) ext = l ++ [Blk s false; Blk (ext - BLOCK_META_SIZE) true].
Proof.
  induction l as [|b l IH]; [done |]. simpl. rewrite IH.
  destruct b as [? []], (l ++ [Blk s false]) eqn:He; try done; by destruct l.
Qed.

(** The data of the allocated blocks is kept. *)
Definition data_kept (m m' : mem) (al : list (Z * Z)) : Prop :=
  forall p n, (p, n) ∈ al -> same_on m m' p (p + n).

Lemma data_kept_trans m1 m2 m3 al al' :
  al ⊆ al' -> data_kept m1 m2 al -> data_kept m2 m3 al' -> data_kept m1 m3 al.
Proof. intros Hs H12 H23 p n Hin. eapply same_on_trans; [by apply H12 | by apply H23, Hs]. Qed.

(** What was touched lies in one segment of blocks, the others are kept. *)
Lemma data_kept_outside m0 m m' h l r al x y n :
  chain m0 (kh_start h) l x -> chain m0 y r n -> kh_start h <= x <= y ->
  touched m m' h x y -> al ≡ₚ allocs (kh_start h) l ++ allocs y r -> data_kept m m' al.
Proof.
  intros Hl Hr Hx Ht Hal p k Hin. rewrite Hal, elem_of_app in Hin.
  destruct Hin as [Hin|Hin].
  - destruct (allocs_bounds _ _ _ _ _ _ Hl Hin) as (? & ? & ?).
    eapply touched_on; [done | klia | klia].
  - destruct (allocs_bounds _ _ _ _ _ _ Hr Hin) as (? & ? & ?).
    eapply touched_on; [done | klia | klia].
Qed.

Lemma kheap_expand_spec m h bs s :
  heap_wf m h bs -> 0 < s < ALLOC_LIMIT + BLOCK_META_SIZE ->
  let ext := align_to_page s in
  0 < ext /\ s <= ext /\ ext mod PAGE_SIZE = 0 /\
  kheap_expand h s =
    if kh_end h + ext <=? kh_max h
    then Ok (set_end_size h (kh_end h + ext) (kh_size h + ext), ext) else Panic.
Proof.
  intros Hwf Hs ext. pose proof Hwf as []. unfold ext, kheap_expand.
  pose proof (chain_total_nonneg _ _ _ _ hw_chain). apply chain_end in hw_chain.
  rewrite align_to_page_spec by mlia.
  set (e := (s + 4095) / 4096 * 4096).
  assert (s <= e < s + 4096 /\ e mod 4096 = 0) as [? ?] by (unfold e; lia).
  repeat (split; [mlia |]). rewrite (proj2 (Z.leb_gt e 0)), !u32_small by mlia.
  by destruct (_ <=? _).
Qed.

(** The expansion opens a gap behind the last block. *)
Lemma gap_expand m h bs ext :
  heap_wf m h bs -> 0 <= ext -> kh_end h + ext <= kh_max h ->
  heap_gap m (set_end_size h (kh_end h + ext) (kh_size h + ext)) bs ext [] None.
Proof.
  intros [] He Hm. pose proof (chain_end _ _ _ _ hw_chain).
  constructor; cbn [set_end_size kh_start kh_end kh_index kh_size kh_max chain]; try done.
  - congruence.
  - lia.
  - lia.
  - lia.
  - intros x Hx _. left. by apply hw_sound.
  - intros b Hb. apply hw_zero. lia.
Qed.

(** The address of the last block and what [alloc_expand] reads there. *)
Lemma last_block m h l b :
  heap_wf m h (l ++ [b]) ->
  let header := kh_start h + total l in
  ftr_header m (u32 (kh_end h - FOOTER_SIZE)) = header /\
  kh_end h = header + b_len b /\ is_block m header b.
Proof.
  intros [] header. pose proof (chain_end _ _ _ _ hw_chain) as He. rewrite total_snoc in He.
  apply chain_block in hw_chain as Hb. apply chain_app in hw_chain as [Hl _].
  apply chain_total_nonneg in Hl. pose proof Hb as []. split; [|split; [lia | done]].
  rewrite u32_small by klia. replace (kh_end h - FOOTER_SIZE)
    with (kh_start h + total l + HEADER_SIZE + b_size b) by klia. done.
Qed.

(** 1 when the last block is in use, and its data bytes when it is a hole. *)
Definition tail_used (bs : list block) : Z :=
  match last bs with Some (Blk _ true) => 0 | _ => 1 end.
Definition tail_room (bs : list block) : Z :=
  match last bs with Some (Blk s true) => s | _ => - BLOCK_META_SIZE end.

Lemma tail_used_range bs : 0 <= tail_used bs <= 1.
Proof. unfold tail_used. destruct (last _) as [[? []]|]; lia. Qed.

Lemma tail_grow bs ext :
  bs <> [] -> tail_used (grow bs ext) = 0 /\ tail_room (grow bs ext) = tail_room bs + ext.
Proof.
  unfold tail_used, tail_room. destruct bs as [|[s []] bs _] using rev_ind; [done | |]; intros _.
  - rewrite grow_hole, !last_snoc. done.
  - rewrite grow_used, last_snoc. change [_; ?c] with ([Blk s false] ++ [c]).
    rewrite app_assoc, last_snoc. split; [done | lia].
Qed.

(** The heap after an expansion by [ext] bytes. *)
Record expanded (m : mem) (h : kheap_t) (bs : list block) (ext : Z) (m' : mem) (h' : kheap_t) :
  Prop := {
  ex_wf : heap_wf m' h' (grow bs ext);
  ex_start : kh_start h' = kh_start h;
  ex_max : kh_max h' = kh_max h;
  ex_end : kh_end h' = kh_end h + ext;
  ex_kept : data_kept m m' (allocs (kh_start h) bs);
  ex_size : oa_size (kh_index h') <= oa_size (kh_index h) + tail_used bs;
  ex_indexed : indexed m h bs -> oa_size (kh_index h) < KHEAP_INDEX_NUM ->
    indexed m' h' (grow bs ext)
}.

Lemma gap_nil_wf m h bs : heap_gap m h bs 0 [] None -> bs <> [] -> coalesced bs -> heap_wf m h bs.
Proof.
  intros Hg Hne Hco. rewrite <- (app_nil_r bs). apply wf_of_gap; by rewrite ?app_nil_r.
Qed.

Lemma allocs_grow a bs ext : bs <> [] -> allocs a (grow bs ext) = allocs a bs.
Proof.
  destruct bs as [|[s []] bs _] using rev_ind; [done | |]; intros _.
  - rewrite grow_hole, !allocs_app. done.
  - rewrite grow_used, !allocs_app. done.
Qed.

(** The last block is a hole: it is made larger and entered anew. *)
Lemma expand_hole_spec m h l s ext header :
  heap_wf m h (l ++ [Blk s true]) -> 0 < ext -> kh_end h + ext <= kh_max h ->
  header = kh_start h + total l -> header ∈ contents m (kh_index h) ->
  let h1 := set_end_size h (kh_end h + ext) (kh_size h + ext) in
  exists m1 m2 ix2 m3 ix3 q,
    make_block m header (s + ext) IS_HOLE = Ok (m1, header) /\
    ordered_array_remove_element m1 (kh_index h) header = (m2, ix2, 1) /\
    ordered_array_insert m2 ix2 header = (m3, ix3, q) /\
    expanded m h (l ++ [Blk s true]) ext m3 (set_index h1 ix3).
Proof.
  intros Hwf He Hmax Hx Hin h1. pose proof (hw_coalesced _ _ _ Hwf) as Hco.
  pose proof (ib_pos _ _ _ (chain_block _ _ _ _ _ _ (hw_chain _ _ _ Hwf))) as Hs. cbn in Hs.
  pose proof (gap_open _ _ _ _ _ _ (gap_expand _ _ _ ext Hwf ltac:(lia) Hmax)) as Hg.
  fold h1 in Hg. cbn [kh_start set_end_size h1] in Hg. rewrite <- Hx in Hg.
  destruct (gap_fill m h1 l _ [] _ header (s + ext) IS_HOLE true Hg)
    as (m1 & He1 & Hg1 & Hc1 & Ht1); [lia | klia | done | done |].
  replace (_ - _) with 0 in Hg1 by klia. cbn [kh_index h1 set_end_size] in Hc1.
  rewrite <- Hc1 in Hin.
  destruct (ordered_array_remove_element m1 (kh_index h) header) as [[m2 ix2] q2] eqn:Hr.
  pose proof (gap_remove_element _ _ _ _ _ _ _ _ _ Hg1 Hr) as Hg2.
  rewrite decide_True in Hg2 by done. destruct Hg2 as (-> & Hg2 & Ht2 & Ha2 & Hc2).
  assert (header ∉ contents m2 ix2) as Hni.
  { rewrite Hc2. intros [_ ?]%elem_of_delete_first; [done |]. apply (hg_index _ _ _ _ _ _ Hg1). }
  assert (header ∈ holes (kh_start h) (l ++ [Blk (s + ext) true])) as Hh.
  { rewrite holes_app. apply elem_of_app. right. rewrite <- Hx. by left. }
  destruct (gap_insert m2 (set_index h1 ix2) _ _ _ header Hg2 (or_introl Hh) Hni)
    as (m3 & ix3 & q & Hi & Hg3 & Ht3 & Ha3 & Hc3).
  rewrite set_index_idem in Hg3. cbn [kh_index set_index] in Hi, Ha3, Hc3.
  exists m1, m2, ix2, m3, ix3, q. repeat (split; [done |]).
  assert (oa_size ix2 = oa_size (kh_index h) - 1) as Hs2.
  { exact (removed_size _ _ _ _ _ _ _ (hg_index _ _ _ _ _ _ Hg1) (hg_index _ _ _ _ _ _ Hg2)
      Hin Hc2). }
  constructor; cbn [set_index h1 set_end_size kh_start kh_max kh_end kh_index]; try done.
  - rewrite grow_hole. apply gap_nil_wf; [done | by destruct l |].
    apply coalesced_hole. by apply coalesced_hole in Hco.
  - eapply (data_kept_outside m m m3 h l [] _ header (kh_end h + ext)).
    + rewrite Hx. apply (hg_l _ _ _ _ _ _ Hg).
    + done.
    + pose proof (gap_bounds _ _ _ _ _ _ Hg). cbn in *. klia.
    + eapply touched_trans; [|eapply touched_trans].
      * eapply touched_sub; [exact Ht1 | lia |]. pose proof (gap_bounds _ _ _ _ _ _ Hg). cbn in *. klia.
      * apply touched_index. exact Ht2.
      * apply touched_index. eapply touched_same_heap; [| |exact Ht3]; [by simpl | done].
    + by rewrite allocs_app, app_nil_r, (app_nil_r (allocs _ l)).
  - unfold tail_used. rewrite last_snoc. case_decide; [lia |]. destruct Hc3 as [-> _]. lia.
  - intros Hidx Hroom x Hxh. rewrite decide_True in Hc3 by lia. destruct Hc3 as [_ Hc3].
    rewrite grow_hole in Hxh. change (kh_start _) with (kh_start h) in Hxh.
    cbn [kh_index set_index]. rewrite Hc3, elem_of_cons.
    destruct (decide (x = header)) as [|Hne]; [by left | right].
    rewrite Hc2. apply elem_of_delete_first; [apply (hg_index _ _ _ _ _ _ Hg1) |]. split; [|done].
    change (kh_index h1) with (kh_index h). rewrite Hc1. apply Hidx.
    rewrite holes_app in Hxh |- *. cbn [holes b_hole app] in *. rewrite <- Hx in *. set_solver.
Qed.

(** A last hole that is not in the index fails the assertion. *)
Lemma expand_unindexed m h l s ext header :
  heap_wf m h (l ++ [Blk s true]) -> 0 < ext -> kh_end h + ext <= kh_max h ->
  header = kh_start h + total l -> header ∉ contents m (kh_index h) ->
  exists m1 m2 ix2, make_block m header (s + ext) IS_HOLE = Ok (m1, header) /\
    ordered_array_remove_element m1 (kh_index h) header = (m2, ix2, 0).
Proof.
  intros Hwf He Hmax Hx Hni.
  pose proof (ib_pos _ _ _ (chain_block _ _ _ _ _ _ (hw_chain _ _ _ Hwf))) as Hs. cbn in Hs.
  pose proof (gap_open _ _ _ _ _ _ (gap_expand _ _ _ ext Hwf ltac:(lia) Hmax)) as Hg.
  cbn [kh_start set_end_size] in Hg. rewrite <- Hx in Hg.
  destruct (gap_fill m _ l _ [] _ header (s + ext) IS_HOLE true Hg)
    as (m1 & He1 & Hg1 & Hc1 & Ht1); [lia | klia | done | done |].
  destruct (ordered_array_remove_element m1 (kh_index h) header) as [[m2 ix2] q2] eqn:Hr.
  pose proof (gap_remove_element _ _ _ _ _ _ _ _ _ Hg1 Hr) as Hg2.
  cbn [kh_index set_end_size] in *. rewrite Hc1, decide_False in Hg2 by done. subst q2. eauto.
Qed.

(** The last block is in use: the new space becomes a hole of its own. *)
Lemma expand_used_spec m h l s ext :
  heap_wf m h (l ++ [Blk s false]) -> BLOCK_META_SIZE < ext -> kh_end h + ext <= kh_max h ->
  let h1 := set_end_size h (kh_end h + ext) (kh_size h + ext) in
  exists m1 m2 ix2 q,
    make_block m (kh_end h) (ext - BLOCK_META_SIZE) IS_HOLE = Ok (m1, kh_end h) /\
    ordered_array_insert m1 (kh_index h) (kh_end h) = (m2, ix2, q) /\
    expanded m h (l ++ [Blk s false]) ext m2 (set_index h1 ix2).
Proof.
  intros Hwf He Hmax h1. pose proof (hw_coalesced _ _ _ Hwf) as Hco.
  pose proof (chain_end _ _ _ _ (hw_chain _ _ _ Hwf)) as Hend.
  pose proof (gap_expand _ _ _ ext Hwf ltac:(klia) Hmax) as Hg. fold h1 in Hg.
  destruct (gap_fill_hole m h1 _ ext [] (kh_end h) (ext - BLOCK_META_SIZE) Hg)
    as (m1 & m2 & ix2 & q & Hmk & Hi & Hg2 & Ht & Ha & Hs & Hk & Hn); [klia | klia | done |].
  replace (ext - (_ + _)) with 0 in Hg2 by klia.
  exists m1, m2, ix2, q. repeat (split; [done |]).
  assert (grow (l ++ [Blk s false]) ext
          = (l ++ [Blk s false]) ++ [Blk (ext - BLOCK_META_SIZE) true]) as Hgrow
    by by rewrite grow_used, <- app_assoc.
  constructor; cbn [set_index h1 set_end_size kh_start kh_max kh_end kh_index]; try done.
  - rewrite Hgrow. apply gap_nil_wf; [done | by destruct l |].
    rewrite <- app_assoc. apply coalesced_used. apply coalesced_used in Hco. naive_solver.
  - eapply (data_kept_outside m m m2 h _ [] _ (kh_end h) (kh_end h + ext)); [|done| | |].
    + apply (hw_chain _ _ _ Hwf).
    + pose proof (chain_total_nonneg _ _ _ _ (hw_chain _ _ _ Hwf)). klia.
    + eapply touched_sub; [exact Ht | done | klia].
    + by rewrite app_nil_r.
  - unfold tail_used. by rewrite last_snoc.
  - intros Hidx Hroom x Hx. rewrite Hgrow, holes_app, elem_of_app in Hx.
    cbn [kh_index set_index kh_start h1 set_end_size] in *. destruct Hx as [Hx|Hx].
    + by apply Hk, Hidx.
    + apply Hn; [lia |]. rewrite Hend. by simpl in Hx.
Qed.

Lemma alloc_expand_spec m h bs size :
  heap_wf m h bs -> 0 < size < ALLOC_LIMIT ->
  let ext := align_to_page (size + BLOCK_META_SIZE) in
  size + BLOCK_META_SIZE <= ext /\ PAGE_SIZE <= ext /\
  if decide (kh_end h + ext <= kh_max h) then
    (exists m' h', alloc_expand m h size = Ok (m', h') /\ expanded m h bs ext m' h') \/
    (alloc_expand m h size = Panic /\ ~ indexed m h bs)
  else alloc_expand m h size = Panic.
Proof.
  intros Hwf Hs ext.
  destruct (kheap_expand_spec m h bs (size + BLOCK_META_SIZE)) as (He0 & Hes & Hem & Heq);
    [done | klia |]. fold ext in He0, Hes, Hem, Heq.
  assert (PAGE_SIZE <= ext) as Hpe by klia. split; [done |]. split; [done |].
  unfold alloc_expand. rewrite (u32_small (size + _)) by mlia. rewrite Heq.
  case_decide as Hmax; [rewrite (proj2 (Z.leb_le _ _)) by done
                       |by rewrite (proj2 (Z.leb_gt _ _)) by lia].
  cbn [mbind outcome_bind].
  destruct bs as [|[s hole] l _] using rev_ind; [by destruct (hw_ne _ _ _ Hwf) |].
  destruct (last_block _ _ _ _ Hwf) as (-> & Hend & [Hpos _ Hhole Hsz _ _]).
  rewrite Hhole, Hsz. cbn [b_hole b_size] in *. pose proof (hw_max _ _ _ Hwf).
  pose proof (hw_chain _ _ _ Hwf) as [Hl%chain_total_nonneg _]%chain_app.
  pose proof (hw_lo _ _ _ Hwf). destruct hole; cbn [hole_flag].
  - cbn [negb Z.eqb IS_HOLE].
    destruct (decide (kh_start h + total l ∈ contents m (kh_index h))) as [Hin|Hni].
    + left. destruct (expand_hole_spec m h l s ext _ Hwf He0 Hmax eq_refl Hin)
        as (m1 & m2 & ix2 & m3 & ix3 & q & Hmk & Hrm & Hi & Hex).
      rewrite u32_small by klia. rewrite Hmk. cbn [mbind outcome_bind].
      cbn [set_end_size kh_index]. rewrite Hrm. cbn. rewrite Hi. eauto.
    + right. split; [|intros Hidx; by apply Hni, Hidx; rewrite holes_app; set_solver].
      rewrite u32_small by klia.
      destruct (expand_unindexed m h l s ext _ Hwf He0 Hmax eq_refl Hni) as (m1 & m2 & ix2 & Hmk & Hrm).
      rewrite Hmk. cbn [mbind outcome_bind set_end_size kh_index]. by rewrite Hrm.
  - cbn [negb Z.eqb NOT_HOLE]. left. rewrite u32_small by klia.
    destruct (expand_used_spec m h l s ext Hwf ltac:(klia) Hmax)
      as (m1 & m2 & ix2 & q & Hmk & Hi & Hex).
    rewrite Hmk. cbn [mbind outcome_bind set_end_size kh_index]. rewrite Hi. eauto.
Qed.
