(* ===== verification/KHeapSpec.v ===== *)
(** * The kernel heap: what [alloc] promises *)

From S2P Require Import Prelude.
From S2P Require Import Memory.
From S2P Require Import OrderedArray.
From S2P Require Import YieldLock.
From S2P Require Import KHeap.
From S2P Require Import KHeapInv.
From S2P Require Import KHeapGap.
From S2P Require Import KHeapAlloc.
From S2P Require Import KHeapMalloc.

(** The heap after a request for [size] bytes was served at [pos]. *)
Record allocated (m : mem) (h : kheap_t) (bs : list block) (size : Z) (align : bool) (pos : Z)
    (m' : mem) (h' : kheap_t) (bs' : list block) : Prop := {
  al_wf : heap_wf m' h' bs';
  al_start : kh_start h' = kh_start h;
  al_max : kh_max h' = kh_max h;
  al_block : exists n, size <= n /\ allocs (kh_start h) bs' ≡ₚ (pos, n) :: allocs (kh_start h) bs;
  al_align : align = true -> pos mod PAGE_SIZE = 0;
  al_kept : data_kept m m' (allocs (kh_start h) bs);
  al_indexed : indexed m h bs -> oa_size (kh_index h) + tail_used bs < KHEAP_INDEX_NUM ->
    indexed m' h' bs'
}.

Lemma allocs_carve a b size :
  exists n, allocs a (carve b size) = [(a + HEADER_SIZE, n)] /\ (size <= b -> size <= n).
Proof. unfold carve. destruct (_ <=? _); simpl; eauto with lia. Qed.

Lemma allocs_split a cut b size :
  size <= b - cut ->
  exists n, allocs a (split_hole cut b size) = [(a + cut + HEADER_SIZE, n)] /\ size <= n.
Proof.
  intros Hs. unfold split_hole. rewrite allocs_app, total_front.
  destruct (allocs_carve (a + cut) (b - cut) size) as (n & -> & Hn).
  exists n. split; [|auto]. unfold front. by destruct (cut =? 0).
Qed.

(** A hole that was found is served. *)
Lemma alloc_found_allocated m h bs size align i pos :
  heap_wf m h bs -> 0 < size < ALLOC_LIMIT -> find_hole m h size align = Ok (Some (i, pos)) ->
  exists m' h' bs', alloc_found m h size align i pos = Ok (m', h', pos) /\
    allocated m h bs size align pos m' h' bs' /\
    exists l b r cut, bs = l ++ Blk b true :: r /\ bs' = l ++ split_hole cut b size ++ r /\
      pos = kh_start h + total l + cut + HEADER_SIZE.
Proof.
  intros Hwf Hs Hf. destruct (find_hole_spec m h bs size align Hwf Hs) as (r & He & Hr).
  rewrite Hf in He. injection He as <-.
  destruct Hr as (l & b & r & header & cut & -> & Hx & Hi & Hl & -> & [Hcut Hle] & _).
  destruct (alloc_found_spec m h l r b i header size align cut)
    as (m' & ix' & He & Hwf' & Ht & Ha & Hsz & Hk & Hn); [done..| destruct align; tauto | lia |].
  assert (0 <= cut) by (destruct align; klia).
  pose proof (total_split_hole cut b size ltac:(lia)) as Htot.
  assert (allocs (kh_start h) (l ++ split_hole cut b size ++ r) ≡ₚ
    allocs header (split_hole cut b size) ++ allocs (kh_start h) (l ++ Blk b true :: r)) as Hal.
  { rewrite !allocs_app, <- Hx, Htot. simpl. unfold b_len. simpl. apply Permutation_app_swap_app. }
  exists m', (set_index h ix'), (l ++ split_hole cut b size ++ r). split; [done |].
  split; [|exists l, b, r, cut; by rewrite <- Hx]. constructor; cbn [set_index kh_start kh_max]; try done.
  - destruct (allocs_split header cut b size) as (n & Heq & Hn'); [lia |].
    exists n. split; [done |]. by rewrite Hal, Heq.
  - intros ->. apply Hcut.
  - pose proof (hw_chain _ _ _ Hwf) as (Hcl & Hcb & Hcr)%chain_app. rewrite <- Hx in *.
    eapply (data_kept_outside m m m' h l r _ header (header + b + BLOCK_META_SIZE)).
    + done.
    + by replace (header + b + BLOCK_META_SIZE) with (header + b_len (Blk b true)) by klia.
    + apply chain_total_nonneg in Hcl. klia.
    + done.
    + rewrite allocs_app, <- Hx. simpl. unfold b_len. simpl. by rewrite Z.add_assoc.
  - intros Hidx Hroom x Hin. cbn [kh_index set_index kh_start] in *.
    rewrite !holes_app, <- Hx, Htot, !elem_of_app in Hin.
    destruct Hin as [Hin|[Hin|Hin]]; [| |].
    2: { apply Hn; [|done]. pose proof (tail_used_range (l ++ Blk b true :: r)). lia. }
    all: pose proof (hw_chain _ _ _ Hwf) as (Hcl & Hcb & Hcr)%chain_app; rewrite <- Hx in *.
    all: apply Hk; [apply Hidx; rewrite holes_app, <- Hx; cbn [holes]; set_solver |].
    + destruct (holes_bounds _ _ _ _ _ Hcl Hin). klia.
    + destruct (holes_bounds _ _ _ _ _ Hcr Hin). klia.
Qed.

(** Serving a request in an expanded heap serves it in the heap before. *)
Lemma allocated_expanded m h bs ext m1 h1 size align pos m' h' bs' :
  bs <> [] -> expanded m h bs ext m1 h1 ->
  allocated m1 h1 (grow bs ext) size align pos m' h' bs' ->
  allocated m h bs size align pos m' h' bs'.
Proof.
  intros Hne [] []. rewrite ex_start, allocs_grow in * by done.
  destruct (tail_grow bs ext Hne) as [Ht _].
  constructor; try done; try congruence.
  - by eapply data_kept_trans.
  - intros Hidx Hroom. apply al_indexed0; [apply ex_indexed; [done |] | rewrite Ht; lia].
    pose proof (tail_used_range bs). lia.
Qed.

(** The two ways a call of [alloc] goes on. *)
Lemma alloc_step fuel m h bs size align :
  heap_wf m h bs -> 0 < size < ALLOC_LIMIT ->
  (exists m' h' bs' pos, alloc (S fuel) m h size align = Ok (m', h', pos) /\
     allocated m h bs size align pos m' h' bs') \/
  (find_hole m h size align = Ok None /\
   alloc (S fuel) m h size align =
     ('(m, h) ← alloc_expand m h size; alloc fuel m h size align)).
Proof.
  intros Hwf Hs. cbn [alloc]. rewrite (proj2 (Z.ltb_lt 0 size)) by lia. cbn [ASSERT mbind outcome_bind].
  destruct (find_hole_spec m h bs size align Hwf Hs) as (r & Hf & _).
  destruct r as [[i pos]|]; rewrite Hf; [left | by right].
  destruct (alloc_found_allocated _ _ _ _ _ _ _ Hwf Hs Hf) as (m' & h' & bs' & He & Ha & _).
  exists m', h', bs', pos. done.
Qed.

(** With the fuel given to it [alloc] always returns: with a block, or by a
    panic. *)
Lemma alloc_returns fuel m h bs size align :
  heap_wf m h bs -> 0 < size < ALLOC_LIMIT ->
  (kh_max h - kh_end h) / PAGE_SIZE + 1 < Z.of_nat fuel ->
  (exists m' h' bs' pos, alloc fuel m h size align = Ok (m', h', pos) /\
     allocated m h bs size align pos m' h' bs') \/
  alloc fuel m h size align = Panic.
Proof.
  revert m h bs. induction fuel as [|fuel IH]; intros m h bs Hwf Hs Hfuel.
  { pose proof (hw_max _ _ _ Hwf). klia. }
  destruct (alloc_step fuel m h bs size align Hwf Hs) as [Hok|[_ ->]]; [by left |].
  destruct (alloc_expand_spec m h bs size Hwf Hs) as (Hge & Hpg & Hex).
  case_decide as Hmax; [|right; by rewrite Hex].
  destruct Hex as [(m1 & h1 & -> & Hex)|[-> _]]; [|by right]. cbn [mbind outcome_bind].
  pose proof Hex as []. destruct (IH m1 h1 _ ex_wf Hs) as [(m' & h' & bs' & pos & He & Ha)|Hp].
  - rewrite ex_end, ex_max. klia.
  - left. exists m', h', bs', pos. split; [done |].
    eapply allocated_expanded; [apply Hwf | done | done].
  - by right.
Qed.

Lemma alloc_fuel_enough h :
  kh_end h <= kh_max h -> (kh_max h - kh_end h) / PAGE_SIZE + 1 < Z.of_nat (alloc_fuel h).
Proof. intros H. unfold alloc_fuel. klia. Qed.

(** With an indexed heap and room to expand, a request is served: [k] is the
    number of expansions after which the last hole must fit. *)
Lemma alloc_served k fuel m h bs size align :
  heap_wf m h bs -> indexed m h bs -> 0 < size < ALLOC_LIMIT ->
  oa_size (kh_index h) + tail_used bs < KHEAP_INDEX_NUM ->
  let ext := align_to_page (size + BLOCK_META_SIZE) in
  kh_end h + Z.of_nat k * ext <= kh_max h ->
  size + PAGE_SIZE + BLOCK_META_SIZE <= tail_room bs + Z.of_nat k * ext ->
  (k < fuel)%nat ->
  exists m' h' bs' pos, alloc fuel m h size align = Ok (m', h', pos) /\
    allocated m h bs size align pos m' h' bs'.
Proof.
  revert fuel m h bs. induction k as [|k IH]; intros fuel m h bs Hwf Hidx Hs Hroom ext Hmax Htail Hf;
    (destruct fuel as [|fuel]; [lia |]);
    (destruct (alloc_step fuel m h bs size align Hwf Hs) as [Hok|[Hnone Heq]]; [done |]).
  - exfalso. destruct (find_hole_spec m h bs size align Hwf Hs) as (r & Hr & Hno).
    rewrite Hnone in Hr. injection Hr as <-. 
    destruct bs as [|[s hole] l _] using rev_ind; [by destruct (hw_ne _ _ _ Hwf) |].
    unfold tail_room in Htail. rewrite last_snoc in Htail.
    destruct hole; [|klia]. specialize (Hno l s [] eq_refl).
    assert (too_small align s size) as Hsm.
    { apply Hno, Hidx. rewrite holes_app. apply elem_of_app. right. by left. }
    destruct align; unfold too_small in Hsm; klia.
  - destruct (alloc_expand_spec m h bs size Hwf Hs) as (Hge & Hpg & Hex). fold ext in Hge, Hpg, Hex.
    rewrite decide_True in Hex by klia.
    destruct Hex as [(m1 & h1 & He & Hex)|[_ []]]; [|done]. rewrite Heq, He. cbn [mbind outcome_bind].
    destruct (tail_grow bs ext (hw_ne _ _ _ Hwf)) as [Htu Htr]. pose proof Hex as [].
    pose proof (tail_used_range bs).
    destruct (IH fuel m1 h1 (grow bs ext)) as (m' & h' & bs' & pos & Ha & Hal).
    + done.
    + apply ex_indexed; [done | lia].
    + done.
    + rewrite Htu. lia.
    + fold ext. rewrite ex_end, ex_max. lia.
    + fold ext. rewrite Htr. lia.
    + lia.
    + exists m', h', bs', pos. split; [done |].
      eapply allocated_expanded; [apply Hwf | done | done].
Qed.
