(* ===== verification/KHeapFree.v ===== *)
(** * The kernel heap: freeing

    [free] turns a block into a hole and joins it with the holes on both
    sides: the reference function [release] on lists of blocks. *)

From S2P Require Import Prelude.
From S2P Require Import Memory.
From S2P Require Import OrderedArray.
From S2P Require Import YieldLock.
From S2P Require Import KHeap.
From S2P Require Import KHeapInv.
From S2P Require Import KHeapGap.
From S2P Require Import KHeapAlloc.
From S2P Require Import KHeapMalloc.
From S2P Require Import KHeapSpec.

(** ** Reference functions *)

(** A hole of [n] bytes before the blocks [r]. *)
Definition join_right (n : Z) (r : list block) : Z * list block :=
  match r with
  | Blk s true :: r' => (n + s + BLOCK_META_SIZE, r')
  | _ => (n, r)
  end.

(** The blocks [l] before a hole of [n] bytes. *)
Definition join_left (l : list block) (n : Z) : list block * Z :=
  match last l with
  | Some (Blk s true) => (removelast l, s + n + BLOCK_META_SIZE)
  | _ => (l, n)
  end.

Definition release (l : list block) (n : Z) (r : list block) : list block :=
  let '(n, r) := join_right n r in
  let '(l, n) := join_left l n in
  l ++ Blk n true :: r.

Lemma join_left_hole l s n : join_left (l ++ [Blk s true]) n = (l, s + n + BLOCK_META_SIZE).
Proof. unfold join_left. by rewrite last_snoc, removelast_snoc. Qed.

Lemma join_left_used l n : last_used l -> join_left l n = (l, n).
Proof. unfold join_left, last_used. by destruct (last l) as [[? []]|]. Qed.

(** Every list ends in a hole or not. *)
Lemma last_cases l : (exists l' s, l = l' ++ [Blk s true]) \/ last_used l.
Proof.
  destruct l as [|[s []] l _] using rev_ind; [by right | left; eauto |].
  right. unfold last_used. by rewrite last_snoc.
Qed.

Lemma release_coalesced l n r :
  coalesced (l ++ Blk n false :: r) -> coalesced (release l n r).
Proof.
  intros [Hl Hr]%coalesced_used. unfold release.
  assert (coalesced (snd (join_right n r)) /\ head_used (snd (join_right n r))) as [Hr' Hh].
  { destruct r as [|[s []] r]; simpl; [done | | done]. by apply (coalesced_hole []) in Hr as (_ & ? & _ & ?). }
  destruct (join_right n r) as [n' r']. cbn [snd] in *.
  destruct (last_cases l) as [(l' & s & ->)|Hu].
  - rewrite join_left_hole. apply coalesced_hole in Hl as (? & _ & ? & _). by apply coalesced_hole.
  - rewrite join_left_used by done. by apply coalesced_hole.
Qed.

Lemma allocs_join_right a n r :
  allocs (a + n) r = allocs (a + (join_right n r).1) (join_right n r).2.
Proof.
  destruct r as [|[s []] r]; simpl; try done. f_equal. klia.
Qed.

(** Releasing a block takes it, and only it, off the allocated blocks. *)
Lemma allocs_release a l n r :
  allocs a (l ++ Blk n false :: r) ≡ₚ (a + total l + HEADER_SIZE, n) :: allocs a (release l n r).
Proof.
  assert (allocs a (release l n r) =
          allocs a l ++ allocs (a + total l + b_len (Blk n false)) r) as ->.
  { unfold release. pose proof (allocs_join_right (a + total l + BLOCK_META_SIZE) n r) as Hj.
    destruct (join_right n r) as [n' r']. cbn [fst snd] in Hj.
    replace (a + total l + b_len (Blk n false)) with (a + total l + BLOCK_META_SIZE + n) by klia.
    rewrite Hj. destruct (last_cases l) as [(l' & s & ->)|Hu].
    - rewrite join_left_hole, !allocs_app. cbn [allocs b_hole app]. rewrite app_nil_r.
      f_equal. f_equal. rewrite total_snoc. klia.
    - rewrite join_left_used, allocs_app by done. cbn [allocs b_hole app]. f_equal. f_equal. klia. }
  rewrite allocs_app. cbn [allocs b_hole app b_size]. symmetry. apply Permutation_middle.
Qed.

(** ** The steps of [free] *)

(** A hole of [n] bytes lies alone in the gap between [l] and [r]. *)
Record freeing (m : mem) (h : kheap_t) (l : list block) (n : Z) (r : list block) : Prop := {
  fr_gap : heap_gap m h l (n + BLOCK_META_SIZE) r None;
  fr_block : is_block m (kh_start h + total l) (Blk n true)
}.

(** The holes of [bs] are indexed. *)
Definition entered (m : mem) (h : kheap_t) (a : Z) (bs : list block) : Prop :=
  forall x, x ∈ holes a bs -> x ∈ contents m (kh_index h).

(** A hole of [s] bytes written over a gap, and the entry [y] of a hole that
    was there taken out of the index. *)
Lemma gap_rewrite m h l n r header y s :
  heap_gap m h l (s + BLOCK_META_SIZE) r (Some y) -> header = kh_start h + total l -> 0 < s ->
  n = u32 s -> y ∈ contents m (kh_index h) ->
  exists m1 m' ix',
    make_block m header n IS_HOLE = Ok (m1, header) /\
    ordered_array_remove_element m1 (kh_index h) y = (m', ix', 1) /\
    freeing m' (set_index h ix') l s r /\
    touched m m' h header (header + s + BLOCK_META_SIZE) /\
    oa_array ix' = oa_array (kh_index h) /\ oa_size ix' <= oa_size (kh_index h) /\
    (forall x, x ∈ contents m (kh_index h) -> x <> y -> x ∈ contents m' ix').
Proof.
  intros Hg -> Hs -> Hy. pose proof (gap_bounds _ _ _ _ _ _ Hg) as (? & ? & ? & ?).
  pose proof (hg_lo _ _ _ _ _ _ Hg). pose proof (hg_index _ _ _ _ _ _ Hg) as Hix.
  rewrite u32_small by klia.
  destruct (make_block_spec m (kh_start h + total l) s IS_HOLE true)
    as (m1 & He & Hb & Ho); [done | klia | klia | done |].
  destruct (gap_write m m1 h l _ r _ Hg) as [Hg1 Hc1]; [eapply same_out_sub; [done | klia..] |].
  rewrite <- Hc1 in Hy.
  destruct (ordered_array_remove_element m1 (kh_index h) y) as [[m' ix'] q] eqn:Hr.
  pose proof (gap_remove_element _ _ _ _ _ _ _ _ _ Hg1 Hr) as Hg2. rewrite decide_True in Hg2 by done.
  destruct Hg2 as (-> & Hg2 & Ht & Ha & Hc).
  exists m1, m', ix'. split_and!; try done.
  - split; [done |]. eapply is_block_same; [|exact Hb].
    cbn [set_index kh_start]. eapply touched_on; [done | klia | klia].
  - eapply touched_trans; [|by apply touched_index]. intros b _ Hb'. apply Ho. lia.
  - pose proof (removed_size _ _ _ _ _ _ _ (hg_index _ _ _ _ _ _ Hg1) (hg_index _ _ _ _ _ _ Hg2) Hy Hc)
      as Hsz. cbn [kh_index set_index] in Hsz. lia.
  - intros x Hx Hne. rewrite Hc. apply elem_of_delete_first; [apply (hg_index _ _ _ _ _ _ Hg1) |].
    by rewrite Hc1.
Qed.

Lemma free_merge_right_spec m h l n r header :
  freeing m h l n r -> header = kh_start h + total l ->
  entered m h (header + n + BLOCK_META_SIZE) r -> entered m h (kh_start h) l ->
  let '(n', r') := join_right n r in
  exists m' ix',
    free_merge_right m h header (header + HEADER_SIZE + n) = Ok (m', set_index h ix') /\
    freeing m' (set_index h ix') l n' r' /\
    touched m m' h header (header + n' + BLOCK_META_SIZE) /\
    oa_array ix' = oa_array (kh_index h) /\ oa_size ix' <= oa_size (kh_index h) /\
    entered m' (set_index h ix') (header + n' + BLOCK_META_SIZE) r' /\
    entered m' (set_index h ix') (kh_start h) l.
Proof.
  intros [Hg Hb] Hx Her Hel. pose proof (gap_bounds _ _ _ _ _ _ Hg) as (? & ? & ? & ?).
  pose proof Hg as []. rewrite <- Hx in *. pose proof Hb as [Hpos _ _ Hsz _ _]. cbn [b_size] in *.
  unfold free_merge_right. rewrite (u32_small (header + _ + _ + _)) by klia.
  replace (header + HEADER_SIZE + n + FOOTER_SIZE) with (header + n + BLOCK_META_SIZE) by klia.
  replace (header + (n + BLOCK_META_SIZE)) with (header + n + BLOCK_META_SIZE) in hg_r by lia.
  destruct r as [|[s hole] r]; [|destruct hole]; cbn [join_right].
  - simpl in hg_r. 
    assert (hdr_magic m (header + n + BLOCK_META_SIZE) = 0) as ->.
    { unfold hdr_magic, load32. rewrite !hg_zero by lia. done. }
    cbn. exists m, (kh_index h). rewrite set_index_id. split_and!; done || subst; done.
  - destruct hg_r as [[Hspos -> -> Hss _ _] Hr]. cbn [b_hole b_size hole_flag] in *.
    rewrite Z.eqb_refl. cbn [andb negb Z.eqb IS_HOLE]. rewrite Hsz, Hss.
    destruct (gap_rewrite m h l (u32 (n + s + BLOCK_META_SIZE)) r header
                (header + n + BLOCK_META_SIZE) (n + s + BLOCK_META_SIZE))
      as (m1 & m' & ix' & -> & Hrm & Hf & Ht & Ha & Hs & Hk); [| done | klia | done | |].
    { apply gap_open_r in Hg. rewrite <- Hx in Hg.
      replace (n + s + BLOCK_META_SIZE + BLOCK_META_SIZE)
        with (n + BLOCK_META_SIZE + b_len (Blk s true)) by klia.
      by replace (header + n + BLOCK_META_SIZE) with (header + (n + BLOCK_META_SIZE)) by lia. }
    { apply Her. by left. }
    cbn [mbind outcome_bind]. rewrite Hrm. cbn. exists m', ix'.
    split_and!; try done.
    + intros x Hin.
      replace (header + (n + s + BLOCK_META_SIZE) + BLOCK_META_SIZE)
        with (header + n + BLOCK_META_SIZE + b_len (Blk s true)) in Hin by klia.
      destruct (holes_bounds _ _ _ _ _ Hr Hin). apply Hk; [apply Her; by right | klia].
    + intros x Hin. apply Hk; [by apply Hel |].
      destruct (holes_bounds _ _ _ _ _ hg_l Hin). klia.
  - destruct hg_r as [[Hspos -> -> Hss _ _] Hr]. cbn [b_hole b_size hole_flag] in *.
    cbn. exists m, (kh_index h). rewrite set_index_id. split_and!; done || subst; done.
Qed.

(** What [free_merge_left] sees before the first block: no footer. *)
Lemma first_block_no_footer m h l n r st :
  heap_gap m h l n r st -> ftr_magic m (kh_start h - FOOTER_SIZE) <> KHEAP_MAGIC.
Proof.
  intros Hg. destruct (hg_index _ _ _ _ _ _ Hg) as [_ Hm _ He _ _ _ Hs].
  specialize (Hs (KHEAP_INDEX_NUM - 2)). unfold get_slot, slot in Hs. unfold ftr_magic.
  replace (kh_start h - FOOTER_SIZE) with (oa_array (kh_index h) + 4 * (KHEAP_INDEX_NUM - 2)) by klia.
  apply Hs. klia.
Qed.

(** The last block of [l], seen from the block after it. *)
Lemma left_neighbour m h l s hole n r :
  heap_gap m h (l ++ [Blk s hole]) n r None ->
  let footer := kh_start h + total (l ++ [Blk s hole]) - FOOTER_SIZE in
  ftr_magic m footer = KHEAP_MAGIC /\ ftr_header m footer = kh_start h + total l /\
  is_block m (kh_start h + total l) (Blk s hole).
Proof.
  intros Hg footer. pose proof (chain_block _ _ _ _ _ _ (hg_l _ _ _ _ _ _ Hg)) as Hb.
  replace footer with (kh_start h + total l + HEADER_SIZE + s)
    by (unfold footer; rewrite total_snoc; klia).
  split_and!; by destruct Hb.
Qed.

Lemma free_merge_left_spec m h l n r header :
  freeing m h l n r -> header = kh_start h + total l ->
  entered m h (header + n + BLOCK_META_SIZE) r -> entered m h (kh_start h) l ->
  let '(l', n') := join_left l n in
  exists m' ix', let left := kh_start h + total l' in
    left <= header /\ left + n' = header + n /\
    free_merge_left m h header = Ok (m', set_index h ix', left) /\
    freeing m' (set_index h ix') l' n' r /\
    touched m m' h left (left + n' + BLOCK_META_SIZE) /\
    oa_array ix' = oa_array (kh_index h) /\ oa_size ix' <= oa_size (kh_index h) /\
    entered m' (set_index h ix') (left + n' + BLOCK_META_SIZE) r /\
    entered m' (set_index h ix') (kh_start h) l'.
Proof.
  intros [Hg Hb] Hx Her Hel. pose proof (gap_bounds _ _ _ _ _ _ Hg) as (? & ? & ? & ?).
  pose proof (hg_lo _ _ _ _ _ _ Hg). rewrite <- Hx in Hb. pose proof Hb as [Hpos _ _ Hsz _ _].
  cbn [b_size] in *. unfold free_merge_left. rewrite (u32_small (header - _)) by klia.
  destruct (last_cases l) as [(l' & s & ->)|Hu].
  - rewrite join_left_hole. destruct (left_neighbour _ _ _ _ _ _ _ Hg) as (Hm & Hh & Hl).
    rewrite <- Hx in Hm, Hh. rewrite Hm, Hh. destruct Hl as [Hspos _ -> -> _ _].
    cbn [b_hole b_size hole_flag] in *. rewrite Z.eqb_refl. cbn [andb Z.eqb IS_HOLE Pos.eqb].
    rewrite total_snoc in Hx. rewrite Hsz.
    destruct (gap_rewrite m h l' (u32 (s + n + BLOCK_META_SIZE)) r (kh_start h + total l')
                (kh_start h + total l') (s + n + BLOCK_META_SIZE))
      as (m1 & m' & ix' & -> & Hrm & Hf & Ht & Ha & Hs & Hk); [| done | klia | done | |].
    { apply gap_open in Hg. by replace (s + n + BLOCK_META_SIZE + BLOCK_META_SIZE)
        with (b_len (Blk s true) + (n + BLOCK_META_SIZE)) by klia. }
    { apply Hel. rewrite holes_app. apply elem_of_app. right. by left. }
    cbn [mbind outcome_bind]. rewrite Hrm. cbn. exists m', ix'.
    pose proof (hg_l _ _ _ _ _ _ Hg) as [Hcl _]%chain_app.
    split_and!; try done; try klia.
    + intros x Hin. replace (kh_start h + total l' + (s + n + BLOCK_META_SIZE) + BLOCK_META_SIZE)
        with (header + n + BLOCK_META_SIZE) in Hin by klia.
      pose proof (hg_r _ _ _ _ _ _ Hg) as Hcr.
      replace (kh_start h + total (l' ++ [Blk s true]) + (n + BLOCK_META_SIZE))
        with (header + n + BLOCK_META_SIZE) in Hcr by (rewrite total_snoc; klia).
      destruct (holes_bounds _ _ _ _ _ Hcr Hin). apply Hk; [by apply Her | klia].
    + intros x Hin. destruct (holes_bounds _ _ _ _ _ Hcl Hin). apply Hk; [|klia].
      apply Hel. rewrite holes_app. apply elem_of_app. by left.
  - rewrite join_left_used by done. exists m, (kh_index h). rewrite set_index_id, <- Hx.
    split_and!; try done; try lia; [|by split; rewrite <- ?Hx].
    destruct l as [|[s hole] l _] using rev_ind.
    + simpl in Hx. rewrite Z.add_0_r in Hx. subst header.
      by rewrite (proj2 (Z.eqb_neq _ _) (first_block_no_footer _ _ _ _ _ _ Hg)).
    + destruct (left_neighbour _ _ _ _ _ _ _ Hg) as (Hm & Hh & Hl).
      rewrite <- Hx in Hm, Hh. rewrite Hm, Hh. destruct Hl as [_ _ -> _ _ _].
      unfold last_used in Hu. rewrite last_snoc in Hu. cbn [b_hole] in *. subst hole.
      by rewrite andb_false_r.
Qed.

(** ** [free] *)

(** The heap after the data at [p] was freed. *)
Record freed (m : mem) (h : kheap_t) (bs : list block) (p : Z) (m' : mem) (h' : kheap_t)
    (bs' : list block) : Prop := {
  fd_wf : heap_wf m' h' bs';
  fd_start : kh_start h' = kh_start h;
  fd_end : kh_end h' = kh_end h;
  fd_max : kh_max h' = kh_max h;
  fd_block : exists n, allocs (kh_start h) bs ≡ₚ (p, n) :: allocs (kh_start h) bs';
  fd_kept : data_kept m m' (allocs (kh_start h) bs');
  fd_indexed : oa_size (kh_index h) < KHEAP_INDEX_NUM -> indexed m' h' bs'
}.

(** The last step: the hole joins the blocks and enters the index. *)
Lemma freeing_done m h l n r header :
  freeing m h l n r -> header = kh_start h + total l -> coalesced (l ++ Blk n true :: r) ->
  exists m' ix' q,
    ordered_array_insert m (kh_index h) header = (m', ix', q) /\
    heap_wf m' (set_index h ix') (l ++ Blk n true :: r) /\ touched m m' h 0 0 /\
    (entered m h (kh_start h) l -> entered m h (header + n + BLOCK_META_SIZE) r ->
     oa_size (kh_index h) < KHEAP_INDEX_NUM ->
     indexed m' (set_index h ix') (l ++ Blk n true :: r)).
Proof.
  intros [Hg Hb] Hx Hco. pose proof Hb as [Hpos _ _ _ _ _]. cbn in Hpos.
  assert (header ∉ contents m (kh_index h)) as Hni.
  { intros Hin. destruct (gap_entries_outside _ _ _ _ _ _ _ Hg Hin); [done | klia | klia]. }
  apply gap_close with (b := Blk n true) in Hg; [|done | klia].
  replace (n + BLOCK_META_SIZE - b_len (Blk n true)) with 0 in Hg by klia.
  assert (header ∈ holes (kh_start h) (l ++ [Blk n true])) as Hh.
  { rewrite holes_app. apply elem_of_app. right. rewrite Hx. by left. }
  destruct (gap_insert _ _ _ _ _ header Hg (or_introl Hh) Hni)
    as (m' & ix' & q & Hi & Hg' & Ht & Ha & Hc).
  assert (l ++ Blk n true :: r = (l ++ [Blk n true]) ++ r) as Heq by by rewrite <- app_assoc.
  exists m', ix', q. rewrite Heq in *. split_and!; [done | | done |].
  - apply wf_of_gap; [done | by destruct l | done].
  - intros Hel Her Hroom x Hin. rewrite decide_True in Hc by done. destruct Hc as [_ Hc].
    cbn [set_index kh_index kh_start] in *. rewrite Hc, elem_of_cons.
    rewrite holes_app, total_snoc, !holes_app in Hin. cbn [holes b_hole app] in Hin.
    rewrite !elem_of_app, list_elem_of_singleton in Hin.
    destruct Hin as [[Hin|Hin]|Hin]; [right; by apply Hel | left; lia | right; apply Her].
    by replace (header + n + BLOCK_META_SIZE) with (kh_start h + (total l + b_len (Blk n true)))
      by klia.
Qed.

(** The first step: the block is marked as a hole. *)
Lemma free_mark m h l n r header :
  heap_wf m h (l ++ Blk n false :: r) -> header = kh_start h + total l ->
  let m1 := store8 m (header + 4) 1 in
  freeing m1 h l n r /\ contents m1 (kh_index h) = contents m (kh_index h) /\
  touched m m1 h header (header + BLOCK_META_SIZE).
Proof.
  intros Hwf Hx m1. pose proof (hw_index _ _ _ Hwf) as Hix.
  assert (heap_gap m h l (n + BLOCK_META_SIZE) r None) as Hg.
  { pose proof Hwf as Hwf'. replace (l ++ Blk n false :: r) with ((l ++ [Blk n false]) ++ r) in Hwf'
      by by rewrite <- app_assoc.
    apply gap_of_wf, gap_open in Hwf'. rewrite Z.add_0_r in Hwf'.
    apply (gap_unstale _ _ _ _ _ _ Hwf'). intros Hin%(hw_sound _ _ _ Hwf).
    pose proof (hw_chain _ _ _ Hwf) as (Hcl & Hcb & Hcr)%chain_app.
    rewrite holes_app in Hin. cbn [holes b_hole app] in Hin. apply elem_of_app in Hin as [Hin|Hin].
    - destruct (holes_bounds _ _ _ _ _ Hcl Hin). klia.
    - destruct (holes_bounds _ _ _ _ _ Hcr Hin). destruct Hcb. klia. }
  pose proof (hw_chain _ _ _ Hwf) as Hb%chain_block. rewrite <- Hx in Hb.
  destruct Hb as [Hpos Hm Hh Hs Hfm Hfh]. cbn [b_size b_hole] in *.
  destruct (gap_write m m1 h l (n + BLOCK_META_SIZE) r None Hg) as [Hg1 Hc1].
  { eapply same_out_sub; [apply same_out_store8 | klia..]. }
  split; [|split; [done |]].
  - split; [done |]. rewrite <- Hx. unfold m1.
    constructor; cbn [b_size b_hole]; unfold hdr_magic, hdr_is_hole, hdr_size, ftr_magic, ftr_header in *;
      kconst; mem_simpl; done.
  - intros b _ Hb. unfold m1. rewrite load8_store8_ne; [done | klia].
Qed.

(** [free] of an allocated block. *)
Lemma free_spec m h l n r p :
  heap_wf m h (l ++ Blk n false :: r) -> indexed m h (l ++ Blk n false :: r) ->
  p = kh_start h + total l + HEADER_SIZE ->
  exists m' h', free m h p = Ok (m', h') /\
    freed m h (l ++ Blk n false :: r) p m' h' (release l n r).
Proof.
  intros Hwf Hidx ->. pose proof (release_coalesced l n r (hw_coalesced _ _ _ Hwf)) as Hco.
  pose proof (allocs_release (kh_start h) l n r) as Hal.
  destruct (free_mark m h l n r _ Hwf eq_refl) as (Hf1 & Hc1 & Ht1).
  set (header := kh_start h + total l) in *.
  pose proof (hw_chain _ _ _ Hwf) as (Hcl & Hb & Hcr)%chain_app. fold header in Hb, Hcr.
  pose proof (gap_bounds _ _ _ _ _ _ (fr_gap _ _ _ _ _ Hf1)) as (? & ? & ? & ?).
  pose proof (hw_lo _ _ _ Hwf). destruct Hb as [Hpos Hm Hh Hs Hfm Hfh]. cbn [b_size b_hole] in *.
  assert (entered (store8 m (header + 4) 1) h (kh_start h) l /\
          entered (store8 m (header + 4) 1) h (header + n + BLOCK_META_SIZE) r) as [Hel Her].
  { split; intros x Hx; rewrite Hc1; apply Hidx; rewrite holes_app, elem_of_app; [by left | right].
    cbn [holes b_hole app]. fold header. by replace (header + b_len (Blk n false))
      with (header + n + BLOCK_META_SIZE) by klia. }
  unfold free. rewrite (proj2 (Z.eqb_neq _ _)) by klia. rewrite (u32_small (_ - HEADER_SIZE)) by klia.
  replace (header + HEADER_SIZE - HEADER_SIZE) with header by lia.
  rewrite Hs, Hm, (u32_small (header + HEADER_SIZE + n)), Hfm, Z.eqb_refl by klia.
  cbn [ASSERT mbind outcome_bind].
  pose proof (free_merge_right_spec _ _ _ _ _ header Hf1 eq_refl Her Hel) as Hright.
  unfold release in *. destruct (join_right n r) as [n1 r1].
  destruct Hright as (m2 & ix2 & -> & Hf2 & Ht2 & Ha2 & Hs2 & Her2 & Hel2).
  cbn [mbind outcome_bind].
  pose proof (free_merge_left_spec _ _ _ _ _ header Hf2 eq_refl Her2 Hel2) as Hleft.
  destruct (join_left l n1) as [l1 n2].
  destruct Hleft as (m3 & ix3 & Hle & Hend & -> & Hf3 & Ht3 & Ha3 & Hs3 & Her3 & Hel3).
  cbn [mbind outcome_bind]. change (set_index (set_index h ix2) ix3) with (set_index h ix3) in *.
  destruct (freeing_done _ _ _ _ _ _ Hf3 eq_refl Hco) as (m' & ix' & q & Hi & Hwf' & Ht4 & Hidx').
  change (set_index (set_index h ix3) ix') with (set_index h ix') in *.
  cbn [set_index kh_index kh_start] in *. rewrite Hi. eexists _, _. split; [done |].
  pose proof (hw_chain _ _ _ Hwf') as (Hcl' & Hcb' & Hcr')%chain_app. cbn [set_index kh_start] in *.
  pose proof (ib_pos _ _ _ (fr_block _ _ _ _ _ Hf2)) as Hn1. cbn [b_size] in Hn1.
  constructor; try done.
  - by exists n.
  - eapply (data_kept_outside m' m m' h l1 r1); [exact Hcl' | exact Hcr' | | |].
    + destruct Hcb'. apply chain_total_nonneg in Hcl'. klia.
    + eapply touched_trans; [eapply touched_sub; [exact Ht1 | lia | klia] |].
      eapply touched_trans; [eapply touched_sub; [exact Ht2 | lia | klia] |].
      eapply touched_trans; [eapply touched_sub; [eapply touched_same_heap; [| |exact Ht3] | lia | klia] |];
        [by cbn | done |].
      apply touched_index. eapply touched_same_heap; [| |exact Ht4]; [cbn; congruence | done].
    + rewrite allocs_app. done.
  - intros Hroom. apply Hidx'; [done | done | lia].
Qed.

(** Releasing what was carved out of a hole gives the hole back. *)
Lemma release_split l b r cut size :
  coalesced (l ++ Blk b true :: r) ->
  exists l' n r', l ++ split_hole cut b size ++ r = l' ++ Blk n false :: r' /\
    release l' n r' = l ++ Blk b true :: r /\ total l' = total l + cut.
Proof.
  intros (Hl & Hr & Hlu & Hhu)%coalesced_hole.
  assert (exists n q, carve (b - cut) size = Blk n false :: q /\
            join_right n (q ++ r) = (b - cut, r)) as (n & q & Hc & Hj).
  { unfold carve. destruct (Z.leb_spec (b - cut - size) BLOCK_META_SIZE).
    - exists (b - cut), []. split; [done |]. simpl. destruct r as [|[s []] r]; done.
    - eexists size, [_]. split; [done |]. simpl. f_equal. lia. }
  exists (l ++ front cut), n, (q ++ r). unfold split_hole, release. rewrite Hc, Hj.
  split; [by rewrite <- !app_assoc |]. split; [|by rewrite total_app, total_front].
  unfold front. destruct (Z.eqb_spec cut 0) as [->|].
  - rewrite app_nil_r, join_left_used, Z.sub_0_r by done. done.
  - rewrite join_left_hole. by replace (cut - BLOCK_META_SIZE + (b - cut) + BLOCK_META_SIZE) with b by lia.
Qed.
