(* ===== verification/KMalloc.v ===== *)
(** * The kernel heap: creation, validation and the entry points

    The theorems about [init_kheap], [kmalloc], [kmalloc_aligned], [kfree] and
    [kheap_validate_print], on the state of the module: memory, heap, lock. *)

From S2P Require Import Prelude.
From S2P Require Import Memory.
From S2P Require Import OrderedArray.
From S2P Require Import YieldLock.
From S2P Require Import KHeap.
From S2P Require Import KHeapInv.
From S2P Require Import KHeapGap.
From S2P Require Import KHeapAlloc.
From S2P Require Import KHeapMalloc.
From S2P Require Import KHeapSpec.
From S2P Require Import KHeapFree.

(** Between calls the lock is free and the heap represents [bs]. *)
Definition kmem_wf (s : kmem) (bs : list block) : Prop :=
  unlocked (km_lock s) /\ heap_wf (km_mem s) (km_heap s) bs.

(** The live blocks: address and size of their data. *)
Definition live (s : kmem) (bs : list block) : list (Z * Z) := allocs (kh_start (km_heap s)) bs.

Definition zero_on (m : mem) (lo hi : Z) : Prop := forall b, lo <= b < hi -> load8 m b = 0.

Lemma load32_zero_on m lo hi a : zero_on m lo hi -> lo <= a -> a + 4 <= hi -> load32 m a = 0.
Proof. intros H Hl Hh. unfold load32. by rewrite !H by lia. Qed.

(** ** Creation *)

(** The index of a heap under construction. *)
Lemma fresh_index_ok m start lo :
  0 <= start -> lo = start + 4 * KHEAP_INDEX_NUM -> zero_on m start lo ->
  index_ok m (ordered_array_create start KHEAP_INDEX_NUM kheap_block_comparator) lo.
Proof.
  intros Hs -> Hz. constructor; try done; cbn.
  - constructor.
  - intros i Hi. unfold get_slot, slot. cbn.
    rewrite (load32_zero_on m start (start + 4 * KHEAP_INDEX_NUM)); [done | done | lia | lia].
Qed.

Lemma create_kheap_spec m start end_ mx sup ro :
  start mod PAGE_SIZE = 0 -> end_ mod PAGE_SIZE = 0 ->
  0 <= start -> KHEAP_MAGIC < start + 4 * KHEAP_INDEX_NUM ->
  start + 4 * KHEAP_INDEX_NUM + BLOCK_META_SIZE < end_ -> end_ <= mx <= KHEAP_MAX ->
  zero_on m start (mx + 4) ->
  let lo := start + 4 * KHEAP_INDEX_NUM in
  exists m' h, create_kheap m start end_ mx sup ro = Ok (m', h) /\
    kh_start h = lo /\ kh_end h = end_ /\ kh_max h = mx /\
    heap_wf m' h [Blk (end_ - lo - BLOCK_META_SIZE) true] /\
    indexed m' h [Blk (end_ - lo - BLOCK_META_SIZE) true] /\ oa_size (kh_index h) <= 1.
Proof.
  intros Has Hae H0 Hlo Hroom Hmax Hz lo. unfold create_kheap.
  assert (forall x, Z.land x 0xFFF = x mod PAGE_SIZE) as Hland
    by (intros x; apply (Z.land_ones x 12); lia).
  rewrite !Hland, Has, Hae. cbn [ASSERT Z.eqb mbind outcome_bind].
  rewrite (u32_small (start + _)), (u32_small (end_ - _ - _)), (u32_small (end_ - _)) by klia.
  fold lo. set (ix := ordered_array_create _ _ _).
  set (h0 := {| kh_index := ix; kh_start := lo; kh_end := end_; kh_size := end_ - lo;
                kh_max := mx; kh_supervisor := sup; kh_readonly := ro |}).
  assert (heap_gap m h0 [] (end_ - lo) [] None) as Hg.
  { constructor; cbn; try done; try (unfold lo; klia).
    - apply fresh_index_ok; [done | done |]. intros b Hb. apply Hz. unfold lo in *. klia.
    - constructor.
    - by intros x ?%elem_of_nil.
    - intros b Hb. apply Hz. unfold lo in *. klia. }
  destruct (gap_fill_hole m h0 [] _ [] lo (end_ - lo - BLOCK_META_SIZE) Hg)
    as (m1 & m' & ix' & q & -> & Hi & Hg' & Ht & Ha & Hs & Hk & Hn);
    [unfold lo; klia | lia | cbn; lia |].
  cbn [mbind outcome_bind]. cbn [kh_index h0] in Hi. rewrite Hi.
  exists m', (set_index h0 ix'). split; [done |]. repeat (split; [done |]).
  replace (end_ - lo - (end_ - lo - BLOCK_META_SIZE + BLOCK_META_SIZE)) with 0 in Hg' by lia.
  split; [by apply gap_nil_wf|]. split; [|done].
  intros x Hx. cbn in Hx. apply Hn; [done | by apply Hx].
Qed.

(** ** The heap at boot *)

Definition boot_block : block :=
  Blk (KHEAP_MIN_SIZE - 4 * KHEAP_INDEX_NUM - BLOCK_META_SIZE) true.

Lemma init_kheap_spec m :
  zero_on m KHEAP_START (KHEAP_MAX + 4) ->
  exists s, init_kheap m = Ok s /\ kmem_wf s [boot_block] /\ live s [boot_block] = [] /\
    indexed (km_mem s) (km_heap s) [boot_block] /\ kh_max (km_heap s) = KHEAP_MAX.
Proof.
  intros Hz. unfold init_kheap.
  destruct (create_kheap_spec m KHEAP_START (KHEAP_START + KHEAP_MIN_SIZE) KHEAP_MAX 0 0)
    as (m' & h & -> & Hst & He & Hm & Hwf & Hidx & _); [done | done | klia | klia | klia | klia | done |].
  eexists. split; [done |]. done.
Qed.

(** A heap as [init_kheap] leaves it in zeroed memory. *)
Definition boot_heap : kmem :=
  match init_kheap ∅ with
  | Ok s => s
  | _ => {| km_mem := ∅; km_heap := {| kh_index := ordered_array_create 0 0 kheap_block_comparator;
             kh_start := 0; kh_end := 0; kh_size := 0; kh_max := 0; kh_supervisor := 0;
             kh_readonly := 0 |}; km_lock := yieldlock_init |}
  end.

Lemma boot_heap_wf :
  kmem_wf boot_heap [boot_block] /\ indexed (km_mem boot_heap) (km_heap boot_heap) [boot_block].
Proof.
  destruct (init_kheap_spec ∅) as (s & He & Hwf & _ & Hidx & _); [by intros b _ |].
  unfold boot_heap. rewrite He. done.
Qed.


(** ** The entry points *)

Lemma kmalloc_impl_returns m h bs size align :
  heap_wf m h bs -> 0 < size < ALLOC_LIMIT ->
  (exists m' h' bs' pos, kmalloc_impl m h size align = Ok (m', h', pos) /\
     allocated m h bs size align pos m' h' bs') \/
  kmalloc_impl m h size align = Panic.
Proof.
  intros Hwf Hs. unfold kmalloc_impl. rewrite (proj2 (Z.eqb_neq _ _)) by lia.
  destruct (alloc_returns (alloc_fuel h) m h bs size align Hwf Hs)
    as [(m' & h' & bs' & pos & -> & Ha)| ->]; [apply alloc_fuel_enough, Hwf | | by right].
  cbn [mbind outcome_bind]. destruct (Z.eqb_spec pos 0) as [->|]; [by right | left; eauto 10].
Qed.

(** A served block lies within the heap, above address 0. *)
Lemma allocated_pos m h bs size align pos m' h' bs' :
  allocated m h bs size align pos m' h' bs' -> KHEAP_MAGIC < pos.
Proof.
  intros []. destruct al_block as (n & _ & Hal).
  pose proof (hw_lo _ _ _ al_wf). rewrite <- al_start in Hal.
  destruct (allocs_bounds _ _ _ _ pos n (hw_chain _ _ _ al_wf)); [rewrite Hal; by left | klia].
Qed.

Lemma kmalloc_impl_served m h bs size align :
  heap_wf m h bs -> indexed m h bs -> 0 < size < ALLOC_LIMIT ->
  oa_size (kh_index h) + 1 < KHEAP_INDEX_NUM ->
  kh_end h + 3 * align_to_page (size + BLOCK_META_SIZE) <= kh_max h ->
  exists m' h' bs' pos, kmalloc_impl m h size align = Ok (m', h', pos) /\
    allocated m h bs size align pos m' h' bs' /\ indexed m' h' bs'.
Proof.
  intros Hwf Hidx Hs Hroom Hmax.
  pose proof (tail_used_range bs).
  assert (- BLOCK_META_SIZE <= tail_room bs).
  { unfold tail_room. destruct bs as [|[s []] l _] using rev_ind; [done | |];
      rewrite last_snoc; [|done].
    pose proof (ib_pos _ _ _ (chain_block _ _ _ _ _ _ (hw_chain _ _ _ Hwf))) as Hb. cbn in Hb. klia. }
  destruct (kheap_expand_spec m h bs (size + BLOCK_META_SIZE) Hwf ltac:(klia)) as (He0 & Hes & Hem & _).
  assert (PAGE_SIZE <= align_to_page (size + BLOCK_META_SIZE)) by klia.
  destruct (alloc_served 3 (alloc_fuel h) m h bs size align Hwf Hidx Hs)
    as (m' & h' & bs' & pos & He & Ha); [lia | lia | klia | unfold alloc_fuel; klia |].
  exists m', h', bs', pos. split; [|split; [done |]].
  - unfold kmalloc_impl. rewrite (proj2 (Z.eqb_neq size 0)), He by lia. cbn [mbind outcome_bind].
    pose proof (allocated_pos _ _ _ _ _ _ _ _ _ Ha). by rewrite (proj2 (Z.eqb_neq pos 0)) by klia.
  - apply (al_indexed _ _ _ _ _ _ _ _ _ Ha); [done | lia].
Qed.

Lemma kmalloc_locked_eq s size align m' h' pos :
  unlocked (km_lock s) -> kmalloc_impl (km_mem s) (km_heap s) size align = Ok (m', h', pos) ->
  kmalloc_locked s size align =
    Ok ({| km_mem := m'; km_heap := h'; km_lock := yieldlock_init |}, pos).
Proof. intros Hl He. unfold kmalloc_locked. rewrite lock_unlocked by done. simpl. by rewrite He. Qed.

Lemma kmalloc_locked_panic s size align :
  unlocked (km_lock s) -> kmalloc_impl (km_mem s) (km_heap s) size align = Panic ->
  kmalloc_locked s size align = Panic.
Proof. intros Hl He. unfold kmalloc_locked. rewrite lock_unlocked by done. simpl. by rewrite He. Qed.

(** What a request that returned [ptr] did. *)
Record kmalloc_post (s : kmem) (bs : list block) (size : Z) (align : bool) (ptr : Z)
    (s' : kmem) (bs' : list block) : Prop := {
  kp_wf : kmem_wf s' bs';
  kp_heap : kh_start (km_heap s') = kh_start (km_heap s) /\ kh_max (km_heap s') = kh_max (km_heap s);
  kp_block : exists n, size <= n /\ live s' bs' ≡ₚ (ptr, n) :: live s bs;
  kp_align : align = true -> ptr mod PAGE_SIZE = 0;
  kp_kept : data_kept (km_mem s) (km_mem s') (live s bs)
}.

Lemma allocated_post s bs size align ptr m' h' bs' :
  allocated (km_mem s) (km_heap s) bs size align ptr m' h' bs' ->
  kmalloc_post s bs size align ptr
    {| km_mem := m'; km_heap := h'; km_lock := yieldlock_init |} bs'.
Proof.
  intros []. split; try done. unfold live. cbn. by rewrite al_start.
Qed.

(** A block allocated in that heap. *)
Lemma boot_kmalloc size align :
  0 < size < 65536 ->
  exists s p n bs, kmalloc_locked boot_heap size align = Ok (s, p) /\ kmem_wf s bs /\
    indexed (km_mem s) (km_heap s) bs /\ (p, n) ∈ live s bs.
Proof.
  intros Hs. destruct boot_heap_wf as [[Hl Hwf] Hidx].
  destruct (kmalloc_impl_served _ _ _ size align Hwf Hidx) as (m' & h' & bs' & p & He & Ha & Hi);
    [mlia | by vm_compute | |].
  { rewrite align_to_page_spec by klia. change (kh_end (km_heap boot_heap)) with (KHEAP_START + KHEAP_MIN_SIZE).
    change (kh_max (km_heap boot_heap)) with KHEAP_MAX. klia. }
  destruct (allocated_post _ _ _ _ _ _ _ _ Ha) as [Hwf' _ (n & _ & Hb) _ _].
  eexists _, p, n, bs'. split; [by apply kmalloc_locked_eq |]. split; [done |]. split; [done |].
  rewrite Hb. by left.
Qed.

(** [init_kheap] on zeroed memory makes a heap of one hole that spans it,
    indexed, with an unlocked lock. *)
Theorem init_kheap_correct m :
  zero_on m KHEAP_START (KHEAP_MAX + 4) ->
  exists s, init_kheap m = Ok s /\ kmem_wf s [boot_block] /\ live s [boot_block] = [] /\
    indexed (km_mem s) (km_heap s) [boot_block] /\ kh_max (km_heap s) = KHEAP_MAX.
Proof. apply init_kheap_spec. Qed.

Lemma init_kheap_correct_witness :
  zero_on ∅ KHEAP_START (KHEAP_MAX + 4) /\ exists s, init_kheap ∅ = Ok s /\ kmem_wf s [boot_block].
Proof.
  assert (zero_on ∅ KHEAP_START (KHEAP_MAX + 4)) as Hz by (intros b _; reflexivity).
  split; [exact Hz |]. destruct (init_kheap_correct ∅ Hz) as (s & He & Hwf & _). by exists s.
Defined.

(** C1: a call of [kmalloc] or [kmalloc_aligned] in a well-formed heap for less than
    [ALLOC_LIMIT] bytes, 64 KiB below 512 MiB, returns or panics (the recursion of
    [alloc] ends, no lock is left held).  A request for 0 bytes returns the null
    pointer and changes nothing.  When another one returns, the heap is well-formed,
    exactly one block of at least the requested size was added to the live blocks,
    at the address returned, page-aligned on request, and the data of every other
    live block is what it was.  (Requests near 2^32 recurse without end.) *)
Theorem kmalloc_correct s bs size align :
  kmem_wf s bs -> 0 <= size < ALLOC_LIMIT ->
  if size =? 0 then kmalloc_locked s size align = Ok (s, 0)
  else
    (exists s' ptr bs', kmalloc_locked s size align = Ok (s', ptr) /\
       kmalloc_post s bs size align ptr s' bs') \/
    kmalloc_locked s size align = Panic.
Proof.
  intros [Hl Hwf] Hs. destruct (Z.eqb_spec size 0) as [-> | Hn].
  - unfold kmalloc_locked. rewrite lock_unlocked by done. cbn. destruct s as [m h [l]].
    unfold unlocked in Hl. cbn in *. by subst l.
  - destruct (kmalloc_impl_returns _ _ _ size align Hwf ltac:(lia)) as [(m' & h' & bs' & pos & He & Ha)|He].
    + left. eexists _, pos, bs'. split; [by apply kmalloc_locked_eq | by apply allocated_post].
    + right. by apply kmalloc_locked_panic.
Qed.

Lemma kmalloc_correct_witness :
  exists s' ptr bs', kmalloc_locked boot_heap 100 true = Ok (s', ptr) /\
    kmalloc_post boot_heap [boot_block] 100 true ptr s' bs'.
Proof.
  assert (0 <= 100 < ALLOC_LIMIT) as Hs by mlia.
  pose proof (kmalloc_correct boot_heap [boot_block] 100 true (proj1 boot_heap_wf) Hs) as H.
  change (100 =? 0) with false in H. cbn [negb] in H. destruct H as [Hok|Hp].
  - exact Hok.
  - exfalso. assert (is_panic (kmalloc_locked boot_heap 100 true) = false) as Hno
      by (vm_compute; reflexivity).
    rewrite Hp in Hno. discriminate Hno.
Defined.

(** C26: with every hole indexed, a free slot in the index and room for three
    expansions below [max_address], a request is served, and every hole is
    indexed again. *)
Theorem kmalloc_served s bs size align :
  kmem_wf s bs -> indexed (km_mem s) (km_heap s) bs -> 0 < size < ALLOC_LIMIT ->
  oa_size (kh_index (km_heap s)) + 1 < KHEAP_INDEX_NUM ->
  kh_end (km_heap s) + 3 * align_to_page (size + BLOCK_META_SIZE) <= kh_max (km_heap s) ->
  exists s' ptr bs', kmalloc_locked s size align = Ok (s', ptr) /\
    kmalloc_post s bs size align ptr s' bs' /\ indexed (km_mem s') (km_heap s') bs'.
Proof.
  intros [Hl Hwf] Hidx Hs Hroom Hmax.
  destruct (kmalloc_impl_served _ _ _ size align Hwf Hidx Hs Hroom Hmax)
    as (m' & h' & bs' & pos & He & Ha & Hi).
  eexists _, pos, bs'. split; [by apply kmalloc_locked_eq |]. split; [by apply allocated_post | done].
Qed.

Lemma kmalloc_served_witness :
  exists s' ptr bs', kmalloc_locked boot_heap 4000000 false = Ok (s', ptr) /\
    kmalloc_post boot_heap [boot_block] 4000000 false ptr s' bs' /\
    indexed (km_mem s') (km_heap s') bs'.
Proof.
  destruct boot_heap_wf as [Hwf Hidx].
  apply (kmalloc_served boot_heap [boot_block] 4000000 false Hwf Hidx);
    [mlia | vm_compute; reflexivity | apply Z.leb_le; vm_compute; reflexivity].
Defined.

Lemma kfree_eq s p m' h' :
  unlocked (km_lock s) -> p <> 0 -> free (km_mem s) (km_heap s) p = Ok (m', h') ->
  kfree s p = Ok {| km_mem := m'; km_heap := h'; km_lock := yieldlock_init |}.
Proof.
  intros Hl Hp He. unfold kfree. rewrite (proj2 (Z.eqb_neq p 0)) by done.
  rewrite lock_unlocked by done. simpl. by rewrite He.
Qed.

(** [free] of a live block given by its address. *)
Lemma free_live m h bs p n :
  heap_wf m h bs -> indexed m h bs -> (p, n) ∈ allocs (kh_start h) bs ->
  exists m' h' l r, free m h p = Ok (m', h') /\ bs = l ++ Blk n false :: r /\
    p = kh_start h + total l + HEADER_SIZE /\
    freed m h bs p m' h' (release l n r) /\ p <> 0.
Proof.
  intros Hwf Hidx Hin. pose proof (hw_lo _ _ _ Hwf).
  pose proof (allocs_bounds _ _ _ _ _ _ (hw_chain _ _ _ Hwf) Hin).
  apply elem_of_allocs in Hin as (l & r & -> & Hp).
  destruct (free_spec m h l n r p Hwf Hidx Hp) as (m' & h' & He & Hf).
  exists m', h', l, r. split_and!; try done. klia.
Qed.

(** C2: [kfree] of a live block returns with a well-formed heap in which
    exactly that block is no longer live; the heap keeps its bounds, the data
    of the other live blocks is what it was, and with a free slot in the index
    every hole is indexed again. *)
Theorem kfree_correct s bs p n :
  kmem_wf s bs -> indexed (km_mem s) (km_heap s) bs -> (p, n) ∈ live s bs ->
  exists s' bs', kfree s p = Ok s' /\ kmem_wf s' bs' /\
    live s bs ≡ₚ (p, n) :: live s' bs' /\
    kh_start (km_heap s') = kh_start (km_heap s) /\ kh_end (km_heap s') = kh_end (km_heap s) /\
    data_kept (km_mem s) (km_mem s') (live s' bs') /\
    (oa_size (kh_index (km_heap s)) < KHEAP_INDEX_NUM -> indexed (km_mem s') (km_heap s') bs').
Proof.
  intros [Hl Hwf] Hidx Hin.
  destruct (free_live _ _ _ _ _ Hwf Hidx Hin) as (m' & h' & l & r & He & -> & Hpl & [] & Hp).
  eexists _, (release l n r). split; [by apply kfree_eq |].
  unfold live in *. cbn [km_mem km_heap km_lock]. rewrite fd_start.
  split_and!; try done.
  by rewrite allocs_release, <- Hpl.
Qed.

Lemma kfree_correct_witness :
  exists s p n bs s' bs', kmalloc_locked boot_heap 100 true = Ok (s, p) /\ kfree s p = Ok s' /\
    kmem_wf s' bs' /\ live s bs ≡ₚ (p, n) :: live s' bs'.
Proof.
  destruct (boot_kmalloc 100 true) as (s & p & n & bs & He & Hwf & Hidx & Hin); [lia |].
  destruct (kfree_correct s bs p n Hwf Hidx Hin) as (s' & bs' & Hf & Hwf' & Hp & _).
  exists s, p, n, bs, s', bs'. exact (conj He (conj Hf (conj Hwf' Hp))).
Defined.

(** Freeing what was just allocated from a hole restores the heap's list
    of blocks, whatever was split off in front and behind. *)
Theorem kmalloc_kfree_roundtrip s bs size align i pos :
  kmem_wf s bs -> indexed (km_mem s) (km_heap s) bs -> 0 < size < ALLOC_LIMIT ->
  oa_size (kh_index (km_heap s)) + 1 < KHEAP_INDEX_NUM ->
  find_hole (km_mem s) (km_heap s) size align = Ok (Some (i, pos)) ->
  exists s' s'', kmalloc_locked s size align = Ok (s', pos) /\ kfree s' pos = Ok s'' /\
    kmem_wf s'' bs.
Proof.
  intros [Hl Hwf] Hidx Hs Hroom Hf.
  destruct (alloc_found_allocated _ _ _ _ _ _ _ Hwf Hs Hf)
    as (m1 & h1 & bs1 & He1 & Ha & l & b & r & cut & -> & -> & Hpos).
  destruct (release_split l b r cut size (hw_coalesced _ _ _ Hwf)) as (l' & n & r' & Hsp & Hrel & Ht).
  pose proof (allocated_pos _ _ _ _ _ _ _ _ _ Ha) as Hp0. destruct Ha.
  rewrite Hsp in *. set (s1 := {| km_mem := m1; km_heap := h1; km_lock := yieldlock_init |}).
  destruct (free_spec m1 h1 l' n r' pos) as (m2 & h2 & He2 & []); [done | | |].
  { apply al_indexed; [done |]. pose proof (tail_used_range (l ++ Blk b true :: r)). lia. }
  { rewrite al_start, Ht. lia. }
  exists s1, {| km_mem := m2; km_heap := h2; km_lock := yieldlock_init |}. split_and!.
  - apply kmalloc_locked_eq; [done |]. unfold kmalloc_impl, alloc_fuel. cbn [alloc].
    rewrite (proj2 (Z.eqb_neq size 0)), (proj2 (Z.ltb_lt 0 size)) by lia.
    cbn [ASSERT mbind outcome_bind]. rewrite Hf. cbn [mbind outcome_bind]. rewrite He1.
    cbn [mbind outcome_bind]. by rewrite (proj2 (Z.eqb_neq pos 0)) by klia.
  - apply (kfree_eq s1); [done | klia | done].
  - split; [done |]. cbn. by rewrite <- Hrel.
Qed.

Lemma kmalloc_kfree_roundtrip_witness :
  exists pos s' s'', kmalloc_locked boot_heap 100 true = Ok (s', pos) /\ kfree s' pos = Ok s'' /\
    kmem_wf s'' [boot_block].
Proof.
  destruct boot_heap_wf as [Hwf Hidx].
  destruct (kmalloc_kfree_roundtrip boot_heap [boot_block] 100 true 0 0xC0C81000 Hwf Hidx)
    as (s' & s'' & Hr); [mlia | vm_compute; reflexivity | vm_compute; reflexivity |].
  exists 0xC0C81000, s', s''. exact Hr.
Defined.

(** ** Validation *)

Lemma validate_from_spec fuel m h a bs hn an :
  chain m a bs (kh_end h) -> entered m h a bs -> index_ok m (kh_index h) (kh_start h) ->
  0 <= a -> kh_end h <= KHEAP_MAX ->
  (length bs < fuel)%nat -> 0 <= hn -> 0 <= an ->
  hn + an + Z.of_nat (length bs) <= KHEAP_MAX ->
  validate_from fuel m h a hn an =
    Ok (hn + Z.of_nat (length (holes a bs)), an + Z.of_nat (length (allocs a bs))).
Proof.
  revert a bs hn an. induction fuel as [|fuel IH]; intros a bs hn an Hc He Hix Ha Hm Hf Hh Hn Hb; [lia |].
  cbn [validate_from]. destruct bs as [|b bs].
  { simpl in Hc. subst a. rewrite Z.ltb_irrefl. cbn. f_equal. f_equal; lia. }
  destruct Hc as [Hblk Hc]. pose proof Hblk as [Hpos Hmg Hhl Hsz _ _].
  pose proof (chain_end _ _ _ _ Hc). pose proof (chain_total_nonneg _ _ _ _ Hc).
  rewrite (proj2 (Z.ltb_lt a _)) by klia. rewrite Hmg, Hhl, Hsz, Z.eqb_refl. cbn [ASSERT mbind outcome_bind].
  rewrite (u32_small (a + _)) by klia. fold (b_len b). cbn [length] in *.
  assert (entered m h (a + b_len b) bs) as He'.
  { intros x Hx. apply He. simpl. apply elem_of_app. by right. }
  destruct (b_hole b) eqn:Hbh; cbn [hole_flag negb Z.eqb IS_HOLE NOT_HOLE].
  - rewrite (proj2 (Z.ltb_lt _ _)).
    2: { apply find_element_lt; [apply Hix |]. apply He. simpl. rewrite Hbh. by left. }
    cbn [ASSERT mbind outcome_bind]. rewrite (proj2 (Z.leb_le (a + b_len b) _)) by klia.
    cbn [ASSERT mbind outcome_bind]. rewrite (IH _ bs) by (done || klia || (rewrite u32_small; klia)).
    rewrite u32_small by klia. cbn [holes allocs]. rewrite Hbh. cbn [app length]. do 2 f_equal. lia.
  - cbn [mbind outcome_bind]. rewrite (proj2 (Z.leb_le (a + b_len b) _)) by klia.
    cbn [ASSERT mbind outcome_bind]. rewrite (IH _ bs) by (done || klia || (rewrite u32_small; klia)).
    rewrite (u32_small (an + 1)) by klia. cbn [holes allocs]. rewrite Hbh. cbn [app length]. do 2 f_equal. lia.
Qed.

Lemma length_chain m a bs e : chain m a bs e -> 0 <= Z.of_nat (length bs) <= total bs.
Proof.
  revert a. induction bs as [|b bs IH]; intros a; simpl; [lia |].
  intros [[] Hc]. apply IH in Hc. klia.
Qed.

(** [kheap_validate_print] of a well-formed, fully indexed heap passes all
    of its assertions and returns the number of live blocks. *)
Theorem kheap_validate_correct s bs :
  kmem_wf s bs -> indexed (km_mem s) (km_heap s) bs ->
  kheap_validate_print (km_mem s) (km_heap s) = Ok (Z.of_nat (length (live s bs))).
Proof.
  intros [Hl Hwf] Hidx. pose proof Hwf as [].
  pose proof (chain_end _ _ _ _ hw_chain) as He. pose proof (length_chain _ _ _ _ hw_chain).
  unfold kheap_validate_print.
  rewrite (validate_from_spec _ _ _ _ bs) by (done || klia). cbn [mbind outcome_bind].
  assert (contents (km_mem s) (kh_index (km_heap s)) ≡ₚ holes (kh_start (km_heap s)) bs) as Hp.
  { apply NoDup_Permutation; [apply hw_index | by eapply NoDup_holes |]. split; auto. }
  apply Permutation_length in Hp. destruct (ix_wf _ _ _ hw_index).
  rewrite length_contents in Hp by done. by rewrite (proj2 (Z.eqb_eq _ _)) by lia.
Qed.

Lemma kheap_validate_correct_witness :
  kheap_validate_print (km_mem boot_heap) (km_heap boot_heap) = Ok 0.
Proof.
  destruct boot_heap_wf as [Hwf Hidx]. exact (kheap_validate_correct boot_heap [boot_block] Hwf Hidx).
Defined.

(** ** Fit *)

(** Without alignment, the hole a request is served from is a smallest
    one that fits, among all indexed holes (best fit). *)
Theorem find_hole_best_fit m h bs size i pos x :
  heap_wf m h bs -> 0 < size < ALLOC_LIMIT ->
  find_hole m h size false = Ok (Some (i, pos)) ->
  x ∈ contents m (kh_index h) -> size <= hdr_size m x ->
  size <= hdr_size m (pos - HEADER_SIZE) <= hdr_size m x.
Proof.
  intros Hwf Hs Hf Hx Hfit. destruct (find_hole_spec m h bs size false Hwf Hs) as (r & Hf' & Hr).
  rewrite Hf in Hf'. injection Hf' as <-.
  destruct Hr as (l & b & r & header & cut & Hbs & Hh & Hi & Hl & -> & [Hcut Hle] & Hno).
  simpl in Hcut. subst cut. replace (header + 0 + HEADER_SIZE - HEADER_SIZE) with header by lia.
  assert (hdr_size m header = b) as Hb.
  { pose proof (hw_chain _ _ _ Hwf) as Hc. rewrite Hbs in Hc. apply chain_block in Hc.
    rewrite <- Hh in Hc. apply Hc. }
  split; [lia |]. apply list_elem_of_lookup in Hx as (k & Hk).
  destruct (decide (Z.of_nat k < i)) as [Hlt|Hge].
  - specialize (Hno (Z.of_nat k) x ltac:(lia)). rewrite Nat2Z.id in Hno.
    specialize (Hno Hk). simpl in Hno. lia.
  - eapply sorted_lookup_le; [apply (hw_sorted _ _ _ Hwf) | exact Hl | exact Hk | lia].
Qed.

Lemma find_hole_best_fit_witness :
  100 <= hdr_size (km_mem boot_heap) 0xC0C80000 <= hdr_size (km_mem boot_heap) 0xC0C80000.
Proof.
  destruct boot_heap_wf as [[_ Hwf] Hidx].
  apply (find_hole_best_fit (km_mem boot_heap) (km_heap boot_heap) [boot_block] 100 0 0xC0C80009);
    [exact Hwf | mlia | vm_compute; reflexivity | apply Hidx; by left | apply Z.leb_le; vm_compute; reflexivity].
Defined.

(** The heap at boot is a large term: only [vm_compute] unfolds it. *)
#[global] Opaque boot_heap.
