(* ===== verification/Allocator.v ===== *)
(** * The allocator interface

    What the kernel's data structures rely on when they call [kmalloc] and
    [kfree]; the kernel heap implements it. *)

From S2P Require Import Prelude.
From S2P Require Import Memory.
From S2P Require Import OrderedArray.
From S2P Require Import YieldLock.
From S2P Require Import KHeap.
From S2P Require Import KHeapInv.
From S2P Require Import KHeapGap.
From S2P Require Import KHeapAlloc.
From S2P Require Import KHeapMalloc.
From S2P Require Import KHeapSpec.
From S2P Require Import KHeapFree.
From S2P Require Import KMalloc.

(** An allocator has a state, the two calls, and a relation [alive] between
    the state and the sizes of the blocks handed out and not yet freed.  With
    fewer than [capacity] blocks out a request returns a fresh non-null block
    or panics for lack of memory; freeing a block always succeeds. *)
Class Allocator (A : Type) := {
  a_malloc : A -> Z -> outcome (A * Z);
  a_free : A -> Z -> outcome A;
  alive : A -> gmap Z Z -> Prop;
  capacity : Z;
  request_limit : Z;
  alive_pos : forall a L p n, alive a L -> L !! p = Some n -> 0 < p < 4294967296;
  malloc_law : forall a L n,
    alive a L -> Z.of_nat (size L) < capacity -> 0 < n < request_limit ->
    a_malloc a n = Panic \/
    exists a' p k, a_malloc a n = Ok (a', p) /\ L !! p = None /\ n <= k /\ alive a' (<[p := k]> L);
  free_law : forall a L p n,
    alive a L -> L !! p = Some n -> exists a', a_free a p = Ok a' /\ alive a' (delete p L);
  free_null : forall a, a_free a 0 = Ok a
}.

(** ** The kernel heap as an allocator *)

(** Holes are separated by live blocks. *)
Lemma length_holes a bs :
  coalesced bs ->
  (length (holes a bs) <= length (allocs a bs) + 1)%nat /\
  (head_used bs -> (length (holes a bs) <= length (allocs a bs))%nat).
Proof.
  revert a. induction bs as [|[s []] bs IH]; intros a Hc; [simpl; lia | |].
  - apply (coalesced_hole []) in Hc as (_ & Hc & _ & Hh).
    destruct (IH (a + b_len (Blk s true)) Hc) as [_ Hl]. specialize (Hl Hh).
    simpl. split; [lia | done].
  - apply (coalesced_used []) in Hc as [_ Hc].
    destruct (IH (a + b_len (Blk s false)) Hc) as [Hl _]. simpl. split; [lia | intros; lia].
Qed.

Lemma index_size_bound m h bs :
  heap_wf m h bs -> oa_size (kh_index h) <= Z.of_nat (length (allocs (kh_start h) bs)) + 1.
Proof.
  intros []. destruct (length_holes (kh_start h) bs hw_coalesced) as [Hl _].
  assert (length (contents m (kh_index h)) <= length (holes (kh_start h) bs))%nat as Hle.
  { apply submseteq_length, NoDup_submseteq; [apply hw_index | done]. }
  destruct (ix_wf _ _ _ hw_index). rewrite length_contents in Hle by done. lia.
Qed.

Definition kheap_capacity : Z := KHEAP_INDEX_NUM - 2.

(** The blocks handed out are the live blocks of the heap. *)
Definition kmem_alive (s : kmem) (L : gmap Z Z) : Prop :=
  exists bs, kmem_wf s bs /\ indexed (km_mem s) (km_heap s) bs /\
    map_to_list L ≡ₚ live s bs /\ Z.of_nat (size L) <= kheap_capacity /\
    KHEAP_START <= kh_start (km_heap s).

Lemma live_elem s L bs p n : map_to_list L ≡ₚ live s bs -> L !! p = Some n <-> (p, n) ∈ live s bs.
Proof. intros <-. by rewrite elem_of_map_to_list. Qed.

Lemma live_length s L bs : map_to_list L ≡ₚ live s bs -> size L = length (live s bs).
Proof. intros <-. by rewrite length_map_to_list. Qed.

Lemma kmem_alive_pos s L p n : kmem_alive s L -> L !! p = Some n -> 0 < p < 4294967296.
Proof.
  intros (bs & [_ Hwf] & _ & HL & _ & _) Hp. rewrite (live_elem s L bs) in Hp by done.
  pose proof (hw_lo _ _ _ Hwf). pose proof (hw_max _ _ _ Hwf).
  pose proof (allocs_bounds _ _ _ _ _ _ (hw_chain _ _ _ Hwf) Hp). klia.
Qed.

Lemma kmem_malloc_any s L n align :
  kmem_alive s L -> Z.of_nat (size L) < kheap_capacity -> 0 < n < ALLOC_LIMIT ->
  kmalloc_locked s n align = Panic \/
  exists s' p k, kmalloc_locked s n align = Ok (s', p) /\ L !! p = None /\ n <= k /\
    (align = true -> p mod PAGE_SIZE = 0) /\ kmem_alive s' (<[p := k]> L).
Proof.
  intros (bs & [Hl Hwf] & Hidx & HL & _ & Hst) Hcap Hn.
  destruct (kmalloc_impl_returns _ _ _ n align Hwf Hn) as [(m' & h' & bs' & p & He & Ha)|He].
  2: { left. by apply kmalloc_locked_panic. }
  right. pose proof (allocated_post _ _ _ _ _ _ _ _ Ha) as [Hwf' _ (k & Hk & Hperm) _ _].
  assert (L !! p = None) as Hnone.
  { apply eq_None_not_Some. intros [k' Hp]. rewrite (live_elem s L bs) in Hp by done.
    destruct Hwf' as [_ Hwf']. set (s' := {| km_mem := _ |}) in *.
    assert (NoDup (live s' bs').*1) as Hnd by (eapply NoDup_allocs, hw_chain, Hwf').
    rewrite Hperm in Hnd. simpl in Hnd. apply NoDup_cons in Hnd as [Hni _]. apply Hni.
    apply list_elem_of_fmap. by exists (p, k'). }
  eexists _, p, k. split; [by apply kmalloc_locked_eq |]. split; [done |]. split; [done |].
  split; [apply (al_align _ _ _ _ _ _ _ _ _ Ha) |].
  exists bs'. split; [done |]. split; [|split; [|split]].
  - apply (al_indexed _ _ _ _ _ _ _ _ _ Ha); [done |].
    pose proof (index_size_bound _ _ _ Hwf). pose proof (tail_used_range bs).
    rewrite (live_length s L bs) in Hcap by done. unfold live, kheap_capacity in *. lia.
  - rewrite map_to_list_insert, Hperm by done. by constructor.
  - rewrite map_size_insert_None by done. lia.
  - cbn. by rewrite (al_start _ _ _ _ _ _ _ _ _ Ha).
Qed.

Lemma kmem_malloc_law s L n :
  kmem_alive s L -> Z.of_nat (size L) < kheap_capacity -> 0 < n < ALLOC_LIMIT ->
  kmalloc s n = Panic \/
  exists s' p k, kmalloc s n = Ok (s', p) /\ L !! p = None /\ n <= k /\ kmem_alive s' (<[p := k]> L).
Proof.
  intros Ha Hc Hn. destruct (kmem_malloc_any s L n false Ha Hc Hn)
    as [?|(s' & p & k & ? & ? & ? & _ & ?)]; [by left | right]. by exists s', p, k.
Qed.

Lemma kmem_free_law s L p n :
  kmem_alive s L -> L !! p = Some n -> exists s', kfree s p = Ok s' /\ kmem_alive s' (delete p L).
Proof.
  intros (bs & [Hl Hwf] & Hidx & HL & Hcap & Hst) Hp. pose proof Hp as Hin.
  rewrite (live_elem s L bs) in Hin by done.
  destruct (free_live _ _ _ _ _ Hwf Hidx Hin) as (m' & h' & l & r & He & -> & Hpl & [] & Hp0).
  eexists. split; [by apply kfree_eq |]. exists (release l n r). split; [done |].
  pose proof (index_size_bound _ _ _ Hwf). rewrite (live_length s L _) in Hcap by done.
  split; [|split; [|split]].
  - apply fd_indexed. unfold live, kheap_capacity in *. lia.
  - apply (Permutation_cons_inv (a := (p, n))). rewrite map_to_list_delete by done.
    rewrite HL. unfold live. cbn. rewrite fd_start, Hpl. apply allocs_release.
  - rewrite map_size_delete, Hp, (live_length s L _) by done. lia.
  - cbn. by rewrite fd_start.
Qed.

#[export] Instance kheap_allocator : Allocator kmem := {|
  a_malloc := kmalloc;
  a_free := kfree;
  alive := kmem_alive;
  capacity := kheap_capacity;
  request_limit := ALLOC_LIMIT;
  alive_pos := kmem_alive_pos;
  malloc_law := kmem_malloc_law;
  free_law := kmem_free_law;
  free_null := fun _ => eq_refl
|}.

Lemma boot_heap_alive : kmem_alive boot_heap ∅.
Proof.
  destruct boot_heap_wf as [Hwf Hidx]. exists [boot_block]. split_and!; try done.
Qed.

(** ** Aligned blocks *)

(** [kmalloc_aligned], for the clients that need whole pages. *)
Class AlignedAllocator (A : Type) `{Allocator A} := {
  a_malloc_aligned : A -> Z -> outcome (A * Z);
  malloc_aligned_law : forall a L n,
    alive a L -> Z.of_nat (size L) < capacity -> 0 < n < request_limit ->
    a_malloc_aligned a n = Panic \/
    exists a' p k, a_malloc_aligned a n = Ok (a', p) /\ L !! p = None /\ n <= k /\
      p mod PAGE_SIZE = 0 /\ alive a' (<[p := k]> L)
}.

Lemma kmem_malloc_aligned_law s L n :
  kmem_alive s L -> Z.of_nat (size L) < kheap_capacity -> 0 < n < ALLOC_LIMIT ->
  kmalloc_aligned s n = Panic \/
  exists s' p k, kmalloc_aligned s n = Ok (s', p) /\ L !! p = None /\ n <= k /\
    p mod PAGE_SIZE = 0 /\ kmem_alive s' (<[p := k]> L).
Proof.
  intros Ha Hc Hn. destruct (kmem_malloc_any s L n true Ha Hc Hn)
    as [?|(s' & p & k & ? & ? & ? & ? & ?)]; [by left | right]. exists s', p, k. split_and!; auto.
Qed.

#[export] Instance kheap_aligned_allocator : AlignedAllocator kmem := {|
  a_malloc_aligned := kmalloc_aligned;
  malloc_aligned_law := kmem_malloc_aligned_law
|}.

(** ** Blocks as memory *)

(** For the clients that use blocks as bytes: they are the kernel's memory above
    the window of the page tables, and no two overlap. *)
Class BlockAllocator (A : Type) `{AlignedAllocator A} := {
  block_range : forall a L p n,
    alive a L -> L !! p = Some n -> 0 < n /\ 0xC0800000 <= p /\ p + n < 4294967296;
  blocks_apart : forall a L p n q k,
    alive a L -> L !! p = Some n -> L !! q = Some k -> p <> q -> p + n <= q \/ q + k <= p
}.

Lemma kmem_block_range s L p n :
  kmem_alive s L -> L !! p = Some n -> 0 < n /\ 0xC0800000 <= p /\ p + n < 4294967296.
Proof.
  intros (bs & [_ Hwf] & _ & HL & _ & Hst) Hp. rewrite (live_elem s L bs) in Hp by done.
  pose proof (hw_max _ _ _ Hwf).
  destruct (allocs_bounds _ _ _ _ _ _ (hw_chain _ _ _ Hwf) Hp) as (? & ? & ?).
  unfold KHEAP_START in Hst. klia.
Qed.

Lemma kmem_blocks_apart s L p n q k :
  kmem_alive s L -> L !! p = Some n -> L !! q = Some k -> p <> q -> p + n <= q \/ q + k <= p.
Proof.
  intros (bs & [_ Hwf] & _ & HL & _ & _) Hp Hq Hne. rewrite (live_elem s L bs) in Hp, Hq by done.
  destruct (allocs_disjoint _ _ _ _ _ _ _ _ (hw_chain _ _ _ Hwf) Hp Hq) as [? | [? | ?]]; [congruence | klia | klia].
Qed.

#[export] Instance kheap_block_allocator : BlockAllocator kmem := {|
  block_range := kmem_block_range;
  blocks_apart := kmem_blocks_apart
|}.
