(* ===== verification/LinkedList.v ===== *)
(** * Doubly linked lists (utils/linked_list.c)

    Nodes are objects of a store, a finite map from their addresses; a list is
    its head, tail and size.  A null pointer is 0; reading or writing a node
    that is not in the store is a fault. *)

From S2P Require Import Prelude.
From S2P Require Import Allocator.

Record linked_list_node_t := Node { n_ptr : Z; n_prev : Z; n_next : Z }.
Record linked_list_t := LList { ll_head : Z; ll_tail : Z; ll_size : Z }.

Abbreviation nodes := (gmap Z linked_list_node_t).

(** [node->prev = v;] and [node->next = v;] *)
Definition set_prev (st : nodes) (node v : Z) : outcome nodes :=
  n ← deref (st !! node); Ok (<[node := Node (n_ptr n) v (n_next n)]> st).
Definition set_next (st : nodes) (node v : Z) : outcome nodes :=
  n ← deref (st !! node); Ok (<[node := Node (n_ptr n) (n_prev n) v]> st).

Definition linked_list_init : linked_list_t := LList 0 0 0.

Definition create_linked_list : linked_list_t := linked_list_init.

Definition linked_list_append (st : nodes) (this : linked_list_t) (new_node : Z) :
    outcome (nodes * linked_list_t) :=
  st ← set_next st new_node 0;
  if ll_size this =? 0 then
    st ← set_prev st new_node 0;
    Ok (st, LList new_node new_node (u32 (ll_size this + 1)))
  else
    let tail := ll_tail this in
    st ← set_next st tail new_node;
    st ← set_prev st new_node tail;
    Ok (st, LList (ll_head this) new_node (u32 (ll_size this + 1))).

Definition linked_list_insert (st : nodes) (this : linked_list_t) (node new_node : Z) :
    outcome (nodes * linked_list_t) :=
  st ← set_prev st new_node node;
  '(st, head, next_node) ←
    (if node =? 0 then Ok (st, new_node, ll_head this)
     else
       n ← deref (st !! node);
       let next_node := n_next n in
       st ← set_next st node new_node;
       Ok (st, ll_head this, next_node));
  st ← set_next st new_node next_node;
  '(st, tail) ←
    (if negb (next_node =? 0) then
       st ← set_prev st next_node new_node;
       Ok (st, ll_tail this)
     else Ok (st, new_node));
  Ok (st, LList head tail (u32 (ll_size this + 1))).

Definition linked_list_insert_to_head (st : nodes) (this : linked_list_t) (new_node : Z) :
    outcome (nodes * linked_list_t) :=
  linked_list_insert st this (ll_head this) new_node.

Definition linked_list_remove (st : nodes) (this : linked_list_t) (node : Z) :
    outcome (nodes * linked_list_t) :=
  n ← deref (st !! node);
  let prev_node := n_prev n in
  let next_node := n_next n in
  '(st, head) ←
    (if negb (prev_node =? 0) then
       st ← set_next st prev_node next_node;
       Ok (st, ll_head this)
     else Ok (st, next_node));
  '(st, tail) ←
    (if negb (next_node =? 0) then
       st ← set_prev st next_node prev_node;
       Ok (st, ll_tail this)
     else Ok (st, prev_node));
  Ok (st, LList head tail (u32 (ll_size this - 1))).

Definition NODE_SIZE : Z := 12.

Definition linked_list_append_ele {A} `{Allocator A} (a : A) (st : nodes) (this : linked_list_t)
    (ptr : Z) : outcome (A * nodes * linked_list_t) :=
  '(a, node) ← a_malloc a NODE_SIZE;
  let st := <[node := Node ptr 0 0]> st in
  '(st, this) ← linked_list_append st this node;
  Ok (a, st, this).

(** [while (node != nullptr) { if (node->ptr == ptr) ...; node = node->next; }]:
    the node found, or 0. *)
Fixpoint find_ele (fuel : nat) (st : nodes) (node ptr : Z) : outcome Z :=
  match fuel with
  | O => NoFuel
  | S fuel =>
      if negb (node =? 0) then
        n ← deref (st !! node);
        if n_ptr n =? ptr then Ok node else find_ele fuel st (n_next n) ptr
      else Ok 0
  end.

Definition linked_list_remove_ele (st : nodes) (this : linked_list_t) (ptr : Z) :
    outcome (nodes * linked_list_t) :=
  node ← find_ele (S (Z.to_nat (ll_size this))) st (ll_head this) ptr;
  if node =? 0 then Ok (st, this) else linked_list_remove st this node.

(** The new [dst] and [src]. *)
Definition linked_list_move (dst src : linked_list_t) : linked_list_t * linked_list_t :=
  (LList (ll_head src) (ll_tail src) (ll_size src), linked_list_init).

Definition linked_list_concate (st : nodes) (dst src : linked_list_t) :
    outcome (nodes * linked_list_t * linked_list_t) :=
  if ll_size src =? 0 then Ok (st, dst, src)
  else if ll_size dst =? 0 then
    let '(dst, src) := linked_list_move dst src in Ok (st, dst, src)
  else
    st ← set_next st (ll_tail dst) (ll_head src);
    st ← set_prev st (ll_head src) (ll_tail dst);
    Ok (st, LList (ll_head dst) (ll_tail src) (u32 (ll_size dst + ll_size src)), linked_list_init).

(** ** Representation *)

(** The first and the last address of a segment, or [d]. *)
Definition first (xs : list Z) (d : Z) : Z := default d (head xs).
Definition final (xs : list Z) (d : Z) : Z := default d (last xs).

(** The nodes [xs], linked, between the nodes [p] before and [n] after. *)
Fixpoint seg (st : nodes) (p : Z) (xs : list Z) (n : Z) : Prop :=
  match xs with
  | [] => True
  | x :: xs => (exists v, st !! x = Some (Node v p (first xs n))) /\ seg st x xs n
  end.

Record is_list (st : nodes) (l : linked_list_t) (xs : list Z) : Prop := {
  il_seg : seg st 0 xs 0;
  il_nodup : NoDup (0 :: xs);
  il_head : ll_head l = first xs 0;
  il_tail : ll_tail l = final xs 0;
  il_size : ll_size l = Z.of_nat (length xs);
  il_len : Z.of_nat (length xs) < 4294967296
}.

(** The elements the nodes hold. *)
Definition values (st : nodes) (xs : list Z) : list Z :=
  (fun x => default 0 (n_ptr <$> st !! x)) <$> xs.

(** Only links changed: every node keeps its element, and outside of [xs]
    every node is what it was. *)
Definition relinked (st st' : nodes) (xs : list Z) : Prop :=
  (forall x, n_ptr <$> st' !! x = n_ptr <$> st !! x) /\
  (forall x, x ∉ xs -> st' !! x = st !! x).

Lemma first_app xs ys d : first (xs ++ ys) d = first xs (first ys d).
Proof. by destruct xs. Qed.

Lemma final_app xs ys d : final (xs ++ ys) d = final ys (final xs d).
Proof.
  destruct ys as [|y ys _] using rev_ind; [by rewrite app_nil_r |].
  unfold final. by rewrite app_assoc, !last_snoc.
Qed.

Lemma final_snoc xs x d : final (xs ++ [x]) d = x.
Proof. unfold final. by rewrite last_snoc. Qed.

Lemma seg_app st p xs ys n :
  seg st p (xs ++ ys) n <-> seg st p xs (first ys n) /\ seg st (final xs p) ys n.
Proof.
  revert p. induction xs as [|x xs IH]; intros p; simpl; [tauto |].
  rewrite IH, first_app. assert (final (x :: xs) p = final xs x) as ->; [|tauto].
  change (x :: xs) with ([x] ++ xs). by rewrite final_app.
Qed.

Lemma seg_frame st st' p xs n :
  (forall x, x ∈ xs -> st' !! x = st !! x) -> seg st p xs n -> seg st' p xs n.
Proof.
  revert p. induction xs as [|x xs IH]; intros p Hf; simpl; [done |].
  intros [[v Hv] Hs]. split; [exists v; rewrite Hf by set_solver; done |].
  apply IH; [|done]. intros y Hy. apply Hf. by right.
Qed.

Lemma seg_in st p xs n x : seg st p xs n -> x ∈ xs -> is_Some (st !! x).
Proof.
  revert p. induction xs as [|y xs IH]; intros p; simpl; [by intros _ ?%elem_of_nil |].
  intros [[v Hv] Hs] [->|Hx]%elem_of_cons; [by eexists | by eapply IH].
Qed.

Definition with_prev (v : Z) (n : linked_list_node_t) := Node (n_ptr n) v (n_next n).
Definition with_next (v : Z) (n : linked_list_node_t) := Node (n_ptr n) (n_prev n) v.

Lemma set_prev_ok st x v : is_Some (st !! x) -> set_prev st x v = Ok (alter (with_prev v) x st).
Proof.
  intros [n Hn]. unfold set_prev. rewrite Hn. cbn. f_equal.
  apply map_eq. intros y. destruct (decide (x = y)) as [<-|].
  - by rewrite lookup_insert_eq, lookup_alter_eq, Hn.
  - by rewrite lookup_insert_ne, lookup_alter_ne.
Qed.

Lemma set_next_ok st x v : is_Some (st !! x) -> set_next st x v = Ok (alter (with_next v) x st).
Proof.
  intros [n Hn]. unfold set_next. rewrite Hn. cbn. f_equal.
  apply map_eq. intros y. destruct (decide (x = y)) as [<-|].
  - by rewrite lookup_insert_eq, lookup_alter_eq, Hn.
  - by rewrite lookup_insert_ne, lookup_alter_ne.
Qed.

(** Redirecting the ends of a segment. *)
Lemma seg_alter f y st p xs n : y ∉ xs -> seg st p xs n -> seg (alter f y st) p xs n.
Proof.
  intros Hy. apply seg_frame. intros x Hx. apply lookup_alter_ne. by intros ->.
Qed.

Lemma seg_alter_next st p xs n n' d :
  NoDup xs -> seg st p xs n -> seg (alter (with_next n') (final xs d) st) p xs n'.
Proof.
  destruct xs as [|x xs _] using rev_ind; [done |].
  rewrite final_snoc. intros (_ & Hni & _)%NoDup_app. rewrite !seg_app.
  intros [Hs [[v Hv] _]]. split.
  - apply seg_alter; [|done]. intros Hx. apply (Hni x Hx). by left.
  - split; [|done]. exists v. rewrite lookup_alter_eq, Hv. done.
Qed.

Lemma seg_alter_prev st p p' xs n d :
  NoDup xs -> seg st p xs n -> seg (alter (with_prev p') (first xs d) st) p' xs n.
Proof.
  destruct xs as [|x xs]; [done |]. intros [Hni _]%NoDup_cons [[v Hv] Hs].
  split; [|by apply seg_alter]. exists v. cbn. rewrite lookup_alter_eq, Hv. done.
Qed.

Lemma relinked_refl st xs : relinked st st xs.
Proof. done. Qed.

Lemma relinked_trans st1 st2 st3 xs : relinked st1 st2 xs -> relinked st2 st3 xs -> relinked st1 st3 xs.
Proof. intros [H1 H2] [H3 H4]. split; intros x; [by rewrite H3 | intros Hx; by rewrite H4, H2]. Qed.

Lemma relinked_mono st st' xs ys : relinked st st' xs -> xs ⊆ ys -> relinked st st' ys.
Proof. intros [H1 H2] Hs. split; [done |]. intros x Hx. apply H2. set_solver. Qed.

Lemma relinked_alter_prev st x v xs : x ∈ xs -> relinked st (alter (with_prev v) x st) xs.
Proof.
  intros Hx. split; intros y.
  - destruct (decide (x = y)) as [<-|]; [|by rewrite lookup_alter_ne].
    rewrite lookup_alter_eq. by destruct (st !! x).
  - intros Hy. apply lookup_alter_ne. by intros ->.
Qed.

Lemma relinked_alter_next st x v xs : x ∈ xs -> relinked st (alter (with_next v) x st) xs.
Proof.
  intros Hx. split; intros y.
  - destruct (decide (x = y)) as [<-|]; [|by rewrite lookup_alter_ne].
    rewrite lookup_alter_eq. by destruct (st !! x).
  - intros Hy. apply lookup_alter_ne. by intros ->.
Qed.

Lemma relinked_values st st' xs ys : relinked st st' xs -> values st' ys = values st ys.
Proof. intros [H _]. unfold values. apply list_fmap_ext. intros i x _. by rewrite H. Qed.

Lemma relinked_in st st' xs x : relinked st st' xs -> is_Some (st !! x) -> is_Some (st' !! x).
Proof.
  intros [H _] [n Hn]. specialize (H x). rewrite Hn in H. simpl in H.
  destruct (st' !! x); [by eexists | done].
Qed.

Create HintDb links.
#[export] Hint Resolve relinked_refl relinked_alter_prev relinked_alter_next : links.

(** The ends of a list and null. *)
Lemma final_in xs d : xs <> [] -> final xs d ∈ xs.
Proof.
  destruct xs as [|x xs _] using rev_ind; [done |]. intros _. rewrite final_snoc. set_solver.
Qed.

Lemma first_in xs d : xs <> [] -> first xs d ∈ xs.
Proof. destruct xs; [done |]. intros _. by left. Qed.

Lemma final_null xs : 0 ∉ xs -> (final xs 0 =? 0) = bool_decide (xs = []).
Proof.
  intros H0. case_bool_decide as Hx; [by subst |].
  apply Z.eqb_neq. intros Hf. apply H0. rewrite <- Hf. by apply final_in.
Qed.

Lemma first_null xs : 0 ∉ xs -> (first xs 0 =? 0) = bool_decide (xs = []).
Proof.
  intros H0. case_bool_decide as Hx; [by subst |].
  apply Z.eqb_neq. intros Hf. apply H0. rewrite <- Hf. by apply first_in.
Qed.

(** ** Rewriting the ends of a run of nodes *)

Definition relast (st : nodes) (xs : list Z) (v : Z) : nodes :=
  match xs with [] => st | _ => alter (with_next v) (final xs 0) st end.
Definition refirst (st : nodes) (xs : list Z) (v : Z) : nodes :=
  match xs with [] => st | _ => alter (with_prev v) (first xs 0) st end.

Lemma relast_ne st xs v : xs <> [] -> relast st xs v = alter (with_next v) (final xs 0) st.
Proof. by destruct xs. Qed.

Lemma refirst_ne st xs v : xs <> [] -> refirst st xs v = alter (with_prev v) (first xs 0) st.
Proof. by destruct xs. Qed.

Lemma seg_relast st p xs n v : NoDup xs -> seg st p xs n -> seg (relast st xs v) p xs v.
Proof. destruct xs; [done |]. apply seg_alter_next. Qed.

Lemma seg_refirst st p xs n v : NoDup xs -> seg st p xs n -> seg (refirst st xs v) v xs n.
Proof. destruct xs; [done |]. apply seg_alter_prev. Qed.

Lemma relast_lookup st xs v y : y ∉ xs -> relast st xs v !! y = st !! y.
Proof.
  intros Hy. destruct xs as [|x xs]; [done |]. rewrite relast_ne by done.
  apply lookup_alter_ne. intros <-. by apply Hy, final_in.
Qed.

Lemma refirst_lookup st xs v y : y ∉ xs -> refirst st xs v !! y = st !! y.
Proof.
  intros Hy. destruct xs as [|x xs]; [done |]. rewrite refirst_ne by done.
  apply lookup_alter_ne. intros <-. by apply Hy, first_in.
Qed.

Lemma seg_relast_other st xs v p ys n : ys ## xs -> seg st p ys n -> seg (relast st xs v) p ys n.
Proof. intros Hd. apply seg_frame. intros y Hy. apply relast_lookup. intros ?. by apply (Hd y). Qed.

Lemma seg_refirst_other st xs v p ys n : ys ## xs -> seg st p ys n -> seg (refirst st xs v) p ys n.
Proof. intros Hd. apply seg_frame. intros y Hy. apply refirst_lookup. intros ?. by apply (Hd y). Qed.

Lemma relinked_relast st xs v ys : xs ⊆ ys -> relinked st (relast st xs v) ys.
Proof.
  destruct xs; [done |]. intros Hs. rewrite relast_ne by done.
  apply relinked_alter_next, Hs. by apply final_in.
Qed.

Lemma relinked_refirst st xs v ys : xs ⊆ ys -> relinked st (refirst st xs v) ys.
Proof.
  destruct xs; [done |]. intros Hs. rewrite refirst_ne by done.
  apply relinked_alter_prev, Hs. by apply first_in.
Qed.

(** The calls that do so. *)
Lemma set_next_relast st p xs n v :
  seg st p xs n -> xs <> [] -> set_next st (final xs 0) v = Ok (relast st xs v).
Proof.
  intros Hs Hne. rewrite relast_ne by done. apply set_next_ok. eapply seg_in; [done |].
  by apply final_in.
Qed.

Lemma set_prev_refirst st p xs n v :
  seg st p xs n -> xs <> [] -> set_prev st (first xs 0) v = Ok (refirst st xs v).
Proof.
  intros Hs Hne. rewrite refirst_ne by done. apply set_prev_ok. eapply seg_in; [done |].
  by apply first_in.
Qed.

#[export] Hint Resolve relinked_relast relinked_refirst : links.

(** ** The operations *)

Lemma is_list_empty st : is_list st linked_list_init [].
Proof. constructor; try done. apply NoDup_singleton. Qed.

Lemma is_list_size st L xs : is_list st L xs -> (ll_size L =? 0) = bool_decide (xs = []).
Proof.
  intros []. rewrite il_size0. case_bool_decide; [by subst |].
  apply Z.eqb_neq. destruct xs; [done | simpl; lia].
Qed.

Lemma seg_final st p xs n :
  seg st p xs n -> xs <> [] -> exists v q, st !! final xs 0 = Some (Node v q n).
Proof.
  destruct xs as [|x xs _] using rev_ind; [done |]. intros Hs _. rewrite final_snoc.
  apply seg_app in Hs as [_ [[v Hv] _]]. simpl in Hv. eauto.
Qed.

(** The part of [linked_list_insert] that links the run before, *)
Lemma insert_before st p l n new h :
  seg st p l n -> 0 ∉ l -> h = first l n ->
  (if final l 0 =? 0 then Ok (st, new, h)
   else
     nd ← deref (st !! final l 0);
     let next_node := n_next nd in
     st ← set_next st (final l 0) new;
     Ok (st, h, next_node)) = Ok (relast st l new, first l new, n).
Proof.
  intros Hs H0 ->. rewrite final_null by done. case_bool_decide as Hl; [by subst |].
  destruct (seg_final _ _ _ _ Hs Hl) as (v & q & Hn). rewrite Hn. cbn [deref mbind outcome_bind].
  rewrite (set_next_relast _ _ _ _ _ Hs) by done. by destruct l.
Qed.

(** and the run after the new node. *)
Lemma insert_after st p r n new t d :
  seg st p r n -> 0 ∉ r -> t = final r d ->
  (if negb (first r 0 =? 0) then st ← set_prev st (first r 0) new; Ok (st, t) else Ok (st, new))
  = Ok (refirst st r new, final r new).
Proof.
  intros Hs H0 ->. rewrite first_null by done. case_bool_decide as Hr; cbn [negb]; [by subst |].
  rewrite (set_prev_refirst _ _ _ _ _ Hs) by done. cbn. f_equal. f_equal.
  destruct r as [|? ? _] using rev_ind; [done | by rewrite !final_snoc].
Qed.

Lemma linked_list_insert_spec st L l r new :
  is_list st L (l ++ r) -> new <> 0 -> new ∉ l ++ r -> is_Some (st !! new) ->
  Z.of_nat (length (l ++ r)) < 4294967295 ->
  exists st' L', linked_list_insert st L (final l 0) new = Ok (st', L') /\
    is_list st' L' (l ++ new :: r) /\ relinked st st' (new :: l ++ r).
Proof.
  intros [Hs Hnd Hh Ht Hz _] Hn0 Hni [nd Hnew] Hlen.
  assert ((0 ∉ l) /\ (0 ∉ r) /\ (new ∉ l) /\ (new ∉ r)) as (H0l & H0r & Hnl & Hnr).
  { apply NoDup_cons in Hnd as [H0 _]. set_solver. }
  apply NoDup_cons in Hnd as [H0 Hnd]. pose proof Hnd as (Hndl & Hdis & Hndr)%NoDup_app.
  apply seg_app in Hs as [Hl Hr]. rewrite first_app in Hh. rewrite final_app in Ht.
  set (st1 := alter (with_prev (final l 0)) new st).
  set (st2 := relast st1 l new).
  set (st3 := alter (with_next (first r 0)) new st2).
  set (st4 := refirst st3 r new).
  assert (seg st1 0 l (first r 0)) as Hl1 by by apply seg_alter.
  assert (seg st3 (final l 0) r 0) as Hr3.
  { apply seg_alter; [done |]. apply seg_relast_other; [set_solver |]. by apply seg_alter. }
  assert (st2 !! new = Some (with_prev (final l 0) nd)) as Hnew2.
  { unfold st2. rewrite relast_lookup by done. unfold st1. by rewrite lookup_alter_eq, Hnew. }
  exists st4, (LList (first l new) (final r new) (u32 (ll_size L + 1))). split; [|split].
  - unfold linked_list_insert. rewrite set_prev_ok by done. cbn [mbind outcome_bind]. fold st1.
    rewrite (insert_before _ _ _ _ _ _ Hl1 H0l Hh). cbn [mbind outcome_bind]. fold st2.
    rewrite set_next_ok by done. cbn [mbind outcome_bind]. fold st3.
    by rewrite (insert_after _ _ _ _ _ _ _ Hr3 H0r Ht).
  - constructor; cbn [ll_head ll_tail ll_size].
    + apply seg_app. split; [|split].
      * apply seg_refirst_other; [set_solver |]. apply seg_alter; [done |]. by eapply seg_relast.
      * exists (n_ptr nd). unfold st4. rewrite refirst_lookup by done. unfold st3.
        by rewrite lookup_alter_eq, Hnew2.
      * by eapply seg_refirst.
    + apply NoDup_cons. split; [set_solver |]. apply NoDup_app. split; [done |].
      rewrite NoDup_cons. set_solver.
    + by rewrite first_app.
    + rewrite final_app. change (new :: r) with ([new] ++ r). by rewrite final_app.
    + rewrite Hz, u32_small by lia. rewrite !length_app. simpl. lia.
    + rewrite length_app in *. simpl. lia.
  - apply relinked_trans with st1; [apply relinked_alter_prev; by left |].
    apply relinked_trans with st2; [apply relinked_relast; set_solver |].
    apply relinked_trans with st3; [apply relinked_alter_next; by left | apply relinked_refirst; set_solver].
Qed.

Lemma linked_list_remove_spec st L l x r :
  is_list st L (l ++ x :: r) ->
  exists st' L', linked_list_remove st L x = Ok (st', L') /\
    is_list st' L' (l ++ r) /\ relinked st st' (l ++ r) /\ st' !! x = st !! x.
Proof.
  intros [Hs Hnd Hh Ht Hz Hlen].
  apply NoDup_cons in Hnd as [H0 Hnd]. pose proof Hnd as (Hndl & Hdis & [Hxr Hndr]%NoDup_cons)%NoDup_app.
  assert ((0 ∉ l) /\ (0 ∉ r) /\ (x ∉ l) /\ (x ∉ r)) as (H0l & H0r & Hnl & Hnr) by set_solver.
  assert (forall y, y ∈ l -> y ∉ r) as Hlr by set_solver.
  apply seg_app in Hs as (Hl & [v Hx] & Hr). rewrite first_app in Hh.
  rewrite final_app in Ht. change (x :: r) with ([x] ++ r) in Ht. rewrite final_app in Ht.
  change (final [x] _) with x in Ht. change (first (x :: r) 0) with x in *.
  set (st1 := relast st l (first r 0)). set (st2 := refirst st1 r (final l 0)).
  assert (seg st1 x r 0) as Hr1 by (apply seg_relast_other; set_solver).
  exists st2, (LList (first l (first r 0)) (final r (final l 0)) (u32 (ll_size L - 1))).
  split_and!.
  - unfold linked_list_remove. rewrite Hx. cbn [deref mbind outcome_bind n_prev n_next].
    assert ((if negb (final l 0 =? 0) then
               st ← set_next st (final l 0) (first r 0); Ok (st, ll_head L)
             else Ok (st, first r 0)) = Ok (st1, first l (first r 0))) as ->.
    { rewrite final_null by done. case_bool_decide as Hle; cbn [negb]; [by subst |].
      rewrite (set_next_relast _ _ _ _ _ Hl) by done. cbn. rewrite Hh. by destruct l. }
    cbn [mbind outcome_bind]. by rewrite (insert_after _ _ _ _ _ _ _ Hr1 H0r Ht).
  - constructor; cbn [ll_head ll_tail ll_size].
    + apply seg_app. split; [apply seg_refirst_other; [done |]; by eapply seg_relast | by eapply seg_refirst].
    + apply NoDup_cons. split; [set_solver |]. apply NoDup_app. set_solver.
    + by rewrite first_app.
    + by rewrite final_app.
    + rewrite Hz. rewrite !length_app in *. simpl in *. rewrite u32_small by lia. lia.
    + rewrite length_app in *. simpl in *. lia.
  - apply relinked_trans with st1; [apply relinked_relast | apply relinked_refirst]; set_solver.
  - unfold st2, st1. by rewrite refirst_lookup, relast_lookup.
Qed.

Lemma linked_list_append_spec st L xs new :
  is_list st L xs -> new <> 0 -> new ∉ xs -> is_Some (st !! new) ->
  Z.of_nat (length xs) < 4294967295 ->
  exists st' L', linked_list_append st L new = Ok (st', L') /\
    is_list st' L' (xs ++ [new]) /\ relinked st st' (new :: xs).
Proof.
  intros HL Hn0 Hni [nd Hnew] Hlen. pose proof (is_list_size _ _ _ HL) as Hsz.
  destruct HL as [Hs Hnd Hh Ht Hz _]. apply NoDup_cons in Hnd as [H0 Hnd].
  set (st1 := alter (with_next 0) new st).
  set (st2 := relast st1 xs new).
  set (st3 := alter (with_prev (final xs 0)) new st2).
  assert (seg st1 0 xs 0) as Hs1 by by apply seg_alter.
  assert (st2 !! new = Some (with_next 0 nd)) as Hnew2.
  { unfold st2. rewrite relast_lookup by done. unfold st1. by rewrite lookup_alter_eq, Hnew. }
  exists st3, (LList (first xs new) new (u32 (ll_size L + 1))). split_and!.
  - unfold linked_list_append. rewrite set_next_ok by done. cbn [mbind outcome_bind]. fold st1.
    rewrite Hsz. case_bool_decide as Hx.
    + subst xs. rewrite set_prev_ok by done. done.
    + rewrite Ht, (set_next_relast _ _ _ _ _ Hs1) by done. cbn [mbind outcome_bind]. fold st2.
      rewrite set_prev_ok by done. cbn. rewrite Hh. by destruct xs.
  - constructor; cbn [ll_head ll_tail ll_size].
    + apply seg_app. split; [|split; [|done]].
      * apply seg_alter; [done |]. by eapply seg_relast.
      * exists (n_ptr nd). unfold st3. by rewrite lookup_alter_eq, Hnew2.
    + apply NoDup_cons. split; [set_solver |]. apply NoDup_app. split; [done |].
      split; [set_solver | apply NoDup_singleton].
    + by rewrite first_app.
    + by rewrite final_snoc.
    + rewrite Hz, u32_small, length_app by lia. simpl. lia.
    + rewrite length_app. simpl. lia.
  - apply relinked_trans with st1; [apply relinked_alter_next; by left |].
    apply relinked_trans with st2; [apply relinked_relast; set_solver |].
    apply relinked_alter_prev. by left.
Qed.

(** Two lists over disjoint nodes become one. *)
Lemma linked_list_concate_spec st D S xs ys :
  is_list st D xs -> is_list st S ys -> (forall y, y ∈ xs -> y ∉ ys) ->
  Z.of_nat (length (xs ++ ys)) < 4294967296 ->
  exists st' D', linked_list_concate st D S = Ok (st', D', linked_list_init) /\
    is_list st' D' (xs ++ ys) /\ relinked st st' (xs ++ ys).
Proof.
  intros HD HS Hdis Hlen. unfold linked_list_concate.
  rewrite (is_list_size _ _ _ HD), (is_list_size _ _ _ HS).
  case_bool_decide as Hy.
  { subst ys. exists st, D. rewrite app_nil_r. destruct HS as [_ _ Hh Ht Hz _], S as [h t z].
    cbn in Hh, Ht, Hz. by subst. }
  case_bool_decide as Hx.
  { subst xs. eexists st, _. cbn. split_and!; [done | by destruct HS | done]. }
  destruct HD as [Hs1 Hnd1 Hh1 Ht1 Hz1 Hl1], HS as [Hs2 Hnd2 Hh2 Ht2 Hz2 Hl2].
  apply NoDup_cons in Hnd1 as [H01 Hnd1], Hnd2 as [H02 Hnd2].
  rewrite Ht1, Hh2, (set_next_relast _ _ _ _ _ Hs1) by done. cbn [mbind outcome_bind].
  set (st1 := relast st xs (first ys 0)).
  assert (seg st1 0 ys 0) as Hs2' by (apply seg_relast_other; set_solver).
  rewrite (set_prev_refirst _ _ _ _ _ Hs2') by done. cbn [mbind outcome_bind].
  eexists _, _. split; [done |]. split.
  - constructor; cbn [ll_head ll_tail ll_size].
    + apply seg_app. split; [|by eapply seg_refirst].
      apply seg_refirst_other; [set_solver |]. by eapply seg_relast.
    + apply NoDup_cons. split; [set_solver |]. by apply NoDup_app.
    + rewrite first_app, Hh1. by destruct xs.
    + rewrite final_app, Ht2. by destruct ys as [|? ? _] using rev_ind; rewrite ?final_snoc.
    + rewrite length_app in *. rewrite Hz1, Hz2, u32_small by lia. lia.
    + done.
  - apply relinked_trans with st1; [apply relinked_relast | apply relinked_refirst]; set_solver.
Qed.

(** The search of [linked_list_remove_ele]: the first node with that element. *)
Lemma find_ele_spec fuel st p xs ptr :
  seg st p xs 0 -> 0 ∉ xs -> (length xs < fuel)%nat ->
  find_ele fuel st (first xs 0) ptr =
    Ok (match list_find (ptr =.) (values st xs) with
        | Some (i, _) => default 0 (xs !! i)
        | None => 0
        end).
Proof.
  revert p xs. induction fuel as [|fuel IH]; intros p xs Hs H0 Hf; [lia |].
  cbn [find_ele]. destruct xs as [|x xs]; [done |].
  destruct Hs as [[v Hv] Hs]. change (first (x :: xs) 0) with x.
  assert (x <> 0) by set_solver. rewrite (proj2 (Z.eqb_neq x 0)) by done.
  rewrite Hv. cbn [negb deref mbind outcome_bind n_ptr n_next].
  cbn [values fmap list_fmap list_find]. rewrite Hv. cbn [fmap option_fmap option_map default from_option id n_ptr].
  destruct (Z.eqb_spec v ptr) as [->|Hne].
  - by rewrite decide_True.
  - rewrite decide_False by (intros ->; done). rewrite (IH x); [|done | set_solver | simpl in Hf; lia].
    fold (values st xs). by destruct (list_find _ (values st xs)) as [[i ?]|].
Qed.

Lemma length_values st xs : length (values st xs) = length xs.
Proof. apply length_fmap. Qed.

Lemma linked_list_remove_ele_spec st L xs ptr :
  is_list st L xs ->
  exists st' L' ys, linked_list_remove_ele st L ptr = Ok (st', L') /\ is_list st' L' ys /\
    relinked st st' xs /\
    values st' ys = match list_find (ptr =.) (values st xs) with
                    | Some (i, _) => delete i (values st xs)
                    | None => values st xs
                    end.
Proof.
  intros HL. pose proof HL as [Hs Hnd Hh Ht Hz Hlen]. apply NoDup_cons in Hnd as [H0 Hnd].
  unfold linked_list_remove_ele. rewrite Hh, (find_ele_spec _ _ 0 xs) by (done || lia).
  cbn [mbind outcome_bind].
  destruct (list_find (ptr =.) (values st xs)) as [[i e]|] eqn:Hf.
  2: { by exists st, L, xs. }
  apply list_find_Some in Hf as (Hi & <- & _). pose proof (lookup_lt_Some _ _ _ Hi) as Hlt.
  rewrite length_values in Hlt. destruct (lookup_lt_is_Some_2 xs i Hlt) as [x Hx]. rewrite Hx.
  cbn [default from_option id]. pose proof (list_elem_of_lookup_2 _ _ _ Hx).
  rewrite (proj2 (Z.eqb_neq x 0)) by set_solver.
  rewrite <- (take_drop_middle xs i x Hx) in HL.
  destruct (linked_list_remove_spec _ _ _ _ _ HL) as (st' & L' & -> & HL' & Hrel & _).
  exists st', L', (take i xs ++ drop (S i) xs). split_and!; [done | done | |].
  - eapply relinked_mono; [done |]. rewrite <- delete_take_drop. intros y Hy.
    eapply elem_of_sublist; [done | apply sublist_delete].
  - rewrite <- delete_take_drop. rewrite (relinked_values _ _ _ _ Hrel). unfold values.
    by rewrite list_fmap_delete.
Qed.

(** A new node for an element at the end of the list. *)
Lemma linked_list_append_ele_spec {A} `{Allocator A} a L (st : nodes) l xs ptr :
  alive a L -> Z.of_nat (size L) < capacity -> NODE_SIZE < request_limit ->
  is_list st l xs -> (forall x, x ∈ xs -> is_Some (L !! x)) ->
  Z.of_nat (length xs) < 4294967295 ->
  linked_list_append_ele a st l ptr = Panic \/
  exists a' st' l' p k, linked_list_append_ele a st l ptr = Ok (a', st', l') /\
    L !! p = None /\ alive a' (<[p := k]> L) /\ is_list st' l' (xs ++ [p]) /\
    n_ptr <$> st' !! p = Some ptr /\
    (forall x, x <> p -> n_ptr <$> st' !! x = n_ptr <$> st !! x) /\
    (forall x, x ∉ p :: xs -> st' !! x = st !! x).
Proof.
  intros Ha Hc Hr Hl Hlive Hlen. unfold linked_list_append_ele.
  destruct (malloc_law a L NODE_SIZE Ha Hc) as [->|(a' & p & k & -> & Hp & _ & Ha')];
    [unfold NODE_SIZE in *; lia | by left | right].
  cbn [mbind outcome_bind]. set (st1 := <[p := Node ptr 0 0]> st).
  assert (p ∉ xs) as Hpx by (intros Hx; destruct (Hlive p Hx); congruence).
  assert (is_list st1 l xs) as Hl1.
  { destruct Hl. constructor; try done. eapply seg_frame; [|done].
    intros x Hx. unfold st1. rewrite lookup_insert_ne; [done | by intros ->]. }
  destruct (linked_list_append_spec st1 l xs p Hl1) as (st' & l' & -> & Hl' & [Hr1 Hr2]).
  - pose proof (alive_pos a' _ p k Ha' (lookup_insert_eq _ _ _)). lia.
  - done.
  - unfold st1. rewrite lookup_insert_eq. by eexists.
  - done.
  - exists a', st', l', p, k. split_and!; try done.
    + rewrite Hr1. unfold st1. by rewrite lookup_insert_eq.
    + intros x Hx. rewrite Hr1. unfold st1. by rewrite lookup_insert_ne.
    + intros x Hx. rewrite Hr2 by done. unfold st1. rewrite lookup_insert_ne; [done | set_solver].
Qed.

(** ** The theorems *)

(** [linked_list_insert] puts the new node right behind the given one
    (first when that is null) and keeps every element, order and link; a
    [linked_list_remove] of it then restores the list. *)
Theorem linked_list_insert_remove st L l r new :
  is_list st L (l ++ r) -> new <> 0 -> new ∉ l ++ r -> is_Some (st !! new) ->
  Z.of_nat (length (l ++ r)) < 4294967295 ->
  exists st1 L1 st2 L2,
    linked_list_insert st L (final l 0) new = Ok (st1, L1) /\ is_list st1 L1 (l ++ new :: r) /\
    values st1 (l ++ new :: r) = values st l ++ default 0 (n_ptr <$> st !! new) :: values st r /\
    linked_list_remove st1 L1 new = Ok (st2, L2) /\ is_list st2 L2 (l ++ r) /\
    values st2 (l ++ r) = values st (l ++ r).
Proof.
  intros HL Hn0 Hni Hnew Hlen.
  destruct (linked_list_insert_spec st L l r new HL Hn0 Hni Hnew Hlen)
    as (st1 & L1 & He1 & HL1 & Hr1).
  destruct (linked_list_remove_spec _ _ _ _ _ HL1) as (st2 & L2 & He2 & HL2 & Hr2 & _).
  exists st1, L1, st2, L2. split_and!; try done.
  - rewrite (relinked_values _ _ _ _ Hr1). unfold values. by rewrite fmap_app, fmap_cons.
  - by rewrite (relinked_values _ _ _ _ Hr2), (relinked_values _ _ _ _ Hr1).
Qed.

(** [linked_list_concate] appends the nodes of the second list to the
    first, in order, and empties the second. *)
Theorem linked_list_concate_correct st D S xs ys :
  is_list st D xs -> is_list st S ys -> (forall y, y ∈ xs -> y ∉ ys) ->
  Z.of_nat (length (xs ++ ys)) < 4294967296 ->
  exists st' D', linked_list_concate st D S = Ok (st', D', linked_list_init) /\
    is_list st' D' (xs ++ ys) /\ values st' (xs ++ ys) = values st xs ++ values st ys.
Proof.
  intros HD HS Hd Hl. destruct (linked_list_concate_spec st D S xs ys HD HS Hd Hl)
    as (st' & D' & He & HD' & Hr).
  exists st', D'. split_and!; try done. rewrite (relinked_values _ _ _ _ Hr). apply fmap_app.
Qed.

(** [linked_list_remove_ele] takes the first node with the element off the
    list, and only that one; without such a node nothing changes. *)
Theorem linked_list_remove_ele_correct st L xs ptr :
  is_list st L xs ->
  exists st' L' ys, linked_list_remove_ele st L ptr = Ok (st', L') /\ is_list st' L' ys /\
    values st' ys = match list_find (ptr =.) (values st xs) with
                    | Some (i, _) => delete i (values st xs)
                    | None => values st xs
                    end.
Proof.
  intros HL. destruct (linked_list_remove_ele_spec st L xs ptr HL) as (st' & L' & ys & ? & ? & _ & ?).
  by exists st', L', ys.
Qed.

(** [linked_list_insert_to_head] does not insert at the head of a list
    that has nodes: the new node comes second. *)
Theorem linked_list_insert_to_head_second st L x xs new :
  is_list st L (x :: xs) -> new <> 0 -> new ∉ x :: xs -> is_Some (st !! new) ->
  Z.of_nat (length (x :: xs)) < 4294967295 ->
  exists st' L', linked_list_insert_to_head st L new = Ok (st', L') /\ is_list st' L' (x :: new :: xs).
Proof.
  intros HL Hn0 Hni Hnew Hlen. unfold linked_list_insert_to_head. rewrite (il_head _ _ _ HL).
  destruct (linked_list_insert_spec st L [x] xs new HL Hn0 Hni Hnew Hlen) as (st' & L' & He & HL' & _).
  by exists st', L'.
Qed.

(** A list of two nodes and a node of its own. *)
Definition two_nodes : nodes := {[ 100 := Node 1 0 200; 200 := Node 2 100 0; 300 := Node 3 0 0 ]}.

Lemma two_nodes_list : is_list two_nodes (LList 100 200 2) [100; 200].
Proof.
  constructor; [|by apply (bool_decide_unpack _); vm_compute | done..].
  split; [by exists 1 |]. split; [by exists 2 | done].
Qed.

Lemma linked_list_insert_remove_witness :
  exists st1 L1 st2 L2,
    linked_list_insert two_nodes (LList 100 200 2) 100 300 = Ok (st1, L1) /\
    values st1 [100; 300; 200] = [1; 3; 2] /\
    linked_list_remove st1 L1 300 = Ok (st2, L2) /\ values st2 [100; 200] = [1; 2].
Proof.
  destruct (linked_list_insert_remove two_nodes (LList 100 200 2) [100] [200] 300 two_nodes_list)
    as (st1 & L1 & st2 & L2 & He1 & _ & Hv1 & He2 & _ & Hv2).
  - discriminate.
  - apply (bool_decide_unpack _). vm_compute. exact I.
  - by exists (Node 3 0 0).
  - reflexivity.
  - exists st1, L1, st2, L2. exact (conj He1 (conj Hv1 (conj He2 Hv2))).
Defined.

Lemma linked_list_concate_correct_witness :
  exists st' D', linked_list_concate two_nodes (LList 100 200 2) (LList 300 300 1)
      = Ok (st', D', linked_list_init) /\ values st' [100; 200; 300] = [1; 2; 3].
Proof.
  destruct (linked_list_concate_correct two_nodes (LList 100 200 2) (LList 300 300 1)
    [100; 200] [300] two_nodes_list) as (st' & D' & He & _ & Hv).
  - constructor; [|by apply (bool_decide_unpack _); vm_compute | done..]. split; [by exists 3 | done].
  - intros y Hy ->%list_elem_of_singleton. revert Hy. apply (bool_decide_unpack _). vm_compute. exact I.
  - reflexivity.
  - exists st', D'. exact (conj He Hv).
Defined.

Lemma linked_list_remove_ele_correct_witness :
  exists st' L' ys, linked_list_remove_ele two_nodes (LList 100 200 2) 1 = Ok (st', L') /\
    values st' ys = [2].
Proof.
  destruct (linked_list_remove_ele_correct two_nodes _ _ 1 two_nodes_list)
    as (st' & L' & ys & He & _ & Hv).
  exists st', L', ys. exact (conj He Hv).
Defined.

Lemma linked_list_insert_to_head_second_witness :
  exists st' L', linked_list_insert_to_head two_nodes (LList 100 200 2) 300 = Ok (st', L') /\
    is_list st' L' [100; 300; 200].
Proof.
  apply (linked_list_insert_to_head_second two_nodes _ 100 [200] 300 two_nodes_list).
  - discriminate.
  - apply (bool_decide_unpack _). vm_compute. exact I.
  - by exists (Node 3 0 0).
  - reflexivity.
Defined.
