(* ===== verification/Bitmap.v ===== *)
(** * Bitmaps (utils/bitmap.c)

    A bitmap is an array of 32-bit words in a store of word arrays; an index
    out of the array is a fault. *)

From S2P Require Import Prelude.
From S2P Require Import Allocator.

Abbreviation words := (gmap Z (list Z)).

Record bitmap_t := {
  bm_array : Z;
  bm_alloc_array : bool;
  bm_array_size : Z;
  bm_total_bits : Z
}.

(** [array[i]] and [array[i] = v]; a C array index is unsigned here. *)
Definition word_get (st : words) (array i : Z) : outcome Z :=
  ws ← deref (st !! array);
  deref (if 0 <=? i then ws !! Z.to_nat i else None).

Definition word_set (st : words) (array i v : Z) : outcome words :=
  ws ← deref (st !! array);
  if (0 <=? i) && (i <? Z.of_nat (length ws)) then Ok (<[array := <[Z.to_nat i := v]> ws]> st)
  else Fault.

Definition INDEX_FROM_BIT (a : Z) : Z := a / 32.
Definition OFFSET_FROM_BIT (a : Z) : Z := a mod 32.

Section bitmap.
Context {A : Type} `{Allocator A}.
(** What a fresh block holds before it is written. *)
Context (junk : Z).

(** [(uint32* )kmalloc(n * 4)] *)
Definition malloc_words (a : A) (st : words) (n : Z) : outcome (A * words * Z) :=
  '(a, p) ← a_malloc a (u32 (n * 4));
  Ok (a, <[p := replicate (Z.to_nat n) junk]> st, p).

(** [kfree(array)] *)
Definition free_words (a : A) (st : words) (array : Z) : outcome (A * words) :=
  a ← a_free a array; Ok (a, delete array st).

(** [for (i = 0; i < n; i++) array[i] = 0;] *)
Definition zero_words (st : words) (array n : Z) : outcome words :=
  for_up (Z.to_nat n) 0 (fun i st => word_set st array i 0) st.

Definition bitmap_init (a : A) (st : words) (array total_bits : Z) :
    outcome (A * words * bitmap_t) :=
  let array_size := Z.quot total_bits 32 in
  '(a, st, array, alloc) ←
    (if array =? 0 then
       '(a, st, p) ← malloc_words a st array_size; Ok (a, st, p, true)
     else Ok (a, st, array, false));
  st ← zero_words st array array_size;
  Ok (a, st, {| bm_array := array; bm_alloc_array := alloc; bm_array_size := array_size;
                bm_total_bits := total_bits |}).

Definition bitmap_create (a : A) (st : words) (array total_bits : Z) :
    outcome (A * words * bitmap_t) := bitmap_init a st array total_bits.

Definition bitmap_set_bit (st : words) (this : bitmap_t) (bit : Z) : outcome words :=
  let idx := INDEX_FROM_BIT bit in
  let off := OFFSET_FROM_BIT bit in
  w ← word_get st (bm_array this) idx;
  word_set st (bm_array this) idx (Z.lor w (Z.shiftl 1 off)).

Definition bitmap_clear_bit (st : words) (this : bitmap_t) (bit : Z) : outcome words :=
  let idx := INDEX_FROM_BIT bit in
  let off := OFFSET_FROM_BIT bit in
  w ← word_get st (bm_array this) idx;
  word_set st (bm_array this) idx (Z.land w (u32 (Z.lnot (Z.shiftl 1 off)))).

Definition bitmap_test_bit (st : words) (this : bitmap_t) (bit : Z) : outcome bool :=
  let idx := INDEX_FROM_BIT bit in
  let off := OFFSET_FROM_BIT bit in
  w ← word_get st (bm_array this) idx;
  Ok (negb (Z.land w (Z.shiftl 1 off) =? 0)).

(** The inner loop: the first clear bit of a word, from [j]. *)
Fixpoint find_clear (n : nat) (ele j : Z) : option Z :=
  match n with
  | O => None
  | S n => if Z.land ele (Z.shiftl 1 j) =? 0 then Some j else find_clear n ele (j + 1)
  end.

Fixpoint find_word (n : nat) (st : words) (array i : Z) : outcome (option Z) :=
  match n with
  | O => Ok None
  | S n =>
      ele ← word_get st array i;
      if negb (ele =? 0xFFFFFFFF) then
        match find_clear 32 ele 0 with
        | Some j => Ok (Some (u32 (i * 32 + j)))
        | None => find_word n st array (i + 1)
        end
      else find_word n st array (i + 1)
  end.

(** [Some bit] for the result [true] and [*bit], [None] for [false]. *)
Definition bitmap_find_first_free (st : words) (this : bitmap_t) : outcome (option Z) :=
  find_word (Z.to_nat (bm_array_size this)) st (bm_array this) 0.

Definition bitmap_allocate_first_free (st : words) (this : bitmap_t) :
    outcome (words * option Z) :=
  r ← bitmap_find_first_free st this;
  match r with
  | None => Ok (st, None)
  | Some bit => st ← bitmap_set_bit st this bit; Ok (st, Some bit)
  end.

Definition bitmap_clear (st : words) (this : bitmap_t) : outcome words :=
  zero_words st (bm_array this) (bm_array_size this).

(** [for (i = 0; i < this->array_size; i++) array[i] = this->array[i];] *)
Definition copy_words (st : words) (dst src n : Z) : outcome words :=
  for_up (Z.to_nat n) 0 (fun i st => w ← word_get st src i; word_set st dst i w) st.

Definition bitmap_expand (a : A) (st : words) (this : bitmap_t) (expand_size : Z) :
    outcome (A * words * bitmap_t) :=
  let new_size := expand_size in
  let new_array_size := new_size / 32 in
  '(a, st, array) ← malloc_words a st new_array_size;
  st ← zero_words st array new_array_size;
  st ← copy_words st array (bm_array this) (bm_array_size this);
  '(a, st) ← (if bm_alloc_array this then free_words a st (bm_array this) else Ok (a, st));
  Ok (a, st, {| bm_array := array; bm_alloc_array := true; bm_array_size := new_array_size;
                bm_total_bits := new_size |}).

Definition bitmap_destroy (a : A) (st : words) (this : bitmap_t) : outcome (A * words) :=
  if bm_alloc_array this then free_words a st (bm_array this) else Ok (a, st).
End bitmap.

(** ** Representation *)

(** Bit [b] of an array of words. *)
Definition bit_of (ws : list Z) (b : Z) : bool := Z.testbit (default 0 (ws !! Z.to_nat (b / 32))) (b mod 32).

Record bm_wf (st : words) (this : bitmap_t) (ws : list Z) : Prop := {
  bw_words : st !! bm_array this = Some ws;
  bw_size : bm_array_size this = Z.of_nat (length ws);
  bw_bits : bm_total_bits this = 32 * Z.of_nat (length ws);
  bw_range : Forall is_u32 ws;
  bw_len : bm_total_bits this < 2147483648
}.

(** The numbers of the bits of a bitmap. *)
Definition in_bits (ws : list Z) (b : Z) : Prop := 0 <= b < 32 * Z.of_nat (length ws).

Lemma word_lookup (ws : list Z) b : in_bits ws b -> is_Some (ws !! Z.to_nat (b / 32)).
Proof. intros Hb. apply lookup_lt_is_Some_2. unfold in_bits in Hb. lia. Qed.

Lemma word_get_ok st array ws i w :
  st !! array = Some ws -> 0 <= i -> ws !! Z.to_nat i = Some w -> word_get st array i = Ok w.
Proof. intros Hs Hi Hw. unfold word_get. rewrite Hs. simpl. by rewrite (proj2 (Z.leb_le 0 i)), Hw. Qed.

Lemma word_set_ok st array ws i v :
  st !! array = Some ws -> 0 <= i < Z.of_nat (length ws) ->
  word_set st array i v = Ok (<[array := <[Z.to_nat i := v]> ws]> st).
Proof.
  intros Hs Hi. unfold word_set. rewrite Hs. simpl.
  by rewrite (proj2 (Z.leb_le 0 i)), (proj2 (Z.ltb_lt i _)) by lia.
Qed.

(** Writing a word changes the bits of that word. *)
Lemma bit_of_insert ws i v b :
  0 <= i < Z.of_nat (length ws) -> 0 <= b ->
  bit_of (<[Z.to_nat i := v]> ws) b = if decide (b / 32 = i) then Z.testbit v (b mod 32) else bit_of ws b.
Proof.
  intros Hi Hb. unfold bit_of. case_decide as Hbi.
  - subst i. by rewrite list_lookup_insert_eq by lia.
  - rewrite list_lookup_insert_ne by lia. done.
Qed.

Lemma Forall_insert_u32 ws i v : Forall is_u32 ws -> is_u32 v -> Forall is_u32 (<[i := v]> ws).
Proof. intros. by apply Forall_insert. Qed.

Lemma is_u32_bits z : 0 <= z -> (forall j, 32 <= j -> Z.testbit z j = false) -> is_u32 z.
Proof.
  intros Hz Hj. unfold is_u32. split; [done |].
  assert (z = z mod 2 ^ 32) as ->; [|apply Z.mod_pos_bound; lia].
  apply Z.bits_inj'. intros j _. destruct (Z.ltb_spec j 32).
  - destruct (decide (0 <= j)); [by rewrite Z.mod_pow2_bits_low | by rewrite !Z.testbit_neg_r by lia].
  - by rewrite Z.mod_pow2_bits_high, Hj by lia.
Qed.

Lemma u32_testbit_high z j : is_u32 z -> 32 <= j -> Z.testbit z j = false.
Proof.
  intros Hz Hj. rewrite <- (u32_small z) by done. rewrite u32_testbit.
  by rewrite (proj2 (Z.ltb_ge j 32)) by lia.
Qed.

Lemma lor_bit_u32 w off : is_u32 w -> 0 <= off < 32 -> is_u32 (Z.lor w (Z.shiftl 1 off)).
Proof.
  intros Hw Ho. apply is_u32_bits.
  - apply Z.lor_nonneg. split; [apply Hw | apply Z.shiftl_nonneg; lia].
  - intros j Hj. rewrite Z.lor_spec, u32_testbit_high, testbit_one_shift by (done || lia).
    by rewrite bool_decide_false by lia.
Qed.

Lemma land_u32 w v : is_u32 w -> is_u32 (Z.land w v).
Proof.
  intros Hw. apply is_u32_bits; [apply Z.land_nonneg; left; apply Hw |].
  intros j Hj. by rewrite Z.land_spec, u32_testbit_high.
Qed.

(** ** The operations on bits *)

(** The bitmap after the bits [f] were written: the same array, new words. *)
Definition bits_are (st : words) (this : bitmap_t) (ws : list Z) (st' : words) (ws' : list Z)
    (f : Z -> bool) : Prop :=
  st' = <[bm_array this := ws']> st /\ bm_wf st' this ws' /\ length ws' = length ws /\
  forall c, in_bits ws c -> bit_of ws' c = f c.

(** The common part of setting and clearing: word [b / 32] becomes [v]. *)
Lemma write_bit_spec st this ws b w v f :
  bm_wf st this ws -> in_bits ws b -> ws !! Z.to_nat (b / 32) = Some w -> is_u32 v ->
  (forall c, in_bits ws c -> c / 32 = b / 32 -> Z.testbit v (c mod 32) = f c) ->
  (forall c, in_bits ws c -> c / 32 <> b / 32 -> bit_of ws c = f c) ->
  exists st' ws', word_get st (bm_array this) (b / 32) = Ok w /\
    word_set st (bm_array this) (b / 32) v = Ok st' /\ bits_are st this ws st' ws' f.
Proof.
  intros [Hw Hsz Hbits Hr Hlen] Hb Hl Hv Hsame Hother. unfold in_bits in *.
  exists (<[bm_array this := <[Z.to_nat (b / 32) := v]> ws]> st), (<[Z.to_nat (b / 32) := v]> ws).
  unfold bits_are. split_and!.
  - eapply word_get_ok; [done | lia | done].
  - apply word_set_ok; [done | lia].
  - done.
  - constructor; rewrite ?length_insert; try done.
    + by rewrite lookup_insert_eq.
    + by apply Forall_insert_u32.
  - apply length_insert.
  - intros c Hc. unfold in_bits in Hc. rewrite bit_of_insert by lia. case_decide; [by apply Hsame | by apply Hother].
Qed.

Lemma bit_word ws c w b :
  ws !! Z.to_nat (b / 32) = Some w -> c / 32 = b / 32 -> bit_of ws c = Z.testbit w (c mod 32).
Proof. intros Hl Hc. unfold bit_of. by rewrite Hc, Hl. Qed.

Lemma same_word_bit b c : c / 32 = b / 32 -> bool_decide (c mod 32 = b mod 32) = bool_decide (c = b).
Proof. intros H. apply bool_decide_ext. lia. Qed.

Lemma other_word_bit b c : c / 32 <> b / 32 -> bool_decide (c = b) = false.
Proof. intros H. apply bool_decide_eq_false. by intros ->. Qed.

Lemma in_words ws b w : Forall is_u32 ws -> ws !! Z.to_nat (b / 32) = Some w -> is_u32 w.
Proof. intros Hr Hl. by eapply Forall_lookup_1. Qed.

Lemma bitmap_set_bit_spec st this ws b :
  bm_wf st this ws -> in_bits ws b ->
  exists st' ws', bitmap_set_bit st this b = Ok st' /\
    bits_are st this ws st' ws' (fun c => bool_decide (c = b) || bit_of ws c).
Proof.
  intros Hwf Hb. destruct (word_lookup ws b Hb) as [w Hl].
  pose proof (in_words _ _ _ (bw_range _ _ _ Hwf) Hl) as Hw.
  destruct (write_bit_spec st this ws b w (Z.lor w (Z.shiftl 1 (b mod 32)))
              (fun c => bool_decide (c = b) || bit_of ws c)) as (st' & ws' & Hg & Hs & Hare);
    [done | done | done | apply lor_bit_u32; [done | lia] | | |].
  - intros c Hc Hcb. rewrite Z.lor_spec, testbit_one_shift, (bit_word _ _ _ _ Hl Hcb) by lia.
    rewrite same_word_bit by done. apply orb_comm.
  - intros c Hc Hcb. by rewrite other_word_bit.
  - exists st', ws'. split; [|done]. unfold bitmap_set_bit, INDEX_FROM_BIT, OFFSET_FROM_BIT.
    by rewrite Hg.
Qed.

Lemma bitmap_clear_bit_spec st this ws b :
  bm_wf st this ws -> in_bits ws b ->
  exists st' ws', bitmap_clear_bit st this b = Ok st' /\
    bits_are st this ws st' ws' (fun c => negb (bool_decide (c = b)) && bit_of ws c).
Proof.
  intros Hwf Hb. destruct (word_lookup ws b Hb) as [w Hl].
  pose proof (in_words _ _ _ (bw_range _ _ _ Hwf) Hl) as Hw.
  destruct (write_bit_spec st this ws b w (Z.land w (u32 (Z.lnot (Z.shiftl 1 (b mod 32)))))
              (fun c => negb (bool_decide (c = b)) && bit_of ws c)) as (st' & ws' & Hg & Hs & Hare);
    [done | done | done | by apply land_u32 | | |].
  - intros c Hc Hcb. rewrite Z.land_spec, u32_testbit, Z.lnot_spec, testbit_one_shift,
      (bit_word _ _ _ _ Hl Hcb), same_word_bit by (done || lia).
    rewrite (proj2 (Z.ltb_lt _ 32)) by lia. apply andb_comm.
  - intros c Hc Hcb. by rewrite other_word_bit.
  - exists st', ws'. split; [|done]. unfold bitmap_clear_bit, INDEX_FROM_BIT, OFFSET_FROM_BIT.
    by rewrite Hg.
Qed.

Lemma bitmap_test_bit_spec st this ws b :
  bm_wf st this ws -> in_bits ws b -> bitmap_test_bit st this b = Ok (bit_of ws b).
Proof.
  intros Hwf Hb. destruct (word_lookup ws b Hb) as [w Hl]. unfold bitmap_test_bit.
  unfold INDEX_FROM_BIT, OFFSET_FROM_BIT, in_bits in *.
  rewrite (word_get_ok _ _ _ _ w (bw_words _ _ _ Hwf)) by (done || lia).
  cbn [mbind outcome_bind]. rewrite land_pow2_eqb, negb_involutive, (bit_word _ _ _ b Hl) by lia. done.
Qed.

(** ** The search *)

Lemma find_clear_spec n ele j :
  0 <= j ->
  match find_clear n ele j with
  | Some k => j <= k < j + Z.of_nat n /\ Z.testbit ele k = false /\
              forall i, j <= i < k -> Z.testbit ele i = true
  | None => forall i, j <= i < j + Z.of_nat n -> Z.testbit ele i = true
  end.
Proof.
  revert j. induction n as [|n IH]; intros j Hj; cbn [find_clear]; [intros; lia |].
  rewrite land_pow2_eqb by done. destruct (Z.testbit ele j) eqn:Hb; cbn [negb].
  - specialize (IH (j + 1) ltac:(lia)).
    assert (forall i, j <= i -> i < j + 1 -> Z.testbit ele i = true) as H1
      by (intros; by replace i with j by lia).
    destruct (find_clear n ele (j + 1)) as [k|].
    + destruct IH as (? & ? & Hlt). split; [lia |]. split; [done |]. intros i Hi.
      destruct (decide (i < j + 1)); [apply H1; lia | apply Hlt; lia].
    + intros i Hi. destruct (decide (i < j + 1)); [apply H1; lia | apply IH; lia].
  - split; [lia |]. split; [done |]. intros; lia.
Qed.

(** A word other than all ones has a clear bit, which the inner loop finds. *)
Lemma find_clear_word ele :
  is_u32 ele -> ele <> 0xFFFFFFFF ->
  exists k, find_clear 32 ele 0 = Some k /\ 0 <= k < 32 /\ Z.testbit ele k = false /\
    forall i, 0 <= i < k -> Z.testbit ele i = true.
Proof.
  intros He Hne. pose proof (find_clear_spec 32 ele 0 ltac:(lia)) as Hf.
  destruct (find_clear 32 ele 0) as [k|].
  - exists k. destruct Hf as (? & ? & ?). split_and!; [done | lia | lia | done | done].
  - destruct (u32_allones_testbit ele He Hne) as (j & Hj & Hb). rewrite Hf in Hb by lia. done.
Qed.

(** The least clear bit from bit [b0] on, if there is one. *)
Definition least_clear (ws : list Z) (b0 : Z) (r : option Z) : Prop :=
  match r with
  | Some b => in_bits ws b /\ b0 <= b /\ bit_of ws b = false /\
              forall c, b0 <= c < b -> bit_of ws c = true
  | None => forall c, b0 <= c -> in_bits ws c -> bit_of ws c = true
  end.

Lemma find_word_spec n st array ws i :
  st !! array = Some ws -> Forall is_u32 ws -> 0 <= i -> i + Z.of_nat n = Z.of_nat (length ws) ->
  32 * Z.of_nat (length ws) < 2147483648 ->
  exists r, find_word n st array i = Ok r /\ least_clear ws (32 * i) r.
Proof.
  revert i. induction n as [|n IH]; intros i Hst Hr Hi Hn Hlen; cbn [find_word].
  { exists None. split; [done |]. intros c Hc Hin. unfold in_bits in Hin. lia. }
  destruct (lookup_lt_is_Some_2 ws (Z.to_nat i)) as [w Hw]; [lia |].
  rewrite (word_get_ok _ _ _ _ _ Hst Hi Hw). cbn [mbind outcome_bind].
  pose proof (Forall_lookup_1 _ _ _ _ Hr Hw) as Hwr.
  assert (forall c, 32 * i <= c < 32 * i + 32 -> bit_of ws c = Z.testbit w (c - 32 * i)) as Hbit.
  { intros c Hc. unfold bit_of. replace (c / 32) with i by lia. rewrite Hw.
    cbn. f_equal. lia. }
  destruct (Z.eqb_spec w 0xFFFFFFFF) as [Hall|Hne]; cbn [negb].
  - destruct (IH (i + 1)) as (r & -> & Hl); [done | done | lia | lia | done |].
    exists r. split; [done |].
    assert (forall c, 32 * i <= c < 32 * (i + 1) -> bit_of ws c = true) as Hones.
    { intros c Hc. rewrite Hbit, Hall by lia. change 0xFFFFFFFF with (Z.ones 32).
      apply Z.ones_spec_low. lia. }
    destruct r as [b|]; simpl in *.
    + destruct Hl as (? & ? & ? & Hlt). split_and!; [done | lia | done |]. intros c Hc.
      destruct (decide (c < 32 * (i + 1))); [apply Hones; lia | apply Hlt; lia].
    + intros c Hc Hin. destruct (decide (c < 32 * (i + 1))); [apply Hones; lia | apply Hl; [lia | done]].
  - destruct (find_clear_word w Hwr Hne) as (k & -> & Hk & Hb & Hlt).
    exists (Some (u32 (i * 32 + k))). split; [done |]. rewrite u32_small by lia.
    unfold least_clear, in_bits. split_and!; [lia | lia | lia | |].
    + rewrite Hbit by lia. by replace (i * 32 + k - 32 * i) with k by lia.
    + intros c Hc. rewrite Hbit by lia. apply Hlt. lia.
Qed.

Lemma bitmap_find_first_free_spec st this ws :
  bm_wf st this ws -> exists r, bitmap_find_first_free st this = Ok r /\ least_clear ws 0 r.
Proof.
  intros []. unfold bitmap_find_first_free. rewrite bw_size0.
  apply (find_word_spec _ st (bm_array this) ws 0); [done | done | lia | lia | lia].
Qed.

Lemma bitmap_allocate_first_free_spec st this ws :
  bm_wf st this ws ->
  (exists b st' ws', bitmap_allocate_first_free st this = Ok (st', Some b) /\
     least_clear ws 0 (Some b) /\
     bits_are st this ws st' ws' (fun c => bool_decide (c = b) || bit_of ws c)) \/
  (bitmap_allocate_first_free st this = Ok (st, None) /\ least_clear ws 0 None).
Proof.
  intros Hwf. unfold bitmap_allocate_first_free.
  destruct (bitmap_find_first_free_spec _ _ _ Hwf) as (r & -> & Hl). cbn [mbind outcome_bind].
  destruct r as [b|]; [left | by right].
  destruct (bitmap_set_bit_spec _ _ _ b Hwf) as (st' & ws' & Hs & Hare); [apply Hl |].
  exists b, st', ws'. by rewrite Hs.
Qed.

(** ** Whole arrays *)

Lemma take_S_insert {B} (l d : list B) i x :
  l !! i = Some x -> (i < length d)%nat -> (i <= length l)%nat ->
  <[i := x]> (take i l ++ drop i d) = take (S i) l ++ drop (S i) d.
Proof.
  intros Hl Hd _. pose proof (lookup_lt_Some _ _ _ Hl).
  destruct (lookup_lt_is_Some_2 d i Hd) as [y Hy]. rewrite (drop_S d y i Hy).
  rewrite insert_app_r_alt by (rewrite length_take; lia). rewrite length_take.
  replace (i - i `min` length l)%nat with 0%nat by lia. cbn [insert list_insert].
  rewrite (take_S_r l i x Hl), <- app_assoc. done.
Qed.

Lemma copy_words_spec st dst src d s n :
  st !! dst = Some d -> st !! src = Some s -> dst <> src -> 0 <= n ->
  n <= Z.of_nat (length s) -> n <= Z.of_nat (length d) ->
  copy_words st dst src n = Ok (<[dst := take (Z.to_nat n) s ++ drop (Z.to_nat n) d]> st).
Proof.
  intros Hd Hs Hne Hn Hls Hld. unfold copy_words.
  destruct (for_up_rule (fun i t => t = <[dst := take (Z.to_nat i) s ++ drop (Z.to_nat i) d]> st)
    (Z.to_nat n) 0 (fun i st => w ← word_get st src i; word_set st dst i w) st) as (st' & -> & ->).
  - cbn. by rewrite take_0, drop_0, insert_id.
  - intros j t Hj ->. destruct (lookup_lt_is_Some_2 s (Z.to_nat j)) as [w Hw]; [lia |].
    rewrite (word_get_ok _ _ s _ w) by (done || lia || by rewrite lookup_insert_ne).
    cbn [mbind outcome_bind]. rewrite (word_set_ok _ _ (take (Z.to_nat j) s ++ drop (Z.to_nat j) d));
      [|by rewrite lookup_insert_eq | rewrite length_app, length_take, length_drop; lia].
    eexists. split; [done |]. rewrite insert_insert_eq.
    replace (Z.to_nat (j + 1)) with (S (Z.to_nat j)) by lia. f_equal.
    apply take_S_insert; [done | lia | lia].
  - by replace (0 + Z.of_nat (Z.to_nat n)) with n by lia.
Qed.

Lemma zero_words_spec st array ws n :
  st !! array = Some ws -> n = Z.of_nat (length ws) ->
  zero_words st array n = Ok (<[array := replicate (length ws) 0]> st).
Proof.
  intros Hw ->. unfold zero_words. rewrite Nat2Z.id.
  destruct (for_up_rule (fun i t => t = <[array := take (Z.to_nat i) (replicate (length ws) 0)
                                            ++ drop (Z.to_nat i) ws]> st)
    (length ws) 0 (fun i st => word_set st array i 0) st) as (st' & -> & ->).
  - cbn. by rewrite take_0, drop_0, insert_id.
  - intros j t Hj ->.
    rewrite (word_set_ok _ _ (take (Z.to_nat j) (replicate (length ws) 0) ++ drop (Z.to_nat j) ws));
      [|by rewrite lookup_insert_eq | rewrite length_app, length_take, length_drop, length_replicate; lia].
    eexists. split; [done |]. rewrite insert_insert_eq.
    replace (Z.to_nat (j + 1)) with (S (Z.to_nat j)) by lia. f_equal.
    apply take_S_insert; [apply lookup_replicate_2; lia | lia | rewrite length_replicate; lia].
  - rewrite take_ge, drop_ge, app_nil_r by (rewrite ?length_replicate; lia). done.
Qed.

Lemma bit_of_zero n b : bit_of (replicate n 0) b = false.
Proof.
  unfold bit_of. destruct (replicate n 0 !! _) as [w|] eqn:Hl; [|apply Z.bits_0].
  apply lookup_replicate_1 in Hl as [-> _]. apply Z.bits_0.
Qed.

Lemma Forall_zero n : Forall is_u32 (replicate n 0).
Proof. apply Forall_replicate. unfold is_u32. lia. Qed.

Section ownership.
Context {A : Type} `{Allocator A} (junk : Z).

(** The bitmap owns its array: a live block of the allocator. *)
Record owns (a : A) (L : gmap Z Z) (this : bitmap_t) : Prop := {
  ow_alive : alive a L;
  ow_flag : bm_alloc_array this = true;
  ow_block : is_Some (L !! bm_array this)
}.

Lemma malloc_words_spec a L st n :
  alive a L -> Z.of_nat (size L) < capacity -> 0 < n -> n * 4 < request_limit -> n * 4 < 4294967296 ->
  malloc_words junk a st n = Panic \/
  exists a' p k, malloc_words junk a st n = Ok (a', <[p := replicate (Z.to_nat n) junk]> st, p) /\
    L !! p = None /\ 0 < p /\ alive a' (<[p := k]> L).
Proof.
  intros Ha Hc Hn Hl Hw. unfold malloc_words. rewrite u32_small by lia.
  destruct (malloc_law a L (n * 4) Ha Hc ltac:(lia)) as [->|(a' & p & k & -> & Hp & _ & Ha')];
    [by left | right].
  exists a', p, k. split_and!; try done.
  eapply alive_pos; [done | apply lookup_insert_eq].
Qed.

(** A bitmap made on null owns a fresh array of clear bits. *)
Lemma bitmap_init_spec a L st total_bits n :
  alive a L -> Z.of_nat (size L) < capacity -> total_bits = 32 * n -> 0 < n ->
  total_bits < 2147483648 -> n * 4 < request_limit ->
  bitmap_init junk a st 0 total_bits = Panic \/
  exists a' st' this k, bitmap_init junk a st 0 total_bits = Ok (a', st', this) /\
    bm_wf st' this (replicate (Z.to_nat n) 0) /\ L !! bm_array this = None /\
    bm_total_bits this = total_bits /\ owns a' (<[bm_array this := k]> L) this /\
    st' = <[bm_array this := replicate (Z.to_nat n) 0]> st.
Proof.
  intros Ha Hc -> Hn Hb Hr. unfold bitmap_init.
  replace (Z.quot (32 * n) 32) with n by (rewrite Z.mul_comm, Z.quot_mul; lia).
  rewrite Z.eqb_refl.
  destruct (malloc_words_spec a L st n) as [->|(a' & p & k & -> & Hp & Hp0 & Ha')];
    [done | done | done | done | lia | by left | right].
  cbn [mbind outcome_bind]. rewrite (zero_words_spec _ _ (replicate (Z.to_nat n) junk))
    by (rewrite ?lookup_insert_eq, ?length_replicate; done || lia).
  cbn [mbind outcome_bind]. rewrite length_replicate, insert_insert_eq.
  eexists a', _, _, k. split; [done |]. cbn [bm_array bm_total_bits]. split_and!; try done.
  - constructor; cbn [bm_array bm_array_size bm_total_bits]; rewrite ?length_replicate; try lia.
    + by rewrite lookup_insert_eq.
    + apply Forall_zero.
  - constructor; cbn [bm_array]; [done | done |]. by rewrite lookup_insert_eq.
Qed.

(** Expansion: the old bits and clear ones behind them, in a fresh array;
    the old one is freed. *)
Lemma bitmap_expand_spec a L st this ws new_size n :
  owns a L this -> bm_wf st this ws -> Z.of_nat (size L) < capacity ->
  new_size = 32 * n -> Z.of_nat (length ws) <= n -> 0 < n -> new_size < 2147483648 ->
  n * 4 < request_limit ->
  bitmap_expand junk a st this new_size = Panic \/
  exists a' st' this' k,
    let ws' := ws ++ replicate (Z.to_nat (n - Z.of_nat (length ws))) 0 in
    bitmap_expand junk a st this new_size = Ok (a', st', this') /\
    bm_wf st' this' ws' /\ bm_total_bits this' = new_size /\
    L !! bm_array this' = None /\
    owns a' (<[bm_array this' := k]> (delete (bm_array this) L)) this' /\
    st' = <[bm_array this' := ws']> (delete (bm_array this) st).
Proof.
  intros [Ha Hf [k0 Hk0]] [Hw Hsz Hbits Hr Hlen] Hc -> Hn Hn0 Hb Hreq. unfold bitmap_expand.
  replace (32 * n / 32) with n by lia.
  destruct (malloc_words_spec a L st n) as [->|(a1 & p & k & -> & Hp & Hp0 & Ha1)];
    [done | done | done | done | lia | by left |].
  assert (p <> bm_array this) as Hne by (intros ->; congruence).
  cbn [mbind outcome_bind]. rewrite (zero_words_spec _ _ (replicate (Z.to_nat n) junk))
    by (rewrite ?lookup_insert_eq, ?length_replicate; done || lia).
  cbn [mbind outcome_bind]. rewrite length_replicate, insert_insert_eq.
  rewrite (copy_words_spec _ _ _ (replicate (Z.to_nat n) 0) ws); try lia;
    [| by rewrite lookup_insert_eq | by rewrite lookup_insert_ne | rewrite length_replicate; lia].
  cbn [mbind outcome_bind]. rewrite Hf, insert_insert_eq.
  assert ((<[p := k]> L) !! bm_array this = Some k0) as Hk1 by by rewrite lookup_insert_ne.
  destruct (free_law a1 _ _ _ Ha1 Hk1) as (a2 & He2 & Ha2).
  unfold free_words. rewrite He2. cbn [mbind outcome_bind]. right.
  rewrite Hsz, Nat2Z.id, take_ge, drop_replicate, delete_insert_ne by (done || lia).
  rewrite delete_insert_ne in Ha2 by done.
  replace (Z.to_nat n - length ws)%nat with (Z.to_nat (n - Z.of_nat (length ws))) by lia.
  eexists a2, _, _, k. split; [done |]. cbn [bm_array bm_total_bits].
  set (ws' := ws ++ _).
  assert (Z.of_nat (length ws') = n) as Hlen' by (unfold ws'; rewrite length_app, length_replicate; lia).
  split_and!; try done.
  - constructor; cbn [bm_array bm_array_size bm_total_bits]; rewrite ?Hlen'; try lia.
    + by rewrite lookup_insert_eq.
    + apply Forall_app. split; [done | apply Forall_zero].
  - constructor; cbn [bm_array]; [done | done |]. by rewrite lookup_insert_eq.
Qed.

Lemma bit_of_extend ws n b :
  0 <= b -> bit_of (ws ++ replicate n 0) b = if decide (in_bits ws b) then bit_of ws b else false.
Proof.
  intros Hb. unfold in_bits. case_decide as Hin.
  - unfold bit_of. rewrite lookup_app_l by lia. done.
  - unfold bit_of. rewrite lookup_app_r by lia.
    destruct (replicate n 0 !! _) as [w|] eqn:Hl; [|apply Z.bits_0].
    apply lookup_replicate_1 in Hl as [-> _]. apply Z.bits_0.
Qed.
End ownership.
