(* ===== verification/MathRand.v ===== *)
(** * Integer helpers and the random generator (utils/math.c, utils/rand.c)

    [rand_range] computes in floating point and is not modelled. *)

From S2P Require Import Prelude.

Definition max (x y : Z) : Z := if y <? x then x else y.
Definition min (x y : Z) : Z := if x <? y then x else y.

(** C's [/] and [%] truncate; the sums wrap to 32 bits. *)
Definition div (x N : Z) : Z :=
  if 0 <=? x then Z.quot x N else Z.quot (s32 (s32 (x - N) + 1)) N.

Definition mod_ (x N : Z) : Z := Z.rem (s32 (Z.rem x N + N)) N.

Definition rand_a : Z := 1103515245.
Definition rand_c : Z := 12345.
Definition rand_m : Z := 0x80000000.

(** The static variable [seed] is the state; [tick] is what [getTick()]
    returns. *)
Definition rand_seed (new_seed : Z) : Z := new_seed.

Definition rand (seed tick : Z) : Z * Z :=
  let seed := if seed =? 0 then rand_seed tick else seed in
  let seed := u32 (u32 (seed * rand_a) + rand_c) mod rand_m in
  (seed, seed).

Lemma min_le x y : min x y <= x /\ min x y <= y /\ (min x y = x \/ min x y = y).
Proof. unfold min. destruct (Z.ltb_spec x y); lia. Qed.

Lemma max_ge x y : x <= max x y /\ y <= max x y /\ (max x y = x \/ max x y = y).
Proof. unfold max. destruct (Z.ltb_spec y x); lia. Qed.

(** For a positive divisor and no overflow [div] is floor division and
    [mod] its remainder: they agree with [Z.div] and [Z.modulo], also for
    negative numbers. *)
Theorem div_mod_floor x N :
  is_s32 x -> 0 < N < 1073741824 -> -2147483648 + N <= x ->
  div x N = x / N /\ mod_ x N = x mod N /\ x = N * div x N + mod_ x N /\ 0 <= mod_ x N < N.
Proof.
  intros Hx HN Ho. unfold is_s32 in *.
  assert (div x N = x / N) as Hd.
  { unfold div. destruct (Z.leb_spec 0 x).
    - apply Z.quot_div_nonneg; lia.
    - rewrite (s32_small (x - N)), s32_small by (unfold is_s32; lia).
      replace (x - N + 1) with (- (N - 1 - x)) by lia. rewrite Z.quot_opp_l by lia.
      rewrite Z.quot_div_nonneg by lia. pose proof (Z.div_mod x N ltac:(lia)) as Hdm.
      pose proof (Z.mod_pos_bound x N ltac:(lia)).
      rewrite <- (Z.div_unique_pos (N - 1 - x) N (- (x / N)) (N - 1 - x mod N)) by lia. lia. }
  assert (mod_ x N = x mod N) as Hm.
  { unfold mod_. pose proof (Z.rem_bound_abs x N ltac:(lia)).
    rewrite s32_small by (unfold is_s32; lia). rewrite Z.rem_mod_nonneg by lia.
    rewrite <- (Z.mul_1_l N) at 2. rewrite Z.mod_add by lia.
    rewrite (Z.quot_rem' x N) at 2. rewrite Z.add_comm, Z.mul_comm, Z.mod_add by lia. done. }
  pose proof (Z.div_mod x N ltac:(lia)). pose proof (Z.mod_pos_bound x N ltac:(lia)).
  rewrite Hd, Hm. lia.
Qed.

Lemma rand_range_m seed tick : 0 <= (rand seed tick).1 < rand_m.
Proof. unfold rand, rand_m. simpl. apply Z.mod_pos_bound. lia. Qed.

Lemma div_mod_floor_witness : div (-7) 4 = -2 /\ mod_ (-7) 4 = 1.
Proof.
  destruct (div_mod_floor (-7) 4) as (Hd & Hm & _); [split; lia | lia | lia |].
  split; [exact Hd | exact Hm].
Defined.
