(* ===== verification/IdPool.v ===== *)
(** * Id pools (utils/id_pool.c)

    A pool hands out the numbers of the clear bits of a bitmap that grows up
    to a maximum. *)

From S2P Require Import Prelude.
From S2P Require Import YieldLock.
From S2P Require Import KHeap.
From S2P Require Import KHeapMalloc.
From S2P Require Import KMalloc.
From S2P Require Import Allocator.
From S2P Require Import Bitmap.
From S2P Require Import MathRand.

Record id_pool_t := {
  ip_size : Z;
  ip_max_size : Z;
  ip_expand_size : Z;
  ip_id_map : bitmap_t;
  ip_lock : yieldlock_t
}.

Definition set_lock (this : id_pool_t) (l : yieldlock_t) : id_pool_t :=
  {| ip_size := ip_size this; ip_max_size := ip_max_size this;
     ip_expand_size := ip_expand_size this; ip_id_map := ip_id_map this; ip_lock := l |}.

Definition set_id_map (this : id_pool_t) (size : Z) (bm : bitmap_t) : id_pool_t :=
  {| ip_size := size; ip_max_size := ip_max_size this;
     ip_expand_size := ip_expand_size this; ip_id_map := bm; ip_lock := ip_lock this |}.

(** [bool] is [uint8]. *)
Definition TRUE : Z := 1.
Definition FALSE : Z := 0.

Section id_pool.
Context {A : Type} `{Allocator A} (junk : Z).
(** [expand] has no return statement at its end: the value its caller sees
    then is undefined in C. *)
Context (fallthrough : Z).

Definition id_pool_init (a : A) (st : words) (size max_size : Z) :
    outcome (A * words * id_pool_t) :=
  '(a, st, bm) ← bitmap_init junk a st 0 (s32 size);
  Ok (a, st, {| ip_size := s32 size; ip_max_size := s32 max_size; ip_expand_size := s32 size;
                ip_id_map := bm; ip_lock := yieldlock_init |}).

Definition id_pool_set_id (st : words) (this : id_pool_t) (id : Z) : outcome words :=
  bitmap_set_bit st (ip_id_map this) id.

Definition expand (a : A) (st : words) (this : id_pool_t) : outcome (A * words * id_pool_t * Z) :=
  let new_size := min (u32 (ip_size this + ip_expand_size this)) (u32 (ip_max_size this)) in
  if new_size =? u32 (ip_size this) then Ok (a, st, this, FALSE)
  else
    '(a, st, bm) ← bitmap_expand junk a st (ip_id_map this) new_size;
    Ok (a, st, set_id_map this (s32 new_size) bm, fallthrough).

(** The result and [*id], [None] when it is not written. *)
Definition id_pool_allocate_id (a : A) (st : words) (this : id_pool_t) :
    outcome (A * words * id_pool_t * Z * option Z) :=
  l ← yieldlock_lock (ip_lock this);
  let this := set_lock this l in
  '(st, r) ← bitmap_allocate_first_free st (ip_id_map this);
  match r with
  | None =>
      if ip_size this =? ip_max_size this then
        Ok (a, st, set_lock this (yieldlock_unlock (ip_lock this)), u8 (-1), None)
      else
        '(a, st, this, ok) ← expand a st this;
        if ok =? 0 then Ok (a, st, this, FALSE, None)
        else
          let this := set_lock this (yieldlock_unlock (ip_lock this)) in
          '(st, r) ← bitmap_allocate_first_free st (ip_id_map this);
          match r with
          | Some id => Ok (a, st, this, TRUE, Some id)
          | None => Ok (a, st, this, FALSE, None)
          end
  | Some id => Ok (a, st, set_lock this (yieldlock_unlock (ip_lock this)), TRUE, Some id)
  end.

Definition id_pool_free_id (st : words) (this : id_pool_t) (id : Z) : outcome words :=
  bitmap_clear_bit st (ip_id_map this) id.

Definition id_pool_destroy (a : A) (st : words) (this : id_pool_t) : outcome (A * words) :=
  bitmap_destroy a st (ip_id_map this).

(** ** The pool as a set of ids *)

Record ip_wf (a : A) (L : gmap Z Z) (st : words) (this : id_pool_t) (ws : list Z) : Prop := {
  iw_map : bm_wf st (ip_id_map this) ws;
  iw_owns : owns a L (ip_id_map this);
  iw_size : ip_size this = 32 * Z.of_nat (length ws);
  iw_pos : 0 < ip_size this;
  iw_max : ip_size this <= ip_max_size this < 2147483648;
  iw_step : 0 < ip_expand_size this < 2147483648;
  iw_div : ip_max_size this mod 32 = 0 /\ ip_expand_size this mod 32 = 0;
  iw_req : ip_max_size this < request_limit
}.

(** [id] is handed out. *)
Definition taken (ws : list Z) (id : Z) : bool :=
  if decide (in_bits ws id) then bit_of ws id else false.

Lemma taken_bits st bm ws st' ws' f id :
  bits_are st bm ws st' ws' f -> in_bits ws id -> taken ws' id = f id.
Proof.
  intros (_ & _ & Hlen & Hf) Hid. unfold taken, in_bits in *. rewrite Hlen.
  rewrite decide_True by done. by apply Hf.
Qed.

Lemma taken_out st bm ws st' ws' f id :
  bits_are st bm ws st' ws' f -> ~ in_bits ws id -> taken ws' id = false.
Proof. intros (_ & _ & Hlen & _) Hid. unfold taken, in_bits in *. by rewrite Hlen, decide_False. Qed.

(** Setting a bit takes one id. *)
Lemma taken_set st bm ws st' ws' b id :
  bits_are st bm ws st' ws' (fun c => bool_decide (c = b) || bit_of ws c) -> in_bits ws b ->
  taken ws' id = bool_decide (id = b) || taken ws id.
Proof.
  intros Hare Hb. destruct (decide (in_bits ws id)) as [Hid|Hid].
  - rewrite (taken_bits _ _ _ _ _ _ _ Hare Hid). unfold taken. by rewrite decide_True.
  - rewrite (taken_out _ _ _ _ _ _ _ Hare Hid), bool_decide_eq_false_2 by (by intros ->).
    unfold taken. by rewrite decide_False.
Qed.

Lemma ip_wf_words a L st this ws st' ws' f l :
  ip_wf a L st this ws -> bits_are st (ip_id_map this) ws st' ws' f ->
  ip_wf a L st' (set_lock this l) ws'.
Proof. intros [] (-> & Hwf & Hlen & _). constructor; cbn; rewrite ?Hlen; done. Qed.

Lemma least_clear_unique ws r r' : least_clear ws 0 r -> least_clear ws 0 r' -> r = r'.
Proof.
  destruct r as [b|], r' as [b'|]; simpl.
  - intros (? & ? & Hb & Hlt) (? & ? & Hb' & Hlt'). f_equal.
    destruct (decide (b' < b)); [rewrite Hlt in Hb' by lia; done |].
    destruct (decide (b < b')); [rewrite Hlt' in Hb by lia; done | lia].
  - intros (? & ? & Hb & _) Hno. by rewrite Hno in Hb.
  - intros Hno (? & ? & Hb & _). by rewrite Hno in Hb.
  - done.
Qed.
Lemma taken_least ws b :
  least_clear ws 0 (Some b) -> taken ws b = false /\ forall c, 0 <= c < b -> taken ws c = true.
Proof.
  intros (Hin & _ & Hb & Hlt). unfold taken. split; [by rewrite decide_True |].
  intros c Hc. unfold in_bits in *. rewrite decide_True by lia. by apply Hlt.
Qed.

Lemma taken_extend ws n c : taken (ws ++ replicate n 0) c = taken ws c.
Proof.
  unfold taken, in_bits. rewrite length_app, length_replicate.
  destruct (decide (0 <= c < 32 * Z.of_nat (length ws))) as [Hc|Hc].
  - rewrite decide_True by lia. rewrite bit_of_extend by lia. by rewrite decide_True.
  - case_decide as Hc'; [|done]. rewrite bit_of_extend by lia. by rewrite decide_False.
Qed.

(** Handing out the least clear bit of the map of a well-formed pool. *)
Lemma allocate_step a L st this ws :
  ip_wf a L st this ws ->
  (exists b st' ws', bitmap_allocate_first_free st (ip_id_map this) = Ok (st', Some b) /\
     (forall l, ip_wf a L st' (set_lock this l) ws') /\ 0 <= b < ip_size this /\
     taken ws b = false /\ (forall c, 0 <= c < b -> taken ws c = true) /\
     (forall c, taken ws' c = bool_decide (c = b) || taken ws c)) \/
  (bitmap_allocate_first_free st (ip_id_map this) = Ok (st, None) /\
   forall c, 0 <= c < ip_size this -> taken ws c = true).
Proof.
  intros Hwf. destruct (bitmap_allocate_first_free_spec _ _ _ (iw_map _ _ _ _ _ Hwf))
    as [(b & st' & ws' & He & Hl & Hare)|[He Hno]].
  - left. exists b, st', ws'. destruct (taken_least _ _ Hl) as [Hf Ht]. split_and!; try done.
    + intros l. by eapply ip_wf_words.
    + destruct Hl as [[? _] _]. lia.
    + destruct Hl as [[_ ?] _]. rewrite (iw_size _ _ _ _ _ Hwf). lia.
    + intros c. eapply taken_set; [done | apply Hl].
  - right. split; [done |]. intros c Hc. rewrite (iw_size _ _ _ _ _ Hwf) in Hc.
    unfold taken. rewrite decide_True by done. apply Hno; [lia | done].
Qed.

(** A full map that may still grow: the pool expands. *)
Lemma expand_spec a L st this ws :
  ip_wf a L st this ws -> Z.of_nat (size L) < capacity -> ip_size this < ip_max_size this ->
  expand a st this = Panic \/
  exists a' st' this' L' n, expand a st this = Ok (a', st', this', fallthrough) /\
    0 < Z.of_nat n /\
    ip_wf a' L' st' this' (ws ++ replicate n 0) /\
    size L' = size L /\ ip_max_size this' = ip_max_size this /\ ip_size this < ip_size this' /\
    forall p k, p <> bm_array (ip_id_map this) -> L !! p = Some k ->
      L' !! p = Some k /\ p <> bm_array (ip_id_map this').
Proof.
  intros [] Hc Hlt. unfold expand. destruct iw_div0 as [Hm He].
  rewrite (u32_small (ip_size this + _)), (u32_small (ip_max_size this)), (u32_small (ip_size this)) by lia.
  set (new := min _ _). pose proof (min_le (ip_size this + ip_expand_size this) (ip_max_size this))
    as (Hle1 & Hle2 & Hor). fold new in Hle1, Hle2, Hor.
  assert (ip_size this < new /\ new mod 32 = 0) as [Hgt Hmod] by (destruct Hor; lia).
  rewrite (proj2 (Z.eqb_neq new _)) by lia.
  destruct (bitmap_expand_spec junk a L st (ip_id_map this) ws new (new / 32))
    as [->|(a' & st' & bm' & k & -> & Hwf' & Htot & Hnone & Hown & ->)];
    [done | done | done | lia | lia | lia | lia | lia | by left | right].
  cbn [mbind outcome_bind]. destruct iw_owns0 as [_ _ [k0 Hk0]].
  eexists a', _, _, (<[bm_array bm' := k]> (delete (bm_array (ip_id_map this)) L)),
    (Z.to_nat (new / 32 - Z.of_nat (length ws))).
  split; [done |]. split; [|split; [|split; [|split; [done |split; [cbn; rewrite s32_small; unfold is_s32; lia |]]]]].
  3: { rewrite map_size_insert_None.
       - rewrite map_size_delete, Hk0. assert (size L <> 0)%nat; [|lia].
         apply map_size_non_empty_iff. intros ->. by rewrite lookup_empty in Hk0.
       - apply lookup_delete_None. by right. }
  - lia.
  - rewrite s32_small by (unfold is_s32; lia). constructor; cbn; try done; try lia.
    rewrite length_app, length_replicate. lia.
  - intros p j Hp Hj. assert (p <> bm_array bm') as Hne by congruence. split; [|done].
    by rewrite lookup_insert_ne, lookup_delete_ne by congruence.
Qed.

(** The blocks of others stay live. *)
Lemma id_pool_allocate_id_spec a L st this ws free_id :
  ip_wf a L st this ws -> unlocked (ip_lock this) -> Z.of_nat (size L) < capacity ->
  fallthrough <> 0 -> 0 <= free_id < ip_max_size this -> taken ws free_id = false ->
  id_pool_allocate_id a st this = Panic \/
  exists a' st' this' ws' L' id, id_pool_allocate_id a st this = Ok (a', st', this', TRUE, Some id) /\
    ip_wf a' L' st' this' ws' /\ unlocked (ip_lock this') /\ size L' = size L /\
    0 <= id < ip_max_size this /\ ip_max_size this' = ip_max_size this /\ taken ws id = false /\
    (forall c, 0 <= c < id -> taken ws c = true) /\
    (forall c, taken ws' c = bool_decide (c = id) || taken ws c) /\
    (forall p k, p <> bm_array (ip_id_map this) -> L !! p = Some k ->
      L' !! p = Some k /\ p <> bm_array (ip_id_map this')).
Proof.
  intros Hwf Hl Hc Hft Hid Hfree. unfold id_pool_allocate_id. rewrite lock_unlocked by done.
  cbn [mbind outcome_bind]. change (ip_id_map (set_lock this locked)) with (ip_id_map this).
  pose proof (iw_max _ _ _ _ _ Hwf).
  destruct (allocate_step _ _ _ _ _ Hwf) as [(b & st' & ws' & -> & Hwf' & Hb & Hf & Ht & Hs)|[-> Hno]].
  { right. cbn [mbind outcome_bind]. eexists a, st', _, ws', L, b.
    split; [done |]. split; [apply Hwf' |]. split_and!; try done; lia. }
  cbn [mbind outcome_bind set_lock ip_size ip_max_size].
  assert (ip_size this < ip_max_size this) as Hlt.
  { destruct (decide (free_id < ip_size this)); [rewrite Hno in Hfree by lia; done | lia]. }
  rewrite (proj2 (Z.eqb_neq _ _)) by lia.
  assert (ip_wf a L st (set_lock this locked) ws) as Hwfl by by destruct Hwf.
  destruct (expand_spec _ _ _ _ _ Hwfl Hc Hlt)
    as [->|(a1 & st1 & this1 & L1 & n & -> & Hn & Hwf1 & HL1 & Hm1 & Hs1 & Hk1)]; [by left |].
  cbn [mbind outcome_bind]. rewrite (proj2 (Z.eqb_neq fallthrough 0)) by done.
  change (ip_id_map (set_lock this1 _)) with (ip_id_map this1). cbn [set_lock ip_max_size ip_size] in *.
  pose proof (iw_max _ _ _ _ _ Hwf1).
  destruct (allocate_step _ _ _ _ _ Hwf1) as [(b & st' & ws' & -> & Hwf' & Hb & Hf & Ht & Hs)|[_ Hno1]].
  - right. cbn [mbind outcome_bind]. eexists a1, st', _, ws', L1, b.
    split; [done |]. split; [apply Hwf' |]. rewrite taken_extend in Hf.
    split_and!; try done; try lia.
    + intros c Hc'. rewrite <- (taken_extend ws n). by apply Ht.
    + intros c. by rewrite Hs, taken_extend.
  - exfalso. specialize (Hno1 (ip_size this) ltac:(pose proof (iw_pos _ _ _ _ _ Hwf); lia)).
    rewrite taken_extend in Hno1. unfold taken, in_bits in Hno1. rewrite decide_False in Hno1; [done |].
    rewrite (iw_size _ _ _ _ _ Hwf). lia.
Qed.

(** C27: while an id below the maximum is free, [id_pool_allocate_id] hands
    out the least free one, marks exactly that one, and releases the lock;
    it expands the pool when its map is full. It may panic for lack of
    memory.  (The value [expand] falls through with must be non-zero.) *)
Theorem id_pool_allocate_id_correct a L st this ws free_id :
  ip_wf a L st this ws -> unlocked (ip_lock this) -> Z.of_nat (size L) < capacity ->
  fallthrough <> 0 -> 0 <= free_id < ip_max_size this -> taken ws free_id = false ->
  id_pool_allocate_id a st this = Panic \/
  exists a' st' this' ws' L' id, id_pool_allocate_id a st this = Ok (a', st', this', TRUE, Some id) /\
    ip_wf a' L' st' this' ws' /\ unlocked (ip_lock this') /\ size L' = size L /\
    0 <= id < ip_max_size this /\ taken ws id = false /\
    (forall c, 0 <= c < id -> taken ws c = true) /\
    (forall c, taken ws' c = bool_decide (c = id) || taken ws c).
Proof.
  intros Hwf Hl Hc Hft Hid Hfree.
  destruct (id_pool_allocate_id_spec a L st this ws free_id Hwf Hl Hc Hft Hid Hfree)
    as [?|(a' & st' & this' & ws' & L' & id & ?)]; [by left | right].
  exists a', st', this', ws', L', id. tauto.
Qed.

(** When every id is taken the pool reports success: the result is 255,
    a true [bool], and [*id] is not written. *)
Theorem id_pool_full_reports_success a L st this ws :
  ip_wf a L st this ws -> unlocked (ip_lock this) ->
  (forall c, 0 <= c < ip_max_size this -> taken ws c = true) ->
  id_pool_allocate_id a st this = Ok (a, st, set_lock this yieldlock_init, 255, None).
Proof.
  intros Hwf Hl Hall. pose proof (iw_max _ _ _ _ _ Hwf). pose proof (iw_pos _ _ _ _ _ Hwf).
  unfold id_pool_allocate_id. rewrite lock_unlocked by done.
  cbn [mbind outcome_bind]. change (ip_id_map (set_lock this locked)) with (ip_id_map this).
  destruct (allocate_step _ _ _ _ _ Hwf) as [(b & st' & ws' & _ & _ & Hb & Hf & _)|[-> Hno]].
  - by rewrite Hall in Hf by lia.
  - cbn [mbind outcome_bind set_lock ip_size ip_max_size].
    rewrite (proj2 (Z.eqb_eq _ _)); [done |].
    destruct (decide (ip_size this = ip_max_size this)) as [|Hne]; [done | exfalso].
    specialize (Hall (ip_size this) ltac:(lia)). unfold taken, in_bits in Hall.
    rewrite decide_False in Hall; [done |]. rewrite (iw_size _ _ _ _ _ Hwf). lia.
Qed.

(** Freeing an id makes exactly that id free again; allocation after it
    is free to return it. *)
Theorem id_pool_free_id_correct a L st this ws id :
  ip_wf a L st this ws -> 0 <= id < ip_size this ->
  exists st' ws', id_pool_free_id st this id = Ok st' /\ ip_wf a L st' this ws' /\
    forall c, taken ws' c = negb (bool_decide (c = id)) && taken ws c.
Proof.
  intros Hwf Hid. rewrite (iw_size _ _ _ _ _ Hwf) in Hid.
  destruct (bitmap_clear_bit_spec _ _ _ id (iw_map _ _ _ _ _ Hwf)) as (st' & ws' & He & Hare); [done |].
  exists st', ws'. split; [done |]. split.
  - pose proof (ip_wf_words _ _ _ _ _ _ _ _ (ip_lock this) Hwf Hare). by destruct this.
  - intros c. destruct (decide (in_bits ws c)) as [Hc|Hc].
    + rewrite (taken_bits _ _ _ _ _ _ _ Hare Hc). unfold taken. by rewrite decide_True.
    + rewrite (taken_out _ _ _ _ _ _ _ Hare Hc). unfold taken. rewrite decide_False by done.
      by rewrite andb_false_r.
Qed.

(** A new pool: no id is taken. *)
Lemma id_pool_init_spec a L st sz mx n :
  alive a L -> Z.of_nat (size L) < capacity -> sz = 32 * n -> 0 < n -> sz <= mx ->
  mx < 2147483648 -> mx mod 32 = 0 -> mx < request_limit ->
  id_pool_init a st sz mx = Panic \/
  exists a' st' this ws k, id_pool_init a st sz mx = Ok (a', st', this) /\
    ip_wf a' (<[bm_array (ip_id_map this) := k]> L) st' this ws /\
    unlocked (ip_lock this) /\ ip_max_size this = mx /\ ip_size this = sz /\
    (forall c, taken ws c = false).
Proof.
  intros Ha Hc -> Hn Hle Hmx Hdiv Hreq. unfold id_pool_init.
  rewrite !s32_small by (unfold is_s32; lia).
  destruct (bitmap_init_spec junk a L st (32 * n) n)
    as [->|(a' & st' & bm & k & -> & Hwf & Hnone & Htot & Hown & ->)];
    [done | done | done | done | lia | lia | by left | right].
  cbn [mbind outcome_bind]. eexists a', _, _, _, k. split; [done |]. split_and!; try done.
  - constructor; cbn; rewrite ?length_replicate; done || lia.
  - intros c. unfold taken. case_decide; [apply bit_of_zero | done].
Qed.
End id_pool.

(** ** A pool on the kernel heap *)

Lemma boot_pool mx :
  32 <= mx < 65536 -> mx mod 32 = 0 ->
  id_pool_init 0 boot_heap ∅ 32 mx = Panic \/
  exists a st pool ws L, id_pool_init 0 boot_heap ∅ 32 mx = Ok (a, st, pool) /\
    ip_wf a L st pool ws /\ unlocked (ip_lock pool) /\ ip_max_size pool = mx /\
    ip_size pool = 32 /\ (forall c, taken ws c = false) /\ size L = 1%nat.
Proof.
  intros Hmx Hm. assert (alive boot_heap ∅) as Ha by exact boot_heap_alive.
  destruct (id_pool_init_spec 0 boot_heap ∅ ∅ 32 mx 1 Ha)
    as [Hp|(a & st & pool & ws & k & He & Hwf & Hl & Hmax & Hsz & Ht)];
    [reflexivity | lia | lia | lia | lia | done | change request_limit with ALLOC_LIMIT; mlia | by left | right].
  exists a, st, pool, ws, (<[bm_array (ip_id_map pool) := k]> ∅).
  split; [exact He |]. split_and!; try assumption.
  by rewrite map_size_insert_None, map_size_empty by apply lookup_empty.
Qed.

(** A pool all ids of which are taken. *)
Lemma full_pool {A} `{Allocator A} (a : A) L st this ws :
  ip_wf a L st this ws ->
  exists ws', let st' := <[bm_array (ip_id_map this) := ws']> st in
    ip_wf a L st' this ws' /\ forall c, 0 <= c < ip_size this -> taken ws' c = true.
Proof.
  intros []. exists (replicate (length ws) 0xFFFFFFFF). split.
  - destruct iw_map0. constructor; rewrite ?length_replicate; try done.
    constructor; rewrite ?length_replicate; try done; [by rewrite lookup_insert_eq |].
    apply Forall_replicate. unfold is_u32. lia.
  - intros c Hc. unfold taken, in_bits. rewrite length_replicate, decide_True by lia.
    unfold bit_of. rewrite lookup_replicate_2 by lia. cbn [default from_option id].
    change 0xFFFFFFFF with (Z.ones 32). apply Z.ones_spec_low. lia.
Qed.

Lemma id_pool_allocate_id_correct_witness :
  exists a st pool a' st' pool' id, id_pool_init 0 boot_heap ∅ 32 64 = Ok (a, st, pool) /\
    id_pool_allocate_id 0 1 a st pool = Ok (a', st', pool', TRUE, Some id) /\ 0 <= id < 64.
Proof.
  assert (is_panic ('(a, st, pool) ← id_pool_init 0 boot_heap ∅ 32 64;
    id_pool_allocate_id 0 1 a st pool) = false) as Hno by (vm_compute; reflexivity).
  destruct (boot_pool 64) as [Hp|(a & st & pool & ws & L & He & Hwf & Hl & Hmax & Hsz & Ht & HL)];
    [lia | reflexivity | rewrite Hp in Hno; discriminate Hno |].
  rewrite He in Hno. cbn [mbind outcome_bind] in Hno.
  destruct (id_pool_allocate_id_correct 0 1 a L st pool ws 5 Hwf Hl)
    as [Hp|(a' & st' & pool' & ws' & L' & id & Ha & _ & _ & _ & Hid & _)].
  - rewrite HL. vm_compute. reflexivity.
  - lia.
  - rewrite Hmax. lia.
  - apply Ht.
  - rewrite Hp in Hno. discriminate Hno.
  - rewrite Hmax in Hid. exists a, st, pool, a', st', pool', id.
    exact (conj He (conj Ha Hid)).
Defined.

Lemma id_pool_full_reports_success_witness :
  exists (a : kmem) st pool, ip_size pool = 32 /\ ip_max_size pool = 32 /\
    id_pool_allocate_id 0 1 a st pool = Ok (a, st, set_lock pool yieldlock_init, 255, None).
Proof.
  assert (is_panic (id_pool_init 0 boot_heap ∅ 32 32) = false) as Hno by (vm_compute; reflexivity).
  destruct (boot_pool 32) as [Hp|(a & st & pool & ws & L & He & Hwf & Hl & Hmax & Hsz & Ht & HL)];
    [lia | reflexivity | rewrite Hp in Hno; discriminate Hno |].
  destruct (full_pool a L st pool ws Hwf) as (ws' & Hwf' & Hfull).
  exists a, (<[bm_array (ip_id_map pool) := ws']> st), pool. split; [exact Hsz |]. split; [exact Hmax |].
  apply (id_pool_full_reports_success 0 1 a L _ pool ws' Hwf' Hl).
  rewrite Hmax, <- Hsz. exact Hfull.
Defined.

Lemma id_pool_free_id_correct_witness :
  exists a st pool st' L ws, id_pool_init 0 boot_heap ∅ 32 64 = Ok (a, st, pool) /\
    id_pool_free_id st pool 3 = Ok st' /\ ip_wf a L st' pool ws.
Proof.
  assert (is_panic (id_pool_init 0 boot_heap ∅ 32 64) = false) as Hno by (vm_compute; reflexivity).
  destruct (boot_pool 64) as [Hp|(a & st & pool & ws & L & He & Hwf & Hl & Hmax & Hsz & Ht & HL)];
    [lia | reflexivity | rewrite Hp in Hno; discriminate Hno |].
  destruct (id_pool_free_id_correct a L st pool ws 3 Hwf) as (st' & ws' & Hf & Hwf' & _); [lia |].
  exists a, st, pool, st', L, ws'. exact (conj He (conj Hf Hwf')).
Defined.
