(* ===== verification/HashTable.v ===== *)
(** * Hash tables (utils/hash_table.c): data and operations

    A table is an array of buckets, each a linked list whose nodes point to
    key/value pairs.  Arrays, nodes and pairs are objects of three stores; the
    allocator hands out their addresses. *)

From S2P Require Import Prelude.
From S2P Require Import Allocator.
From S2P Require Import LinkedList.

Definition INITIAL_BUCKETS_NUM : Z := 16.

Record hash_table_kv_t := KV { kv_key : Z; kv_v_ptr : Z }.
Record hash_table_t := HT { ht_buckets : Z; ht_buckets_num : Z; ht_size : Z }.

(** [sizeof(linked_list_t)] and [sizeof(hash_table_kv_t)] *)
Definition LIST_SIZE : Z := 12.
Definition KV_SIZE : Z := 8.

Section hash_table.
Context {A : Type} `{Allocator A}.

(** The memory: the allocator and the objects by address. *)
Record world := {
  w_alloc : A;
  w_nodes : nodes;
  w_kvs : gmap Z hash_table_kv_t;
  w_buckets : gmap Z (list linked_list_t)
}.

Definition set_alloc (w : world) (a : A) : world :=
  {| w_alloc := a; w_nodes := w_nodes w; w_kvs := w_kvs w; w_buckets := w_buckets w |}.
Definition set_nodes (w : world) (st : nodes) : world :=
  {| w_alloc := w_alloc w; w_nodes := st; w_kvs := w_kvs w; w_buckets := w_buckets w |}.
Definition set_kvs (w : world) (kvs : gmap Z hash_table_kv_t) : world :=
  {| w_alloc := w_alloc w; w_nodes := w_nodes w; w_kvs := kvs; w_buckets := w_buckets w |}.
Definition set_buckets (w : world) (bs : gmap Z (list linked_list_t)) : world :=
  {| w_alloc := w_alloc w; w_nodes := w_nodes w; w_kvs := w_kvs w; w_buckets := bs |}.

(** [buckets[i]], read and written. *)
Definition get_bucket (w : world) (buckets i : Z) : outcome linked_list_t :=
  bl ← deref (w_buckets w !! buckets);
  deref (if 0 <=? i then bl !! Z.to_nat i else None).
Definition set_bucket (w : world) (buckets i : Z) (b : linked_list_t) : outcome world :=
  bl ← deref (w_buckets w !! buckets);
  if (0 <=? i) && (i <? Z.of_nat (length bl))
  then Ok (set_buckets w (<[buckets := <[Z.to_nat i := b]> bl]> (w_buckets w))) else Fault.

(** An array of [n] buckets, each set up by [linked_list_init]. *)
Definition new_buckets (w : world) (n : Z) : outcome (world * Z) :=
  '(a, p) ← a_malloc (w_alloc w) (u32 (n * LIST_SIZE));
  let w := set_alloc w a in
  Ok (set_buckets w (<[p := replicate (Z.to_nat n) linked_list_init]> (w_buckets w)), p).

(** [kfree] of a pair, a node, an array, or of a block that is none of these. *)
Definition free_kv (w : world) (p : Z) : outcome world :=
  a ← a_free (w_alloc w) p; Ok (set_kvs (set_alloc w a) (delete p (w_kvs w))).
Definition free_node (w : world) (p : Z) : outcome world :=
  a ← a_free (w_alloc w) p; Ok (set_nodes (set_alloc w a) (delete p (w_nodes w))).
Definition free_buckets (w : world) (p : Z) : outcome world :=
  a ← a_free (w_alloc w) p; Ok (set_buckets (set_alloc w a) (delete p (w_buckets w))).
Definition free_value (w : world) (p : Z) : outcome world :=
  a ← a_free (w_alloc w) p; Ok (set_alloc w a).

Definition hash_table_init (w : world) : outcome (world * hash_table_t) :=
  '(w, p) ← new_buckets w INITIAL_BUCKETS_NUM;
  Ok (w, HT p INITIAL_BUCKETS_NUM 0).

(** The pair a node points to. *)
Definition node_kv (w : world) (node : linked_list_node_t) : outcome hash_table_kv_t :=
  deref (w_kvs w !! n_ptr node).

(** The loop of [hash_table_bucket_lookup]: the node found, or 0. *)
Fixpoint bucket_lookup (fuel : nat) (w : world) (kv_node key : Z) : outcome Z :=
  match fuel with
  | O => NoFuel
  | S fuel =>
      if negb (kv_node =? 0) then
        n ← deref (w_nodes w !! kv_node);
        kv ← node_kv w n;
        if kv_key kv =? key then Ok kv_node else bucket_lookup fuel w (n_next n) key
      else Ok 0
  end.

Definition hash_table_bucket_lookup (w : world) (bucket : linked_list_t) (key : Z) : outcome Z :=
  bucket_lookup (S (Z.to_nat (ll_size bucket))) w (ll_head bucket) key.

Definition bucket_index (this : hash_table_t) (key : Z) : Z := key mod ht_buckets_num this.

Definition hash_table_get (w : world) (this : hash_table_t) (key : Z) : outcome Z :=
  bucket ← get_bucket w (ht_buckets this) (bucket_index this key);
  kv_node ← hash_table_bucket_lookup w bucket key;
  if negb (kv_node =? 0) then
    n ← deref (w_nodes w !! kv_node);
    kv ← node_kv w n;
    Ok (kv_v_ptr kv)
  else Ok 0.

Definition hash_table_contains (w : world) (this : hash_table_t) (key : Z) : outcome bool :=
  bucket ← get_bucket w (ht_buckets this) (bucket_index this key);
  kv_node ← hash_table_bucket_lookup w bucket key;
  Ok (negb (kv_node =? 0)).

(** One bucket moved to the new array: the loop over its nodes. *)
Fixpoint move_nodes (fuel : nat) (w : world) (buckets i new_buckets new_num kv_node : Z) :
    outcome world :=
  match fuel with
  | O => NoFuel
  | S fuel =>
      if negb (kv_node =? 0) then
        n ← deref (w_nodes w !! kv_node);
        kv ← node_kv w n;
        let crt_node := kv_node in
        let kv_node := n_next n in
        bucket ← get_bucket w buckets i;
        '(st, bucket) ← linked_list_remove (w_nodes w) bucket crt_node;
        w ← set_bucket (set_nodes w st) buckets i bucket;
        let j := kv_key kv mod new_num in
        target ← get_bucket w new_buckets j;
        '(st, target) ← linked_list_append (w_nodes w) target crt_node;
        w ← set_bucket (set_nodes w st) new_buckets j target;
        move_nodes fuel w buckets i new_buckets new_num kv_node
      else Ok w
  end.

Definition hash_table_expand (w : world) (this : hash_table_t) : outcome (world * hash_table_t) :=
  let new_buckets_num := u32 (ht_buckets_num this * 2) in
  '(w, p) ← new_buckets w new_buckets_num;
  w ← for_up (Z.to_nat (ht_buckets_num this)) 0 (fun i w =>
        bucket ← get_bucket w (ht_buckets this) i;
        move_nodes (S (Z.to_nat (ll_size bucket))) w (ht_buckets this) i p new_buckets_num
          (ll_head bucket)) w;
  w ← free_buckets w (ht_buckets this);
  Ok (w, HT p new_buckets_num (ht_size this)).

(** The part of [hash_table_put] that inserts a new pair and node. *)
Definition put_new (w : world) (this : hash_table_t) (index : Z) (bucket : linked_list_t)
    (key v_ptr : Z) : outcome (world * hash_table_t) :=
  '(a, new_kv) ← a_malloc (w_alloc w) KV_SIZE;
  let w := set_kvs (set_alloc w a) (<[new_kv := KV key v_ptr]> (w_kvs w)) in
  '(a, st, bucket) ← linked_list_append_ele (w_alloc w) (w_nodes w) bucket new_kv;
  w ← set_bucket (set_nodes (set_alloc w a) st) (ht_buckets this) index bucket;
  Ok (w, HT (ht_buckets this) (ht_buckets_num this) (s32 (ht_size this + 1))).

(** The result is the old value, or null. *)
Definition hash_table_put (w : world) (this : hash_table_t) (key v_ptr : Z) :
    outcome (world * hash_table_t * Z) :=
  let index := bucket_index this key in
  bucket ← get_bucket w (ht_buckets this) index;
  kv_node ← hash_table_bucket_lookup w bucket key;
  if negb (kv_node =? 0) then
    n ← deref (w_nodes w !! kv_node);
    kv ← node_kv w n;
    let old_value_ptr := kv_v_ptr kv in
    Ok (set_kvs w (<[n_ptr n := KV (kv_key kv) v_ptr]> (w_kvs w)), this, old_value_ptr)
  else
    '(w, this) ← put_new w this index bucket key v_ptr;
    '(w, this) ←
      (if 3 * ht_buckets_num this <? 4 * ht_size this then hash_table_expand w this
       else Ok (w, this));
    Ok (w, this, 0).

Definition hash_table_remove (w : world) (this : hash_table_t) (key : Z) :
    outcome (world * hash_table_t * Z) :=
  let index := bucket_index this key in
  bucket ← get_bucket w (ht_buckets this) index;
  kv_node ← hash_table_bucket_lookup w bucket key;
  if negb (kv_node =? 0) then
    '(st, bucket) ← linked_list_remove (w_nodes w) bucket kv_node;
    w ← set_bucket (set_nodes w st) (ht_buckets this) index bucket;
    n ← deref (w_nodes w !! kv_node);
    kv ← node_kv w n;
    let value := kv_v_ptr kv in
    w ← free_kv w (n_ptr n);
    w ← free_node w kv_node;
    Ok (w, HT (ht_buckets this) (ht_buckets_num this) (s32 (ht_size this - 1)), value)
  else Ok (w, this, 0).

(** The loop over one bucket in [hash_table_clear] and, with [values],
    [hash_table_destroy], which also frees the values. *)
Fixpoint clear_bucket (fuel : nat) (values : bool) (w : world) (buckets i kv_node : Z) :
    outcome world :=
  match fuel with
  | O => NoFuel
  | S fuel =>
      if negb (kv_node =? 0) then
        n ← deref (w_nodes w !! kv_node);
        kv ← node_kv w n;
        w ← (if values then free_value w (kv_v_ptr kv) else Ok w);
        w ← free_kv w (n_ptr n);
        let crt_node := kv_node in
        let kv_node := n_next n in
        bucket ← get_bucket w buckets i;
        '(st, bucket) ← linked_list_remove (w_nodes w) bucket crt_node;
        w ← set_bucket (set_nodes w st) buckets i bucket;
        w ← free_node w crt_node;
        clear_bucket fuel values w buckets i kv_node
      else Ok w
  end.

Definition clear_buckets (values : bool) (w : world) (this : hash_table_t) : outcome world :=
  for_up (Z.to_nat (ht_buckets_num this)) 0 (fun i w =>
    bucket ← get_bucket w (ht_buckets this) i;
    clear_bucket (S (Z.to_nat (ll_size bucket))) values w (ht_buckets this) i (ll_head bucket)) w.

Definition hash_table_clear (w : world) (this : hash_table_t) : outcome (world * hash_table_t) :=
  w ← clear_buckets false w this;
  Ok (w, HT (ht_buckets this) (ht_buckets_num this) 0).

Definition hash_table_destroy (w : world) (this : hash_table_t) : outcome (world * hash_table_t) :=
  w ← clear_buckets true w this;
  w ← free_buckets w (ht_buckets this);
  Ok (w, HT (ht_buckets this) (ht_buckets_num this) 0).

(** The iterator, without its pointer to the table. *)
Record hash_table_interator_t := It { it_bucket_index : Z; it_node : Z; it_index : Z }.

Definition hash_table_create_iterator : hash_table_interator_t := It (-1) 0 (-1).

Definition hash_table_iterator_has_next (map : hash_table_t) (iter : hash_table_interator_t) : bool :=
  it_index iter <? ht_size map - 1.

(** [while (bucket_index < buckets_num) { ... bucket_index++; }]: the first
    bucket with a node from [i] on. *)
Fixpoint next_bucket (n : nat) (w : world) (map : hash_table_t) (i : Z) :
    outcome (option (Z * Z)) :=
  match n with
  | O => Ok None
  | S n =>
      bucket ← get_bucket w (ht_buckets map) i;
      let head := ll_head bucket in
      if negb (head =? 0) then Ok (Some (i, head)) else next_bucket n w map (i + 1)
  end.

(** The result of a call: the pair or null; [None] when control reaches the
    end of the function, where no value is returned. *)
Definition hash_table_iterator_next (w : world) (map : hash_table_t)
    (iter : hash_table_interator_t) : outcome (hash_table_interator_t * option Z) :=
  if ht_size map - 1 <=? it_index iter then
    Ok (It (ht_buckets_num map) 0 (ht_size map), Some 0)
  else
    next_node ←
      (if negb (it_node iter =? 0) then n ← deref (w_nodes w !! it_node iter); Ok (n_next n)
       else Ok 0);
    if negb (next_node =? 0) then
      n ← deref (w_nodes w !! next_node);
      Ok (It (it_bucket_index iter) next_node (it_index iter + 1), Some (n_ptr n))
    else
      let i := it_bucket_index iter + 1 in
      r ← next_bucket (Z.to_nat (ht_buckets_num map - i)) w map i;
      match r with
      | Some (i, head) =>
          n ← deref (w_nodes w !! head);
          Ok (It i head (it_index iter + 1), Some (n_ptr n))
      | None => Ok (It (ht_buckets_num map) 0 (it_index iter + 1), None)
      end.
End hash_table.
Arguments world : clear implicits.
