(* ===== verification/HashTableInv.v ===== *)
(** * Hash tables: representation

    A table represents a list of buckets, each a list of entries, and through
    them a finite map from keys to values. *)

From S2P Require Import Prelude.
From S2P Require Import Allocator.
From S2P Require Import LinkedList.
From S2P Require Import HashTable.

Record entry := En { en_node : Z; en_kv : Z; en_key : Z; en_v : Z }.

Definition en_set_v (e : entry) (v : Z) : entry := En (en_node e) (en_kv e) (en_key e) v.

(** The map: keys to values. *)
Definition dict (es : list entry) : gmap Z Z := list_to_map ((fun e => (en_key e, en_v e)) <$> es).

Definition keys (es : list entry) : list Z := en_key <$> es.

(** The addresses the entries own. *)
Definition own (es : list entry) : list Z := (en_node <$> es) ++ (en_kv <$> es).

(** Every entry is in the bucket of its key. *)
Definition hashed (n : Z) (ess : list (list entry)) : Prop :=
  forall i es e, ess !! i = Some es -> e ∈ es -> is_u32 (en_key e) /\ en_key e mod n = Z.of_nat i.

(** ** Entries *)

#[export] Instance own_proper : Proper ((≡ₚ) ==> (≡ₚ)) own.
Proof. intros es es' Hp. unfold own. by rewrite Hp. Qed.

#[export] Instance keys_proper : Proper ((≡ₚ) ==> (≡ₚ)) keys.
Proof. intros es es' Hp. unfold keys. by rewrite Hp. Qed.

Lemma dict_perm es es' : NoDup (keys es) -> es ≡ₚ es' -> dict es = dict es'.
Proof.
  intros Hnd Hp. unfold dict. apply list_to_map_proper.
  - rewrite <- list_fmap_compose. done.
  - by rewrite Hp.
Qed.

Lemma dict_cons e es : dict (e :: es) = <[en_key e := en_v e]> (dict es).
Proof. done. Qed.

Lemma dict_lookup es k v :
  NoDup (keys es) -> dict es !! k = Some v <-> exists e, e ∈ es /\ en_key e = k /\ en_v e = v.
Proof.
  intros Hnd. unfold dict. rewrite <- elem_of_list_to_map by by rewrite <- list_fmap_compose.
  rewrite list_elem_of_fmap. naive_solver.
Qed.

Lemma dict_lookup_None es k : dict es !! k = None <-> k ∉ keys es.
Proof.
  unfold dict. rewrite <- not_elem_of_list_to_map, <- list_fmap_compose. done.
Qed.

Lemma own_cons e es : own (e :: es) ≡ₚ en_node e :: en_kv e :: own es.
Proof. unfold own. simpl. by rewrite <- Permutation_middle. Qed.

Lemma own_node e es : e ∈ es -> en_node e ∈ own es.
Proof. intros He. unfold own. apply elem_of_app. left. by apply list_elem_of_fmap_2. Qed.

Lemma own_kv e es : e ∈ es -> en_kv e ∈ own es.
Proof. intros He. unfold own. apply elem_of_app. right. by apply list_elem_of_fmap_2. Qed.

(** Splitting one bucket off the list of buckets. *)
Lemma concat_delete (ess : list (list entry)) i es :
  ess !! i = Some es -> concat ess ≡ₚ es ++ concat (delete i ess).
Proof.
  revert i. induction ess as [|es0 ess IH]; intros [|i] Hi; simplify_eq/=; [done |].
  rewrite (IH i Hi). rewrite !app_assoc. f_equiv. apply Permutation_app_comm.
Qed.

Lemma concat_insert (ess : list (list entry)) i es es' :
  ess !! i = Some es -> concat (<[i := es']> ess) ≡ₚ es' ++ concat (delete i ess).
Proof.
  revert i. induction ess as [|es0 ess IH]; intros [|i] Hi; simplify_eq/=; [done |].
  rewrite (IH i Hi). rewrite !app_assoc. f_equiv. apply Permutation_app_comm.
Qed.

Lemma elem_of_concat_lookup (ess : list (list entry)) e :
  e ∈ concat ess <-> exists i es, ess !! i = Some es /\ e ∈ es.
Proof.
  induction ess as [|es0 ess IH]; simpl.
  - split; [by intros ?%elem_of_nil | by intros (i & es & ? & _)].
  - rewrite elem_of_app, IH. split.
    + intros [He|(i & es & Hi & He)]; [by exists 0%nat, es0 | by exists (S i), es].
    + intros ([|i] & es & Hi & He); simplify_eq/=; [by left | right; eauto].
Qed.

Lemma hashed_insert n ess i es es' :
  hashed n ess -> ess !! i = Some es ->
  (forall e, e ∈ es' -> is_u32 (en_key e) /\ en_key e mod n = Z.of_nat i) ->
  hashed n (<[i := es']> ess).
Proof.
  intros Hh Hi Hes j fs e Hj He. apply list_lookup_insert_Some in Hj as [(<- & <- & _)|[_ Hj]].
  - by apply Hes.
  - by eapply Hh.
Qed.

(** The bucket of a key decides the map at that key. *)
Lemma dict_bucket n ess i es k :
  hashed n ess -> NoDup (keys (concat ess)) -> ess !! i = Some es -> k mod n = Z.of_nat i ->
  dict (concat ess) !! k = dict es !! k.
Proof.
  intros Hh Hnd Hi Hk. assert (NoDup (keys es)) as Hnd'.
  { rewrite (concat_delete _ _ _ Hi) in Hnd. unfold keys in *. rewrite fmap_app in Hnd.
    by apply NoDup_app in Hnd as [? _]. }
  apply option_eq. intros v. rewrite !dict_lookup by done. split; intros (e & He & Hek & Hev).
  - apply elem_of_concat_lookup in He as (j & fs & Hj & He). exists e. split; [|done].
    destruct (Hh j fs e Hj He) as [_ Hm]. assert (j = i) as -> by (apply Nat2Z.inj; congruence).
    congruence.
  - exists e. split; [|done]. apply elem_of_concat_lookup. eauto.
Qed.

(** ** The memory *)

Section rep.
Context {A : Type} `{Allocator A}.
Abbreviation world := (world A).

(** The node and the pair of an entry hold it. *)
Definition holds (w : world) (e : entry) : Prop :=
  n_ptr <$> w_nodes w !! en_node e = Some (en_kv e) /\
  w_kvs w !! en_kv e = Some (KV (en_key e) (en_v e)).

Definition linked (st : nodes) (b : linked_list_t) (es : list entry) : Prop :=
  is_list st b (en_node <$> es).

Record tbl (w : world) (p : Z) (bl : list linked_list_t) (ess : list (list entry)) : Prop := {
  tb_array : w_buckets w !! p = Some bl;
  tb_lists : Forall2 (linked (w_nodes w)) bl ess;
  tb_holds : forall e, e ∈ concat ess -> holds w e
}.

Lemma is_list_frame st st' b xs :
  (forall x, x ∈ xs -> st' !! x = st !! x) -> is_list st b xs -> is_list st' b xs.
Proof. intros Hs []. constructor; try done. by eapply seg_frame. Qed.

(** Relinking keeps what the nodes point to. *)
Lemma holds_relinked w w' st' xs e :
  relinked (w_nodes w) st' xs -> w_nodes w' = st' -> w_kvs w' = w_kvs w -> holds w e -> holds w' e.
Proof. intros [Hr _] <- Hk [Hn Hkv]. split; [by rewrite Hr | by rewrite Hk]. Qed.

(** Writing one bucket. *)
Lemma tbl_update w w' p bl ess i es es' b' :
  tbl w p bl ess -> ess !! i = Some es ->
  w_buckets w' !! p = Some (<[i := b']> bl) -> linked (w_nodes w') b' es' ->
  (forall e, e ∈ concat (delete i ess) -> w_nodes w' !! en_node e = w_nodes w !! en_node e) ->
  (forall e, e ∈ es' ++ concat (delete i ess) -> holds w' e) ->
  tbl w' p (<[i := b']> bl) (<[i := es']> ess).
Proof.
  intros [Ha Hl Hh] Hi Ha' Hb' Hsame Hholds. constructor; [done | |].
  - apply Forall2_same_length_lookup. split.
    { rewrite !length_insert. by eapply Forall2_length. }
    intros j b fs Hj Hfs. apply list_lookup_insert_Some in Hj as [(<- & <- & ?)|[Hne Hj]].
    + rewrite list_lookup_insert_eq in Hfs; [by simplify_eq |]. by eapply lookup_lt_Some.
    + rewrite list_lookup_insert_ne in Hfs by done.
      pose proof (Forall2_lookup_lr _ _ _ _ _ _ Hl Hj Hfs) as Hlk.
      eapply is_list_frame; [|exact Hlk]. intros x (e & -> & He)%list_elem_of_fmap. apply Hsame.
      apply elem_of_concat_lookup. exists (if decide (j < i)%nat then j else (j - 1)%nat), fs.
      split; [|done]. case_decide.
      * by rewrite list_lookup_delete_lt.
      * rewrite list_lookup_delete_ge by lia. by replace (S (j - 1)) with j by lia.
  - intros e He. apply Hholds. by rewrite <- (concat_insert _ _ _ _ Hi).
Qed.

(** A table untouched by changes elsewhere. *)
Lemma tbl_frame w w' p bl ess :
  tbl w p bl ess -> w_buckets w' !! p = w_buckets w !! p ->
  (forall e, e ∈ concat ess -> w_nodes w' !! en_node e = w_nodes w !! en_node e) ->
  (forall e, e ∈ concat ess -> holds w' e) -> tbl w' p bl ess.
Proof.
  intros [Ha Hl Hh] Hb Hsame Hholds. constructor; [by rewrite Hb | | done].
  apply Forall2_same_length_lookup. split; [by eapply Forall2_length |].
  intros j b fs Hj Hfs. pose proof (Forall2_lookup_lr _ _ _ _ _ _ Hl Hj Hfs) as Hlk.
  eapply is_list_frame; [|exact Hlk]. intros x (e & -> & He)%list_elem_of_fmap. apply Hsame.
  apply elem_of_concat_lookup. eauto.
Qed.

Lemma tbl_bucket w p bl ess i es :
  tbl w p bl ess -> ess !! i = Some es ->
  exists b, bl !! i = Some b /\ linked (w_nodes w) b es /\
    get_bucket w p (Z.of_nat i) = Ok b /\
    (forall (w' : world) b', w_buckets w' = w_buckets w ->
       set_bucket w' p (Z.of_nat i) b' =
         Ok (set_buckets w' (<[p := <[i := b']> bl]> (w_buckets w)))).
Proof.
  intros [Ha Hl Hh] Hi. destruct (Forall2_lookup_r _ _ _ _ _ Hl Hi) as (b & Hb & Hlk).
  exists b. split_and!; [done | done | |].
  - unfold get_bucket. rewrite Ha. cbn. by rewrite (proj2 (Z.leb_le 0 _)), Nat2Z.id, Hb by lia.
  - intros w' b' Hw'. unfold set_bucket. rewrite Hw', Ha. cbn. pose proof (lookup_lt_Some _ _ _ Hb).
    by rewrite (proj2 (Z.leb_le 0 _)), (proj2 (Z.ltb_lt _ _)), Nat2Z.id by lia.
Qed.

(** ** The search in a bucket *)

Lemma bucket_lookup_spec fuel w p es key :
  seg (w_nodes w) p (en_node <$> es) 0 -> 0 ∉ en_node <$> es -> (forall e, e ∈ es -> holds w e) ->
  (length es < fuel)%nat ->
  (exists l e r, es = l ++ e :: r /\ en_key e = key /\ (key ∉ keys l) /\
     bucket_lookup fuel w (first (en_node <$> es) 0) key = Ok (en_node e)) \/
  ((key ∉ keys es) /\ bucket_lookup fuel w (first (en_node <$> es) 0) key = Ok 0).
Proof.
  revert p es. induction fuel as [|fuel IH]; intros p es Hs H0 Hh Hf; [lia |].
  destruct es as [|e es]; cbn [bucket_lookup]; [right; split; [apply not_elem_of_nil | done] |].
  destruct Hs as [[v Hv] Hs]. rewrite fmap_cons in H0. change (first (en_node <$> e :: es) 0) with (en_node e).
  destruct (Hh e) as [Hn Hk]; [by left |]. rewrite Hv in Hn. injection Hn as ->.
  rewrite (proj2 (Z.eqb_neq (en_node e) 0)) by set_solver.
  rewrite Hv. cbn [negb deref mbind outcome_bind]. unfold node_kv. cbn [n_ptr]. rewrite Hk.
  cbn [deref mbind outcome_bind kv_key n_next].
  destruct (Z.eqb_spec (en_key e) key) as [He|Hne].
  - left. exists [], e, es. split_and!; [done | done | apply not_elem_of_nil | done].
  - destruct (IH (en_node e) es) as [(l & e' & r & -> & He' & Hni & Hl)|[Hni Hl]];
      [done | set_solver | intros; apply Hh; by right | simpl in Hf; lia | |].
    + left. exists (e :: l), e', r. split_and!; [done | done | | done].
      unfold keys in *. rewrite fmap_cons. set_solver.
    + right. split; [|done]. unfold keys in *. rewrite fmap_cons. set_solver.
Qed.

Lemma hash_table_bucket_lookup_spec w b es key :
  linked (w_nodes w) b es -> (forall e, e ∈ es -> holds w e) ->
  (exists l e r, es = l ++ e :: r /\ en_key e = key /\ (key ∉ keys l) /\
     hash_table_bucket_lookup w b key = Ok (en_node e)) \/
  ((key ∉ keys es) /\ hash_table_bucket_lookup w b key = Ok 0).
Proof.
  intros [Hs Hnd Hh Ht Hz Hl] Hholds. unfold hash_table_bucket_lookup. rewrite Hh, Hz.
  apply NoDup_cons in Hnd as [H0 _]. rewrite length_fmap, Nat2Z.id.
  apply (bucket_lookup_spec _ _ 0); [done | done | done | lia].
Qed.
End rep.
