(* ===== verification/HashTableSpec.v ===== *)
(** * Hash tables: the operations implement a finite map *)

From S2P Require Import Prelude.
From S2P Require Import Allocator.
From S2P Require Import LinkedList.
From S2P Require Import HashTable.
From S2P Require Import HashTableInv.

Section spec.
Context {A : Type} `{Allocator A}.
Abbreviation world := (world A).

(** The table [t] in memory [w]; [L] are the live blocks of the allocator. *)
Record ht_rep (w : world) (L : gmap Z Z) (t : hash_table_t) (bl : list linked_list_t)
    (ess : list (list entry)) : Prop := {
  hr_alive : alive (w_alloc w) L;
  hr_tbl : tbl w (ht_buckets t) bl ess;
  hr_num : ht_buckets_num t = Z.of_nat (length ess);
  hr_pos : 0 < ht_buckets_num t < 1073741824;
  hr_hash : hashed (ht_buckets_num t) ess;
  hr_keys : NoDup (keys (concat ess));
  hr_own : NoDup (ht_buckets t :: own (concat ess));
  hr_live : forall x, x ∈ ht_buckets t :: own (concat ess) -> is_Some (L !! x);
  hr_size : ht_size t = Z.of_nat (length (concat ess))
}.

(** The table represents the map [M]. *)
Definition ht_map (w : world) (L : gmap Z Z) (t : hash_table_t) (M : gmap Z Z) : Prop :=
  exists bl ess, ht_rep w L t bl ess /\ M = dict (concat ess).

Lemma rep_not_null w L t bl ess x :
  ht_rep w L t bl ess -> x ∈ ht_buckets t :: own (concat ess) -> x <> 0.
Proof.
  intros [] Hx. destruct (hr_live0 x Hx) as [n Hn].
  pose proof (alive_pos _ _ _ _ hr_alive0 Hn). lia.
Qed.

(** What the operations on a key see: its bucket, and in it the entry of the
    key or none. *)
Record at_key (w : world) (t : hash_table_t) (bl : list linked_list_t)
    (ess : list (list entry)) (key : Z) (i : nat) (es : list entry) (b : linked_list_t) : Prop := {
  ak_index : bucket_index t key = Z.of_nat i;
  ak_bucket : ess !! i = Some es;
  ak_lookup : bl !! i = Some b;
  ak_linked : linked (w_nodes w) b es;
  ak_get : get_bucket w (ht_buckets t) (Z.of_nat i) = Ok b;
  ak_set : forall (w' : world) b', w_buckets w' = w_buckets w ->
    set_bucket w' (ht_buckets t) (Z.of_nat i) b' =
      Ok (set_buckets w' (<[ht_buckets t := <[i := b']> bl]> (w_buckets w)));
  ak_holds : forall e, e ∈ es -> holds w e
}.

Lemma key_cases w L t bl ess key :
  ht_rep w L t bl ess ->
  exists i es b, at_key w t bl ess key i es b /\
    ((exists l e r, es = l ++ e :: r /\ en_key e = key /\
        hash_table_bucket_lookup w b key = Ok (en_node e) /\ en_node e <> 0 /\
        dict (concat ess) !! key = Some (en_v e)) \/
     (hash_table_bucket_lookup w b key = Ok 0 /\ dict (concat ess) !! key = None)).
Proof.
  intros Hrep. pose proof Hrep as []. set (i := Z.to_nat (key mod ht_buckets_num t)).
  assert (key mod ht_buckets_num t = Z.of_nat i /\ (i < length ess)%nat) as [Hi Hlt].
  { unfold i. pose proof (Z.mod_pos_bound key (ht_buckets_num t)). lia. }
  destruct (lookup_lt_is_Some_2 ess i Hlt) as [es Hes].
  destruct (tbl_bucket _ _ _ _ _ _ hr_tbl0 Hes) as (b & Hb & Hlk & Hg & Hs).
  assert (forall e, e ∈ es -> holds w e) as Hh.
  { intros e He. apply (tb_holds _ _ _ _ hr_tbl0). apply elem_of_concat_lookup. eauto. }
  exists i, es, b. split; [by constructor |].
  rewrite (dict_bucket _ _ _ _ _ hr_hash0 hr_keys0 Hes Hi).
  destruct (hash_table_bucket_lookup_spec w b es key Hlk Hh)
    as [(l & e & r & -> & He & Hni & Hl)|[Hni Hl]].
  - left. exists l, e, r. split_and!; try done.
    + apply (rep_not_null w L t bl ess); [done |]. right. apply own_node.
      apply elem_of_concat_lookup. exists i, (l ++ e :: r). split; [done | set_solver].
    + rewrite (concat_delete _ _ _ Hes) in hr_keys0. unfold keys in hr_keys0.
      rewrite fmap_app in hr_keys0. apply NoDup_app in hr_keys0 as [Hnd _].
      apply dict_lookup; [done |]. exists e. split; [set_solver | done].
  - right. split; [done |]. by apply dict_lookup_None.
Qed.

(** ** Lookups *)

Lemma hash_table_get_spec w L t M key :
  ht_map w L t M -> hash_table_get w t key = Ok (default 0 (M !! key)).
Proof.
  intros (bl & ess & Hrep & ->).
  destruct (key_cases w L t bl ess key Hrep) as (i & es & b & [] & Hc).
  unfold hash_table_get. rewrite ak_index0, ak_get0. cbn [mbind outcome_bind].
  destruct Hc as [(l & e & r & -> & He & -> & Hn0 & ->)|[-> ->]]; [|done].
  cbn [mbind outcome_bind]. rewrite (proj2 (Z.eqb_neq _ _)) by done.
  destruct (ak_holds0 e) as [Hn Hk]; [set_solver |].
  destruct (w_nodes w !! en_node e) as [n|]; [|done]. injection Hn as Hn.
  cbn [negb deref mbind outcome_bind]. unfold node_kv. by rewrite Hn, Hk.
Qed.

Lemma hash_table_contains_spec w L t M key :
  ht_map w L t M -> hash_table_contains w t key = Ok (bool_decide (is_Some (M !! key))).
Proof.
  intros (bl & ess & Hrep & ->).
  destruct (key_cases w L t bl ess key Hrep) as (i & es & b & [] & Hc).
  unfold hash_table_contains. rewrite ak_index0, ak_get0. cbn [mbind outcome_bind].
  destruct Hc as [(l & e & r & -> & He & -> & Hn0 & ->)|[-> ->]]; cbn [mbind outcome_bind].
  - by rewrite (proj2 (Z.eqb_neq _ _)), bool_decide_true by (done || by eexists).
  - rewrite bool_decide_false; [done | by intros [? ?]].
Qed.

(** ** Changing one bucket *)

(** The table after its bucket [i] was rewritten; what the operation has to
    show of the new memory. *)
Lemma rep_update w L t bl ess i es w' L' t' es' b' :
  ht_rep w L t bl ess -> ess !! i = Some es ->
  alive (w_alloc w') L' -> ht_buckets t' = ht_buckets t ->
  ht_buckets_num t' = ht_buckets_num t ->
  w_buckets w' !! ht_buckets t = Some (<[i := b']> bl) -> linked (w_nodes w') b' es' ->
  (forall e, e ∈ concat (delete i ess) -> w_nodes w' !! en_node e = w_nodes w !! en_node e) ->
  (forall e, e ∈ es' ++ concat (delete i ess) -> holds w' e) ->
  (forall e, e ∈ es' -> is_u32 (en_key e) /\ en_key e mod ht_buckets_num t = Z.of_nat i) ->
  NoDup (keys (es' ++ concat (delete i ess))) ->
  NoDup (ht_buckets t :: own (es' ++ concat (delete i ess))) ->
  (forall x, x ∈ ht_buckets t :: own (es' ++ concat (delete i ess)) -> is_Some (L' !! x)) ->
  ht_size t' = Z.of_nat (length (es' ++ concat (delete i ess))) ->
  ht_rep w' L' t' (<[i := b']> bl) (<[i := es']> ess) /\
  dict (concat (<[i := es']> ess)) = dict (es' ++ concat (delete i ess)).
Proof.
  intros [] Hi Ha Hp Hn Hb Hlk Hsame Hholds Hhash Hkeys Hown Hlive Hsize.
  pose proof (concat_insert ess i es es' Hi) as Hperm.
  split; [|by apply dict_perm; rewrite Hperm]. constructor.
  - done.
  - rewrite Hp. by eapply tbl_update.
  - by rewrite length_insert, Hn.
  - by rewrite Hn.
  - rewrite Hn. by eapply hashed_insert.
  - by rewrite Hperm.
  - by rewrite Hp, Hperm.
  - intros x Hx. apply Hlive. by rewrite Hp, Hperm in Hx.
  - by rewrite Hsize, Hperm.
Qed.

(** Nodes of other buckets are not among those of this one. *)
Lemma other_nodes p es rest e x :
  NoDup (p :: own (es ++ rest)) -> e ∈ rest -> x ∈ en_node <$> es -> en_node e <> x.
Proof.
  intros [_ Hnd]%NoDup_cons He Hx <-. unfold own in Hnd. rewrite fmap_app in Hnd.
  apply NoDup_app in Hnd as [Hnd _]. apply NoDup_app in Hnd as (_ & Hd & _).
  apply (Hd _ Hx). by apply list_elem_of_fmap_2.
Qed.

(** An entry and the others of its bucket and of the table. *)
Lemma split_entry (l r rest : list entry) e :
  (l ++ e :: r) ++ rest ≡ₚ e :: (l ++ r) ++ rest.
Proof. by rewrite <- Permutation_middle. Qed.

Lemma own_distinct p e (es : list entry) :
  NoDup (p :: own (e :: es)) ->
  p <> en_node e /\ p <> en_kv e /\ en_node e <> en_kv e /\
  (forall e', e' ∈ es -> en_node e' <> en_node e /\ en_kv e' <> en_kv e /\
                         en_node e' <> en_kv e /\ en_kv e' <> en_node e) /\
  NoDup (p :: own es).
Proof.
  rewrite own_cons, !NoDup_cons, !not_elem_of_cons. intros ((? & ? & ?) & (? & Hn) & Hk & Hnd).
  split_and!; try done. intros e' He'.
  pose proof (own_node _ _ He'). pose proof (own_kv _ _ He'). split_and!; congruence.
Qed.

(** ** [hash_table_put] *)

Lemma put_existing w L t bl ess key v i es b l e r :
  ht_rep w L t bl ess -> at_key w t bl ess key i es b ->
  es = l ++ e :: r -> en_key e = key ->
  hash_table_bucket_lookup w b key = Ok (en_node e) -> en_node e <> 0 ->
  exists w' bl' ess', hash_table_put w t key v = Ok (w', t, en_v e) /\
    ht_rep w' L t bl' ess' /\ dict (concat ess') = <[key := v]> (dict (concat ess)) /\
    own (concat ess') ≡ₚ own (concat ess).
Proof.
  intros Hrep [] -> He Hl Hn0. unfold hash_table_put. rewrite ak_index0, ak_get0.
  cbn [mbind outcome_bind]. rewrite Hl. cbn [mbind outcome_bind].
  rewrite (proj2 (Z.eqb_neq _ _)) by done. destruct (ak_holds0 e) as [Hn Hk]; [set_solver |].
  destruct (w_nodes w !! en_node e) as [n|] eqn:Hne; [|done]. injection Hn as Hn.
  cbn [negb deref mbind outcome_bind]. unfold node_kv. rewrite Hn, Hk. cbn [deref mbind outcome_bind kv_key kv_v_ptr].
  eexists _, _, _. split; [done |]. pose proof Hrep as [].
  pose proof (concat_delete _ _ _ ak_bucket0) as Hperm. set (rest := concat (delete i ess)) in *.
  rewrite split_entry in Hperm. set (others := (l ++ r) ++ rest) in *.
  assert ((l ++ en_set_v e v :: r) ++ rest ≡ₚ en_set_v e v :: others) as Hperm' by apply split_entry.
  assert (NoDup (ht_buckets t :: own (e :: others))) as Hown by by rewrite <- Hperm.
  destruct (own_distinct _ _ _ Hown) as (_ & _ & _ & Hd & _).
  destruct (rep_update w L t bl ess i (l ++ e :: r)
    (set_kvs w (<[en_kv e := KV (en_key e) v]> (w_kvs w))) L t (l ++ en_set_v e v :: r) b)
    as [Hrep' Hdict]; try done.
  - cbn. rewrite list_insert_id by done. apply (tb_array _ _ _ _ hr_tbl0).
  - unfold linked in *. by rewrite fmap_app, fmap_cons in ak_linked0 |- *.
  - fold rest. intros e' He'. rewrite Hperm' in He'. apply elem_of_cons in He' as [->|He'].
    + split; cbn; [by rewrite Hne; cbn; rewrite Hn | by rewrite lookup_insert_eq].
    + destruct (tb_holds _ _ _ _ hr_tbl0 e') as [Hn' Hk']; [rewrite Hperm; by right |].
      split; [done |]. cbn. rewrite lookup_insert_ne; [done |]. destruct (Hd e' He') as (_ & Hkk & _); congruence.
  - intros e' He'. assert (exists e2, e2 ∈ l ++ e :: r /\ en_key e2 = en_key e') as (e2 & He2 & <-).
    { rewrite elem_of_app, elem_of_cons in He'. destruct He' as [He'|[->|He']];
        [exists e' | exists e | exists e']; (split; [|done]); set_solver. }
    by eapply hr_hash0.
  - fold rest. rewrite Hperm'. by rewrite Hperm in hr_keys0.
  - fold rest. rewrite Hperm'. done.
  - fold rest. intros x Hx. apply hr_live0. rewrite Hperm. by rewrite Hperm' in Hx.
  - fold rest. rewrite hr_size0, Hperm, Hperm'. done.
  - split; [exact Hrep' |]. split.
    2: { rewrite (concat_insert _ _ _ _ ak_bucket0), Hperm. fold rest. by rewrite Hperm', !own_cons. }
    fold rest in Hdict. rewrite Hdict. rewrite (dict_perm _ _ hr_keys0 Hperm).
    rewrite (dict_perm ((l ++ en_set_v e v :: r) ++ rest) (en_set_v e v :: others)); [|by rewrite Hperm'; rewrite Hperm in hr_keys0 | done].
    rewrite !dict_cons, He. cbn [en_set_v en_key en_v]. rewrite He. by rewrite insert_insert_eq.
Qed.

Lemma put_new_spec w L t bl ess key v i es b :
  ht_rep w L t bl ess -> at_key w t bl ess key i es b -> is_u32 key ->
  dict (concat ess) !! key = None -> Z.of_nat (size L) + 1 < capacity ->
  NODE_SIZE < request_limit -> ht_size t < 2147483647 ->
  put_new w t (Z.of_nat i) b key v = Panic \/
  exists w' L' t' bl' ess', put_new w t (Z.of_nat i) b key v = Ok (w', t') /\
    ht_rep w' L' t' bl' ess' /\ dict (concat ess') = <[key := v]> (dict (concat ess)) /\
    size L' = (size L + 2)%nat /\ ht_size t' = ht_size t + 1 /\
    ht_buckets_num t' = ht_buckets_num t /\ ht_buckets t' = ht_buckets t /\
    exists p q k k', concat ess' ≡ₚ En q p key v :: concat ess /\
      L !! p = None /\ L !! q = None /\ p <> q /\ L' = <[q := k]> (<[p := k']> L).
Proof.
  intros Hrep [] Hkey Hnone Hc Hr Hsz. pose proof Hrep as []. unfold put_new.
  destruct (malloc_law (w_alloc w) L KV_SIZE hr_alive0)
    as [->|(a1 & p & k1 & -> & Hp & _ & Ha1)]; [lia | unfold KV_SIZE, NODE_SIZE in *; lia | by left |].
  cbn [mbind outcome_bind set_kvs set_alloc w_alloc w_nodes].
  pose proof (concat_delete _ _ _ ak_bucket0) as Hperm. set (rest := concat (delete i ess)) in *.
  assert (forall x, x ∈ ht_buckets t :: own (es ++ rest) -> is_Some (L !! x)) as Hlive
    by (intros x Hx; apply hr_live0; by rewrite Hperm).
  assert (forall x, x ∈ ht_buckets t :: own (es ++ rest) -> is_Some (<[p := k1]> L !! x) /\ x <> p) as Hlive1.
  { intros x Hx. destruct (Hlive x Hx) as [n Hn]. assert (x <> p) by (intros ->; congruence).
    by rewrite lookup_insert_ne by done. }
  destruct (linked_list_append_ele_spec a1 (<[p := k1]> L) (w_nodes w) b (en_node <$> es) p Ha1)
    as [->|(a2 & st2 & b2 & q & k2 & -> & Hq & Ha2 & Hb2 & Hnq & Hno & Hns)];
    [rewrite map_size_insert_None by done; lia | done | done | | | by left | right].
  { intros x Hx. apply Hlive1. right. unfold own. rewrite fmap_app. set_solver. }
  { rewrite length_fmap. rewrite Hperm, length_app in hr_size0. lia. }
  assert (p <> q) as Hpq by (intros ->; by rewrite lookup_insert_eq in Hq).
  assert (forall x, x ∈ ht_buckets t :: own (es ++ rest) -> x <> q) as Hq'
    by (intros x Hx ->; destruct (Hlive1 q Hx) as [[? ?] _]; congruence).
  cbn [mbind outcome_bind].
  rewrite ak_set0 by done. cbn [mbind outcome_bind set_buckets set_nodes set_alloc w_alloc w_nodes w_kvs].
  rewrite s32_small by (unfold is_s32; lia). set (e := En q p key v).
  assert ((es ++ [e]) ++ rest ≡ₚ e :: es ++ rest) as Hperm' by (rewrite <- app_assoc; symmetry; apply Permutation_middle).
  assert (NoDup (keys (e :: es ++ rest))) as Hnk.
  { unfold keys. rewrite fmap_cons. apply NoDup_cons. split; [|by rewrite <- Hperm].
    fold (keys (es ++ rest)). rewrite <- Hperm. by apply dict_lookup_None. }
  destruct (rep_update w L t bl ess i es
    {| w_alloc := a2; w_nodes := st2; w_kvs := <[p := KV key v]> (w_kvs w);
       w_buckets := <[ht_buckets t := <[i := b2]> bl]> (w_buckets w) |}
    (<[q := k2]> (<[p := k1]> L)) (HT (ht_buckets t) (ht_buckets_num t) (ht_size t + 1)) (es ++ [e]) b2)
    as [Hrep' Hdict]; try done; try fold rest.
  - cbn. by rewrite lookup_insert_eq.
  - unfold linked. by rewrite fmap_app.
  - intros e' He'. cbn. apply Hns. rewrite not_elem_of_cons. split.
    + apply Hq'. right. apply own_node. set_solver.
    + intros Hin. rewrite Hperm in hr_own0. by apply (other_nodes _ _ _ e' _ hr_own0 He' Hin).
  - intros e' He'. rewrite Hperm' in He'. apply elem_of_cons in He' as [->|He'].
    + split; cbn; [done | by rewrite lookup_insert_eq].
    + destruct (tb_holds _ _ _ _ hr_tbl0 e') as [Hn' Hk']; [by rewrite Hperm |].
      split; cbn.
      * rewrite Hno; [done |]. apply Hq'. right. by apply own_node.
      * rewrite lookup_insert_ne; [done |]. apply not_eq_sym, Hlive1. right. by apply own_kv.
  - intros e' [He'|He']%elem_of_app; [by eapply hr_hash0 |].
    apply list_elem_of_singleton in He' as ->. split; [done | exact ak_index0].
  - by rewrite Hperm'.
  - rewrite Hperm', own_cons. rewrite Hperm in hr_own0. apply NoDup_cons in hr_own0 as [Hn1 Hn2].
    assert (ht_buckets t <> q /\ ht_buckets t <> p) as [? ?]
      by (split; [apply Hq'; by left | apply Hlive1; by left]).
    rewrite !NoDup_cons, !not_elem_of_cons. split_and!; try done.
    + intros Hin. by apply (Hq' q); [right |].
    + intros Hin. by destruct (Hlive1 p) as [_ ?]; [right |].
  - intros x Hx. rewrite Hperm', own_cons, !elem_of_cons in Hx.
    destruct (decide (x = q)) as [->|]; [rewrite lookup_insert_eq; by eexists |].
    rewrite lookup_insert_ne by done.
    destruct (decide (x = p)) as [->|]; [rewrite lookup_insert_eq; by eexists |].
    rewrite lookup_insert_ne by done. apply Hlive. rewrite elem_of_cons. cbn in Hx. tauto.
  - cbn [ht_size]. rewrite hr_size0, Hperm, Hperm'. simpl. lia.
  - eexists _, _, _, _, _. split; [done |]. split; [exact Hrep' |]. split; [|split; [|split; [done | split; [done | split; [done |]]]]].
    3: { exists p, q, k2, k1. split_and!; try done; [|by rewrite lookup_insert_ne in Hq].
         rewrite (concat_insert _ _ _ _ ak_bucket0), Hperm. exact Hperm'. }
    + fold rest in Hdict. rewrite Hdict, (dict_perm ((es ++ [e]) ++ rest) (e :: es ++ rest)) by (done || by rewrite Hperm').
      rewrite dict_cons. f_equal. symmetry. by apply dict_perm.
    + rewrite !map_size_insert_None by done. lia.
Qed.

(** ** [hash_table_remove] *)

(** The map without an entry. *)
Lemma dict_delete e es : NoDup (keys (e :: es)) -> dict es = delete (en_key e) (dict (e :: es)).
Proof.
  intros Hnd. rewrite dict_cons, delete_insert_eq, delete_id; [done |].
  apply dict_lookup_None. by apply NoDup_cons in Hnd as [? _].
Qed.

(** Freeing the pair and the node of an entry. *)
Lemma free_entry w L p e es :
  alive (w_alloc w) L -> NoDup (p :: own (e :: es)) ->
  (forall x, x ∈ p :: own (e :: es) -> is_Some (L !! x)) ->
  exists a L', alive a L' /\ (S (S (size L')) = size L)%nat /\
    (w ← free_kv w (en_kv e); free_node w (en_node e)) =
      Ok {| w_alloc := a; w_nodes := delete (en_node e) (w_nodes w);
            w_kvs := delete (en_kv e) (w_kvs w); w_buckets := w_buckets w |} /\
    L' = delete (en_node e) (delete (en_kv e) L) /\
    (forall x, x ∈ p :: own es -> is_Some (L' !! x)).
Proof.
  intros Ha Hnd Hl. destruct (own_distinct _ _ _ Hnd) as (Hp1 & Hp2 & Hne & _ & _).
  rewrite own_cons, !NoDup_cons, !not_elem_of_cons in Hnd.
  destruct Hnd as (_ & [_ Hnn] & Hnk & _). setoid_rewrite own_cons in Hl.
  destruct (Hl (en_kv e)) as [k1 Hk1]; [right; right; by left |].
  destruct (Hl (en_node e)) as [k2 Hk2]; [right; by left |].
  destruct (free_law _ _ _ _ Ha Hk1) as (a1 & He1 & Ha1).
  assert (delete (en_kv e) L !! en_node e = Some k2) as Hk2' by by rewrite lookup_delete_ne.
  destruct (free_law _ _ _ _ Ha1 Hk2') as (a2 & He2 & Ha2).
  exists a2, (delete (en_node e) (delete (en_kv e) L)). split_and!; try done.
  - rewrite map_size_delete, Hk2', map_size_delete, Hk1.
    assert (size L <> 0 /\ size (delete (en_kv e) L) <> 0)%nat as [? Hd].
    { split; apply map_size_non_empty_iff; intros Heq; [by rewrite Heq in Hk1 | by rewrite Heq in Hk2']. }
    rewrite map_size_delete, Hk1 in Hd. lia.
  - unfold free_kv, free_node. rewrite He1. cbn. by rewrite He2.
  - intros x Hx. rewrite lookup_delete_ne, lookup_delete_ne.
    + apply Hl. rewrite !elem_of_cons in *. tauto.
    + intros <-. apply elem_of_cons in Hx as [|]; [by apply Hp2 | done].
    + intros <-. apply elem_of_cons in Hx as [|]; [by apply Hp1 | done].
Qed.

Lemma remove_existing w L t bl ess key i es b l e r :
  ht_rep w L t bl ess -> at_key w t bl ess key i es b -> ht_size t < 2147483648 ->
  es = l ++ e :: r -> en_key e = key ->
  hash_table_bucket_lookup w b key = Ok (en_node e) -> en_node e <> 0 ->
  exists w' L' t' bl' ess', hash_table_remove w t key = Ok (w', t', en_v e) /\
    ht_rep w' L' t' bl' ess' /\ dict (concat ess') = delete key (dict (concat ess)) /\
    (S (S (size L')) = size L)%nat /\ ht_size t' = ht_size t - 1 /\
    ht_buckets_num t' = ht_buckets_num t /\ ht_buckets t' = ht_buckets t /\
    own (concat ess) ≡ₚ en_node e :: en_kv e :: own (concat ess') /\
    L' = delete (en_node e) (delete (en_kv e) L).
Proof.
  intros Hrep [] Hs -> He Hl Hn0. pose proof Hrep as [].
  pose proof (concat_delete _ _ _ ak_bucket0) as Hperm. set (rest := concat (delete i ess)) in *.
  rewrite split_entry in Hperm. set (others := (l ++ r) ++ rest) in *.
  assert (NoDup (ht_buckets t :: own (e :: others))) as Hown by by rewrite <- Hperm.
  destruct (own_distinct _ _ _ Hown) as (_ & _ & _ & Hd & Hown').
  unfold hash_table_remove. rewrite ak_index0, ak_get0. cbn [mbind outcome_bind].
  rewrite Hl. cbn [mbind outcome_bind]. rewrite (proj2 (Z.eqb_neq _ _)) by done. cbn [negb].
  unfold linked in ak_linked0. rewrite fmap_app, fmap_cons in ak_linked0.
  destruct (linked_list_remove_spec _ _ _ _ _ ak_linked0) as (st' & b' & -> & Hb' & Hrel & Hsame).
  cbn [mbind outcome_bind]. rewrite ak_set0 by done. cbn [mbind outcome_bind set_buckets set_nodes w_nodes].
  rewrite Hsame. destruct (ak_holds0 e) as [Hn Hk]; [set_solver |].
  destruct (w_nodes w !! en_node e) as [n|] eqn:Hne; [|done]. injection Hn as Hn.
  cbn [deref mbind outcome_bind]. unfold node_kv. cbn [set_buckets set_nodes w_kvs]. rewrite Hn, Hk.
  cbn [deref mbind outcome_bind kv_v_ptr].
  set (w1 := {| w_alloc := w_alloc w; w_nodes := st'; w_kvs := w_kvs w;
                w_buckets := <[ht_buckets t := <[i := b']> bl]> (w_buckets w) |}).
  destruct (free_entry w1 L (ht_buckets t) e others)
    as (a' & L' & Ha' & HsL & Hfree & HL' & Hlive); [done | done | intros x Hx; apply hr_live0; by rewrite Hperm |].
  change (free_kv _ (en_kv e)) with (free_kv w1 (en_kv e)).
  rewrite <- (bind_assoc (free_kv w1 (en_kv e)) (fun w => free_node w (en_node e))), Hfree.
  cbn [mbind outcome_bind]. rewrite s32_small by (unfold is_s32; lia).
  destruct (rep_update w L t bl ess i (l ++ e :: r)
    {| w_alloc := a'; w_nodes := delete (en_node e) st'; w_kvs := delete (en_kv e) (w_kvs w);
       w_buckets := <[ht_buckets t := <[i := b']> bl]> (w_buckets w) |} L'
    (HT (ht_buckets t) (ht_buckets_num t) (ht_size t - 1)) (l ++ r) b') as [Hrep' Hdict];
    try done; try (fold rest; fold others).
  - cbn. by rewrite lookup_insert_eq.
  - cbn. unfold linked. rewrite fmap_app. eapply is_list_frame; [|exact Hb'].
    intros x Hx. apply lookup_delete_ne. rewrite <- fmap_app in Hx.
    apply list_elem_of_fmap in Hx as (e' & -> & He'). apply not_eq_sym, Hd.
    unfold others. set_solver.
  - intros e' He'. cbn. rewrite lookup_delete_ne by (apply not_eq_sym, Hd; set_solver).
    apply Hrel. rewrite <- fmap_app. intros (e2 & Heq & He2)%list_elem_of_fmap.
    apply NoDup_cons in Hown' as [_ Hnd]. unfold own, others in Hnd. rewrite !fmap_app in Hnd.
    apply NoDup_app in Hnd as [Hnd _]. rewrite <- fmap_app in Hnd.
    apply NoDup_app in Hnd as (_ & Hdis & _). apply (Hdis (en_node e')).
    + rewrite Heq. by apply list_elem_of_fmap_2.
    + by apply list_elem_of_fmap_2.
  - intros e' He'. destruct (Hd e' He') as (Hd1 & Hd2 & _ & _).
    destruct (tb_holds _ _ _ _ hr_tbl0 e') as [Hn' Hk']; [rewrite Hperm; by right |].
    split; cbn; rewrite lookup_delete_ne by congruence; [|done]. destruct Hrel as [Hrel _].
    by rewrite Hrel.
  - intros e' He'. eapply hr_hash0; [done |]. set_solver.
  - rewrite Hperm in hr_keys0. unfold keys in hr_keys0. rewrite fmap_cons in hr_keys0.
    by apply NoDup_cons in hr_keys0 as [_ ?].
  - cbn. rewrite hr_size0, Hperm. simpl. lia.
  - eexists _, L', _, _, _. split; [done |]. split; [exact Hrep' |].
    split; [|split_and!; try done; rewrite (concat_insert _ _ _ _ ak_bucket0), Hperm; apply own_cons].
    rewrite Hdict. fold rest. fold others.
    rewrite (dict_delete e others) by by rewrite <- Hperm. rewrite He. f_equal.
    symmetry. by apply dict_perm.
Qed.
End spec.
