(* ===== verification/HashTableExpand.v ===== *)
(** * Hash tables: expansion

    [hash_table_expand] moves every node from the old array of buckets to one
    of twice the size: the map stays the same. *)

From S2P Require Import Prelude.
From S2P Require Import Allocator.
From S2P Require Import LinkedList.
From S2P Require Import HashTable.
From S2P Require Import HashTableInv.
From S2P Require Import HashTableSpec.

Section expand.
Context {A : Type} `{Allocator A}.
Abbreviation world := (world A).

(** In the middle of the expansion: the array [po] holds the buckets [olds],
    the array [pn] of [n] buckets those already moved. *)
Record moving (w : world) (L : gmap Z Z) (po : Z) (obl : list linked_list_t)
    (olds : list (list entry)) (pn : Z) (nbl : list linked_list_t) (news : list (list entry))
    (n : Z) : Prop := {
  mv_alive : alive (w_alloc w) L;
  mv_old : tbl w po obl olds;
  mv_new : tbl w pn nbl news;
  mv_ne : po <> pn;
  mv_num : n = Z.of_nat (length news);
  mv_hash : hashed n news;
  mv_u : forall e, e ∈ concat olds -> is_u32 (en_key e);
  mv_own : NoDup (own (concat olds ++ concat news));
  mv_live : forall x, x ∈ po :: pn :: own (concat olds ++ concat news) -> is_Some (L !! x);
  mv_len : Z.of_nat (length (concat olds ++ concat news)) < 2147483648
}.

Lemma NoDup_nodes es : NoDup (own es) -> NoDup (en_node <$> es).
Proof. intros Hnd. by apply NoDup_app in Hnd as [? _]. Qed.

(** Taking the first node off bucket [i] of the table at [p]. *)
Lemma unlink_first (w : world) p bl ess i e es b :
  tbl w p bl ess -> ess !! i = Some (e :: es) -> linked (w_nodes w) b (e :: es) ->
  NoDup (en_node <$> e :: es ++ concat (delete i ess)) ->
  exists st' b', linked_list_remove (w_nodes w) b (en_node e) = Ok (st', b') /\
    st' !! en_node e = w_nodes w !! en_node e /\
    relinked (w_nodes w) st' (en_node <$> es) /\
    (forall (w' : world), w_nodes w' = st' -> w_kvs w' = w_kvs w ->
       w_buckets w' !! p = Some (<[i := b']> bl) -> tbl w' p (<[i := b']> bl) (<[i := es]> ess)).
Proof.
  intros Ht Hi Hlk Hnd.
  destruct (linked_list_remove_spec _ _ [] _ _ Hlk) as (st' & b' & He & Hb' & Hrel & Hsame).
  exists st', b'. split_and!; try done. intros w' Hn Hk Hb.
  rewrite fmap_cons, fmap_app in Hnd. apply NoDup_cons in Hnd as [_ (_ & Hd & _)%NoDup_app].
  eapply tbl_update; [done | done | done | by rewrite Hn | |].
  - intros e' He'. rewrite Hn. apply Hrel. intros Hin. apply (Hd _ Hin). by apply list_elem_of_fmap_2.
  - intros e' He'. eapply holds_relinked; [exact Hrel | done | done |].
    apply (tb_holds _ _ _ _ Ht). rewrite (concat_delete _ _ _ Hi). by right.
Qed.

(** Appending the node of an entry to bucket [j] of the table at [p]. *)
Lemma link_last (w : world) p bl ess j e es b :
  tbl w p bl ess -> ess !! j = Some es -> linked (w_nodes w) b es -> holds w e ->
  en_node e <> 0 -> NoDup (en_node <$> e :: es ++ concat (delete j ess)) ->
  Z.of_nat (length es) < 4294967295 ->
  exists st' b', linked_list_append (w_nodes w) b (en_node e) = Ok (st', b') /\
    relinked (w_nodes w) st' (en_node <$> e :: es) /\
    (forall (w' : world), w_nodes w' = st' -> w_kvs w' = w_kvs w ->
       w_buckets w' !! p = Some (<[j := b']> bl) ->
       tbl w' p (<[j := b']> bl) (<[j := es ++ [e]]> ess)).
Proof.
  intros Ht Hj Hlk Hh H0 Hnd Hlen. rewrite fmap_cons, fmap_app in Hnd.
  apply NoDup_cons in Hnd as [Hni (_ & Hd & _)%NoDup_app].
  destruct (linked_list_append_spec (w_nodes w) b (en_node <$> es) (en_node e) Hlk H0)
    as (st' & b' & He & Hb' & Hrel).
  - set_solver.
  - destruct Hh as [Hh _]. destruct (w_nodes w !! en_node e); [by eexists | done].
  - by rewrite length_fmap.
  - exists st', b'. split_and!; try done. intros w' Hn Hk Hb.
    eapply tbl_update; [done | done | done | | |].
    + rewrite Hn. unfold linked. by rewrite fmap_app.
    + intros e' He'. rewrite Hn. apply Hrel. apply not_elem_of_cons.
      pose proof (list_elem_of_fmap_2 en_node _ _ He'). split.
      * intros Heq. apply Hni. rewrite <- Heq. set_solver.
      * intros Hin. by apply (Hd _ Hin).
    + intros e' He'. eapply holds_relinked; [exact Hrel | done | done |].
      rewrite <- app_assoc in He'. apply elem_of_app in He' as [He'|[->%list_elem_of_singleton|He']%elem_of_app];
        [| done |]; apply (tb_holds _ _ _ _ Ht); rewrite (concat_delete _ _ _ Hj); set_solver.
Qed.

(** A table the nodes of which are not among those relinked. *)
Lemma tbl_relinked (w w' : world) p bl ess xs :
  tbl w p bl ess -> relinked (w_nodes w) (w_nodes w') xs -> w_kvs w' = w_kvs w ->
  w_buckets w' !! p = w_buckets w !! p ->
  (forall e, e ∈ concat ess -> en_node e ∉ xs) -> tbl w' p bl ess.
Proof.
  intros Ht Hrel Hk Hb Hni. eapply tbl_frame; [done | done | |].
  - intros e He. apply Hrel. by apply Hni.
  - intros e He. eapply holds_relinked; [exact Hrel | done | done |]. by apply (tb_holds _ _ _ _ Ht).
Qed.

Lemma NoDup_part (es fs gs : list entry) :
  NoDup (en_node <$> es) -> es ≡ₚ fs ++ gs -> NoDup (en_node <$> fs) /\
    (forall e, e ∈ gs -> en_node e ∉ en_node <$> fs).
Proof.
  intros Hnd Hp. rewrite Hp, fmap_app in Hnd. apply NoDup_app in Hnd as (Hnd & Hd & _).
  split; [done |]. intros e He Hin. apply (Hd _ Hin). by apply list_elem_of_fmap_2.
Qed.

(** One turn of [move_nodes]. *)
Lemma move_step w L po obl olds pn nbl news n i e es :
  moving w L po obl olds pn nbl news n -> olds !! i = Some (e :: es) -> 0 < n ->
  exists w' obl' nbl' news',
    (forall fuel, move_nodes (S fuel) w po (Z.of_nat i) pn n (en_node e) =
       move_nodes fuel w' po (Z.of_nat i) pn n (first (en_node <$> es) 0)) /\
    moving w' L po obl' (<[i := es]> olds) pn nbl' news' n /\
    concat (<[i := es]> olds) ++ concat news' ≡ₚ concat olds ++ concat news.
Proof.
  intros Hm Hi Hn. pose proof Hm as [].
  destruct (tbl_bucket _ _ _ _ _ _ mv_old0 Hi) as (b & Hb & Hlk & Hg & Hset).
  set (j := Z.to_nat (en_key e mod n)).
  assert (en_key e mod n = Z.of_nat j /\ (j < length news)%nat) as [Hj Hjlt].
  { unfold j. pose proof (Z.mod_pos_bound (en_key e) n). lia. }
  destruct (lookup_lt_is_Some_2 news j Hjlt) as [js Hjs].
  pose proof (concat_delete _ _ _ Hi) as Hpo. pose proof (concat_delete _ _ _ Hjs) as Hpn.
  set (orest := concat (delete i olds)) in *. set (nrest := concat (delete j news)) in *.
  assert (concat olds ++ concat news ≡ₚ e :: es ++ orest ++ js ++ nrest) as Hall.
  { rewrite Hpo, Hpn. by rewrite <- !app_assoc. }
  assert (NoDup (en_node <$> e :: es ++ orest ++ js ++ nrest)) as Hnd
    by (apply NoDup_nodes; by rewrite <- Hall).
  assert (en_node e <> 0) as He0.
  { destruct (mv_live0 (en_node e)) as [k Hk].
    - rewrite Hall, own_cons. do 2 right. by left.
    - pose proof (alive_pos _ _ _ _ mv_alive0 Hk). lia. }
  destruct (NoDup_part _ (e :: es ++ orest) (js ++ nrest) Hnd) as [Hndo Hdo];
    [by rewrite <- app_comm_cons, <- app_assoc |].
  destruct (NoDup_part _ (e :: js ++ nrest) (es ++ orest) Hnd) as [Hndn Hdn]; [solve_Permutation |].
  assert (holds w e) as [Hhn Hhk] by (apply (tb_holds _ _ _ _ mv_old0); rewrite Hpo; by left).
  destruct (unlink_first w po obl olds i e es b mv_old0 Hi Hlk Hndo)
    as (st1 & b1 & Hrm & Hsame & Hrel1 & Hold1).
  set (w1 := set_buckets (set_nodes w st1) (<[po := <[i := b1]> obl]> (w_buckets w))).
  assert (tbl w1 po (<[i := b1]> obl) (<[i := es]> olds)) as Ho1
    by (apply Hold1; [done | done | cbn; by rewrite lookup_insert_eq]).
  assert (tbl w1 pn nbl news) as Hn1.
  { eapply tbl_relinked; [exact mv_new0 | exact Hrel1 | done | cbn; by rewrite lookup_insert_ne |].
    intros e' He'. rewrite Hpn in He'. pose proof (Hdo e' He') as Hx.
    rewrite fmap_cons, fmap_app in Hx. set_solver. }
  assert (holds w1 e) as Hh1 by (eapply holds_relinked; [exact Hrel1 | done | done | done]).
  destruct (tbl_bucket _ _ _ _ _ _ Hn1 Hjs) as (t & Ht & Htl & Htg & Htset).
  destruct (link_last w1 pn nbl news j e js t Hn1 Hjs Htl Hh1 He0 Hndn)
    as (st2 & b2 & Hap & Hrel2 & Hnew2).
  { rewrite Hall in mv_len0. simpl in mv_len0. rewrite !length_app in mv_len0. lia. }
  set (w2 := set_buckets (set_nodes w1 st2) (<[pn := <[j := b2]> nbl]> (w_buckets w1))).
  exists w2, (<[i := b1]> obl), (<[j := b2]> nbl), (<[j := js ++ [e]]> news).
  assert (concat (<[i := es]> olds) ++ concat (<[j := js ++ [e]]> news) ≡ₚ
          concat olds ++ concat news) as Hperm.
  { rewrite (concat_insert _ _ _ _ Hi), (concat_insert _ _ _ _ Hjs), Hpo, Hpn.
    fold orest nrest. solve_Permutation. }
  split; [|split; [|done]].
  - intros fuel. destruct Hlk as [[[v Hv] _] _ _ _ _ _]. rewrite Hv in Hhn. injection Hhn as ->.
    cbn [move_nodes]. rewrite (proj2 (Z.eqb_neq _ _)) by done. rewrite Hv.
    cbn [negb deref mbind outcome_bind]. unfold node_kv. cbn [n_ptr]. rewrite Hhk.
    cbn [deref mbind outcome_bind]. rewrite Hg. cbn [mbind outcome_bind]. rewrite Hrm.
    cbn [mbind outcome_bind]. rewrite Hset by done. cbn [mbind outcome_bind]. cbn [kv_key].
    rewrite Hj. fold w1. change (set_buckets (set_nodes w st1) _) with w1. rewrite Htg.
    cbn [mbind outcome_bind]. rewrite Hap. cbn [mbind outcome_bind]. rewrite Htset by done. done.
  - constructor; try done.
    + eapply tbl_relinked; [exact Ho1 | exact Hrel2 | done | cbn; by rewrite lookup_insert_ne |].
      intros e' He'. rewrite (concat_insert _ _ _ _ Hi) in He'. pose proof (Hdn e' He') as Hx.
      rewrite fmap_cons, fmap_app in Hx. rewrite fmap_cons. set_solver.
    + apply Hnew2; [done | done |]. cbn. by rewrite lookup_insert_eq.
    + by rewrite length_insert.
    + eapply hashed_insert; [done | done |]. intros e' [He'|He']%elem_of_app; [by eapply mv_hash0 |].
      apply list_elem_of_singleton in He' as ->. split; [|done]. apply mv_u0. rewrite Hpo. by left.
    + intros e' He'. apply mv_u0. rewrite (concat_insert _ _ _ _ Hi) in He'. rewrite Hpo. by right.
    + by rewrite Hperm.
    + intros x Hx. apply mv_live0. by rewrite Hperm in Hx.
    + by rewrite Hperm.
Qed.

Lemma move_nodes_spec fuel w L po obl olds pn nbl news n i es :
  moving w L po obl olds pn nbl news n -> olds !! i = Some es -> 0 < n -> (length es < fuel)%nat ->
  exists w' obl' nbl' news',
    move_nodes fuel w po (Z.of_nat i) pn n (first (en_node <$> es) 0) = Ok w' /\
    moving w' L po obl' (<[i := []]> olds) pn nbl' news' n /\
    concat (<[i := []]> olds) ++ concat news' ≡ₚ concat olds ++ concat news.
Proof.
  revert fuel w obl olds nbl news. induction es as [|e es IH]; intros fuel w obl olds nbl news Hm Hi Hn Hf;
    (destruct fuel as [|fuel]; [simpl in Hf; lia |]).
  - exists w, obl, nbl, news. rewrite list_insert_id by done. done.
  - destruct (move_step _ _ _ _ _ _ _ _ _ _ _ _ Hm Hi Hn) as (w1 & obl1 & nbl1 & news1 & He & Hm1 & Hp1).
    destruct (IH fuel w1 obl1 (<[i := es]> olds) nbl1 news1) as (w2 & obl2 & nbl2 & news2 & He2 & Hm2 & Hp2);
      [done | by rewrite list_lookup_insert_eq by (by eapply lookup_lt_Some) | done | simpl in Hf; lia |].
    rewrite list_insert_insert_eq in Hm2, Hp2. exists w2, obl2, nbl2, news2. split_and!; [|done|].
    + change (first (en_node <$> e :: es) 0) with (en_node e). by rewrite He.
    + by rewrite Hp2.
Qed.

Lemma concat_nil_replicate n : concat (replicate n (@nil entry)) = [].
Proof. induction n; [done | simpl; done]. Qed.

Lemma tbl_fresh (w : world) p n :
  w_buckets w !! p = Some (replicate n linked_list_init) ->
  tbl w p (replicate n linked_list_init) (replicate n []).
Proof.
  intros Hp. constructor; [done | |].
  - apply Forall2_replicate. apply is_list_empty.
  - intros e He. rewrite concat_nil_replicate in He. by apply elem_of_nil in He.
Qed.

Lemma hashed_fresh n k : hashed k (replicate n []).
Proof.
  intros i es e Hi He. apply lookup_replicate in Hi as [-> _]. by apply elem_of_nil in He.
Qed.

(** A fresh array of empty buckets. *)
Lemma new_buckets_spec (w : world) L n :
  alive (w_alloc w) L -> Z.of_nat (size L) < capacity -> 0 < n ->
  n * LIST_SIZE < request_limit -> n * LIST_SIZE < 4294967296 ->
  new_buckets w n = Panic \/
  exists a p k, new_buckets w n =
      Ok (set_buckets (set_alloc w a)
            (<[p := replicate (Z.to_nat n) linked_list_init]> (w_buckets w)), p) /\
    L !! p = None /\ alive a (<[p := k]> L).
Proof.
  intros Ha Hc Hn Hr Hw. unfold new_buckets.
  rewrite u32_small by (unfold LIST_SIZE in *; lia).
  destruct (malloc_law (w_alloc w) L (n * LIST_SIZE) Ha Hc) as [->|(a & p & k & -> & Hp & _ & Ha')];
    [unfold LIST_SIZE in *; lia | by left | right]. by exists a, p, k.
Qed.

(** Before the loop: nothing moved yet. *)
Lemma moving_start w L t bl ess a p k n :
  ht_rep w L t bl ess -> ht_size t < 2147483648 -> L !! p = None -> alive a (<[p := k]> L) -> 0 < n ->
  moving (set_buckets (set_alloc w a)
            (<[p := replicate (Z.to_nat n) linked_list_init]> (w_buckets w)))
    (<[p := k]> L) (ht_buckets t) bl ess p
    (replicate (Z.to_nat n) linked_list_init) (replicate (Z.to_nat n) []) n.
Proof.
  intros [] Hs Hp Ha Hn.
  assert (ht_buckets t <> p) as Hne.
  { intros <-. destruct (hr_live (ht_buckets t)); [by left | congruence]. }
  constructor; rewrite ?concat_nil_replicate, ?app_nil_r; try done.
  - destruct hr_tbl. constructor; try done. cbn. by rewrite lookup_insert_ne.
  - apply tbl_fresh. cbn. by rewrite lookup_insert_eq.
  - rewrite length_replicate. lia.
  - apply hashed_fresh.
  - intros e (i & es & Hi & He)%elem_of_concat_lookup. by eapply hr_hash.
  - by apply NoDup_cons in hr_own as [_ ?].
  - intros x Hx. destruct (decide (x = p)) as [->|]; [rewrite lookup_insert_eq; by eexists |].
    rewrite lookup_insert_ne by done. apply hr_live. rewrite !elem_of_cons in *. tauto.
  - lia.
Qed.

(** The loop over the old buckets moves everything. *)
Lemma move_loop w L po bl ess p nbl0 news0 n :
  moving w L po bl ess p nbl0 news0 n -> concat news0 = [] -> 0 < n ->
  exists w' obl olds nbl news,
    for_up (length ess) 0 (fun i w =>
        bucket ← get_bucket w po i;
        move_nodes (S (Z.to_nat (ll_size bucket))) w po i p n (ll_head bucket)) w = Ok w' /\
    moving w' L po obl olds p nbl news n /\ concat olds = [] /\ concat news ≡ₚ concat ess.
Proof.
  intros Hm0 Hn0 Hn.
  destruct (for_up_rule (fun i w => exists obl olds nbl news, moving w L po obl olds p nbl news n /\
      length olds = length ess /\ (forall j, (j < Z.to_nat i)%nat -> olds !! j = Some []) /\
      concat olds ++ concat news ≡ₚ concat ess)
    (length ess) 0 (fun i w =>
        bucket ← get_bucket w po i;
        move_nodes (S (Z.to_nat (ll_size bucket))) w po i p n (ll_head bucket)) w)
    as (w2 & Hloop & obl & olds & nbl & news & Hm2 & Hlen & Hdone & Hperm).
  { exists bl, ess, nbl0, news0. split_and!; [done | done | intros; lia | by rewrite Hn0, app_nil_r]. }
  { intros i w' Hi (obl & olds & nbl & news & Hm' & Hlen & Hdone & Hperm).
    destruct (lookup_lt_is_Some_2 olds (Z.to_nat i)) as [es Hes]; [lia |].
    destruct (tbl_bucket _ _ _ _ _ _ (mv_old _ _ _ _ _ _ _ _ _ Hm') Hes) as (b & Hb & Hlk & Hg & _).
    rewrite Z2Nat.id in Hg by lia. rewrite Hg. cbn [mbind outcome_bind].
    destruct Hlk as [_ _ Hh _ Hz _]. rewrite Hh, Hz, Nat2Z.id, length_fmap.
    destruct (move_nodes_spec (S (length es)) _ _ _ _ _ _ _ _ _ _ _ Hm' Hes)
      as (w2 & obl2 & nbl2 & news2 & He2 & Hm2 & Hp2); [lia | lia |].
    rewrite Z2Nat.id in He2 by lia. exists w2. split; [done |].
    exists obl2, (<[Z.to_nat i := []]> olds), nbl2, news2. split_and!; [done | by rewrite length_insert | |].
    - intros j Hj. destruct (decide (j = Z.to_nat i)) as [->|].
      + apply list_lookup_insert_eq. by eapply lookup_lt_Some.
      + rewrite list_lookup_insert_ne by done. apply Hdone. lia.
    - by rewrite Hp2. }
  assert (concat olds = []) as Hnil.
  { apply elem_of_nil_inv. intros e (i & es & Hi & He)%elem_of_concat_lookup.
    rewrite Hdone in Hi by (apply lookup_lt_Some in Hi; lia). injection Hi as <-.
    by apply elem_of_nil in He. }
  rewrite Hnil in Hperm. exists w2, obl, olds, nbl, news. done.
Qed.

Lemma hash_table_expand_spec w L t bl ess :
  ht_rep w L t bl ess -> Z.of_nat (size L) < capacity -> ht_size t < 2147483648 ->
  2 * ht_buckets_num t * LIST_SIZE < request_limit -> 2 * ht_buckets_num t * LIST_SIZE < 4294967296 ->
  hash_table_expand w t = Panic \/
  exists w' L' t' bl' ess', hash_table_expand w t = Ok (w', t') /\ ht_rep w' L' t' bl' ess' /\
    concat ess' ≡ₚ concat ess /\ size L' = size L /\ ht_size t' = ht_size t /\
    ht_buckets_num t' = 2 * ht_buckets_num t /\ L !! ht_buckets t' = None /\
    exists k, L' = delete (ht_buckets t) (<[ht_buckets t' := k]> L).
Proof.
  intros Hrep Hc Hs Hr Hw. pose proof Hrep as []. set (n := 2 * ht_buckets_num t) in *.
  unfold hash_table_expand. rewrite u32_small by (unfold LIST_SIZE in *; lia).
  rewrite (Z.mul_comm _ 2). fold n.
  destruct (new_buckets_spec w L n) as [->|(a & p & k & -> & Hp & Ha)];
    [done | done | lia | done | done | by left |].
  cbn [mbind outcome_bind]. pose proof (moving_start _ _ _ _ _ _ _ _ n Hrep Hs Hp Ha ltac:(lia)) as Hm.
  destruct (move_loop _ _ _ _ _ _ _ _ _ Hm (concat_nil_replicate _) ltac:(lia))
    as (w2 & obl & olds & nbl & news & Hloop & Hm2 & Hnil & Hperm).
  rewrite hr_num, Nat2Z.id, Hloop. cbn [mbind outcome_bind].
  destruct Hm2. rewrite Hnil in *. cbn [app] in *.
  destruct (mv_live0 (ht_buckets t)) as [k0 Hk0]; [by left |].
  destruct (free_law _ _ _ _ mv_alive0 Hk0) as (a' & He & Ha').
  unfold free_buckets. rewrite He. cbn [mbind outcome_bind]. right.
  rewrite Hperm in mv_own0. apply NoDup_cons in hr_own as [Hpo _].
  eexists _, (delete (ht_buckets t) (<[p := k]> L)), _, nbl, news. split; [done |].
  split; [|split; [done | split; [|split_and!; try done; by exists k]]].
  2: { rewrite map_size_delete, Hk0, map_size_insert_None by done. lia. }
  constructor; cbn; try done; try (unfold LIST_SIZE in *; lia).
  - destruct mv_new0. constructor; try done. cbn. by rewrite lookup_delete_ne.
  - unfold keys in *. by rewrite Hperm.
  - rewrite Hperm. apply NoDup_cons. split; [|done]. intros Hin.
    destruct (hr_live p) as [? ?]; [by right | congruence].
  - intros x Hx. rewrite lookup_delete_ne.
    + apply mv_live0. rewrite !elem_of_cons in *. tauto.
    + intros <-. rewrite Hperm in Hx. by apply elem_of_cons in Hx as [?|?].
  - rewrite hr_size. by rewrite Hperm.
Qed.
End expand.
