(* ===== verification/HashTableMap.v ===== *)
(** * Hash tables: a finite map

    Every operation of the table is one on the finite map it represents, and
    the load factor is kept. *)

From S2P Require Import Prelude.
From S2P Require Import Allocator.
From S2P Require Import LinkedList.
From S2P Require Import HashTable.
From S2P Require Import HashTableInv.
From S2P Require Import HashTableSpec.
From S2P Require Import HashTableExpand.

Section table.
Context {A : Type} `{Allocator A}.
Abbreviation world := (world A).

(** A table that implements the map [M]: at least 16 buckets, at most three
    quarters as many entries. *)
Record is_table (w : world) (L : gmap Z Z) (t : hash_table_t) (M : gmap Z Z) : Prop := {
  it_map : ht_map w L t M;
  it_num : INITIAL_BUCKETS_NUM <= ht_buckets_num t;
  it_load : 4 * ht_size t <= 3 * ht_buckets_num t;
  it_size : ht_size t = Z.of_nat (size M)
}.

(** The table may double without a size wrapping around. *)
Definition may_grow (t : hash_table_t) : Prop :=
  2 * ht_buckets_num t * LIST_SIZE < request_limit /\ 2 * ht_buckets_num t * LIST_SIZE < 4294967296.

Lemma size_dict es : NoDup (keys es) -> size (dict es) = length es.
Proof.
  intros Hnd. unfold dict. rewrite map_size_list_to_map; [by rewrite length_fmap |].
  by rewrite <- list_fmap_compose.
Qed.

Lemma ht_map_size w L t M : ht_map w L t M -> ht_size t = Z.of_nat (size M).
Proof. intros (bl & ess & [] & ->). by rewrite size_dict. Qed.

(** The same for a table that spares the live blocks [X]: its array, nodes and
    pairs are other blocks, so that it never frees one of [X]. *)
Record sparing_table (w : world) (L : gmap Z Z) (t : hash_table_t) (M : gmap Z Z) (X : Z -> Prop) :
    Prop := {
  st_rep : exists bl ess, ht_rep w L t bl ess /\ M = dict (concat ess) /\
    forall x, X x -> is_Some (L !! x) /\ x ∉ ht_buckets t :: own (concat ess);
  st_num : INITIAL_BUCKETS_NUM <= ht_buckets_num t;
  st_load : 4 * ht_size t <= 3 * ht_buckets_num t
}.

Lemma sparing_is_table w L t M X : sparing_table w L t M X -> is_table w L t M.
Proof.
  intros [(bl & ess & Hrep & HM & _) Hn Hl]. assert (ht_map w L t M) as Hm by (by exists bl, ess).
  constructor; try done. by apply ht_map_size in Hm.
Qed.

Lemma table_sparing_none w L t M : is_table w L t M -> sparing_table w L t M (fun _ => False).
Proof. intros [(bl & ess & Hrep & HM)]. constructor; try done. exists bl, ess. by split_and!. Qed.

Lemma sparing_put w L t M X key v :
  sparing_table w L t M X -> is_u32 key -> Z.of_nat (size L) + 2 < capacity -> may_grow t ->
  hash_table_put w t key v = Panic \/
  exists w' L' t', hash_table_put w t key v = Ok (w', t', default 0 (M !! key)) /\
    sparing_table w' L' t' (<[key := v]> M) X /\
    (ht_buckets_num t' = ht_buckets_num t \/ ht_buckets_num t' = 2 * ht_buckets_num t) /\
    (size L' <= size L + 2)%nat.
Proof.
  intros [(bl & ess & Hrep & -> & HX) Hnum Hload] Hkey Hc [Hg1 Hg2].
  unfold INITIAL_BUCKETS_NUM in *.
  destruct (key_cases w L t bl ess key Hrep) as (i & es & b & Hak & Hcase).
  destruct Hcase as [(l & e & r & Hes & He & Hl & Hn0 & Hv)|[Hl Hnone]].
  - right. destruct (put_existing w L t bl ess key v i es b l e r) as (w' & bl' & ess' & -> & Hr' & Hd & Hown); try done.
    rewrite Hv. exists w', L, t. split; [done |]. split; [|split; [by left | lia]]. constructor; try done.
    exists bl', ess'. split_and!; try done. intros x Hx. rewrite Hown. by apply HX.
  - unfold hash_table_put. rewrite (ak_index _ _ _ _ _ _ _ _ Hak), (ak_get _ _ _ _ _ _ _ _ Hak).
    cbn [mbind outcome_bind]. rewrite Hl. cbn [mbind outcome_bind negb Z.eqb].
    destruct (put_new_spec w L t bl ess key v i es b Hrep Hak Hkey Hnone)
      as [->|(w1 & L1 & t1 & bl1 & ess1 & -> & Hrep1 & Hd1 & HL1 & Hs1 & Hn1 & Hb1 & p & q & k1 & k2 & Hp1 & Hpn & Hqn & _ & HL1')];
      [lia | unfold LIST_SIZE, NODE_SIZE in *; lia | unfold LIST_SIZE in *; lia | by left |].
    cbn [mbind outcome_bind]. rewrite Hnone.
    assert (forall x, X x -> is_Some (L1 !! x) /\ x ∉ ht_buckets t1 :: own (concat ess1)) as HX1.
    { intros x Hx. destruct (HX x Hx) as [[n Hn] Hni].
      assert (x <> p /\ x <> q) as [Hxp Hxq] by (split; congruence).
      rewrite HL1', !lookup_insert_ne, Hb1, Hp1, own_cons, !not_elem_of_cons by done.
      rewrite not_elem_of_cons in Hni. cbn. split; [by eexists | tauto]. }
    destruct (Z.ltb_spec (3 * ht_buckets_num t1) (4 * ht_size t1)) as [Hover|Hfit].
    + destruct (hash_table_expand_spec w1 L1 t1 bl1 ess1 Hrep1)
        as [->|(w2 & L2 & t2 & bl2 & ess2 & -> & Hrep2 & Hp2 & HL2 & Hs2 & Hn2 & Hf2 & k & HL2')];
        [lia | unfold LIST_SIZE in *; lia | by rewrite Hn1 | by rewrite Hn1 | by left | right].
      cbn [mbind outcome_bind]. exists w2, L2, t2. split; [done |].
      split; [|split; [right; lia | lia]]. constructor; unfold INITIAL_BUCKETS_NUM; [|lia|lia].
      exists bl2, ess2. split; [done |]. split.
      * rewrite <- Hd1. symmetry. apply dict_perm; [apply Hrep2 | done].
      * intros x Hx. destruct (HX1 x Hx) as [[n Hn] Hni]. rewrite not_elem_of_cons in Hni.
        assert (x <> ht_buckets t2) by congruence. rewrite HL2', lookup_delete_ne, lookup_insert_ne by naive_solver.
        split; [by eexists |]. rewrite Hp2, not_elem_of_cons. tauto.
    + right. cbn [mbind outcome_bind]. exists w1, L1, t1. split; [done |]. split; [|split; [left; lia | lia]].
      constructor; unfold INITIAL_BUCKETS_NUM; [by exists bl1, ess1 | lia | lia].
Qed.

Lemma sparing_remove w L t M X key :
  sparing_table w L t M X -> ht_size t < 2147483648 ->
  exists w' L' t', hash_table_remove w t key = Ok (w', t', default 0 (M !! key)) /\
    sparing_table w' L' t' (delete key M) X /\ ht_buckets_num t' = ht_buckets_num t /\
    (if decide (is_Some (M !! key)) then S (S (size L')) = size L else L' = L /\ w' = w).
Proof.
  intros [(bl & ess & Hrep & -> & HX) Hnum Hload] Hs.
  destruct (key_cases w L t bl ess key Hrep) as (i & es & b & Hak & Hcase).
  destruct Hcase as [(l & e & r & Hes & He & Hl & Hn0 & Hv)|[Hl Hnone]].
  - destruct (remove_existing w L t bl ess key i es b l e r)
      as (w' & L' & t' & bl' & ess' & -> & Hr' & Hd & HL & Hst & Hn' & Hb' & Hown & HL'); try done.
    rewrite Hv. exists w', L', t'. split; [done |].
    split; [|split; [done |]; by rewrite decide_True by by eexists].
    constructor; [|lia|lia]. exists bl', ess'. split_and!; try done.
    intros x Hx. destruct (HX x Hx) as [[n Hn] Hni]. rewrite Hown, !not_elem_of_cons in Hni.
    rewrite HL', !lookup_delete_ne, Hb', not_elem_of_cons by naive_solver. split; [by eexists | tauto].
  - unfold hash_table_remove. rewrite (ak_index _ _ _ _ _ _ _ _ Hak), (ak_get _ _ _ _ _ _ _ _ Hak).
    cbn [mbind outcome_bind]. rewrite Hl. cbn. rewrite Hnone.
    exists w, L, t. split; [done |]. rewrite delete_id by done.
    split; [constructor; [by exists bl, ess | done | done] |]. split; [done |].
    rewrite decide_False; [done | by intros [? ?]].
Qed.

Lemma hash_table_put_spec w L t M key v :
  is_table w L t M -> is_u32 key -> Z.of_nat (size L) + 2 < capacity -> may_grow t ->
  hash_table_put w t key v = Panic \/
  exists w' L' t', hash_table_put w t key v = Ok (w', t', default 0 (M !! key)) /\
    is_table w' L' t' (<[key := v]> M) /\
    (ht_buckets_num t' = ht_buckets_num t \/ ht_buckets_num t' = 2 * ht_buckets_num t).
Proof.
  intros Ht Hk Hc Hg. apply table_sparing_none in Ht.
  destruct (sparing_put _ _ _ _ _ key v Ht Hk Hc Hg) as [->|(w' & L' & t' & -> & Ht' & Hn & _)];
    [by left | right].
  exists w', L', t'. split; [done |]. split; [by eapply sparing_is_table | done].
Qed.

Lemma hash_table_remove_spec w L t M key :
  is_table w L t M -> ht_size t < 2147483648 ->
  exists w' L' t', hash_table_remove w t key = Ok (w', t', default 0 (M !! key)) /\
    is_table w' L' t' (delete key M) /\ ht_buckets_num t' = ht_buckets_num t /\
    (if decide (is_Some (M !! key)) then S (S (size L')) = size L else L' = L /\ w' = w).
Proof.
  intros Ht Hs. apply table_sparing_none in Ht.
  destruct (sparing_remove _ _ _ _ _ key Ht Hs) as (w' & L' & t' & -> & Ht' & Hn & HL).
  exists w', L', t'. split; [done |]. split; [by eapply sparing_is_table | done].
Qed.

(** A new table is empty. *)
Lemma hash_table_init_rep w L :
  alive (w_alloc w) L -> Z.of_nat (size L) < capacity ->
  INITIAL_BUCKETS_NUM * LIST_SIZE < request_limit ->
  hash_table_init w = Panic \/
  exists w' p k bl, hash_table_init w = Ok (w', HT p INITIAL_BUCKETS_NUM 0) /\ L !! p = None /\
    ht_rep w' (<[p := k]> L) (HT p INITIAL_BUCKETS_NUM 0) bl
      (replicate (Z.to_nat INITIAL_BUCKETS_NUM) []).
Proof.
  intros Ha Hc Hr. unfold hash_table_init.
  destruct (new_buckets_spec w L INITIAL_BUCKETS_NUM)
    as [->|(a & p & k & -> & Hp & Ha')]; [done | done | done | done | done | by left | right].
  cbn [mbind outcome_bind]. set (w' := set_buckets _ _). set (n := Z.to_nat INITIAL_BUCKETS_NUM).
  eexists w', p, k, (replicate n linked_list_init). split; [done |]. split; [done |].
  constructor; rewrite ?concat_nil_replicate; cbn; try done.
  - apply tbl_fresh. cbn. by rewrite lookup_insert_eq.
  - apply hashed_fresh.
  - constructor.
  - apply NoDup_singleton.
  - intros x ->%list_elem_of_singleton. rewrite lookup_insert_eq. by eexists.
Qed.

Lemma hash_table_init_spec w L :
  alive (w_alloc w) L -> Z.of_nat (size L) < capacity ->
  INITIAL_BUCKETS_NUM * LIST_SIZE < request_limit ->
  hash_table_init w = Panic \/
  exists w' L' t, hash_table_init w = Ok (w', t) /\ is_table w' L' t ∅ /\
    size L' = S (size L) /\ ht_buckets_num t = INITIAL_BUCKETS_NUM.
Proof.
  intros Ha Hc Hr. destruct (hash_table_init_rep w L Ha Hc Hr)
    as [->|(w' & p & k & bl & -> & Hp & Hrep)]; [by left | right].
  eexists w', _, _. split; [done |]. split; [|split; [by rewrite map_size_insert_None | done]].
  constructor; [|done..]. eexists _, _. split; [exact Hrep |]. by rewrite concat_nil_replicate.
Qed.

Lemma hash_table_lookup_spec w L t M key :
  is_table w L t M ->
  hash_table_get w t key = Ok (default 0 (M !! key)) /\
  hash_table_contains w t key = Ok (bool_decide (is_Some (M !! key))).
Proof.
  intros []. split; [by eapply hash_table_get_spec | by eapply hash_table_contains_spec].
Qed.
End table.
