(* ===== verification/HashTableFree.v ===== *)
(** * Hash tables: clearing and destroying

    The loops free every pair and node, and with [hash_table_destroy] every
    value and the array: exactly the table's blocks. *)

From S2P Require Import Prelude.
From S2P Require Import Allocator.
From S2P Require Import LinkedList.
From S2P Require Import HashTable.
From S2P Require Import HashTableInv.
From S2P Require Import HashTableSpec.
From S2P Require Import HashTableExpand.

Section clear.
Context {A : Type} `{Allocator A}.
Abbreviation world := (world A).

(** [L'] is [L] without the blocks [xs]. *)
Definition gone (L L' : gmap Z Z) (xs : list Z) : Prop :=
  forall x, L' !! x = if decide (x ∈ xs) then None else L !! x.

Lemma gone_nil L : gone L L [].
Proof. intros x. rewrite decide_False; [done | apply not_elem_of_nil]. Qed.

Lemma gone_delete L L' xs y : gone L L' xs -> gone L (delete y L') (y :: xs).
Proof.
  intros Hg x. destruct (decide (x = y)) as [->|Hne].
  - by rewrite lookup_delete_eq, decide_True by left.
  - rewrite lookup_delete_ne, Hg by done. destruct (decide (x ∈ xs)).
    + rewrite decide_True; [done | by right].
    + rewrite decide_False; [done |]. by rewrite not_elem_of_cons.
Qed.

Lemma gone_perm L L' xs ys : (forall x, x ∈ xs <-> x ∈ ys) -> gone L L' xs -> gone L L' ys.
Proof. intros Hp Hg x. rewrite Hg. apply decide_ext, Hp. Qed.

Lemma gone_trans L L1 L2 xs ys : gone L L1 xs -> gone L1 L2 ys -> gone L L2 (xs ++ ys).
Proof.
  intros H1 H2 x. rewrite H2, H1. repeat case_decide; rewrite ?elem_of_app in *; tauto.
Qed.

(** What the loops free for the entries: pairs and nodes, and with [values]
    the values. *)
Definition blocks (values : bool) (es : list entry) : list Z :=
  own es ++ (if values then en_v <$> es else []).

#[local] Instance blocks_proper values : Proper ((≡ₚ) ==> (≡ₚ)) (blocks values).
Proof.
  intros es es' Hp. unfold blocks. apply Permutation_app; [by rewrite Hp |].
  destruct values; [by rewrite Hp | done].
Qed.

Definition entry_blocks (values : bool) (e : entry) : list Z :=
  en_node e :: en_kv e :: (if values then [en_v e] else []).

Lemma blocks_cons values e es : blocks values (e :: es) ≡ₚ entry_blocks values e ++ blocks values es.
Proof.
  unfold blocks, entry_blocks. rewrite own_cons. destruct values; cbn [app fmap list_fmap].
  - do 2 f_equiv. symmetry. apply Permutation_middle.
  - by rewrite !app_nil_r.
Qed.

(** In the middle of the loops: the buckets [ess] are left. *)
Record clearing (values : bool) (w : world) (L : gmap Z Z) (p : Z) (bl : list linked_list_t)
    (ess : list (list entry)) : Prop := {
  cl_alive : alive (w_alloc w) L;
  cl_tbl : tbl w p bl ess;
  cl_nodup : NoDup (p :: blocks values (concat ess));
  cl_live : forall x, x ∈ p :: blocks values (concat ess) -> is_Some (L !! x)
}.

(** A free of a live block. *)
Lemma free_live_block a L x :
  alive a L -> is_Some (L !! x) -> exists a', a_free a x = Ok a' /\ alive a' (delete x L).
Proof. intros Ha [k Hk]. by eapply free_law. Qed.

Lemma free_values (values : bool) w L v :
  alive (w_alloc w) L -> (if values then is_Some (L !! v) else True) ->
  exists a L', (if values then free_value w v else Ok w) = Ok (set_alloc w a) /\ alive a L' /\
    gone L L' (if values then [v] else []).
Proof.
  intros Ha Hv. destruct values.
  - destruct (free_live_block _ _ _ Ha Hv) as (a & He & Ha'). exists a, (delete v L).
    unfold free_value. rewrite He. split_and!; [done | done |]. apply gone_delete, gone_nil.
  - exists (w_alloc w), L. destruct w. split_and!; [done | done | apply gone_nil].
Qed.

Lemma gone_live L L' xs x : gone L L' xs -> is_Some (L !! x) -> x ∉ xs -> is_Some (L' !! x).
Proof. intros Hg Hx Hni. rewrite Hg. by rewrite decide_False. Qed.

(** A table without an entry, after the node and the pair of it are gone. *)
Lemma tbl_forget (w w' : world) p bl ess e q :
  tbl w p bl ess -> NoDup (q :: own (e :: concat ess)) ->
  w_nodes w' = delete (en_node e) (w_nodes w) -> w_kvs w' = delete (en_kv e) (w_kvs w) ->
  w_buckets w' = w_buckets w -> tbl w' p bl ess.
Proof.
  intros Ht Hnd Hn Hk Hb. destruct (own_distinct _ _ _ Hnd) as (_ & _ & _ & Hd & _).
  eapply tbl_frame; [done | by rewrite Hb | |].
  - intros e' He'. destruct (Hd e' He'). rewrite Hn. by apply lookup_delete_ne.
  - intros e' He'. destruct (Hd e' He') as (? & ? & _ & _).
    destruct (tb_holds _ _ _ _ Ht e' He') as [Hh1 Hh2]. split.
    + by rewrite Hn, lookup_delete_ne.
    + by rewrite Hk, lookup_delete_ne.
Qed.

Lemma clear_step values w L p bl ess i e es :
  clearing values w L p bl ess -> ess !! i = Some (e :: es) ->
  exists w' L' bl',
    (forall fuel, clear_bucket (S fuel) values w p (Z.of_nat i) (en_node e) =
       clear_bucket fuel values w' p (Z.of_nat i) (first (en_node <$> es) 0)) /\
    clearing values w' L' p bl' (<[i := es]> ess) /\ gone L L' (entry_blocks values e).
Proof.
  intros Hc Hi. pose proof Hc as [].
  destruct (tbl_bucket _ _ _ _ _ _ cl_tbl0 Hi) as (b & Hb & Hlk & Hg & Hset).
  pose proof (concat_delete _ _ _ Hi) as Hperm. pose proof (concat_insert ess i (e :: es) es Hi) as Hperm'.
  set (rest := concat (delete i ess)) in *. cbn [app] in Hperm.
  assert (Permutation (blocks values (concat ess))
            (entry_blocks values e ++ blocks values (es ++ rest))) as Hbl
    by (rewrite Hperm; apply blocks_cons).
  rewrite Hbl in cl_nodup0. assert (NoDup (p :: own (e :: es ++ rest))) as Hown.
  { rewrite <- Hperm. rewrite <- Hbl in cl_nodup0. unfold blocks in cl_nodup0.
    rewrite app_comm_cons in cl_nodup0. by apply NoDup_app in cl_nodup0 as [? _]. }
  assert (NoDup (en_node <$> e :: es ++ rest)) as Hnodes
    by (apply NoDup_nodes; by apply NoDup_cons in Hown as [_ ?]).
  assert (holds w e) as [Hhn Hhk] by (apply (tb_holds _ _ _ _ cl_tbl0); rewrite Hperm; by left).
  assert (forall x, x ∈ p :: entry_blocks values e ++ blocks values (es ++ rest) -> is_Some (L !! x))
    as Hlive by (intros x Hx; apply cl_live0; by rewrite Hbl).
  apply NoDup_cons in cl_nodup0 as [Hp (Hnde & Hdis & Hndr)%NoDup_app].
  unfold entry_blocks in Hnde, Hp, Hdis, Hlive |- *.
  rewrite !NoDup_cons, !not_elem_of_cons in Hnde. destruct Hnde as ((Hnk & Hnv) & Hkv & _).
  destruct (free_values values w L (en_v e)) as (a1 & L1 & He1 & Ha1 & Hg1);
    [done | destruct values; [apply Hlive; set_solver | done] |].
  destruct (free_live_block a1 L1 (en_kv e) Ha1) as (a2 & He2 & Ha2);
    [eapply gone_live; [done | apply Hlive; set_solver | done] |].
  destruct (free_live_block a2 (delete (en_kv e) L1) (en_node e) Ha2) as (a3 & He3 & Ha3).
  { rewrite lookup_delete_ne by done. eapply gone_live; [done | apply Hlive; set_solver | done]. }
  destruct (unlink_first w p bl ess i e es b cl_tbl0 Hi Hlk Hnodes)
    as (st1 & b1 & Hrm & Hsame & Hrel1 & Htbl1).
  set (bs := <[p := <[i := b1]> bl]> (w_buckets w)).
  set (w1 := set_buckets (set_nodes w st1) bs).
  assert (tbl w1 p (<[i := b1]> bl) (<[i := es]> ess)) as Ht1
    by (apply Htbl1; [done | done | cbn; unfold bs; by rewrite lookup_insert_eq]).
  set (w3 := {| w_alloc := a3; w_nodes := delete (en_node e) st1;
                w_kvs := delete (en_kv e) (w_kvs w); w_buckets := bs |}).
  assert (gone L (delete (en_node e) (delete (en_kv e) L1))
    (en_node e :: en_kv e :: (if values then [en_v e] else []))) as Hgone by by do 2 apply gone_delete.
  exists w3, (delete (en_node e) (delete (en_kv e) L1)), (<[i := b1]> bl).
  split; [|split; [|done]].
  - intros fuel. destruct Hlk as [[[v Hv] _] _ _ _ _ _]. rewrite Hv in Hhn. injection Hhn as ->.
    assert (en_node e <> 0) as He0.
    { destruct (Hlive (en_node e)) as [k Hk]; [set_solver |].
      pose proof (alive_pos _ _ _ _ cl_alive0 Hk). lia. }
    cbn [clear_bucket]. rewrite (proj2 (Z.eqb_neq _ _)), Hv by done.
    cbn [negb deref mbind outcome_bind]. unfold node_kv. cbn [n_ptr]. rewrite Hhk.
    cbn [deref mbind outcome_bind kv_v_ptr]. rewrite He1. unfold free_kv, free_node.
    cbn [mbind outcome_bind set_alloc w_alloc]. rewrite He2. cbn [mbind outcome_bind].
    change (get_bucket _ p (Z.of_nat i)) with (get_bucket w p (Z.of_nat i)). rewrite Hg.
    cbn [mbind outcome_bind].
    change (linked_list_remove _ b (en_node e)) with (linked_list_remove (w_nodes w) b (en_node e)).
    rewrite Hrm. cbn [mbind outcome_bind].
    rewrite Hset by done. cbn [mbind outcome_bind set_buckets set_kvs set_alloc set_nodes w_alloc].
    rewrite He3. done.
  - constructor.
    + done.
    + eapply (tbl_forget w1); [done | by rewrite Hperm' | done | done | done].
    + rewrite Hperm'. apply NoDup_cons. split; [|done]. intros Hin. apply Hp, elem_of_app. by right.
    + intros x Hx. rewrite Hperm' in Hx. eapply gone_live; [exact Hgone | |].
      { apply Hlive. rewrite elem_of_cons, elem_of_app. apply elem_of_cons in Hx. tauto. }
      intros Hin. apply elem_of_cons in Hx as [->|Hx]; [|by apply (Hdis x)].
      apply Hp, elem_of_app. by left.
Qed.

Lemma clear_bucket_spec fuel values w L p bl ess i es :
  clearing values w L p bl ess -> ess !! i = Some es -> (length es < fuel)%nat ->
  exists w' L' bl',
    clear_bucket fuel values w p (Z.of_nat i) (first (en_node <$> es) 0) = Ok w' /\
    clearing values w' L' p bl' (<[i := []]> ess) /\ gone L L' (blocks values es).
Proof.
  revert fuel w L bl ess. induction es as [|e es IH]; intros fuel w L bl ess Hc Hi Hf;
    (destruct fuel as [|fuel]; [simpl in Hf; lia |]).
  - exists w, L, bl. rewrite list_insert_id by done. split_and!; [done | done |].
    unfold blocks. destruct values; apply gone_nil.
  - destruct (clear_step _ _ _ _ _ _ _ _ _ Hc Hi) as (w1 & L1 & bl1 & He & Hc1 & Hg1).
    destruct (IH fuel w1 L1 bl1 (<[i := es]> ess)) as (w2 & L2 & bl2 & He2 & Hc2 & Hg2);
      [done | by rewrite list_lookup_insert_eq by (by eapply lookup_lt_Some) | simpl in Hf; lia |].
    rewrite list_insert_insert_eq in Hc2. exists w2, L2, bl2. split_and!; [|done|].
    + change (first (en_node <$> e :: es) 0) with (en_node e). by rewrite He.
    + eapply gone_perm; [|by eapply gone_trans]. intros x. by rewrite blocks_cons.
Qed.

Lemma blocks_app values es fs x :
  x ∈ blocks values (es ++ fs) <-> x ∈ blocks values es \/ x ∈ blocks values fs.
Proof. unfold blocks, own. destruct values; rewrite !fmap_app, !elem_of_app; tauto. Qed.

(** The loop over the buckets frees the blocks of all entries. *)
Lemma clear_buckets_spec values w L t bl ess :
  clearing values w L (ht_buckets t) bl ess -> ht_buckets_num t = Z.of_nat (length ess) ->
  exists w' L' bl', clear_buckets values w t = Ok w' /\
    clearing values w' L' (ht_buckets t) bl' (replicate (length ess) []) /\
    gone L L' (blocks values (concat ess)).
Proof.
  intros Hc Hn. unfold clear_buckets. rewrite Hn, Nat2Z.id.
  destruct (for_up_rule (fun i w' => exists L' bl' ess',
      clearing values w' L' (ht_buckets t) bl' ess' /\ length ess' = length ess /\
      (forall j, (j < Z.to_nat i)%nat -> ess' !! j = Some []) /\
      (forall j, (Z.to_nat i <= j)%nat -> ess' !! j = ess !! j) /\
      gone L L' (blocks values (concat (take (Z.to_nat i) ess))))
    (length ess) 0 (fun i w =>
      bucket ← get_bucket w (ht_buckets t) i;
      clear_bucket (S (Z.to_nat (ll_size bucket))) values w (ht_buckets t) i (ll_head bucket)) w)
    as (w' & Hloop & L' & bl' & ess' & Hc' & Hlen & Hdone & _ & Hg).
  { exists L, bl, ess. split_and!; [done | done | intros; lia | done |].
    unfold blocks. destruct values; apply gone_nil. }
  { intros i w' Hi (L' & bl' & ess' & Hc' & Hlen & Hdone & Hrest & Hg).
    destruct (lookup_lt_is_Some_2 ess (Z.to_nat i)) as [es Hes]; [lia |].
    assert (ess' !! Z.to_nat i = Some es) as Hes' by by rewrite Hrest.
    destruct (tbl_bucket _ _ _ _ _ _ (cl_tbl _ _ _ _ _ _ Hc') Hes') as (b & Hb & Hlk & Hget & _).
    rewrite Z2Nat.id in Hget by lia. rewrite Hget. cbn [mbind outcome_bind].
    destruct Hlk as [_ _ Hh _ Hz _]. rewrite Hh, Hz, Nat2Z.id, length_fmap.
    destruct (clear_bucket_spec (S (length es)) _ _ _ _ _ _ _ _ Hc' Hes')
      as (w2 & L2 & bl2 & He2 & Hc2 & Hg2); [lia |].
    rewrite Z2Nat.id in He2 by lia. exists w2. split; [done |].
    exists L2, bl2, (<[Z.to_nat i := []]> ess'). split_and!; [done | by rewrite length_insert | | |].
    - intros j Hj. destruct (decide (j = Z.to_nat i)) as [->|].
      + apply list_lookup_insert_eq. by eapply lookup_lt_Some.
      + rewrite list_lookup_insert_ne by done. apply Hdone. lia.
    - intros j Hj. rewrite list_lookup_insert_ne by lia. apply Hrest. lia.
    - replace (Z.to_nat (i + 1)) with (S (Z.to_nat i)) by lia.
      rewrite (take_S_r _ _ _ Hes), concat_app. cbn [concat]. rewrite app_nil_r.
      eapply gone_perm; [|by eapply gone_trans]. intros x. by rewrite blocks_app, elem_of_app. }
  exists w', L', bl'. split; [done |].
  assert (ess' = replicate (length ess) []) as ->.
  { apply list_eq. intros j. destruct (decide (j < length ess)%nat).
    - by rewrite Hdone, lookup_replicate_2 by lia.
    - rewrite !lookup_ge_None_2 by (rewrite ?length_replicate; lia). done. }
  split; [done |]. by rewrite take_ge in Hg by lia.
Qed.

Lemma rep_clearing values w L t bl ess :
  ht_rep w L t bl ess -> NoDup (ht_buckets t :: blocks values (concat ess)) ->
  (forall x, x ∈ blocks values (concat ess) -> is_Some (L !! x)) ->
  clearing values w L (ht_buckets t) bl ess.
Proof.
  intros [] Hnd Hl. constructor; try done. intros x [->|Hx]%elem_of_cons; [|by apply Hl].
  apply hr_live. by left.
Qed.

(** Clearing: an empty table with the same buckets; the blocks of its
    entries, and no others, are freed. *)
Lemma hash_table_clear_spec w L t bl ess :
  ht_rep w L t bl ess ->
  exists w' L' t' bl', hash_table_clear w t = Ok (w', t') /\
    ht_rep w' L' t' bl' (replicate (length ess) []) /\
    ht_buckets_num t' = ht_buckets_num t /\ gone L L' (own (concat ess)).
Proof.
  intros Hrep. pose proof Hrep as [].
  assert (blocks false (concat ess) = own (concat ess)) as Hb
    by (unfold blocks; by rewrite app_nil_r).
  destruct (clear_buckets_spec false w L t bl ess) as (w' & L' & bl' & He & [] & Hg).
  - apply rep_clearing; rewrite ?Hb; [done | done |]. intros x Hx. apply hr_live. by right.
  - done.
  - unfold hash_table_clear. rewrite He. cbn [mbind outcome_bind].
    rewrite Hb in Hg. eexists w', L', _, bl'. split; [done |]. split; [|done].
    constructor; cbn; rewrite ?concat_nil_replicate, ?length_replicate; try done.
    + apply hashed_fresh.
    + constructor.
    + apply NoDup_singleton.
    + intros x ->%list_elem_of_singleton. apply cl_live0. by left.
Qed.

(** Destroying: the array, the pairs, the nodes and the values are freed,
    and nothing else. *)
Lemma hash_table_destroy_spec w L t bl ess :
  ht_rep w L t bl ess -> NoDup (ht_buckets t :: blocks true (concat ess)) ->
  (forall v, v ∈ en_v <$> concat ess -> is_Some (L !! v)) ->
  exists w' L' t', hash_table_destroy w t = Ok (w', t') /\ alive (w_alloc w') L' /\
    gone L L' (ht_buckets t :: blocks true (concat ess)).
Proof.
  intros Hrep Hnd Hv. pose proof Hrep as [].
  destruct (clear_buckets_spec true w L t bl ess) as (w' & L' & bl' & He & [] & Hg).
  - apply rep_clearing; [done | done |]. unfold blocks. intros x [Hx|Hx]%elem_of_app;
      [apply hr_live; by right | by apply Hv].
  - done.
  - destruct (free_live_block _ _ (ht_buckets t) cl_alive0) as (a & Hf & Ha);
      [apply cl_live0; by left |].
    unfold hash_table_destroy. rewrite He. cbn [mbind outcome_bind]. unfold free_buckets. rewrite Hf.
    cbn [mbind outcome_bind]. eexists _, _, _. split; [done |]. split; [exact Ha |].
    by apply gone_delete.
Qed.
End clear.
