(* ===== verification/HashTableIter.v ===== *)
(** * Hash tables: the iterator

    Iterating visits every entry once, bucket by bucket. *)

From S2P Require Import Prelude.
From S2P Require Import Allocator.
From S2P Require Import LinkedList.
From S2P Require Import HashTable.
From S2P Require Import HashTableInv.
From S2P Require Import HashTableSpec.

Section iter.
Context {A : Type} `{Allocator A}.
Abbreviation world := (world A).

(** [while (has_next(&iter)) { kv = next(&iter); ... }]: the results. *)
Fixpoint iterate (fuel : nat) (w : world) (t : hash_table_t) (iter : hash_table_interator_t) :
    outcome (list Z) :=
  match fuel with
  | O => NoFuel
  | S fuel =>
      if hash_table_iterator_has_next t iter then
        '(iter, kv) ← hash_table_iterator_next w t iter;
        kv ← deref kv;
        kvs ← iterate fuel w t iter;
        Ok (kv :: kvs)
      else Ok []
  end.

(** The iterator has returned the first [k] entries. *)
Definition at_pos (ess : list (list entry)) (k : nat) (it : hash_table_interator_t) : Prop :=
  (k = 0%nat /\ it = hash_table_create_iterator) \/
  (exists i l e r, ess !! i = Some (l ++ e :: r) /\
     it = It (Z.of_nat i) (en_node e) (Z.of_nat k - 1) /\
     k = (length (concat (take i ess)) + length l + 1)%nat).

Lemma at_pos_index ess k it : at_pos ess k it -> it_index it = Z.of_nat k - 1.
Proof. intros [[-> ->]|(i & l & e & r & _ & -> & _)]; done. Qed.

(** The search for the next bucket that is not empty. *)
Lemma next_bucket_spec n w L t bl ess i :
  ht_rep w L t bl ess -> (i + n = length ess)%nat ->
  (exists j e r, (i <= j)%nat /\ ess !! j = Some (e :: r) /\
     concat (take j ess) = concat (take i ess) /\
     next_bucket n w t (Z.of_nat i) = Ok (Some (Z.of_nat j, en_node e))) \/
  (concat (drop i ess) = [] /\ next_bucket n w t (Z.of_nat i) = Ok None).
Proof.
  intros Hrep. revert i. induction n as [|n IH]; intros i Hi; cbn [next_bucket].
  { right. by rewrite drop_ge by lia. }
  destruct (lookup_lt_is_Some_2 ess i) as [es Hes]; [lia |].
  destruct (tbl_bucket _ _ _ _ _ _ (hr_tbl _ _ _ _ _ Hrep) Hes) as (b & Hb & Hlk & Hg & _).
  rewrite Hg. cbn [mbind outcome_bind]. rewrite (il_head _ _ _ Hlk).
  pose proof (proj1 (NoDup_cons _ _) (il_nodup _ _ _ Hlk)) as [H0 _].
  rewrite first_null by done. destruct es as [|e es].
  - rewrite bool_decide_true by done. cbn [negb].
    assert (take (S i) ess = take i ess ++ [[]]) as Ht by by apply take_S_r.
    replace (Z.of_nat i + 1) with (Z.of_nat (S i)) by lia.
    destruct (IH (S i) ltac:(lia)) as [(j & e & r & Hj & Hl & Hc & Hn)|[Hc Hn]].
    + left. exists j, e, r. split_and!; [lia | done | | done].
      rewrite Hc, Ht, concat_app. cbn. by rewrite app_nil_r.
    + right. by rewrite (drop_S _ _ _ Hes).
  - rewrite bool_decide_false by done. left. exists i, e, es. done.
Qed.

Lemma concat_lookup (ess : list (list entry)) i l e r :
  ess !! i = Some (l ++ e :: r) ->
  concat ess !! (length (concat (take i ess)) + length l)%nat = Some e /\
  concat ess = concat (take i ess) ++ l ++ e :: r ++ concat (drop (S i) ess).
Proof.
  intros Hi. assert (concat ess = concat (take i ess) ++ l ++ e :: r ++ concat (drop (S i) ess)) as Heq.
  { rewrite <- (take_drop_middle ess i _ Hi) at 1. rewrite concat_app. cbn [concat].
    by rewrite <- app_assoc. }
  split; [|done]. rewrite Heq, !lookup_app_r by lia.
  by replace (length (concat (take i ess)) + length l - length (concat (take i ess)) - length l)%nat
    with 0%nat by lia.
Qed.

Lemma entry_kv w L t bl ess e :
  ht_rep w L t bl ess -> e ∈ concat ess ->
  exists n, w_nodes w !! en_node e = Some n /\ n_ptr n = en_kv e.
Proof.
  intros Hrep He. destruct (tb_holds _ _ _ _ (hr_tbl _ _ _ _ _ Hrep) e He) as [Hn _].
  destruct (w_nodes w !! en_node e) as [n|]; [|done]. injection Hn as Hn. eauto.
Qed.

(** The node after an entry of a bucket. *)
Lemma next_node w L t bl ess i l e r :
  ht_rep w L t bl ess -> ess !! i = Some (l ++ e :: r) ->
  exists n, w_nodes w !! en_node e = Some n /\ n_next n = first (en_node <$> r) 0.
Proof.
  intros Hrep Hi.
  destruct (tbl_bucket _ _ _ _ _ _ (hr_tbl _ _ _ _ _ Hrep) Hi) as (b & Hb & Hlk & _).
  pose proof (il_seg _ _ _ Hlk) as Hs. rewrite fmap_app, fmap_cons in Hs.
  apply seg_app in Hs as [_ [[v Hv] _]]. eauto.
Qed.

(** The iterator enters the next bucket with an entry, from bucket [i]. *)
Lemma enter_bucket w L t bl ess k i :
  ht_rep w L t bl ess -> (i <= length ess)%nat -> k = length (concat (take i ess)) ->
  (k < length (concat ess))%nat ->
  exists it' e, concat ess !! k = Some e /\ at_pos ess (S k) it' /\
    (r ← next_bucket (Z.to_nat (ht_buckets_num t - Z.of_nat i)) w t (Z.of_nat i);
     match r with
     | Some (i, head) =>
         n ← deref (w_nodes w !! head);
         Ok (It i head (Z.of_nat k), Some (n_ptr n))
     | None => Ok (It (ht_buckets_num t) 0 (Z.of_nat k), None)
     end) = Ok (it', Some (en_kv e)).
Proof.
  intros Hrep Hi Hk Hlt. rewrite (hr_num _ _ _ _ _ Hrep).
  destruct (next_bucket_spec (Z.to_nat (Z.of_nat (length ess) - Z.of_nat i)) w L t bl ess i Hrep)
    as [(j & e & r & Hj & Hl & Hc & ->)|[Hc _]]; [lia | |].
  - destruct (concat_lookup ess j [] e r Hl) as [He _]. rewrite Hc in He. simpl in He.
    rewrite Nat.add_0_r, <- Hk in He. destruct (entry_kv _ _ _ _ _ e Hrep) as (n & Hn & Hnk).
    { by eapply list_elem_of_lookup_2. }
    exists (It (Z.of_nat j) (en_node e) (Z.of_nat k)), e. split; [done |]. split.
    + right. exists j, [], e, r. rewrite Hc, <- Hk. split_and!; [done | f_equal; lia | simpl; lia].
    + cbn [mbind outcome_bind]. rewrite Hn. cbn. by rewrite Hnk.
  - exfalso. rewrite <- (take_drop i ess), concat_app, Hc, app_nil_r in Hlt. lia.
Qed.

Lemma iterator_next_spec w L t bl ess k it :
  ht_rep w L t bl ess -> at_pos ess k it -> (k < length (concat ess))%nat ->
  exists it' e, concat ess !! k = Some e /\ at_pos ess (S k) it' /\
    hash_table_iterator_next w t it = Ok (it', Some (en_kv e)).
Proof.
  intros Hrep Hpos Hk. unfold hash_table_iterator_next. rewrite (at_pos_index _ _ _ Hpos).
  rewrite (hr_size _ _ _ _ _ Hrep), (proj2 (Z.leb_gt _ _)) by lia.
  replace (Z.of_nat k - 1 + 1) with (Z.of_nat k) by lia.
  destruct Hpos as [[-> ->]|(i & l & e & r & Hi & -> & Hki)]; cbn [it_node it_bucket_index].
  - cbn [negb Z.eqb mbind outcome_bind].
    exact (enter_bucket w L t bl ess 0 0 Hrep ltac:(lia) eq_refl Hk).
  - destruct (concat_lookup _ _ _ _ _ Hi) as [Hce Hceq].
    assert (e ∈ concat ess) as He by by eapply list_elem_of_lookup_2.
    assert (en_node e <> 0) as He0
      by (apply (rep_not_null _ _ _ _ _ _ Hrep); right; by apply own_node).
    rewrite (proj2 (Z.eqb_neq _ _)) by done. cbn [negb].
    destruct (next_node _ _ _ _ _ _ _ _ _ Hrep Hi) as (n & -> & Hnx).
    cbn [deref mbind outcome_bind]. rewrite Hnx. destruct r as [|e2 r].
    + cbn [negb Z.eqb first head fmap list_fmap default].
      pose proof (lookup_lt_Some _ _ _ Hi).
      replace (Z.of_nat i + 1) with (Z.of_nat (S i)) by lia.
      apply (enter_bucket w L t bl ess k (S i)); [done | lia | | done].
      rewrite (take_S_r _ _ _ Hi), concat_app, !length_app. cbn. rewrite app_nil_r, length_app. simpl. lia.
    + assert (ess !! i = Some ((l ++ [e]) ++ e2 :: r)) as Hi2 by by rewrite <- app_assoc.
      destruct (concat_lookup _ _ _ _ _ Hi2) as [He2 _].
      assert (e2 ∈ concat ess) as Hin2 by by eapply list_elem_of_lookup_2.
      change (first (en_node <$> e2 :: r) 0) with (en_node e2).
      assert (en_node e2 <> 0) as He20
        by (apply (rep_not_null _ _ _ _ _ _ Hrep); right; by apply own_node).
      rewrite (proj2 (Z.eqb_neq _ _)) by done. cbn [negb].
      destruct (entry_kv _ _ _ _ _ e2 Hrep Hin2) as (n2 & -> & Hn2). cbn [deref mbind outcome_bind].
      rewrite length_app in He2. simpl in He2.
      exists (It (Z.of_nat i) (en_node e2) (Z.of_nat k)), e2.
      split; [by replace k with (length (concat (take i ess)) + (length l + 1))%nat by lia |].
      split; [|by cbn; rewrite Hn2].
      right. exists i, (l ++ [e]), e2, r. split; [done |]. split; [f_equal; lia |].
      rewrite length_app. simpl. lia.
Qed.

Lemma iterate_spec fuel w L t bl ess k it :
  ht_rep w L t bl ess -> at_pos ess k it -> (k <= length (concat ess))%nat ->
  (length (concat ess) - k < fuel)%nat ->
  iterate fuel w t it = Ok (en_kv <$> drop k (concat ess)).
Proof.
  intros Hrep. revert k it. induction fuel as [|fuel IH]; intros k it Hpos Hk Hf; [lia |].
  cbn [iterate]. unfold hash_table_iterator_has_next.
  rewrite (at_pos_index _ _ _ Hpos), (hr_size _ _ _ _ _ Hrep).
  destruct (decide (k = length (concat ess))) as [->|Hne].
  - rewrite (proj2 (Z.ltb_ge _ _)) by lia. by rewrite drop_ge by lia.
  - rewrite (proj2 (Z.ltb_lt _ _)) by lia.
    destruct (iterator_next_spec _ _ _ _ _ _ _ Hrep Hpos) as (it' & e & He & Hpos' & ->); [lia |].
    cbn [mbind outcome_bind deref]. rewrite (IH (S k)) by (done || lia). cbn [mbind outcome_bind].
    by rewrite (drop_S _ _ _ He).
Qed.

(** The pairs the iteration returns are the entries. *)
Definition pairs_at (w : world) (kvs : list Z) : list (Z * Z) :=
  omap (fun p => (fun kv => (kv_key kv, kv_v_ptr kv)) <$> w_kvs w !! p) kvs.

Lemma pairs_at_entries w L t bl ess :
  ht_rep w L t bl ess -> pairs_at w (en_kv <$> concat ess) ≡ₚ map_to_list (dict (concat ess)).
Proof.
  intros Hrep. unfold dict. rewrite map_to_list_to_map.
  2: { rewrite <- list_fmap_compose. apply Hrep. }
  assert (forall es, (forall e, e ∈ es -> holds w e) ->
    pairs_at w (en_kv <$> es) = (fun e => (en_key e, en_v e)) <$> es) as ->; [|done|].
  - induction es as [|e es IH]; intros Hh; [done |]. unfold pairs_at in *. cbn.
    destruct (Hh e) as [_ ->]; [by left |]. cbn. f_equal. apply IH. intros; apply Hh. by right.
  - apply (tb_holds _ _ _ _ (hr_tbl _ _ _ _ _ Hrep)).
Qed.
End iter.
