(* ===== verification/HashTableTheorems.v ===== *)
(** * Hash tables: the theorems

    The table implements a finite map from keys to values; witnesses run it on
    the kernel heap. *)

From S2P Require Import Prelude.
From S2P Require Import KHeap.
From S2P Require Import KMalloc.
From S2P Require Import Allocator.
From S2P Require Import LinkedList.
From S2P Require Import HashTable.
From S2P Require Import HashTableInv.
From S2P Require Import HashTableSpec.
From S2P Require Import HashTableExpand.
From S2P Require Import HashTableMap.
From S2P Require Import HashTableFree.
From S2P Require Import HashTableIter.

Section theorems.
Context {A : Type} `{Allocator A}.
Abbreviation world := (world A).

(** C25: [hash_table_put] on a table that represents the map [M] panics for
    lack of memory or returns the old value of the key (null if there was
    none) and a table that represents [M] with the key bound to the new
    value: the pair and the node are inserted, the load factor is kept, and
    an expansion to twice the buckets loses and reorders no binding. *)
Theorem hash_table_put_correct (w : world) L t M key v :
  is_table w L t M -> is_u32 key -> Z.of_nat (size L) + 2 < capacity -> may_grow t ->
  hash_table_put w t key v = Panic \/
  exists w' L' t', hash_table_put w t key v = Ok (w', t', default 0 (M !! key)) /\
    is_table w' L' t' (<[key := v]> M) /\
    (ht_buckets_num t' = ht_buckets_num t \/ ht_buckets_num t' = 2 * ht_buckets_num t).
Proof. apply hash_table_put_spec. Qed.

(** [hash_table_get] returns the value of the key in the map, null when
    there is none, and [hash_table_contains] whether there is one. *)
Theorem hash_table_get_correct (w : world) L t M key :
  is_table w L t M ->
  hash_table_get w t key = Ok (default 0 (M !! key)) /\
  hash_table_contains w t key = Ok (bool_decide (is_Some (M !! key))).
Proof. apply hash_table_lookup_spec. Qed.

(** [hash_table_remove] returns the value of the key and deletes exactly
    its binding; it frees the pair and the node, and leaves a table without
    the key untouched. *)
Theorem hash_table_remove_correct (w : world) L t M key :
  is_table w L t M -> ht_size t < 2147483648 ->
  exists w' L' t', hash_table_remove w t key = Ok (w', t', default 0 (M !! key)) /\
    is_table w' L' t' (delete key M) /\ ht_buckets_num t' = ht_buckets_num t /\
    (if decide (is_Some (M !! key)) then S (S (size L')) = size L else L' = L /\ w' = w).
Proof. apply hash_table_remove_spec. Qed.

(** C29: iterating with [hash_table_iterator_has_next] and
    [hash_table_iterator_next] ends and returns the pairs of the map, each
    binding exactly once. *)
Theorem hash_table_iterator_correct (w : world) L t M :
  is_table w L t M ->
  exists kvs, iterate (S (Z.to_nat (ht_size t))) w t hash_table_create_iterator = Ok kvs /\
    pairs_at w kvs ≡ₚ map_to_list M.
Proof.
  intros [(bl & ess & Hrep & ->) _ _ _]. exists (en_kv <$> concat ess). split.
  - rewrite (iterate_spec _ w L t bl ess 0) by
      (done || (left; done) || (rewrite ?(hr_size _ _ _ _ _ Hrep); lia)). done.
  - by eapply pairs_at_entries.
Qed.

(** [hash_table_destroy] frees the array of buckets and of every entry
    the pair, the node and the value, each once, and no other block (when
    the values are live blocks of their own). *)
Theorem hash_table_destroy_correct (w : world) L t bl ess :
  ht_rep w L t bl ess -> NoDup (ht_buckets t :: blocks true (concat ess)) ->
  (forall v, v ∈ en_v <$> concat ess -> is_Some (L !! v)) ->
  exists w' L' t', hash_table_destroy w t = Ok (w', t') /\ alive (w_alloc w') L' /\
    gone L L' (ht_buckets t :: blocks true (concat ess)).
Proof. apply hash_table_destroy_spec. Qed.

(** [hash_table_clear] leaves an empty table with as many buckets and
    frees the pairs and the nodes, not the values. *)
Theorem hash_table_clear_correct (w : world) L t bl ess :
  ht_rep w L t bl ess -> INITIAL_BUCKETS_NUM <= ht_buckets_num t ->
  exists w' L' t', hash_table_clear w t = Ok (w', t') /\ is_table w' L' t' ∅ /\
    ht_buckets_num t' = ht_buckets_num t /\ gone L L' (own (concat ess)).
Proof.
  intros Hrep Hn. destruct (hash_table_clear_spec w L t bl ess Hrep)
    as (w' & L' & t' & bl' & He & Hrep' & Hn' & Hg).
  exists w', L', t'. split; [done |]. split; [|done].
  assert (ht_map w' L' t' ∅) as Hm.
  { exists bl', (replicate (length ess) []). by rewrite concat_nil_replicate. }
  pose proof (ht_map_size _ _ _ _ Hm) as Hs. rewrite map_size_empty in Hs.
  unfold INITIAL_BUCKETS_NUM in *. constructor; unfold INITIAL_BUCKETS_NUM; [done | lia | lia | done].
Qed.
End theorems.

(** ** A table on the kernel heap *)

Definition boot_world : world kmem :=
  {| w_alloc := boot_heap; w_nodes := ∅; w_kvs := ∅; w_buckets := ∅ |}.

Lemma boot_table :
  exists w L t, hash_table_init boot_world = Ok (w, t) /\ is_table w L t ∅ /\
    size L = 1%nat /\ ht_buckets_num t = INITIAL_BUCKETS_NUM.
Proof.
  assert (alive (w_alloc boot_world) ∅) as Ha by exact boot_heap_alive.
  destruct (hash_table_init_spec boot_world ∅ Ha)
    as [Hp|(w & L & t & He & Ht & HL & Hn)]; [by vm_compute | by vm_compute | |].
  - exfalso. assert (is_panic (hash_table_init boot_world) = false) as Hno by (vm_compute; reflexivity).
    rewrite Hp in Hno. discriminate Hno.
  - exists w, L, t. rewrite map_size_empty in HL. exact (conj He (conj Ht (conj HL Hn))).
Qed.

(** The key 7 bound to 42 in it. *)
Lemma boot_table_put :
  exists w L t, ('(w, t) ← hash_table_init boot_world; hash_table_put w t 7 42) = Ok (w, t, 0) /\
    is_table w L t {[7 := 42]}.
Proof.
  destruct boot_table as (w & L & t & He & Ht & HL & Hn).
  destruct (hash_table_put_spec w L t ∅ 7 42 Ht) as [Hp|(w' & L' & t' & He' & Ht' & _)].
  - unfold is_u32. lia.
  - rewrite HL. vm_compute. reflexivity.
  - unfold may_grow. rewrite Hn. split; vm_compute; reflexivity.
  - exfalso. assert (is_panic ('(w, t) ← hash_table_init boot_world; hash_table_put w t 7 42) = false)
      as Hno by (vm_compute; reflexivity).
    rewrite He in Hno. cbn [mbind outcome_bind] in Hno. rewrite Hp in Hno. discriminate Hno.
  - exists w', L', t'. rewrite He. cbn [mbind outcome_bind]. split; [exact He' | exact Ht'].
Qed.

Lemma hash_table_put_correct_witness :
  exists w t, hash_table_init boot_world = Ok (w, t) /\
    (hash_table_put w t 7 42 = Panic \/
     exists w' L' t', hash_table_put w t 7 42 = Ok (w', t', 0) /\ is_table w' L' t' {[7 := 42]}).
Proof.
  destruct boot_table as (w & L & t & He & Ht & HL & Hn). exists w, t. split; [exact He |].
  destruct (hash_table_put_correct w L t ∅ 7 42 Ht) as [Hp|(w' & L' & t' & He' & Ht' & _)].
  - vm_compute. split; congruence.
  - rewrite HL. vm_compute. reflexivity.
  - unfold may_grow. rewrite Hn. split; vm_compute; reflexivity.
  - left. exact Hp.
  - right. exists w', L', t'. split; [exact He' | exact Ht'].
Defined.

Lemma hash_table_get_correct_witness :
  exists w t, ('(w, t) ← hash_table_init boot_world; hash_table_put w t 7 42) = Ok (w, t, 0) /\
    hash_table_get w t 7 = Ok 42 /\ hash_table_contains w t 8 = Ok false.
Proof.
  destruct boot_table_put as (w & L & t & He & Ht). exists w, t. split; [exact He |].
  split; [exact (proj1 (hash_table_get_correct w L t _ 7 Ht)) |
          exact (proj2 (hash_table_get_correct w L t _ 8 Ht))].
Defined.

Lemma hash_table_remove_correct_witness :
  exists w t w' L' t', ('(w, t) ← hash_table_init boot_world; hash_table_put w t 7 42) = Ok (w, t, 0) /\
    hash_table_remove w t 7 = Ok (w', t', 42) /\ is_table w' L' t' (delete 7 {[7 := 42]}).
Proof.
  destruct boot_table_put as (w & L & t & He & Ht).
  destruct (hash_table_remove_correct w L t _ 7 Ht) as (w' & L' & t' & He' & Ht' & _).
  - rewrite (it_size _ _ _ _ Ht). vm_compute. reflexivity.
  - exists w, t, w', L', t'. split; [exact He |]. split; [exact He' | exact Ht'].
Defined.

Lemma hash_table_iterator_correct_witness :
  exists w t kvs, ('(w, t) ← hash_table_init boot_world; hash_table_put w t 7 42) = Ok (w, t, 0) /\
    iterate (S (Z.to_nat (ht_size t))) w t hash_table_create_iterator = Ok kvs /\
    pairs_at w kvs ≡ₚ [(7, 42)].
Proof.
  destruct boot_table_put as (w & L & t & He & Ht).
  destruct (hash_table_iterator_correct w L t _ Ht) as (kvs & Hi & Hp).
  exists w, t, kvs. split; [exact He |]. split; [exact Hi | exact Hp].
Defined.

(** A table with one value that is a block of its own. *)
Definition value_table : outcome (world kmem * hash_table_t * Z) :=
  '(s, v) ← kmalloc boot_heap 4;
  '(w, t) ← hash_table_init {| w_alloc := s; w_nodes := ∅; w_kvs := ∅; w_buckets := ∅ |};
  '(w, t, _) ← hash_table_put w t 7 v;
  Ok (w, t, v).

Lemma value_table_rep :
  exists w L t bl ess e, value_table = Ok (w, t, en_v e) /\ ht_rep w L t bl ess /\
    concat ess = [e] /\ NoDup (ht_buckets t :: blocks true (concat ess)) /\ is_Some (L !! en_v e) /\
    ht_buckets_num t = INITIAL_BUCKETS_NUM.
Proof.
  assert (is_panic value_table = false) as Hno by (vm_compute; reflexivity).
  unfold value_table in Hno |- *. destruct (kmem_malloc_law boot_heap ∅ 4 boot_heap_alive) as [Hm|(s & v & k & He & _ & _ & Ha)]; [vm_compute; reflexivity | split; vm_compute; reflexivity | |].
  { rewrite Hm in Hno. discriminate Hno. }
  rewrite He in Hno |- *. cbn [mbind outcome_bind] in Hno |- *.
  set (w0 := {| w_alloc := s |}) in Hno |- *.
  assert (alive (w_alloc w0) (<[v := k]> ∅)) as Ha0 by exact Ha.
  destruct (hash_table_init_rep w0 _ Ha0) as [Hi|(w1 & p & k1 & bl1 & Hi & Hp & Hrep1)];
    [rewrite map_size_insert_None, map_size_empty by apply lookup_empty; vm_compute; reflexivity
    | vm_compute; reflexivity | |].
  { rewrite Hi in Hno. discriminate Hno. }
  rewrite Hi in Hno |- *. cbn [mbind outcome_bind] in Hno |- *. set (t1 := HT p INITIAL_BUCKETS_NUM 0) in *.
  destruct (key_cases _ _ _ _ _ 7 Hrep1) as (i & es & b & Hak & Hcase).
  rewrite concat_nil_replicate in Hcase.
  destruct Hcase as [(l & e & r & _ & _ & _ & _ & Hv)|[Hl Hnone]]; [discriminate Hv |].
  unfold hash_table_put in Hno |- *.
  rewrite (ak_index _ _ _ _ _ _ _ _ Hak), (ak_get _ _ _ _ _ _ _ _ Hak) in Hno |- *.
  cbn [mbind outcome_bind] in Hno |- *. rewrite Hl in Hno |- *.
  cbn [mbind outcome_bind negb Z.eqb] in Hno |- *.
  assert (dict (concat (replicate (Z.to_nat INITIAL_BUCKETS_NUM) [])) !! 7 = None) as Hnone'
    by by rewrite concat_nil_replicate.
  assert (v <> p) as Hvp by (intros ->; by rewrite lookup_insert_eq in Hp).
  destruct (put_new_spec _ _ _ _ _ 7 v i es b Hrep1 Hak) as [Hpn|
    (w2 & L2 & t2 & bl2 & ess2 & Hpn & Hrep2 & _ & _ & Hs2 & Hn2 & Hb2 & q & n & k2 & k3 & Hess & Hq & Hn & Hqn & ->)];
    [split; vm_compute; congruence | exact Hnone' | rewrite !map_size_insert_None, map_size_empty by (exact Hp || apply lookup_empty);
     vm_compute; reflexivity | vm_compute; reflexivity | vm_compute; reflexivity | |].
  { rewrite Hpn in Hno. discriminate Hno. }
  rewrite Hpn. cbn [mbind outcome_bind]. rewrite concat_nil_replicate in Hess.
  apply Permutation_singleton_r in Hess. rewrite Hs2, Hn2. cbn [t1 ht_size ht_buckets_num].
  change (3 * INITIAL_BUCKETS_NUM <? 4 * (0 + 1)) with false. cbn [mbind outcome_bind].
  exists w2, (<[n := k2]> (<[q := k3]> (<[p := k1]> (<[v := k]> ∅)))), t2, bl2, ess2, (En n q 7 v).
  rewrite lookup_insert_None in Hq, Hn. destruct Hq as [Hq Hpq], Hn as [Hn Hpn'].
  rewrite lookup_insert_None in Hq, Hn. destruct Hq as [_ Hvq], Hn as [_ Hvn].
  split; [reflexivity |]. split; [exact Hrep2 |]. split; [exact Hess |]. split; [|split; [|exact Hn2]].
  - rewrite Hb2, Hess. cbn. rewrite !NoDup_cons, !not_elem_of_cons.
    repeat split; try (apply not_elem_of_nil || apply NoDup_nil_2 || congruence).
  - cbn [en_v]. rewrite !lookup_insert_ne by congruence. rewrite lookup_insert_eq. by eexists.
Qed.

Lemma hash_table_destroy_correct_witness :
  exists w t v w' t' L', value_table = Ok (w, t, v) /\ hash_table_destroy w t = Ok (w', t') /\
    alive (w_alloc w') L' /\ L' !! v = None /\ L' !! ht_buckets t = None.
Proof.
  destruct value_table_rep as (w & L & t & bl & ess & e & He & Hrep & Hess & Hnd & Hv & Hnum).
  destruct (hash_table_destroy_correct w L t bl ess Hrep Hnd) as (w' & L' & t' & Hd & Ha & Hg).
  - rewrite Hess. intros v ->%list_elem_of_singleton. exact Hv.
  - exists w, t, (en_v e), w', t', L'. split; [exact He |]. split; [exact Hd |]. split; [exact Ha |].
    split; rewrite Hg; rewrite decide_True; try reflexivity.
    + right. rewrite Hess. unfold blocks. apply elem_of_app. right. by left.
    + by left.
Defined.

Lemma hash_table_clear_correct_witness :
  exists w t v w' t' L', value_table = Ok (w, t, v) /\ hash_table_clear w t = Ok (w', t') /\
    is_table w' L' t' ∅.
Proof.
  destruct value_table_rep as (w & L & t & bl & ess & e & He & Hrep & Hess & Hnd & Hv & Hnum).
  destruct (hash_table_clear_correct w L t bl ess Hrep) as (w' & L' & t' & Hc & Ht & _).
  - rewrite Hnum. reflexivity.
  - exists w, t, (en_v e), w', t', L'. split; [exact He |]. split; [exact Hc | exact Ht].
Defined.
