(* ===== verification/CStdlib.v ===== *)
(** * Memory and string routines (common/stdlib.c)

    C strings are bytes in memory up to a zero byte; [char] is signed, as on
    i386.  The stack arrays [buf] of [int2str], [int2hex] and [sprintf] are at
    addresses the definitions take as arguments.  Loops that run to a zero byte
    take fuel; the theorems show how much is enough. *)

From S2P Require Import Prelude.
From S2P Require Import Memory.

(** ** Definitions *)

Definition memset (m : mem) (addr value num : Z) : mem :=
  loop_up (Z.to_nat num) 0 (fun i m => store8 m (addr + i) value) m.

Definition memcpy (m : mem) (dst src num : Z) : mem :=
  loop_up (Z.to_nat num) 0 (fun i m => store8 m (dst + i) (load8 m (src + i))) m.

(** [num] is the number of bytes copied so far. *)
Fixpoint strcpy_from (fuel : nat) (m : mem) (dst src num : Z) : outcome (mem * Z) :=
  match fuel with
  | O => NoFuel
  | S fuel' =>
      let c := load8 m src in
      let m := store8 m dst c in
      if c =? 0 then Ok (m, num) else strcpy_from fuel' m (dst + 1) (src + 1) (num + 1)
  end.
Definition strcpy (fuel : nat) (m : mem) (dst src : Z) : outcome (mem * Z) :=
  strcpy_from fuel m dst src 0.

Fixpoint strcmp_from (fuel : nat) (m : mem) (str1 str2 i : Z) : outcome Z :=
  match fuel with
  | O => NoFuel
  | S fuel' =>
      let c := s8 (load8 m (str1 + i)) in
      let c2 := s8 (load8 m (str2 + i)) in
      if negb (c =? 0)
      then
        if c2 =? 0 then Ok 1
        else if negb (c =? c2) then Ok (if c <? c2 then -1 else 1)
        else strcmp_from fuel' m str1 str2 (i + 1)
      else Ok (if c2 =? 0 then 0 else 1)
  end.
Definition strcmp (fuel : nat) (m : mem) (str1 str2 : Z) : outcome Z :=
  strcmp_from fuel m str1 str2 0.

Fixpoint strlen_from (fuel : nat) (m : mem) (str i : Z) : outcome Z :=
  match fuel with
  | O => NoFuel
  | S fuel' => if load8 m (str + i) =? 0 then Ok i else strlen_from fuel' m str (i + 1)
  end.
Definition strlen (fuel : nat) (m : mem) (str : Z) : outcome Z := strlen_from fuel m str 0.

Definition dec_digit (remain : Z) : Z := 48 + remain.
Definition hex_digit (remain : Z) : Z := if remain <=? 9 then 48 + remain else 97 + (remain - 10).

(** [while (num > 0) { buf[i--] = digit(num % base); num = num / base; }] *)
Fixpoint put_digits (fuel : nat) (base : Z) (digit : Z -> Z) (m : mem) (buf i num : Z) :
    outcome (mem * Z) :=
  match fuel with
  | O => NoFuel
  | S fuel' =>
      if 0 <? num
      then put_digits fuel' base digit (store8 m (buf + i) (digit (num mod base))) buf
             (u32 (i - 1)) (num / base)
      else Ok (m, i)
  end.

(** A 31-bit number has at most 31 digits; the strings in [buf] are shorter
    than 16 bytes. *)
Definition DIGITS_FUEL : nat := 32.
Definition BUF_FUEL : nat := 16.

Definition int2str (buf : Z) (m : mem) (dst num : Z) : outcome (mem * Z) :=
  let start := 0 in
  let '(m, start, num) :=
    if num <? 0 then (store8 m (dst + start) 45, start + 1, s32 (- num)) else (m, start, num) in
  let m := store8 m (buf + 15) 0 in
  '(m, i) ← put_digits DIGITS_FUEL 10 dec_digit m buf 14 num;
  '(m, _) ← strcpy BUF_FUEL m (dst + start) (buf + i + 1);
  Ok (m, s32 (start + 14 - i)).

Definition int2hex (buf : Z) (m : mem) (dst num : Z) : outcome (mem * Z) :=
  let start := 0 in
  let '(m, start, num) :=
    if num <? 0 then (store8 m (dst + start) 45, start + 1, s32 (- num)) else (m, start, num) in
  let m := store8 m (dst + start) 48 in
  let m := store8 m (dst + (start + 1)) 120 in
  let start := start + 2 in
  let m := store8 m (buf + 15) 0 in
  '(m, i) ← put_digits DIGITS_FUEL 16 hex_digit m buf 14 num;
  '(m, _) ← strcpy BUF_FUEL m (dst + start) (buf + i + 1);
  Ok (m, s32 (start + 14 - i)).

Section sprintf.
(** The stack arrays of [sprintf] and of the conversion it calls. *)
Context (buf ibuf : Z).

(** One conversion: [conv(buf, int_arg); write_index += strcpy(dst + write_index, buf);] *)
Definition sprintf_num (conv : Z -> mem -> Z -> Z -> outcome (mem * Z)) (m : mem)
    (dst write_index arg_ptr : Z) : outcome (mem * Z) :=
  let int_arg := s32 (load32 m arg_ptr) in
  '(m, _) ← conv ibuf m buf int_arg;
  '(m, n) ← strcpy BUF_FUEL m (dst + write_index) buf;
  Ok (m, write_index + n).

(** The loop of [sprintf]; [sfuel] bounds the strings it copies. *)
Fixpoint sprintf_from (fuel sfuel : nat) (m : mem) (dst str i write_index arg_ptr : Z) :
    outcome (mem * Z) :=
  match fuel with
  | O => NoFuel
  | S fuel' =>
      let c := load8 m (str + i) in
      if c =? 0 then Ok (m, write_index)
      else if c =? 37 then
        let i := i + 1 in
        let next := load8 m (str + i) in
        if c =? 0 then Ok (m, write_index)
        else if next =? 100 then
          '(m, write_index) ← sprintf_num int2str m dst write_index arg_ptr;
          sprintf_from fuel' sfuel m dst str (i + 1) write_index (arg_ptr + 4)
        else if next =? 117 then
          '(m, write_index) ← sprintf_num int2str m dst write_index arg_ptr;
          sprintf_from fuel' sfuel m dst str (i + 1) write_index (arg_ptr + 4)
        else if next =? 120 then
          '(m, write_index) ← sprintf_num int2hex m dst write_index arg_ptr;
          sprintf_from fuel' sfuel m dst str (i + 1) write_index (arg_ptr + 4)
        else if next =? 115 then
          let str_arg := load32 m arg_ptr in
          '(m, n) ← strcpy sfuel m (dst + write_index) str_arg;
          sprintf_from fuel' sfuel m dst str (i + 1) (write_index + n) (arg_ptr + 4)
        else sprintf_from fuel' sfuel m dst str (i + 1) write_index arg_ptr
      else
        sprintf_from fuel' sfuel (store8 m (dst + write_index) c) dst str (i + 1)
          (write_index + 1) arg_ptr
  end.

(** [arg_ptr] is the address of the first variadic argument, [ebp + 16]. *)
Definition sprintf (fuel : nat) (m : mem) (dst str arg_ptr : Z) : outcome mem :=
  '(m, write_index) ← sprintf_from fuel fuel m dst str 0 0 arg_ptr;
  Ok (store8 m (dst + write_index) 0).
End sprintf.

(** ** Strings in memory *)

(** The string [s] is at [p], with its terminator. *)
Fixpoint cstr (m : mem) (p : Z) (s : list Z) : Prop :=
  match s with
  | [] => load8 m p = 0
  | c :: s' => load8 m p = c /\ c <> 0 /\ cstr m (p + 1) s'
  end.

Abbreviation len s := (Z.of_nat (length s)).

Lemma cstr_same m m' p s :
  same_on m m' p (p + len s + 1) -> cstr m p s -> cstr m' p s.
Proof.
  revert p. induction s as [|c s IH]; intros p Hs; cbn [cstr length]; intros H.
  - rewrite Hs by (cbn [length] in *; lia). done.
  - destruct H as (H1 & H2 & H3). cbn [length] in Hs. split; [| split; [done |]].
    + rewrite Hs by lia. done.
    + apply IH; [| done]. eapply same_on_sub; [exact Hs | lia | lia].
Qed.

Lemma cstr_char_range m p s : cstr m p s -> Forall (fun c => 0 < c < 256) s.
Proof.
  revert p. induction s as [|c s IH]; intros p; cbn [cstr]; intros H; [constructor |].
  destruct H as (H1 & H2 & H3). constructor; [| by eapply IH].
  pose proof (load8_range m p). lia.
Qed.

Lemma cstr_app m p s t :
  cstr m p (s ++ t) <->
  (forall i c, s !! i = Some c -> load8 m (p + Z.of_nat i) = c /\ c <> 0) /\
  cstr m (p + len s) t.
Proof.
  revert p. induction s as [|c s IH]; intros p; cbn [app cstr length].
  - rewrite Z.add_0_r. split; [intros H; split; [intros i c Hi; done | done] | tauto].
  - rewrite IH. split.
    + intros (H1 & H2 & H3 & H4). split.
      * intros [|i] c' Hi; simpl in Hi.
        -- injection Hi as <-. by rewrite Z.add_0_r.
        -- replace (p + Z.of_nat (S i)) with (p + 1 + Z.of_nat i) by lia. by apply H3.
      * by replace (p + Z.of_nat (S (length s))) with (p + 1 + len s) by lia.
    + intros [H1 H2]. destruct (H1 0%nat c) as [Hc Hn]; [done |].
      rewrite Z.add_0_r in Hc. split; [done |]. split; [done |]. split.
      * intros i c' Hi. replace (p + 1 + Z.of_nat i) with (p + Z.of_nat (S i)) by lia.
        by apply H1.
      * by replace (p + 1 + len s) with (p + Z.of_nat (S (length s))) by lia.
Qed.

(** [m'] is [m] with the bytes of [s] at [p]. *)
Definition put_bytes (m m' : mem) (p : Z) (s : list Z) : Prop :=
  (forall i c, s !! i = Some c -> load8 m' (p + Z.of_nat i) = c) /\
  same_out m m' p (p + len s).

Lemma put_bytes_nil m p : put_bytes m m p [].
Proof. split; [done | auto with mem]. Qed.

Lemma put_bytes_cons m m' p c s :
  0 <= c < 256 ->
  put_bytes (store8 m p c) m' (p + 1) s -> put_bytes m m' p (c :: s).
Proof.
  intros Hc [H1 H2]. split.
  - intros [|i] c' Hi; simpl in Hi.
    + injection Hi as <-. rewrite Z.add_0_r, H2 by lia. mem_simpl. by apply u8_small.
    + replace (p + Z.of_nat (S i)) with (p + 1 + Z.of_nat i) by lia. by apply H1.
  - intros b Hb. cbn [length] in Hb. rewrite H2 by lia. by mem_simpl.
Qed.

Lemma put_bytes_app m m1 m2 p s t :
  put_bytes m m1 p s -> put_bytes m1 m2 (p + len s) t -> put_bytes m m2 p (s ++ t).
Proof.
  intros [H1 H2] [H3 H4]. split.
  - intros i c Hi. apply lookup_app_Some in Hi as [Hi | [Hl Hi]].
    + rewrite H4; [by apply H1 |]. apply lookup_lt_Some in Hi. lia.
    + apply H3 in Hi. by replace (p + Z.of_nat i) with (p + len s + Z.of_nat (i - length s)) by lia.
  - rewrite length_app. eapply same_out_trans; [eapply same_out_sub; [exact H2 | lia | lia] |].
    eapply same_out_sub; [exact H4 | lia | lia].
Qed.

Lemma put_bytes_cstr m m' p s :
  Forall (fun c => 0 < c < 256) s -> put_bytes m m' p (s ++ [0]) -> cstr m' p s.
Proof.
  intros Hs [H _]. replace s with (s ++ []) by apply app_nil_r. apply cstr_app. split.
  - intros i c Hi. split; [apply H; by apply lookup_app_l_Some |].
    apply (Forall_lookup_1 _ _ _ _ Hs) in Hi. lia.
  - apply (H (length s) 0). by rewrite lookup_app_r, Nat.sub_diag by lia.
Qed.

(** ** Copying, measuring and comparing *)

Lemma ltb_ext x y y' : (x < y <-> x < y') -> (x <? y) = (x <? y').
Proof. intros H. destruct (Z.ltb_spec x y), (Z.ltb_spec x y'); tauto || lia. Qed.

Lemma memset_spec m addr value num b :
  load8 (memset m addr value num) b
  = if (addr <=? b) && (b <? addr + num) then u8 value else load8 m b.
Proof.
  set (P k m' := forall b, load8 m' b
    = if (addr <=? b) && (b <? addr + k) then u8 value else load8 m b).
  assert (P (0 + Z.of_nat (Z.to_nat num)) (memset m addr value num)) as H.
  { apply (loop_up_rule P); unfold P.
    - intros x. destruct (addr <=? x) eqn:E1, (x <? addr + 0) eqn:E2; simpl; try done. lia.
    - intros j t Hj Ht x. destruct (decide (x = addr + j)) as [-> | Hne]; mem_simpl.
      + destruct (addr <=? addr + j) eqn:E1, (addr + j <? addr + (j + 1)) eqn:E2; simpl; lia || done.
      + rewrite Ht. destruct (addr <=? x) eqn:E1; simpl; [| done].
        destruct (x <? addr + j) eqn:E2, (x <? addr + (j + 1)) eqn:E3; lia || done. }
  rewrite H. destruct (addr <=? b) eqn:E1; simpl; [| done].
  clear H P. rewrite ltb_ext with (y' := addr + num) by lia. done.
Qed.

Lemma memcpy_spec m dst src num b :
  dst <= src \/ src + num <= dst ->
  load8 (memcpy m dst src num) b
  = if (dst <=? b) && (b <? dst + num) then load8 m (src + (b - dst)) else load8 m b.
Proof.
  intros Hd.
  set (P k m' := forall b, load8 m' b
    = if (dst <=? b) && (b <? dst + k) then load8 m (src + (b - dst)) else load8 m b).
  assert (P (0 + Z.of_nat (Z.to_nat num)) (memcpy m dst src num)) as H.
  { apply (loop_up_rule P); unfold P.
    - intros x. destruct (dst <=? x) eqn:E1, (x <? dst + 0) eqn:E2; simpl; try done. lia.
    - intros j t Hj Ht x. destruct (decide (x = dst + j)) as [-> | Hne]; mem_simpl.
      + rewrite Ht.
        destruct (dst <=? dst + j) eqn:E1, (dst + j <? dst + (j + 1)) eqn:E2; simpl; try lia.
        replace (src + (dst + j - dst)) with (src + j) by lia.
        destruct (dst <=? src + j) eqn:E3, (src + j <? dst + j) eqn:E4; simpl; try lia;
          apply u8_small, load8_range.
      + rewrite Ht. destruct (dst <=? x) eqn:E1; simpl; [| done].
        destruct (x <? dst + j) eqn:E2, (x <? dst + (j + 1)) eqn:E3; lia || done. }
  rewrite H. destruct (dst <=? b) eqn:E1; simpl; [| done].
  clear H P. rewrite ltb_ext with (y' := dst + num) by lia. done.
Qed.

Lemma strcpy_from_spec s fuel m dst src num :
  cstr m src s -> (length s < fuel)%nat ->
  dst + len s + 1 <= src \/ src + len s + 1 <= dst ->
  exists m', strcpy_from fuel m dst src num = Ok (m', num + len s) /\
    put_bytes m m' dst (s ++ [0]).
Proof.
  revert fuel m dst src num. induction s as [|c s IH]; intros [|fuel] m dst src num Hs Hf Hd;
    simpl in Hf; try lia; cbn [cstr length] in Hs, Hd; simpl.
  - rewrite Hs. simpl. exists (store8 m dst 0). split; [by rewrite Z.add_0_r |].
    apply put_bytes_cons; [lia | apply put_bytes_nil].
  - destruct Hs as (H1 & H2 & H3). rewrite H1. destruct (Z.eqb_spec c 0); [done |].
    destruct (IH fuel (store8 m dst c) (dst + 1) (src + 1) (num + 1)) as (m' & Hr & Hp).
    + eapply cstr_same; [| exact H3]. intros b Hb. by mem_simpl.
    + lia.
    + lia.
    + exists m'. split; [rewrite Hr; do 2 f_equal; lia |].
      apply put_bytes_cons; [pose proof (load8_range m src); lia | done].
Qed.

(** [strcpy] copies the string and its terminator, and returns its length. *)
Lemma strcpy_spec s fuel m dst src :
  cstr m src s -> (length s < fuel)%nat ->
  dst + len s + 1 <= src \/ src + len s + 1 <= dst ->
  exists m', strcpy fuel m dst src = Ok (m', len s) /\ put_bytes m m' dst (s ++ [0]).
Proof. apply (strcpy_from_spec s fuel m dst src 0). Qed.

Lemma strlen_from_spec s fuel m str i :
  cstr m (str + i) s -> (length s < fuel)%nat -> strlen_from fuel m str i = Ok (i + len s).
Proof.
  revert fuel i. induction s as [|c s IH]; intros [|fuel] i Hs Hf; simpl in Hf; try lia;
    cbn [cstr length] in Hs; simpl.
  - rewrite Hs. simpl. by rewrite Z.add_0_r.
  - destruct Hs as (H1 & H2 & H3). rewrite H1. destruct (Z.eqb_spec c 0); [done |].
    rewrite IH; [f_equal; lia | by replace (str + (i + 1)) with (str + i + 1) by lia | lia].
Qed.

Lemma strlen_spec s fuel m str :
  cstr m str s -> (length s < fuel)%nat -> strlen fuel m str = Ok (len s).
Proof. intros. apply (strlen_from_spec s); [by rewrite Z.add_0_r | done]. Qed.

(** What [strcmp] computes: the sign of the first difference, and 1 when one
    string is a proper prefix of the other, whichever is the longer one. *)
Fixpoint compare_strings (s1 s2 : list Z) : Z :=
  match s1, s2 with
  | [], [] => 0
  | [], _ :: _ | _ :: _, [] => 1
  | c1 :: s1', c2 :: s2' =>
      if c1 =? c2 then compare_strings s1' s2' else if s8 c1 <? s8 c2 then -1 else 1
  end.

Lemma compare_strings_eq s1 s2 : compare_strings s1 s2 = 0 <-> s1 = s2.
Proof.
  revert s2. induction s1 as [|c1 s1 IH]; intros [|c2 s2]; simpl; try done.
  destruct (Z.eqb_spec c1 c2) as [-> | Hne].
  - rewrite IH. split; congruence.
  - split; [destruct (_ <? _); done | congruence].
Qed.

Lemma s8_zero c : 0 <= c < 256 -> (s8 c =? 0) = (c =? 0).
Proof. intros Hc. unfold s8. destruct (Z.eqb_spec c 0); lia. Qed.

Lemma s8_inj a b : 0 <= a < 256 -> 0 <= b < 256 -> (s8 a =? s8 b) = (a =? b).
Proof. intros Ha Hb. unfold s8. destruct (Z.eqb_spec a b); lia. Qed.

Lemma strcmp_from_spec s1 s2 fuel m str1 str2 i :
  cstr m (str1 + i) s1 -> cstr m (str2 + i) s2 -> (length s1 < fuel)%nat ->
  strcmp_from fuel m str1 str2 i = Ok (compare_strings s1 s2).
Proof.
  revert s2 fuel i. induction s1 as [|c1 s1 IH]; intros s2 [|fuel] i H1 H2 Hf;
    simpl in Hf; try lia; cbn [strcmp_from];
    rewrite !s8_zero, s8_inj by apply load8_range;
    destruct s2 as [|c2 s2]; cbn [cstr] in H1, H2.
  - by rewrite H1, H2.
  - destruct H2 as (E2 & N2 & _). rewrite H1, E2. destruct (Z.eqb_spec c2 0); done.
  - destruct H1 as (E1 & N1 & _). rewrite E1, H2. destruct (Z.eqb_spec c1 0); done.
  - destruct H1 as (E1 & N1 & R1), H2 as (E2 & N2 & R2). rewrite E1, E2.
    destruct (Z.eqb_spec c1 0), (Z.eqb_spec c2 0); try done. simpl.
    destruct (Z.eqb_spec c1 c2); simpl; [| by destruct (_ <? _)].
    apply IH; [by replace (str1 + (i + 1)) with (str1 + i + 1) by lia
      | by replace (str2 + (i + 1)) with (str2 + i + 1) by lia | lia].
Qed.

(** Strcmp of two strings returns within one step per character of the
    first string: 0 exactly when they are equal, the sign of their first
    difference, and 1 when one is a proper prefix of the other. *)
Theorem strcmp_correct fuel m str1 str2 s1 s2
    (H1 : cstr m str1 s1) (H2 : cstr m str2 s2) (Hf : (length s1 < fuel)%nat) :
  strcmp fuel m str1 str2 = Ok (compare_strings s1 s2) /\
  (strcmp fuel m str1 str2 = Ok 0 <-> s1 = s2).
Proof.
  assert (strcmp fuel m str1 str2 = Ok (compare_strings s1 s2)) as E.
  { apply strcmp_from_spec; [by rewrite Z.add_0_r | by rewrite Z.add_0_r | done]. }
  split; [done |]. rewrite E, <- compare_strings_eq. split; congruence.
Qed.

(** ** Numbers *)

(** The digits of [n], most significant first, in front of [acc]. *)
Fixpoint digits (k : nat) (base : Z) (digit : Z -> Z) (n : Z) (acc : list Z) : list Z :=
  match k with
  | O => acc
  | S k' => if 0 <? n then digits k' base digit (n / base) (digit (n mod base) :: acc) else acc
  end.

Definition dec (num : Z) : list Z :=
  (if num <? 0 then [45] else []) ++
  digits DIGITS_FUEL 10 dec_digit (if num <? 0 then s32 (- num) else num) [].
Definition hex (num : Z) : list Z :=
  (if num <? 0 then [45] else []) ++ [48; 120] ++
  digits DIGITS_FUEL 16 hex_digit (if num <? 0 then s32 (- num) else num) [].

(** The number a string of digits denotes. *)
Definition digits_value (base : Z) (val : Z -> Z) (s : list Z) : Z :=
  foldl (fun v c => v * base + val c) 0 s.
Definition dec_val (c : Z) : Z := c - 48.
Definition parse_dec (s : list Z) : Z :=
  match s with
  | 45 :: s' => - digits_value 10 dec_val s'
  | _ => digits_value 10 dec_val s
  end.

Lemma digits_acc k base digit n acc :
  digits k base digit n acc = digits k base digit n [] ++ acc.
Proof.
  revert n acc. induction k as [|k IH]; intros n acc; simpl; [done |].
  destruct (0 <? n); [| done]. rewrite IH, (IH _ [_]). by rewrite <- app_assoc.
Qed.

Lemma digits_length k base digit n b :
  2 <= base -> n < base ^ Z.of_nat b -> (length (digits k base digit n []) <= b)%nat.
Proof.
  intros Hbase. revert n b. induction k as [|k IH]; intros n b Hn; simpl; [lia |].
  destruct (Z.ltb_spec 0 n); simpl; [| lia].
  destruct b as [|b]; [simpl in Hn; lia |].
  rewrite digits_acc, length_app. simpl.
  assert (n / base < base ^ Z.of_nat b) as Hdiv.
  { apply Z.div_lt_upper_bound; [lia |].
    rewrite Nat2Z.inj_succ, Z.pow_succ_r in Hn by lia. lia. }
  apply IH in Hdiv. lia.
Qed.

Lemma digits_chars k base digit n :
  2 <= base -> (forall r, 0 <= r < base -> 0 < digit r < 256) ->
  Forall (fun c => 0 < c < 256) (digits k base digit n []).
Proof.
  intros Hb Hd. revert n. induction k as [|k IH]; intros n; simpl; [constructor |].
  destruct (0 <? n); [| constructor]. rewrite digits_acc. apply Forall_app. split; [apply IH |].
  constructor; [apply Hd, Z.mod_pos_bound; lia | constructor].
Qed.

Lemma digits_value_digits k base digit val n :
  2 <= base -> (forall r, 0 <= r < base -> val (digit r) = r) ->
  0 <= n < 2 ^ Z.of_nat k ->
  digits_value base val (digits k base digit n []) = n.
Proof.
  intros Hb Hv. revert n. induction k as [|k IH]; intros n Hn; simpl; [simpl in Hn; unfold digits_value; simpl; lia |].
  destruct (Z.ltb_spec 0 n); [| unfold digits_value; simpl; lia].
  rewrite digits_acc. unfold digits_value. rewrite foldl_app. simpl.
  fold (digits_value base val (digits k base digit (n / base) [])). rewrite IH.
  - rewrite Hv by (apply Z.mod_pos_bound; lia).
    pose proof (Z.div_mod n base ltac:(lia)). lia.
  - rewrite Nat2Z.inj_succ, Z.pow_succ_r in Hn by lia. split; [apply Z.div_pos; lia |].
    apply Z.div_lt_upper_bound; [lia |]. nia.
Qed.

Lemma digits_no_minus k n : Forall (fun c => 48 <= c) (digits k 10 dec_digit n []).
Proof.
  revert n. induction k as [|k IH]; intros n; simpl; [constructor |].
  destruct (0 <? n); [| constructor]. rewrite digits_acc. apply Forall_app. split; [apply IH |].
  constructor; [unfold dec_digit; pose proof (Z.mod_pos_bound n 10); lia | constructor].
Qed.

Lemma dec_digit_range r : 0 <= r < 10 -> 0 < dec_digit r < 256.
Proof. unfold dec_digit. lia. Qed.
Lemma hex_digit_range r : 0 <= r < 16 -> 0 < hex_digit r < 256.
Proof. unfold hex_digit. case_match; lia. Qed.

Lemma put_digits_spec k base digit m buf n acc b :
  2 <= base -> (forall r, 0 <= r < base -> 0 < digit r < 256) ->
  n < 2 ^ Z.of_nat k -> n < base ^ Z.of_nat b -> (b + length acc <= 14)%nat ->
  cstr m (buf + (14 - len acc) + 1) acc ->
  let out := digits (S k) base digit n acc in
  exists m', put_digits (S k) base digit m buf (14 - len acc) n = Ok (m', 14 - len out) /\
    cstr m' (buf + (14 - len out) + 1) out /\ same_out m m' buf (buf + 15).
Proof.
  intros Hbase Hdig. revert m n acc b. induction k as [|k IH]; intros m n acc b Hk Hb Hl Hc.
  - simpl in Hk |- *. destruct (Z.ltb_spec 0 n); [lia |]. exists m. auto with mem.
  - rewrite Nat2Z.inj_succ, Z.pow_succ_r in Hk by lia.
    cbn zeta. set (k1 := S k) in *. cbn [digits put_digits].
    destruct (Z.ltb_spec 0 n); [| exists m; auto with mem].
    destruct b as [|b]; [simpl in Hb; lia |].
    rewrite Nat2Z.inj_succ, Z.pow_succ_r in Hb by lia.
    assert (0 <= n mod base < base) as Hr by (apply Z.mod_pos_bound; lia).
    pose proof (Hdig _ Hr) as Hd. replace (u32 (14 - len acc - 1)) with (14 - len (digit (n mod base) :: acc))
      by (cbn [length]; rewrite u32_small; lia).
    destruct (IH (store8 m (buf + (14 - len acc)) (digit (n mod base))) (n / base)
      (digit (n mod base) :: acc) b) as (m' & Hp & Hs & Ho).
    + apply Z.div_lt_upper_bound; [lia |]. nia.
    + apply Z.div_lt_upper_bound; [lia |]. lia.
    + cbn [length]. lia.
    + cbn [cstr length]. replace (buf + (14 - Z.of_nat (S (length acc))) + 1) with (buf + (14 - len acc)) by lia.
      split; [mem_simpl; apply u8_small; lia |]. split; [lia |].
      eapply cstr_same; [| exact Hc]. intros x Hx. by mem_simpl.
    + exists m'. split; [done |]. split; [done |]. eapply same_out_trans; [| exact Ho].
      eapply same_out_sub; [apply same_out_store8 | lia | lia].
Qed.

(** Both conversions leave at most 13 characters and touch [dst] and [buf] only. *)
Definition converts (conv : Z -> mem -> Z -> Z -> outcome (mem * Z)) (text : Z -> list Z) : Prop :=
  forall buf m dst num, is_s32 num ->
  dst + 16 <= buf \/ buf + 16 <= dst ->
  exists m', conv buf m dst num = Ok (m', len (text num)) /\ cstr m' dst (text num) /\
    (length (text num) <= 13)%nat /\ Forall (fun c => 0 < c < 256) (text num) /\
    (forall b, b < dst \/ dst + 16 <= b -> b < buf \/ buf + 16 <= b -> load8 m' b = load8 m b).

(** The common end of both conversions: digits into [buf], then to [dst] behind
    the prefix [pre] already there. *)
Lemma convert_digits base digit pre m0 m buf dst n (b : nat) :
  2 <= base -> (forall r, 0 <= r < base -> 0 < digit r < 256) ->
  n < 2147483648 -> n < base ^ Z.of_nat b -> (b <= 10)%nat ->
  (length pre <= 3)%nat -> Forall (fun c => 0 < c < 256) pre ->
  dst + 16 <= buf \/ buf + 16 <= dst ->
  put_bytes m0 m dst pre ->
  let out := digits DIGITS_FUEL base digit n [] in
  exists m',
    ('(m, i) ← put_digits DIGITS_FUEL base digit (store8 m (buf + 15) 0) buf 14 n;
     '(m, _) ← strcpy BUF_FUEL m (dst + len pre) (buf + i + 1);
     Ok (m, s32 (len pre + 14 - i))) = Ok (m', len (pre ++ out)) /\
    cstr m' dst (pre ++ out) /\ (length (pre ++ out) <= 13)%nat /\
    Forall (fun c => 0 < c < 256) (pre ++ out) /\
    (forall b, b < dst \/ dst + 16 <= b -> b < buf \/ buf + 16 <= b -> load8 m' b = load8 m0 b).
Proof.
  intros Hbase Hdig Hn Hb Hb10 Hpl Hpre Hd Hp. cbn zeta.
  set (out := digits DIGITS_FUEL base digit n []).
  assert (length out <= b)%nat as Hlen by (apply digits_length; [lia | done]).
  assert (Forall (fun c => 0 < c < 256) out) as Hout by (by apply digits_chars).
  destruct (put_digits_spec 31 base digit (store8 m (buf + 15) 0) buf n [] b)
    as (m1 & Hput & Hc1 & Ho1); [lia | done | done | done | simpl; lia | |].
  { change (load8 (store8 m (buf + 15) 0) (buf + 14 + 1) = 0).
    replace (buf + 14 + 1) with (buf + 15) by lia. by mem_simpl. }
  fold DIGITS_FUEL out in Hput, Hc1. change (14 - len (@nil Z)) with 14 in Hput.
  rewrite Hput. clearbody out. simpl.
  destruct (strcpy_spec out BUF_FUEL m1 (dst + len pre) (buf + (14 - len out) + 1))
    as (m2 & Hcpy & Hp2); [done | unfold BUF_FUEL; lia | lia |].
  rewrite Hcpy. simpl. exists m2. split; [| split; [| split; [| split]]].
  - rewrite length_app, s32_small by (unfold is_s32; lia). f_equal. f_equal. lia.
  - destruct Hp as [Hp1 Hp1o]. apply cstr_app. split.
    + intros i c Hi. pose proof (lookup_lt_Some _ _ _ Hi) as Hlt.
      split; [| apply (Forall_lookup_1 _ _ _ _ Hpre) in Hi; lia].
      rewrite (proj2 Hp2), Ho1 by (rewrite ?length_app; lia). mem_simpl. by apply Hp1.
    + by apply (put_bytes_cstr m1).
  - rewrite length_app. lia.
  - by apply Forall_app.
  - intros x Hx1 Hx2. rewrite (proj2 Hp2), Ho1 by (rewrite ?length_app; simpl; lia).
    rewrite load8_store8_ne by lia. apply (proj2 Hp). lia.
Qed.

Lemma parse_dec_dec num : -2147483648 < num < 2147483648 -> parse_dec (dec num) = num.
Proof.
  intros Hn. unfold dec.
  assert (forall n, 0 <= n < 2147483648 ->
    digits_value 10 dec_val (digits DIGITS_FUEL 10 dec_digit n []) = n) as Hv.
  { intros n Hr. apply digits_value_digits; [lia | unfold dec_val, dec_digit; lia |].
    change (2 ^ Z.of_nat DIGITS_FUEL) with 4294967296. lia. }
  destruct (Z.ltb_spec num 0).
  - cbn [app parse_dec]. rewrite Hv; rewrite s32_small; unfold is_s32; lia.
  - specialize (Hv num ltac:(lia)). rewrite app_nil_l. revert Hv.
    pose proof (digits_no_minus DIGITS_FUEL num) as Hm. revert Hm.
    generalize (digits DIGITS_FUEL 10 dec_digit num []). intros [|c s] Hm <-; [done |].
    inversion Hm as [|? ? Hc _]; subst. unfold parse_dec. repeat case_match; done || lia.
Qed.

(** A negative number is negated at 32 bits: [INT_MIN] stays negative, and its
    loop writes no digit. *)
Lemma neg_bound num : is_s32 num -> (if num <? 0 then s32 (- num) else num) < 2147483648.
Proof. intros H. unfold is_s32 in H. destruct (num <? 0); [apply s32_range | lia]. Qed.

Lemma int2str_spec : converts int2str dec.
Proof.
  intros buf m dst num Hn Hd. pose proof (neg_bound num Hn) as Hb. unfold int2str, dec.
  destruct (Z.ltb_spec num 0).
  - eapply (convert_digits 10 dec_digit [45] m _ buf dst _ 10);
      [lia | apply dec_digit_range | done | simpl; lia | lia | simpl; lia | | done |].
    + repeat constructor; lia.
    + rewrite Z.add_0_r. apply put_bytes_cons; [lia | apply put_bytes_nil].
  - eapply (convert_digits 10 dec_digit [] m _ buf dst _ 10);
      [lia | apply dec_digit_range | done | simpl; lia | lia | simpl; lia | constructor | done |].
    apply put_bytes_nil.
Qed.

Lemma int2hex_spec : converts int2hex hex.
Proof.
  intros buf m dst num Hn Hd. pose proof (neg_bound num Hn) as Hb. unfold int2hex, hex.
  destruct (Z.ltb_spec num 0).
  - eapply (convert_digits 16 hex_digit [45; 48; 120] m _ buf dst _ 8);
      [lia | apply hex_digit_range | done | simpl; lia | lia | simpl; lia | | done |].
    + repeat constructor; lia.
    + rewrite Z.add_0_r. repeat (apply put_bytes_cons; [lia |]).
      rewrite <- !Z.add_assoc. apply put_bytes_nil.
  - eapply (convert_digits 16 hex_digit [48; 120] m _ buf dst _ 8);
      [lia | apply hex_digit_range | done | simpl; lia | lia | simpl; lia | | done |].
    + repeat constructor; lia.
    + rewrite Z.add_0_r. repeat (apply put_bytes_cons; [lia |]). apply put_bytes_nil.
Qed.

(** Int2str returns for every number; for every number above [INT_MIN]
    the string it leaves at the destination parses back to the number (the
    number 0 becomes the empty string, and [INT_MIN] a lone minus sign), and only the
    destination and the stack buffer are written. *)
Theorem int2str_roundtrip buf m dst num
    (Hn : is_s32 num) (Hd : dst + 16 <= buf \/ buf + 16 <= dst) :
  exists m' s, int2str buf m dst num = Ok (m', len s) /\ cstr m' dst s /\
    (-2147483648 < num -> parse_dec s = num) /\
    (num = 0 -> s = []) /\ (num = -2147483648 -> s = [45]) /\
    (forall b, b < dst \/ dst + 16 <= b -> b < buf \/ buf + 16 <= b -> load8 m' b = load8 m b).
Proof.
  destruct (int2str_spec buf m dst num Hn Hd) as (m' & Hr & Hc & _ & _ & Ho).
  exists m', (dec num). split; [done |]. split; [done |]. split; [| split; [| split]].
  - intros Hmin. apply parse_dec_dec. unfold is_s32 in Hn. lia.
  - by intros ->.
  - by intros ->.
  - exact Ho.
Qed.

(** ** The text of a number

    Independently of the loops that print it: the numeral of [n] is a string of
    the characters below whose values have [n] as their value in the base, without
    a leading zero.  The number 0 has the empty numeral, because it has no digit
    but a leading zero: so the code prints it.  A negative number has a minus sign
    before the prefix, and [INT_MIN] no digits, because its negation is negative. *)
Definition DIGIT_CHARS : list Z :=
  [48; 49; 50; 51; 52; 53; 54; 55; 56; 57; 97; 98; 99; 100; 101; 102].

Definition numeral (base n : Z) (s : list Z) : Prop :=
  exists ds, Forall2 (fun d c => 0 <= d < base /\ DIGIT_CHARS !! Z.to_nat d = Some c) ds s /\
    head ds <> Some 0 /\ foldl (fun v d => base * v + d) 0 ds = n.

Definition number_text (base : Z) (prefix : list Z) (n : Z) (s : list Z) : Prop :=
  exists t, s = (if n <? 0 then [45] else []) ++ prefix ++ t /\
    (if n =? -2147483648 then t = [] else numeral base (Z.abs n) t).
Definition dec_text : Z -> list Z -> Prop := number_text 10 [].
Definition hex_text : Z -> list Z -> Prop := number_text 16 [48; 120].

Lemma foldl_positive base ds v :
  2 <= base -> Forall (fun d => 0 <= d) ds -> 0 < v -> 0 < foldl (fun v d => base * v + d) v ds.
Proof. intros Hb Hds. revert v. induction Hds as [|d ds Hd _ IH]; intros v Hv; simpl; [done |]. apply IH. nia. Qed.

Lemma numeral_values base ds s :
  Forall2 (fun d c => 0 <= d < base /\ DIGIT_CHARS !! Z.to_nat d = Some c) ds s ->
  Forall (fun d => 0 <= d) ds.
Proof. induction 1 as [|d c ds s [] _ IH]; constructor; [lia | done]. Qed.

Lemma numeral_zero base s : 2 <= base -> numeral base 0 s <-> s = [].
Proof.
  intros Hb. split.
  - intros (ds & H2 & Hh & Hv). destruct H2 as [|d c ds s [Hd _] H2]; [done |].
    assert (d <> 0) by (simpl in Hh; congruence). simpl in Hv.
    pose proof (foldl_positive base ds (base * 0 + d) Hb (numeral_values _ _ _ H2) ltac:(lia)). lia.
  - intros ->. exists []. split; [constructor | done].
Qed.

(** The last digit of a positive number's numeral is its remainder. *)
Lemma numeral_snoc base n s c :
  2 <= base -> 0 < n -> DIGIT_CHARS !! Z.to_nat (n mod base) = Some c ->
  numeral base n s <-> exists t, s = t ++ [c] /\ numeral base (n / base) t.
Proof.
  intros Hb Hn Hc. pose proof (Z.mod_pos_bound n base ltac:(lia)) as Hr.
  pose proof (Z.div_mod n base ltac:(lia)) as Hdm. split.
  - intros (ds & H2 & Hh & Hv). destruct ds as [|d ds _] using rev_ind; [simpl in Hv; lia |].
    rewrite foldl_app in Hv. simpl in Hv.
    apply Forall2_app_inv_l in H2 as (t & u & Ht & Hu & ->).
    inversion Hu as [|? c' ? u' [Hd Hc'] Hu']; subst u; subst. inversion Hu'; subst; clear Hu Hu'.
    set (v := foldl _ 0 ds) in *. set (n := base * v + d) in *.
    assert (n / base = v) as Hq by (subst n; rewrite Z.mul_comm, Z.div_add_l, Z.div_small by lia; lia).
    assert (n mod base = d) as Hm by (subst n; rewrite Z.add_comm, Z.mul_comm, Z_mod_plus_full, Z.mod_small; lia).
    exists t. rewrite Hm, Hc' in Hc. injection Hc as ->. split; [done |]. exists ds. split_and!; [done | | done].
    destruct ds as [|d' ds]; [done | exact Hh].
  - intros (t & -> & ds & H2 & Hh & Hv). exists (ds ++ [n mod base]). split_and!.
    + apply Forall2_app; [done |]. apply Forall2_cons. split; [done | by apply Forall2_nil].
    + destruct ds as [|d ds]; [| exact Hh]. simpl in *. intros [= Hz]. lia.
    + rewrite foldl_app, Hv. simpl. lia.
Qed.

Lemma numeral_digits base digit k n s :
  2 <= base -> (forall r, 0 <= r < base -> DIGIT_CHARS !! Z.to_nat r = Some (digit r)) ->
  0 <= n < 2 ^ Z.of_nat k -> numeral base n s <-> s = digits k base digit n [].
Proof.
  intros Hb Hd. revert n s. induction k as [|k IH]; intros n s Hn.
  - replace n with 0 by (simpl in Hn; lia). by apply numeral_zero.
  - rewrite Nat2Z.inj_succ, Z.pow_succ_r in Hn by lia. cbn [digits].
    destruct (Z.ltb_spec 0 n).
    + rewrite digits_acc, (numeral_snoc base n s (digit (n mod base)))
        by (try apply Hd; try apply Z.mod_pos_bound; lia).
      assert (0 <= n / base < 2 ^ Z.of_nat k) as Hq
        by (split; [apply Z.div_pos; lia | apply Z.div_lt_upper_bound; nia]).
      split; [intros (t & -> & Ht) | intros ->; eexists; split; [reflexivity |]]; [f_equal |]; by apply IH.
    + replace n with 0 by lia. by apply numeral_zero.
Qed.

(** The functions [dec] and [hex] of the proofs give these texts and no other. *)
Lemma number_text_digits base prefix digit n s :
  2 <= base -> (forall r, 0 <= r < base -> DIGIT_CHARS !! Z.to_nat r = Some (digit r)) ->
  is_s32 n ->
  number_text base prefix n s <->
  s = (if n <? 0 then [45] else []) ++ prefix ++
      digits DIGITS_FUEL base digit (if n <? 0 then s32 (- n) else n) [].
Proof.
  intros Hb Hd Hn. unfold number_text, is_s32 in *.
  destruct (Z.eqb_spec n (-2147483648)) as [-> | Hmin].
  - split; [by intros (t & -> & ->) | intros ->; by exists []].
  - replace (if n <? 0 then s32 (- n) else n) with (Z.abs n)
      by (destruct (Z.ltb_spec n 0); [rewrite s32_small by (unfold is_s32; lia) |]; lia).
    assert (0 <= Z.abs n < 2 ^ Z.of_nat DIGITS_FUEL) as Hk
      by (change (2 ^ Z.of_nat DIGITS_FUEL) with 4294967296; lia).
    split.
    + intros (t & -> & Ht). by apply (numeral_digits base digit DIGITS_FUEL) in Ht as ->.
    + intros ->. eexists. split; [reflexivity |]. by apply (numeral_digits base digit DIGITS_FUEL).
Qed.

(** Every digit below a base is one of finitely many. *)
Lemma digit_char base digit :
  0 <= base ->
  forallb (fun r => bool_decide (DIGIT_CHARS !! r = Some (digit (Z.of_nat r)))) (seq 0 (Z.to_nat base)) = true ->
  forall r, 0 <= r < base -> DIGIT_CHARS !! Z.to_nat r = Some (digit r).
Proof.
  intros Hb H r Hr. rewrite forallb_forall in H. specialize (H (Z.to_nat r)).
  rewrite bool_decide_eq_true, Z2Nat.id in H by lia. apply H. apply in_seq. lia.
Qed.

Lemma dec_text_dec n s : is_s32 n -> dec_text n s <-> s = dec n.
Proof. intros Hn. apply (number_text_digits 10 [] dec_digit); [lia | by apply digit_char | done]. Qed.

Lemma hex_text_hex n s : is_s32 n -> hex_text n s <-> s = hex n.
Proof. intros Hn. apply (number_text_digits 16 [48; 120] hex_digit); [lia | by apply digit_char | done]. Qed.

(** -171 in base 16, and the number 0. *)
Example hex_minus_171 : hex_text (-171) [45; 48; 120; 97; 98].
Proof.
  exists [97; 98]. split; [reflexivity |]. exists [10; 11]. split_and!; [| done | reflexivity].
  repeat first [apply Forall2_nil; exact I | apply Forall2_cons; split]; done || lia.
Qed.

Example dec_zero : dec_text 0 [].
Proof. exists []. split; [reflexivity |]. exists []. by split_and!. Qed.

(** ** Formatted output

    [formats m fmt args out]: the format string [fmt] with the argument words
    [args] produces [out].  A conversion other than [d], [u], [x] and [s]
    produces nothing, and [u] prints its argument as a signed number. *)

Section sprintf_correct.
Context (buf ibuf dst cap : Z).

(** The bytes [sprintf] may write: [cap] bytes at the destination and the two
    stack buffers. *)
Definition scratch (b : Z) : Prop :=
  dst <= b < dst + cap \/ buf <= b < buf + 16 \/ ibuf <= b < ibuf + 16.
Definition untouched (lo hi : Z) : Prop := forall b, lo <= b < hi -> ~ scratch b.
Definition intact (m m' : mem) : Prop := forall b, ~ scratch b -> load8 m' b = load8 m b.
Definition apart : Prop :=
  (dst + cap <= buf \/ buf + 16 <= dst) /\ (dst + cap <= ibuf \/ ibuf + 16 <= dst) /\
  (buf + 16 <= ibuf \/ ibuf + 16 <= buf).

Inductive formats (m : mem) : list Z -> list Z -> list Z -> Prop :=
  | F_nil args : formats m [] args []
  | F_lit c f args out : c <> 37 -> formats m f args out -> formats m (c :: f) args (c :: out)
  | F_d f a t args out : dec_text (s32 a) t -> formats m f args out ->
      formats m (37 :: 100 :: f) (a :: args) (t ++ out)
  | F_u f a t args out : dec_text (s32 a) t -> formats m f args out ->
      formats m (37 :: 117 :: f) (a :: args) (t ++ out)
  | F_x f a t args out : hex_text (s32 a) t -> formats m f args out ->
      formats m (37 :: 120 :: f) (a :: args) (t ++ out)
  | F_s f a s args out : cstr m a s -> untouched a (a + len s + 1) ->
      formats m f args out -> formats m (37 :: 115 :: f) (a :: args) (s ++ out)
  | F_other c f args out : c <> 100 -> c <> 117 -> c <> 120 -> c <> 115 ->
      formats m f args out -> formats m (37 :: c :: f) args out.

(** [out] is at the destination. *)
Definition written (m : mem) (out : list Z) : Prop :=
  forall i c, out !! i = Some c -> load8 m (dst + Z.of_nat i) = c.

(** The argument words are at [p]. *)
Definition words_at (m : mem) (p : Z) (args : list Z) : Prop :=
  forall i a, args !! i = Some a -> load32 m (p + 4 * Z.of_nat i) = a.

Lemma words_at_cons m p a args :
  words_at m p (a :: args) -> load32 m p = a /\ words_at m (p + 4) args.
Proof.
  intros H. split; [rewrite <- (H 0%nat a) by done; f_equal; lia |].
  intros i b Hi. rewrite <- (H (S i) b) by done. f_equal. lia.
Qed.

Lemma written_app m out out' :
  written m out -> (forall i c, out' !! i = Some c -> load8 m (dst + len out + Z.of_nat i) = c) ->
  written m (out ++ out').
Proof.
  intros H1 H2 i c Hi. apply lookup_app_Some in Hi as [Hi | [Hl Hi]]; [by apply H1 |].
  apply H2 in Hi. by replace (dst + Z.of_nat i) with (dst + len out + Z.of_nat (i - length out)) by lia.
Qed.

Lemma cstr_intact m m' p s :
  intact m m' -> untouched p (p + len s + 1) -> cstr m p s -> cstr m' p s.
Proof. intros Hi Hu. apply cstr_same. intros b Hb. by apply Hi, Hu. Qed.

(** Copying a string behind what is written. *)
Lemma strcpy_step m0 m p s out fuel :
  apart -> intact m0 m -> written m out -> cstr m p s -> (length s < fuel)%nat ->
  (untouched p (p + len s + 1) \/ p = buf /\ len s < 16) ->
  len out + len s + 1 <= cap ->
  exists m', strcpy fuel m (dst + len out) p = Ok (m', len s) /\
    intact m0 m' /\ written m' (out ++ s).
Proof.
  intros (A1 & A2 & A3) Hi Hw Hc Hf Hp Hcap.
  destruct (strcpy_spec s fuel m (dst + len out) p) as (m' & Hr & Hb & Ho); [done | done | |].
  { destruct Hp as [Hu | [-> Hl]]; [| lia].
    destruct (decide (dst + len out + len s + 1 <= p)); [by left |].
    destruct (decide (p + len s + 1 <= dst + len out)); [by right |]. exfalso.
    apply (Hu (Z.max p (dst + len out))); [lia |]. left. lia. }
  exists m'. split; [done |]. rewrite length_app in Ho. cbn [length] in Ho. split.
  - intros b Hs. rewrite Ho; [by apply Hi |]. unfold scratch in Hs. lia.
  - apply written_app.
    + intros i c Hic. pose proof (lookup_lt_Some _ _ _ Hic). rewrite Ho by lia. by apply Hw.
    + intros i c Hic. apply Hb. by apply lookup_app_l_Some.
Qed.

Lemma load32_intact m m' p : intact m m' -> untouched p (p + 4) -> load32 m' p = load32 m p.
Proof.
  intros Hi Hu. eapply load32_same_on with (lo := p) (hi := p + 4); [| lia | lia].
  intros b Hb. by apply Hi, Hu.
Qed.

Lemma sprintf_num_step conv text m0 m a out arg_ptr :
  converts conv text -> apart -> intact m0 m -> written m out ->
  load32 m0 arg_ptr = a -> untouched arg_ptr (arg_ptr + 4) ->
  len out + len (text (s32 a)) + 1 <= cap ->
  exists m', sprintf_num buf ibuf conv m dst (len out) arg_ptr
      = Ok (m', len (out ++ text (s32 a))) /\
    intact m0 m' /\ written m' (out ++ text (s32 a)).
Proof.
  intros Hconv Ha Hi Hw Harg Hu Hcap. unfold sprintf_num.
  rewrite (load32_intact m0 m), Harg by done.
  pose proof Ha as (A1 & A2 & A3).
  destruct (Hconv ibuf m buf (s32 a)) as (m1 & Hc & Hs & Hl & _ & Ho); [apply s32_range | done |].
  rewrite Hc. cbn [mbind outcome_bind].
  destruct (strcpy_step m0 m1 buf (text (s32 a)) out BUF_FUEL) as (m2 & Hcpy & Hi2 & Hw2).
  - done.
  - intros b Hb. unfold scratch in Hb. rewrite Ho by lia. apply Hi. unfold scratch. lia.
  - intros i c Hic. pose proof (lookup_lt_Some _ _ _ Hic). rewrite Ho by lia. by apply Hw.
  - done.
  - unfold BUF_FUEL. lia.
  - right. split; [done | lia].
  - lia.
  - exists m2. rewrite Hcpy. cbn [mbind outcome_bind]. split; [| done].
    rewrite length_app. do 2 f_equal. lia.
Qed.

(** Writing one character behind what is written. *)
Lemma strcpy_char m0 m c out :
  0 <= c < 256 -> intact m0 m -> written m out -> len out + 1 <= cap ->
  intact m0 (store8 m (dst + len out) c) /\ written (store8 m (dst + len out) c) (out ++ [c]).
Proof.
  intros Hc Hi Hw Hcap. split.
  - intros b Hb. rewrite load8_store8_ne; [by apply Hi |]. unfold scratch in Hb. lia.
  - apply written_app.
    + intros i d Hd. pose proof (lookup_lt_Some _ _ _ Hd). mem_simpl. by apply Hw.
    + intros [|i] d Hd; simpl in Hd; [| done]. injection Hd as <-.
      rewrite Z.add_0_r. mem_simpl. by apply u8_small.
Qed.

Lemma untouched_sub lo hi lo' hi' :
  untouched lo hi -> lo <= lo' -> hi' <= hi -> untouched lo' hi'.
Proof. intros H H1 H2 b Hb. apply H. lia. Qed.

(** The rest of the format string, after a conversion that wrote [text]. *)
Ltac next_char IH :=
  match goal with
  | Hu : untouched _ (_ + (Z.of_nat _) + 1), I1 : intact ?m0 ?m1, W1 : written ?m1 (?out ++ ?text)
    |- context [sprintf_from _ _ ?fuel ?sfuel _ _ ?str ?i ?w ?p] =>
      edestruct (IH fuel sfuel m1 str i (out ++ text) p) as (m' & R & I & W);
      [ done | done | done | eapply untouched_sub; [exact Hu | lia | lia] | done
      | eapply untouched_sub; [eassumption | lia | lia] | rewrite ?length_app; lia | lia | lia |];
      exists m'; rewrite <- app_assoc in W; split; [| done];
      replace w with (len (out ++ text)) by (rewrite ?length_app; lia);
      rewrite R; do 2 f_equal; rewrite !length_app; lia
  end.
Ltac num_case IH Hspec :=
  match goal with
  | I : intact ?m0 ?m, W : written ?m ?out, Hau : untouched ?p _,
    H0 : load32 ?m0 ?p = ?a |- _ =>
      let m1 := fresh "m1" in let R := fresh "R" in
      edestruct (sprintf_num_step _ _ m0 m a out p Hspec) as (m1 & R & ? & ?);
      [ done | done | done | done | eapply untouched_sub; [exact Hau | lia | lia] | lia |];
      rewrite R; clear R; cbn [mbind outcome_bind]; next_char IH
  end.

Lemma sprintf_from_spec m0 fmt args fout :
  apart -> formats m0 fmt args fout ->
  forall fuel sfuel m str i out arg_ptr,
  intact m0 m -> written m out ->
  cstr m0 (str + i) fmt -> untouched (str + i) (str + i + len fmt + 1) ->
  words_at m0 arg_ptr args -> untouched arg_ptr (arg_ptr + 4 * len args) ->
  len out + len fout + 1 <= cap -> cap <= Z.of_nat sfuel -> (length fmt < fuel)%nat ->
  exists m', sprintf_from buf ibuf fuel sfuel m dst str i (len out) arg_ptr
      = Ok (m', len (out ++ fout)) /\
    intact m0 m' /\ written m' (out ++ fout).
Proof.
  intros Ha HF. induction HF as [args | c f args out' Hc HF IH | f a t args out' Ht HF IH
    | f a t args out' Ht HF IH | f a t args out' Ht HF IH | f a s args out' Hs Hsu HF IH
    | c f args out' Hd Hu' Hx Hs' HF IH];
    intros [|fuel] sfuel m str i out arg_ptr Hi Hw Hstr Hu Hargs Hau Hcap Hsf Hf;
    cbn [length] in Hf, Hu; try lia; cbn [cstr] in Hstr; cbn [sprintf_from];
    assert (load8 m (str + i) = load8 m0 (str + i)) as E0 by (apply Hi, Hu; lia);
    rewrite E0;
    try (assert (load8 m (str + (i + 1)) = load8 m0 (str + i + 1)) as E1
      by (replace (str + (i + 1)) with (str + i + 1) by lia; apply Hi, Hu; lia);
      destruct Hstr as (C0 & _ & C1 & C1n & Hstr); rewrite C0, E1, C1;
      cbn [Z.eqb Pos.eqb];
      replace (str + i + 1 + 1) with (str + (i + 1 + 1)) in Hstr by lia);
    try (pose proof (words_at_cons _ _ _ _ Hargs) as [Ha0 Hargs'];
      rewrite length_app in Hcap; cbn [length] in Hau).
  - rewrite Hstr. simpl. exists m. by rewrite app_nil_r.
  - destruct Hstr as (C0 & C0n & Hstr). rewrite C0.
    destruct (Z.eqb_spec c 0), (Z.eqb_spec c 37); try done. cbn [length] in Hcap.
    destruct (strcpy_char m0 m c out) as (I1 & W1); [| done | done | lia |].
    { subst c. apply load8_range. }
    edestruct (IH fuel sfuel (store8 m (dst + len out) c) str (i + 1) (out ++ [c]) arg_ptr)
      as (m' & R & I & W); try done; rewrite ?length_app; cbn [length]; try lia.
    + by replace (str + (i + 1)) with (str + i + 1) by lia.
    + eapply untouched_sub; [exact Hu | lia | lia].
    + exists m'. rewrite <- app_assoc in W. split; [| done].
      replace (len out + 1) with (len (out ++ [c])) by (rewrite length_app; simpl; lia).
      rewrite R. do 2 f_equal. rewrite !length_app. simpl. lia.
  - apply dec_text_dec in Ht as ->; [num_case IH int2str_spec | apply s32_range].
  - apply dec_text_dec in Ht as ->; [num_case IH int2str_spec | apply s32_range].
  - apply hex_text_hex in Ht as ->; [num_case IH int2hex_spec | apply s32_range].
  - rewrite (load32_intact m0 m), Ha0 by (done || by eapply untouched_sub; [exact Hau | lia | lia]).
    destruct (strcpy_step m0 m a s out sfuel) as (m1 & R1 & I1 & W1); try done; try lia.
    { eapply cstr_intact; done. }
    { by left. }
    rewrite R1. cbn [mbind outcome_bind]. next_char IH.
  - destruct (Z.eqb_spec c 100), (Z.eqb_spec c 117), (Z.eqb_spec c 120), (Z.eqb_spec c 115); try done.
    edestruct (IH fuel sfuel m str (i + 1 + 1) out arg_ptr) as (m' & R & I & W); try done; try lia.
    + eapply untouched_sub; [exact Hu | lia | lia].
    + by exists m'.
Qed.
End sprintf_correct.

Lemma dec_chars num : Forall (fun c => 0 < c < 256) (dec num).
Proof.
  unfold dec. apply Forall_app. split; [case_match; repeat constructor; lia |].
  apply digits_chars; [lia | apply dec_digit_range].
Qed.

Lemma hex_chars num : Forall (fun c => 0 < c < 256) (hex num).
Proof.
  unfold hex. apply Forall_app. split; [case_match; repeat constructor; lia |].
  apply Forall_app. split; [repeat constructor; lia |].
  apply digits_chars; [lia | apply hex_digit_range].
Qed.

Lemma formats_chars buf ibuf dst cap m fmt args out :
  formats buf ibuf dst cap m fmt args out ->
  Forall (fun c => 0 < c < 256) fmt -> Forall (fun c => 0 < c < 256) out.
Proof.
  induction 1 as [| | f a t args out Ht _ IH | f a t args out Ht _ IH | f a t args out Ht _ IH
    | f a s args out Hs _ _ IH |]; intros Hf;
    repeat match goal with H : Forall _ (_ :: _) |- _ => apply Forall_cons in H as [? H] end;
    try (apply dec_text_dec in Ht as ->; [| apply s32_range]);
    try (apply hex_text_hex in Ht as ->; [| apply s32_range]);
    rewrite ?Forall_app; repeat split; auto using dec_chars, hex_chars.
  by eapply cstr_char_range.
Qed.

(** C32: sprintf of a format string whose conversions all have an argument
    returns, leaves the formatted text with its terminator at the destination, and
    writes nothing but the destination and the two stack buffers.  The text of a
    number under d, u and x is [number_text], a definition of its own: its digits
    are the characters 0-9 and a-f whose values have the number as their value,
    without a leading zero, behind 0x for x and with a minus sign in front when it
    is negative (u, too, prints a signed number).  So 0 prints as no digit at all,
    and INT_MIN as a lone minus sign (with 0x). *)
Theorem sprintf_correct buf ibuf dst cap m str fmt args arg_ptr out fuel
    (Ha : apart buf ibuf dst cap)
    (HF : formats buf ibuf dst cap m fmt args out)
    (Hstr : cstr m str fmt) (Hsu : untouched buf ibuf dst cap str (str + len fmt + 1))
    (Hargs : words_at m arg_ptr args)
    (Hau : untouched buf ibuf dst cap arg_ptr (arg_ptr + 4 * len args))
    (Hcap : len out + 1 <= cap) (Hfuel : cap <= Z.of_nat fuel) (Hlen : (length fmt < fuel)%nat) :
  exists m', sprintf buf ibuf fuel m dst str arg_ptr = Ok m' /\
    cstr m' dst out /\ intact buf ibuf dst cap m m'.
Proof.
  destruct (sprintf_from_spec buf ibuf dst cap m fmt args out Ha HF fuel fuel m str 0 [] arg_ptr)
    as (m1 & R & Hi & Hw); rewrite ?Z.add_0_r; try done.
  unfold sprintf. change (len (@nil Z)) with 0 in R. rewrite R. cbn [mbind outcome_bind].
  exists (store8 m1 (dst + len ([] ++ out)) 0). split; [done |]. cbn [app] in *. split.
  - replace out with (out ++ []) at 2 by apply app_nil_r. apply cstr_app. split.
    + intros i c Hic. pose proof (lookup_lt_Some _ _ _ Hic). mem_simpl. split; [by apply Hw |].
      pose proof (formats_chars _ _ _ _ _ _ _ _ HF (cstr_char_range _ _ _ Hstr)) as Hch.
      apply (Forall_lookup_1 _ _ _ _ Hch) in Hic. lia.
    + cbn [cstr]. by mem_simpl.
  - intros b Hb. rewrite load8_store8_ne; [by apply Hi |]. unfold scratch in Hb. lia.
Qed.

(** ** Concrete runs *)

(** [poke m p s] writes the bytes [s] at [p]. *)
Fixpoint poke (m : mem) (p : Z) (s : list Z) : mem :=
  match s with [] => m | c :: s' => poke (store8 m p c) (p + 1) s' end.

(** "ab" at 1000, "abc" at 1100, "<%d,%s>" at 1200 and its arguments -42 and
    1000 at 1300. *)
Definition sample : mem :=
  store32 (store32 (poke (poke (poke ∅ 1000 [97; 98]) 1100 [97; 98; 99]) 1200
    [60; 37; 100; 44; 37; 115; 62]) 1300 4294967254) 1304 1000.

Lemma strcmp_correct_witness :
  (cstr sample 1000 [97; 98] /\ cstr sample 1100 [97; 98; 99]) /\
  strcmp 3 sample 1000 1100 = Ok 1 /\ strcmp 4 sample 1100 1000 = Ok 1.
Proof.
  split; [repeat split; try (vm_compute; reflexivity); lia |]. split.
  - apply (strcmp_correct 3 sample 1000 1100 [97; 98] [97; 98; 99]);
      [repeat split; try (vm_compute; reflexivity); lia
      | repeat split; try (vm_compute; reflexivity); lia | simpl; lia].
  - apply (strcmp_correct 4 sample 1100 1000 [97; 98; 99] [97; 98]);
      [repeat split; try (vm_compute; reflexivity); lia
      | repeat split; try (vm_compute; reflexivity); lia | simpl; lia].
Defined.

Lemma int2str_roundtrip_witness :
  exists m' s, int2str 2000 ∅ 1000 (-120) = Ok (m', len s) /\ cstr m' 1000 s /\
    parse_dec s = -120.
Proof.
  destruct (int2str_roundtrip 2000 ∅ 1000 (-120)) as (m' & s & Hr & Hc & Hp & _);
    [unfold is_s32; lia | lia |].
  exists m', s. split; [exact Hr |]. split; [exact Hc |]. apply Hp. lia.
Defined.

Lemma sprintf_correct_witness :
  exists m', sprintf 2000 2016 64 sample 3000 1200 1300 = Ok m' /\
    cstr m' 3000 [60; 45; 52; 50; 44; 97; 98; 62].
Proof.
  destruct (sprintf_correct 2000 2016 3000 64 sample 1200 [60; 37; 100; 44; 37; 115; 62]
    [4294967254; 1000] 1300 [60; 45; 52; 50; 44; 97; 98; 62] 64) as (m' & Hr & Hc & _).
  - unfold apart. lia.
  - apply F_lit; [lia |]. apply (F_d _ _ _ _ _ _ 4294967254 [45; 52; 50] _ [44; 97; 98; 62]);
      [exists [52; 50]; split; [reflexivity |]; exists [4; 2]; split_and!;
       [repeat first [apply Forall2_nil; exact I | apply Forall2_cons; split]; done || lia | done | reflexivity] |].
    apply F_lit; [lia |]. apply (F_s _ _ _ _ _ _ _ [97; 98] _ [62]).
    + repeat split; try (vm_compute; reflexivity); lia.
    + intros b Hb. unfold scratch. simpl in Hb. lia.
    + apply F_lit; [lia |]. apply F_nil.
  - repeat split; try (vm_compute; reflexivity); lia.
  - intros b Hb. unfold scratch. simpl in Hb. lia.
  - intros [|[|i]] a Hi; simpl in Hi; try done; injection Hi as <-; vm_compute; reflexivity.
  - intros b Hb. unfold scratch. simpl in Hb. lia.
  - simpl. lia.
  - lia.
  - simpl. lia.
  - exists m'. exact (conj Hr Hc).
Defined.
