(* ===== verification/KeyHelp.v ===== *)
(** * Scancode translation (driver/keyhelp.c, driver/keyhelp.h)

    The keyboard's scancode state machine.  [key_state] is a 16-bit signed
    integer holding the modifier bits, [key_internal_state] the prefixes seen so
    far and [key_sequence] the position in a pause sequence.  A result is the C
    word: modifier bits, result flags, raw code and character. *)

From Stdlib Require Import Ascii.
From S2P Require Import Prelude.

(** The code of a character literal. *)
Definition chr (a : ascii) : Z := Z.of_N (N_of_ascii a).
Arguments chr a%_char_scope.

(** ** Constants *)

Definition KH_LSHIFT_KEY : Z := 0x8000.
Definition KH_RSHIFT_KEY : Z := 0x4000.
Definition KH_LCONTROL_KEY : Z := 0x2000.
Definition KH_RCONTROL_KEY : Z := 0x1000.
Definition KH_LALT_KEY : Z := 0x0800.
Definition KH_RALT_KEY : Z := 0x0400.
Definition KH_CAPS_LOCK : Z := 0x0200.
Definition KH_NUM_LOCK : Z := 0x0100.
Definition KH_RESULT_HASRAW : Z := 0x08.
Definition KH_RESULT_HASDATA : Z := 0x04.
Definition KH_RESULT_NUMPAD : Z := 0x02.
Definition KH_RESULT_MAKE : Z := 0x01.
Definition KH_PRSCR_UP_SCAN : Z := 8.
Definition KH_PRSCR_DOWN_SCAN : Z := 4.
Definition KH_PAUSE_SCAN : Z := 2.
Definition KH_EXTENDED_SCAN : Z := 1.
Definition KH_STATE_SMASK : Z := 0xFF00.

Definition KHE_ESCAPE : Z := 0x1B.
Definition KHE_BACKSPACE : Z := 8.
Definition KHE_TAB : Z := 9.
Definition KHE_ENTER : Z := 10.
Definition KHE_UNDEFINED : Z := 0x80.
Definition KHE_ARROW_UP : Z := 0x81.
Definition KHE_ARROW_LEFT : Z := 0x82.
Definition KHE_ARROW_DOWN : Z := 0x83.
Definition KHE_ARROW_RIGHT : Z := 0x84.
Definition KHE_LALT : Z := 0x85.
Definition KHE_RALT : Z := 0x86.
Definition KHE_LCTL : Z := 0x87.
Definition KHE_RCTL : Z := 0x88.
Definition KHE_LSHIFT : Z := 0x89.
Definition KHE_RSHIFT : Z := 0x8A.
Definition KHE_CAPSLOCK : Z := 0x8B.
Definition KHE_NUMLOCK : Z := 0x8C.
Definition KHE_F1 : Z := 0x8D.
Definition KHE_F2 : Z := 0x8E.
Definition KHE_F3 : Z := 0x8F.
Definition KHE_F4 : Z := 0x90.
Definition KHE_F5 : Z := 0x91.
Definition KHE_F6 : Z := 0x92.
Definition KHE_F7 : Z := 0x93.
Definition KHE_F8 : Z := 0x94.
Definition KHE_F9 : Z := 0x95.
Definition KHE_F10 : Z := 0x96.
Definition KHE_F11 : Z := 0x97.
Definition KHE_F12 : Z := 0x98.
Definition KHE_PAUSE : Z := 0x99.
Definition KHE_PRINT_SCREEN : Z := 0x9A.

(** The result accessors: [k >> SHIFT] is an arithmetic shift. *)
Definition KH_GETCHAR (k : Z) : Z := Z.land k 0xFF.
Definition KH_GETRAW (k : Z) : Z := Z.land (Z.shiftr k 8) 0xFF.
Definition KH_HASDATA (k : Z) : bool := negb (Z.land (Z.shiftr k 16) KH_RESULT_HASDATA =? 0).
Definition KH_ISMAKE (k : Z) : bool := negb (Z.land (Z.shiftr k 16) KH_RESULT_MAKE =? 0).

(** ** State *)

Record kh := Kh { key_state : Z; key_internal_state : Z; key_sequence : Z }.

#[export] Instance kh_eq_dec : EqDecision kh.
Proof. solve_decision. Defined.

Definition kh_init : kh := Kh 0 0 0.

(** [x & m] as a condition, [x |= m] and [x &= ~m] on a [short]. *)
Definition has (x m : Z) : bool := negb (Z.land x m =? 0).
Definition bset (x m : Z) : Z := s16 (Z.lor x m).
Definition bclear (x m : Z) : Z := s16 (Z.land x (Z.lnot m)).

Definition state_set (st : kh) (m : Z) : kh :=
  Kh (bset (key_state st) m) (key_internal_state st) (key_sequence st).
Definition state_clear (st : kh) (m : Z) : kh :=
  Kh (bclear (key_state st) m) (key_internal_state st) (key_sequence st).
Definition internal_set (st : kh) (m : Z) : kh :=
  Kh (key_state st) (bset (key_internal_state st) m) (key_sequence st).
Definition internal_clear (st : kh) (m : Z) : kh :=
  Kh (key_state st) (bclear (key_internal_state st) m) (key_sequence st).
Definition set_sequence (st : kh) (n : Z) : kh :=
  Kh (key_state st) (key_internal_state st) n.

(** [if (pressed) key_state |= m; else key_state &= ~m;] *)
Definition hold (st : kh) (pressed : bool) (m : Z) : kh :=
  if pressed then state_set st m else state_clear st m.
(** [if (pressed) { if (key_state & m) key_state &= ~m; else key_state |= m; }] *)
Definition toggle (st : kh) (pressed : bool) (m : Z) : kh :=
  if pressed then (if has (key_state st) m then state_clear st m else state_set st m) else st.

Definition KHS_SHIFT_CORE (st : kh) : bool := has (key_state st) (Z.lor KH_LSHIFT_KEY KH_RSHIFT_KEY).
Definition KHS_CTL_CORE (st : kh) : bool := has (key_state st) (Z.lor KH_LCONTROL_KEY KH_RCONTROL_KEY).

(** The macros set [code] and [rcode]. *)
Definition KHS_SHIFT (st : kh) (s u : Z) : Z * Z := (if KHS_SHIFT_CORE st then s else u, u).
Definition KHS_SHIFTCTL (st : kh) (cc s u : Z) : Z * Z :=
  (if KHS_CTL_CORE st then cc else if KHS_SHIFT_CORE st then s else u, u).
Definition KHS_SHIFTCAPSCTL (st : kh) (cc s u : Z) : Z * Z :=
  (if KHS_CTL_CORE st then cc
   else if (KHS_SHIFT_CORE st || has (key_state st) KH_CAPS_LOCK)
           && negb (KHS_SHIFT_CORE st && has (key_state st) KH_CAPS_LOCK)
        then s else u, u).

(** A key whose case only sets [code], [rcode] and the numeric-pad flag. *)
Record keycodes := Keycodes { kc_code : Z; kc_rcode : Z; kc_res : Z }.
Definition key (c : Z * Z) : option keycodes := Some (Keycodes c.1 c.2 0).
Definition numpad (c : Z) : option keycodes := Some (Keycodes c c (Z.shiftl KH_RESULT_NUMPAD 16)).

(** ** Simple scancodes *)

(** Cases 0x01 to 0x1C of [process_simple_scan]. *)
Definition simple_row1 (st : kh) (scancode : Z) : option keycodes :=
  match scancode with
  | 0x1 => key (0x1B, 0x1B)
  | 0x2 => key (KHS_SHIFT st (chr "!") (chr "1"))
  | 0x3 => key (KHS_SHIFTCTL st 0x00 (chr "@") (chr "2"))
  | 0x4 => key (KHS_SHIFT st (chr "#") (chr "3"))
  | 0x5 => key (KHS_SHIFT st (chr "$") (chr "4"))
  | 0x6 => key (KHS_SHIFT st (chr "%") (chr "5"))
  | 0x7 => key (KHS_SHIFTCTL st 0x1E (chr "^") (chr "6"))
  | 0x8 => key (KHS_SHIFT st (chr "&") (chr "7"))
  | 0x9 => key (KHS_SHIFT st (chr "*") (chr "8"))
  | 0xA => key (KHS_SHIFT st (chr "(") (chr "9"))
  | 0xB => key (KHS_SHIFT st (chr ")") (chr "0"))
  | 0xC => key (KHS_SHIFTCTL st 0x1F (chr "_") (chr "-"))
  | 0xD => key (KHS_SHIFT st (chr "+") (chr "="))
  | 0xE => key (8, 8)
  | 0xF => key (9, 9)
  | 0x10 => key (KHS_SHIFTCAPSCTL st 0x11 (chr "Q") (chr "q"))
  | 0x11 => key (KHS_SHIFTCAPSCTL st 0x17 (chr "W") (chr "w"))
  | 0x12 => key (KHS_SHIFTCAPSCTL st 0x05 (chr "E") (chr "e"))
  | 0x13 => key (KHS_SHIFTCAPSCTL st 0x12 (chr "R") (chr "r"))
  | 0x14 => key (KHS_SHIFTCAPSCTL st 0x14 (chr "T") (chr "t"))
  | 0x15 => key (KHS_SHIFTCAPSCTL st 0x19 (chr "Y") (chr "y"))
  | 0x16 => key (KHS_SHIFTCAPSCTL st 0x15 (chr "U") (chr "u"))
  | 0x17 => key (KHS_SHIFTCAPSCTL st 0x09 (chr "I") (chr "i"))
  | 0x18 => key (KHS_SHIFTCAPSCTL st 0x0F (chr "O") (chr "o"))
  | 0x19 => key (KHS_SHIFTCAPSCTL st 0x10 (chr "P") (chr "p"))
  | 0x1A => key (KHS_SHIFTCAPSCTL st 0x1B (chr "{") (chr "["))
  | 0x1B => key (KHS_SHIFTCAPSCTL st 0x1D (chr "}") (chr "]"))
  | 0x1C => key (10, 10)
  | _ => None
  end.

(** Cases 0x1E to 0x29. *)
Definition simple_row2 (st : kh) (scancode : Z) : option keycodes :=
  match scancode with
  | 0x1E => key (KHS_SHIFTCAPSCTL st 0x01 (chr "A") (chr "a"))
  | 0x1F => key (KHS_SHIFTCAPSCTL st 0x13 (chr "S") (chr "s"))
  | 0x20 => key (KHS_SHIFTCAPSCTL st 0x04 (chr "D") (chr "d"))
  | 0x21 => key (KHS_SHIFTCAPSCTL st 0x06 (chr "F") (chr "f"))
  | 0x22 => key (KHS_SHIFTCAPSCTL st 0x07 (chr "G") (chr "g"))
  | 0x23 => key (KHS_SHIFTCAPSCTL st 0x08 (chr "H") (chr "h"))
  | 0x24 => key (KHS_SHIFTCAPSCTL st 0x0A (chr "J") (chr "j"))
  | 0x25 => key (KHS_SHIFTCAPSCTL st 0x0B (chr "K") (chr "k"))
  | 0x26 => key (KHS_SHIFTCAPSCTL st 0x0C (chr "L") (chr "l"))
  | 0x27 => key (KHS_SHIFT st (chr ":") (chr ";"))
  | 0x28 => key (KHS_SHIFT st 34 39)
  | 0x29 => key (KHS_SHIFT st (chr "~") (chr "`"))
  | _ => None
  end.

(** Cases 0x2B to 0x35. *)
Definition simple_row3 (st : kh) (scancode : Z) : option keycodes :=
  match scancode with
  | 0x2B => key (KHS_SHIFTCTL st 0x1C (chr "|") 92)
  | 0x2C => key (KHS_SHIFTCAPSCTL st 0x1A (chr "Z") (chr "z"))
  | 0x2D => key (KHS_SHIFTCAPSCTL st 0x18 (chr "X") (chr "x"))
  | 0x2E => key (KHS_SHIFTCAPSCTL st 0x03 (chr "C") (chr "c"))
  | 0x2F => key (KHS_SHIFTCAPSCTL st 0x16 (chr "V") (chr "v"))
  | 0x30 => key (KHS_SHIFTCAPSCTL st 0x02 (chr "B") (chr "b"))
  | 0x31 => key (KHS_SHIFTCAPSCTL st 0x0E (chr "N") (chr "n"))
  | 0x32 => key (KHS_SHIFTCAPSCTL st 0x0D (chr "M") (chr "m"))
  | 0x33 => key (KHS_SHIFT st (chr "<") (chr ","))
  | 0x34 => key (KHS_SHIFT st (chr ">") (chr "."))
  | 0x35 => key (KHS_SHIFT st (chr "?") (chr "/"))
  | _ => None
  end.

(** Cases 0x37, 0x39 and 0x3B to 0x44. *)
Definition simple_row4 (scancode : Z) : option keycodes :=
  match scancode with
  | 0x37 => numpad (chr "*")
  | 0x39 => key (chr " ", chr " ")
  | 0x3B => key (KHE_F1, KHE_F1)
  | 0x3C => key (KHE_F2, KHE_F2)
  | 0x3D => key (KHE_F3, KHE_F3)
  | 0x3E => key (KHE_F4, KHE_F4)
  | 0x3F => key (KHE_F5, KHE_F5)
  | 0x40 => key (KHE_F6, KHE_F6)
  | 0x41 => key (KHE_F7, KHE_F7)
  | 0x42 => key (KHE_F8, KHE_F8)
  | 0x43 => key (KHE_F9, KHE_F9)
  | 0x44 => key (KHE_F10, KHE_F10)
  | _ => None
  end.

(** Cases 0x47 to 0x58. *)
Definition simple_row5 (scancode : Z) : option keycodes :=
  match scancode with
  | 0x47 => numpad (chr "7")
  | 0x48 => numpad (chr "8")
  | 0x49 => numpad (chr "9")
  | 0x4A => numpad (chr "-")
  | 0x4B => numpad (chr "4")
  | 0x4C => numpad (chr "5")
  | 0x4D => numpad (chr "6")
  | 0x4E => numpad (chr "+")
  | 0x4F => numpad (chr "1")
  | 0x50 => numpad (chr "2")
  | 0x51 => numpad (chr "3")
  | 0x52 => numpad (chr "0")
  | 0x53 => numpad (chr ".")
  | 0x57 => key (KHE_F11, KHE_F11)
  | 0x58 => key (KHE_F12, KHE_F12)
  | _ => None
  end.

Definition simple_key (st : kh) (scancode : Z) : option keycodes :=
  match simple_row1 st scancode with
  | Some k => Some k
  | None => match simple_row2 st scancode with
  | Some k => Some k
  | None => match simple_row3 st scancode with
  | Some k => Some k
  | None => match simple_row4 scancode with
  | Some k => Some k
  | None => simple_row5 scancode
  end end end end.

(** The end of both functions: the data flag and the word returned. *)
Definition finish (k : keycodes) : Z :=
  let '(res, code) :=
    if negb (kc_rcode k =? KHE_UNDEFINED) && negb (kc_code k =? KHE_UNDEFINED)
    then (Z.lor (kc_res k) (Z.shiftl KH_RESULT_HASDATA 16), kc_code k)
    else (kc_res k, 0x00) in
  Z.lor (Z.lor (Z.lor res code) (Z.shiftl (kc_rcode k) 8)) (Z.shiftl KH_RESULT_HASRAW 16).

(** A modifier sets [rcode] only. *)
Definition modifier (rcode : Z) : Z := finish (Keycodes 0x80 rcode 0).
Definition undefined_key : Z := finish (Keycodes KHE_UNDEFINED KHE_UNDEFINED 0).

(** [key_internal_state &= ~KH_PAUSE_SCAN; key_sequence = 0;] *)
Definition end_pause (st : kh) : kh := set_sequence (internal_clear st KH_PAUSE_SCAN) 0.
Definition in_pause (st : kh) (n : Z) : bool :=
  has (key_internal_state st) KH_PAUSE_SCAN && (key_sequence st =? n).

(** Case 0x1D. *)
Definition simple_control (st : kh) (pressed : bool) : kh * Z :=
  if in_pause st 0 then (set_sequence st (key_sequence st + 1), 0)
  else (hold (end_pause st) pressed KH_LCONTROL_KEY, modifier KHE_LCTL).

(** Case 0x45. *)
Definition simple_numlock (st : kh) (pressed : bool) : kh * Z :=
  if in_pause st 1 then (set_sequence st (key_sequence st + 1), 0)
  else (toggle (end_pause st) pressed KH_NUM_LOCK, modifier KHE_NUMLOCK).

(** Case 0xE1 & 0x7F, falling through to the default. *)
Definition simple_pause (st : kh) : kh * Z :=
  if negb (has (key_internal_state st) KH_PAUSE_SCAN)
  then (set_sequence (internal_set st KH_PAUSE_SCAN) 0, 0)
  else if in_pause st 2 then (set_sequence st (key_sequence st + 1), 0)
  else (end_pause st, undefined_key).

Definition process_simple_scan (st : kh) (scancode : Z) (pressed : bool) : kh * Z :=
  let scancode := Z.land scancode 0x7F in
  match simple_key st scancode with
  | Some k => (st, finish k)
  | None =>
      match scancode with
      | 0x1D => simple_control st pressed
      | 0x2A => (hold st pressed KH_LSHIFT_KEY, modifier KHE_LSHIFT)
      | 0x36 => (hold st pressed KH_RSHIFT_KEY, modifier KHE_RSHIFT)
      | 0x38 => (hold st pressed KH_LALT_KEY, modifier KHE_LALT)
      | 0x3A => (toggle st pressed KH_CAPS_LOCK, modifier KHE_CAPSLOCK)
      | 0x45 => simple_numlock st pressed
      | 0x61 => simple_pause st
      | _ => (st, undefined_key)
      end
  end.

(** ** Extended scancodes *)

(** The cases of [process_extended_scan] that only set the codes. *)
Definition extended_key (keypress : Z) : option keycodes :=
  match keypress with
  | 0x1C => numpad 10
  | 0x35 => numpad (chr "/")
  | 0x48 => key (KHE_ARROW_UP, KHE_ARROW_UP)
  | 0x4b => key (KHE_ARROW_LEFT, KHE_ARROW_LEFT)
  | 0x4d => key (KHE_ARROW_RIGHT, KHE_ARROW_RIGHT)
  | 0x50 => key (KHE_ARROW_DOWN, KHE_ARROW_DOWN)
  | 0x53 => key (0x7F, 0x7F)
  | _ => None
  end.

(** The print-screen cases 0x2A and 0x37: [seen] is the half of the sequence
    that completes it, [next] the one it begins.  The third branch of the source
    is never taken: its two conditions are complementary. *)
Definition extended_print_screen (st : kh) (seen next : Z) : kh * Z :=
  if has (key_internal_state st) seen
  then (internal_clear (internal_clear st seen) KH_EXTENDED_SCAN,
        finish (Keycodes KHE_PRINT_SCREEN KHE_PRINT_SCREEN 0))
  else (internal_clear (internal_set st next) KH_EXTENDED_SCAN, 0).

Definition process_extended_scan (st : kh) (keypress : Z) (pressed : bool) : kh * Z :=
  let keypress := Z.land keypress 0x7F in
  match extended_key keypress with
  | Some k => (internal_clear st KH_EXTENDED_SCAN, finish k)
  | None =>
      match keypress with
      | 0x1D => (internal_clear (hold st pressed KH_RCONTROL_KEY) KH_EXTENDED_SCAN, modifier KHE_RCTL)
      | 0x2A => extended_print_screen st KH_PRSCR_UP_SCAN KH_PRSCR_DOWN_SCAN
      | 0x37 => extended_print_screen st KH_PRSCR_DOWN_SCAN KH_PRSCR_UP_SCAN
      | 0x38 => (internal_clear (hold st pressed KH_RALT_KEY) KH_EXTENDED_SCAN, modifier KHE_RALT)
      | _ => (internal_clear st KH_EXTENDED_SCAN, undefined_key)
      end
  end.

(** ** The entry point *)

(** The end of [process_scancode]. *)
Definition scancode_result (st : kh) (res : Z) (pressed : bool) : kh * Z :=
  let res := if pressed then Z.lor res (Z.shiftl KH_RESULT_MAKE 16) else res in
  (st, Z.lor res (s32 (Z.shiftl (Z.land (key_state st) KH_STATE_SMASK) 16))).

(** The label [deflt]. *)
Definition scancode_default (st : kh) (keycode : Z) (pressed : bool) : kh * Z :=
  let st := internal_clear st (Z.lor KH_PRSCR_UP_SCAN KH_PRSCR_DOWN_SCAN) in
  let '(st, res) := process_simple_scan st keycode pressed in
  scancode_result st res pressed.

Definition pause_result : Z :=
  Z.lor (Z.lor KHE_PAUSE (Z.shiftl KHE_PAUSE 8)) (Z.shiftl KH_RESULT_HASDATA 16).

Definition process_scancode (st : kh) (keypress : Z) : kh * Z :=
  let pressed := Z.land keypress 0x80 =? 0 in
  let keycode := Z.land keypress 0x7F in
  if has (key_internal_state st) KH_EXTENDED_SCAN then
    let '(st, res) := process_extended_scan st keycode pressed in
    scancode_result st res pressed
  else
    let k := Z.land keypress 0xFF in
    if k =? 0x9D then
      if in_pause st 3 then (set_sequence st (key_sequence st + 1), 0)
      else scancode_default (end_pause st) keycode pressed
    else if k =? 0xC5 then
      if in_pause st 4
      then scancode_result (internal_clear st KH_PAUSE_SCAN) pause_result pressed
      else scancode_default (end_pause st) keycode pressed
    else if k =? 0xE0 then
      let st := internal_set st KH_EXTENDED_SCAN in
      (st, s32 (Z.shiftl (key_state st) 16))
    else scancode_default st keycode pressed.

#[global] Arguments process_scancode : simpl never.

(** [decode st ks]: the characters a reader sees when the scancodes [ks] arrive:
    the results that have data and come from a key going down. *)
Fixpoint decode (st : kh) (ks : list Z) : kh * list Z :=
  match ks with
  | [] => (st, [])
  | k :: ks' =>
      let '(st, augchar) := process_scancode st k in
      let '(st, cs) := decode st ks' in
      (st, if KH_HASDATA augchar && KH_ISMAKE augchar then KH_GETCHAR augchar :: cs else cs)
  end.

(** ** Bits of a result *)

Lemma small_testbit a n j : 0 <= a < 2 ^ n -> n <= j -> Z.testbit a j = false.
Proof.
  intros Ha Hj. destruct (decide (0 <= n)); [| rewrite Z.pow_neg_r in Ha by lia; lia].
  rewrite <- (Z.mod_small a (2 ^ n)) by done. by apply Z.mod_pow2_bits_high.
Qed.

Lemma state_bits_low ks j :
  j < 24 -> Z.testbit (s32 (Z.shiftl (Z.land ks KH_STATE_SMASK) 16)) j = false.
Proof.
  intros Hj. destruct (decide (0 <= j)); [| apply Z.testbit_neg_r; lia].
  rewrite <- (Z.mod_pow2_bits_low _ 24 j) by lia.
  replace (s32 (Z.shiftl (Z.land ks KH_STATE_SMASK) 16) mod 2 ^ 24) with 0; [apply Z.bits_0 |].
  assert (Z.land ks KH_STATE_SMASK = 256 * ((ks / 256) mod 256)) as ->.
  { apply Z.bits_inj'. intros n Hn. rewrite Z.land_spec.
    change 256 with (2 ^ 8). rewrite Z.mul_comm, <- Z.shiftl_mul_pow2 by lia.
    rewrite Z.shiftl_spec by lia. change KH_STATE_SMASK with (Z.shiftl (Z.ones 8) 8).
    rewrite Z.shiftl_spec by lia.
    destruct (decide (n < 8)); [rewrite !(Z.testbit_neg_r _ (n - 8)) by lia; apply andb_false_r |].
    destruct (decide (n < 16)).
    - rewrite Z.ones_spec_low, Z.mod_pow2_bits_low, Z.div_pow2_bits by lia.
      rewrite andb_true_r. f_equal. lia.
    - rewrite Z.ones_spec_high, Z.mod_pow2_bits_high by lia. apply andb_false_r. }
  rewrite Z.shiftl_mul_pow2 by lia. unfold s32. change (2 ^ 24) with 16777216.
  change (2 ^ 16) with 65536. lia.
Qed.

Lemma shifted_state_low ks j :
  Z.land ks 0xFF = 0 -> j < 24 -> Z.testbit (s32 (Z.shiftl ks 16)) j = false.
Proof.
  intros Hks Hj. destruct (decide (0 <= j)); [| apply Z.testbit_neg_r; lia].
  rewrite <- (Z.mod_pow2_bits_low _ 24 j) by lia.
  replace (s32 (Z.shiftl ks 16) mod 2 ^ 24) with 0; [apply Z.bits_0 |].
  change 0xFF with (Z.ones 8) in Hks. rewrite Z.land_ones in Hks by lia.
  rewrite Z.shiftl_mul_pow2 by lia. unfold s32. change (2 ^ 24) with 16777216.
  change (2 ^ 16) with 65536. change (2 ^ 8) with 256 in Hks. lia.
Qed.

Lemma result_bit res j m :
  0 <= j -> m = Z.shiftl 1 j ->
  negb (Z.land (Z.shiftr res 16) m =? 0) = Z.testbit res (16 + j).
Proof.
  intros Hj ->. rewrite land_pow2_eqb, negb_involutive, Z.shiftr_spec by lia. f_equal. lia.
Qed.

(** The codes fit in their bytes. *)
Definition kc_wf (k : keycodes) : Prop :=
  0 <= kc_code k < 256 /\ 0 <= kc_rcode k < 256 /\
  (kc_res k = 0 \/ kc_res k = Z.shiftl KH_RESULT_NUMPAD 16).
Definition kc_data (k : keycodes) : bool :=
  negb (kc_rcode k =? KHE_UNDEFINED) && negb (kc_code k =? KHE_UNDEFINED).

Lemma finish_bits k j :
  kc_wf k -> 0 <= j ->
  Z.testbit (finish k) j
  = (if kc_data k then Z.testbit (kc_res k) j || Z.testbit 0x40000 j || Z.testbit (kc_code k) j
     else Z.testbit (kc_res k) j)
    || Z.testbit (kc_rcode k) (j - 8) || Z.testbit 0x80000 j.
Proof.
  intros Hk Hj. unfold finish, kc_data. destruct (_ && _);
    change (Z.shiftl KH_RESULT_HASRAW 16) with 0x80000;
    change (Z.shiftl KH_RESULT_HASDATA 16) with 0x40000;
    rewrite !Z.lor_spec, ?Z.bits_0, Z.shiftl_spec by lia; by rewrite ?orb_false_r.
Qed.

Lemma finish_result st k pressed :
  kc_wf k ->
  let r := (scancode_result st (finish k) pressed).2 in
  KH_HASDATA r = kc_data k /\ KH_ISMAKE r = pressed /\
  KH_GETCHAR r = (if kc_data k then kc_code k else 0).
Proof.
  intros Hk. pose proof Hk as (H1 & H2 & H3). unfold scancode_result. cbn [snd].
  assert (forall j, 0 <= j < 24 -> Z.testbit
    (Z.lor (if pressed then Z.lor (finish k) (Z.shiftl KH_RESULT_MAKE 16) else finish k)
       (s32 (Z.shiftl (Z.land (key_state st) KH_STATE_SMASK) 16))) j
    = Z.testbit (finish k) j || (pressed && (j =? 16))) as Hb.
  { intros j Hj. rewrite Z.lor_spec, state_bits_low, orb_false_r by lia.
    destruct pressed; simpl; [| by rewrite orb_false_r].
    rewrite Z.lor_spec. f_equal. change (Z.shiftl KH_RESULT_MAKE 16) with (Z.shiftl 1 16).
    rewrite testbit_one_shift by lia. destruct (Z.eqb_spec j 16); case_bool_decide; done || lia. }
  assert (forall j, 8 <= j -> Z.testbit (kc_code k) j = false) as Hc
    by (intros j Hj; by apply (small_testbit _ 8)).
  assert (forall j, 8 <= j -> Z.testbit (kc_rcode k) j = false) as Hr
    by (intros j Hj; by apply (small_testbit _ 8)).
  unfold KH_HASDATA, KH_ISMAKE, KH_GETCHAR.
  rewrite (result_bit _ 2), (result_bit _ 0), !Hb, !finish_bits, (Hr (16 + 2 - 8)), (Hr (16 + 0 - 8)),
    (Hc (16 + 2)), (Hc (16 + 0)) by (lia || done).
  split; [| split].
  - destruct (kc_data k), H3 as [-> | ->]; destruct pressed; vm_compute; done.
  - destruct (kc_data k), H3 as [-> | ->]; destruct pressed; vm_compute; done.
  - apply Z.bits_inj'. intros j Hj. rewrite Z.land_spec. change 0xFF with (Z.ones 8).
    destruct (decide (j < 8)).
    + rewrite Z.ones_spec_low, Hb, finish_bits, (Z.testbit_neg_r _ (j - 8)) by (lia || done).
      replace (j =? 16) with false by lia.
      assert (forall c n, c = Z.shiftl 1 n -> 8 <= n -> Z.testbit c j = false) as Hz.
      { intros c n0 -> Hn. rewrite testbit_one_shift by lia. apply bool_decide_eq_false. lia. }
      rewrite (Hz 0x80000 19), (Hz 0x40000 18) by (done || lia).
      replace (Z.testbit (kc_res k) j) with false.
      * destruct (kc_data k); rewrite ?Z.bits_0; simpl; rewrite ?andb_false_r, ?andb_true_r, ?orb_false_r; done.
      * symmetry. destruct H3 as [-> | ->]; [apply Z.bits_0 | by apply (Hz _ 17)].
    + rewrite Z.ones_spec_high, andb_false_r by lia. symmetry.
      destruct (kc_data k); [apply Hc; lia | apply Z.bits_0].
Qed.

(** ** The state's invariant *)

Record kh_wf (st : kh) : Prop := {
  kw_state : Z.land (key_state st) 0xFF = 0;
  kw_range : -32768 <= key_state st < 32768;
  kw_internal : 0 <= key_internal_state st < 16;
  kw_sequence : 0 <= key_sequence st <= 4
}.

Lemma land_s16 z : Z.land (s16 z) 0xFF = Z.land z 0xFF.
Proof.
  change 0xFF with (Z.ones 8). rewrite !Z.land_ones by lia. unfold s16.
  change (2 ^ 8) with 256. lia.
Qed.

Lemma s16_range z : -32768 <= s16 z < 32768.
Proof. unfold s16. lia. Qed.

Lemma internal_range x m :
  0 <= x < 16 -> 0 <= m < 16 -> 0 <= bset x m < 16 /\ 0 <= bclear x m < 16.
Proof.
  intros Hx Hm.
  assert (Forall (fun x => Forall (fun m => 0 <= bset x m < 16 /\ 0 <= bclear x m < 16)
    (seqZ 0 16)) (seqZ 0 16)) as H.
  { apply (bool_decide_unpack _). vm_compute. done. }
  rewrite Forall_forall in H. specialize (H x ltac:(apply elem_of_seqZ; lia)).
  rewrite Forall_forall in H. apply H, elem_of_seqZ. lia.
Qed.

Lemma state_set_wf st m : Z.land m 0xFF = 0 -> kh_wf st -> kh_wf (state_set st m).
Proof.
  intros Hm []. split; simpl; [| apply s16_range | done | done].
  unfold bset. by rewrite land_s16, Z.land_lor_distr_l, Hm, kw_state0.
Qed.

Lemma state_clear_wf st m : kh_wf st -> kh_wf (state_clear st m).
Proof.
  intros []. split; simpl; [| apply s16_range | done | done]. unfold bclear.
  by rewrite land_s16, <- Z.land_assoc, (Z.land_comm (Z.lnot m)), Z.land_assoc, kw_state0, Z.land_0_l.
Qed.

Lemma internal_set_wf st m : 0 <= m < 16 -> kh_wf st -> kh_wf (internal_set st m).
Proof. intros Hm []. split; simpl; [done | done | by apply internal_range | done]. Qed.

Lemma internal_clear_wf st m : 0 <= m < 16 -> kh_wf st -> kh_wf (internal_clear st m).
Proof. intros Hm []. split; simpl; [done | done | by apply internal_range | done]. Qed.

Lemma set_sequence_wf st n : 0 <= n <= 4 -> kh_wf st -> kh_wf (set_sequence st n).
Proof. intros Hm []. by split. Qed.

Lemma end_pause_wf st : kh_wf st -> kh_wf (end_pause st).
Proof. intros H. apply set_sequence_wf; [lia |]. by apply internal_clear_wf. Qed.

Lemma hold_wf st pressed m : Z.land m 0xFF = 0 -> kh_wf st -> kh_wf (hold st pressed m).
Proof. intros. destruct pressed; [by apply state_set_wf | by apply state_clear_wf]. Qed.

Lemma toggle_wf st pressed m : Z.land m 0xFF = 0 -> kh_wf st -> kh_wf (toggle st pressed m).
Proof.
  intros. unfold toggle. repeat case_match; auto using state_set_wf, state_clear_wf.
Qed.

Create HintDb kh.
#[export] Hint Resolve state_set_wf state_clear_wf internal_set_wf internal_clear_wf
  set_sequence_wf end_pause_wf hold_wf toggle_wf : kh.
#[export] Hint Extern 1 (Z.land _ _ = 0) => reflexivity : kh.
#[export] Hint Extern 1 (0 <= _ < 16) => vm_compute; split; congruence : kh.

Lemma in_pause_next st n :
  0 <= n < 4 -> kh_wf st -> in_pause st n = true -> kh_wf (set_sequence st (key_sequence st + 1)).
Proof.
  intros Hn Hw Hp. apply andb_true_iff in Hp as [_ Hp]. apply set_sequence_wf; [lia | done].
Qed.

Ltac row_cases E :=
  repeat (case_match; try discriminate E); injection E as <-;
  unfold kc_wf, KHS_SHIFT, KHS_SHIFTCTL, KHS_SHIFTCAPSCTL; simpl;
  repeat case_match; vm_compute; intuition congruence.

Lemma simple_row1_wf st k kc : simple_row1 st k = Some kc -> kc_wf kc.
Proof. unfold simple_row1, key, numpad. intros E. row_cases E. Qed.
Lemma simple_row2_wf st k kc : simple_row2 st k = Some kc -> kc_wf kc.
Proof. unfold simple_row2, key, numpad. intros E. row_cases E. Qed.
Lemma simple_row3_wf st k kc : simple_row3 st k = Some kc -> kc_wf kc.
Proof. unfold simple_row3, key, numpad. intros E. row_cases E. Qed.
Lemma simple_row4_wf k kc : simple_row4 k = Some kc -> kc_wf kc.
Proof. unfold simple_row4, key, numpad. intros E. row_cases E. Qed.
Lemma simple_row5_wf k kc : simple_row5 k = Some kc -> kc_wf kc.
Proof. unfold simple_row5, key, numpad. intros E. row_cases E. Qed.
Lemma extended_key_wf k kc : extended_key k = Some kc -> kc_wf kc.
Proof. unfold extended_key, key, numpad. intros E. row_cases E. Qed.

Lemma simple_key_wf st k kc : simple_key st k = Some kc -> kc_wf kc.
Proof.
  unfold simple_key. intros E. repeat case_match; simplify_eq;
    eauto using simple_row1_wf, simple_row2_wf, simple_row3_wf, simple_row4_wf, simple_row5_wf.
Qed.

(** What one of the two scan functions returns: no result yet, or the codes of
    a key, which carry data only when no modifier changed. *)
Definition scanned (st : kh) (r : kh * Z) : Prop :=
  kh_wf r.1 /\
  (r.2 = 0 \/ exists kc, kc_wf kc /\ r.2 = finish kc /\
     (kc_data kc = true -> key_state r.1 = key_state st)).

Lemma scanned_modifier st st' rcode :
  kh_wf st' -> 0 <= rcode < 256 -> scanned st (st', modifier rcode).
Proof.
  intros Hw Hr. split; [done |]. right. exists (Keycodes 0x80 rcode 0).
  split; [split; [simpl; lia | split; [done | by left]] |]. split; [done |].
  unfold kc_data. simpl. by rewrite andb_false_r.
Qed.

Lemma scanned_undefined st st' : kh_wf st' -> scanned st (st', undefined_key).
Proof. intros. by apply (scanned_modifier st st' KHE_UNDEFINED). Qed.

Lemma process_simple_scan_ok st k pressed :
  kh_wf st -> scanned st (process_simple_scan st k pressed).
Proof.
  intros Hw. unfold process_simple_scan.
  destruct (simple_key st _) as [kc |] eqn:E.
  { split; [done |]. right. exists kc. split; [by eapply simple_key_wf |]. done. }
  unfold simple_control, simple_numlock, simple_pause.
  repeat case_match; try (apply scanned_modifier; [auto 6 with kh | vm_compute; split; congruence]);
    try (apply scanned_undefined; auto 6 with kh);
    (split; [| by left]); simpl;
    first [apply set_sequence_wf; [lia | auto with kh] | eapply in_pause_next; [| done | done]; lia].
Qed.

Lemma process_extended_scan_ok st k pressed :
  kh_wf st -> scanned st (process_extended_scan st k pressed).
Proof.
  intros Hw. unfold process_extended_scan.
  destruct (extended_key _) as [kc |] eqn:E.
  { split; [simpl; auto with kh |]. right. exists kc. split; [by eapply extended_key_wf |]. done. }
  unfold extended_print_screen.
  repeat case_match; try (apply scanned_modifier; [auto 6 with kh | vm_compute; split; congruence]);
    try (apply scanned_undefined; auto 6 with kh);
    (split; [simpl; auto 8 with kh |]); first [by left | right].
  - exists (Keycodes KHE_PRINT_SCREEN KHE_PRINT_SCREEN 0). vm_compute. intuition congruence.
  - exists (Keycodes KHE_PRINT_SCREEN KHE_PRINT_SCREEN 0). vm_compute. intuition congruence.
Qed.

(** A result that delivers a character comes from a key going down, and its
    key left the modifiers alone. *)
Definition delivers (st : kh) (pressed : bool) (r : kh * Z) : Prop :=
  kh_wf r.1 /\
  (KH_HASDATA r.2 && KH_ISMAKE r.2 = true ->
     pressed = true /\ key_state r.1 = key_state st /\ 0 <= KH_GETCHAR r.2 < 256).

Lemma no_data_zero st pressed : KH_HASDATA (scancode_result st 0 pressed).2 = false.
Proof.
  unfold scancode_result, KH_HASDATA. cbn [snd].
  rewrite (result_bit _ 2), Z.lor_spec, state_bits_low by (lia || done).
  by destruct pressed.
Qed.

Lemma scancode_result_delivers st r pressed :
  scanned st r -> delivers st pressed (scancode_result r.1 r.2 pressed).
Proof.
  intros [Hw [H0 | (kc & Hk & Hr & Hst)]]; (split; [done |]).
  - rewrite H0. by rewrite no_data_zero.
  - rewrite Hr. destruct (finish_result r.1 kc pressed Hk) as (-> & -> & ->).
    intros [Hd Hp]%andb_true_iff. rewrite Hd. split; [done |]. split; [by apply Hst |].
    apply Hk.
Qed.

Lemma scancode_default_delivers st0 st k pressed :
  key_state st = key_state st0 -> kh_wf st -> delivers st0 pressed (scancode_default st k pressed).
Proof.
  intros Hs Hw. unfold scancode_default.
  set (st1 := internal_clear st _). assert (kh_wf st1) as Hw1 by (unfold st1; auto with kh).
  pose proof (process_simple_scan_ok st1 k pressed Hw1) as Hp.
  destruct (process_simple_scan st1 k pressed) as [st2 res].
  apply (scancode_result_delivers st1 (st2, res) pressed) in Hp.
  unfold delivers in *. by rewrite <- Hs.
Qed.

Lemma low_bits k : Z.land k 0x7F = k mod 128 /\ Z.land k 0xFF = k mod 256.
Proof.
  change 0x7F with (Z.ones 7). change 0xFF with (Z.ones 8). by rewrite !Z.land_ones by lia.
Qed.

Lemma pressed_bit k : 0 <= k < 256 -> (Z.land k 0x80 =? 0) = (k <? 128).
Proof.
  intros Hk. change (Z.land k 0x80) with (Z.land k (Z.shiftl 1 7)). rewrite land_pow2_eqb by lia.
  destruct (Z.testbit k 7) eqn:E.
  - apply Z.testbit_true in E; [| lia]. change (2 ^ 7) with 128 in E.
    destruct (Z.ltb_spec k 128); [lia || done | lia || done].
  - apply Z.testbit_false in E; [| lia]. change (2 ^ 7) with 128 in E.
    destruct (Z.ltb_spec k 128); [lia || done | lia || done].
Qed.

(** C33: every scancode keeps the translator's state well-formed, and a
    scancode that delivers a character to a reader is a key press (never a
    release), leaves the modifier bits as they are, and delivers one byte. *)
Theorem process_scancode_invariant st k (Hw : kh_wf st) (Hk : 0 <= k < 256) :
  kh_wf (process_scancode st k).1 /\
  (KH_HASDATA (process_scancode st k).2 && KH_ISMAKE (process_scancode st k).2 = true ->
     k < 0x80 /\ key_state (process_scancode st k).1 = key_state st /\
     0 <= KH_GETCHAR (process_scancode st k).2 < 256).
Proof.
  assert (delivers st (Z.land k 0x80 =? 0) (process_scancode st k)) as [H1 H2].
  { unfold process_scancode. case_match.
    { pose proof (process_extended_scan_ok st (Z.land k 0x7F) (Z.land k 0x80 =? 0) Hw) as Hp.
      destruct (process_extended_scan _ _ _) as [st' res]. by apply (scancode_result_delivers _ _ (Z.land k 0x80 =? 0)) in Hp. }
    repeat case_match; try (apply scancode_default_delivers; [done | by auto with kh]).
    - split; [eapply in_pause_next; [| done | done]; lia | done].
    - split; [simpl; auto with kh |]. intros [_ Hm]%andb_true_iff. exfalso.
      assert (Z.land k 0xFF = k) as Hk'.
      { change 0xFF with (Z.ones 8). rewrite Z.land_ones by lia. change (2 ^ 8) with 256. lia. }
      replace k with 0xC5 in Hm by lia. vm_compute (Z.land 0xC5 0x80 =? 0) in Hm.
      unfold scancode_result, KH_ISMAKE in Hm. cbn [snd] in Hm.
      rewrite (result_bit _ 0), Z.lor_spec, state_bits_low in Hm by (lia || done). done.
    - split; [simpl; auto with kh |]. intros [_ Hm]%andb_true_iff. exfalso.
      unfold KH_ISMAKE in Hm. rewrite (result_bit _ 0) in Hm by (lia || done). cbn [snd] in Hm.
      by rewrite shifted_state_low in Hm by (apply Hw || lia). }
  split; [done |]. intros Hd. destruct (H2 Hd) as (Hp & Hs & Hc). split; [| done].
  destruct (decide (k < 0x80)); [done |]. exfalso.
  rewrite pressed_bit in Hp by done. lia.
Qed.

(** ** Letters and text *)

(** The keys of the 26 letters, with the lower-case letter on them. *)
Definition letters : list (Z * Z) :=
  [(0x10, chr "q"); (0x11, chr "w"); (0x12, chr "e"); (0x13, chr "r"); (0x14, chr "t");
   (0x15, chr "y"); (0x16, chr "u"); (0x17, chr "i"); (0x18, chr "o"); (0x19, chr "p");
   (0x1E, chr "a"); (0x1F, chr "s"); (0x20, chr "d"); (0x21, chr "f"); (0x22, chr "g");
   (0x23, chr "h"); (0x24, chr "j"); (0x25, chr "k"); (0x26, chr "l"); (0x2C, chr "z");
   (0x2D, chr "x"); (0x2E, chr "c"); (0x2F, chr "v"); (0x30, chr "b"); (0x31, chr "n");
   (0x32, chr "m")].

(** What a letter key means: a control code with a control key held, the upper
    case letter when exactly one of shift and caps lock is on. *)
Definition letter_char (st : kh) (letter : Z) : Z :=
  if KHS_CTL_CORE st then Z.land letter 0x1F
  else if xorb (KHS_SHIFT_CORE st) (has (key_state st) KH_CAPS_LOCK) then letter - 32
  else letter.

Lemma letters_row k letter :
  (k, letter) ∈ letters ->
  0 <= k < 0x80 /\ k <> 0x1D /\ k <> 0x45 /\ k <> 0x60 /\
  forall st, simple_key st k = Some (Keycodes (letter_char st letter) letter 0).
Proof.
  unfold letters. intros H. set_unfold in H.
  repeat destruct H as [[= -> ->] | H]; try done; (do 4 (split; [lia |]));
    intros st; unfold simple_key, letter_char; cbn; unfold key, KHS_SHIFTCAPSCTL; cbn [fst snd];
    destruct (KHS_CTL_CORE st), (KHS_SHIFT_CORE st), (has (key_state st) KH_CAPS_LOCK); reflexivity.
Qed.

Lemma letter_char_range st k letter :
  (k, letter) ∈ letters -> 0 < letter_char st letter < 0x80 /\ 0 < letter < 0x80.
Proof.
  unfold letters. intros H. set_unfold in H.
  repeat destruct H as [[= -> ->] | H]; try done;
    unfold letter_char; destruct (KHS_CTL_CORE st),
      (xorb (KHS_SHIFT_CORE st) (has (key_state st) KH_CAPS_LOCK)); vm_compute; done.
Qed.

Lemma process_scancode_default st k :
  0 <= k < 256 -> k <> 0x9D -> k <> 0xC5 -> k <> 0xE0 ->
  has (key_internal_state st) KH_EXTENDED_SCAN = false ->
  process_scancode st k = scancode_default st (k mod 128) (k <? 128).
Proof.
  intros Hk N1 N2 N3 Hx. unfold process_scancode. destruct (low_bits k) as [-> ->].
  rewrite Hx, pressed_bit, (Z.mod_small k 256) by lia.
  by destruct (Z.eqb_spec k 0x9D), (Z.eqb_spec k 0xC5), (Z.eqb_spec k 0xE0).
Qed.

(** Outside an extended sequence, pressing a letter key delivers the
    letter, in upper case when exactly one of shift and caps lock is on and as its
    control code (its low five bits) when a control key is held; releasing it
    delivers nothing. *)
Theorem letter_key_correct st k letter
    (Hl : (k, letter) ∈ letters)
    (Hx : has (key_internal_state st) KH_EXTENDED_SCAN = false) :
  (KH_HASDATA (process_scancode st k).2 && KH_ISMAKE (process_scancode st k).2 = true /\
   KH_GETCHAR (process_scancode st k).2 = letter_char st letter /\
   key_state (process_scancode st k).1 = key_state st) /\
  (KH_ISMAKE (process_scancode st (k + 0x80)).2 = false /\
   key_state (process_scancode st (k + 0x80)).1 = key_state st).
Proof.
  assert (forall st', kc_wf (Keycodes (letter_char st' letter) letter 0) /\
    kc_data (Keycodes (letter_char st' letter) letter 0) = true) as Hkc.
  { intros st'. destruct (letter_char_range st' k letter Hl) as [H1 H2]. split.
    - split; [simpl; lia | split; [simpl; lia | by left]].
    - unfold kc_data, KHE_UNDEFINED. simpl. lia. }
  destruct (letters_row k letter Hl) as (Hr & N1 & N2 & N3 & Hrow).
  assert (forall pressed, scancode_default st k pressed
    = scancode_result (internal_clear st (Z.lor KH_PRSCR_UP_SCAN KH_PRSCR_DOWN_SCAN))
        (finish (Keycodes (letter_char st letter) letter 0)) pressed) as Hdef.
  { intros pressed. unfold scancode_default, process_simple_scan.
    rewrite (proj1 (low_bits k)), Z.mod_small, Hrow by lia. done. }
  rewrite !process_scancode_default by lia || done.
  replace ((k + 0x80) mod 128) with k by lia. replace (k mod 128) with k by lia. rewrite !Hdef.
  destruct (Hkc st) as [Hk1 Hk2].
  replace (k <? 128) with true by lia. replace (k + 0x80 <? 128) with false by lia.
  set (st1 := internal_clear st _).
  destruct (finish_result st1 _ true Hk1) as (-> & -> & ->).
  destruct (finish_result st1 _ false Hk1) as (_ & -> & _). by rewrite Hk2.
Qed.

(** The keys of the main block, in the order of their scancodes. *)
Definition main_keys : list Z := seqZ 0x01 0x39.

(** The scancodes that type a character: a press and a release, with the left
    shift key held around them when the key alone does not give the character. *)
Definition press (k : Z) : list Z := [k; k + 0x80].
Definition shifted (ks : list Z) : list Z := [0x2A] ++ ks ++ [0xAA].
Definition types (ks : list Z) (c : Z) : bool := bool_decide ((decode kh_init ks).2 = [c]).
Definition type_char (c : Z) : list Z :=
  match List.find (fun k => types (press k) c) main_keys with
  | Some k => press k
  | None =>
      match List.find (fun k => types (shifted (press k)) c) main_keys with
      | Some k => shifted (press k)
      | None => []
      end
  end.
Definition type_text (text : list Z) : list Z := concat (map type_char text).

(** Printable ASCII, newline, tab and backspace. *)
Definition typeable (c : Z) : Prop := 32 <= c < 127 \/ c = 8 \/ c = 9 \/ c = 10.

Lemma type_char_decode c :
  typeable c -> decode kh_init (type_char c) = (kh_init, [c]).
Proof.
  intros Hc.
  assert (Forall (fun c => decode kh_init (type_char c) = (kh_init, [c]))
    ([8; 9; 10] ++ seqZ 32 95)) as H.
  { apply (bool_decide_unpack _). vm_compute. done. }
  rewrite Forall_forall in H. apply H. apply elem_of_app. unfold typeable in Hc.
  destruct Hc as [Hc | [-> | [-> | ->]]]; [right; apply elem_of_seqZ; lia | left; set_solver ..].
Qed.

Lemma decode_app st ks ks' :
  decode st (ks ++ ks')
  = ((decode (decode st ks).1 ks').1, (decode st ks).2 ++ (decode (decode st ks).1 ks').2).
Proof.
  revert st. induction ks as [|k ks IH]; intros st; cbn [decode app fst snd].
  - by destruct (decode st ks').
  - destruct (process_scancode st k) as [st1 r]. rewrite IH.
    destruct (decode st1 ks) as [st2 cs]. cbn [fst snd].
    destruct (decode st2 ks') as [st3 cs']. cbn [fst snd]. by destruct (_ && _).
Qed.

Lemma decode_type_text text (Ht : Forall typeable text) :
  decode kh_init (type_text text) = (kh_init, text).
Proof.
  induction Ht as [|c text Hc Ht IH]; [done |].
  unfold type_text in *. cbn [map concat]. rewrite decode_app, (type_char_decode c Hc).
  cbn [fst snd]. rewrite IH. reflexivity.
Qed.

(** Every text of printable characters, newlines, tabs and backspaces can
    be typed: the scancodes of its keys, with shift where it is needed, decode
    to exactly the text, and leave the translator in its initial state. *)
Theorem typed_text_decodes text (Ht : Forall typeable text) :
  decode kh_init (type_text text) = (kh_init, text).
Proof. by apply decode_type_text. Qed.

(** The two multi-byte sequences from the initial state: print screen is
    delivered, pause has data but is not a press. *)
Example print_screen_make :
  decode kh_init [0xE0; 0x2A; 0xE0; 0x37] = (kh_init, [KHE_PRINT_SCREEN]).
Proof. vm_compute. reflexivity. Qed.

Example pause_sequence_silent :
  (decode kh_init [0xE1; 0x1D; 0x45; 0xE1; 0x9D; 0xC5]).2 = [].
Proof. vm_compute. reflexivity. Qed.

(** Caps lock shifts the bracket keys as if they were letters. *)
Example caps_lock_brackets :
  (decode kh_init [0x3A; 0xBA; 0x1A; 0x9A; 0x02; 0x82]).2 = [chr "{"; chr "1"].
Proof. vm_compute. reflexivity. Qed.

(** ** Witnesses *)

Lemma process_scancode_invariant_witness :
  kh_wf kh_init /\ kh_wf (process_scancode kh_init 0x2A).1.
Proof.
  split; [by split; vm_compute |].
  apply (process_scancode_invariant kh_init 0x2A); [by split; vm_compute | lia].
Defined.

Lemma letter_key_correct_witness :
  KH_GETCHAR (process_scancode (Kh KH_CAPS_LOCK 0 0) 0x10).2 = chr "Q".
Proof.
  pose proof (letter_key_correct (Kh KH_CAPS_LOCK 0 0) 0x10 (chr "q")) as H.
  destruct H as [(_ & H & _) _]; [apply list_elem_of_here | vm_compute; reflexivity |].
  exact H.
Defined.

Lemma typed_text_decodes_witness :
  decode kh_init (type_text [chr "H"; chr "i"; chr "!"; 10]) = (kh_init, [chr "H"; chr "i"; chr "!"; 10]).
Proof.
  apply typed_text_decodes. repeat constructor; unfold typeable; vm_compute; intuition congruence.
Defined.
