(* ===== verification/Scheduler.v ===== *)
(** * Scheduler (task/scheduler.c, task/thread.h, interrupt/timer.c)

    Threads, the queue of ready threads and the switch between them, on one
    processor.  A kernel function runs on behalf of the current thread; a
    context switch changes which thread that is.  [s_esp] is the stack pointer of
    the running thread at the entry of [context_switch]; the seven registers
    [context_switch] pushes take 28 bytes. *)

From S2P Require Import Prelude.
From S2P Require Import Allocator.
From S2P Require Import LinkedList.

Inductive task_status : Type :=
  | TASK_RUNNING
  | TASK_READY
  | TASK_BLOCKED
  | TASK_WAITING
  | TASK_HANGING
  | TASK_DEAD.

#[export] Instance task_status_eq_dec : EqDecision task_status.
Proof. solve_decision. Defined.

(** A thread.  Its [name] is only printed, and [user_stack] is never assigned. *)
Record tcb_t := Tcb {
  t_kernel_esp : Z;
  t_kernel_stack : Z;
  t_id : Z;
  t_priority : Z;
  t_status : task_status;
  t_ticks : Z;
  t_process : Z;
  t_user_stack_index : Z;
  t_need_reschedule : bool;
  t_preempt_count : Z
}.

Definition KERNEL_STACK_SIZE : Z := 8192.

Definition with_status (v : task_status) (t : tcb_t) : tcb_t :=
  Tcb (t_kernel_esp t) (t_kernel_stack t) (t_id t) (t_priority t) v (t_ticks t) (t_process t)
    (t_user_stack_index t) (t_need_reschedule t) (t_preempt_count t).
Definition with_ticks (v : Z) (r : bool) (t : tcb_t) : tcb_t :=
  Tcb (t_kernel_esp t) (t_kernel_stack t) (t_id t) (t_priority t) (t_status t) v (t_process t)
    (t_user_stack_index t) r (t_preempt_count t).
Definition with_esp (v : Z) (t : tcb_t) : tcb_t :=
  Tcb v (t_kernel_stack t) (t_id t) (t_priority t) (t_status t) (t_ticks t) (t_process t)
    (t_user_stack_index t) (t_need_reschedule t) (t_preempt_count t).
Definition with_preempt_count (v : Z) (t : tcb_t) : tcb_t :=
  Tcb (t_kernel_esp t) (t_kernel_stack t) (t_id t) (t_priority t) (t_status t) (t_ticks t)
    (t_process t) (t_user_stack_index t) (t_need_reschedule t) v.

(** The scheduler's static variables, the waiting queues of the
    synchronisation objects (by address), and the processor state a switch
    changes: the interrupt flag, the kernel stack of the task-state segment, the
    process whose page directory is loaded, and the stack pointer. *)
Record sched := Sched {
  s_tcbs : gmap Z tcb_t;
  s_nodes : nodes;
  s_ready_tasks : linked_list_t;
  s_crt_thread_node : Z;
  s_main_thread_node : Z;
  s_main_process : Z;
  s_main_in_ready_queue : bool;
  s_queues : gmap Z linked_list_t;
  s_interrupt : bool;
  s_tss_esp : Z;
  s_page_dir : Z;
  s_esp : Z;
  s_tick : Z
}.

Definition set_tcbs (s : sched) (v : gmap Z tcb_t) : sched :=
  Sched v (s_nodes s) (s_ready_tasks s) (s_crt_thread_node s) (s_main_thread_node s)
    (s_main_process s) (s_main_in_ready_queue s) (s_queues s) (s_interrupt s) (s_tss_esp s)
    (s_page_dir s) (s_esp s) (s_tick s).
Definition set_ready (s : sched) (v : nodes) (l : linked_list_t) : sched :=
  Sched (s_tcbs s) v l (s_crt_thread_node s) (s_main_thread_node s)
    (s_main_process s) (s_main_in_ready_queue s) (s_queues s) (s_interrupt s) (s_tss_esp s)
    (s_page_dir s) (s_esp s) (s_tick s).
Definition set_queue (s : sched) (v : nodes) (q : Z) (l : linked_list_t) : sched :=
  Sched (s_tcbs s) v (s_ready_tasks s) (s_crt_thread_node s) (s_main_thread_node s)
    (s_main_process s) (s_main_in_ready_queue s) (<[q := l]> (s_queues s)) (s_interrupt s)
    (s_tss_esp s) (s_page_dir s) (s_esp s) (s_tick s).
Definition set_crt (s : sched) (v : Z) (in_queue : bool) : sched :=
  Sched (s_tcbs s) (s_nodes s) (s_ready_tasks s) v (s_main_thread_node s)
    (s_main_process s) in_queue (s_queues s) (s_interrupt s) (s_tss_esp s)
    (s_page_dir s) (s_esp s) (s_tick s).
Definition set_interrupt (s : sched) (v : bool) : sched :=
  Sched (s_tcbs s) (s_nodes s) (s_ready_tasks s) (s_crt_thread_node s) (s_main_thread_node s)
    (s_main_process s) (s_main_in_ready_queue s) (s_queues s) v (s_tss_esp s)
    (s_page_dir s) (s_esp s) (s_tick s).
Definition set_env (s : sched) (tss page_dir : Z) : sched :=
  Sched (s_tcbs s) (s_nodes s) (s_ready_tasks s) (s_crt_thread_node s) (s_main_thread_node s)
    (s_main_process s) (s_main_in_ready_queue s) (s_queues s) (s_interrupt s) tss
    page_dir (s_esp s) (s_tick s).
Definition set_esp (s : sched) (v : Z) : sched :=
  Sched (s_tcbs s) (s_nodes s) (s_ready_tasks s) (s_crt_thread_node s) (s_main_thread_node s)
    (s_main_process s) (s_main_in_ready_queue s) (s_queues s) (s_interrupt s) (s_tss_esp s)
    (s_page_dir s) v (s_tick s).
Definition set_tick (s : sched) (v : Z) : sched :=
  Sched (s_tcbs s) (s_nodes s) (s_ready_tasks s) (s_crt_thread_node s) (s_main_thread_node s)
    (s_main_process s) (s_main_in_ready_queue s) (s_queues s) (s_interrupt s) (s_tss_esp s)
    (s_page_dir s) (s_esp s) v.

Definition enable_interrupt (s : sched) : sched := set_interrupt s true.
Definition disable_interrupt (s : sched) : sched := set_interrupt s false.

(** ** The current thread *)

(** The thread a node points to, [node->ptr]. *)
Definition node_thread (s : sched) (node : Z) : outcome Z :=
  n ← deref (s_nodes s !! node); Ok (n_ptr n).

Definition get_crt_thread (s : sched) : outcome Z :=
  if s_crt_thread_node s =? 0 then Ok 0 else node_thread s (s_crt_thread_node s).
Definition get_crt_thread_node (s : sched) : Z := s_crt_thread_node s.
Definition get_crt_process (s : sched) : outcome Z :=
  thread ← get_crt_thread s;
  if thread =? 0 then Ok 0 else t ← deref (s_tcbs s !! thread); Ok (t_process t).
Definition is_kernel_main_thread (s : sched) : bool :=
  s_crt_thread_node s =? s_main_thread_node s.

(** A write to fields of a thread. *)
Definition update_thread (s : sched) (thread : Z) (f : tcb_t -> tcb_t) : outcome sched :=
  t ← deref (s_tcbs s !! thread); Ok (set_tcbs s (<[thread := f t]> (s_tcbs s))).

Definition disable_preempt (s : sched) : outcome sched :=
  thread ← get_crt_thread s;
  update_thread s thread (fun t => with_preempt_count (u32 (t_preempt_count t + 1)) t).
Definition enable_preempt (s : sched) : outcome sched :=
  thread ← get_crt_thread s;
  update_thread s thread (fun t => with_preempt_count (u32 (t_preempt_count t - 1)) t).

(** ** Switching *)

(** The argument of [reload_page_directory]. *)
Definition process_switch (s : sched) (process : Z) : sched :=
  set_env s (s_tss_esp s) (if process =? 0 then s_main_process s else process).

(** task/schedule.S: push the registers, swap the stacks, pop, enable interrupts. *)
Definition context_switch (s : sched) (crt next : Z) : outcome sched :=
  s ← update_thread s crt (with_esp (u32 (s_esp s - 28)));
  n ← deref (s_tcbs s !! next);
  Ok (enable_interrupt (set_esp s (u32 (t_kernel_esp n + 28)))).

Definition do_context_switch (s : sched) : outcome sched :=
  old_thread ← get_crt_thread s;
  let head := ll_head (s_ready_tasks s) in
  '(nds, l) ← linked_list_remove (s_nodes s) (s_ready_tasks s) head;
  let s := set_ready s nds l in
  next_thread ← node_thread s head;
  old ← deref (s_tcbs s !! old_thread);
  s ← (if bool_decide (t_status old = TASK_RUNNING)
          && negb (s_crt_thread_node s =? s_main_thread_node s)
       then
         s ← update_thread s old_thread (with_status TASK_READY);
         '(nds, l) ← linked_list_append (s_nodes s) (s_ready_tasks s) (s_crt_thread_node s);
         Ok (set_ready s nds l)
       else Ok s);
  s ← update_thread s old_thread (with_ticks 0 false);
  s ← update_thread s next_thread (with_status TASK_RUNNING);
  let s := set_crt s head
    (if head =? s_main_thread_node s then false else s_main_in_ready_queue s) in
  old ← deref (s_tcbs s !! old_thread);
  next ← deref (s_tcbs s !! next_thread);
  let s := set_env s (u32 (t_kernel_stack next + KERNEL_STACK_SIZE)) (s_page_dir s) in
  let s := if negb (t_process old =? t_process next) then process_switch s (t_process next) else s in
  context_switch s old_thread next_thread.

Definition schedule (s : sched) : outcome sched :=
  let s := disable_interrupt s in
  crt_thread ← get_crt_thread s;
  t ← deref (s_tcbs s !! crt_thread);
  if 0 <? t_preempt_count t then Ok s
  else
    let need_context_switch :=
      if 0 <? ll_size (s_ready_tasks s) then t_need_reschedule t else false in
    if need_context_switch then do_context_switch s else Ok (enable_interrupt s).

Definition add_thread_node_to_schedule (s : sched) (thread_node : Z) : outcome sched :=
  let s := disable_interrupt s in
  thread ← node_thread s thread_node;
  t ← deref (s_tcbs s !! thread);
  s ← (if bool_decide (t_status t = TASK_DEAD) then Ok s
       else update_thread s thread (with_status TASK_READY));
  '(nds, l) ← linked_list_append (s_nodes s) (s_ready_tasks s) thread_node;
  Ok (enable_interrupt (set_ready s nds l)).

Definition add_thread_node_to_schedule_head (s : sched) (thread_node : Z) : outcome sched :=
  let s := disable_interrupt s in
  thread ← node_thread s thread_node;
  s ← update_thread s thread (with_status TASK_READY);
  '(nds, l) ← linked_list_insert_to_head (s_nodes s) (s_ready_tasks s) thread_node;
  Ok (enable_interrupt (set_ready s nds l)).

Definition add_thread_to_schedule {A} `{Allocator A} (a : A) (s : sched) (thread : Z) :
    outcome (A * sched) :=
  '(a, node) ← a_malloc a NODE_SIZE;
  let s := set_ready s (<[node := Node thread 0 0]> (s_nodes s)) (s_ready_tasks s) in
  s ← add_thread_node_to_schedule s node;
  Ok (a, s).

Definition schedule_thread_yield (s : sched) : outcome sched :=
  let s := disable_interrupt s in
  s ← (if ll_size (s_ready_tasks s) =? 0 then
         '(nds, l) ← linked_list_append (s_nodes s) (s_ready_tasks s) (s_main_thread_node s);
         Ok (set_crt (set_ready s nds l) (s_crt_thread_node s) true)
       else Ok s);
  do_context_switch s.

Definition schedule_mark_thread_block (s : sched) : outcome sched :=
  thread ← node_thread s (s_crt_thread_node s);
  update_thread s thread (with_status TASK_WAITING).

(** ** The timer *)

(** The time slice: a thread has run for [priority] ticks. *)
Definition timer_callback (s : sched) : outcome sched :=
  let s := set_tick s (u32 (s_tick s + 1)) in
  crt_thread ← get_crt_thread s;
  update_thread s crt_thread (fun t =>
    let ticks := u32 (t_ticks t + 1) in
    with_ticks ticks (if t_priority t <=? ticks then true else t_need_reschedule t) t).

(** A timer interrupt: [isr_handler] runs the callback and enables interrupts,
    [interrupt_exit] calls [schedule]. *)
Definition timer_interrupt (s : sched) : outcome sched :=
  s ← timer_callback (disable_interrupt s); schedule (enable_interrupt s).
