(* ===== verification/SchedulerInv.v ===== *)
(** * The scheduler's invariant

    [sched_wf s ready W]: the ready queue of [s] holds the nodes [ready], the
    waiting queue at address [q] the nodes [W !! q]; no thread is in two places, and
    the status of every thread says where it is.  Every operation is shown to
    return and to move threads between these places as intended. *)

From S2P Require Import Prelude.
From S2P Require Import Allocator.
From S2P Require Import LinkedList.
From S2P Require Import Scheduler.

Lemma relinked_size st st' xs : relinked st st' xs -> size st' = size st.
Proof.
  intros [H _]. rewrite <- !size_dom. f_equal. apply set_eq. intros x. rewrite !elem_of_dom.
  specialize (H x). destruct (st' !! x), (st !! x); simpl in H; try done; split; intros; by eexists.
Qed.

(** The nodes of a list are distinct nodes of the store. *)
Lemma is_list_length st l xs : is_list st l xs -> (length xs <= size st)%nat.
Proof.
  intros [Hs Hnd _ _ _ _]. apply NoDup_cons in Hnd as [_ Hnd].
  rewrite <- (size_list_to_set (C := gset Z)) by done. rewrite <- size_dom.
  apply subseteq_size. intros x Hx. apply elem_of_list_to_set in Hx. apply elem_of_dom.
  by eapply seg_in.
Qed.

(** The thread of a node, and its control block. *)
Definition thr (s : sched) (x : Z) : option Z := n_ptr <$> s_nodes s !! x.
Definition tcb_of (s : sched) (x : Z) : option tcb_t := thr s x ≫= (s_tcbs s !!.).

(** The nodes that wait in a queue, and all the nodes of live threads. *)
Definition waiting (W : gmap Z (list Z)) (x : Z) : Prop :=
  exists q xs, W !! q = Some xs /\ x ∈ xs.
Definition known (s : sched) (ready : list Z) (W : gmap Z (list Z)) (x : Z) : Prop :=
  x = s_crt_thread_node s \/ x = s_main_thread_node s \/ x ∈ ready \/ waiting W x.

Record sched_wf (s : sched) (ready : list Z) (W : gmap Z (list Z)) : Prop := {
  sw_ready : is_list (s_nodes s) (s_ready_tasks s) ready;
  sw_waits : forall q xs, W !! q = Some xs ->
    exists l, s_queues s !! q = Some l /\ is_list (s_nodes s) l xs;
  sw_apart : forall q q' xs xs' x, W !! q = Some xs -> W !! q' = Some xs' ->
    x ∈ xs -> x ∈ xs' -> q = q';
  sw_not_ready : forall x, waiting W x -> (x ∉ ready) /\ x <> s_main_thread_node s;
  sw_known : forall x, known s ready W x -> x <> 0 /\ is_Some (tcb_of s x);
  sw_inj : forall x y, known s ready W x -> known s ready W y -> thr s x = thr s y -> x = y;
  sw_is_ready : forall x t, x ∈ ready -> x <> s_main_thread_node s -> tcb_of s x = Some t ->
    t_status t = TASK_READY;
  sw_is_waiting : forall x t, waiting W x -> tcb_of s x = Some t -> t_status t = TASK_WAITING;
  sw_crt : s_crt_thread_node s <> s_main_thread_node s ->
    (s_crt_thread_node s ∉ ready) /\
    forall t, tcb_of s (s_crt_thread_node s) = Some t -> t_status t <> TASK_READY;
  sw_page_dir : forall t, tcb_of s (s_crt_thread_node s) = Some t ->
    t_process t <> 0 -> s_page_dir s = t_process t;
  sw_size : Z.of_nat (size (s_nodes s)) < 4294967295
}.

(** No queue is longer than there are nodes. *)
Lemma wf_short s ready W l xs :
  sched_wf s ready W -> is_list (s_nodes s) l xs -> Z.of_nat (length xs) < 4294967295.
Proof. intros Hw Hl. apply is_list_length in Hl. pose proof (sw_size _ _ _ Hw). lia. Qed.

(** ** Updates of control blocks *)

Lemma update_thread_ok s p f :
  is_Some (s_tcbs s !! p) -> update_thread s p f = Ok (set_tcbs s (alter f p (s_tcbs s))).
Proof.
  intros [t Ht]. unfold update_thread. rewrite Ht. cbn. do 2 f_equal.
  apply map_eq. intros i. destruct (decide (i = p)) as [-> | Hne].
  - by rewrite lookup_insert_eq, lookup_alter_eq, Ht.
  - by rewrite lookup_insert_ne, lookup_alter_ne.
Qed.

Lemma is_Some_alter {A} (f : A -> A) (m : gmap Z A) i j :
  is_Some (m !! j) -> is_Some (alter f i m !! j).
Proof.
  intros [x Hx]. destruct (decide (i = j)) as [-> | Hne].
  - rewrite lookup_alter_eq, Hx. by eexists.
  - rewrite lookup_alter_ne by done. by eexists.
Qed.
#[export] Hint Resolve is_Some_alter : core.

Lemma is_list_same st st' l xs :
  (forall x, x ∈ xs -> st' !! x = st !! x) -> is_list st l xs -> is_list st' l xs.
Proof. intros Hf []. split; try done. by eapply seg_frame. Qed.

Lemma is_list_head st l x xs : is_list st l (x :: xs) -> ll_head l = x.
Proof. by intros []. Qed.

Lemma is_list_nodup st l xs : is_list st l xs -> NoDup xs.
Proof. intros [_ H _ _ _ _]. by apply NoDup_cons in H as [_ H]. Qed.

Lemma is_list_short st l x xs : is_list st l (x :: xs) -> Z.of_nat (length xs) < 4294967295.
Proof. intros [_ _ _ _ _ H]. simpl in H. lia. Qed.

Lemma known_thread s ready W x :
  sched_wf s ready W -> known s ready W x ->
  exists p t, thr s x = Some p /\ s_tcbs s !! p = Some t /\ node_thread s x = Ok p.
Proof.
  intros Hw Hx. destruct (sw_known _ _ _ Hw x Hx) as [_ [t Ht]]. unfold tcb_of in Ht.
  destruct (thr s x) as [p |] eqn:Hp; [| done]. exists p, t. split; [done |]. split; [done |].
  unfold node_thread. unfold thr in Hp. destruct (s_nodes s !! x); [| done]. by injection Hp as <-.
Qed.

Lemma get_crt_thread_ok s ready W :
  sched_wf s ready W ->
  exists p t, get_crt_thread s = Ok p /\ thr s (s_crt_thread_node s) = Some p /\
    s_tcbs s !! p = Some t.
Proof.
  intros Hw. assert (known s ready W (s_crt_thread_node s)) as Hk by by left.
  destruct (known_thread _ _ _ _ Hw Hk) as (p & t & H1 & H2 & H3).
  exists p, t. split; [| done]. unfold get_crt_thread.
  destruct (Z.eqb_spec (s_crt_thread_node s) 0); [| done].
  by destruct (sw_known _ _ _ Hw _ Hk).
Qed.

(** ** The context switch *)

(** Whether the current thread goes back to the ready queue. *)
Definition requeued (s : sched) (t : tcb_t) : bool :=
  bool_decide (t_status t = TASK_RUNNING) && negb (s_crt_thread_node s =? s_main_thread_node s).

Definition requeue (s : sched) (t : tcb_t) (rest : list Z) : list Z :=
  if requeued s t then rest ++ [s_crt_thread_node s] else rest.

(** The control blocks after a switch from [po] to [pn]. *)
Definition switch_tcbs (s : sched) (po pn : Z) (old : tcb_t) : gmap Z tcb_t :=
  alter (with_esp (u32 (s_esp s - 28))) po
    (alter (with_status TASK_RUNNING) pn
      (alter (with_ticks 0 false) po
        (if requeued s old then alter (with_status TASK_READY) po (s_tcbs s) else s_tcbs s))).

Record switched (s s' : sched) (po pn head : Z) (old next : tcb_t) (nds : nodes)
    (l : linked_list_t) : Prop := {
  sd_tcbs : s_tcbs s' = switch_tcbs s po pn old;
  sd_nodes : s_nodes s' = nds;
  sd_ready : s_ready_tasks s' = l;
  sd_crt : s_crt_thread_node s' = head;
  sd_main : s_main_thread_node s' = s_main_thread_node s;
  sd_main_process : s_main_process s' = s_main_process s;
  sd_queues : s_queues s' = s_queues s;
  sd_interrupt : s_interrupt s' = true;
  sd_tss : s_tss_esp s' = u32 (t_kernel_stack next + KERNEL_STACK_SIZE);
  sd_page_dir : s_page_dir s' =
    if t_process old =? t_process next then s_page_dir s
    else if t_process next =? 0 then s_main_process s else t_process next;
  sd_esp : po <> pn -> s_esp s' = u32 (t_kernel_esp next + 28);
  sd_tick : s_tick s' = s_tick s
}.

Lemma alter_fields (f : tcb_t -> tcb_t) {B} (g : tcb_t -> B) (m : gmap Z tcb_t) i j :
  (forall t, g (f t) = g t) -> g <$> (alter f i m !! j) = g <$> (m !! j).
Proof.
  intros Hg. destruct (decide (i = j)) as [-> | Hne].
  - rewrite lookup_alter_eq. destruct (m !! j); simpl; [by rewrite Hg | done].
  - by rewrite lookup_alter_ne.
Qed.

(** Fields no switch changes. *)
Lemma switch_tcbs_field {B} (g : tcb_t -> B) s po pn old p :
  (forall v t, g (with_status v t) = g t) -> (forall v t, g (with_esp v t) = g t) ->
  (forall v r t, g (with_ticks v r t) = g t) ->
  g <$> (switch_tcbs s po pn old !! p) = g <$> (s_tcbs s !! p).
Proof.
  intros H1 H2 H3. unfold switch_tcbs. rewrite !alter_fields by auto.
  destruct (requeued s old); [by rewrite alter_fields by auto | done].
Qed.

Lemma switch_tcbs_Some s po pn old p :
  is_Some (switch_tcbs s po pn old !! p) <-> is_Some (s_tcbs s !! p).
Proof.
  unfold switch_tcbs. split; intros H.
  - apply fmap_is_Some with (f := t_id) in H. pose proof (switch_tcbs_field t_id s po pn old p) as E.
    unfold switch_tcbs in E. rewrite E in H by done. by apply fmap_is_Some in H.
  - destruct (requeued s old); auto.
Qed.

(** The status of each thread after the switch. *)
Lemma switch_tcbs_status s po pn old p :
  s_tcbs s !! po = Some old ->
  t_status <$> (switch_tcbs s po pn old !! p) =
  if decide (p = pn) then (fun _ => TASK_RUNNING) <$> s_tcbs s !! p
  else if decide (p = po) then Some (if requeued s old then TASK_READY else t_status old)
  else t_status <$> (s_tcbs s !! p).
Proof.
  intros Ho. unfold switch_tcbs. rewrite alter_fields by done.
  destruct (decide (p = pn)) as [-> | Hp].
  - rewrite lookup_alter_eq, <- option_fmap_compose. cbn.
    change (t_status ∘ with_status TASK_RUNNING) with (fun _ : tcb_t => TASK_RUNNING).
    rewrite alter_fields by done. destruct (requeued s old); [by rewrite alter_fields by done | done].
  - rewrite lookup_alter_ne by done. rewrite alter_fields by done.
    destruct (decide (p = po)) as [-> | Hq]; destruct (requeued s old).
    + by rewrite lookup_alter_eq, Ho.
    + by rewrite Ho.
    + by rewrite lookup_alter_ne.
    + done.
Qed.

(** The end of [do_context_switch]: the control blocks and the environment. *)
Lemma switch_in s1 po pn old0 t1 n1 head :
  s_tcbs s1 !! po = Some t1 -> s_tcbs s1 !! pn = Some n1 ->
  let T := alter (with_status TASK_RUNNING) pn (alter (with_ticks 0 false) po (s_tcbs s1)) in
  t_process t1 = t_process old0 ->
  exists s2,
    (s ← update_thread s1 po (with_ticks 0 false);
     s ← update_thread s pn (with_status TASK_RUNNING);
     let s := set_crt s head
       (if head =? s_main_thread_node s then false else s_main_in_ready_queue s) in
     old ← deref (s_tcbs s !! po);
     next ← deref (s_tcbs s !! pn);
     let s := set_env s (u32 (t_kernel_stack next + KERNEL_STACK_SIZE)) (s_page_dir s) in
     let s := if negb (t_process old =? t_process next) then process_switch s (t_process next) else s in
     context_switch s po pn) = Ok s2 /\
    s_tcbs s2 = alter (with_esp (u32 (s_esp s1 - 28))) po T /\
    s_nodes s2 = s_nodes s1 /\ s_ready_tasks s2 = s_ready_tasks s1 /\
    s_crt_thread_node s2 = head /\ s_main_thread_node s2 = s_main_thread_node s1 /\
    s_main_process s2 = s_main_process s1 /\ s_queues s2 = s_queues s1 /\
    s_interrupt s2 = true /\
    s_tss_esp s2 = u32 (t_kernel_stack n1 + KERNEL_STACK_SIZE) /\
    s_page_dir s2 = (if t_process old0 =? t_process n1 then s_page_dir s1
      else if t_process n1 =? 0 then s_main_process s1 else t_process n1) /\
    (po <> pn -> s_esp s2 = u32 (t_kernel_esp n1 + 28)) /\ s_tick s2 = s_tick s1.
Proof.
  intros Ht Hn T Hproc.
  rewrite (update_thread_ok s1) by (by eexists). cbn [mbind outcome_bind].
  rewrite update_thread_ok by (cbn; apply is_Some_alter; by eexists). cbn [mbind outcome_bind].
  cbn [s_tcbs set_tcbs set_crt]. fold T.
  assert (is_Some (T !! po) /\ is_Some (T !! pn)) as [[to Hto] [tn Htn]].
  { unfold T. split; apply is_Some_alter, is_Some_alter; by eexists. }
  assert (forall {B} (g : tcb_t -> B) p,
    (forall v t, g (with_status v t) = g t) -> (forall v r t, g (with_ticks v r t) = g t) ->
    g <$> (T !! p) = g <$> (s_tcbs s1 !! p)) as Hg.
  { intros B g p H1 H2. unfold T. by rewrite !alter_fields by auto. }
  rewrite Hto, Htn. cbn [deref mbind outcome_bind].
  assert (t_process to = t_process old0) as ->.
  { pose proof (Hg _ t_process po ltac:(done) ltac:(done)) as E. rewrite Hto, Ht in E. by injection E as ->. }
  assert (t_process tn = t_process n1 /\ t_kernel_stack tn = t_kernel_stack n1
    /\ t_kernel_esp tn = t_kernel_esp n1) as (-> & -> & Hesp).
  { pose proof (Hg _ t_process pn ltac:(done) ltac:(done)) as E1.
    pose proof (Hg _ t_kernel_stack pn ltac:(done) ltac:(done)) as E2.
    pose proof (Hg _ t_kernel_esp pn ltac:(done) ltac:(done)) as E3.
    rewrite Htn, Hn in E1, E2, E3. simpl in E1, E2, E3. by simplify_eq. }
  unfold context_switch.
  destruct (t_process old0 =? t_process n1); cbn [negb];
    (rewrite update_thread_ok by (cbn; by eexists); cbn;
     assert (is_Some (alter (with_esp (u32 (s_esp s1 - 28))) po T !! pn)) as [tn' Htn']
       by (apply is_Some_alter; by eexists);
     rewrite Htn'; cbn; eexists; split; [reflexivity |]; cbn;
     do 10 (split; [reflexivity |]);
     split; [| reflexivity];
     intros Hne; rewrite lookup_alter_ne in Htn' by done; rewrite Htn in Htn';
     injection Htn' as <-; by rewrite Hesp).
Qed.

Lemma do_context_switch_eq s h t W :
  sched_wf s (h :: t) W ->
  exists po pn old next s' nds l,
    thr s (s_crt_thread_node s) = Some po /\ s_tcbs s !! po = Some old /\
    thr s h = Some pn /\ s_tcbs s !! pn = Some next /\
    do_context_switch s = Ok s' /\
    switched s s' po pn h old next nds l /\
    is_list nds l (requeue s old t) /\
    relinked (s_nodes s) nds (h :: requeue s old t).
Proof.
  intros Hw. destruct (get_crt_thread_ok _ _ _ Hw) as (po & old & Hg & Hpo & Hold).
  destruct (known_thread s _ _ h Hw) as (pn & next & Hpn & Hnext & _).
  { right. right. left. by left. }
  pose proof (sw_ready _ _ _ Hw) as Hr.
  destruct (linked_list_remove_spec _ _ [] h t Hr) as (nds1 & l1 & Hrm & Hl1 & Hre1 & Hh1).
  simpl in Hl1, Hre1. exists po, pn, old, next.
  assert (thr (set_ready s nds1 l1) h = Some pn) as Hpn1.
  { unfold thr. cbn. by rewrite Hh1. }
  unfold do_context_switch. rewrite Hg. cbn [mbind outcome_bind].
  rewrite (is_list_head _ _ _ _ Hr), Hrm. cbn [mbind outcome_bind].
  assert (node_thread (set_ready s nds1 l1) h = Ok pn) as ->.
  { unfold thr in Hpn1. unfold node_thread. cbn in *. destruct (nds1 !! h); [| done]. by injection Hpn1 as <-. }
  cbn [mbind outcome_bind]. cbn [s_tcbs set_ready]. rewrite Hold. cbn [deref mbind outcome_bind].
  cbn [s_crt_thread_node s_main_thread_node set_ready].
  change (bool_decide (t_status old = TASK_RUNNING) && negb (s_crt_thread_node s =? s_main_thread_node s))
    with (requeued s old). unfold requeue.
  destruct (requeued s old) eqn:Eq.
  - assert (s_crt_thread_node s <> s_main_thread_node s) as Hne.
    { unfold requeued in Eq. apply andb_true_iff in Eq as [_ Eq]. by apply negb_true_iff, Z.eqb_neq in Eq. }
    destruct (sw_crt _ _ _ Hw Hne) as [Hni _].
    rewrite update_thread_ok by (cbn; by eexists). cbn [mbind outcome_bind]. cbn.
    destruct (linked_list_append_spec nds1 l1 t (s_crt_thread_node s)) as (nds2 & l2 & Hap & Hl2 & Hre2).
    { done. }
    { apply (sw_known _ _ _ Hw). by left. }
    { set_solver. }
    { eapply relinked_in; [exact Hre1 |]. unfold thr in Hpo. by destruct (s_nodes s !! _). }
    { by eapply is_list_short. }
    rewrite Hap. cbn [mbind outcome_bind].
    set (s1 := set_ready _ nds2 l2).
    destruct (switch_in s1 po pn old (with_status TASK_READY old)
      (if decide (po = pn) then with_status TASK_READY next else next) h)
      as (s2 & E & D1 & D2 & D3 & D4 & D5 & D6 & D7 & D8 & D9 & D10 & D11 & D12).
    { unfold s1. cbn. by rewrite lookup_alter_eq, Hold. }
    { unfold s1. cbn. case_decide as Hd; [subst pn; by rewrite lookup_alter_eq, Hnext | by rewrite lookup_alter_ne]. }
    { done. }
    exists s2, nds2, l2. do 4 (split; [done |]). split; [exact E |]. split; [| split; [done |]].
    + split; try done.
      * rewrite D1. unfold switch_tcbs. by rewrite Eq.
      * rewrite D9. by case_decide.
      * rewrite D10. by case_decide.
      * intros Hd. rewrite (D11 Hd). by rewrite decide_False.
    + eapply relinked_trans; [eapply relinked_mono; [exact Hre1 |] | eapply relinked_mono; [exact Hre2 |]]; set_solver.
  - cbn [mbind outcome_bind].
    destruct (switch_in (set_ready s nds1 l1) po pn old old next h)
      as (s2 & E & D1 & D2 & D3 & D4 & D5 & D6 & D7 & D8 & D9 & D10 & D11 & D12); try done.
    exists s2, nds1, l1. do 4 (split; [done |]). split; [exact E |]. split; [| split; [done |]].
    + split; try done. rewrite D1. unfold switch_tcbs. by rewrite Eq.
    + eapply relinked_mono; [exact Hre1 |]. set_solver.
Qed.

(** What [do_context_switch] does to the queues, the current thread, the status
    of each thread and the environment. *)
Lemma switched_thr s s' po pn h old next nds l xs :
  switched s s' po pn h old next nds l -> relinked (s_nodes s) nds xs ->
  forall x, thr s' x = thr s x.
Proof. intros Hd [Hr _] x. unfold thr. by rewrite (sd_nodes _ _ _ _ _ _ _ _ _ Hd), Hr. Qed.

Lemma switched_tcb s s' po pn h old next nds l xs x :
  switched s s' po pn h old next nds l -> relinked (s_nodes s) nds xs ->
  tcb_of s' x = thr s x ≫= (switch_tcbs s po pn old !!.).
Proof.
  intros Hd Hr. unfold tcb_of. rewrite (switched_thr _ _ _ _ _ _ _ _ _ _ Hd Hr).
  by rewrite (sd_tcbs _ _ _ _ _ _ _ _ _ Hd).
Qed.

(** A field no switch changes, at any node. *)
Lemma switched_field {B} (g : tcb_t -> B) s s' po pn h old next nds l xs x t :
  switched s s' po pn h old next nds l -> relinked (s_nodes s) nds xs ->
  (forall v t, g (with_status v t) = g t) -> (forall v t, g (with_esp v t) = g t) ->
  (forall v r t, g (with_ticks v r t) = g t) ->
  tcb_of s' x = Some t -> exists t0, tcb_of s x = Some t0 /\ g t = g t0.
Proof.
  intros Hd Hr H1 H2 H3 Ht. rewrite (switched_tcb _ _ _ _ _ _ _ _ _ _ _ Hd Hr) in Ht.
  unfold tcb_of. destruct (thr s x) as [p |]; [| done]. simpl in Ht |- *.
  pose proof (switch_tcbs_field g s po pn old p H1 H2 H3) as E. rewrite Ht in E.
  destruct (s_tcbs s !! p) as [t0 |]; [| done]. exists t0. split; [done |]. by injection E.
Qed.

Lemma switched_is_Some s s' po pn h old next nds l xs x :
  switched s s' po pn h old next nds l -> relinked (s_nodes s) nds xs ->
  is_Some (tcb_of s x) -> is_Some (tcb_of s' x).
Proof.
  intros Hd Hr. rewrite (switched_tcb _ _ _ _ _ _ _ _ _ _ _ Hd Hr). unfold tcb_of.
  destruct (thr s x) as [p |]; simpl; [| done]. by rewrite switch_tcbs_Some.
Qed.

Lemma requeue_cases s old t x :
  x ∈ requeue s old t -> x ∈ t \/
  (x = s_crt_thread_node s /\ requeued s old = true /\ t_status old = TASK_RUNNING /\
   s_crt_thread_node s <> s_main_thread_node s).
Proof.
  unfold requeue. destruct (requeued s old) eqn:E; [| by left].
  intros [Hx | ->%list_elem_of_singleton]%elem_of_app; [by left | right].
  split; [done |]. split; [done |]. unfold requeued in E. apply andb_true_iff in E as [E1 E2].
  apply bool_decide_eq_true in E1. apply negb_true_iff, Z.eqb_neq in E2. done.
Qed.

Section switched.
Context (s s' : sched) (h : Z) (t : list Z) (W : gmap Z (list Z)) (po pn : Z) (old next : tcb_t)
  (nds : nodes) (l : linked_list_t).
Hypothesis (Hw : sched_wf s (h :: t) W) (Hpo : thr s (s_crt_thread_node s) = Some po)
  (Hold : s_tcbs s !! po = Some old) (Hpn : thr s h = Some pn) (Hnext : s_tcbs s !! pn = Some next)
  (Hd : switched s s' po pn h old next nds l) (Hl : is_list nds l (requeue s old t))
  (Hr : relinked (s_nodes s) nds (h :: requeue s old t)).

Lemma old_tcb : tcb_of s (s_crt_thread_node s) = Some old.
Proof. unfold tcb_of. rewrite Hpo. done. Qed.

Lemma switched_known x : known s' (requeue s old t) W x -> known s (h :: t) W x.
Proof.
  unfold known. destruct Hd. rewrite sd_crt0, sd_main0.
  intros [-> | [-> | [Hx | Hx]]]; [right; right; left; by left | by right; left | | by do 3 right].
  apply requeue_cases in Hx as [Hx | [-> _]]; [right; right; left; by right | by left].
Qed.

Lemma requeued_not_waiting x : requeued s old = true -> waiting W x -> x <> s_crt_thread_node s.
Proof.
  intros Hq Hx ->. unfold requeued in Hq. apply andb_true_iff in Hq as [Hq _].
  apply bool_decide_eq_true in Hq.
  pose proof (sw_is_waiting _ _ _ Hw _ _ Hx old_tcb). congruence.
Qed.

Lemma waiting_not_linked x : waiting W x -> x ∉ h :: requeue s old t.
Proof.
  intros Hx [-> | Hq]%elem_of_cons.
  - destruct (sw_not_ready _ _ _ Hw _ Hx) as [Hn _]. set_solver.
  - apply requeue_cases in Hq as [Hq | (-> & Hq & _)].
    + destruct (sw_not_ready _ _ _ Hw _ Hx) as [Hn _]. set_solver.
    + by apply (requeued_not_waiting _ Hq Hx).
Qed.

(** The status after the switch. *)
Lemma switched_status x u :
  known s (h :: t) W x -> tcb_of s' x = Some u ->
  exists u0, tcb_of s x = Some u0 /\
  t_status u = (if decide (x = h) then TASK_RUNNING
    else if decide (x = s_crt_thread_node s)
      then (if requeued s old then TASK_READY else t_status old) else t_status u0).
Proof.
  intros Hk Hu. rewrite (switched_tcb _ _ _ _ _ _ _ _ _ _ _ Hd Hr) in Hu.
  unfold tcb_of. destruct (thr s x) as [p |] eqn:Hp; [| done]. simpl in Hu |- *.
  pose proof (switch_tcbs_status s po pn old p Hold) as E. rewrite Hu in E.
  assert (p = pn <-> x = h) as Hi1.
  { split; intros ->; [| congruence]. apply (sw_inj _ _ _ Hw); [done | | congruence].
    right. right. left. by left. }
  assert (p = po <-> x = s_crt_thread_node s) as Hi2.
  { split; intros ->; [| congruence]. apply (sw_inj _ _ _ Hw); [done | by left | congruence]. }
  simpl in E. destruct (s_tcbs s !! p) as [u0 |] eqn:Hu0.
  - exists u0. split; [done |]. repeat case_decide; simplify_eq/=; tauto || done.
  - exfalso. pose proof (switch_tcbs_Some s po pn old p) as [Hs _].
    rewrite Hu, Hu0 in Hs. by destruct (Hs (mk_is_Some _ _ eq_refl)).
Qed.

Lemma head_not_requeued : h <> s_main_thread_node s -> h ∉ requeue s old t.
Proof.
  intros Hm Hq. pose proof (is_list_nodup _ _ _ (sw_ready _ _ _ Hw)) as Hnd.
  apply NoDup_cons in Hnd as [Hn _].
  apply requeue_cases in Hq as [Hq | (He & _ & _ & Hc)]; [done |].
  destruct (sw_crt _ _ _ Hw Hc) as [Hni _]. set_solver.
Qed.

Lemma switched_wf : sched_wf s' (requeue s old t) W.
Proof.
  pose proof (switched_thr _ _ _ _ _ _ _ _ _ _ Hd Hr) as Hthr.
  pose proof switched_known as Hkn.
  pose proof (is_list_nodup _ _ _ (sw_ready _ _ _ Hw)) as Hnd. apply NoDup_cons in Hnd as [Hnh Hnd].
  destruct Hd as [_ Dn Dr Dc Dm Dmp Dq _ _ Dp _ _]. split.
  - by rewrite Dn, Dr.
  - intros q xs Hq. destruct (sw_waits _ _ _ Hw q xs Hq) as (l0 & Hl0 & His).
    exists l0. rewrite Dq, Dn. split; [done |]. eapply is_list_same; [| exact His].
    intros x Hx. apply Hr, waiting_not_linked. by exists q, xs.
  - exact (sw_apart _ _ _ Hw).
  - intros x Hx. rewrite Dm. destruct (sw_not_ready _ _ _ Hw x Hx) as [_ Hm].
    split; [| done]. pose proof (waiting_not_linked x Hx). set_solver.
  - intros x Hx. apply Hkn in Hx. destruct (sw_known _ _ _ Hw x Hx) as [H0 H1].
    split; [done |]. by eapply switched_is_Some.
  - intros x y Hx Hy. rewrite !Hthr. apply (sw_inj _ _ _ Hw); auto.
  - intros x u Hx Hm Hu. rewrite Dm in Hm.
    assert (known s (h :: t) W x) as Hk by (apply Hkn; by right; right; left).
    destruct (switched_status x u Hk Hu) as (u0 & Hu0 & ->).
    apply requeue_cases in Hx as [Hx | (-> & -> & _ & Hc)].
    + rewrite decide_False by (intros ->; done).
      rewrite decide_False.
      * apply (sw_is_ready _ _ _ Hw x u0); [by right | done | done].
      * intros ->. destruct (sw_crt _ _ _ Hw Hm) as [Hni _]. set_solver.
    + rewrite decide_False by (intros <-; destruct (sw_crt _ _ _ Hw Hc) as [Hni _]; set_solver).
      by rewrite decide_True.
  - intros x u Hx Hu. assert (known s (h :: t) W x) as Hk by (by right; right; right).
    destruct (switched_status x u Hk Hu) as (u0 & Hu0 & ->).
    pose proof (sw_is_waiting _ _ _ Hw x u0 Hx Hu0) as Hs.
    rewrite decide_False by (intros ->; destruct (sw_not_ready _ _ _ Hw _ Hx); set_solver).
    case_decide as Hxc; [| done]. subst x. rewrite old_tcb in Hu0. injection Hu0 as <-.
    destruct (requeued s old) eqn:Hq; [| done]. by destruct (requeued_not_waiting _ Hq Hx).
  - rewrite Dc, Dm. intros Hm. split; [by apply head_not_requeued |]. intros u Hu.
    destruct (switched_status h u) as (u0 & _ & ->); [right; right; left; by left | done |].
    by rewrite decide_True.
  - intros u Hu Hpr. rewrite Dc in Hu. rewrite Dp.
    destruct (switched_field t_process _ _ _ _ _ _ _ _ _ _ h u Hd Hr) as (u0 & Hu0 & E); try done.
    unfold tcb_of in Hu0. rewrite Hpn in Hu0. simpl in Hu0. rewrite Hnext in Hu0. injection Hu0 as <-.
    rewrite E in Hpr |- *. destruct (Z.eqb_spec (t_process next) 0); [done |].
    destruct (Z.eqb_spec (t_process old) (t_process next)) as [Eo |]; [| done].
    rewrite <- Eo. apply (sw_page_dir _ _ _ Hw); [exact old_tcb | congruence].
  - rewrite Dn, (relinked_size _ _ _ Hr). apply (sw_size _ _ _ Hw).
Qed.
End switched.

(** [do_context_switch] with a ready thread: it becomes the current one, and the
    old one goes to the end of the queue when it was running. *)
Lemma do_context_switch_spec s h t W :
  sched_wf s (h :: t) W ->
  exists old next s', tcb_of s (s_crt_thread_node s) = Some old /\ tcb_of s h = Some next /\
    do_context_switch s = Ok s' /\
    sched_wf s' (requeue s old t) W /\
    s_crt_thread_node s' = h /\ s_main_thread_node s' = s_main_thread_node s /\
    s_interrupt s' = true /\
    s_tss_esp s' = u32 (t_kernel_stack next + KERNEL_STACK_SIZE) /\
    (exists u, tcb_of s' h = Some u /\ t_status u = TASK_RUNNING).
Proof.
  intros Hw. destruct (do_context_switch_eq s h t W Hw)
    as (po & pn & old & next & s' & nds & l & Hpo & Hold & Hpn & Hnext & E & Hd & Hl & Hr).
  exists old, next, s'.
  split; [by apply (old_tcb s po) |].
  split; [unfold tcb_of; by rewrite Hpn |].
  split; [done |].
  split; [by eapply (switched_wf s s' h t W po pn old next nds l) |].
  split; [apply Hd |]. split; [apply Hd |]. split; [apply Hd |]. split; [apply Hd |].
  assert (is_Some (tcb_of s' h)) as [u Hu].
  { eapply switched_is_Some; [done | done |]. unfold tcb_of. rewrite Hpn. by eexists. }
  exists u. split; [done |].
  destruct (switched_status s s' h t W po pn old next nds l Hw Hpo Hold Hpn Hnext Hd Hr h u)
    as (u0 & _ & ->); [right; right; left; by left | done | by rewrite decide_True].
Qed.

(** ** Other changes of the state *)

Lemma wf_interrupt s ready W v : sched_wf s ready W -> sched_wf (set_interrupt s v) ready W.
Proof. by intros []. Qed.

Lemma wf_tick s ready W v : sched_wf s ready W -> sched_wf (set_tick s v) ready W.
Proof. by intros []. Qed.

Lemma wf_set_crt_flag s ready W v :
  sched_wf s ready W -> sched_wf (set_crt s (s_crt_thread_node s) v) ready W.
Proof. by intros []. Qed.

#[export] Hint Resolve wf_interrupt wf_tick wf_set_crt_flag : core.

Lemma tcb_of_alter s f p x :
  tcb_of (set_tcbs s (alter f p (s_tcbs s))) x
  = if decide (thr s x = Some p) then f <$> tcb_of s x else tcb_of s x.
Proof.
  unfold tcb_of. change (thr (set_tcbs s _) x) with (thr s x). cbn [s_tcbs set_tcbs].
  destruct (thr s x) as [q |]; [| by case_decide]. cbn [mbind option_bind].
  case_decide as Hq; [injection Hq as ->; by rewrite lookup_alter_eq |].
  rewrite lookup_alter_ne; [done | congruence].
Qed.

(** An update that keeps status and process. *)
Lemma wf_update s ready W f p :
  (forall t, t_status (f t) = t_status t) -> (forall t, t_process (f t) = t_process t) ->
  sched_wf s ready W -> sched_wf (set_tcbs s (alter f p (s_tcbs s))) ready W.
Proof.
  intros H1 H2 Hw.
  assert (forall x t, tcb_of (set_tcbs s (alter f p (s_tcbs s))) x = Some t ->
    exists t0, tcb_of s x = Some t0 /\ t_status t = t_status t0 /\ t_process t = t_process t0) as Hf.
  { intros x t. rewrite tcb_of_alter. case_decide; [| by intros ->; exists t].
    destruct (tcb_of s x) as [t0 |]; [| done]. intros [= <-]. by exists t0. }
  destruct Hw. split; try done.
  - intros x Hx. destruct (sw_known0 x Hx) as [H0 [t Ht]]. split; [done |].
    rewrite tcb_of_alter, Ht. case_decide; by eexists.
  - intros x t Hx Hm (t0 & Ht0 & -> & _)%Hf. by apply (sw_is_ready0 x).
  - intros x t Hx (t0 & Ht0 & -> & _)%Hf. by apply (sw_is_waiting0 x).
  - intros Hc. destruct (sw_crt0 Hc) as [Hn Hs]. split; [done |].
    intros t (t0 & Ht0 & -> & _)%Hf. by apply Hs.
  - intros t (t0 & Ht0 & _ & ->)%Hf. by apply sw_page_dir0.
Qed.

Lemma schedule_spec s ready W t
    (Hw : sched_wf s ready W) (Ht : tcb_of s (s_crt_thread_node s) = Some t) :
  exists s', schedule s = Ok s' /\
    (if 0 <? t_preempt_count t then s' = set_interrupt s false
     else match ready with
          | h :: rest =>
              if t_need_reschedule t
              then sched_wf s' (requeue s t rest) W /\ s_crt_thread_node s' = h /\
                   s_interrupt s' = true /\
                   (exists u, tcb_of s' h = Some u /\ t_status u = TASK_RUNNING)
              else s' = set_interrupt s true
          | [] => s' = set_interrupt s true
          end).
Proof.
  unfold schedule. pose proof (wf_interrupt _ _ _ false Hw) as Hw0.
  destruct (get_crt_thread_ok _ _ _ Hw0) as (p & t' & Hg & Hp & Ht').
  assert (t' = t) as ->.
  { unfold tcb_of in Ht. change (thr (set_interrupt s false)) with (thr s) in Hp.
    cbn in Hp. rewrite Hp in Ht. simpl in Ht. cbn in Ht'. congruence. }
  unfold disable_interrupt. rewrite Hg. cbn [mbind outcome_bind]. rewrite Ht'. cbn [deref mbind outcome_bind].
  destruct (0 <? t_preempt_count t); [by eexists |].
  pose proof (il_size _ _ _ (sw_ready _ _ _ Hw0)) as Hsz. rewrite Hsz.
  destruct ready as [|h rest]; [cbn; by eexists |].
  assert ((0 <? Z.of_nat (length (h :: rest))) = true) as ->
    by (apply Z.ltb_lt; cbn [length]; lia).
  destruct (t_need_reschedule t); [| by eexists].
  destruct (do_context_switch_spec _ h rest W Hw0)
    as (old & next & s' & Ho & Hn & E & Hw' & Hc & _ & Hi & _ & Hu).
  assert (old = t) as -> by (change (tcb_of s (s_crt_thread_node s) = Some old) in Ho; congruence).
  by exists s'.
Qed.

(** C36: the scheduler's entry at the end of an interrupt returns and keeps the
    invariant: with preemption disabled nothing changes (interrupts stay off); a
    thread whose time slice is used up goes to the end of the ready queue and
    the first ready thread runs; otherwise the current thread goes on. *)
Theorem schedule_correct s ready W t
    (Hw : sched_wf s ready W) (Ht : tcb_of s (s_crt_thread_node s) = Some t) :
  exists s', schedule s = Ok s' /\
    (if 0 <? t_preempt_count t then s' = set_interrupt s false
     else match ready with
          | h :: rest =>
              if t_need_reschedule t
              then sched_wf s' (requeue s t rest) W /\ s_crt_thread_node s' = h /\
                   s_interrupt s' = true /\
                   (exists u, tcb_of s' h = Some u /\ t_status u = TASK_RUNNING)
              else s' = set_interrupt s true
          | [] => s' = set_interrupt s true
          end).
Proof. by apply schedule_spec. Qed.

(** The idle thread in the empty ready queue. *)
Lemma wf_idle s W nds l :
  sched_wf s [] W -> is_list nds l [s_main_thread_node s] ->
  relinked (s_nodes s) nds [s_main_thread_node s] ->
  sched_wf (set_ready s nds l) [s_main_thread_node s] W.
Proof.
  intros Hw Hl [Hr1 Hr2]. set (s' := set_ready s nds l).
  assert (forall x, thr s' x = thr s x) as Hthr by (intros x; apply Hr1).
  assert (forall x, tcb_of s' x = tcb_of s x) as Htcb
    by (intros x; unfold tcb_of; by rewrite Hthr).
  assert (forall x, known s' [s_main_thread_node s] W x -> known s [] W x) as Hk.
  { intros x [? | [? | [?%list_elem_of_singleton | ?]]]; unfold known; auto. }
  destruct Hw. split; try done.
  - intros q xs Hq. destruct (sw_waits0 q xs Hq) as (l0 & H1 & H2). exists l0. split; [done |].
    eapply is_list_same; [| exact H2]. intros x Hx. apply Hr2.
    destruct (sw_not_ready0 x) as [_ Hm]; [by exists q, xs | set_solver].
  - intros x Hx. destruct (sw_not_ready0 x Hx). set_solver.
  - intros x Hx. rewrite Htcb. by apply sw_known0, Hk.
  - intros x y Hx Hy. rewrite !Hthr. apply sw_inj0; auto.
  - intros x t Hx Hm. set_solver.
  - intros x t Hx. rewrite Htcb. by apply sw_is_waiting0.
  - intros Hc. destruct (sw_crt0 Hc) as [Hn Hs]. split; [change (s_crt_thread_node s ∉ [s_main_thread_node s]); set_solver |].
    intros t. rewrite Htcb. apply Hs.
  - intros t. rewrite Htcb. apply sw_page_dir0.
  - cbn. by rewrite (relinked_size _ _ _ (conj Hr1 Hr2)).
Qed.

(** What a switch leaves of the threads, and the page directory it loads: the
    same, the idle process's or a thread's. *)
Record switch_keeps (s s' : sched) : Prop := {
  sk_main_process : s_main_process s' = s_main_process s;
  sk_queues : s_queues s' = s_queues s;
  sk_thr : forall x, thr s' x = thr s x;
  sk_fields : forall p, t_process <$> s_tcbs s' !! p = t_process <$> s_tcbs s !! p;
  sk_ids : forall p, t_id <$> s_tcbs s' !! p = t_id <$> s_tcbs s !! p;
  sk_dir : s_page_dir s' = s_page_dir s \/ s_page_dir s' = s_main_process s \/
    exists p t, s_tcbs s !! p = Some t /\ t_process t <> 0 /\ s_page_dir s' = t_process t;
  sk_left : forall p t, thr s (s_crt_thread_node s) = Some p -> s_tcbs s !! p = Some t ->
    s_crt_thread_node s <> s_main_thread_node s -> t_status t <> TASK_RUNNING ->
    t_status <$> s_tcbs s' !! p = Some (t_status t);
  sk_main : s_main_thread_node s' = s_main_thread_node s
}.

Lemma do_context_switch_keeps s h t W s' :
  sched_wf s (h :: t) W -> do_context_switch s = Ok s' -> switch_keeps s s'.
Proof.
  intros Hw E. destruct (do_context_switch_eq s h t W Hw)
    as (po & pn & old & next & s1 & nds & l & Hpo & Hold & Hpn & Hnext & E1 & Hd & Hl & Hr).
  assert (s1 = s') as -> by congruence.
  pose proof Hd as [Ht _ _ _ Hmn Hm Hq _ _ Hdir _ _]. split; [done | done | | | | | | done].
  - by eapply switched_thr.
  - intros p. rewrite Ht. by apply switch_tcbs_field.
  - intros p. rewrite Ht. by apply switch_tcbs_field.
  - rewrite Hdir. case_match; [by left | right]. destruct (Z.eqb_spec (t_process next) 0); [by left | right].
    by exists pn, next.
  - intros p u Hp Hu Hc Hs. assert (p = po) as -> by congruence. assert (u = old) as -> by congruence.
    rewrite Ht, switch_tcbs_status by done.
    destruct (decide (po = pn)) as [->|].
    { destruct (sw_crt _ _ _ Hw Hc) as [Hn _]. destruct Hn.
      assert (s_crt_thread_node s = h) as ->; [|by left].
      apply (sw_inj _ _ _ Hw); [by left | right; right; left; by left | congruence]. }
    rewrite decide_True by done. unfold requeued. by rewrite bool_decide_false by done.
Qed.

(** The idle thread joins an empty ready queue. *)
Definition yield_queue (s : sched) : outcome sched :=
  if ll_size (s_ready_tasks s) =? 0 then
    '(nds, l) ← linked_list_append (s_nodes s) (s_ready_tasks s) (s_main_thread_node s);
    Ok (set_crt (set_ready s nds l) (s_crt_thread_node s) true)
  else Ok s.

Lemma yield_queue_spec s ready W :
  sched_wf s ready W ->
  exists s1 h rest, yield_queue s = Ok s1 /\ sched_wf s1 (h :: rest) W /\
    h = default (s_main_thread_node s) (head ready) /\ rest = tail ready /\
    (forall x, thr s1 x = thr s x) /\ s_tcbs s1 = s_tcbs s /\
    s_crt_thread_node s1 = s_crt_thread_node s /\ s_main_thread_node s1 = s_main_thread_node s /\
    s_main_process s1 = s_main_process s /\ s_queues s1 = s_queues s /\ s_page_dir s1 = s_page_dir s.
Proof.
  intros Hw0. unfold yield_queue.
  rewrite (is_list_size _ _ _ (sw_ready _ _ _ Hw0)). case_bool_decide as Hr.
  - subst ready. cbn [tail head default].
    destruct (linked_list_append_spec (s_nodes s) (s_ready_tasks s) [] (s_main_thread_node s))
      as (nds & l & E & Hl & Hre).
    { apply (sw_ready _ _ _ Hw0). }
    { apply (sw_known _ _ _ Hw0). right. by left. }
    { apply not_elem_of_nil. }
    { destruct (sw_known _ _ _ Hw0 (s_main_thread_node s)) as [_ [u Hu]]; [right; by left |].
      unfold tcb_of, thr in Hu. by destruct (s_nodes s !! _). }
    { done. }
    rewrite E. cbn [mbind outcome_bind].
    pose proof (wf_idle s W nds l Hw0 Hl Hre) as Hw1. apply (wf_set_crt_flag _ _ _ true) in Hw1.
    eexists _, _, []. split; [done |]. split; [done |]. repeat (split; [done |]). split; [|done].
    intros x. apply Hre.
  - destruct ready as [|h rest]; [done |]. by exists s, h, rest.
Qed.

Lemma schedule_thread_yield_spec s ready W t
    (Hw : sched_wf s ready W) (Ht : tcb_of s (s_crt_thread_node s) = Some t) :
  exists s', schedule_thread_yield s = Ok s' /\
    sched_wf s' (requeue s t (tail ready)) W /\
    s_crt_thread_node s' = default (s_main_thread_node s) (head ready) /\
    s_interrupt s' = true /\
    (exists u, tcb_of s' (s_crt_thread_node s') = Some u /\ t_status u = TASK_RUNNING).
Proof.
  unfold schedule_thread_yield. fold (yield_queue (disable_interrupt s)).
  destruct (yield_queue_spec (disable_interrupt s) ready W) as
    (s1 & h & rest & -> & Hw1 & Hh & -> & Hthr & Htc & Hc1 & Hm1 & _); [by apply wf_interrupt |].
  cbn [mbind outcome_bind].
  destruct (do_context_switch_spec _ h (tail ready) W Hw1)
    as (old & next & s' & Ho & Hn & E & Hw' & Hc & _ & Hi & _ & Hu).
  assert (old = t) as ->.
  { unfold tcb_of in Ho. rewrite Hthr, Htc, Hc1 in Ho.
    change (tcb_of s (s_crt_thread_node s) = Some old) in Ho. congruence. }
  exists s'. rewrite Hc. split; [done |]. split; [|by subst h].
  unfold requeue, requeued in *. by rewrite Hc1, Hm1 in Hw'.
Qed.

Lemma schedule_thread_yield_keeps s ready W s' :
  sched_wf s ready W -> schedule_thread_yield s = Ok s' -> switch_keeps s s'.
Proof.
  unfold schedule_thread_yield. fold (yield_queue (disable_interrupt s)). intros Hw.
  destruct (yield_queue_spec (disable_interrupt s) ready W) as
    (s1 & h & rest & -> & Hw1 & _ & _ & Hthr & Htc & Hc1 & Hm1 & Hp1 & Hq1 & Hd1); [by apply wf_interrupt |].
  cbn [mbind outcome_bind]. intros E.
  destruct (do_context_switch_keeps _ _ _ _ _ Hw1 E) as [A1 A2 A3 A4 A5 A6 A7 A8].
  rewrite Hc1, Hm1 in A7. setoid_rewrite Hthr in A7. rewrite Htc in *.
  split; [by rewrite A1, Hp1 | by rewrite A2, Hq1 | | | | | | by rewrite A8, Hm1]; try done.
  - intros x. by rewrite A3, Hthr.
  - rewrite Hd1, Hp1 in A6. exact A6.
Qed.

(** Yielding returns and keeps the invariant: the first ready thread runs, or
    the idle thread when none is ready, and a caller that is still running
    goes to the end of the queue (one marked as waiting or dead does not). *)
Theorem schedule_thread_yield_correct s ready W t
    (Hw : sched_wf s ready W) (Ht : tcb_of s (s_crt_thread_node s) = Some t) :
  exists s', schedule_thread_yield s = Ok s' /\
    sched_wf s' (requeue s t (tail ready)) W /\
    s_crt_thread_node s' = default (s_main_thread_node s) (head ready) /\
    s_interrupt s' = true /\
    (exists u, tcb_of s' (s_crt_thread_node s') = Some u /\ t_status u = TASK_RUNNING).
Proof. by apply schedule_thread_yield_spec. Qed.

(** ** Waking and blocking *)

(** A node of a thread that is in none of the places. *)
Record detached (s : sched) (ready : list Z) (W : gmap Z (list Z)) (x : Z) (p : Z) (t : tcb_t) : Prop := {
  dt_null : x <> 0;
  dt_thr : thr s x = Some p;
  dt_tcb : s_tcbs s !! p = Some t;
  dt_free : ~ known s ready W x;
  dt_own : forall y, known s ready W y -> thr s y <> Some p
}.

Lemma alter_other s p f x :
  thr s x <> Some p -> tcb_of (set_tcbs s (alter f p (s_tcbs s))) x = tcb_of s x.
Proof. intros H. rewrite tcb_of_alter. by rewrite decide_False. Qed.

(** Adding a detached, ready thread anywhere in the ready queue. *)
Lemma wf_insert s ready W x p t nds l ready' :
  sched_wf s ready W -> detached s ready W x p t ->
  is_list nds l ready' -> ready' ≡ₚ x :: ready -> relinked (s_nodes s) nds (x :: ready) ->
  let s' := set_ready (set_tcbs s (alter (with_status TASK_READY) p (s_tcbs s))) nds l in
  sched_wf s' ready' W /\ tcb_of s' x = Some (with_status TASK_READY t) /\
  (forall y, y <> x -> known s ready W y -> tcb_of s' y = tcb_of s y).
Proof.
  intros Hw [Hx0 Hxp Hpt Hfree Hown] Hl Hperm [Hr1 Hr2] s'.
  assert (forall y, y ∈ ready' -> y = x \/ y ∈ ready) as Hin.
  { intros y. rewrite Hperm. by intros [-> | ?]%elem_of_cons; auto. }
  assert (forall y, thr s' y = thr s y) as Hthr by (intros y; apply Hr1).
  assert (forall y, known s ready W y -> tcb_of s' y = tcb_of s y) as Hold.
  { intros y Hy. rewrite <- (alter_other s p (with_status TASK_READY) y) by by apply Hown.
    unfold tcb_of. by rewrite Hthr. }
  assert (tcb_of s' x = Some (with_status TASK_READY t)) as Hnew.
  { unfold tcb_of. rewrite Hthr, Hxp. cbn. by rewrite lookup_alter_eq, Hpt. }
  assert (forall y, known s' ready' W y -> known s ready W y \/ y = x) as Hk.
  { intros y [? | [? | [[? | ?]%Hin | ?]]]; unfold known; auto. }
  split; [| split; [done | auto]].
  assert (x <> s_crt_thread_node s /\ x <> s_main_thread_node s /\ (x ∉ ready) /\ ~ waiting W x)
    as (N1 & N2 & N3 & N4).
  { unfold known in Hfree. tauto. }
  destruct Hw. split; try done.
  - intros q xs Hq. destruct (sw_waits0 q xs Hq) as (l0 & H1 & H2). exists l0. split; [done |].
    eapply is_list_same; [| exact H2]. intros y Hy. apply Hr2.
    destruct (sw_not_ready0 y) as [Hm _]; [by exists q, xs |].
    intros [-> | Hi]%elem_of_cons; [apply N4; by exists q, xs | done].
  - intros y Hy. destruct (sw_not_ready0 y Hy) as [H1 H2]. split; [| done].
    intros [-> | Hi]%Hin; done.
  - intros y [Hy | ->]%Hk; [| by rewrite Hnew]. rewrite Hold by done. by apply sw_known0.
  - intros y z [Hy | ->]%Hk [Hz | ->]%Hk; rewrite !Hthr; [by apply sw_inj0 | | | done].
    + intros E. rewrite Hxp in E. by destruct (Hown y Hy).
    + intros E. rewrite Hxp in E. by destruct (Hown z Hz).
  - intros y u [-> | Hy]%Hin Hm Hu.
    + rewrite Hnew in Hu. by injection Hu as <-.
    + rewrite Hold in Hu by (by right; right; left). by apply (sw_is_ready0 y).
  - intros y u Hy Hu. rewrite Hold in Hu by (by right; right; right). by apply (sw_is_waiting0 y).
  - intros Hc. destruct (sw_crt0 Hc) as [Hn Hs]. split.
    + intros [Hi | Hi]%Hin; [by apply N1 | done].
    + intros u. change (s_crt_thread_node s') with (s_crt_thread_node s).
      rewrite Hold by by left. apply Hs.
  - intros u. change (s_crt_thread_node s') with (s_crt_thread_node s).
    rewrite Hold by by left. apply sw_page_dir0.
  - cbn. by rewrite (relinked_size _ _ _ (conj Hr1 Hr2)).
Qed.

(** What adding the thread of node [x] to the schedule leaves. *)
Definition scheduled (s s' : sched) (ready ready' : list Z) (W : gmap Z (list Z)) (x : Z)
    (t : tcb_t) : Prop :=
  sched_wf s' ready' W /\
  s_crt_thread_node s' = s_crt_thread_node s /\ s_main_thread_node s' = s_main_thread_node s /\
  s_interrupt s' = true /\ s_queues s' = s_queues s /\
  tcb_of s' x = Some (with_status TASK_READY t) /\
  (forall y, y <> x -> known s ready W y -> tcb_of s' y = tcb_of s y).

Lemma detached_node s ready W x p t :
  detached s ready W x p t -> node_thread (disable_interrupt s) x = Ok p /\ is_Some (s_nodes s !! x).
Proof.
  intros [_ Hxp _ _ _]. unfold node_thread, thr in *. cbn.
  destruct (s_nodes s !! x); [| done]. by injection Hxp as <-.
Qed.

(** [add_thread_node_to_schedule] of a detached thread that is not dead. *)
Lemma add_thread_node_to_schedule_spec s ready W x p t :
  sched_wf s ready W -> detached s ready W x p t -> t_status t <> TASK_DEAD ->
  exists s', add_thread_node_to_schedule s x = Ok s' /\ scheduled s s' ready (ready ++ [x]) W x t.
Proof.
  intros Hw Hd Hs. pose proof Hd as [Hx0 Hxp Hpt Hfree Hown].
  destruct (detached_node _ _ _ _ _ _ Hd) as [En Hnx].
  unfold add_thread_node_to_schedule. rewrite En.
  cbn [mbind outcome_bind]. cbn [s_tcbs disable_interrupt set_interrupt]. rewrite Hpt.
  cbn [deref mbind outcome_bind]. rewrite bool_decide_false by done.
  rewrite update_thread_ok by (cbn; by eexists). cbn [mbind outcome_bind].
  destruct (linked_list_append_spec (s_nodes s) (s_ready_tasks s) ready x) as (nds & l & E & Hl & Hr);
    try done.
  { by apply (sw_ready _ _ _ Hw). }
  { intros Hi. apply Hfree. by right; right; left. }
  { by eapply wf_short, Hw. }
  cbn. rewrite E. cbn. eexists. split; [reflexivity |].
  destruct (wf_insert s ready W x p t nds l _ Hw Hd Hl) as (Hw' & Hn & Ho);
    [by rewrite Permutation_app_comm | done |].
  split; [by apply (wf_interrupt _ _ _ true) in Hw' |]. done.
Qed.

(** Where [linked_list_insert_to_head] puts a node. *)
Definition insert_second (ready : list Z) (x : Z) : list Z :=
  match ready with [] => [x] | h :: rest => h :: x :: rest end.

Lemma insert_second_perm ready x : insert_second ready x ≡ₚ x :: ready.
Proof. destruct ready; [done |]. apply Permutation_swap. Qed.

Lemma add_thread_node_to_schedule_head_spec s ready W x p t :
  sched_wf s ready W -> detached s ready W x p t ->
  exists s', add_thread_node_to_schedule_head s x = Ok s' /\
    scheduled s s' ready (insert_second ready x) W x t.
Proof.
  intros Hw Hd. pose proof Hd as [Hx0 Hxp Hpt Hfree Hown].
  destruct (detached_node _ _ _ _ _ _ Hd) as [En Hnx].
  unfold add_thread_node_to_schedule_head. rewrite En. cbn [mbind outcome_bind].
  rewrite update_thread_ok by (cbn; by eexists). cbn [mbind outcome_bind].
  pose proof (sw_ready _ _ _ Hw) as Hl. unfold linked_list_insert_to_head.
  assert (x ∉ ready) as Hni by (intros Hi; apply Hfree; by right; right; left).
  assert (exists nds l, linked_list_insert (s_nodes s) (s_ready_tasks s) (ll_head (s_ready_tasks s)) x
      = Ok (nds, l) /\ is_list nds l (insert_second ready x) /\ relinked (s_nodes s) nds (x :: ready))
    as (nds & l & E & Hl' & Hr).
  { rewrite (il_head _ _ _ Hl). destruct ready as [|h rest].
    - exact (linked_list_insert_spec _ _ [] [] x Hl Hx0 Hni Hnx eq_refl).
    - apply (linked_list_insert_spec _ _ [h] rest x Hl Hx0 Hni Hnx). by eapply wf_short. }
  cbn. rewrite E. cbn. eexists. split; [reflexivity |].
  destruct (wf_insert s ready W x p t nds l _ Hw Hd Hl') as (Hw' & Hn & Ho);
    [apply insert_second_perm | done |].
  split; [by apply (wf_interrupt _ _ _ true) in Hw' |]. done.
Qed.

(** Taking a thread off a waiting queue. *)
Lemma wf_unqueue s ready W q l l1 x l2 :
  sched_wf s ready W -> W !! q = Some (l1 ++ x :: l2) -> s_queues s !! q = Some l ->
  x <> s_crt_thread_node s ->
  exists nds l' p t, linked_list_remove (s_nodes s) l x = Ok (nds, l') /\
    sched_wf (set_queue s nds q l') ready (<[q := l1 ++ l2]> W) /\
    detached (set_queue s nds q l') ready (<[q := l1 ++ l2]> W) x p t /\
    t_status t = TASK_WAITING /\
    (forall y, thr (set_queue s nds q l') y = thr s y).
Proof.
  intros Hw HW Hq Hxc. destruct (sw_waits _ _ _ Hw q _ HW) as (l0 & Hl0 & Hl).
  assert (l0 = l) as -> by congruence.
  destruct (linked_list_remove_spec _ _ _ _ _ Hl) as (nds & l' & E & Hl' & Hr & Hx).
  assert (waiting W x) as Hwx by (exists q, (l1 ++ x :: l2); set_solver).
  destruct (known_thread s ready W x Hw) as (p & t & Hp & Ht & _); [by right; right; right |].
  exists nds, l', p, t. split; [done |].
  set (s' := set_queue s nds q l'). set (W' := <[q := l1 ++ l2]> W).
  assert (forall y, thr s' y = thr s y) as Hthr by (intros y; apply Hr).
  assert (forall y, tcb_of s' y = tcb_of s y) as Htcb by (intros y; unfold tcb_of; by rewrite Hthr).
  pose proof (is_list_nodup _ _ _ Hl) as (Hn1 & Hn2 & [Hn3 Hn4]%NoDup_cons)%NoDup_app.
  assert (forall y, waiting W' y -> waiting W y /\ y <> x) as Hwait.
  { intros y (q' & xs & Hq' & Hy). unfold W' in Hq'.
    destruct (decide (q' = q)) as [-> | Hne].
    - rewrite lookup_insert_eq in Hq'. injection Hq' as <-. split.
      + exists q, (l1 ++ x :: l2). set_solver.
      + intros ->. apply elem_of_app in Hy as [Hy | Hy]; [apply (Hn2 x); set_solver | done].
    - rewrite lookup_insert_ne in Hq' by done. split; [by exists q', xs |]. intros ->.
      apply Hne, (sw_apart _ _ _ Hw q' q xs (l1 ++ x :: l2) x); [done | done | done | set_solver]. }
  assert (forall y, known s' ready W' y -> known s ready W y /\ y <> x) as Hk.
  { destruct (sw_not_ready _ _ _ Hw x Hwx) as [Hnr Hnm].
    intros y [Hy | [Hy | [Hy | Hy]]].
    - split; [by left | by subst y]. 
    - split; [by right; left |]. subst y. by intros <-.
    - split; [by right; right; left |]. by intros ->.
    - apply Hwait in Hy as [? ?]. split; [by right; right; right | done]. }
  split; [| split; [| split]].
  - destruct Hw. split; try done.
    + eapply is_list_same; [| exact sw_ready0]. intros y Hy. apply Hr. intros Hi.
      destruct (sw_not_ready0 y) as [Hm _]; [exists q, (l1 ++ x :: l2); set_solver | done].
    + intros q' xs Hq'. unfold W' in Hq'. destruct (decide (q' = q)) as [-> | Hne].
      * rewrite lookup_insert_eq in Hq'. injection Hq' as <-. exists l'.
        cbn. by rewrite lookup_insert_eq.
      * rewrite lookup_insert_ne in Hq' by done. destruct (sw_waits0 q' xs Hq') as (m & H1 & H2).
        exists m. cbn. rewrite lookup_insert_ne by done. split; [done |].
        eapply is_list_same; [| exact H2]. intros y Hy. apply Hr. intros Hi.
        apply Hne, (sw_apart0 q' q xs (l1 ++ x :: l2) y); [done | done | done | set_solver].
    + assert (forall q1 xs1, W' !! q1 = Some xs1 ->
        exists xs2, W !! q1 = Some xs2 /\ xs1 ⊆ xs2) as Hsub.
      { intros q1 xs1 H1. unfold W' in H1. destruct (decide (q1 = q)) as [-> | Hne].
        - rewrite lookup_insert_eq in H1. injection H1 as <-. exists (l1 ++ x :: l2). set_solver.
        - rewrite lookup_insert_ne in H1 by done. by exists xs1. }
      intros q1 q2 xs1 xs2 y (ys1 & H1 & S1)%Hsub (ys2 & H2 & S2)%Hsub Hy1 Hy2.
      apply (sw_apart0 q1 q2 ys1 ys2 y); auto.
    + intros y [Hy _]%Hwait. by apply sw_not_ready0.
    + intros y [Hy _]%Hk. rewrite Htcb. by apply sw_known0.
    + intros y z [Hy _]%Hk [Hz _]%Hk. rewrite !Hthr. by apply sw_inj0.
    + intros y u Hy Hm. rewrite Htcb. by apply sw_is_ready0.
    + intros y u [Hy _]%Hwait. rewrite Htcb. by apply sw_is_waiting0.
    + intros Hc. destruct (sw_crt0 Hc) as [Hn Hs]. split; [done |]. intros u. rewrite Htcb. apply Hs.
    + intros u. rewrite Htcb. apply sw_page_dir0.
    + cbn. by rewrite (relinked_size _ _ _ Hr).
  - split.
    + by destruct (sw_known _ _ _ Hw x) as [? _]; [by right; right; right |].
    + by rewrite Hthr.
    + done.
    + by intros [_ ?]%Hk.
    + intros y [Hy Hne]%Hk. rewrite Hthr, <- Hp. intros Hyp. apply Hne.
      apply (sw_inj _ _ _ Hw); [done | by right; right; right | done].
  - apply (sw_is_waiting _ _ _ Hw x); [done |]. unfold tcb_of. by rewrite Hp.
  - done.
Qed.

(** A change of the current thread's control block. *)
Lemma wf_current s ready W p f :
  sched_wf s ready W -> thr s (s_crt_thread_node s) = Some p ->
  s_crt_thread_node s <> s_main_thread_node s ->
  (forall t, tcb_of s (s_crt_thread_node s) = Some t ->
    t_status (f t) <> TASK_READY /\
    (waiting W (s_crt_thread_node s) -> t_status (f t) = TASK_WAITING) /\
    (t_process (f t) = t_process t \/ t_process (f t) = 0)) ->
  sched_wf (set_tcbs s (alter f p (s_tcbs s))) ready W /\
  forall t, tcb_of s (s_crt_thread_node s) = Some t ->
    tcb_of (set_tcbs s (alter f p (s_tcbs s))) (s_crt_thread_node s) = Some (f t).
Proof.
  intros Hw Hp Hcm Hf. set (s' := set_tcbs s _).
  assert (forall x, x <> s_crt_thread_node s -> known s ready W x -> tcb_of s' x = tcb_of s x) as Ho.
  { intros x Hx Hk. apply alter_other. rewrite <- Hp. intros E. apply Hx.
    apply (sw_inj _ _ _ Hw); [done | by left | done]. }
  assert (forall t, tcb_of s (s_crt_thread_node s) = Some t ->
    tcb_of s' (s_crt_thread_node s) = Some (f t)) as Hc.
  { intros t Ht. unfold s'. rewrite tcb_of_alter, decide_True, Ht by done. done. }
  assert (exists v, tcb_of s (s_crt_thread_node s) = Some v) as [v Hv].
  { destruct (sw_known _ _ _ Hw (s_crt_thread_node s)) as [_ [v Hv]]; [by left | by exists v]. }
  destruct (Hf v Hv) as (Hf1 & Hf2 & Hf3).
  split; [| done]. destruct Hw. destruct (sw_crt0 Hcm) as [Hni _]. split; try done.
  - intros x Hx. destruct (sw_known0 x Hx) as [H0 [u Hu]]. split; [done |].
    unfold s'. rewrite tcb_of_alter, Hu. case_decide; by eexists.
  - intros x u Hx Hm. rewrite Ho; [by apply sw_is_ready0 | by intros -> | by right; right; left].
  - intros x u Hx Hu. destruct (decide (x = s_crt_thread_node s)) as [-> | Hne].
    + rewrite (Hc v Hv) in Hu. injection Hu as <-. by apply Hf2.
    + rewrite Ho in Hu; [by apply (sw_is_waiting0 x) | done | by right; right; right].
  - intros _. split; [done |]. intros u. change (s_crt_thread_node s') with (s_crt_thread_node s).
    rewrite (Hc v Hv). by intros [= <-].
  - intros u. change (s_crt_thread_node s') with (s_crt_thread_node s).
    rewrite (Hc v Hv). intros [= <-] Hpr. change (s_page_dir s = t_process (f v)).
    destruct Hf3 as [E|E]; [|done]. rewrite E. apply (sw_page_dir0 v Hv). by rewrite <- E.
Qed.

(** The current thread marks itself as waiting. *)
Lemma wf_mark s ready W p :
  sched_wf s ready W -> thr s (s_crt_thread_node s) = Some p ->
  s_crt_thread_node s <> s_main_thread_node s ->
  sched_wf (set_tcbs s (alter (with_status TASK_WAITING) p (s_tcbs s))) ready W /\
  forall t, tcb_of s (s_crt_thread_node s) = Some t ->
    tcb_of (set_tcbs s (alter (with_status TASK_WAITING) p (s_tcbs s))) (s_crt_thread_node s)
    = Some (with_status TASK_WAITING t).
Proof. intros Hw Hp Hcm. apply wf_current; try done. intros t Ht. split; [done |]. split; [done |]. by left. Qed.

(** What queueing a thread leaves of the threads, and that it loads no directory. *)
Record queue_keeps (s s' : sched) : Prop := {
  qk_main_process : s_main_process s' = s_main_process s;
  qk_page_dir : s_page_dir s' = s_page_dir s;
  qk_thr : forall x, thr s' x = thr s x;
  qk_fields : forall p, t_process <$> s_tcbs s' !! p = t_process <$> s_tcbs s !! p;
  qk_ids : forall p, t_id <$> s_tcbs s' !! p = t_id <$> s_tcbs s !! p
}.

Lemma relink_ptr (st : nodes) x n p q y :
  st !! x = Some n -> n_ptr <$> <[x := Node (n_ptr n) p q]> st !! y = n_ptr <$> st !! y.
Proof.
  intros Hx. destruct (decide (x = y)) as [->|]; [by rewrite lookup_insert_eq, Hx | by rewrite lookup_insert_ne].
Qed.

Lemma linked_list_append_ptr st l x st' l' :
  linked_list_append st l x = Ok (st', l') -> forall y, n_ptr <$> st' !! y = n_ptr <$> st !! y.
Proof.
  unfold linked_list_append, set_next, set_prev.
  destruct (st !! x) as [n|] eqn:Hx; cbn; [|done]. rewrite lookup_insert_eq. cbn.
  case_match; cbn.
  - intros [= <- _] y. rewrite insert_insert_eq. by apply relink_ptr.
  - set (st1 := <[x := _]> st).
    assert (forall y, n_ptr <$> st1 !! y = n_ptr <$> st !! y) as H1 by (intros y; by apply relink_ptr).
    destruct (st1 !! ll_tail l) as [m|] eqn:Hm; cbn; [|done]. set (st2 := <[ll_tail l := _]> st1).
    assert (forall y, n_ptr <$> st2 !! y = n_ptr <$> st1 !! y) as H2 by (intros y; by apply relink_ptr).
    destruct (st2 !! x) as [k|] eqn:Hk; cbn; [|done]. intros [= <- _] y.
    rewrite <- H1, <- H2. by apply relink_ptr.
Qed.

Lemma add_thread_node_keeps s x s' : add_thread_node_to_schedule s x = Ok s' -> queue_keeps s s'.
Proof.
  unfold add_thread_node_to_schedule, node_thread, update_thread. cbn.
  destruct (s_nodes s !! x) as [n|] eqn:Hx; cbn; [|done].
  destruct (s_tcbs s !! n_ptr n) as [t|] eqn:Ht; cbn; [|done].
  assert (forall {B} (g : tcb_t -> B) p, (forall v t, g (with_status v t) = g t) ->
    g <$> <[n_ptr n := with_status TASK_READY t]> (s_tcbs s) !! p = g <$> s_tcbs s !! p) as Hg.
  { intros B g p Hg. destruct (decide (n_ptr n = p)) as [<-|].
    - rewrite lookup_insert_eq, Ht. cbn. by rewrite Hg.
    - by rewrite lookup_insert_ne. }
  case_bool_decide; cbn; destruct (linked_list_append _ _ _) as [[nds l]| | | |] eqn:E; cbn; try done;
    intros [= <-]; pose proof (linked_list_append_ptr _ _ _ _ _ E) as Hp; split; cbn; try done;
    intros p; by apply Hg.
Qed.

(** [linked_list_append(queue, crt_node); schedule_mark_thread_block();] *)
Definition enqueue_current (s : sched) (q : Z) : outcome sched :=
  l ← deref (s_queues s !! q);
  '(nds, l) ← linked_list_append (s_nodes s) l (get_crt_thread_node s);
  schedule_mark_thread_block (set_queue s nds q l).

Lemma enqueue_current_spec s ready W q xs t :
  sched_wf s ready W -> W !! q = Some xs -> ~ waiting W (s_crt_thread_node s) ->
  tcb_of s (s_crt_thread_node s) = Some t ->
  s_crt_thread_node s <> s_main_thread_node s ->
  exists s', enqueue_current s q = Ok s' /\
    sched_wf s' ready (<[q := xs ++ [s_crt_thread_node s]]> W) /\
    s_crt_thread_node s' = s_crt_thread_node s /\
    s_main_thread_node s' = s_main_thread_node s /\
    tcb_of s' (s_crt_thread_node s) = Some (with_status TASK_WAITING t).
Proof.
  intros Hw HW Hnw Htc Hcm. unfold enqueue_current, get_crt_thread_node.
  destruct (sw_waits _ _ _ Hw q xs HW) as (l & Hq & Hl). rewrite Hq. cbn [deref mbind outcome_bind].
  destruct (known_thread s ready W (s_crt_thread_node s) Hw) as (p & t' & Hp & Ht & _); [by left |].
  destruct (sw_crt _ _ _ Hw Hcm) as [Hni _].
  destruct (linked_list_append_spec (s_nodes s) l xs (s_crt_thread_node s)) as (nds & l' & E & Hl' & Hr);
    try done.
  { apply (sw_known _ _ _ Hw). by left. }
  { intros Hi. apply Hnw. by exists q, xs. }
  { unfold thr in Hp. by destruct (s_nodes s !! _). }
  { by eapply wf_short. }
  rewrite E. cbn [mbind outcome_bind]. unfold schedule_mark_thread_block.
  (* status first, then the queue *)
  destruct (wf_mark s ready W p Hw Hp Hcm) as [Hw1 Hc1].
  set (s1 := set_tcbs s (alter (with_status TASK_WAITING) p (s_tcbs s))) in *.
  set (s2 := set_queue s1 nds q l').
  assert (node_thread (set_queue s nds q l') (s_crt_thread_node (set_queue s nds q l')) = Ok p) as ->.
  { unfold node_thread. cbn. unfold thr in Hp. rewrite <- (proj1 Hr) in Hp.
    destruct (nds !! s_crt_thread_node s); [| done]. by injection Hp as <-. }
  cbn [mbind outcome_bind]. rewrite update_thread_ok by (cbn; by eexists).
  exists s2. split; [done |]. set (W' := <[q := xs ++ [s_crt_thread_node s]]> W).
  assert (forall x, thr s2 x = thr s1 x) as Hthr by (intros x; apply Hr).
  assert (forall x, tcb_of s2 x = tcb_of s1 x) as Htcb by (intros x; unfold tcb_of; by rewrite Hthr).
  assert (forall x, waiting W' x -> waiting W x \/ x = s_crt_thread_node s) as Hwait.
  { intros x (q' & ys & Hq' & Hx). unfold W' in Hq'. destruct (decide (q' = q)) as [-> | Hne].
    - rewrite lookup_insert_eq in Hq'. injection Hq' as <-.
      apply elem_of_app in Hx as [Hx | ->%list_elem_of_singleton]; [left; by exists q, xs | by right].
    - rewrite lookup_insert_ne in Hq' by done. left. by exists q', ys. }
  assert (forall x, known s2 ready W' x -> known s1 ready W x) as Hk.
  { intros x [? | [? | [? | [? | ->]%Hwait]]]; unfold known; auto. }
  split; [| split; [done | split; [done | by rewrite Htcb; apply Hc1]]].
  destruct Hw1. split; try done.
  - eapply is_list_same; [| exact sw_ready0]. intros x Hx. apply Hr.
    intros [-> | Hi]%elem_of_cons; [done |].
    destruct (sw_not_ready0 x) as [Hm _]; [by exists q, xs | done].
  - intros q' ys Hq'. unfold W' in Hq'. destruct (decide (q' = q)) as [-> | Hne].
    + rewrite lookup_insert_eq in Hq'. injection Hq' as <-. exists l'. cbn. by rewrite lookup_insert_eq.
    + rewrite lookup_insert_ne in Hq' by done. destruct (sw_waits0 q' ys Hq') as (m & H1 & H2).
      exists m. cbn. rewrite lookup_insert_ne by done. split; [done |].
      eapply is_list_same; [| exact H2]. intros x Hx. apply Hr. intros [-> | Hi]%elem_of_cons.
      * apply Hnw. by exists q', ys.
      * by apply Hne, (sw_apart0 q' q ys xs x).
  - intros q1 q2 xs1 xs2 x H1 H2 Hx1 Hx2. unfold W' in H1, H2.
    destruct (decide (q1 = q)) as [-> | N1], (decide (q2 = q)) as [-> | N2]; try done.
    + rewrite lookup_insert_eq in H1. rewrite lookup_insert_ne in H2 by done. injection H1 as <-.
      apply elem_of_app in Hx1 as [Hx1 | ->%list_elem_of_singleton]; [by eapply sw_apart0 |].
      destruct Hnw. by exists q2, xs2.
    + rewrite lookup_insert_eq in H2. rewrite lookup_insert_ne in H1 by done. injection H2 as <-.
      apply elem_of_app in Hx2 as [Hx2 | ->%list_elem_of_singleton]; [by eapply sw_apart0 |].
      destruct Hnw. by exists q1, xs1.
    + rewrite lookup_insert_ne in H1, H2 by done. by eapply sw_apart0.
  - intros x [Hx | ->]%Hwait; [by apply sw_not_ready0 | done].
  - intros x Hx%Hk. rewrite Htcb. by apply sw_known0.
  - intros x y Hx%Hk Hy%Hk. rewrite !Hthr. by apply sw_inj0.
  - intros x u Hx Hm. rewrite Htcb. by apply sw_is_ready0.
  - intros x u [Hx | ->]%Hwait Hu; rewrite Htcb in Hu; [by apply (sw_is_waiting0 x) |].
    rewrite (Hc1 t Htc) in Hu. by injection Hu as <-.
  - intros Hc. destruct (sw_crt0 Hc) as [Hn Hs]. split; [done |]. intros u. rewrite Htcb. apply Hs.
  - intros u. rewrite Htcb. apply sw_page_dir0.
  - cbn. by rewrite (relinked_size _ _ _ Hr).
Qed.

(** ** Time slices *)

Definition ticked (t : tcb_t) : tcb_t :=
  let ticks := u32 (t_ticks t + 1) in
  with_ticks ticks (if t_priority t <=? ticks then true else t_need_reschedule t) t.

Lemma timer_callback_spec s ready W t :
  sched_wf s ready W -> tcb_of s (s_crt_thread_node s) = Some t ->
  exists s', timer_callback s = Ok s' /\ sched_wf s' ready W /\
    s_crt_thread_node s' = s_crt_thread_node s /\ s_main_thread_node s' = s_main_thread_node s /\
    tcb_of s' (s_crt_thread_node s) = Some (ticked t) /\ s_tick s' = u32 (s_tick s + 1).
Proof.
  intros Hw Ht. unfold timer_callback. set (s0 := set_tick s _).
  assert (sched_wf s0 ready W) as Hw0 by by apply wf_tick.
  destruct (get_crt_thread_ok _ _ _ Hw0) as (p & t' & Hg & Hp & Ht').
  rewrite Hg. cbn [mbind outcome_bind]. rewrite update_thread_ok by by eexists.
  eexists. split; [reflexivity |]. split; [by apply wf_update |]. split; [done |]. split; [done |].
  split; [| done]. rewrite tcb_of_alter, decide_True by done.
  change (tcb_of s0) with (tcb_of s). by rewrite Ht.
Qed.

(** Whether a timer interrupt takes the processor from the current thread. *)
Definition expires (t : tcb_t) : bool :=
  negb (0 <? t_preempt_count t) && t_need_reschedule (ticked t).

Lemma timer_interrupt_spec s ready W t :
  sched_wf s ready W -> tcb_of s (s_crt_thread_node s) = Some t ->
  exists s', timer_interrupt s = Ok s' /\
    (if expires t && negb (bool_decide (ready = []))
     then sched_wf s' (requeue s t (tail ready)) W /\
       s_crt_thread_node s' = default 0 (head ready) /\
       (exists u, tcb_of s' (s_crt_thread_node s') = Some u /\ t_status u = TASK_RUNNING)
     else sched_wf s' ready W /\ s_crt_thread_node s' = s_crt_thread_node s /\
       tcb_of s' (s_crt_thread_node s) = Some (ticked t)).
Proof.
  intros Hw Ht. unfold timer_interrupt.
  destruct (timer_callback_spec (disable_interrupt s) ready W t) as (s1 & E1 & Hw1 & Hc1 & Hm1 & Ht1 & _);
    [by apply wf_interrupt | done |].
  rewrite E1. cbn [mbind outcome_bind].
  destruct (schedule_spec (enable_interrupt s1) ready W (ticked t)) as (s' & E & H).
  { by apply wf_interrupt. }
  { change (tcb_of s1 (s_crt_thread_node s1) = Some (ticked t)). by rewrite Hc1. }
  exists s'. split; [done |].
  change (t_preempt_count (ticked t)) with (t_preempt_count t) in H. unfold expires.
  assert (requeue (enable_interrupt s1) (ticked t) (tail ready) = requeue s t (tail ready)) as Hrq.
  { unfold requeue, requeued.
    change (s_crt_thread_node (enable_interrupt s1)) with (s_crt_thread_node s1).
    change (s_main_thread_node (enable_interrupt s1)) with (s_main_thread_node s1).
    by rewrite Hc1, Hm1. }
  destruct (0 <? t_preempt_count t); cbn [negb].
  - subst s'. cbn [andb]. split; [by do 2 apply wf_interrupt |]. split; [done |]. done.
  - destruct ready as [|h rest]; [subst s'; rewrite andb_false_r |].
    { split; [by do 2 apply wf_interrupt |]. split; [done |]. done. }
    rewrite bool_decide_false by done. cbn [andb negb].
    destruct (t_need_reschedule (ticked t)); cbn [andb tail head default] in *.
    + destruct H as (H1 & H2 & _ & H3). rewrite <- Hrq, H2. done.
    + subst s'. split; [by do 2 apply wf_interrupt |]. split; [done |]. done.
Qed.

(** ** Fairness *)

(** [yields n s]: each thread that gets the processor yields, [n] times. *)
Fixpoint yields (n : nat) (s : sched) : outcome sched :=
  match n with O => Ok s | S n => s ← schedule_thread_yield s; yields n s end.

(** C37: the ready queue is served in order: when the threads that get the
    processor yield it, the thread at position [i] of the ready queue runs after
    exactly [i + 1] yields, and no call fails on the way. *)
Theorem round_robin_fair i s ready W x
    (Hw : sched_wf s ready W) (Hx : ready !! i = Some x) :
  exists s' ready', yields (S i) s = Ok s' /\ s_crt_thread_node s' = x /\ sched_wf s' ready' W.
Proof.
  revert s ready Hw Hx. induction i as [|i IH]; intros s ready Hw Hx;
    destruct ready as [|h rest]; try done;
    destruct (sw_known _ _ _ Hw (s_crt_thread_node s)) as [_ [t Ht]]; [by left | | by left |];
    destruct (schedule_thread_yield_spec s (h :: rest) W t Hw Ht) as (s1 & E & Hw1 & Hc1 & _);
    cbn [yields]; rewrite E; cbn [mbind outcome_bind tail head default] in *.
  - injection Hx as <-. by exists s1, (requeue s t rest).
  - apply (IH s1 _ Hw1). unfold requeue. simpl in Hx.
    destruct (requeued s t); [by apply lookup_app_l_Some | done].
Qed.
