(* ===== verification/Sync.v ===== *)
(** * Blocking synchronisation (sync/mutex.c, sync/cond_var.c, sync/spinlock.c)

    A blocking call is a loop: it takes its guard lock, tests, and either returns
    or queues the current thread and yields.  Each iteration is a definition here
    (a round); a round that yields leaves another thread running, and the
    caller's next round runs when the scheduler picks it again.  The single steps of
    a round, with other threads and interrupts between any two of them, are in the
    file MutexSteps. *)

From S2P Require Import Prelude.
From S2P Require Import Allocator.
From S2P Require Import LinkedList.
From S2P Require Import YieldLock.
From S2P Require Import Scheduler.
From S2P Require Import SchedulerInv.

(** ** Spin locks

    [SINGLE_PROCESSOR] is defined: taking the lock is disabling preemption, and
    interrupts for the irq variants. *)

Record spinlock_t := Spinlock { sl_hold : Z; sl_interrupt_mask : Z }.

Definition spinlock_init : spinlock_t := Spinlock LOCKED_NO 0.

Definition spinlock_lock (s : sched) (splock : spinlock_t) : outcome (sched * spinlock_t) :=
  s ← disable_preempt s; Ok (s, splock).

(** The interrupt flag is bit 9 of [eflags]. *)
Definition spinlock_lock_irqsave (s : sched) (splock : spinlock_t) : outcome (sched * spinlock_t) :=
  s ← disable_preempt s;
  let mask := if s_interrupt s then Z.shiftl 1 9 else 0 in
  let s := disable_interrupt s in
  Ok (s, Spinlock (sl_hold splock) mask).

Definition spinlock_unlock (s : sched) (splock : spinlock_t) : outcome (sched * spinlock_t) :=
  s ← enable_preempt s; Ok (s, splock).

Definition spinlock_unlock_irqrestore (s : sched) (splock : spinlock_t) :
    outcome (sched * spinlock_t) :=
  s ← enable_preempt s;
  let s := if negb (sl_interrupt_mask splock =? 0) then enable_interrupt s else s in
  Ok (s, splock).

(** ** Mutexes *)

(** [waiting_task_queue] is the queue at address [m_queue] in the scheduler's state. *)
Record mutex_t := Mutex {
  m_hold : Z;
  m_thread_node : Z;
  m_queue : Z;
  m_ydlock : yieldlock_t
}.

Definition mutex_init (s : sched) (queue : Z) : sched * mutex_t :=
  (set_queue s (s_nodes s) queue linked_list_init, Mutex LOCKED_NO 0 queue yieldlock_init).

(** One round of [mutex_lock]: true when the lock was taken. *)
Definition mutex_lock_round (s : sched) (mp : mutex_t) : outcome (sched * mutex_t * bool) :=
  ydlock ← yieldlock_lock (m_ydlock mp);
  let '(hold, old) := atomic_exchange (m_hold mp) LOCKED_YES in
  if negb (old =? LOCKED_NO) then
    s ← enqueue_current s (m_queue mp);
    let ydlock := yieldlock_unlock ydlock in
    s ← schedule_thread_yield s;
    Ok (s, Mutex hold (m_thread_node mp) (m_queue mp) ydlock, false)
  else
    let ydlock := yieldlock_unlock ydlock in
    Ok (s, Mutex hold (m_thread_node mp) (m_queue mp) ydlock, true).

(** [if (queue->size != 0) { head = ...; linked_list_remove; add_thread_node_to_schedule }] *)
Definition wake_first (s : sched) (q : Z) : outcome sched :=
  l ← deref (s_queues s !! q);
  if negb (ll_size l =? 0) then
    let head := ll_head l in
    '(nds, l) ← linked_list_remove (s_nodes s) l head;
    add_thread_node_to_schedule (set_queue s nds q l) head
  else Ok s.

Definition mutex_unlock (s : sched) (mp : mutex_t) : outcome (sched * mutex_t) :=
  ydlock ← yieldlock_lock (m_ydlock mp);
  s ← wake_first s (m_queue mp);
  let ydlock := yieldlock_unlock ydlock in
  Ok (s, Mutex LOCKED_NO 0 (m_queue mp) ydlock).

(** ** Condition variables *)

Definition cond_var_init (s : sched) (cv : Z) : sched :=
  set_queue s (s_nodes s) cv linked_list_init.

(** One round of [cond_var_wait] with a predicate: true when it holds.  Both
    exits release the lock. *)
Definition cond_var_wait_round (s : sched) (cv : Z) (lock : yieldlock_t)
    (predicator : sched -> bool) : outcome (sched * yieldlock_t * bool) :=
  lock ← yieldlock_lock lock;
  if negb (predicator s) then
    s ← enqueue_current s cv;
    let lock := yieldlock_unlock lock in
    s ← schedule_thread_yield s;
    Ok (s, lock, false)
  else Ok (s, yieldlock_unlock lock, true).

Definition cond_var_notify (s : sched) (cv : Z) : outcome sched := wake_first s cv.

(** ** Waking and blocking *)

(** The thread that runs: not the idle thread, running, and in no queue. *)
Definition runs (s : sched) (t : tcb_t) : Prop :=
  tcb_of s (s_crt_thread_node s) = Some t /\ t_status t = TASK_RUNNING /\
  s_crt_thread_node s <> s_main_thread_node s.

Lemma runs_not_waiting s ready W t :
  sched_wf s ready W -> runs s t -> ~ waiting W (s_crt_thread_node s).
Proof.
  intros Hw (Ht & Hs & _) Hx. pose proof (sw_is_waiting _ _ _ Hw _ _ Hx Ht). congruence.
Qed.

(** Blocking the current thread on a queue. *)
Lemma block_spec s ready W q xs t :
  sched_wf s ready W -> runs s t -> W !! q = Some xs ->
  exists s1 s', enqueue_current s q = Ok s1 /\ schedule_thread_yield s1 = Ok s' /\
    sched_wf s' (tail ready) (<[q := xs ++ [s_crt_thread_node s]]> W) /\
    s_crt_thread_node s' = default (s_main_thread_node s) (head ready) /\
    (exists u, tcb_of s' (s_crt_thread_node s') = Some u /\ t_status u = TASK_RUNNING).
Proof.
  intros Hw Hr HW. pose proof Hr as (Ht & Hs & Hm).
  destruct (enqueue_current_spec s ready W q xs t) as (s1 & E1 & Hw1 & Hc1 & Hm1 & Ht1);
    [done | done | by eapply runs_not_waiting | done | done |].
  destruct (schedule_thread_yield_spec s1 ready _ (with_status TASK_WAITING t) Hw1)
    as (s' & E2 & Hw2 & Hc2 & _ & Hu); [by rewrite Hc1 |].
  exists s1, s'. split; [done |]. split; [done |]. rewrite <- Hm1. done.
Qed.

(** Waking the first thread of a queue. *)
Lemma wake_first_any s ready W q xs t :
  sched_wf s ready W -> tcb_of s (s_crt_thread_node s) = Some t -> t_status t <> TASK_WAITING ->
  W !! q = Some xs ->
  exists s', wake_first s q = Ok s' /\
    sched_wf s' (ready ++ match xs with [] => [] | x :: _ => [x] end) (<[q := tail xs]> W) /\
    s_crt_thread_node s' = s_crt_thread_node s /\ s_main_thread_node s' = s_main_thread_node s /\
    tcb_of s' (s_crt_thread_node s) = Some t /\ queue_keeps s s'.
Proof.
  intros Hw Ht Hst HW. destruct (sw_waits _ _ _ Hw q xs HW) as (l & Hq & Hl).
  unfold wake_first. rewrite Hq. cbn [deref mbind outcome_bind].
  rewrite (is_list_size _ _ _ Hl). case_bool_decide as Hx; cbn [negb].
  - subst xs. exists s. rewrite app_nil_r, insert_id by done. done.
  - destruct xs as [|x xs]; [done |]. rewrite (is_list_head _ _ _ _ Hl).
    assert (x <> s_crt_thread_node s) as Hne.
    { intros ->. apply Hst. eapply sw_is_waiting; [done | | done]. exists q, (s_crt_thread_node s :: xs).
      split; [done | by left]. }
    destruct (wf_unqueue s ready W q l [] x xs Hw HW Hq Hne)
      as (nds & l' & p & u & E & Hw1 & Hd & Hs & Hthr).
    rewrite E. cbn [mbind outcome_bind app] in *.
    destruct (add_thread_node_to_schedule_spec _ _ _ x p u Hw1 Hd) as
      (s' & E' & Hw' & Hc & Hm & _ & _ & _ & Ho); [by rewrite Hs |].
    change (s_crt_thread_node (set_queue s nds q l')) with (s_crt_thread_node s) in *.
    exists s'. split; [done |]. split; [done |]. split; [done |]. split; [done |]. split.
    + rewrite Ho; [| done | by left]. unfold tcb_of. by rewrite Hthr.
    + destruct (add_thread_node_keeps _ _ _ E') as [? ? Hk ? ?]. split; try done.
      intros y. by rewrite Hk, Hthr.
Qed.

Lemma wake_first_spec s ready W q xs t :
  sched_wf s ready W -> runs s t -> W !! q = Some xs ->
  exists s', wake_first s q = Ok s' /\
    sched_wf s' (ready ++ match xs with [] => [] | x :: _ => [x] end) (<[q := tail xs]> W) /\
    s_crt_thread_node s' = s_crt_thread_node s /\ runs s' t.
Proof.
  intros Hw (Ht & Hst & Hm) HW.
  destruct (wake_first_any s ready W q xs t Hw Ht) as (s' & E & Hw' & Hc & Hm' & Ht' & _); [by rewrite Hst | done |].
  exists s'. split; [done |]. split; [done |]. split; [done |]. unfold runs. by rewrite Hc, Hm'.
Qed.

(** A round of mutex_lock with the guard free returns and keeps the
    scheduler's invariant.  It takes a free mutex without touching the scheduler;
    on a held one the caller becomes the last waiter and the first ready thread
    (or the idle thread) runs. *)
Theorem mutex_lock_round_correct s ready W mp xs t
    (Hw : sched_wf s ready W) (Hr : runs s t) (HW : W !! m_queue mp = Some xs)
    (Hg : unlocked (m_ydlock mp)) :
  exists s' mp', mutex_lock_round s mp = Ok (s', mp', m_hold mp =? LOCKED_NO) /\
    m_hold mp' = LOCKED_YES /\ m_queue mp' = m_queue mp /\ unlocked (m_ydlock mp') /\
    (if m_hold mp =? LOCKED_NO then s' = s
     else sched_wf s' (tail ready) (<[m_queue mp := xs ++ [s_crt_thread_node s]]> W) /\
          s_crt_thread_node s' = default (s_main_thread_node s) (head ready)).
Proof.
  unfold mutex_lock_round. rewrite lock_unlocked by done. cbn [mbind outcome_bind atomic_exchange].
  destruct (m_hold mp =? LOCKED_NO) eqn:E; cbn [negb].
  - by eexists _, _.
  - destruct (block_spec s ready W _ xs t Hw Hr HW) as (s1 & s' & E1 & E2 & Hw' & Hc & _).
    rewrite E1. cbn [mbind outcome_bind]. rewrite E2. cbn [mbind outcome_bind]. by eexists _, _.
Qed.

Lemma mutex_unlock_spec s ready W mp xs t
    (Hw : sched_wf s ready W) (Hr : runs s t) (HW : W !! m_queue mp = Some xs)
    (Hg : unlocked (m_ydlock mp)) :
  exists s' mp', mutex_unlock s mp = Ok (s', mp') /\
    m_hold mp' = LOCKED_NO /\ m_queue mp' = m_queue mp /\ unlocked (m_ydlock mp') /\
    sched_wf s' (ready ++ match xs with [] => [] | x :: _ => [x] end) (<[m_queue mp := tail xs]> W) /\
    s_crt_thread_node s' = s_crt_thread_node s /\ runs s' t.
Proof.
  unfold mutex_unlock. rewrite lock_unlocked by done. cbn [mbind outcome_bind].
  destruct (wake_first_spec s ready W _ xs t Hw Hr HW) as (s' & E & Hw' & Hc & Hr').
  rewrite E. cbn [mbind outcome_bind]. by eexists _, _.
Qed.

(** Mutex_unlock with the guard free returns, frees the mutex and moves
    exactly its first waiter to the end of the ready queue; the caller keeps
    running. *)
Theorem mutex_unlock_correct s ready W mp xs t
    (Hw : sched_wf s ready W) (Hr : runs s t) (HW : W !! m_queue mp = Some xs)
    (Hg : unlocked (m_ydlock mp)) :
  exists s' mp', mutex_unlock s mp = Ok (s', mp') /\
    m_hold mp' = LOCKED_NO /\ m_queue mp' = m_queue mp /\ unlocked (m_ydlock mp') /\
    sched_wf s' (ready ++ match xs with [] => [] | x :: _ => [x] end) (<[m_queue mp := tail xs]> W) /\
    s_crt_thread_node s' = s_crt_thread_node s /\ runs s' t.
Proof. by apply mutex_unlock_spec. Qed.

(** A round of cond_var_wait with its lock free returns with the lock
    free: when the predicate holds the scheduler is untouched, otherwise the caller
    becomes the last waiter and another thread runs. *)
Theorem cond_var_wait_round_correct s ready W cv xs t lock predicator
    (Hw : sched_wf s ready W) (Hr : runs s t) (HW : W !! cv = Some xs) (Hg : unlocked lock) :
  exists s' lock', cond_var_wait_round s cv lock predicator = Ok (s', lock', predicator s) /\
    unlocked lock' /\
    (if predicator s then s' = s
     else sched_wf s' (tail ready) (<[cv := xs ++ [s_crt_thread_node s]]> W) /\
          s_crt_thread_node s' = default (s_main_thread_node s) (head ready)).
Proof.
  unfold cond_var_wait_round. rewrite lock_unlocked by done. cbn [mbind outcome_bind].
  destruct (predicator s); cbn [negb].
  - by eexists _, _.
  - destruct (block_spec s ready W _ xs t Hw Hr HW) as (s1 & s' & E1 & E2 & Hw' & Hc & _).
    rewrite E1. cbn [mbind outcome_bind]. rewrite E2. cbn [mbind outcome_bind]. by eexists _, _.
Qed.

(** ** Preemption inside a lock round *)

(** The state of a lock round of a held mutex in which a timer interrupt comes
    between [schedule_mark_thread_block] and the release of the guard. *)
Definition preempted_round (s : sched) (mp : mutex_t) : outcome (sched * mutex_t) :=
  ydlock ← yieldlock_lock (m_ydlock mp);
  s ← enqueue_current s (m_queue mp);
  s ← timer_interrupt s;
  Ok (s, Mutex LOCKED_YES (m_thread_node mp) (m_queue mp) ydlock).

(** The guard of a mutex does not disable preemption.  If the time slice of
    a blocking thread ends after it marked itself as waiting and before it releases
    the guard, it is switched out without being ready, and from then on every
    lock round and every unlock of the mutex, in whatever scheduler state, waits
    for the guard, which only the lost thread could release. *)
Theorem mutex_lock_preempted s ready W mp xs t
    (Hw : sched_wf s ready W) (Hr : runs s t) (HW : W !! m_queue mp = Some xs)
    (Hg : unlocked (m_ydlock mp)) (Hready : ready <> []) (Hx : expires t = true) :
  exists s' mp', preempted_round s mp = Ok (s', mp') /\
    sched_wf s' (tail ready) (<[m_queue mp := xs ++ [s_crt_thread_node s]]> W) /\
    (s_crt_thread_node s ∉ tail ready) /\ s_crt_thread_node s' = default 0 (head ready) /\
    (forall s'', mutex_unlock s'' mp' = Blocked /\ mutex_lock_round s'' mp' = Blocked).
Proof.
  unfold preempted_round. rewrite lock_unlocked by done. cbn [mbind outcome_bind].
  pose proof Hr as (Ht & Hs & Hm).
  destruct (enqueue_current_spec s ready W (m_queue mp) xs t) as (s1 & E1 & Hw1 & Hc1 & Hm1 & Ht1);
    [done | done | by eapply runs_not_waiting | done | done |].
  rewrite E1. cbn [mbind outcome_bind]. rewrite <- Hc1 in Ht1.
  destruct (timer_interrupt_spec s1 ready _ _ Hw1 Ht1) as (s2 & E2 & H).
  rewrite E2. cbn [mbind outcome_bind].
  change (expires (with_status TASK_WAITING t)) with (expires t) in H.
  rewrite Hx, bool_decide_false in H by done. destruct H as (Hw2 & Hc2 & _).
  eexists _, _. split; [reflexivity |]. split; [exact Hw2 |]. split; [| split; [done |]].
  - destruct (sw_crt _ _ _ Hw Hm) as [Hn _]. intros Hi. apply Hn. destruct ready; [done |].
    simpl in Hi. by right.
  - intros s''. split; reflexivity.
Qed.

(** ** Spin locks *)

(** A critical section under a spin lock is not preempted: after taking the
    lock no timer interrupt switches threads, and releasing it restores the
    preemption count; the irq variant also restores the interrupt flag. *)
Theorem spinlock_no_preemption s ready W t lk
    (Hw : sched_wf s ready W) (Ht : tcb_of s (s_crt_thread_node s) = Some t)
    (Hc : 0 <= t_preempt_count t < 4294967295) :
  exists s1, spinlock_lock s lk = Ok (s1, lk) /\ sched_wf s1 ready W /\
    (exists s2, timer_interrupt s1 = Ok s2 /\ s_crt_thread_node s2 = s_crt_thread_node s) /\
    (exists s3, spinlock_unlock s1 lk = Ok (s3, lk) /\ tcb_of s3 (s_crt_thread_node s) = Some t) /\
    (exists s4 lk4 s5, spinlock_lock_irqsave s lk = Ok (s4, lk4) /\ s_interrupt s4 = false /\
       spinlock_unlock_irqrestore s4 lk4 = Ok (s5, lk4) /\ s_interrupt s5 = s_interrupt s /\
       tcb_of s5 (s_crt_thread_node s) = Some t).
Proof.
  destruct (get_crt_thread_ok _ _ _ Hw) as (p & t' & Hg & Hp & Ht').
  assert (t' = t) as -> by (unfold tcb_of in Ht; rewrite Hp in Ht; simpl in Ht; congruence).
  set (f := fun t => with_preempt_count (u32 (t_preempt_count t + 1)) t).
  set (g := fun t => with_preempt_count (u32 (t_preempt_count t - 1)) t).
  assert (g (f t) = t) as Hgf.
  { unfold g, f. destruct t as [a b c d e h i j k n]. cbn in *. unfold with_preempt_count. cbn.
    f_equal. rewrite (u32_small (n + 1)), u32_small; lia. }
  set (s1 := set_tcbs s (alter f p (s_tcbs s))).
  assert (disable_preempt s = Ok s1) as E1.
  { unfold disable_preempt. rewrite Hg. cbn [mbind outcome_bind].
    rewrite update_thread_ok; [reflexivity | by eexists]. }
  assert (sched_wf s1 ready W) as Hw1 by (by apply wf_update).
  assert (tcb_of s1 (s_crt_thread_node s) = Some (f t)) as Ht1.
  { unfold s1. rewrite tcb_of_alter, decide_True by done. by rewrite Ht. }
  assert (forall v, exists s3, enable_preempt (set_interrupt s1 v) = Ok s3 /\ s_interrupt s3 = v /\
    tcb_of s3 (s_crt_thread_node s) = Some t) as Hun.
  { intros v. unfold enable_preempt.
    assert (get_crt_thread (set_interrupt s1 v) = Ok p) as -> by exact Hg.
    cbn [mbind outcome_bind].
    rewrite update_thread_ok by (cbn; apply is_Some_alter; by eexists).
    eexists. split; [reflexivity |]. split; [done |]. rewrite tcb_of_alter, decide_True by done.
    change (tcb_of (set_interrupt s1 v)) with (tcb_of s1). rewrite Ht1.
    change (Some (g (f t)) = Some t). by rewrite Hgf. }
  exists s1. unfold spinlock_lock, spinlock_unlock, spinlock_lock_irqsave, spinlock_unlock_irqrestore.
  rewrite E1. cbn [mbind outcome_bind]. split; [done |]. split; [done |]. split; [| split].
  - destruct (timer_interrupt_spec s1 ready W (f t) Hw1 Ht1) as (s2 & E2 & H).
    exists s2. split; [done |].
    assert (expires (f t) = false) as Hex.
    { unfold expires, f. cbn. rewrite (proj2 (Z.ltb_lt _ _)); [done |]. rewrite u32_small; lia. }
    rewrite Hex in H. apply H.
  - destruct (Hun (s_interrupt s1)) as (s3 & E3 & _ & Ht3).
    replace (set_interrupt s1 (s_interrupt s1)) with s1 in E3 by (by destruct s).
    rewrite E3. by exists s3.
  - destruct (Hun false) as (s3 & E3 & Hi3 & Ht3).
    eexists _, _, _. split; [reflexivity |]. split; [done |].
    unfold disable_interrupt. rewrite E3. cbn [mbind outcome_bind sl_interrupt_mask].
    split; [reflexivity |]. change (s_interrupt s1) with (s_interrupt s).
    destruct (s_interrupt s) eqn:Ei; cbn [negb Z.eqb]; done.
Qed.

(** ** A concrete state

    The idle thread (node 0x100), the current thread (0x110) at the end of its
    time slice, a ready thread (0x120) and one that waits for the mutex whose
    queue is at 0x500 (0x130). *)
Definition demo_tcb (id : Z) (st : task_status) (ticks process : Z) : tcb_t :=
  Tcb (0xE0000000 + id * 8192) (0xD0000000 + id * 8192) id 10 st ticks process (-1) false 0.

Definition demo_sched : sched :=
  Sched {[0x1000 := demo_tcb 0 TASK_RUNNING 0 7; 0x1100 := demo_tcb 1 TASK_RUNNING 9 8;
          0x1200 := demo_tcb 2 TASK_READY 0 8; 0x1300 := demo_tcb 3 TASK_WAITING 0 9]}
    {[0x100 := Node 0x1000 0 0; 0x110 := Node 0x1100 0 0; 0x120 := Node 0x1200 0 0;
      0x130 := Node 0x1300 0 0]}
    (LList 0x120 0x120 1) 0x110 0x100 7 false {[0x500 := LList 0x130 0x130 1]}
    true 0 8 0xE0003000 0.
Definition demo_waits : gmap Z (list Z) := {[0x500 := [0x130]]}.
Definition demo_mutex (hold : Z) : mutex_t := Mutex hold 0 0x500 yieldlock_init.

Lemma demo_waits_lookup q xs : demo_waits !! q = Some xs -> q = 0x500 /\ xs = [0x130].
Proof. unfold demo_waits. intros [-> ->]%lookup_singleton_Some. done. Qed.

Lemma demo_waiting x : waiting demo_waits x -> x = 0x130.
Proof.
  intros (q & xs & [_ ->]%demo_waits_lookup & Hx). by apply list_elem_of_singleton in Hx.
Qed.

Lemma demo_known x :
  known demo_sched [0x120] demo_waits x -> x = 0x110 \/ x = 0x100 \/ x = 0x120 \/ x = 0x130.
Proof.
  intros [Hx | [Hx | [Hx | Hx]]]; [by left | by right; left | |].
  - apply list_elem_of_singleton in Hx. auto.
  - apply demo_waiting in Hx. auto.
Qed.

Lemma single_list st l x v :
  st !! x = Some (Node v 0 0) -> x <> 0 -> l = LList x x 1 -> is_list st l [x].
Proof.
  intros Hx H0 ->. split; try done.
  - split; [by exists v | done].
  - apply NoDup_cons. split; [by intros E%list_elem_of_singleton | apply NoDup_singleton].
Qed.

Lemma demo_wf : sched_wf demo_sched [0x120] demo_waits.
Proof.
  split.
  - by eapply single_list.
  - intros q xs [-> ->]%demo_waits_lookup. eexists. split; [reflexivity |].
    by eapply single_list.
  - by intros q q' xs xs' x [-> _]%demo_waits_lookup [-> _]%demo_waits_lookup.
  - intros x ->%demo_waiting. split; [| done]. by intros ?%list_elem_of_singleton.
  - intros x [-> | [-> | [-> | ->]]]%demo_known; (split; [done |]); vm_compute; by eexists.
  - intros x y [-> | [-> | [-> | ->]]]%demo_known [-> | [-> | [-> | ->]]]%demo_known;
      vm_compute; congruence.
  - intros x t ->%list_elem_of_singleton _. vm_compute. by intros [= <-].
  - intros x t ->%demo_waiting. vm_compute. by intros [= <-].
  - intros _. split; [by intros ?%list_elem_of_singleton |]. intros t. vm_compute. by intros [= <-].
  - intros t. vm_compute. by intros [= <-].
  - vm_compute. reflexivity.
Qed.

Definition demo_current : tcb_t := demo_tcb 1 TASK_RUNNING 9 8.

Lemma demo_runs : runs demo_sched demo_current.
Proof. split; [vm_compute; reflexivity | done]. Qed.

Lemma schedule_correct_witness :
  exists s', schedule demo_sched = Ok s' /\ s' = set_interrupt demo_sched true.
Proof.
  destruct (schedule_correct demo_sched [0x120] demo_waits demo_current demo_wf) as (s' & E & H).
  - apply demo_runs.
  - exists s'. split; [exact E | exact H].
Defined.

Lemma schedule_thread_yield_correct_witness :
  exists s', schedule_thread_yield demo_sched = Ok s' /\ s_crt_thread_node s' = 0x120 /\
    sched_wf s' [0x110] demo_waits.
Proof.
  destruct (schedule_thread_yield_correct demo_sched [0x120] demo_waits demo_current demo_wf)
    as (s' & E & H & Hc & _); [apply demo_runs |].
  exists s'. split; [exact E |]. split; [exact Hc | exact H].
Defined.

Lemma round_robin_fair_witness :
  exists s' ready', yields 1 demo_sched = Ok s' /\ s_crt_thread_node s' = 0x120 /\
    sched_wf s' ready' demo_waits.
Proof. exact (round_robin_fair 0 demo_sched [0x120] demo_waits 0x120 demo_wf eq_refl). Defined.

Lemma mutex_lock_round_correct_witness :
  exists s' mp', mutex_lock_round demo_sched (demo_mutex LOCKED_YES) = Ok (s', mp', false) /\
    s_crt_thread_node s' = 0x120.
Proof.
  destruct (mutex_lock_round_correct demo_sched [0x120] demo_waits (demo_mutex LOCKED_YES) [0x130]
    demo_current demo_wf demo_runs) as (s' & mp' & E & _ & _ & _ & _ & Hc); [done | done |].
  exists s', mp'. split; [exact E | exact Hc].
Defined.

Lemma mutex_unlock_correct_witness :
  exists s' mp', mutex_unlock demo_sched (demo_mutex LOCKED_YES) = Ok (s', mp') /\
    sched_wf s' [0x120; 0x130] (<[0x500 := []]> demo_waits).
Proof.
  destruct (mutex_unlock_correct demo_sched [0x120] demo_waits (demo_mutex LOCKED_YES) [0x130]
    demo_current demo_wf demo_runs) as (s' & mp' & E & _ & _ & _ & H & _); [done | done |].
  exists s', mp'. split; [exact E | exact H].
Defined.

Lemma cond_var_wait_round_correct_witness :
  exists s' lock', cond_var_wait_round demo_sched 0x500 yieldlock_init (fun _ => false)
      = Ok (s', lock', false) /\ s_crt_thread_node s' = 0x120.
Proof.
  destruct (cond_var_wait_round_correct demo_sched [0x120] demo_waits 0x500 [0x130] demo_current
    yieldlock_init (fun _ => false) demo_wf demo_runs) as (s' & l' & E & _ & _ & Hc); [done | done |].
  exists s', l'. split; [exact E | exact Hc].
Defined.

Lemma mutex_lock_preempted_witness :
  exists s' mp', preempted_round demo_sched (demo_mutex LOCKED_YES) = Ok (s', mp') /\
    s_crt_thread_node s' = 0x120 /\ (0x110 ∉ tail [0x120]).
Proof.
  destruct (mutex_lock_preempted demo_sched [0x120] demo_waits (demo_mutex LOCKED_YES) [0x130]
    demo_current demo_wf demo_runs) as (s' & mp' & E & _ & Hn & Hc & _); [done | done | done | done |].
  exists s', mp'. split; [exact E |]. split; [exact Hc | exact Hn].
Defined.

Lemma spinlock_no_preemption_witness :
  exists s1 s2, spinlock_lock demo_sched spinlock_init = Ok (s1, spinlock_init) /\
    timer_interrupt s1 = Ok s2 /\ s_crt_thread_node s2 = 0x110.
Proof.
  destruct (spinlock_no_preemption demo_sched [0x120] demo_waits demo_current spinlock_init demo_wf)
    as (s1 & E1 & _ & (s2 & E2 & Hc) & _); [apply demo_runs | vm_compute; split; congruence |].
  exists s1, s2. split; [exact E1 |]. split; [exact E2 | exact Hc].
Defined.
