(* ===== verification/MutexSteps.v ===== *)
(** * Mutexes step by step (sync/mutex.c, sync/yieldlock.c)

    [mutex_lock] and [mutex_unlock] one access of the shared state at a time, with
    the yields of the yield lock's loop, so that a timer interrupt, another thread
    or any other part of the kernel may come between any two steps.  Each thread,
    named by its node, has a program counter of its own. *)

From S2P Require Import Prelude.
From S2P Require Import LinkedList.
From S2P Require Import YieldLock.
From S2P Require Import Scheduler.
From S2P Require Import SchedulerInv.
From S2P Require Import Sync.

(** ** Program counters

    The next thing the thread does.  [Outside] and [Holding] are the program
    between its calls, without and with the mutex. *)
Inductive mutex_pc :=
  | Outside
  | L_Guard        (* yieldlock_lock: the exchange on the guard *)
  | L_Spin         (* yieldlock_lock: schedule_thread_yield *)
  | L_Exchange     (* atomic_exchange(&mp->hold, LOCKED_YES) *)
  | L_Append       (* linked_list_append(&mp->waiting_task_queue, thread_node) *)
  | L_Mark         (* schedule_mark_thread_block() *)
  | L_Release      (* yieldlock_unlock in the loop *)
  | L_Yield        (* schedule_thread_yield() *)
  | L_Done         (* yieldlock_unlock behind the loop *)
  | Holding
  | U_Guard
  | U_Spin
  | U_Clear        (* mp->hold = LOCKED_NO *)
  | U_Node         (* mp->thread_node = nullptr *)
  | U_Test         (* if (mp->waiting_task_queue.size != 0) head = ... *)
  | U_Remove (head : Z)
  | U_Add (head : Z)
  | U_Release.

Record mutex_state := MutexState {
  x_sched : sched;
  x_mutex : mutex_t;
  x_pcs : gmap Z mutex_pc
}.

Definition pc_of (st : mutex_state) (x : Z) : mutex_pc := default Outside (x_pcs st !! x).

Definition set_hold (mp : mutex_t) (v : Z) : mutex_t :=
  Mutex v (m_thread_node mp) (m_queue mp) (m_ydlock mp).
Definition set_thread_node (mp : mutex_t) (v : Z) : mutex_t :=
  Mutex (m_hold mp) v (m_queue mp) (m_ydlock mp).
Definition set_ydlock (mp : mutex_t) (v : yieldlock_t) : mutex_t :=
  Mutex (m_hold mp) (m_thread_node mp) (m_queue mp) v.

(** ** One step

    The step of the current thread at [pc]: the scheduler, the mutex and where the
    thread goes on.  One round of [yieldlock_lock] is the exchange, then the
    section behind the lock or the yield. *)
Definition guard_round (mp : mutex_t) (enter spin : mutex_pc) : mutex_t * mutex_pc :=
  let '(g, got) := yieldlock_trylock (m_ydlock mp) in
  (set_ydlock mp g, if got then enter else spin).

Definition mutex_step (s : sched) (mp : mutex_t) (pc : mutex_pc) :
    outcome (sched * mutex_t * mutex_pc) :=
  match pc with
  | Outside | Holding => Ok (s, mp, pc)
  | L_Guard => let '(mp, pc) := guard_round mp L_Exchange L_Spin in Ok (s, mp, pc)
  | L_Spin => s ← schedule_thread_yield s; Ok (s, mp, L_Guard)
  | L_Exchange =>
      let '(hold, old) := atomic_exchange (m_hold mp) LOCKED_YES in
      Ok (s, set_hold mp hold, if negb (old =? LOCKED_NO) then L_Append else L_Done)
  | L_Append =>
      l ← deref (s_queues s !! m_queue mp);
      '(nds, l) ← linked_list_append (s_nodes s) l (get_crt_thread_node s);
      Ok (set_queue s nds (m_queue mp) l, mp, L_Mark)
  | L_Mark => s ← schedule_mark_thread_block s; Ok (s, mp, L_Release)
  | L_Release => Ok (s, set_ydlock mp (yieldlock_unlock (m_ydlock mp)), L_Yield)
  | L_Yield => s ← schedule_thread_yield s; Ok (s, mp, L_Guard)
  | L_Done => Ok (s, set_ydlock mp (yieldlock_unlock (m_ydlock mp)), Holding)
  | U_Guard => let '(mp, pc) := guard_round mp U_Clear U_Spin in Ok (s, mp, pc)
  | U_Spin => s ← schedule_thread_yield s; Ok (s, mp, U_Guard)
  | U_Clear => Ok (s, set_hold mp LOCKED_NO, U_Node)
  | U_Node => Ok (s, set_thread_node mp 0, U_Test)
  | U_Test =>
      l ← deref (s_queues s !! m_queue mp);
      Ok (s, mp, if negb (ll_size l =? 0) then U_Remove (ll_head l) else U_Release)
  | U_Remove head =>
      l ← deref (s_queues s !! m_queue mp);
      '(nds, l) ← linked_list_remove (s_nodes s) l head;
      Ok (set_queue s nds (m_queue mp) l, mp, U_Add head)
  | U_Add head => s ← add_thread_node_to_schedule s head; Ok (s, mp, U_Release)
  | U_Release => Ok (s, set_ydlock mp (yieldlock_unlock (m_ydlock mp)), Outside)
  end.

(** ** Interleavings

    What may happen next: the current thread takes a step of its call, calls one of
    the functions (unlock only with the mutex), yields between its calls, is
    interrupted by the timer, or anything else changes the scheduler's state: other
    code of this or another thread, switches of threads included. *)
Inductive action :=
  | A_step
  | A_lock
  | A_unlock
  | A_yield
  | A_timer
  | A_other (s : sched).

Definition goto (st : mutex_state) (s : sched) (mp : mutex_t) (x : Z) (pc : mutex_pc) : mutex_state :=
  MutexState s mp (<[x := pc]> (x_pcs st)).

Definition act (a : action) (st : mutex_state) : outcome mutex_state :=
  let s := x_sched st in
  let x := get_crt_thread_node s in
  match a with
  | A_step => '(s, mp, pc) ← mutex_step s (x_mutex st) (pc_of st x); Ok (goto st s mp x pc)
  | A_lock => match pc_of st x with Outside => Ok (goto st s (x_mutex st) x L_Guard) | _ => Ok st end
  | A_unlock => match pc_of st x with Holding => Ok (goto st s (x_mutex st) x U_Guard) | _ => Ok st end
  | A_yield =>
      match pc_of st x with
      | Outside | Holding => s ← schedule_thread_yield s; Ok (MutexState s (x_mutex st) (x_pcs st))
      | _ => Ok st
      end
  | A_timer => s ← timer_interrupt s; Ok (MutexState s (x_mutex st) (x_pcs st))
  | A_other s => Ok (MutexState s (x_mutex st) (x_pcs st))
  end.

Fixpoint acts (l : list action) (st : mutex_state) : outcome mutex_state :=
  match l with [] => Ok st | a :: l => st ← act a st; acts l st end.

(** ** Mutual exclusion

    The places at which a thread has the mutex, and those between taking the guard
    and releasing it. *)
Definition has_mutex (pc : mutex_pc) : bool :=
  match pc with L_Done | Holding | U_Guard | U_Spin | U_Clear => true | _ => false end.
Definition has_guard (pc : mutex_pc) : bool :=
  match pc with
  | L_Exchange | L_Append | L_Mark | L_Release | L_Done | U_Clear | U_Node | U_Test | U_Remove _ | U_Add _
  | U_Release => true
  | _ => false
  end.

(** A flag is set exactly while one thread is at a place of [P]. *)
Definition one_at (P : mutex_pc -> bool) (pcs : gmap Z mutex_pc) (flag : Z) : Prop :=
  (flag = LOCKED_NO /\ forall x, P (default Outside (pcs !! x)) = false) \/
  (flag = LOCKED_YES /\ exists x, forall y, P (default Outside (pcs !! y)) = bool_decide (y = x)).

Lemma one_at_stay P pcs flag x pc :
  one_at P pcs flag -> P pc = P (default Outside (pcs !! x)) -> one_at P (<[x := pc]> pcs) flag.
Proof.
  intros H Hp. assert (forall y, P (default Outside (<[x := pc]> pcs !! y)) = P (default Outside (pcs !! y))) as E.
  { intros y. destruct (decide (x = y)) as [<- |]; [by rewrite lookup_insert_eq |].
    by rewrite lookup_insert_ne. }
  destruct H as [[-> H] | [-> [z H]]]; [left | right]; split; try done.
  - intros y. by rewrite E.
  - exists z. intros y. by rewrite E.
Qed.

Lemma one_at_enter P pcs x pc :
  one_at P pcs LOCKED_NO -> P pc = true -> one_at P (<[x := pc]> pcs) LOCKED_YES.
Proof.
  intros [[_ H] | [? _]] Hp; [| done]. right. split; [done |]. exists x. intros y.
  destruct (decide (y = x)) as [-> |].
  - by rewrite lookup_insert_eq, bool_decide_true.
  - by rewrite lookup_insert_ne, H, bool_decide_false.
Qed.

Lemma one_at_leave P pcs flag x pc :
  one_at P pcs flag -> P (default Outside (pcs !! x)) = true -> P pc = false ->
  one_at P (<[x := pc]> pcs) LOCKED_NO.
Proof.
  intros [[_ H] | [_ [z H]]] Hx Hp; [by rewrite H in Hx |]. left. split; [done |]. intros y.
  rewrite H in Hx. apply bool_decide_eq_true in Hx as ->.
  destruct (decide (y = z)) as [-> |]; [by rewrite lookup_insert_eq |].
  by rewrite lookup_insert_ne, H, bool_decide_false.
Qed.

Lemma one_at_flag P pcs flag : one_at P pcs flag -> flag = LOCKED_NO \/ flag = LOCKED_YES.
Proof. intros [[? _] | [? _]]; auto. Qed.

Record excl (mp : mutex_t) (pcs : gmap Z mutex_pc) : Prop := {
  ex_mutex : one_at has_mutex pcs (m_hold mp);
  ex_guard : one_at has_guard pcs (hold (m_ydlock mp))
}.

Lemma one_at_flag_iff P pcs flag : one_at P pcs flag -> flag = LOCKED_YES <-> exists x, P (default Outside (pcs !! x)) = true.
Proof.
  intros [[-> H] | [-> [z H]]].
  - split; [done |]. intros [x Hx]. by rewrite H in Hx.
  - split; [intros _ | done]. exists z. by rewrite H, bool_decide_true.
Qed.

Lemma one_at_unique P pcs flag x y :
  one_at P pcs flag -> P (default Outside (pcs !! x)) = true -> P (default Outside (pcs !! y)) = true -> x = y.
Proof.
  intros [[_ H] | [_ [z H]]] Hx Hy; rewrite H in Hx, Hy; [done |].
  apply bool_decide_eq_true in Hx, Hy. congruence.
Qed.

(** A step that leaves both flags, and stays on the same side of each. *)
Lemma excl_stay mp mp' pcs x pc :
  excl mp pcs -> m_hold mp' = m_hold mp -> m_ydlock mp' = m_ydlock mp ->
  has_mutex pc = has_mutex (default Outside (pcs !! x)) ->
  has_guard pc = has_guard (default Outside (pcs !! x)) -> excl mp' (<[x := pc]> pcs).
Proof. intros [Hm Hg] E1 E2 P1 P2. split; rewrite ?E1, ?E2; by apply one_at_stay. Qed.

(** The exchange on the guard, from outside the guarded sections. *)
Lemma excl_guard mp pcs x enter spin mp' pc' :
  excl mp pcs -> guard_round mp enter spin = (mp', pc') ->
  has_guard (default Outside (pcs !! x)) = false -> has_guard enter = true -> has_guard spin = false ->
  has_mutex enter = has_mutex (default Outside (pcs !! x)) ->
  has_mutex spin = has_mutex (default Outside (pcs !! x)) -> excl mp' (<[x := pc']> pcs).
Proof.
  intros [Hm Hg] E H1 H2 H3 H4 H5. unfold guard_round, yieldlock_trylock, atomic_exchange in E.
  pose proof (one_at_flag _ _ _ Hg) as Hf. injection E as <- <-.
  split; cbn [set_ydlock m_hold m_ydlock hold].
  - destruct (hold (m_ydlock mp) =? LOCKED_NO); by apply one_at_stay.
  - destruct Hf as [Hf | Hf]; rewrite Hf in *; cbn [Z.eqb LOCKED_NO LOCKED_YES].
    + by apply one_at_enter.
    + by apply one_at_stay; [| by rewrite H1].
Qed.

(** The release of the guard. *)
Lemma excl_release mp pcs x pc :
  excl mp pcs -> has_guard (default Outside (pcs !! x)) = true -> has_guard pc = false ->
  has_mutex pc = has_mutex (default Outside (pcs !! x)) ->
  excl (set_ydlock mp (yieldlock_unlock (m_ydlock mp))) (<[x := pc]> pcs).
Proof. intros [Hm Hg] H1 H2 H3. split; [by apply one_at_stay | by eapply one_at_leave]. Qed.

Lemma mutex_step_excl s mp pcs x s' mp' pc' :
  excl mp pcs -> mutex_step s mp (default Outside (pcs !! x)) = Ok (s', mp', pc') ->
  excl mp' (<[x := pc']> pcs).
Proof.
  intros Hx E. destruct (default Outside (pcs !! x)) eqn:Hp; cbn [mutex_step] in E.
  all: try (by apply bind_Ok in E as (? & ? & E); simplify_eq; eapply excl_stay; rewrite ?Hp).
  all: try (by simplify_eq; eapply excl_stay; rewrite ?Hp).
  all: try (by simplify_eq; eapply excl_release; rewrite ?Hp).
  all: try (by apply bind_Ok in E as (? & ? & E); apply bind_Ok in E as ([] & ? & E);
            simplify_eq; eapply excl_stay; rewrite ?Hp).
  - destruct (guard_round _ _ _) as [mp1 pc1] eqn:Eg. simplify_eq. eapply excl_guard; rewrite ?Hp; done.
  - destruct Hx as [Hm Hg]. injection E as <- <- <-. pose proof (one_at_flag _ _ _ Hm) as Hf. split.
    + cbn [set_hold m_hold]. destruct Hf as [Hf | Hf]; rewrite Hf in *; cbn [negb Z.eqb LOCKED_NO LOCKED_YES].
      * by apply one_at_enter.
      * by apply one_at_stay; rewrite ?Hp.
    + apply one_at_stay; [done |]. rewrite Hp. by destruct (m_hold mp =? LOCKED_NO).
  - destruct (guard_round _ _ _) as [mp1 pc1] eqn:Eg. simplify_eq. eapply excl_guard; rewrite ?Hp; done.
  - destruct Hx as [Hm Hg]. simplify_eq. split.
    + by eapply one_at_leave; rewrite ?Hp.
    + by apply one_at_stay; rewrite ?Hp.
  - apply bind_Ok in E as (l & _ & E). simplify_eq.
    eapply excl_stay; rewrite ?Hp; try done; by destruct (ll_size l =? 0).
Qed.

Lemma act_excl a st st' :
  act a st = Ok st' -> excl (x_mutex st) (x_pcs st) -> excl (x_mutex st') (x_pcs st').
Proof.
  intros E Hx. destruct a; cbn [act] in E.
  - apply bind_Ok in E as ([[s1 mp1] pc1] & E1 & E). simplify_eq.
    by eapply mutex_step_excl.
  - destruct (pc_of st _) eqn:Hp; simplify_eq; try done. by eapply excl_stay; unfold pc_of in Hp; rewrite ?Hp.
  - destruct (pc_of st _) eqn:Hp; simplify_eq; try done. by eapply excl_stay; unfold pc_of in Hp; rewrite ?Hp.
  - destruct (pc_of st _); try (by simplify_eq); apply bind_Ok in E as (s1 & _ & E); by simplify_eq.
  - apply bind_Ok in E as (s1 & _ & E). by simplify_eq.
  - by simplify_eq.
Qed.

Lemma acts_excl l st st' :
  acts l st = Ok st' -> excl (x_mutex st) (x_pcs st) -> excl (x_mutex st') (x_pcs st').
Proof.
  revert st. induction l as [|a l IH]; intros st E Hx; cbn [acts] in E; [by simplify_eq |].
  apply bind_Ok in E as (st1 & E1 & E). by eapply IH, act_excl.
Qed.

(** C38: from a free mutex with no thread inside a call, after any sequence of single
    steps of [mutex_lock] and [mutex_unlock] by the threads that happen to run,
    interleaved with yields, timer interrupts and any other change of the scheduler's state:
    at most one thread has the mutex, and [hold] is set exactly while one has it; at
    most one thread is in a section behind the guard, where the waiting queue is
    used, and the guard is held exactly while one is. *)
Theorem mutex_exclusive s mp l st
    (Hfree : m_hold mp = LOCKED_NO) (Hg : unlocked (m_ydlock mp))
    (Hrun : acts l (MutexState s mp ∅) = Ok st) :
  (forall x y, has_mutex (pc_of st x) = true -> has_mutex (pc_of st y) = true -> x = y) /\
  (m_hold (x_mutex st) = LOCKED_YES <-> exists x, has_mutex (pc_of st x) = true) /\
  (forall x y, has_guard (pc_of st x) = true -> has_guard (pc_of st y) = true -> x = y) /\
  (hold (m_ydlock (x_mutex st)) = LOCKED_YES <-> exists x, has_guard (pc_of st x) = true).
Proof.
  assert (excl mp ∅) as H0 by (split; left; (split; [done |]); intros x; by rewrite lookup_empty).
  destruct (acts_excl l _ _ Hrun H0) as [Hm Hx]. unfold pc_of. split_and!.
  - intros x y. by eapply one_at_unique.
  - by apply one_at_flag_iff.
  - intros x y. by eapply one_at_unique.
  - by apply one_at_flag_iff.
Qed.

(** ** Whole calls

    A call whose steps nothing interrupts is the round of [Sync]. *)
Lemma act_step s mp pcs pc :
  act A_step (MutexState s mp (<[s_crt_thread_node s := pc]> pcs)) =
    '(s', mp', pc') ← mutex_step s mp pc; Ok (MutexState s' mp' (<[s_crt_thread_node s := pc']> pcs)).
Proof.
  unfold act, pc_of, goto, get_crt_thread_node. cbn [x_sched x_mutex x_pcs]. rewrite lookup_insert_eq.
  change (default Outside (Some pc)) with pc. destruct (mutex_step s mp pc) as [[[s' mp'] pc'] | | | |]; try done.
  cbn [mbind outcome_bind]. by rewrite insert_insert_eq.
Qed.

Lemma mark_keeps s s' : schedule_mark_thread_block s = Ok s' -> s_crt_thread_node s' = s_crt_thread_node s.
Proof.
  unfold schedule_mark_thread_block, update_thread. intros E. by out_inv.
Qed.

Lemma add_keeps s s' x : add_thread_node_to_schedule s x = Ok s' -> s_crt_thread_node s' = s_crt_thread_node s.
Proof.
  unfold add_thread_node_to_schedule, update_thread. intros E. cbn in E.
  apply bind_Ok in E as (th & _ & E). apply bind_Ok in E as (t & _ & E).
  apply bind_Ok in E as (s1 & E1 & E). apply bind_Ok in E as ([nds l] & _ & E). injection E as <-.
  change (s_crt_thread_node s1 = s_crt_thread_node s). destruct (bool_decide _); [by injection E1 as <- |].
  apply bind_Ok in E1 as (u & _ & E1). by injection E1 as <-.
Qed.

Lemma acts_app l1 l2 st : acts (l1 ++ l2) st = st' ← acts l1 st; acts l2 st'.
Proof.
  revert st. induction l1 as [|a l1 IH]; intros st; [done |]. cbn [app acts].
  destruct (act a st) as [st' | | | |]; [| done ..]. cbn [mbind outcome_bind]. apply IH.
Qed.

(** The rest of a run from one state on. *)
Definition steps (n : nat) : list action := repeat A_step n.

Lemma steps_S n s mp pcs pc s' mp' pc' :
  mutex_step s mp pc = Ok (s', mp', pc') ->
  acts (steps (S n)) (MutexState s mp (<[s_crt_thread_node s := pc]> pcs)) =
  acts (steps n) (MutexState s' mp' (<[s_crt_thread_node s := pc']> pcs)).
Proof. intros E. cbn [steps repeat acts]. by rewrite act_step, E. Qed.

(** A round of [mutex_lock]: three steps when it takes the mutex, six when it
    queues the thread. *)
Theorem lock_round_steps s mp pcs s' mp' got :
  mutex_lock_round s mp = Ok (s', mp', got) ->
  acts (steps (if got then 3 else 6))
    (MutexState s mp (<[s_crt_thread_node s := L_Guard]> pcs)) =
  Ok (MutexState s' mp' (<[s_crt_thread_node s := if got then Holding else L_Guard]> pcs)).
Proof.
  unfold mutex_lock_round. intros E. apply bind_Ok in E as (g & Eg & E). apply lock_Ok in Eg as [Hg ->].
  destruct mp as [h tn q [gh]]. unfold unlocked in Hg. cbn [m_hold m_queue m_ydlock m_thread_node hold] in *. subst gh.
  cbn [atomic_exchange] in E. destruct (negb (h =? LOCKED_NO)) eqn:Eh.
  - apply bind_Ok in E as (s2 & E2 & E). apply bind_Ok in E as (s3 & E3 & E). injection E as <- <- <-.
    unfold enqueue_current in E2. apply bind_Ok in E2 as (l & El & E2). apply bind_Ok in E2 as ([nds l'] & Ea & E2).
    rewrite (steps_S _ _ _ _ L_Guard s (Mutex h tn q locked) L_Exchange) by done.
    rewrite (steps_S _ _ _ _ L_Exchange s (Mutex LOCKED_YES tn q locked) L_Append)
      by (cbn [mutex_step atomic_exchange m_hold]; by rewrite Eh).
    rewrite (steps_S _ _ _ _ L_Append (set_queue s nds q l') (Mutex LOCKED_YES tn q locked) L_Mark)
      by (cbn [mutex_step m_queue]; rewrite El; cbn [mbind outcome_bind]; by rewrite Ea).
    change (s_crt_thread_node s) with (s_crt_thread_node (set_queue s nds q l')).
    rewrite (steps_S _ _ _ _ L_Mark s2 (Mutex LOCKED_YES tn q locked) L_Release)
      by (cbn [mutex_step]; by rewrite E2).
    rewrite <- (mark_keeps _ _ E2).
    rewrite (steps_S _ _ _ _ L_Release s2 (Mutex LOCKED_YES tn q yieldlock_init) L_Yield) by done.
    by rewrite (steps_S _ _ _ _ L_Yield s3 (Mutex LOCKED_YES tn q yieldlock_init) L_Guard)
      by (cbn [mutex_step]; by rewrite E3).
  - injection E as <- <- <-.
    rewrite (steps_S _ _ _ _ L_Guard s (Mutex h tn q locked) L_Exchange) by done.
    rewrite (steps_S _ _ _ _ L_Exchange s (Mutex LOCKED_YES tn q locked) L_Done)
      by (cbn [mutex_step atomic_exchange m_hold]; by rewrite Eh).
    by rewrite (steps_S _ _ _ _ L_Done s (Mutex LOCKED_YES tn q yieldlock_init) Holding).
Qed.

(** A call of [mutex_unlock]: two steps more when there is a thread to wake. *)
Theorem unlock_steps s mp pcs s' mp' :
  mutex_unlock s mp = Ok (s', mp') ->
  exists n, acts (steps n) (MutexState s mp (<[s_crt_thread_node s := U_Guard]> pcs)) =
    Ok (MutexState s' mp' (<[s_crt_thread_node s := Outside]> pcs)).
Proof.
  unfold mutex_unlock. intros E. apply bind_Ok in E as (g & Eg & E). apply lock_Ok in Eg as [Hg ->].
  destruct mp as [h tn q [gh]]. unfold unlocked in Hg. cbn [m_hold m_queue m_ydlock m_thread_node hold] in *. subst gh.
  apply bind_Ok in E as (s2 & E2 & E). injection E as <- <-.
  unfold wake_first in E2. apply bind_Ok in E2 as (l & El & E2).
  assert (forall n, acts (steps (S (S (S (S n))))) (MutexState s (Mutex h tn q {| hold := LOCKED_NO |})
      (<[s_crt_thread_node s := U_Guard]> pcs)) =
    acts (steps n) (MutexState s (Mutex LOCKED_NO 0 q locked)
      (<[s_crt_thread_node s := if negb (ll_size l =? 0) then U_Remove (ll_head l) else U_Release]> pcs))) as Hpre.
  { intros n. rewrite (steps_S _ _ _ _ U_Guard s (Mutex h tn q locked) U_Clear) by done.
    rewrite (steps_S _ _ _ _ U_Clear s (Mutex LOCKED_NO tn q locked) U_Node) by done.
    rewrite (steps_S _ _ _ _ U_Node s (Mutex LOCKED_NO 0 q locked) U_Test) by done.
    apply steps_S. cbn [mutex_step m_queue]. by rewrite El. }
  destruct (negb (ll_size l =? 0)).
  - apply bind_Ok in E2 as ([nds l'] & Er & E2). exists 7%nat. rewrite Hpre.
    rewrite (steps_S _ _ _ _ (U_Remove (ll_head l)) (set_queue s nds q l') (Mutex LOCKED_NO 0 q locked)
      (U_Add (ll_head l))) by (cbn [mutex_step m_queue]; rewrite El; cbn [mbind outcome_bind]; by rewrite Er).
    change (s_crt_thread_node s) with (s_crt_thread_node (set_queue s nds q l')).
    rewrite (steps_S _ _ _ _ (U_Add _) s2 (Mutex LOCKED_NO 0 q locked) U_Release)
      by (cbn [mutex_step]; by rewrite E2).
    rewrite <- (add_keeps _ _ _ E2).
    by rewrite (steps_S _ _ _ _ U_Release s2 (Mutex LOCKED_NO 0 q yieldlock_init) Outside).
  - injection E2 as <-. exists 5%nat. rewrite Hpre.
    by rewrite (steps_S _ _ _ _ U_Release s (Mutex LOCKED_NO 0 q yieldlock_init) Outside).
Qed.

(** The preempted round of [Sync] in single steps: after the thread marked itself the
    timer comes, and the guard stays with it. *)
Theorem preempted_round_steps s mp pcs s' mp' :
  m_hold mp <> LOCKED_NO -> preempted_round s mp = Ok (s', mp') ->
  acts (steps 4 ++ [A_timer]) (MutexState s mp (<[s_crt_thread_node s := L_Guard]> pcs)) =
  Ok (MutexState s' mp' (<[s_crt_thread_node s := L_Release]> pcs)).
Proof.
  unfold preempted_round. intros Hh E. apply bind_Ok in E as (g & Eg & E). apply lock_Ok in Eg as [Hg ->].
  destruct mp as [h tn q [gh]]. unfold unlocked in Hg. cbn [m_hold m_queue m_ydlock m_thread_node hold] in *. subst gh.
  apply bind_Ok in E as (s2 & E2 & E). apply bind_Ok in E as (s3 & E3 & E). injection E as <- <-.
  unfold enqueue_current in E2. apply bind_Ok in E2 as (l & El & E2). apply bind_Ok in E2 as ([nds l'] & Ea & E2).
  rewrite acts_app.
  rewrite (steps_S _ _ _ _ L_Guard s (Mutex h tn q locked) L_Exchange) by done.
  rewrite (steps_S _ _ _ _ L_Exchange s (Mutex LOCKED_YES tn q locked) L_Append)
    by (cbn [mutex_step atomic_exchange m_hold]; by rewrite (proj2 (Z.eqb_neq _ _) Hh)).
  rewrite (steps_S _ _ _ _ L_Append (set_queue s nds q l') (Mutex LOCKED_YES tn q locked) L_Mark)
    by (cbn [mutex_step m_queue]; rewrite El; cbn [mbind outcome_bind]; by rewrite Ea).
  change (s_crt_thread_node s) with (s_crt_thread_node (set_queue s nds q l')).
  rewrite (steps_S _ _ _ _ L_Mark s2 (Mutex LOCKED_YES tn q locked) L_Release)
    by (cbn [mutex_step]; by rewrite E2).
  cbn [steps repeat acts mbind outcome_bind act x_sched]. by rewrite E3.
Qed.

(** ** Concrete runs

    The thread 0x110 takes the mutex and is preempted before it releases the guard;
    0x120 runs into the guard, yields, and when the guard is free queues itself. *)
Definition demo_mutex_start (hold : Z) : mutex_state := MutexState demo_sched (demo_mutex hold) ∅.
Definition demo_mutex_actions : list action :=
  [A_lock; A_step; A_step; A_timer; A_lock; A_step; A_step; A_step; A_yield] ++ steps 6.
Definition demo_mutex_state : mutex_state :=
  match acts demo_mutex_actions (demo_mutex_start LOCKED_NO) with Ok st => st | _ => demo_mutex_start LOCKED_NO end.

Lemma demo_mutex_run : acts demo_mutex_actions (demo_mutex_start LOCKED_NO) = Ok demo_mutex_state.
Proof. vm_compute. reflexivity. Qed.

Lemma mutex_exclusive_witness :
  pc_of demo_mutex_state 0x110 = Holding /\ pc_of demo_mutex_state 0x120 = L_Guard /\
  s_queues (x_sched demo_mutex_state) !! 0x500 = Some (LList 0x130 0x120 2) /\
  (forall y, has_mutex (pc_of demo_mutex_state y) = true -> y = 0x110).
Proof.
  split; [vm_compute; reflexivity |]. split; [vm_compute; reflexivity |].
  split; [vm_compute; reflexivity |]. intros y Hy.
  refine (proj1 (mutex_exclusive demo_sched (demo_mutex LOCKED_NO) demo_mutex_actions demo_mutex_state eq_refl eq_refl demo_mutex_run)
    y 0x110 Hy _). vm_compute. reflexivity.
Defined.

(** When the thread goes on to unlock, the first waiter becomes ready. *)
Example demo_mutex_unlock :
  match acts (A_unlock :: steps 7) demo_mutex_state with
  | Ok st => (pc_of st 0x110, m_hold (x_mutex st), s_ready_tasks (x_sched st)) =
             (Outside, LOCKED_NO, LList 0x130 0x130 1)
  | _ => False
  end.
Proof. vm_compute. reflexivity. Qed.

(** A thread preempted between the two calls that queue it and mark it as waiting is
    put into the ready queue while it is in the waiting queue: its one node is the
    last of both. *)
Example mutex_append_preempted :
  match acts ([A_lock] ++ steps 3 ++ [A_timer]) (demo_mutex_start LOCKED_YES) with
  | Ok st => (pc_of st 0x110, ll_tail (s_ready_tasks (x_sched st)),
              ll_tail <$> s_queues (x_sched st) !! 0x500) = (L_Mark, 0x110, Some 0x110)
  | _ => False
  end.
Proof. vm_compute. reflexivity. Qed.
