(* ===== verification/Paging.v ===== *)
(** * Paging (mem/paging.c): data and operations

    Physical memory is a byte map; the processor's address translation walks
    the page directory at [cr3] in it, so the code's accesses through the
    recursive mapping (entry 769 of the directory) and through the pages it
    maps go where the hardware sends them.  A read or write of an address
    with no present entry is a [Fault] (a page fault inside the kernel).  The
    kernel runs with CR0.WP clear, so its own writes ignore the rw bits, and
    the translation caches are taken to follow the tables. *)

From S2P Require Import Prelude.
From S2P Require Import Memory.
From S2P Require Import YieldLock.
From S2P Require Import KHeap.
From S2P Require Import Allocator.
From S2P Require Import Bitmap.
From S2P Require Import MathRand.
From S2P Require Import HashTable.

Definition PAGE_DIR_VIRTUAL : Z := 0xC0701000.
Definition PAGE_TABLES_VIRTUAL : Z := 0xC0400000.
Definition COPIED_PAGE_VADDR : Z := 0xFFFFF000.
Definition KERNEL_PAGE_DIR_PHY : Z := 0x00101000.
Definition PHYSICAL_MEM_SIZE : Z := 32 * 1024 * 1024.
Definition KERNEL_BIN_LOAD_SIZE : Z := 1024 * 1024.

(** ** Page table entries *)

Record pte_t := PTE {
  present : Z; rw : Z; user : Z; accessed : Z; dirty : Z; unused : Z; frame : Z
}.

(** The bit fields of a 32-bit word, the first in its low bits. *)
Definition pte_decode (w : Z) : pte_t :=
  PTE (w mod 2) (w / 2 mod 2) (w / 4 mod 2) (w / 8 mod 2) (w / 16 mod 2)
    (w / 32 mod 128) (w / 4096 mod 1048576).

Definition pte_encode (p : pte_t) : Z :=
  present p + 2 * rw p + 4 * user p + 8 * accessed p + 16 * dirty p + 32 * unused p
    + 4096 * frame p.

(** [p->present = 1; p->rw = 1; p->user = 1; p->frame = frame;] *)
Definition pte_map (p : pte_t) (f : Z) : pte_t :=
  PTE 1 1 1 (accessed p) (dirty p) (unused p) (f mod 1048576).
Definition pte_set_rw (p : pte_t) (b : Z) : pte_t :=
  PTE (present p) b (user p) (accessed p) (dirty p) (unused p) (frame p).
Definition pte_set_frame (p : pte_t) (f : Z) : pte_t :=
  PTE (present p) (rw p) (user p) (accessed p) (dirty p) (unused p) (f mod 1048576).

(** [if (p->present)] *)
Definition is_present (p : pte_t) : bool := negb (present p =? 0).

(** ** Address translation *)

Definition read_pte (m : mem) (a : Z) : pte_t := pte_decode (load32 m a).

(** The physical address of the directory entry and of the table entry for
    [va]; the latter needs the page table. *)
Definition pde_addr (dir va : Z) : Z := dir + 4 * (va / 4194304).
Definition pte_addr (m : mem) (dir va : Z) : option Z :=
  let pde := read_pte m (pde_addr dir va) in
  if is_present pde then Some (frame pde * 4096 + 4 * (va / 4096 mod 1024)) else None.

Definition translate (m : mem) (dir va : Z) : option Z :=
  a ← pte_addr m dir va;
  let pte := read_pte m a in
  if is_present pte then Some (frame pte * 4096 + va mod 4096) else None.

(** Accesses at a virtual address; the words the kernel accesses are aligned,
    so that none crosses a page. *)
Definition vload32 (m : mem) (dir va : Z) : outcome Z :=
  a ← deref (translate m dir va); Ok (load32 m a).
Definition vstore32 (m : mem) (dir va v : Z) : outcome mem :=
  a ← deref (translate m dir va); Ok (store32 m a v).
Definition vload8 (m : mem) (dir va : Z) : outcome Z :=
  a ← deref (translate m dir va); Ok (load8 m a).
Definition vstore8 (m : mem) (dir va v : Z) : outcome mem :=
  a ← deref (translate m dir va); Ok (store8 m a v).

(** [memcpy] between virtual addresses. *)
Definition vmemcpy (m : mem) (dir dst src num : Z) : outcome mem :=
  for_up (Z.to_nat num) 0 (fun i m =>
    c ← vload8 m dir (src + i); vstore8 m dir (dst + i) c) m.

(** ** The state *)

Inductive isr_t := page_fault_isr.

Section paging.
Context {A : Type} `{AlignedAllocator A}.

(** The map of physical frames and its lock. *)
Record frames := { fr_words : words; fr_map : bitmap_t; fr_lock : yieldlock_t }.

(** The reference counts of copy-on-write frames: a hash table from frames to
    addresses of [int32] cells. *)
Record cow := {
  cw_ready : bool;
  cw_world : world A;
  cw_table : hash_table_t;
  cw_cells : gmap Z Z;
  cw_lock : yieldlock_t
}.

(** [p_crt] is the field of [*current_page_directory]; [p_multi] is
    [multi_task_is_enabled()] and [p_dir_lock] the lock of the current
    process. *)
Record paging := {
  p_mem : mem;
  p_cr0 : Z;
  p_cr3 : Z;
  p_crt : Z;
  p_frames : frames;
  p_cow : cow;
  p_copy_lock : yieldlock_t;
  p_multi : bool;
  p_dir_lock : yieldlock_t;
  p_handlers : gmap Z isr_t
}.

Definition set_mem (s : paging) (m : mem) : paging :=
  {| p_mem := m; p_cr0 := p_cr0 s; p_cr3 := p_cr3 s; p_crt := p_crt s; p_frames := p_frames s;
     p_cow := p_cow s; p_copy_lock := p_copy_lock s; p_multi := p_multi s;
     p_dir_lock := p_dir_lock s; p_handlers := p_handlers s |}.
Definition set_cr3 (s : paging) (cr3 crt : Z) : paging :=
  {| p_mem := p_mem s; p_cr0 := p_cr0 s; p_cr3 := cr3; p_crt := crt; p_frames := p_frames s;
     p_cow := p_cow s; p_copy_lock := p_copy_lock s; p_multi := p_multi s;
     p_dir_lock := p_dir_lock s; p_handlers := p_handlers s |}.
Definition set_frames (s : paging) (f : frames) : paging :=
  {| p_mem := p_mem s; p_cr0 := p_cr0 s; p_cr3 := p_cr3 s; p_crt := p_crt s; p_frames := f;
     p_cow := p_cow s; p_copy_lock := p_copy_lock s; p_multi := p_multi s;
     p_dir_lock := p_dir_lock s; p_handlers := p_handlers s |}.
Definition set_cow (s : paging) (c : cow) : paging :=
  {| p_mem := p_mem s; p_cr0 := p_cr0 s; p_cr3 := p_cr3 s; p_crt := p_crt s;
     p_frames := p_frames s; p_cow := c; p_copy_lock := p_copy_lock s; p_multi := p_multi s;
     p_dir_lock := p_dir_lock s; p_handlers := p_handlers s |}.
Definition set_locks (s : paging) (copy dir : yieldlock_t) : paging :=
  {| p_mem := p_mem s; p_cr0 := p_cr0 s; p_cr3 := p_cr3 s; p_crt := p_crt s;
     p_frames := p_frames s; p_cow := p_cow s; p_copy_lock := copy; p_multi := p_multi s;
     p_dir_lock := dir; p_handlers := p_handlers s |}.

Definition cow_set_lock (c : cow) (l : yieldlock_t) : cow :=
  {| cw_ready := cw_ready c; cw_world := cw_world c; cw_table := cw_table c;
     cw_cells := cw_cells c; cw_lock := l |}.

(** Reads and writes of the kernel in the current address space. *)
Definition p_translate (s : paging) (va : Z) : option Z := translate (p_mem s) (p_cr3 s) va.
Definition get_pte (s : paging) (va : Z) : outcome pte_t :=
  w ← vload32 (p_mem s) (p_cr3 s) va; Ok (pte_decode w).
Definition put_pte (s : paging) (va : Z) (p : pte_t) : outcome paging :=
  m ← vstore32 (p_mem s) (p_cr3 s) va (pte_encode p); Ok (set_mem s m).

(** ** Frames *)

(** The result is a frame or -1. *)
Definition allocate_phy_frame (f : frames) : outcome (frames * Z) :=
  l ← yieldlock_lock (fr_lock f);
  '(st, r) ← bitmap_allocate_first_free (fr_words f) (fr_map f);
  let l := yieldlock_unlock l in
  Ok ({| fr_words := st; fr_map := fr_map f; fr_lock := l |},
      match r with None => -1 | Some frame => s32 frame end).

Definition release_phy_frame (f : frames) (frame : Z) : outcome frames :=
  l ← yieldlock_lock (fr_lock f);
  st ← bitmap_clear_bit (fr_words f) (fr_map f) frame;
  let l := yieldlock_unlock l in
  Ok {| fr_words := st; fr_map := fr_map f; fr_lock := l |}.

(** [frame = allocate_phy_frame(); if (frame < 0) PANIC();] *)
Definition need_frame (s : paging) : outcome (paging * Z) :=
  '(f, frame) ← allocate_phy_frame (p_frames s);
  if frame <? 0 then Panic else Ok (set_frames s f, frame).

Definition clear_page (s : paging) (addr : Z) : outcome paging :=
  let addr := addr / PAGE_SIZE * PAGE_SIZE in
  m ← for_up (Z.to_nat (PAGE_SIZE / 4)) 0 (fun i m => vstore32 m (p_cr3 s) (addr + 4 * i) 0) (p_mem s);
  Ok (set_mem s m).

Definition enable_paging (s : paging) : paging :=
  {| p_mem := p_mem s; p_cr0 := Z.lor (p_cr0 s) 0x80000000; p_cr3 := p_cr3 s; p_crt := p_crt s;
     p_frames := p_frames s; p_cow := p_cow s; p_copy_lock := p_copy_lock s;
     p_multi := p_multi s; p_dir_lock := p_dir_lock s; p_handlers := p_handlers s |}.

Definition reload_page_directory (s : paging) (dir : Z) : paging := set_cr3 s dir dir.
Definition get_crt_page_directory (s : paging) : Z := p_crt s.

(** ** Reference counts *)

Definition change_cow_frame_refcount (c : cow) (frame refcount_delta : Z) : outcome (cow * Z) :=
  if negb (cw_ready c) then Ok (c, 0)
  else
    l ← yieldlock_lock (cw_lock c);
    cnt_ptr ← hash_table_get (cw_world c) (cw_table c) frame;
    old_cnt ← (if negb (cnt_ptr =? 0) then deref (cw_cells c !! cnt_ptr) else Ok 0);
    let new_cnt := s32 (old_cnt + refcount_delta) in
    '(w, t, cells) ←
      (if 0 <? new_cnt then
         if negb (cnt_ptr =? 0) then
           Ok (cw_world c, cw_table c, <[cnt_ptr := new_cnt]> (cw_cells c))
         else
           '(a, cnt_ptr) ← a_malloc (w_alloc (cw_world c)) 4;
           let cells := <[cnt_ptr := new_cnt]> (cw_cells c) in
           '(w, t, _) ← hash_table_put (set_alloc (cw_world c) a) (cw_table c) frame cnt_ptr;
           Ok (w, t, cells)
       else if negb (cnt_ptr =? 0) then
         '(w, t, _) ← hash_table_remove (cw_world c) (cw_table c) frame;
         Ok (w, t, cw_cells c)
       else Ok (cw_world c, cw_table c, cw_cells c));
    Ok ({| cw_ready := true; cw_world := w; cw_table := t; cw_cells := cells;
           cw_lock := yieldlock_unlock l |}, old_cnt).

(** ** Unmapping *)

Definition release_page (s : paging) (virtual_addr : Z) (free_frame : bool) : outcome paging :=
  let pte_va := PAGE_TABLES_VIRTUAL + 4 * (virtual_addr / 4096) in
  pte ← get_pte s pte_va;
  if negb (is_present pte) then Ok s
  else
    s ← (if free_frame then
           '(c, cow_refs) ← change_cow_frame_refcount (p_cow s) (frame pte) (-1);
           let s := set_cow s c in
           if cow_refs <=? 0 then
             f ← release_phy_frame (p_frames s) (frame pte); Ok (set_frames s f)
           else Ok s
         else Ok s);
    m ← vstore32 (p_mem s) (p_cr3 s) pte_va 0;
    Ok (reload_page_directory (set_mem s m) (p_crt s)).

(** The iteration of the outer loop for directory entry [i]. *)
Definition release_table (pte_index_start pte_index_end : Z) (free_frame : bool) (i : Z)
    (s : paging) : outcome paging :=
  pde ← get_pte s (PAGE_DIR_VIRTUAL + 4 * i);
  if negb (is_present pde) then Ok s
  else
    let first := max pte_index_start (i * 1024) in
    let last := min pte_index_end (i * 1024 + 1024) in
    for_up (Z.to_nat (last - first)) first (fun j s =>
      release_page s (u32 (j * PAGE_SIZE)) free_frame) s.

Definition release_pages (s : paging) (virtual_addr pages : Z) (free_frame : bool) : outcome paging :=
  let virtual_addr := virtual_addr / PAGE_SIZE * PAGE_SIZE in
  let pte_index_start := virtual_addr / 4096 in
  let pte_index_end := u32 (pte_index_start + pages) in
  let pde_index_start := pte_index_start / 1024 in
  let pde_index_end := u32 (pte_index_end - 1) / 1024 + 1 in
  for_up (Z.to_nat (pde_index_end - pde_index_start)) pde_index_start
    (release_table pte_index_start pte_index_end free_frame) s.

Definition release_pages_tables (s : paging) (pde_index_start num : Z) : outcome paging :=
  for_up (Z.to_nat (u32 (pde_index_start + num) - pde_index_start)) pde_index_start (fun i s =>
    pde ← get_pte s (PAGE_DIR_VIRTUAL + 4 * i);
    if negb (is_present pde) then Ok s
    else
      f ← release_phy_frame (p_frames s) (frame pde);
      let s := set_frames s f in
      m ← vstore32 (p_mem s) (p_cr3 s) (PAGE_DIR_VIRTUAL + 4 * i) 0;
      Ok (set_mem s m)) s.

(** ** Mapping *)

(** The first part of [map_page_with_frame_impl]: a page table for the entry
    of the directory, cleared. *)
Definition need_table (s : paging) (pde_index : Z) : outcome paging :=
  let pde_va := PAGE_DIR_VIRTUAL + 4 * pde_index in
  pde ← get_pte s pde_va;
  if negb (is_present pde) then
    '(s, page_table_frame) ← need_frame s;
    s ← put_pte s pde_va (pte_map pde page_table_frame);
    let s := reload_page_directory s (p_crt s) in
    clear_page s (PAGE_TABLES_VIRTUAL + pde_index * PAGE_SIZE)
  else Ok s.

(** The branch for a page that is not present: a fresh frame, cleared. *)
Definition map_fresh (s : paging) (virtual_addr pte_va : Z) (pte : pte_t) : outcome paging :=
  '(s, frame) ← need_frame s;
  s ← put_pte s pte_va (pte_map pte frame);
  let s := reload_page_directory s (p_crt s) in
  clear_page s virtual_addr.

(** The branch for a frame that is still shared; [map] is the recursive call. *)
Definition map_copy (map : paging -> Z -> Z -> outcome paging) (s : paging)
    (virtual_addr pte_va : Z) : outcome paging :=
  '(s, frame) ← need_frame s;
  copy ← yieldlock_lock (p_copy_lock s);
  let s := set_locks s copy (p_dir_lock s) in
  let copy_page := COPIED_PAGE_VADDR in
  s ← map s copy_page frame;
  m ← vmemcpy (p_mem s) (p_cr3 s) copy_page (virtual_addr / PAGE_SIZE * PAGE_SIZE) PAGE_SIZE;
  let s := set_mem s m in
  let s := set_locks s (yieldlock_unlock (p_copy_lock s)) (p_dir_lock s) in
  pte ← get_pte s pte_va;
  s ← put_pte s pte_va (pte_set_rw (pte_set_frame pte frame) 1);
  release_pages s copy_page 1 false.

(** The branch for a present page that is not writable. *)
Definition map_cow (map : paging -> Z -> Z -> outcome paging) (s : paging)
    (virtual_addr pte_va : Z) (pte : pte_t) : outcome paging :=
  '(c, cow_refs) ← change_cow_frame_refcount (p_cow s) (frame pte) (-1);
  let s := set_cow s c in
  if 0 <? cow_refs then map_copy map s virtual_addr pte_va
  else
    s ← put_pte s pte_va (pte_set_rw pte 1);
    Ok (reload_page_directory s (p_crt s)).

Fixpoint map_page_with_frame_impl (fuel : nat) (s : paging) (virtual_addr frame0 : Z) :
    outcome paging :=
  match fuel with
  | O => NoFuel
  | S fuel =>
      s ← need_table s (virtual_addr / 4194304);
      let pte_va := PAGE_TABLES_VIRTUAL + 4 * (virtual_addr / 4096) in
      pte ← get_pte s pte_va;
      if 0 <? frame0 then
        s ← put_pte s pte_va (pte_map pte frame0);
        Ok (reload_page_directory s (p_crt s))
      else if negb (is_present pte) then map_fresh s virtual_addr pte_va pte
      else if rw pte =? 0 then map_cow (map_page_with_frame_impl fuel) s virtual_addr pte_va pte
      else Ok s
  end.

(** The copy page is the only page a call maps besides its own. *)
Definition MAP_FUEL : nat := 3.

Definition map_page_with_frame (s : paging) (virtual_addr frame : Z) : outcome paging :=
  s ← (if p_multi s then l ← yieldlock_lock (p_dir_lock s); Ok (set_locks s (p_copy_lock s) l)
       else Ok s);
  s ← map_page_with_frame_impl MAP_FUEL s virtual_addr frame;
  Ok (if p_multi s then set_locks s (p_copy_lock s) (yieldlock_unlock (p_dir_lock s)) else s).

Definition map_page (s : paging) (virtual_addr : Z) : outcome paging :=
  map_page_with_frame s virtual_addr (-1).

(** [cr2] is the faulting address. *)
Definition page_fault_handler (s : paging) (cr2 : Z) : outcome paging :=
  s ← map_page s (cr2 / PAGE_SIZE * PAGE_SIZE);
  Ok (reload_page_directory s (p_crt s)).

(** ** Initialisation *)

(** What a fresh block holds, and the address of the static [bitarray]. *)
Context (junk bitarray : Z).

Definition TOTAL_FRAMES : Z := PHYSICAL_MEM_SIZE / PAGE_SIZE.

Definition set_heap (s : paging) (a : A) : paging :=
  let c := p_cow s in
  set_cow s {| cw_ready := cw_ready c; cw_world := set_alloc (cw_world c) a;
               cw_table := cw_table c; cw_cells := cw_cells c; cw_lock := cw_lock c |}.

Definition register_interrupt_handler (s : paging) (n : Z) (handler : isr_t) : paging :=
  {| p_mem := p_mem s; p_cr0 := p_cr0 s; p_cr3 := p_cr3 s; p_crt := p_crt s;
     p_frames := p_frames s; p_cow := p_cow s; p_copy_lock := p_copy_lock s;
     p_multi := p_multi s; p_dir_lock := p_dir_lock s;
     p_handlers := <[n := handler]> (p_handlers s) |}.

(** The frame map: [bitarray] is filled for the first 3MB, then handed to
    [bitmap_create]. *)
Definition init_frames (s : paging) : outcome paging :=
  st ← for_up (Z.to_nat (3 * 1024 * 1024 / PAGE_SIZE / 32)) 0 (fun i st =>
         word_set st bitarray i 0xFFFFFFFF) (fr_words (p_frames s));
  '(a, st, map) ← bitmap_create junk (w_alloc (cw_world (p_cow s))) st bitarray TOTAL_FRAMES;
  st ← bitmap_set_bit st map (TOTAL_FRAMES - 1);
  Ok (set_heap (set_frames s {| fr_words := st; fr_map := map; fr_lock := fr_lock (p_frames s) |}) a).

Definition init_paging (s : paging) : outcome paging :=
  s ← init_frames s;
  let s := set_cr3 s (p_cr3 s) KERNEL_PAGE_DIR_PHY in
  s ← release_pages s (0xFFFFFFFF - KERNEL_BIN_LOAD_SIZE + 1) (KERNEL_BIN_LOAD_SIZE / PAGE_SIZE) true;
  Ok (register_interrupt_handler s 14 page_fault_isr).

Definition init_paging_stage2 (s : paging) : outcome paging :=
  let f := p_frames s in
  let s := set_frames s {| fr_words := fr_words f; fr_map := fr_map f; fr_lock := yieldlock_init |} in
  '(w, t) ← hash_table_init (cw_world (p_cow s));
  let s := set_cow s {| cw_ready := true; cw_world := w; cw_table := t;
                        cw_cells := cw_cells (p_cow s); cw_lock := yieldlock_init |} in
  Ok (set_locks s yieldlock_init (p_dir_lock s)).

(** ** Copying the address space *)

(** [*dst = *src] for two entries. *)
Definition copy_entry (s : paging) (dst src : Z) : outcome paging :=
  w ← vload32 (p_mem s) (p_cr3 s) src;
  m ← vstore32 (p_mem s) (p_cr3 s) dst w;
  Ok (set_mem s m).

(** The body of the inner loop: entry [j] of both page tables [i] becomes
    copy-on-write. *)
Definition clone_entry (copied_page_table i j : Z) (s : paging) : outcome paging :=
  let crt_va := PAGE_TABLES_VIRTUAL + i * PAGE_SIZE + 4 * j in
  let new_va := copied_page_table + 4 * j in
  new_pte ← get_pte s new_va;
  if negb (is_present new_pte) then Ok s
  else
    crt_pte ← get_pte s crt_va;
    s ← put_pte s crt_va (pte_set_rw crt_pte 0);
    new_pte ← get_pte s new_va;
    s ← put_pte s new_va (pte_set_rw new_pte 0);
    new_pte ← get_pte s new_va;
    '(c, _) ← change_cow_frame_refcount (p_cow s) (frame new_pte) 1;
    Ok (set_cow s c).

(** The body of the loop over the user half of the directory. *)
Definition clone_table (copied_page_dir copied_page_table i : Z) (s : paging) : outcome paging :=
  crt_pde ← get_pte s (PAGE_DIR_VIRTUAL + 4 * i);
  if negb (is_present crt_pde) then Ok s
  else
    '(s, new_pt_frame) ← need_frame s;
    s ← map_page_with_frame s copied_page_table new_pt_frame;
    let s := reload_page_directory s (p_crt s) in
    m ← vmemcpy (p_mem s) (p_cr3 s) copied_page_table (PAGE_TABLES_VIRTUAL + i * PAGE_SIZE) PAGE_SIZE;
    s ← for_up 1024 0 (clone_entry copied_page_table i) (set_mem s m);
    new_pde ← get_pte s (copied_page_dir + 4 * i);
    put_pte s (copied_page_dir + 4 * i) (pte_map new_pde new_pt_frame).

(** The kernel half: shared, but for the entry that maps the directory itself. *)
Definition clone_kernel_entry (copied_page_dir new_pd_frame i : Z) (s : paging) : outcome paging :=
  let new_va := copied_page_dir + 4 * i in
  if i =? 769 then
    new_pde ← get_pte s new_va; put_pte s new_va (pte_map new_pde new_pd_frame)
  else copy_entry s new_va (PAGE_DIR_VIRTUAL + 4 * i).

(** The result is the physical address of the new directory. *)
Definition clone_crt_page_dir (s : paging) : outcome (paging * Z) :=
  '(s, new_pd_frame) ← need_frame s;
  '(a, copied_page_dir) ← a_malloc_aligned (w_alloc (cw_world (p_cow s))) PAGE_SIZE;
  s ← map_page_with_frame (set_heap s a) copied_page_dir new_pd_frame;
  s ← clear_page (reload_page_directory s (p_crt s)) copied_page_dir;
  s ← copy_entry s copied_page_dir PAGE_DIR_VIRTUAL;
  s ← for_up 256 768 (clone_kernel_entry copied_page_dir new_pd_frame) s;
  '(a, copied_page_table) ← a_malloc_aligned (w_alloc (cw_world (p_cow s))) PAGE_SIZE;
  s ← for_up 767 1 (clone_table copied_page_dir copied_page_table) (set_heap s a);
  a ← a_free (w_alloc (cw_world (p_cow s))) copied_page_dir;
  a ← a_free a copied_page_table;
  s ← release_pages (set_heap s a) copied_page_dir 1 false;
  s ← release_pages s copied_page_table 1 false;
  Ok (s, u32 (new_pd_frame * PAGE_SIZE)).
End paging.
