(* ===== verification/PagingInv.v ===== *)
(** * Paging: the address space

    The bit fields of entries, the recursive mapping, what a write to an entry
    does to the translation, and the invariant that ties the tables to the map
    of physical frames. *)

From S2P Require Import Prelude.
From S2P Require Import Memory.
From S2P Require Import YieldLock.
From S2P Require Import KHeap.
From S2P Require Import Allocator.
From S2P Require Import Bitmap.
From S2P Require Import MathRand.
From S2P Require Import HashTable.
From S2P Require Import Paging.

(** ** Entries *)

(** Every field within its width. *)
Record pte_wf (p : pte_t) : Prop := {
  pw_present : 0 <= present p < 2;
  pw_rw : 0 <= rw p < 2;
  pw_user : 0 <= user p < 2;
  pw_accessed : 0 <= accessed p < 2;
  pw_dirty : 0 <= dirty p < 2;
  pw_unused : 0 <= unused p < 128;
  pw_frame : 0 <= frame p < 1048576
}.

Lemma pte_decode_wf w : pte_wf (pte_decode w).
Proof. constructor; cbn; lia. Qed.
#[global] Arguments pte_decode : simpl never.

Lemma pte_encode_u32 p : pte_wf p -> is_u32 (pte_encode p).
Proof. intros []. unfold is_u32, pte_encode. lia. Qed.

Lemma pte_decode_encode p : pte_wf p -> pte_decode (pte_encode p) = p.
Proof. intros []. destruct p. unfold pte_decode, pte_encode. cbn in *. f_equal; lia. Qed.

Lemma pte_encode_decode w : is_u32 w -> pte_encode (pte_decode w) = w.
Proof. unfold is_u32, pte_decode, pte_encode. cbn. lia. Qed.

Lemma pte_map_wf p f : pte_wf p -> pte_wf (pte_map p f).
Proof. intros []. constructor; cbn; lia || done. Qed.
Lemma pte_set_rw_wf p b : pte_wf p -> 0 <= b < 2 -> pte_wf (pte_set_rw p b).
Proof. intros []. constructor; cbn; done. Qed.
Lemma pte_set_frame_wf p f : pte_wf p -> pte_wf (pte_set_frame p f).
Proof. intros []. constructor; cbn; lia || done. Qed.

Lemma read_pte_wf m a : pte_wf (read_pte m a).
Proof. apply pte_decode_wf. Qed.
#[export] Hint Resolve read_pte_wf pte_decode_wf pte_map_wf pte_set_frame_wf : mem.

Lemma is_present_map p f : is_present (pte_map p f) = true.
Proof. done. Qed.

Lemma is_present_set_rw p b : is_present (pte_set_rw p b) = is_present p.
Proof. done. Qed.

Lemma pte_absent_zero : is_present (pte_decode 0) = false.
Proof. done. Qed.

Lemma read_pte_store_same m a p : pte_wf p -> read_pte (store32 m a (pte_encode p)) a = p.
Proof.
  intros Hp. unfold read_pte. rewrite load32_store32_same, u32_small.
  - by apply pte_decode_encode.
  - by apply pte_encode_u32.
Qed.

Lemma read_pte_store_ne m a b w :
  a mod 4 = 0 -> b mod 4 = 0 -> a <> b -> read_pte (store32 m a w) b = read_pte m b.
Proof. intros Ha Hb Hne. unfold read_pte. by rewrite load32_store32_ne by lia. Qed.

(** An entry written through the translation. *)
Definition tr_of (p : pte_t) (va : Z) : option Z :=
  if is_present p then Some (frame p * 4096 + va mod 4096) else None.

Lemma translate_tr m dir va :
  translate m dir va = (a ← pte_addr m dir va; tr_of (read_pte m a) va).
Proof. done. Qed.

(** The entry that maps a page. *)
Definition mapping (m : mem) (D va : Z) : option pte_t :=
  a ← pte_addr m D va; let p := read_pte m a in if is_present p then Some p else None.

Lemma translate_mapping m D va : translate m D va = p ← mapping m D va; tr_of p va.
Proof.
  rewrite translate_tr. unfold mapping. destruct (pte_addr m D va) as [a|]; [|done]. cbn.
  unfold tr_of. destruct (is_present (read_pte m a)) eqn:Hp; [|done]. cbn. by rewrite Hp.
Qed.

Lemma mapping_eq m m' D va : mapping m' D va = mapping m D va -> translate m' D va = translate m D va.
Proof. intros He. by rewrite !translate_mapping, He. Qed.

(** ** The directory *)

Record dir_ok (m : mem) (D : Z) : Prop := {
  do_frame : 0 <= D / 4096 < 1048576;
  do_aligned : D mod 4096 = 0;
  do_present : is_present (read_pte m (D + 4 * 769)) = true;
  do_self : frame (read_pte m (D + 4 * 769)) = D / 4096
}.

Lemma pte_addr_range m D va a :
  pte_addr m D va = Some a -> is_u32 va ->
  a mod 4 = 0 /\ a / 4096 = frame (read_pte m (pde_addr D va)) /\
  a = frame (read_pte m (pde_addr D va)) * 4096 + 4 * (va / 4096 mod 1024).
Proof.
  unfold pte_addr. destruct (is_present _); [|done]. intros Ha _. apply (inj Some) in Ha as <-.
  pose proof (pw_frame _ (read_pte_wf m (pde_addr D va))) as Hf.
  generalize dependent (frame (read_pte m (pde_addr D va))). intros f Hf.
  set (i := va / 4096 mod 1024). assert (0 <= i < 1024) by (unfold i; lia).
  clearbody i. split_and!; [lia | lia | done].
Qed.

(** Entry [i] of the directory, through its own entry. *)
Lemma translate_dir m D i :
  dir_ok m D -> 0 <= i < 1024 -> translate m D (PAGE_DIR_VIRTUAL + 4 * i) = Some (D + 4 * i).
Proof.
  intros [Hf Ha Hp Hs] Hi. unfold translate, pte_addr, pde_addr, PAGE_DIR_VIRTUAL.
  replace ((3228569600 + 4 * i) / 4194304) with 769 by lia. rewrite Hp, Hs. cbn [mbind option_bind].
  replace (D / 4096 * 4096 + 4 * ((3228569600 + 4 * i) / 4096 mod 1024)) with (D + 4 * 769) by lia.
  rewrite Hp, Hs. f_equal. lia.
Qed.

(** The entry of a page, through the entry of its table. *)
Lemma translate_table m D va :
  dir_ok m D -> is_u32 va -> translate m D (PAGE_TABLES_VIRTUAL + 4 * (va / 4096)) = pte_addr m D va.
Proof.
  intros [Hf Ha Hp Hs] Hva. unfold translate, pte_addr, pde_addr, PAGE_TABLES_VIRTUAL, is_u32 in *.
  replace ((3225419776 + 4 * (va / 4096)) / 4194304) with 769 by lia. rewrite Hp, Hs.
  cbn [mbind option_bind].
  replace (D / 4096 * 4096 + 4 * ((3225419776 + 4 * (va / 4096)) / 4096 mod 1024))
    with (D + 4 * (va / 4194304)) by lia.
  set (e := read_pte m (D + 4 * (va / 4194304))). clearbody e.
  destruct (is_present e); [|done]. f_equal. lia.
Qed.

(** The page of a table, which [clear_page] clears. *)
Lemma translate_table_page m D i :
  dir_ok m D -> 0 <= i < 1024 ->
  pte_addr m D (PAGE_TABLES_VIRTUAL + i * 4096) = Some (D + 4 * i).
Proof.
  intros [Hf Ha Hp Hs] Hi. unfold pte_addr, pde_addr, PAGE_TABLES_VIRTUAL.
  replace ((3225419776 + i * 4096) / 4194304) with 769 by lia. rewrite Hp, Hs. f_equal. lia.
Qed.

(** ** What writes do to the translation *)

Lemma pde_addr_in D va : D mod 4096 = 0 -> is_u32 va -> D <= pde_addr D va /\ pde_addr D va + 4 <= D + 4096.
Proof. unfold pde_addr, is_u32. lia. Qed.

Lemma pte_addr_same m m' D va :
  D mod 4096 = 0 -> is_u32 va -> same_on m m' D (D + 4096) -> pte_addr m' D va = pte_addr m D va.
Proof.
  intros Ha Hva Hs. unfold pte_addr, read_pte. pose proof (pde_addr_in D va Ha Hva).
  by rewrite (load32_same_on _ _ _ _ _ Hs) by lia.
Qed.

Lemma dir_ok_same m m' D : same_on m m' D (D + 4096) -> dir_ok m D -> dir_ok m' D.
Proof.
  intros Hs []. unfold read_pte in *. constructor; try done;
    unfold read_pte; by rewrite (load32_same_on _ _ _ _ _ Hs) by lia.
Qed.

(** Memory that is the same but for a page. *)
Lemma same_page_word m m' P a :
  same_out m m' P (P + 4096) -> P mod 4096 = 0 -> a mod 4 = 0 -> a / 4096 <> P / 4096 ->
  load32 m' a = load32 m a.
Proof.
  intros Hs HP Ha Hne. apply (load32_same_on _ _ _ a (a + 4)); [|lia|lia].
  apply (same_out_on _ _ _ _ _ _ Hs). lia.
Qed.

Lemma same_page_dir m m' P D :
  same_out m m' P (P + 4096) -> P mod 4096 = 0 -> D mod 4096 = 0 -> D / 4096 <> P / 4096 ->
  same_on m m' D (D + 4096).
Proof. intros Hs HP HD Hne. apply (same_out_on _ _ _ _ _ _ Hs). lia. Qed.

(** A write to an entry of a table. *)
Lemma pte_addr_store m D P w va :
  D mod 4096 = 0 -> is_u32 va -> P mod 4 = 0 -> P / 4096 <> D / 4096 ->
  pte_addr (store32 m P w) D va = pte_addr m D va.
Proof.
  intros HD Hva HP Hne. apply pte_addr_same; [done | done |].
  apply (same_out_on _ _ _ _ _ _ (same_out_store32 m P w)). lia.
Qed.

Lemma dir_ok_store m D P w :
  P mod 4 = 0 -> P / 4096 <> D / 4096 -> dir_ok m D -> dir_ok (store32 m P w) D.
Proof.
  intros HP Hne Hd. apply (dir_ok_same m); [|done].
  pose proof (do_aligned _ _ Hd). apply (same_out_on _ _ _ _ _ _ (same_out_store32 m P w)). lia.
Qed.

Lemma translate_store m D P p va :
  D mod 4096 = 0 -> is_u32 va -> P mod 4 = 0 -> P / 4096 <> D / 4096 -> pte_wf p ->
  translate (store32 m P (pte_encode p)) D va =
  if decide (pte_addr m D va = Some P) then tr_of p va else translate m D va.
Proof.
  intros HD Hva HP Hne Hp. rewrite !translate_tr, pte_addr_store by done.
  destruct (pte_addr m D va) as [a|] eqn:Ha; cbn [mbind option_bind]; [|by rewrite decide_False].
  destruct (pte_addr_range _ _ _ _ Ha Hva) as (Ha4 & _). case_decide as He.
  - injection He as ->. by rewrite read_pte_store_same.
  - rewrite read_pte_store_ne; [done | done | done | congruence].
Qed.

(** ** Pages *)

Lemma pte_addr_page m D base o :
  base mod 4096 = 0 -> 0 <= o < 4096 -> pte_addr m D (base + o) = pte_addr m D base.
Proof.
  intros Hb Ho. unfold pte_addr, pde_addr.
  replace ((base + o) / 4194304) with (base / 4194304) by lia.
  replace ((base + o) / 4096) with (base / 4096) by lia. done.
Qed.

Lemma pte_addr_base m D va : pte_addr m D (va / 4096 * 4096) = pte_addr m D va.
Proof.
  rewrite <- (pte_addr_page m D (va / 4096 * 4096) (va mod 4096)) by lia. f_equal. lia.
Qed.

(** [maps m D va a P]: the page of [va] is at the physical page [P], through
    the entry at [a]; neither the directory nor the entry is in it. *)
Record maps (m : mem) (D va a P : Z) : Prop := {
  mp_va : is_u32 va;
  mp_dir : D mod 4096 = 0;
  mp_entry : pte_addr m D va = Some a;
  mp_present : is_present (read_pte m a) = true;
  mp_frame : frame (read_pte m a) * 4096 = P;
  mp_not_dir : D / 4096 <> P / 4096;
  mp_not_table : a / 4096 <> P / 4096
}.

Lemma maps_page m D va a P : maps m D va a P -> P mod 4096 = 0.
Proof. intros []. pose proof (pw_frame _ (read_pte_wf m a)). lia. Qed.

Lemma maps_translate m D va a P o :
  maps m D va a P -> 0 <= o < 4096 -> translate m D (va / 4096 * 4096 + o) = Some (P + o).
Proof.
  intros [] Ho. rewrite translate_tr, pte_addr_page, pte_addr_base, mp_entry0 by lia.
  cbn [mbind option_bind]. unfold tr_of. rewrite mp_present0. f_equal. lia.
Qed.

(** A change within a page that is none of the tables. *)
Lemma maps_same m m' D va a P Q :
  maps m D va a P -> same_out m m' Q (Q + 4096) -> Q mod 4096 = 0 -> D / 4096 <> Q / 4096 ->
  a / 4096 <> Q / 4096 -> maps m' D va a P.
Proof.
  intros [] Hs HQ HD Ha. destruct (pte_addr_range _ _ _ _ mp_entry0 mp_va0) as (Ha4 & _).
  assert (read_pte m' a = read_pte m a) as Hr
    by (unfold read_pte; by rewrite (same_page_word _ _ _ _ Hs)).
  constructor; rewrite ?Hr; try done.
  by rewrite (pte_addr_same m) by (done || by eapply same_page_dir).
Qed.

(** [m'] is [m] with the page [P] replaced by the bytes [f]. *)
Definition page_is (m m' : mem) (P : Z) (f : Z -> Z) : Prop :=
  same_out m m' P (P + 4096) /\ forall o, 0 <= o < 4096 -> load8 m' (P + o) = f o.

Lemma page_zero_word m m' P o :
  page_is m m' P (fun _ => 0) -> 0 <= o -> o + 4 <= 4096 -> load32 m' (P + o) = 0.
Proof.
  intros [_ Hz] Ho H4. unfold load32.
  rewrite <- !Z.add_assoc, !Hz by lia. done.
Qed.

Section accesses.
Context {A : Type} `{AlignedAllocator A}.
Abbreviation paging := (paging (A := A)).

Lemma clear_page_spec (s : paging) va a P :
  maps (p_mem s) (p_cr3 s) va a P ->
  exists m', clear_page s va = Ok (set_mem s m') /\ page_is (p_mem s) m' P (fun _ => 0).
Proof.
  intros Hm. pose proof (maps_page _ _ _ _ _ Hm) as HP. pose proof Hm as [].
  unfold clear_page, PAGE_SIZE. set (base := va / 4096 * 4096).
  destruct (for_up_rule (fun i m => same_out (p_mem s) m P (P + 4096) /\
      forall o, 0 <= o < 4 * i -> load8 m (P + o) = 0)
    (Z.to_nat (4096 / 4)) 0 (fun i m => vstore32 m (p_cr3 s) (base + 4 * i) 0) (p_mem s))
    as (m' & -> & Hs & Hz).
  - split; [apply same_out_refl | intros; lia].
  - intros j m Hj [Hs Hz]. change (Z.of_nat (Z.to_nat (4096 / 4))) with 1024 in Hj.
    assert (maps m (p_cr3 s) va a P) as Hm' by by eapply maps_same.
    exists (store32 m (P + 4 * j) 0). unfold vstore32, base.
    rewrite (maps_translate _ _ _ _ _ _ Hm') by lia. split; [done |]. split.
    + eapply same_out_trans; [done |]. eapply same_out_sub; [apply same_out_store32 | lia | lia].
    + intros o Ho. destruct (decide (o < 4 * j)).
      * rewrite load8_store32_ne by lia. apply Hz. lia.
      * unfold store32. assert (o = 4 * j \/ o = 4 * j + 1 \/ o = 4 * j + 2 \/ o = 4 * j + 3)
          as [->|[->|[->| ->]]] by lia; rewrite ?Z.add_assoc;
          repeat (rewrite load8_store8_same || rewrite load8_store8_ne by lia); reflexivity.
  - cbn [mbind outcome_bind]. exists m'. split; [done |]. split; [done |].
    intros o Ho. apply Hz. change (0 + Z.of_nat (Z.to_nat (4096 / 4))) with 1024. lia.
Qed.

(** Copying one mapped page to another. *)
Lemma vmemcpy_spec m D dst src ad P asrc Q :
  maps m D dst ad P -> maps m D src asrc Q -> asrc / 4096 <> P / 4096 -> P <> Q ->
  exists m', vmemcpy m D (dst / 4096 * 4096) (src / 4096 * 4096) PAGE_SIZE = Ok m' /\
    page_is m m' P (fun o => load8 m (Q + o)).
Proof.
  intros Hd Hs Hne HPQ. pose proof (maps_page _ _ _ _ _ Hd) as HP.
  pose proof (maps_page _ _ _ _ _ Hs) as HQ. unfold vmemcpy, PAGE_SIZE.
  set (body := fun i m => _). change (Z.to_nat 4096) with 4096%nat.
  destruct (for_up_rule (fun i t => same_out m t P (P + 4096) /\
      forall o, 0 <= o < i -> load8 t (P + o) = load8 m (Q + o)) 4096 0 body m)
    as (m' & -> & Ho & Hc).
  - split; [apply same_out_refl | intros; lia].
  - intros j t Hj [Ho Hc]. unfold body.
    assert (maps t D dst ad P) as Hd' by (eapply maps_same; [exact Hd | done | done | apply Hd | apply Hd]).
    assert (maps t D src asrc Q) as Hs' by (eapply maps_same; [exact Hs | done | done | apply Hd | done]).
    exists (store8 t (P + j) (load8 t (Q + j))). unfold vload8, vstore8.
    rewrite (maps_translate _ _ _ _ _ _ Hs'), (maps_translate _ _ _ _ _ _ Hd') by lia.
    split; [done |]. split.
    + eapply same_out_trans; [done |]. eapply same_out_sub; [apply same_out_store8 | lia | lia].
    + intros o Hoj. destruct (decide (o = j)) as [->|].
      * rewrite load8_store8_same. rewrite (Ho (Q + j)) by lia.
        apply u8_small, load8_range.
      * rewrite load8_store8_ne by lia. apply Hc. lia.
  - exists m'. split; [done |]. split; [done |]. intros o Hoo. apply Hc. lia.
Qed.
End accesses.
