(* ===== verification/PageEntry.v ===== *)
(** * Page table entries as the processor reads them

    The bit fields of [pte_t] (mem/paging.h) and the assignments to them
    (mem/paging.c) against the bits of the entry's word and against the walk of
    the processor, both written here with shifts and masks as its manual lays
    them out: present in bit 0, writable in bit 1, user in bit 2, the frame in
    bits 12 to 31.  (The fields [accessed] and [dirty] of the code are bits 3 and
    4, which the processor uses for the caches; its own are bits 5 and 6.  The
    code reads neither.) *)

From S2P Require Import Prelude.
From S2P Require Import Memory.
From S2P Require Import Bitmap.
From S2P Require Import Paging.
From S2P Require Import PagingInv.

(** ** The processor *)

Definition FRAME_MASK : Z := 0xFFFFF000.
Definition BIT_PRESENT : Z := 0.
Definition BIT_WRITABLE : Z := 1.
Definition BIT_USER : Z := 2.

(** The walk for the linear address [va] with [cr3] as the directory's register. *)
Definition x86_walk (m : mem) (cr3 va : Z) : option Z :=
  let pde := load32 m (Z.lor (Z.land cr3 FRAME_MASK) (Z.shiftl (Z.shiftr va 22) 2)) in
  if negb (Z.testbit pde BIT_PRESENT) then None else
  let pte := load32 m (Z.lor (Z.land pde FRAME_MASK)
                             (Z.shiftl (Z.land (Z.shiftr va 12) 0x3FF) 2)) in
  if negb (Z.testbit pte BIT_PRESENT) then None else
  Some (Z.lor (Z.land pte FRAME_MASK) (Z.land va 0xFFF)).

(** A word with some bits of another one: those of [mask] from [v]. *)
Definition replace_bits (w mask v : Z) : Z := Z.lor (Z.ldiff w mask) (Z.land v mask).

(** ** Bits and arithmetic *)

Lemma testbit_0_mod w : Z.testbit w 0 = (w mod 2 =? 1).
Proof. rewrite Z.bit0_odd, Zmod_odd. by destruct (Z.odd w). Qed.

Lemma testbit_div w k : 0 <= k -> Z.testbit w k = (w / 2 ^ k mod 2 =? 1).
Proof. intros Hk. by rewrite <- testbit_0_mod, Z.div_pow2_bits, Z.add_0_l. Qed.

Lemma b2z_testbit w k : 0 <= k -> Z.b2z (Z.testbit w k) = w / 2 ^ k mod 2.
Proof. intros Hk. rewrite testbit_div by done. destruct (Z.eqb_spec (w / 2 ^ k mod 2) 1); simpl; lia. Qed.

Lemma testbit_low_high n lo hi j :
  0 <= n -> 0 <= lo < 2 ^ n -> 0 <= j ->
  Z.testbit (lo + 2 ^ n * hi) j = if j <? n then Z.testbit lo j else Z.testbit hi (j - n).
Proof.
  intros Hn Hlo Hj. destruct (Z.ltb_spec j n).
  - rewrite <- (Z.mod_pow2_bits_low _ n j) by lia.
    by rewrite (Z.mul_comm (2 ^ n)), Z_mod_plus_full, Z.mod_small by lia.
  - replace j with ((j - n) + n) at 1 by lia.
    rewrite <- Z.div_pow2_bits by lia.
    rewrite (Z.mul_comm (2 ^ n)), Z.div_add, Z.div_small, Z.add_0_l by lia. done.
Qed.

Lemma lor_low_high n lo hi :
  0 <= n -> 0 <= lo < 2 ^ n -> Z.lor (Z.shiftl hi n) lo = lo + 2 ^ n * hi.
Proof.
  intros Hn Hlo. apply Z.bits_inj'. intros j Hj.
  rewrite testbit_low_high, Z.lor_spec, Z.shiftl_spec by done.
  destruct (Z.ltb_spec j n).
  - by rewrite Z.testbit_neg_r by lia.
  - assert (Z.testbit lo j = false) as ->; [| by rewrite orb_false_r].
    rewrite <- (Z.mod_small lo (2 ^ n)) by done. by apply Z.mod_pow2_bits_high.
Qed.

Lemma land_frame w : is_u32 w -> Z.land w FRAME_MASK = Z.shiftl (w / 4096) 12.
Proof.
  intros Hw. apply Z.bits_inj'. intros j Hj.
  rewrite Z.land_spec, Z.shiftl_spec by done.
  change FRAME_MASK with (0 + 2 ^ 12 * Z.ones 20).
  rewrite testbit_low_high by lia. destruct (Z.ltb_spec j 12).
  - rewrite Z.bits_0, andb_false_r. by rewrite Z.testbit_neg_r by lia.
  - change 4096 with (2 ^ 12). rewrite Z.div_pow2_bits by lia. replace (j - 12 + 12) with j by lia.
    destruct (Z.ltb_spec j 32).
    + rewrite Z.ones_spec_low by lia. by rewrite andb_true_r.
    + by rewrite u32_testbit_high by done.
Qed.

(** A frame number and an offset below 4096, or an index below 1024. *)
Lemma frame_or w lo : is_u32 w -> 0 <= lo < 4096 ->
  Z.lor (Z.land w FRAME_MASK) lo = w / 4096 * 4096 + lo.
Proof.
  intros Hw Hlo. rewrite land_frame by done. rewrite (lor_low_high 12) by (change (2 ^ 12) with 4096; lia).
  change (2 ^ 12) with 4096. lia.
Qed.

Lemma is_present_bit w : is_present (pte_decode w) = Z.testbit w BIT_PRESENT.
Proof.
  unfold is_present, pte_decode, BIT_PRESENT. cbn [present]. rewrite testbit_0_mod.
  pose proof (Z.mod_pos_bound w 2 ltac:(lia)).
  destruct (Z.eqb_spec (w mod 2) 0), (Z.eqb_spec (w mod 2) 1); done || lia.
Qed.

Lemma frame_decode w : is_u32 w -> frame (pte_decode w) = w / 4096.
Proof. unfold is_u32, pte_decode. cbn. lia. Qed.

Lemma translate_walk m dir va :
  dir mod 4096 = 0 -> is_u32 dir -> is_u32 va -> translate m dir va = x86_walk m dir va.
Proof.
  intros Hd Hud Hva. unfold translate, pte_addr, x86_walk, read_pte, pde_addr.
  rewrite !Z.shiftr_div_pow2, !Z.shiftl_mul_pow2 by lia.
  change 0x3FF with (Z.ones 10). change 0xFFF with (Z.ones 12). rewrite !Z.land_ones by lia.
  change (2 ^ 22) with 4194304. change (2 ^ 12) with 4096. change (2 ^ 10) with 1024.
  change (2 ^ 2) with 4. unfold is_u32 in Hva, Hud.
  rewrite frame_or by (first [assumption | unfold is_u32; lia]).
  replace (dir / 4096 * 4096 + va / 4194304 * 4) with (dir + 4 * (va / 4194304)) by lia.
  set (pde := load32 m (dir + 4 * (va / 4194304))). rewrite is_present_bit.
  destruct (Z.testbit pde BIT_PRESENT); [| done]. cbn [negb mbind option_bind].
  pose proof (load32_range m (dir + 4 * (va / 4194304))) as Hp. fold pde in Hp.
  rewrite frame_or by (first [assumption | unfold is_u32; lia]). rewrite frame_decode by done.
  replace (va / 4096 mod 1024 * 4) with (4 * (va / 4096 mod 1024)) by lia.
  set (pte := load32 m _). rewrite is_present_bit.
  destruct (Z.testbit pte BIT_PRESENT); [| done]. cbn [negb].
  pose proof (load32_range m (pde / 4096 * 4096 + 4 * (va / 4096 mod 1024))) as Hq. fold pte in Hq.
  rewrite frame_or by (first [assumption | unfold is_u32; lia]). by rewrite frame_decode.
Qed.

(** ** The bits of an entry *)

Ltac next_field :=
  rewrite testbit_low_high by lia;
  match goal with
  | |- (if ?a <? 1 then Z.testbit _ ?a else _) = (if ?j <? ?n then _ else _) =>
      destruct (Z.ltb_spec a 1), (Z.ltb_spec j n); try lia;
      [f_equal; lia |]
  end.

Lemma encode_bit p j :
  pte_wf p -> 0 <= j ->
  Z.testbit (pte_encode p) j =
    if j <? 1 then Z.testbit (present p) j else
    if j <? 2 then Z.testbit (rw p) (j - 1) else
    if j <? 3 then Z.testbit (user p) (j - 2) else
    if j <? 4 then Z.testbit (accessed p) (j - 3) else
    if j <? 5 then Z.testbit (dirty p) (j - 4) else
    if j <? 12 then Z.testbit (unused p) (j - 5) else Z.testbit (frame p) (j - 12).
Proof.
  intros [] Hj.
  replace (pte_encode p) with (present p + 2 ^ 1 * (rw p + 2 ^ 1 * (user p + 2 ^ 1 * (accessed p
    + 2 ^ 1 * (dirty p + 2 ^ 1 * (unused p + 2 ^ 7 * frame p)))))) by (unfold pte_encode; lia).
  rewrite testbit_low_high by lia. destruct (Z.ltb_spec j 1); [done |].
  next_field. next_field. next_field. next_field.
  rewrite testbit_low_high by lia. replace (j - 1 - 1 - 1 - 1 - 1) with (j - 5) by lia.
  destruct (Z.ltb_spec (j - 5) 7), (Z.ltb_spec j 12); try lia; [done |].
  by replace (j - 5 - 7) with (j - 12) by lia.
Qed.

Lemma field_bit w k n j :
  0 <= k -> 0 <= n -> 0 <= j -> Z.testbit (w / 2 ^ k mod 2 ^ n) j = (j <? n) && Z.testbit w (j + k).
Proof.
  intros Hk Hn Hj. destruct (Z.ltb_spec j n).
  - by rewrite Z.mod_pow2_bits_low, Z.div_pow2_bits by lia.
  - by rewrite Z.mod_pow2_bits_high by lia.
Qed.

(** The cases of a bit number below 12, the others staying symbolic. *)
Ltac bit_cases j :=
  destruct (Z.lt_ge_cases j 12);
  [assert (j = 0 \/ j = 1 \/ j = 2 \/ j = 3 \/ j = 4 \/ j = 5 \/ j = 6 \/ j = 7 \/ j = 8 \/ j = 9
           \/ j = 10 \/ j = 11) as [-> | [-> | [-> | [-> | [-> | [-> | [-> | [-> | [-> | [-> | [-> | ->]]]]]]]]]]]
     by lia |].

Lemma replace_bit w mask v j :
  Z.testbit (replace_bits w mask v) j = if Z.testbit mask j then Z.testbit v j else Z.testbit w j.
Proof.
  unfold replace_bits. rewrite Z.lor_spec, Z.ldiff_spec, Z.land_spec.
  by destruct (Z.testbit mask j), (Z.testbit w j), (Z.testbit v j).
Qed.

Lemma mask_high lo j :
  0 <= lo < 4096 -> 12 <= j -> Z.testbit (lo + 2 ^ 12 * Z.ones 20) j = (j <? 32).
Proof.
  intros Hlo Hj. rewrite testbit_low_high by lia. rewrite (proj2 (Z.ltb_ge _ _)) by lia.
  destruct (Z.ltb_spec j 32); [apply Z.ones_spec_low | apply Z.ones_spec_high]; lia.
Qed.

(** An entry with the fields of [w] but for some low bits and perhaps a frame [f]. *)
Lemma updated_bits w p f lo vlo (fr : bool) :
  is_u32 w -> pte_wf p -> 0 <= lo < 4096 -> 0 <= vlo < 4096 ->
  frame p = (if fr then f mod 1048576 else frame (pte_decode w)) ->
  (forall j, 0 <= j < 12 -> Z.testbit (pte_encode p) j = if Z.testbit lo j then Z.testbit vlo j else Z.testbit w j) ->
  pte_encode p = replace_bits w (lo + 2 ^ 12 * (if fr then Z.ones 20 else 0)) (vlo + 2 ^ 12 * f).
Proof.
  intros Hw Hp Hlo Hv Hf Hlow. apply Z.bits_inj'. intros j Hj. rewrite replace_bit.
  destruct (Z.lt_ge_cases j 12) as [Hj2 | Hj2].
  - rewrite Hlow by lia. rewrite !testbit_low_high by (done || lia). by rewrite (proj2 (Z.ltb_lt j 12)) by lia.
  - rewrite encode_bit by done.
    rewrite !(proj2 (Z.ltb_ge j _)) by lia. rewrite Hf.
    rewrite (testbit_low_high 12 vlo) by (done || lia). rewrite (proj2 (Z.ltb_ge j 12)) by lia.
    destruct fr.
    + rewrite mask_high by lia. change 1048576 with (2 ^ 20).
      destruct (Z.ltb_spec j 32).
      * by rewrite Z.mod_pow2_bits_low by lia.
      * rewrite Z.mod_pow2_bits_high by lia. by rewrite u32_testbit_high.
    + rewrite testbit_low_high by lia. rewrite (proj2 (Z.ltb_ge j 12)), Z.bits_0 by lia.
      rewrite frame_decode by done. change 4096 with (2 ^ 12). rewrite Z.div_pow2_bits by lia. f_equal. lia.
Qed.

(** C30: a page table entry against the layout the processor's manual gives.  The
    fields of a word are its bits: present is bit 0, writable bit 1, user bit 2,
    the frame bits 12 to 31.  An assignment to the fields changes exactly their
    bits of the word: mapping a frame sets the low three bits and the frame and
    keeps the bits 3 to 11, changing the write permission replaces bit 1 only,
    changing the frame the bits 12 to 31 only.  The model's address translation is
    the processor's walk through such words. *)
Theorem pte_layout m dir va w f b
    (Hdir : dir mod 4096 = 0) (Hd : is_u32 dir) (Hva : is_u32 va) (Hw : is_u32 w) (Hb : 0 <= b < 2) :
  let p := pte_decode w in
  (is_present p = Z.testbit w BIT_PRESENT /\ rw p = Z.b2z (Z.testbit w BIT_WRITABLE) /\
   user p = Z.b2z (Z.testbit w BIT_USER) /\ frame p = Z.shiftr w 12) /\
  pte_encode p = w /\
  pte_encode (pte_map p f) = replace_bits w 0xFFFFF007 (Z.lor (Z.shiftl f 12) 7) /\
  pte_encode (pte_set_rw p b) = replace_bits w 0x2 (Z.shiftl b 1) /\
  pte_encode (pte_set_frame p f) = replace_bits w FRAME_MASK (Z.shiftl f 12) /\
  translate m dir va = x86_walk m dir va.
Proof.
  intros p. pose proof (pte_decode_wf w) as Hp. fold p in Hp.
  assert (forall j, 0 <= j -> Z.testbit (pte_encode p) j = Z.testbit w j) as Hold.
  { intros j _. unfold p. by rewrite pte_encode_decode. }
  split_and!.
  - apply is_present_bit.
  - by rewrite b2z_testbit by done.
  - by rewrite b2z_testbit by done.
  - rewrite Z.shiftr_div_pow2 by done. by apply frame_decode.
  - by apply pte_encode_decode.
  - rewrite (lor_low_high 12) by lia.
    apply (updated_bits w _ f 7 7 true); try done; [by apply pte_map_wf |]. intros j Hj.
    rewrite encode_bit; [| by apply pte_map_wf | lia]. rewrite <- Hold, encode_bit by (done || lia).
    bit_cases j; [done .. | lia].
  - replace (Z.shiftl b 1) with (2 * b + 2 ^ 12 * 0) by (rewrite Z.shiftl_mul_pow2; lia).
    apply (updated_bits w _ 0 2 (2 * b) false); try done; [by apply pte_set_rw_wf | lia |]. intros j Hj.
    rewrite encode_bit; [| by apply pte_set_rw_wf | lia]. rewrite <- Hold, encode_bit by (done || lia).
    assert (b = 0 \/ b = 1) as [-> | ->] by lia; bit_cases j; first [done | lia].
  - replace (Z.shiftl f 12) with (0 + 2 ^ 12 * f) by (rewrite Z.shiftl_mul_pow2; lia).
    apply (updated_bits w _ f 0 0 true); try done; [by apply pte_set_frame_wf |]. intros j Hj.
    rewrite encode_bit; [| by apply pte_set_frame_wf | lia]. rewrite <- Hold, encode_bit by (done || lia).
    bit_cases j; [done .. | lia].
  - by apply translate_walk.
Qed.

(** The entry of the page tables at boot, frame 0x101 with the low bits set, moved
    to frame 0x345 and made read-only, and an address without a directory. *)
Lemma pte_layout_witness :
  pte_encode (pte_set_frame (pte_decode 0x00101007) 0x345) = 0x00345007 /\
  pte_encode (pte_set_rw (pte_decode 0x00101007) 0) = 0x00101005 /\
  translate (store32 (store32 ∅ 0x101004 0x00102007) 0x102008 0x00345007) 0x101000 0x00402123 = Some 0x345123.
Proof.
  destruct (pte_layout (store32 (store32 ∅ 0x101004 0x00102007) 0x102008 0x00345007) 0x101000 0x00402123
    0x00101007 0x345 0 eq_refl) as (_ & _ & _ & Hrw & Hf & Ht); try (split; vm_compute; congruence).
  split_and!.
  - rewrite Hf. reflexivity.
  - rewrite Hrw. reflexivity.
  - rewrite Ht. vm_compute. reflexivity.
Defined.
