(* ===== verification/PagingMap.v ===== *)
(** * Paging: mapping pages

    The invariant of an address space, and the branches of
    [map_page_with_frame_impl]: new page tables, fresh pages, copy-on-write. *)

From S2P Require Import Prelude.
From S2P Require Import Memory.
From S2P Require Import YieldLock.
From S2P Require Import KHeap.
From S2P Require Import Allocator.
From S2P Require Import Bitmap.
From S2P Require Import MathRand.
From S2P Require Import HashTable.
From S2P Require Import Paging.
From S2P Require Import PagingInv.

(** ** Frames in use *)

(** The frames of the directory and its page tables, and those mapped. *)
Definition table_frame (m : mem) (D f : Z) : Prop :=
  f = D / 4096 \/
  exists i, 0 <= i < 1024 /\ is_present (read_pte m (D + 4 * i)) = true /\
    frame (read_pte m (D + 4 * i)) = f.

Definition mapped_frame (m : mem) (D f : Z) : Prop :=
  exists va a, is_u32 va /\ pte_addr m D va = Some a /\ is_present (read_pte m a) = true /\
    frame (read_pte m a) = f.

Definition in_use (m : mem) (D f : Z) : Prop := table_frame m D f \/ mapped_frame m D f.

Lemma pde_index va : is_u32 va -> 0 <= va / 4194304 < 1024.
Proof. unfold is_u32. lia. Qed.

Lemma pte_addr_Some m D va a :
  pte_addr m D va = Some a ->
  is_present (read_pte m (pde_addr D va)) = true.
Proof. unfold pte_addr. by destruct (is_present _). Qed.

Lemma pte_addr_table_frame m D va a :
  is_u32 va -> pte_addr m D va = Some a -> table_frame m D (a / 4096).
Proof.
  intros Hva Ha. destruct (pte_addr_range _ _ _ _ Ha Hva) as (_ & -> & _). right.
  exists (va / 4194304). split; [by apply pde_index |]. split; [by eapply pte_addr_Some | done].
Qed.

(** Two memories whose tables are the same. *)
Definition same_tables (m m' : mem) (D : Z) : Prop :=
  same_on m m' D (D + 4096) /\
  forall va a, is_u32 va -> pte_addr m D va = Some a -> read_pte m' a = read_pte m a.

Lemma same_tables_addr m m' D va :
  D mod 4096 = 0 -> same_tables m m' D -> is_u32 va -> pte_addr m' D va = pte_addr m D va.
Proof. intros HD [Hs _] Hva. by apply pte_addr_same. Qed.

Lemma same_tables_translate m m' D va :
  D mod 4096 = 0 -> same_tables m m' D -> is_u32 va -> translate m' D va = translate m D va.
Proof.
  intros HD Hs Hva. rewrite !translate_tr, (same_tables_addr m) by done.
  destruct (pte_addr m D va) as [a|] eqn:Ha; [|done]. cbn. by rewrite (proj2 Hs va).
Qed.

Lemma same_on_pde m m' D i :
  same_on m m' D (D + 4096) -> 0 <= i < 1024 -> read_pte m' (D + 4 * i) = read_pte m (D + 4 * i).
Proof. intros Hs Hi. unfold read_pte. f_equal. apply (load32_same_on _ _ _ _ _ Hs); lia. Qed.

Lemma same_tables_in_use m m' D f :
  D mod 4096 = 0 -> same_tables m m' D -> in_use m' D f -> in_use m D f.
Proof.
  intros HD Hs [[Hf|(i & Hi & Hp & Hf)]|(va & a & Hva & Ha & Hp & Hf)]; [left; by left | |].
  - left. right. exists i. by rewrite (same_on_pde _ _ _ _ (proj1 Hs)) in Hp, Hf.
  - right. rewrite (same_tables_addr m) in Ha by done. rewrite (proj2 Hs va) in Hp, Hf by done.
    by exists va, a.
Qed.

(** Filling a page that is no table. *)
Lemma fill_page m m' D f g :
  D mod 4096 = 0 -> ~ table_frame m D f -> page_is m m' (f * 4096) g -> same_tables m m' D.
Proof.
  intros HD Hf [Hs _].
  assert (f * 4096 / 4096 = f) as Hff by lia.
  assert (D / 4096 <> f) as HDf by (intros He; apply Hf; by left).
  split; [eapply same_page_dir; [done | lia | done | by rewrite Hff] |].
  intros va a Hva Ha. pose proof (pte_addr_table_frame _ _ _ _ Hva Ha) as Ht.
  destruct (pte_addr_range _ _ _ _ Ha Hva) as (Ha4 & _). unfold read_pte. f_equal.
  eapply same_page_word; [done | lia | done |]. rewrite Hff. by intros Heq; rewrite Heq in Ht.
Qed.

(** Writing an entry of a page table that is not the directory. *)
Lemma store_in_use m D va P p f :
  D mod 4096 = 0 -> is_u32 va -> pte_addr m D va = Some P -> P / 4096 <> D / 4096 -> pte_wf p ->
  in_use (store32 m P (pte_encode p)) D f -> in_use m D f \/ f = frame p /\ is_present p = true.
Proof.
  intros HD Hva HP Hne Hp Hu. destruct (pte_addr_range _ _ _ _ HP Hva) as (HP4 & _).
  assert (forall i, 0 <= i < 1024 ->
    read_pte (store32 m P (pte_encode p)) (D + 4 * i) = read_pte m (D + 4 * i)) as Hpde
    by (intros i Hi; apply read_pte_store_ne; [done | lia | intros ->; apply Hne; lia]).
  destruct Hu as [[Hf|(i & Hi & Hpr & Hf)]|(va' & a & Hva' & Ha & Hpr & Hf)].
  - left; left; by left.
  - left. left. right. exists i. by rewrite Hpde in Hpr, Hf.
  - rewrite pte_addr_store in Ha by done. destruct (pte_addr_range _ _ _ _ Ha Hva') as (Ha4 & _).
    destruct (decide (a = P)) as [->|].
    + rewrite read_pte_store_same in Hpr, Hf by done. by right.
    + rewrite read_pte_store_ne in Hpr, Hf by done. left. right. by exists va', a.
Qed.

(** ** A new page table

    Entry [i] of the directory, absent in [m], points to frame [f], cleared. *)

Record new_table (m m' : mem) (D i f : Z) : Prop := {
  nt_index : 0 <= i < 1024;
  nt_absent : is_present (read_pte m (D + 4 * i)) = false;
  nt_entry : read_pte m' (D + 4 * i) = pte_map (read_pte m (D + 4 * i)) f;
  nt_same : forall a, a mod 4 = 0 -> a <> D + 4 * i -> a / 4096 <> f -> read_pte m' a = read_pte m a;
  nt_zero : forall a, a mod 4 = 0 -> a / 4096 = f -> is_present (read_pte m' a) = false;
  nt_bytes : forall b, b / 4096 <> f -> b / 4096 <> D / 4096 -> load8 m' b = load8 m b
}.

Section new_table.
Context (m m' : mem) (D i f : Z).
Hypothesis Hdir : dir_ok m D.
Hypothesis Hnew : new_table m m' D i f.
Hypothesis Hfresh : ~ in_use m D f.
Hypothesis Hrange : 0 <= f < 1048576.

Lemma nt_not_dir : D / 4096 <> f.
Proof. intros He. apply Hfresh. left. by left. Qed.

Lemma nt_not_self : i <> 769.
Proof.
  intros He. destruct Hnew as [_ Ha _ _ _ _]. rewrite He in Ha.
  pose proof (do_present _ _ Hdir). congruence.
Qed.

Lemma nt_pde j : 0 <= j < 1024 -> j <> i -> read_pte m' (D + 4 * j) = read_pte m (D + 4 * j).
Proof.
  intros Hj Hne. pose proof nt_not_dir. destruct Hnew, Hdir. apply nt_same0; lia.
Qed.

Lemma nt_dir_ok : dir_ok m' D.
Proof.
  pose proof nt_not_self. destruct Hdir. constructor; rewrite ?nt_pde by lia; done.
Qed.

Lemma nt_pte_addr va :
  is_u32 va ->
  pte_addr m' D va = if decide (va / 4194304 = i) then Some (f * 4096 + 4 * (va / 4096 mod 1024))
                     else pte_addr m D va.
Proof.
  intros Hva. unfold pte_addr, pde_addr. case_decide as Hi.
  - rewrite Hi, (nt_entry _ _ _ _ _ Hnew). cbn [is_present pte_map present frame].
    rewrite (Z.mod_small f) by lia. done.
  - by rewrite nt_pde by (done || by apply pde_index).
Qed.

(** An entry of an old table, the new directory entry apart. *)
Lemma nt_old_entry va a :
  is_u32 va -> pte_addr m D va = Some a -> a <> D + 4 * i -> read_pte m' a = read_pte m a.
Proof.
  intros Hva Ha Hne. destruct (pte_addr_range _ _ _ _ Ha Hva) as (Ha4 & _).
  apply (nt_same _ _ _ _ _ Hnew); [done | done |]. intros He. apply Hfresh. left.
  rewrite <- He. by eapply pte_addr_table_frame.
Qed.

Lemma nt_translate va pa :
  is_u32 va -> translate m D va = Some pa -> translate m' D va = Some pa.
Proof.
  intros Hva. rewrite !translate_tr, nt_pte_addr by done.
  pose proof (nt_absent _ _ _ _ _ Hnew) as Habs. case_decide as Hi.
  - unfold pte_addr, pde_addr. by rewrite Hi, Habs.
  - destruct (pte_addr m D va) as [a|] eqn:Ha; [|done]. cbn [mbind option_bind].
    destruct (decide (a = D + 4 * i)) as [->|]; [unfold tr_of; by rewrite Habs |].
    by rewrite (nt_old_entry va).
Qed.

Lemma nt_in_use g : in_use m' D g -> in_use m D g \/ g = f.
Proof.
  assert (frame (read_pte m' (D + 4 * i)) = f) as Hfr.
  { rewrite (nt_entry _ _ _ _ _ Hnew). cbn. by apply Z.mod_small. }
  intros [[Hg|(j & Hj & Hp & Hg)]|(va & a & Hva & Ha & Hp & Hg)].
  - left; left; by left.
  - destruct (decide (j = i)) as [->|]; [right; congruence |].
    rewrite nt_pde in Hp, Hg by done. left; left; right. by exists j.
  - destruct (decide (a = D + 4 * i)) as [->|]; [right; congruence |].
    destruct (pte_addr_range _ _ _ _ Ha Hva) as (Ha4 & _). rewrite nt_pte_addr in Ha by done.
    case_decide as Hi.
    + injection Ha as <-. rewrite (nt_zero _ _ _ _ _ Hnew) in Hp; [done | done | lia].
    + rewrite (nt_old_entry va) in Hp, Hg by done. left; right. by exists va, a.
Qed.

Lemma nt_mapped_mono g : mapped_frame m D g -> mapped_frame m' D g.
Proof.
  intros (va & a & Hva & Ha & Hp & Hg). pose proof (nt_absent _ _ _ _ _ Hnew) as Habs.
  assert (read_pte m' a = read_pte m a) as Hr
    by (apply (nt_old_entry va); [done | done | intros ->; congruence]).
  exists va, a. rewrite Hr, nt_pte_addr by done. rewrite decide_False; [done |].
  intros <-. apply pte_addr_Some in Ha. unfold pde_addr in Ha. congruence.
Qed.

Lemma nt_table_frame g : table_frame m' D g <-> table_frame m D g \/ g = f.
Proof.
  assert (frame (read_pte m' (D + 4 * i)) = f) as Hfr.
  { rewrite (nt_entry _ _ _ _ _ Hnew). cbn. by apply Z.mod_small. }
  split.
  - intros [Hg|(j & Hj & Hp & Hg)]; [left; by left |].
    destruct (decide (j = i)) as [->|]; [right; congruence |].
    rewrite nt_pde in Hp, Hg by done. left; right. by exists j.
  - intros [[Hg|(j & Hj & Hp & Hg)]| ->]; [by left | |].
    + right. exists j. rewrite nt_pde; [done | done |]. intros ->.
      pose proof (nt_absent _ _ _ _ _ Hnew). congruence.
    + right. exists i. rewrite Hfr, (nt_entry _ _ _ _ _ Hnew). split; [apply Hnew | done].
Qed.
End new_table.

(** ** The invariant *)

Section space.
Context {A : Type} `{AlignedAllocator A}.
Abbreviation paging := (paging (A := A)).

Record frames_wf (f : frames) (ws : list Z) : Prop := {
  fw_bits : bm_wf (fr_words f) (fr_map f) ws;
  fw_lock : unlocked (fr_lock f);
  fw_num : 32 * Z.of_nat (length ws) <= 1048576
}.

(** Only entry 769 maps the directory, and every frame in use is marked. *)
Record space (s : paging) (ws : list Z) : Prop := {
  sp_cr3 : p_cr3 s = p_crt s;
  sp_dir : dir_ok (p_mem s) (p_crt s);
  sp_self : forall i, 0 <= i < 1024 -> i <> 769 ->
    is_present (read_pte (p_mem s) (p_crt s + 4 * i)) = true ->
    frame (read_pte (p_mem s) (p_crt s + 4 * i)) <> p_crt s / 4096;
  sp_frames : frames_wf (p_frames s) ws;
  sp_used : forall f, in_use (p_mem s) (p_crt s) f -> in_bits ws f -> bit_of ws f = true
}.

(** [ws'] marks the frames [fs] besides those of [ws]. *)
Definition marked (ws ws' : list Z) (fs : list Z) : Prop :=
  length ws' = length ws /\
  forall c, in_bits ws c -> bit_of ws' c = bool_decide (c ∈ fs) || bit_of ws c.

Lemma marked_bits ws ws' fs c : marked ws ws' fs -> in_bits ws' c <-> in_bits ws c.
Proof. intros [Hl _]. unfold in_bits. by rewrite Hl. Qed.

Lemma marked_trans ws ws1 ws2 fs gs : marked ws ws1 fs -> marked ws1 ws2 gs -> marked ws ws2 (fs ++ gs).
Proof.
  intros H1 H2. split; [rewrite (proj1 H2); apply H1 |]. intros c Hc.
  rewrite (proj2 H2), (proj2 H1) by (done || by eapply marked_bits). rewrite orb_assoc. f_equal.
  apply eq_true_iff_eq. rewrite orb_true_iff, !bool_decide_eq_true, elem_of_app. tauto.
Qed.

Lemma marked_old ws ws' fs c : marked ws ws' fs -> in_bits ws c -> bit_of ws c = true -> bit_of ws' c = true.
Proof. intros [_ Hm] Hc Hb. rewrite Hm, Hb by done. apply orb_true_r. Qed.

Lemma marked_new ws ws' fs c : marked ws ws' fs -> in_bits ws c -> c ∈ fs -> bit_of ws' c = true.
Proof. intros [_ Hm] Hc Hb. by rewrite Hm, bool_decide_true by done. Qed.

Definition free_frame (ws : list Z) (f : Z) : Prop := in_bits ws f /\ bit_of ws f = false.

Lemma free_not_used s ws f : space s ws -> free_frame ws f -> ~ in_use (p_mem s) (p_crt s) f.
Proof. intros [] [Hi Hb] Hu. rewrite sp_used0 in Hb by done. done. Qed.

Lemma need_frame_spec (s : paging) ws :
  frames_wf (p_frames s) ws ->
  (need_frame s = Panic /\ forall c, in_bits ws c -> bit_of ws c = true) \/
  exists f fr ws', need_frame s = Ok (set_frames s fr, f) /\ free_frame ws f /\
    frames_wf fr ws' /\ marked ws ws' [f] /\ 0 <= f < 1048576.
Proof.
  intros [Hb Hl Hn]. unfold need_frame, allocate_phy_frame. rewrite lock_unlocked by done.
  cbn [mbind outcome_bind].
  destruct (bitmap_allocate_first_free_spec _ _ _ Hb) as [(b & st' & ws' & -> & Hc & Hs & Hwf & Hlen & Hbits)|[-> Hc]];
    cbn [mbind outcome_bind].
  - right. destruct Hc as (Hin & Hb0 & Hf & _).
    assert (0 <= b < 1048576) as Hbr by (unfold in_bits in Hin; lia).
    rewrite s32_small by (unfold is_s32; lia). rewrite (proj2 (Z.ltb_ge _ _)) by lia.
    exists b, {| fr_words := st'; fr_map := fr_map (p_frames s); fr_lock := yieldlock_init |}, ws'.
    split_and!; try done; try lia.
    + constructor; cbn; [done | done | by rewrite Hlen].
    + split; [done |]. intros c Hcb. rewrite Hbits by done. f_equal. apply bool_decide_ext. by rewrite list_elem_of_singleton.
  - left. split; [done |]. intros c Hcb. apply Hc; [|done]. unfold in_bits in Hcb. lia.
Qed.

Lemma reload_id (s : paging) : p_cr3 s = p_crt s -> reload_page_directory s (p_crt s) = s.
Proof. destruct s. unfold reload_page_directory, set_cr3. cbn. by intros ->. Qed.

Lemma space_dir (s : paging) ws : space s ws -> dir_ok (p_mem s) (p_cr3 s).
Proof. intros []. by rewrite sp_cr4. Qed.

(** Entries through the recursive mapping. *)
Lemma get_pte_dir (s : paging) i :
  dir_ok (p_mem s) (p_cr3 s) -> 0 <= i < 1024 ->
  get_pte s (PAGE_DIR_VIRTUAL + 4 * i) = Ok (read_pte (p_mem s) (p_cr3 s + 4 * i)).
Proof. intros Hd Hi. unfold get_pte, vload32. by rewrite translate_dir. Qed.

Lemma put_pte_dir (s : paging) i p :
  dir_ok (p_mem s) (p_cr3 s) -> 0 <= i < 1024 ->
  put_pte s (PAGE_DIR_VIRTUAL + 4 * i) p =
  Ok (set_mem s (store32 (p_mem s) (p_cr3 s + 4 * i) (pte_encode p))).
Proof. intros Hd Hi. unfold put_pte, vstore32. by rewrite translate_dir. Qed.

Lemma get_pte_table (s : paging) va a :
  dir_ok (p_mem s) (p_cr3 s) -> is_u32 va -> pte_addr (p_mem s) (p_cr3 s) va = Some a ->
  get_pte s (PAGE_TABLES_VIRTUAL + 4 * (va / 4096)) = Ok (read_pte (p_mem s) a).
Proof. intros Hd Hva Ha. unfold get_pte, vload32. by rewrite translate_table, Ha. Qed.

Lemma put_pte_table (s : paging) va a p :
  dir_ok (p_mem s) (p_cr3 s) -> is_u32 va -> pte_addr (p_mem s) (p_cr3 s) va = Some a ->
  put_pte s (PAGE_TABLES_VIRTUAL + 4 * (va / 4096)) p =
  Ok (set_mem s (store32 (p_mem s) a (pte_encode p))).
Proof. intros Hd Hva Ha. unfold put_pte, vstore32. by rewrite translate_table, Ha. Qed.

Lemma set_mem_set_mem (s : paging) m m' : set_mem (set_mem s m) m' = set_mem s m'.
Proof. done. Qed.

(** [clear_page] of a page of the table window. *)
Lemma store_new_table (s : paging) D i f :
  p_cr3 s = D -> dir_ok (p_mem s) D -> 0 <= i < 1024 -> 0 <= f < 1048576 ->
  is_present (read_pte (p_mem s) (D + 4 * i)) = false -> ~ in_use (p_mem s) D f ->
  exists m', clear_page (set_mem s (store32 (p_mem s) (D + 4 * i)
                (pte_encode (pte_map (read_pte (p_mem s) (D + 4 * i)) f))))
              (PAGE_TABLES_VIRTUAL + i * PAGE_SIZE) = Ok (set_mem s m') /\
    new_table (p_mem s) m' D i f.
Proof.
  intros HD Hd Hi Hf Habs Hfresh. set (e := pte_map _ _). set (m1 := store32 _ _ _).
  pose proof (do_aligned _ _ Hd) as HDa.
  assert (D / 4096 <> f) as HDf by (intros He; apply Hfresh; left; by left).
  assert (pte_wf e) as He by apply pte_map_wf, read_pte_wf.
  assert (read_pte m1 (D + 4 * i) = e) as Hre by by apply read_pte_store_same.
  assert (forall a, a mod 4 = 0 -> a <> D + 4 * i -> read_pte m1 a = read_pte (p_mem s) a) as Hrne
    by (intros a Ha Hne; apply read_pte_store_ne; [lia | done | done]).
  assert (dir_ok m1 D) as Hd1.
  { destruct Hd. constructor; rewrite ?Hrne; try done; try lia;
      intros ?; assert (i = 769) by lia; congruence. }
  destruct (clear_page_spec (set_mem s m1) (PAGE_TABLES_VIRTUAL + i * 4096) (D + 4 * i) (f * 4096))
    as (m' & Hc & Hs & Hz).
  { cbn. rewrite HD. constructor; try done.
    - unfold is_u32, PAGE_TABLES_VIRTUAL. lia.
    - by apply translate_table_page.
    - by rewrite Hre.
    - rewrite Hre. unfold e. cbn. by rewrite Z.mod_small.
    - by rewrite Z.div_mul.
    - rewrite Z.div_mul by done. intros ?; apply HDf. lia. }
  exists m'. split; [done |]. cbn in Hs, Hz.
  assert (forall a, a mod 4 = 0 -> a / 4096 <> f -> read_pte m' a = read_pte m1 a) as Hout.
  { intros a Ha Hne. unfold read_pte. f_equal. eapply same_page_word; [done | lia | done | lia]. }
  constructor; [done | done | rewrite Hout; [done | lia | lia] | | |].
  - intros a Ha Hne Hna. by rewrite Hout, Hrne.
  - intros a Ha Haf. unfold read_pte.
    replace a with (f * 4096 + a mod 4096) by lia.
    rewrite (page_zero_word m1 m' (f * 4096)); [done | split; done | lia | lia].
  - intros b Hb HbD. rewrite Hs by lia. unfold m1. rewrite load8_store32_ne by lia. done.
Qed.

Lemma need_table_spec (s : paging) ws i :
  space s ws -> 0 <= i < 1024 -> is_present (read_pte (p_mem s) (p_crt s + 4 * i)) = false ->
  (need_table s i = Panic /\ forall c, in_bits ws c -> bit_of ws c = true) \/
  exists f fr ws' m', need_table s i = Ok (set_mem (set_frames s fr) m') /\
    free_frame ws f /\ 0 <= f < 1048576 /\ marked ws ws' [f] /\
    new_table (p_mem s) m' (p_crt s) i f /\ space (set_mem (set_frames s fr) m') ws'.
Proof.
  intros Hsp Hi Habs. pose proof Hsp as []. unfold need_table.
  rewrite get_pte_dir by (by rewrite ?sp_cr4). cbn [mbind outcome_bind]. rewrite sp_cr4, Habs. cbn [negb].
  destruct (need_frame_spec s ws sp_frames0) as [[-> Hfull]|(f & fr & ws' & -> & Hf & Hfr & Hm & Hr)];
    [by left | right].
  cbn [mbind outcome_bind]. rewrite put_pte_dir by (cbn; by rewrite ?sp_cr4).
  cbn [mbind outcome_bind]. rewrite reload_id by done. cbn [p_mem p_cr3 set_frames]. rewrite sp_cr4.
  pose proof (free_not_used s ws f Hsp Hf) as Hnu.
  destruct (store_new_table (set_frames s fr) (p_crt s) i f) as (m' & Hc & Hnt); try done.
  cbn [p_mem set_frames] in Hc. rewrite Hc. exists f, fr, ws', m'. split_and!; try done; try lia.
  constructor; try done; cbn.
  - by apply (nt_dir_ok (p_mem s) m' (p_crt s) i f).
  - intros j Hj Hne. destruct (decide (j = i)) as [->|].
    + rewrite (nt_entry _ _ _ _ _ Hnt). cbn. rewrite Z.mod_small by done. intros _ Heq.
      apply Hnu. left. by left.
    + rewrite (nt_pde (p_mem s) m' (p_crt s) i f) by done. by apply sp_self0.
  - intros g Hg Hgb. pose proof (proj1 (marked_bits _ _ _ _ Hm) Hgb) as Hgb'.
    destruct (nt_in_use (p_mem s) m' (p_crt s) i f sp_dir0 Hnt Hnu Hr g Hg) as [Hu| ->].
    + eapply marked_old; [done | done | by apply sp_used0].
    + eapply marked_new; [done | done | by left].
Qed.
End space.
