(* ===== verification/PagingFault.v ===== *)
(** * Paging: the page fault

    [map_page] on a page that is not present, and on copy-on-write pages. *)

From S2P Require Import Prelude.
From S2P Require Import Memory.
From S2P Require Import YieldLock.
From S2P Require Import KHeap.
From S2P Require Import Allocator.
From S2P Require Import Bitmap.
From S2P Require Import MathRand.
From S2P Require Import HashTable.
From S2P Require Import Paging.
From S2P Require Import PagingInv.
From S2P Require Import PagingMap.

Section fault.
Context {A : Type} `{AlignedAllocator A}.
Abbreviation paging := (paging (A := A)).

(** ** Steps that keep the invariant *)

(** The entry of [va] is in a page table. *)
Record entry_of (s : paging) (va a : Z) : Prop := {
  eo_va : is_u32 va;
  eo_addr : pte_addr (p_mem s) (p_crt s) va = Some a;
  eo_table : a / 4096 <> p_crt s / 4096
}.

(** Outside the window of the page tables it is. *)
Lemma entry_outside (s : paging) ws va a :
  space s ws -> is_u32 va -> va / 4194304 <> 769 -> pte_addr (p_mem s) (p_crt s) va = Some a ->
  entry_of s va a.
Proof.
  intros [] Hva Hne Ha. constructor; [done | done |].
  destruct (pte_addr_range _ _ _ _ Ha Hva) as (_ & -> & _). unfold pde_addr.
  apply sp_self; [by apply pde_index | done | by eapply pte_addr_Some].
Qed.

Lemma entry_aligned (s : paging) va a : entry_of s va a -> a mod 4 = 0.
Proof. intros []. by destruct (pte_addr_range _ _ _ _ eo_addr0 eo_va0). Qed.

Lemma pde_store (s : paging) ws va a w i :
  space s ws -> entry_of s va a -> 0 <= i < 1024 ->
  read_pte (store32 (p_mem s) a w) (p_crt s + 4 * i) = read_pte (p_mem s) (p_crt s + 4 * i).
Proof.
  intros [] He Hi. pose proof (entry_aligned _ _ _ He). destruct He.
  pose proof (do_aligned _ _ sp_dir).
  apply read_pte_store_ne; [done | lia | intros ->; apply eo_table0; lia].
Qed.

Lemma space_store (s : paging) ws va a p :
  space s ws -> entry_of s va a -> pte_wf p ->
  (is_present p = true -> in_bits ws (frame p) -> bit_of ws (frame p) = true) ->
  space (set_mem s (store32 (p_mem s) a (pte_encode p))) ws.
Proof.
  intros Hsp He Hp Hf. pose proof (entry_aligned _ _ _ He). pose proof He as [Hva Ha Hne].
  pose proof Hsp as []. pose proof (do_aligned _ _ sp_dir).
  constructor; try done; cbn.
  - by apply dir_ok_store.
  - intros i Hi. rewrite (pde_store s ws va) by done. by apply sp_self.
  - intros g Hg Hin.
    destruct (store_in_use (p_mem s) (p_crt s) va a p g) as [Hu|[-> Hpr]]; auto.
Qed.

Lemma space_same (s : paging) ws m' :
  space s ws -> same_tables (p_mem s) m' (p_crt s) -> space (set_mem s m') ws.
Proof.
  intros [] Hs. pose proof (do_aligned _ _ sp_dir). constructor; try done; cbn.
  - by apply (dir_ok_same (p_mem s)), sp_dir; apply Hs.
  - intros i Hi. rewrite (same_on_pde (p_mem s)) by (apply Hs || done). by apply sp_self.
  - intros g Hg. apply sp_used. by apply (same_tables_in_use (p_mem s) m').
Qed.

Lemma space_frames (s : paging) ws fr ws' fs :
  space s ws -> frames_wf fr ws' -> marked ws ws' fs -> space (set_frames s fr) ws'.
Proof.
  intros [] Hfr Hm. constructor; try done; cbn. intros g Hg Hin.
  pose proof (proj1 (marked_bits _ _ _ _ Hm) Hin). eapply marked_old; [done | done | by apply sp_used].
Qed.

Lemma store_table_frame (s : paging) ws va a w f :
  space s ws -> entry_of s va a ->
  table_frame (store32 (p_mem s) a w) (p_crt s) f -> table_frame (p_mem s) (p_crt s) f.
Proof.
  intros Hsp He [Hf|(i & Hi & Hp & Hf)]; [by left | right]. exists i.
  by rewrite (pde_store s ws va) in Hp, Hf by done.
Qed.

(** ** A fresh page *)

(** The entry at [a] was changed to [p], page [f] filled with [g], and the
    tables are otherwise the same. *)
Record remapped (m m' : mem) (D a : Z) (p : pte_t) (f : Z) (g : Z -> Z) : Prop := {
  rm_entry : read_pte m' a = p;
  rm_addr : forall va, is_u32 va -> pte_addr m' D va = pte_addr m D va;
  rm_other : forall va b, is_u32 va -> pte_addr m D va = Some b -> b <> a -> read_pte m' b = read_pte m b;
  rm_page : forall o, 0 <= o < 4096 -> load8 m' (f * 4096 + o) = g o;
  rm_bytes : forall b, b / 4096 <> f -> b / 4096 <> a / 4096 -> load8 m' b = load8 m b
}.

Lemma map_fresh_spec (s : paging) ws va a :
  space s ws -> entry_of s va a -> is_present (read_pte (p_mem s) a) = false ->
  let r := map_fresh s va (PAGE_TABLES_VIRTUAL + 4 * (va / 4096)) (read_pte (p_mem s) a) in
  (r = Panic /\ forall c, in_bits ws c -> bit_of ws c = true) \/
  exists f fr ws' m', r = Ok (set_mem (set_frames s fr) m') /\
    free_frame ws f /\ 0 <= f < 1048576 /\ marked ws ws' [f] /\
    remapped (p_mem s) m' (p_crt s) a (pte_map (read_pte (p_mem s) a) f) f (fun _ => 0) /\
    space (set_mem (set_frames s fr) m') ws'.
Proof.
  intros Hsp He Habs r. pose proof (entry_aligned _ _ _ He) as Ha4. pose proof He as [Hva Ha Hne].
  pose proof Hsp as []. pose proof (do_aligned _ _ sp_dir) as HDa. unfold r, map_fresh. clear r.
  destruct (need_frame_spec s ws sp_frames) as [[-> Hfull]|(f & fr & ws' & -> & Hf & Hfr & Hm & Hr)];
    [by left | right].
  cbn [mbind outcome_bind]. pose proof (free_not_used s ws f Hsp Hf) as Hnu.
  set (e := pte_map (read_pte (p_mem s) a) f). set (m1 := store32 (p_mem s) a (pte_encode e)).
  assert (pte_wf e) as Hwe by apply pte_map_wf, read_pte_wf.
  assert (frame e = f) as Hfe by (cbn; by apply Z.mod_small).
  rewrite (put_pte_table _ va a) by (cbn; by rewrite ?sp_cr3). cbn [p_mem set_frames].
  fold m1. cbn [mbind outcome_bind]. rewrite reload_id by done.
  assert (space (set_frames s fr) ws') as Hsp1 by by eapply space_frames.
  assert (space (set_mem (set_frames s fr) m1) ws') as Hsp2.
  { apply (space_store (set_frames s fr) _ va); [done | by constructor | done |]. rewrite Hfe. intros _ Hin.
    eapply marked_new; [done | by rewrite <- (marked_bits _ _ _ _ Hm) | by left]. }
  assert (~ table_frame m1 (p_crt s) f) as Hnt
    by (intros Ht; apply Hnu; left; by eapply store_table_frame).
  assert (D_f : p_crt s / 4096 <> f) by (intros Hd; apply Hnu; left; by left).
  assert (a / 4096 <> f) as Haf
    by (intros Hd; apply Hnu; left; rewrite <- Hd; by eapply pte_addr_table_frame).
  assert (read_pte m1 a = e) as Hre by by apply read_pte_store_same.
  destruct (clear_page_spec (set_mem (set_frames s fr) m1) va a (f * 4096)) as (m' & -> & Hpage).
  { cbn. rewrite sp_cr3. constructor; rewrite ?Hre, ?Z.div_mul; try done.
    - by unfold m1; rewrite pte_addr_store.
    - by rewrite Hfe. }
  cbn [p_mem set_mem] in Hpage. pose proof (fill_page _ _ _ _ _ HDa Hnt Hpage) as Hst.
  assert (forall b, is_u32 b -> pte_addr m' (p_crt s) b = pte_addr (p_mem s) (p_crt s) b) as Haddr
    by (intros b Hb; rewrite (same_tables_addr m1) by done; unfold m1; by rewrite pte_addr_store).
  exists f, fr, ws', m'. split_and!; try done; try lia; [|by apply (space_same (set_mem (set_frames s fr) m1))].
  constructor; try done.
  - fold e. rewrite <- Hre. apply (proj2 Hst va); [done |]. unfold m1. by rewrite pte_addr_store.
  - intros va' b Hva' Hb Hba. rewrite (proj2 Hst va') by (done || unfold m1; by rewrite pte_addr_store).
    destruct (pte_addr_range _ _ _ _ Hb Hva') as (Hb4 & _). by apply read_pte_store_ne.
  - apply Hpage.
  - intros b Hb Hba. rewrite (proj1 Hpage) by lia. unfold m1. rewrite load8_store32_ne by lia. done.
Qed.

(** ** The lock of the address space *)

Definition dir_lock_free (s : paging) : Prop := p_multi s = true -> unlocked (p_dir_lock s).

Definition with_dir_lock (s : paging) (l : yieldlock_t) : paging :=
  if p_multi s then set_locks s (p_copy_lock s) l else s.

Lemma map_page_with_frame_eq (s : paging) va f s' :
  dir_lock_free s -> map_page_with_frame_impl MAP_FUEL (with_dir_lock s locked) va f = Ok s' ->
  map_page_with_frame s va f = Ok (with_dir_lock s' yieldlock_init).
Proof.
  intros Hl. unfold map_page_with_frame, with_dir_lock. destruct (p_multi s) eqn:Hm.
  - rewrite lock_unlocked by by apply Hl. cbn [mbind outcome_bind]. by intros ->.
  - cbn [mbind outcome_bind]. by intros ->.
Qed.

Lemma space_with_lock (s : paging) ws l : space s ws <-> space (with_dir_lock s l) ws.
Proof. unfold with_dir_lock. destruct (p_multi s); [|done]. split; intros []; by constructor. Qed.

Lemma with_lock_same (s : paging) l :
  p_mem (with_dir_lock s l) = p_mem s /\ p_crt (with_dir_lock s l) = p_crt s /\
  p_cr3 (with_dir_lock s l) = p_cr3 s /\ p_frames (with_dir_lock s l) = p_frames s /\
  p_cow (with_dir_lock s l) = p_cow s.
Proof. unfold with_dir_lock. by destruct (p_multi s). Qed.

(** ** A fault on an absent page *)

(** The page of [va] is frame [f], zeroed; the frames [fs] were taken for it;
    every page mapped before is mapped to the same frame and, unless that
    holds tables, has the same contents. *)
Record mapped_fresh (s : paging) (ws : list Z) (va : Z) (s' : paging) (ws' fs : list Z) (f : Z) :
    Prop := {
  mf_space : space s' ws';
  mf_marked : marked ws ws' fs;
  mf_free : Forall (free_frame ws) fs;
  mf_maps : forall o, 0 <= o < 4096 -> p_translate s' (va / 4096 * 4096 + o) = Some (f * 4096 + o);
  mf_rw : exists a, pte_addr (p_mem s') (p_crt s') va = Some a /\ rw (read_pte (p_mem s') a) = 1;
  mf_zero : forall o, 0 <= o < 4096 -> load8 (p_mem s') (f * 4096 + o) = 0;
  mf_kept : forall va' pa, is_u32 va' -> p_translate s va' = Some pa -> p_translate s' va' = Some pa;
  mf_bytes : forall b, in_use (p_mem s) (p_crt s) (b / 4096) ->
    ~ table_frame (p_mem s) (p_crt s) (b / 4096) -> load8 (p_mem s') b = load8 (p_mem s) b;
  mf_crt : p_crt s' = p_crt s;
  mf_frame : f ∈ fs;
  mf_data : ~ table_frame (p_mem s') (p_crt s) f;
  mf_pde : forall j, 0 <= j < 1024 ->
    j <> va / 4194304 \/ is_present (read_pte (p_mem s) (p_crt s + 4 * j)) = true ->
    read_pte (p_mem s') (p_crt s + 4 * j) = read_pte (p_mem s) (p_crt s + 4 * j);
  mf_table : is_present (read_pte (p_mem s) (pde_addr (p_crt s) va)) = false ->
    frame (read_pte (p_mem s') (pde_addr (p_crt s) va)) ∈ fs;
  mf_other : forall va', is_u32 va' -> va' / 4194304 <> 769 -> va' / 4096 <> va / 4096 ->
    (va' / 4194304 <> va / 4194304 -> is_present (read_pte (p_mem s) (pde_addr (p_crt s) va)) = true ->
       is_present (read_pte (p_mem s) (pde_addr (p_crt s) va')) = true ->
       frame (read_pte (p_mem s) (pde_addr (p_crt s) va')) <> frame (read_pte (p_mem s) (pde_addr (p_crt s) va))) ->
    mapping (p_mem s') (p_crt s') va' = mapping (p_mem s) (p_crt s) va'
}.

(** Entries of different pages are different words, unless two entries of
    the directory share a table. *)
Lemma entries_apart m D va va' a b :
  is_u32 va -> is_u32 va' -> pte_addr m D va = Some a -> pte_addr m D va' = Some b ->
  va' / 4096 <> va / 4096 ->
  (va' / 4194304 <> va / 4194304 -> frame (read_pte m (pde_addr D va')) <> frame (read_pte m (pde_addr D va))) ->
  b <> a.
Proof.
  intros Hva Hva' Ha Hb Hne Hap.
  destruct (pte_addr_range _ _ _ _ Ha Hva) as (_ & _ & Ea). destruct (pte_addr_range _ _ _ _ Hb Hva') as (_ & _ & Eb).
  destruct (decide (va' / 4194304 = va / 4194304)) as [He|Hd].
  - assert (pde_addr D va' = pde_addr D va) as Hp by (unfold pde_addr; by rewrite He).
    rewrite Hp in Eb. lia.
  - specialize (Hap Hd). lia.
Qed.

Definition two_free (ws : list Z) : Prop :=
  exists c d, c <> d /\ free_frame ws c /\ free_frame ws d.

Lemma remapped_kept m m' D a p f g va pa :
  is_present (read_pte m a) = false -> remapped m m' D a p f g ->
  is_u32 va -> translate m D va = Some pa -> translate m' D va = Some pa.
Proof.
  intros Habs [] Hva. rewrite !translate_tr, rm_addr0 by done.
  destruct (pte_addr m D va) as [b|] eqn:Hb; [|done]. cbn [mbind option_bind].
  destruct (decide (b = a)) as [->|]; [unfold tr_of; by rewrite Habs |].
  by rewrite (rm_other0 va).
Qed.

Lemma remapped_translate m m' D a p f g va o :
  is_u32 va -> pte_addr m D va = Some a -> remapped m m' D a p f g -> is_present p = true ->
  0 <= o < 4096 -> translate m' D (va / 4096 * 4096 + o) = Some (frame p * 4096 + o).
Proof.
  intros Hva Ha [] Hp Ho. rewrite translate_tr, pte_addr_page, pte_addr_base, rm_addr0, Ha by (done || lia).
  cbn [mbind option_bind]. rewrite rm_entry0. unfold tr_of. rewrite Hp. f_equal. lia.
Qed.

Lemma free_before ws ws' fs f : marked ws ws' fs -> free_frame ws' f -> free_frame ws f /\ f ∉ fs.
Proof.
  intros Hm [Hi Hb]. pose proof (proj1 (marked_bits _ _ _ _ Hm) Hi) as Hi'.
  rewrite (proj2 Hm) in Hb by done. apply orb_false_iff in Hb as [Hb Hb'].
  split; [done |]. by apply bool_decide_eq_false in Hb.
Qed.

Lemma remapped_pde (s : paging) ws a f p g m' j :
  space s ws -> a / 4096 <> p_crt s / 4096 -> f <> p_crt s / 4096 ->
  remapped (p_mem s) m' (p_crt s) a p f g -> 0 <= j < 1024 ->
  read_pte m' (p_crt s + 4 * j) = read_pte (p_mem s) (p_crt s + 4 * j).
Proof.
  intros [] Ha Hf [] Hj. pose proof (do_aligned _ _ sp_dir). unfold read_pte, load32.
  rewrite !rm_bytes0 by lia. done.
Qed.

(** The page table is there. *)
Lemma fault_with_table (s : paging) ws va a :
  space s ws -> entry_of s va a -> is_present (read_pte (p_mem s) a) = false ->
  let r := map_fresh s va (PAGE_TABLES_VIRTUAL + 4 * (va / 4096)) (read_pte (p_mem s) a) in
  (r = Panic /\ forall c, in_bits ws c -> bit_of ws c = true) \/
  exists f fr ws' m', r = Ok (set_mem (set_frames s fr) m') /\
    mapped_fresh s ws va (set_mem (set_frames s fr) m') ws' [f] f.
Proof.
  intros Hsp He Habs r. pose proof (free_not_used s ws) as Hfn. pose proof Hsp as [].
  destruct (map_fresh_spec s ws va a Hsp He Habs)
    as [[Hr Hfull]|(f & fr & ws' & m' & Hr & Hf & Hfr & Hm & Hrm & Hsp')]; [by left | right].
  exists f, fr, ws', m'. split; [done |]. destruct He as [Hva Ha Hne].
  assert (frame (pte_map (read_pte (p_mem s) a) f) = f) as Hff by (cbn; by apply Z.mod_small).
  constructor; unfold p_translate; cbn; rewrite ?sp_cr3; try done.
  - by apply Forall_singleton.
  - intros o Ho. rewrite <- Hff at 1. by eapply remapped_translate.
  - exists a. rewrite (rm_addr _ _ _ _ _ _ _ Hrm), (rm_entry _ _ _ _ _ _ _ Hrm) by done. done.
  - by apply (rm_page _ _ _ _ _ _ _ Hrm).
  - intros va' pa Hva'. by eapply remapped_kept.
  - intros b Hb Hnt. apply (rm_bytes _ _ _ _ _ _ _ Hrm).
    + intros Heq. rewrite Heq in Hb. by apply (Hfn f Hsp Hf).
    + intros Heq. apply Hnt. rewrite Heq. by eapply pte_addr_table_frame.
  - by left.
  - intros [Hd|(j & Hj & Hp & Hjf)]; [apply (Hfn f Hsp Hf); left; by left |].
    assert (f <> p_crt s / 4096) as HfD by (intros Heq; apply (Hfn f Hsp Hf); left; by left).
    rewrite (remapped_pde s ws a f (pte_map (read_pte (p_mem s) a) f) (fun _ => 0) m') in Hp, Hjf by done.
    apply (Hfn f Hsp Hf). left. right. by exists j.
  - intros j Hj _. apply (remapped_pde s ws a f (pte_map (read_pte (p_mem s) a) f) (fun _ => 0)); try done.
    intros Heq. apply (Hfn f Hsp Hf). left. by left.
  - intros Hab. apply pte_addr_Some in Ha. congruence.
  - intros va' Hva' Ho Hne' Hap. unfold mapping. rewrite (rm_addr _ _ _ _ _ _ _ Hrm) by done.
    destruct (pte_addr (p_mem s) (p_crt s) va') as [b|] eqn:Hb; [|done]. cbn [mbind option_bind].
    rewrite (rm_other _ _ _ _ _ _ _ Hrm va'); [done | done | done |].
    eapply (entries_apart (p_mem s) (p_crt s) va va'); try done.
    intros Hd. apply Hap; [done | by eapply pte_addr_Some | by eapply pte_addr_Some].
Qed.

(** A new table for entry [i] changes no mapping outside the window of the
    tables. *)
Lemma nt_mapping_eq (s : paging) ws m1 i t va :
  space s ws -> new_table (p_mem s) m1 (p_crt s) i t -> ~ in_use (p_mem s) (p_crt s) t ->
  0 <= t < 1048576 -> is_u32 va -> va / 4194304 <> 769 ->
  mapping m1 (p_crt s) va = mapping (p_mem s) (p_crt s) va.
Proof.
  intros Hsp Hnt Hu Ht Hva Ho. pose proof Hsp as [].
  unfold mapping. rewrite (nt_pte_addr (p_mem s) m1 (p_crt s) i t) by done.
  pose proof (nt_absent _ _ _ _ _ Hnt) as Habs. case_decide as Hi.
  - unfold pte_addr, pde_addr. rewrite Hi, Habs. cbn [mbind option_bind].
    by rewrite (nt_zero _ _ _ _ _ Hnt) by lia.
  - destruct (pte_addr (p_mem s) (p_crt s) va) as [a|] eqn:Ha; [|done]. cbn [mbind option_bind].
    rewrite (nt_old_entry (p_mem s) m1 (p_crt s) i t Hnt Hu va a Hva Ha); [done |].
    intros Heq. destruct (pte_addr_range _ _ _ _ Ha Hva) as (_ & Hf & _).
    apply pte_addr_Some in Ha as Hp. pose proof (nt_index _ _ _ _ _ Hnt). pose proof (do_aligned _ _ sp_dir).
    apply (sp_self (va / 4194304)); [by apply pde_index | done | done |].
    unfold pde_addr in Hf. rewrite <- Hf, Heq. lia.
Qed.

(** The page table is missing as well: two frames are taken. *)
Lemma fault_without_table (s : paging) ws va (k : paging -> pte_t -> outcome paging) :
  space s ws -> is_u32 va -> pte_addr (p_mem s) (p_crt s) va = None ->
  let r := (s ← need_table s (va / 4194304);
            pte ← get_pte s (PAGE_TABLES_VIRTUAL + 4 * (va / 4096));
            if negb (is_present pte) then map_fresh s va (PAGE_TABLES_VIRTUAL + 4 * (va / 4096)) pte
            else k s pte) in
  (r = Panic /\ ~ two_free ws) \/
  exists t f fr ws' m', r = Ok (set_mem (set_frames s fr) m') /\
    mapped_fresh s ws va (set_mem (set_frames s fr) m') ws' [t; f] f.
Proof.
  intros Hsp Hva Hnone r. pose proof Hsp as [].
  assert (is_present (read_pte (p_mem s) (p_crt s + 4 * (va / 4194304))) = false) as Habs.
  { unfold pte_addr, pde_addr in Hnone. by destruct (is_present _). }
  destruct (need_table_spec s ws (va / 4194304) Hsp (pde_index va Hva) Habs)
    as [[Hr Hfull]|(t & fr1 & ws1 & m1 & Hr & Ht & Htr & Hm1 & Hnt & Hsp1)]; unfold r; rewrite Hr.
  { left. split; [done |]. intros (c & d & _ & [Hc Hcb] & _). rewrite Hfull in Hcb by done. done. }
  cbn [mbind outcome_bind]. clear r Hr. set (s1 := set_mem (set_frames s fr1) m1) in *.
  pose proof (free_not_used s ws t Hsp Ht) as Htu.
  set (a := t * 4096 + 4 * (va / 4096 mod 1024)).
  assert (pte_addr m1 (p_crt s) va = Some a) as Ha.
  { rewrite (nt_pte_addr (p_mem s) m1 (p_crt s) (va / 4194304) t) by done. by rewrite decide_True. }
  assert (is_present (read_pte (p_mem s1) a) = false) as Habs1
    by (apply (nt_zero _ _ _ _ _ Hnt); unfold a; lia).
  assert (entry_of s1 va a) as He.
  { constructor; [done | done |]. cbn. replace (a / 4096) with t by (unfold a; lia).
    apply not_eq_sym. by eapply nt_not_dir. }
  rewrite (get_pte_table s1 va a) 
    by (eapply space_dir, Hsp1 || done || by cbn; rewrite sp_cr3). cbn [mbind outcome_bind].
  rewrite Habs1. cbn [negb].
  destruct (fault_with_table s1 ws1 va a Hsp1 He Habs1) as [[-> Hfull]|(f & fr & ws' & m' & -> & Hmf)].
  { left. split; [done |]. intros (c & d & Hcd & [Hc Hcb] & [Hd Hdb]).
    pose proof (Hfull c (proj2 (marked_bits _ _ _ _ Hm1) Hc)) as H1.
    pose proof (Hfull d (proj2 (marked_bits _ _ _ _ Hm1) Hd)) as H2.
    rewrite (proj2 Hm1), Hcb in H1 by done. rewrite (proj2 Hm1), Hdb in H2 by done.
    rewrite orb_false_r, bool_decide_eq_true, list_elem_of_singleton in H1, H2. congruence. }
  right. exists t, f, fr, ws', m'. split; [done |].
  destruct Hmf as [Hsp' Hm' Hfree Hmaps Hrw Hzero Hkept Hbytes Hcrt Hfr Hdata Hpde Htab Hother].
  change (p_mem s1) with m1 in Hpde. change (p_crt s1) with (p_crt s) in Hpde.
  apply Forall_cons in Hfree as [Hfree _]. destruct (free_before _ _ _ _ Hm1 Hfree) as [Hf Hft].
  pose proof (free_not_used s1 ws1 f Hsp1 Hfree) as Hfu.
  constructor; try done.
  - by apply (marked_trans ws ws1 ws' [t] [f]).
  - by apply Forall_cons; split; [|apply Forall_singleton].
  - intros va' pa Hva' Htr'. apply Hkept; [done |]. unfold p_translate in *. cbn. rewrite sp_cr3 in *.
    by apply (nt_translate (p_mem s) m1 (p_crt s) (va / 4194304) t).
  - intros b Hb Hbt. assert (b / 4096 <> t) as Hbt' by (intros Heq; apply Htu; by rewrite <- Heq).
    assert (b / 4096 <> p_crt s / 4096) as HbD by (intros Heq; apply Hbt; by left).
    rewrite Hbytes; [by apply (nt_bytes _ _ _ _ _ Hnt) | |]; cbn.
    + right. destruct Hb as [Hb|Hb]; [done | by eapply nt_mapped_mono].
    + intros Hbt1. by apply (nt_table_frame (p_mem s) m1 (p_crt s) (va / 4194304) t) in Hbt1 as [?|?].
  - by right; left.
  - intros j Hj Hjp. assert (j <> va / 4194304) as Hne by (destruct Hjp as [?|Hp]; [done | intros ->; congruence]).
    rewrite <- (nt_pde (p_mem s) m1 (p_crt s) (va / 4194304) t) by done. apply Hpde; [done | by left].
  - intros _. assert (is_present (read_pte m1 (p_crt s + 4 * (va / 4194304))) = true) as Hp1.
    { by rewrite (nt_entry _ _ _ _ _ Hnt). }
    unfold pde_addr. cbn [p_crt p_mem set_mem set_frames]. cbn [p_mem set_mem] in Hpde. rewrite Hpde by (by apply pde_index || by right). rewrite (nt_entry _ _ _ _ _ Hnt).
    cbn. rewrite Z.mod_small by done. by left.
  - intros va' Hva' Ho Hne _. rewrite Hother; [| done | done | done |].
    + by apply (nt_mapping_eq s ws m1 (va / 4194304) t).
    + intros Hd _ Hp'. cbn in Hp' |- *. unfold pde_addr in *.
      rewrite (nt_pde (p_mem s) m1 (p_crt s) (va / 4194304) t) in Hp' |- * by (done || by apply pde_index).
      rewrite (nt_entry _ _ _ _ _ Hnt). cbn. rewrite Z.mod_small by done. intros Heq. apply Htu. left. right.
      exists (va' / 4194304). split; [by apply pde_index | done].
Qed.

(** Both cases, as [map_page_with_frame_impl] runs them. *)
Lemma impl_absent (s : paging) ws va fuel :
  space s ws -> is_u32 va -> va / 4194304 <> 769 -> p_translate s va = None ->
  (map_page_with_frame_impl (S fuel) s va (-1) = Panic /\ ~ two_free ws) \/
  exists f fr ws' m' fs, map_page_with_frame_impl (S fuel) s va (-1) = Ok (set_mem (set_frames s fr) m') /\
    mapped_fresh s ws va (set_mem (set_frames s fr) m') ws' fs f /\
    length fs = match pte_addr (p_mem s) (p_crt s) va with Some _ => 1%nat | None => 2%nat end.
Proof.
  intros Hsp Hva Hout Htr. pose proof Hsp as []. unfold p_translate in Htr.
  rewrite sp_cr3, translate_tr in Htr. cbn [map_page_with_frame_impl].
  change (0 <? -1) with false. cbn iota.
  destruct (pte_addr (p_mem s) (p_crt s) va) as [a|] eqn:Ha.
  - assert (is_present (read_pte (p_mem s) a) = false) as Habs
      by (cbn in Htr; unfold tr_of in Htr; by destruct (is_present _)).
    assert (need_table s (va / 4194304) = Ok s) as ->.
    { unfold need_table. rewrite get_pte_dir by (eapply space_dir, Hsp || by apply pde_index).
      cbn [mbind outcome_bind]. rewrite sp_cr3. apply pte_addr_Some in Ha. unfold pde_addr in Ha.
      by rewrite Ha. }
    cbn [mbind outcome_bind].
    rewrite (get_pte_table s va a) by (eapply space_dir, Hsp || done || by rewrite sp_cr3).
    cbn [mbind outcome_bind]. rewrite Habs. cbn [negb].
    destruct (fault_with_table s ws va a Hsp ltac:(by eapply entry_outside) Habs)
      as [[-> Hfull]|(f & fr & ws' & m' & -> & Hmf)].
    { left. split; [done |]. intros (c & d & _ & [Hc Hcb] & _). by rewrite Hfull in Hcb by done. }
    right. by exists f, fr, ws', m', [f].
  - destruct (fault_without_table s ws va (fun s pte => if rw pte =? 0 then
      map_cow (map_page_with_frame_impl fuel) s va (PAGE_TABLES_VIRTUAL + 4 * (va / 4096)) pte else Ok s)
      Hsp Hva Ha) as [[Hr Hno]|(t & f & fr & ws' & m' & Hr & Hmf)];
      [left; split; [exact Hr | done] | right].
    exists f, fr, ws', m', [t; f]. split; [exact Hr | done].
Qed.

(** A copy of the state under the lock of its address space. *)
Lemma mapped_fresh_lock (s : paging) ws va s' ws' fs f l l' :
  mapped_fresh (with_dir_lock s l) ws va s' ws' fs f ->
  mapped_fresh s ws va (with_dir_lock s' l') ws' fs f.
Proof.
  destruct (with_lock_same s l) as (Hm & Hc & Hr & _ & _).
  destruct (with_lock_same s' l') as (Hm' & Hc' & Hr' & _ & _).
  intros []. unfold p_translate in *. rewrite Hm, ?Hc, ?Hr in *.
  constructor; unfold p_translate; rewrite ?Hm', ?Hc', ?Hr'; try done. by apply space_with_lock.
Qed.

Lemma dir_lock_released (s : paging) : dir_lock_free (with_dir_lock s yieldlock_init).
Proof. unfold dir_lock_free, with_dir_lock. destruct (p_multi s) eqn:Hm; [done | congruence]. Qed.

(** A page by its first address. *)
Lemma mapped_fresh_base (s : paging) ws va s' ws' fs f :
  mapped_fresh s ws (va / PAGE_SIZE * PAGE_SIZE) s' ws' fs f -> mapped_fresh s ws va s' ws' fs f.
Proof.
  unfold PAGE_SIZE. set (b := va / 4096 * 4096).
  assert (b / 4096 = va / 4096) as Hbv by (unfold b; lia).
  assert (b / 4194304 = va / 4194304) as Hbd by (unfold b; lia).
  intros [? ? ? Hmaps Hrw ? ? ? ? ? ? Hpde Htab Hother]. unfold pde_addr in *. rewrite Hbd in *. rewrite Hbv in *.
  constructor; try done. destruct Hrw as (a & Ha & ?). exists a. split; [|done].
  rewrite <- Ha. unfold b. symmetry. apply pte_addr_base.
Qed.

(** What [map_page] does to an absent page, out of memory included. *)
Lemma map_page_absent (s : paging) ws va :
  space s ws -> is_u32 va -> va / 4194304 <> 769 -> p_translate s va = None -> dir_lock_free s ->
  (map_page s va = Panic /\ ~ two_free ws) \/
  exists s' ws' fs f, map_page s va = Ok s' /\ mapped_fresh s ws va s' ws' fs f /\
    dir_lock_free s' /\ p_cow s' = p_cow s /\
    length fs = match pte_addr (p_mem s) (p_crt s) va with Some _ => 1%nat | None => 2%nat end.
Proof.
  intros Hsp Hb Hbo Htr Hl. destruct (with_lock_same s locked) as (Hm & Hc & Hr & _ & Hcow).
  assert (p_translate (with_dir_lock s locked) va = None) as Htb.
  { unfold p_translate in *. by rewrite Hm, Hr. }
  unfold map_page.
  destruct (impl_absent (with_dir_lock s locked) ws va 2 ltac:(by apply space_with_lock) Hb Hbo Htb)
    as [[He Hno]|(f & fr & ws' & m' & fs & He & Hmf & Hfs)].
  - left. split; [|done]. unfold map_page_with_frame, with_dir_lock in *. destruct (p_multi s) eqn:Hmu.
    + rewrite lock_unlocked by by apply Hl. cbn [mbind outcome_bind]. unfold MAP_FUEL. by rewrite He.
    + cbn [mbind outcome_bind]. unfold MAP_FUEL. by rewrite He.
  - right. set (s1 := set_mem _ m') in *. exists (with_dir_lock s1 yieldlock_init), ws', fs, f.
    rewrite Hm, Hc in Hfs. apply mapped_fresh_lock with (l' := yieldlock_init) in Hmf.
    rewrite (map_page_with_frame_eq s va (-1) s1) by done. split; [done |]. split; [done |].
    split; [apply dir_lock_released |]. split; [|done].
    destruct (with_lock_same s1 yieldlock_init) as (_ & _ & _ & _ & ->). exact Hcow.
Qed.

(** Mapping a page that is present and writable changes nothing. *)
Lemma map_page_writable (s : paging) ws va p :
  space s ws -> is_u32 va -> va / 4194304 <> 769 -> mapping (p_mem s) (p_crt s) va = Some p -> rw p = 1 ->
  dir_lock_free s -> map_page s va = Ok (with_dir_lock s yieldlock_init).
Proof.
  intros Hsp Hva Hout Hmap Hrw Hl. unfold map_page.
  assert (with_dir_lock s yieldlock_init = with_dir_lock (with_dir_lock s locked) yieldlock_init) as ->.
  { unfold with_dir_lock. by destruct (p_multi s) eqn:E; cbn; rewrite E. }
  apply map_page_with_frame_eq; [done |].
  destruct (with_lock_same s locked) as (Hm & Hc & Hr & _ & _).
  set (s1 := with_dir_lock s locked) in *. assert (space s1 ws) as Hsp1 by by apply space_with_lock.
  unfold mapping in Hmap. rewrite <- Hm, <- Hc in Hmap.
  destruct (pte_addr (p_mem s1) (p_crt s1) va) as [a|] eqn:Ha; [|done]. cbn [mbind option_bind] in Hmap.
  destruct (is_present (read_pte (p_mem s1) a)) eqn:Hp; [|done]. injection Hmap as <-.
  pose proof Hsp1 as []. unfold MAP_FUEL. cbn [map_page_with_frame_impl].
  assert (need_table s1 (va / 4194304) = Ok s1) as ->.
  { unfold need_table. rewrite get_pte_dir by (eapply space_dir, Hsp1 || by apply pde_index).
    cbn [mbind outcome_bind]. rewrite sp_cr3. apply pte_addr_Some in Ha. unfold pde_addr in Ha. by rewrite Ha. }
  cbn [mbind outcome_bind].
  rewrite (get_pte_table s1 va a) by (eapply space_dir, Hsp1 || done || by rewrite sp_cr3).
  cbn [mbind outcome_bind]. change (0 <? -1) with false. cbn iota. rewrite Hp. cbn [negb]. rewrite Hrw. reflexivity.
Qed.

(** What a page fault on an absent page does. *)
Lemma page_fault_absent (s : paging) ws va :
  space s ws -> is_u32 va -> va / 4194304 <> 769 -> p_translate s va = None -> dir_lock_free s ->
  (page_fault_handler s va = Panic /\ ~ two_free ws) \/
  exists s' ws' fs f, page_fault_handler s va = Ok s' /\ mapped_fresh s ws va s' ws' fs f /\
    dir_lock_free s' /\ p_cow s' = p_cow s /\
    length fs = match pte_addr (p_mem s) (p_crt s) va with Some _ => 1%nat | None => 2%nat end.
Proof.
  intros Hsp Hva Hout Htr Hl. set (b := va / PAGE_SIZE * PAGE_SIZE).
  assert (is_u32 b /\ b / 4194304 <> 769 /\ b / 4096 = va / 4096) as (Hb & Hbo & Hbv)
    by (unfold b, PAGE_SIZE, is_u32 in *; lia).
  assert (pte_addr (p_mem s) (p_crt s) b = pte_addr (p_mem s) (p_crt s) va) as Hba
    by (unfold b, PAGE_SIZE; apply pte_addr_base).
  assert (p_translate s b = None) as Htb.
  { destruct Hsp. unfold p_translate in *. rewrite sp_cr3, translate_tr in *. rewrite Hba.
    destruct (pte_addr _ _ _); [|done]. cbn in *. unfold tr_of in *. by destruct (is_present _). }
  unfold page_fault_handler. fold b. rewrite <- Hba.
  destruct (map_page_absent s ws b Hsp Hb Hbo Htb Hl)
    as [[-> Hno]|(s' & ws' & fs & f & -> & Hmf & Hl' & Hcow & Hfs)]; [by left | right].
  exists s', ws', fs, f. cbn [mbind outcome_bind]. rewrite reload_id by apply Hmf.
  split; [done |]. split; [by apply mapped_fresh_base |]. by split_and!.
Qed.

(** C3: a page fault on an address that is not mapped maps its page to a fresh
    frame, writable and zeroed; it takes one frame, or two when the page table
    is missing, and every page mapped before stays mapped to the same frame
    with the same contents. *)
Theorem map_page_fresh (s : paging) ws va :
  space s ws -> is_u32 va -> va / 4194304 <> 769 -> p_translate s va = None -> two_free ws ->
  dir_lock_free s ->
  exists s' ws' fs f, page_fault_handler s va = Ok s' /\ mapped_fresh s ws va s' ws' fs f /\
    dir_lock_free s' /\
    length fs = match pte_addr (p_mem s) (p_crt s) va with Some _ => 1%nat | None => 2%nat end.
Proof.
  intros Hsp Hva Hout Htr Htwo Hl.
  destruct (page_fault_absent s ws va Hsp Hva Hout Htr Hl)
    as [[_ Hno]|(s' & ws' & fs & f & He & Hmf & Hl' & _ & Hfs)]; [done |].
  by exists s', ws', fs, f.
Qed.
End fault.
