(* ===== verification/PagingCow.v ===== *)
(** * Paging: copy-on-write

    The reference counts of shared frames, faults on pages that are not
    writable, and the release of pages. *)

From S2P Require Import Prelude.
From S2P Require Import Memory.
From S2P Require Import YieldLock.
From S2P Require Import KHeap.
From S2P Require Import Allocator.
From S2P Require Import Bitmap.
From S2P Require Import MathRand.
From S2P Require Import LinkedList.
From S2P Require Import HashTable.
From S2P Require Import HashTableInv.
From S2P Require Import HashTableSpec.
From S2P Require Import HashTableMap.
From S2P Require Import Paging.
From S2P Require Import PagingInv.
From S2P Require Import PagingMap.
From S2P Require Import PagingFault.

Section cow.
Context {A : Type} `{AlignedAllocator A}.
Abbreviation paging := (paging (A := A)).
Abbreviation cow := (cow (A := A)).

(** ** The table of counts *)

Definition is_cell (M : gmap Z Z) (p : Z) : Prop := exists f, M !! f = Some p.

(** The counts [R]: the table [M] maps each shared frame to a cell of its own
    with the count, which is positive. *)
Record counts_in (c : cow) (L M R : gmap Z Z) : Prop := {
  ci_ready : cw_ready c = true;
  ci_lock : unlocked (cw_lock c);
  ci_table : sparing_table (cw_world c) L (cw_table c) M (is_cell M);
  ci_cell : forall f p, M !! f = Some p -> p <> 0 /\ cw_cells c !! p = R !! f;
  ci_dom : forall f, is_Some (M !! f) <-> is_Some (R !! f);
  ci_inj : forall f g p, M !! f = Some p -> M !! g = Some p -> f = g;
  ci_pos : forall f n, R !! f = Some n -> 0 < n < 2147483648
}.

Definition counts (c : cow) (L R : gmap Z Z) : Prop := exists M, counts_in c L M R.

(** One sharer less, one more. *)
Definition drop_ref (R : gmap Z Z) (f : Z) : gmap Z Z :=
  match R !! f with
  | Some n => if 1 <? n then <[f := n - 1]> R else delete f R
  | None => R
  end.
Definition add_ref (R : gmap Z Z) (f : Z) : gmap Z Z := <[f := default 0 (R !! f) + 1]> R.

Lemma sparing_weaken w L t M (X Y : Z -> Prop) :
  sparing_table w L t M X -> (forall x, Y x -> X x) -> sparing_table w L t M Y.
Proof.
  intros [(bl & ess & Hr & HM & HX) Hn Hl] HY. constructor; try done.
  exists bl, ess. split_and!; auto.
Qed.

Lemma sparing_size w L t M X : sparing_table w L t M X -> ht_size t < 2147483648.
Proof. intros [(bl & ess & [] & _) ? ?]. lia. Qed.

Lemma sparing_alive w L t M X : sparing_table w L t M X -> alive (w_alloc w) L.
Proof. by intros [(bl & ess & [] & _) ? ?]. Qed.

(** A block handed out to somebody else is spared. *)
Lemma sparing_malloc w L t M X a p k :
  sparing_table w L t M X -> alive a (<[p := k]> L) -> L !! p = None ->
  sparing_table (set_alloc w a) (<[p := k]> L) t M (fun x => x = p \/ X x).
Proof.
  intros [(bl & ess & [] & HM & HX) Hn Hl] Ha Hp. constructor; try done. exists bl, ess.
  assert (forall x, is_Some (L !! x) -> is_Some (<[p := k]> L !! x)) as Hmono.
  { intros x [n Hx]. destruct (decide (x = p)) as [->|]; [congruence |].
    rewrite lookup_insert_ne by done. by eexists. }
  split; [|split; [done |]].
  - constructor; try done. + by destruct hr_tbl. + auto.
  - intros x [->|Hx].
    + rewrite lookup_insert_eq. split; [by eexists |]. intros Hin. destruct (hr_live p Hin). congruence.
    + destruct (HX x Hx). auto.
Qed.

Lemma counts_get c L M R f :
  counts_in c L M R -> hash_table_get (cw_world c) (cw_table c) f = Ok (default 0 (M !! f)).
Proof. intros []. eapply hash_table_lookup_spec. by eapply sparing_is_table. Qed.

Lemma counts_read c L M R f p :
  counts_in c L M R -> M !! f = Some p -> exists n, R !! f = Some n /\ cw_cells c !! p = Some n /\ p <> 0.
Proof.
  intros [] Hp. destruct (ci_cell0 _ _ Hp) as [Hp0 Hc].
  destruct (proj1 (ci_dom0 f)) as [n Hn]; [by eexists |]. exists n. by rewrite Hc.
Qed.

Lemma counts_none c L M R f : counts_in c L M R -> M !! f = None -> R !! f = None.
Proof.
  intros [] Hf. apply eq_None_not_Some. intros Hs. apply ci_dom0 in Hs as [? ?]. congruence.
Qed.

(** [change_cow_frame_refcount(frame, -1)] *)
Lemma drop_ref_spec c L R f :
  counts c L R ->
  exists c' L', change_cow_frame_refcount c f (-1) = Ok (c', default 0 (R !! f)) /\
    counts c' L' (drop_ref R f).
Proof.
  intros [M Hct]. pose proof Hct as []. unfold change_cow_frame_refcount.
  rewrite ci_ready0, lock_unlocked by done. cbn [negb mbind outcome_bind].
  rewrite (counts_get _ _ _ _ _ Hct). cbn [mbind outcome_bind]. unfold drop_ref.
  destruct (M !! f) as [p|] eqn:Hp.
  - destruct (counts_read _ _ _ _ _ _ Hct Hp) as (n & Hn & Hc & Hp0). pose proof (ci_pos0 _ _ Hn).
    rewrite Hn. cbn [default from_option id]. rewrite (proj2 (Z.eqb_neq p 0)) by done. cbn [negb]. rewrite Hc.
    cbn [deref mbind outcome_bind]. rewrite s32_small by (unfold is_s32; lia).
    destruct (Z.ltb_spec 1 n); [rewrite (proj2 (Z.ltb_lt _ _)) by lia | rewrite (proj2 (Z.ltb_ge _ _)) by lia].
    + cbn [mbind outcome_bind]. eexists _, L. split; [done |]. exists M.
      constructor; cbn; try done.
      * intros g q Hq. destruct (ci_cell0 _ _ Hq) as [Hq0 Hcq]. split; [done |].
        destruct (decide (g = f)) as [->|].
        -- rewrite Hp in Hq. injection Hq as <-. by rewrite !lookup_insert_eq.
        -- rewrite !lookup_insert_ne; [done | done |]. intros ->. by assert (f = g) by eauto.
      * intros g. rewrite ci_dom0. destruct (decide (g = f)) as [->|];
          [rewrite lookup_insert_eq, Hn | by rewrite lookup_insert_ne]. split; by eexists.
      * intros g k. rewrite lookup_insert_Some. intros [[<- <-]|[_ Hk]]; [lia | eauto].
    + cbn [mbind outcome_bind].
      destruct (sparing_remove _ _ _ _ _ f ci_table0 (sparing_size _ _ _ _ _ ci_table0))
        as (w' & L' & t' & -> & Ht' & _). cbn [mbind outcome_bind].
      eexists _, L'. split; [done |]. exists (delete f M). constructor; cbn; try done.
      * eapply sparing_weaken; [done |]. intros x [g Hg]. apply lookup_delete_Some in Hg as [_ Hg].
        by exists g.
      * intros g q Hq. apply lookup_delete_Some in Hq as [Hne Hq].
        rewrite lookup_delete_ne by done. by apply ci_cell0.
      * intros g. destruct (decide (g = f)) as [->|]; [rewrite !lookup_delete_eq | by rewrite !lookup_delete_ne].
        split; intros [? ?]; done.
      * intros g h q Hg Hh. apply lookup_delete_Some in Hg as [_ Hg], Hh as [_ Hh]. eauto.
      * intros g k Hk. apply lookup_delete_Some in Hk as [_ Hk]. eauto.
  - rewrite (counts_none _ _ _ _ _ Hct Hp). cbn. eexists _, L. split; [done |]. by exists M.
Qed.

(** [change_cow_frame_refcount(frame, 1)]; it panics only for lack of memory. *)
Lemma add_ref_spec c L R f :
  counts c L R -> is_u32 f -> Z.of_nat (size L) + 3 < capacity -> may_grow (cw_table c) ->
  4 < request_limit -> default 0 (R !! f) < 2147483647 ->
  change_cow_frame_refcount c f 1 = Panic \/
  exists c' L', change_cow_frame_refcount c f 1 = Ok (c', default 0 (R !! f)) /\
    counts c' L' (add_ref R f) /\ (size L' <= size L + 3)%nat.
Proof.
  intros [M Hct] Hf Hcap Hg Hreq Hmax. pose proof Hct as []. unfold change_cow_frame_refcount.
  rewrite ci_ready0, lock_unlocked by done. cbn [negb mbind outcome_bind].
  rewrite (counts_get _ _ _ _ _ Hct). cbn [mbind outcome_bind]. unfold add_ref.
  destruct (M !! f) as [p|] eqn:Hp.
  - right. destruct (counts_read _ _ _ _ _ _ Hct Hp) as (n & Hn & Hc & Hp0).
    pose proof (ci_pos0 _ _ Hn). rewrite Hn in *. cbn [default from_option id] in *.
    rewrite (proj2 (Z.eqb_neq p 0)) by done. cbn [negb]. rewrite Hc.
    cbn [deref mbind outcome_bind]. rewrite s32_small by (unfold is_s32; lia).
    rewrite (proj2 (Z.ltb_lt _ _)) by lia. cbn [mbind outcome_bind].
    eexists _, L. split; [done |]. split; [|lia]. exists M. constructor; cbn; try done.
    + intros g q Hq. destruct (ci_cell0 _ _ Hq) as [Hq0 Hcq]. split; [done |].
      destruct (decide (g = f)) as [->|].
      * rewrite Hp in Hq. injection Hq as <-. by rewrite !lookup_insert_eq.
      * rewrite !lookup_insert_ne; [done | done |]. intros ->. by assert (f = g) by eauto.
    + intros g. rewrite ci_dom0. destruct (decide (g = f)) as [->|];
        [rewrite lookup_insert_eq, Hn | by rewrite lookup_insert_ne]. split; by eexists.
    + intros g k. rewrite lookup_insert_Some. intros [[<- <-]|[_ Hk]]; [lia | eauto].
  - rewrite (counts_none _ _ _ _ _ Hct Hp). cbn [default from_option id negb Z.eqb mbind outcome_bind].
    change (0 <? s32 (0 + 1)) with true. cbn iota.
    pose proof (sparing_alive _ _ _ _ _ ci_table0) as Ha.
    destruct (malloc_law _ _ 4 Ha) as [->|(a & p & k & -> & Hp' & _ & Ha')]; [lia | lia | by left |].
    cbn [mbind outcome_bind].
    pose proof (sparing_malloc _ _ _ _ _ _ _ _ ci_table0 Ha' Hp') as Ht.
    destruct (sparing_put _ _ _ _ _ f p Ht) as [->|(w' & L' & t' & -> & Ht' & _ & HL)];
      [done | rewrite map_size_insert_None by done; lia | done | by left | right].
    cbn [mbind outcome_bind]. rewrite map_size_insert_None in HL by done.
    eexists _, L'. split; [done |]. split; [|lia]. exists (<[f := p]> M).
    assert (forall g q, M !! g = Some q -> q <> p) as Hfresh.
    { intros g q Hq ->. destruct ci_table0 as [(bl & ess & _ & _ & HX) _ _].
      destruct (HX p) as [[? ?] _]; [by exists g | congruence]. }
    pose proof (alive_pos _ _ _ _ Ha' (lookup_insert_eq _ _ _)) as Hpp.
    constructor; cbn; try done.
    + eapply sparing_weaken; [done |]. intros x [g Hx]. apply lookup_insert_Some in Hx as [[_ <-]|[_ Hx]];
        [by left | right; by exists g].
    + intros g q. rewrite lookup_insert_Some. intros [[<- <-]|[Hne Hq]].
      * rewrite !lookup_insert_eq. split; [lia | done].
      * pose proof (Hfresh _ _ Hq). rewrite !lookup_insert_ne by congruence. by apply ci_cell0.
    + intros g. destruct (decide (g = f)) as [->|]; [rewrite !lookup_insert_eq | by rewrite !lookup_insert_ne].
      split; by eexists.
    + intros g h q. rewrite !lookup_insert_Some. intros [[<- <-]|[? Hq]] [[<- Hqq]|[? Hq']]; try done.
      * by destruct (Hfresh _ _ Hq').
      * by destruct (Hfresh _ _ Hq).
      * eauto.
    + intros g n. rewrite lookup_insert_Some. intros [[<- <-]|[_ Hk]]; [cbn; lia | eauto].
Qed.
End cow.
