(* ===== verification/PagingShare.v ===== *)
(** * Paging: shared pages

    Faults on copy-on-write pages, and the release of pages. *)

From S2P Require Import Prelude.
From S2P Require Import Memory.
From S2P Require Import YieldLock.
From S2P Require Import KHeap.
From S2P Require Import Allocator.
From S2P Require Import Bitmap.
From S2P Require Import MathRand.
From S2P Require Import HashTable.
From S2P Require Import Paging.
From S2P Require Import PagingInv.
From S2P Require Import PagingMap.
From S2P Require Import PagingFault.
From S2P Require Import PagingCow.

Section share.
Context {A : Type} `{AlignedAllocator A}.
Abbreviation paging := (paging (A := A)).

(** ** Calls on one page *)

Lemma need_table_present (s : paging) ws va a :
  space s ws -> is_u32 va -> pte_addr (p_mem s) (p_crt s) va = Some a ->
  need_table s (va / 4194304) = Ok s.
Proof.
  intros Hsp Hva Ha. pose proof Hsp as []. unfold need_table.
  rewrite get_pte_dir by (eapply space_dir, Hsp || by apply pde_index).
  cbn [mbind outcome_bind]. rewrite sp_cr3. apply pte_addr_Some in Ha. unfold pde_addr in Ha.
  by rewrite Ha.
Qed.

(** The entry of a page with a page table, read and written. *)
Lemma page_entry (s : paging) ws va a :
  space s ws -> is_u32 va -> pte_addr (p_mem s) (p_crt s) va = Some a ->
  get_pte s (PAGE_TABLES_VIRTUAL + 4 * (va / 4096)) = Ok (read_pte (p_mem s) a) /\
  (forall p, put_pte s (PAGE_TABLES_VIRTUAL + 4 * (va / 4096)) p =
     Ok (set_mem s (store32 (p_mem s) a (pte_encode p)))).
Proof.
  intros Hsp Hva Ha. pose proof Hsp as []. split; [|intros p].
  - by apply get_pte_table; [eapply space_dir | | rewrite sp_cr3].
  - by apply put_pte_table; [eapply space_dir | | rewrite sp_cr3].
Qed.

(** [release_pages] of one page. *)
Lemma release_pages_one (s : paging) ws va free_frame :
  space s ws -> is_u32 va ->
  release_pages s va 1 free_frame =
  match pte_addr (p_mem s) (p_crt s) va with
  | Some _ => release_page s (va / 4096 * 4096) free_frame
  | None => Ok s
  end.
Proof.
  intros Hsp Hva. pose proof Hsp as []. unfold release_pages, PAGE_SIZE, is_u32 in *. cbv zeta.
  set (n := va / 4096). assert (0 <= n < 1048576) as Hn by (unfold n; lia).
  rewrite Z.div_mul by done.
  rewrite (u32_small (n + 1)) by lia. rewrite (u32_small (n + 1 - 1)) by lia.
  replace (Z.to_nat ((n + 1 - 1) / 1024 + 1 - n / 1024)) with 1%nat by lia. cbn [for_up].
  unfold release_table. rewrite get_pte_dir by (eapply space_dir, Hsp || lia).
  cbn [mbind outcome_bind]. rewrite sp_cr3. unfold pte_addr, pde_addr.
  replace (va / 4194304) with (n / 1024) by (unfold n; lia).
  destruct (is_present _) eqn:Hp; cbn [negb mbind outcome_bind]; [|done].
  assert (max n (n / 1024 * 1024) = n) as ->
    by (unfold max; destruct (Z.ltb_spec (n / 1024 * 1024) n); lia).
  assert (min (n + 1) (n / 1024 * 1024 + 1024) = n + 1) as ->
    by (unfold min; destruct (Z.ltb_spec (n + 1) (n / 1024 * 1024 + 1024)); lia).
  replace (Z.to_nat (n + 1 - n)) with 1%nat by lia. cbn [for_up]. unfold PAGE_SIZE.
  rewrite u32_small by lia. by destruct (release_page _ _ _).
Qed.

(** The zero entry. *)
Definition pte_zero : pte_t := PTE 0 0 0 0 0 0 0.

Lemma pte_zero_wf : pte_wf pte_zero.
Proof. by constructor. Qed.

Lemma release_page_keep (s : paging) ws va a :
  space s ws -> is_u32 va -> pte_addr (p_mem s) (p_crt s) va = Some a ->
  is_present (read_pte (p_mem s) a) = true ->
  release_page s (va / 4096 * 4096) false = Ok (set_mem s (store32 (p_mem s) a (pte_encode pte_zero))).
Proof.
  intros Hsp Hva Ha Hp. destruct (page_entry s ws va a Hsp Hva Ha) as [Hg Hput].
  unfold release_page. replace (va / 4096 * 4096 / 4096) with (va / 4096) by lia.
  rewrite Hg. cbn [mbind outcome_bind]. rewrite Hp. cbn [negb mbind outcome_bind].
  specialize (Hput pte_zero). unfold put_pte in Hput. change (pte_encode pte_zero) with 0 in *.
  destruct (vstore32 _ _ _ _) as [m| | | |]; try done. injection Hput as ->. cbn [mbind outcome_bind].
  f_equal. apply (reload_id (set_mem s _)). by destruct Hsp.
Qed.

(** ** A fault on a page with one user left *)

(** A page that is mapped and not writable, in frame [g]. *)
Record readonly (s : paging) (va a g : Z) : Prop := {
  ro_entry : entry_of s va a;
  ro_present : is_present (read_pte (p_mem s) a) = true;
  ro_rw : rw (read_pte (p_mem s) a) = 0;
  ro_frame : frame (read_pte (p_mem s) a) = g
}.

(** What stays: the translation of every address, and all of memory but the
    entry at [a]. *)
Record made_writable (s : paging) (ws : list Z) (va a : Z) (s' : paging) : Prop := {
  mw_space : space s' ws;
  mw_rw : rw (read_pte (p_mem s') a) = 1;
  mw_kept : forall va', is_u32 va' -> p_translate s' va' = p_translate s va';
  mw_bytes : same_out (p_mem s) (p_mem s') a (a + 4);
  mw_frames : p_frames s' = p_frames s
}.

Lemma space_set_cow (s : paging) ws c : space (set_cow s c) ws <-> space s ws.
Proof. split; intros []; by constructor. Qed.

Lemma impl_writable (s : paging) ws va a g L R fuel :
  space s ws -> readonly s va a g -> counts (p_cow s) L R -> R !! g = None ->
  exists s' L', map_page_with_frame_impl (S fuel) s va (-1) = Ok s' /\
    made_writable s ws va a s' /\ counts (p_cow s') L' R /\ p_multi s' = p_multi s /\
    p_copy_lock s' = p_copy_lock s /\ p_dir_lock s' = p_dir_lock s.
Proof.
  intros Hsp [He Hp Hrw Hg] Hct HR. pose proof He as [Hva Ha Hne].
  destruct (drop_ref_spec _ _ _ g Hct) as (c & L' & Hc & Hct'). unfold drop_ref in Hct'.
  rewrite HR in *. cbn [map_page_with_frame_impl]. change (0 <? -1) with false. cbn iota.
  rewrite (need_table_present s ws va a) by done. cbn [mbind outcome_bind].
  destruct (page_entry s ws va a Hsp Hva Ha) as [-> _]. cbn [mbind outcome_bind].
  rewrite Hp, Hrw. cbn [negb Z.eqb]. unfold map_cow. rewrite Hg, Hc. cbn [mbind outcome_bind].
  change (0 <? default 0 None) with false. cbn iota.
  assert (space (set_cow s c) ws) as Hsp1 by by apply space_set_cow.
  destruct (page_entry (set_cow s c) ws va a Hsp1 Hva Ha) as [_ ->]. cbn [mbind outcome_bind].
  set (p := pte_set_rw _ 1). assert (pte_wf p) as Hwp by (apply pte_set_rw_wf; [apply read_pte_wf | lia]).
  pose proof Hsp as []. pose proof (do_aligned _ _ sp_dir). pose proof (entry_aligned _ _ _ He) as Ha4.
  rewrite reload_id by done. eexists _, L'. split; [done |]. split; [|done].
  constructor; cbn; try done.
  - apply (space_store (set_cow s c) _ va); [done | by constructor | done |].
    intros _ Hin. apply sp_used; [|done]. right. exists va, a. by rewrite Hp.
  - by rewrite read_pte_store_same.
  - intros va' Hva'. unfold p_translate. cbn. rewrite sp_cr3, translate_store by done.
    case_decide as Heq; [|done]. rewrite translate_tr, Heq. cbn [mbind option_bind].
    unfold tr_of, p. by rewrite is_present_set_rw.
  - apply same_out_store32.
Qed.

(** ** A fault on a shared page *)

(** The page of [va], shared in frame [g], is moved to frame [f] with its
    contents; the page at [COPIED_PAGE_VADDR], whose entry is at [ac], is left
    unmapped. *)
Record copied (s : paging) (ws : list Z) (va a ac g : Z) (s' : paging) (ws' : list Z) (f : Z) :
    Prop := {
  cp_space : space s' ws';
  cp_marked : marked ws ws' [f];
  cp_free : free_frame ws f;
  cp_maps : forall o, 0 <= o < 4096 -> p_translate s' (va / 4096 * 4096 + o) = Some (f * 4096 + o);
  cp_rw : rw (read_pte (p_mem s') a) = 1;
  cp_content : forall o, 0 <= o < 4096 ->
    load8 (p_mem s') (f * 4096 + o) = load8 (p_mem s) (g * 4096 + o);
  cp_kept : forall va', is_u32 va' -> pte_addr (p_mem s) (p_crt s) va' <> Some a ->
    pte_addr (p_mem s) (p_crt s) va' <> Some ac -> p_translate s' va' = p_translate s va';
  cp_bytes : forall b, ~ table_frame (p_mem s) (p_crt s) (b / 4096) -> b / 4096 <> f ->
    load8 (p_mem s') b = load8 (p_mem s) b
}.

Lemma space_set_locks (s : paging) ws l l' : space (set_locks s l l') ws <-> space s ws.
Proof. split; intros []; by constructor. Qed.

(** Two entries and a page written: the memory after the steps of [map_copy]. *)
Record copy_memory (m m' : mem) (D a ac f : Z) (p : pte_t) (g : Z -> Z) : Prop := {
  cm_a : read_pte m' a = p;
  cm_ac : read_pte m' ac = pte_zero;
  cm_addr : forall va, is_u32 va -> pte_addr m' D va = pte_addr m D va;
  cm_other : forall va b, is_u32 va -> pte_addr m D va = Some b -> b <> a -> b <> ac ->
    read_pte m' b = read_pte m b;
  cm_page : forall o, 0 <= o < 4096 -> load8 m' (f * 4096 + o) = g o;
  cm_bytes : forall b, b / 4096 <> f -> b / 4096 <> a / 4096 -> b / 4096 <> ac / 4096 ->
    load8 m' b = load8 m b
}.

Lemma copy_memory_steps (m m2 : mem) D a ac f e1 p g :
  D mod 4096 = 0 -> a mod 4 = 0 -> ac mod 4 = 0 -> a <> ac -> a / 4096 <> D / 4096 ->
  ac / 4096 <> D / 4096 -> a / 4096 <> f -> ac / 4096 <> f -> pte_wf p ->
  let m1 := store32 m ac (pte_encode e1) in
  page_is m1 m2 (f * 4096) g -> same_tables m1 m2 D ->
  copy_memory m (store32 (store32 m2 a (pte_encode p)) ac (pte_encode pte_zero)) D a ac f p g.
Proof.
  intros HD Ha Hac Hne HaD HacD Haf Hacf Hp m1 [Hout Hpage] [Hdir Htab].
  pose proof pte_zero_wf as Hz.
  assert (forall va, is_u32 va -> pte_addr m2 D va = pte_addr m D va) as Haddr.
  { intros va Hva. rewrite (pte_addr_same m1 m2) by done. unfold m1. by rewrite pte_addr_store. }
  constructor.
  - rewrite read_pte_store_ne by (done || by apply not_eq_sym). by apply read_pte_store_same.
  - by apply read_pte_store_same.
  - intros va Hva. rewrite !pte_addr_store by done. by apply Haddr.
  - intros va b Hva Hb Hba Hbac. destruct (pte_addr_range _ _ _ _ Hb Hva) as (Hb4 & _).
    rewrite !read_pte_store_ne by (done || by apply not_eq_sym).
    rewrite (Htab va) by (done || unfold m1; by rewrite pte_addr_store).
    apply read_pte_store_ne; [done | done | by apply not_eq_sym].
  - intros o Ho. rewrite !load8_store32_ne by lia. by apply Hpage.
  - intros b Hbf Hba Hbac. rewrite !load8_store32_ne by lia. rewrite Hout by lia.
    unfold m1. rewrite load8_store32_ne by lia. done.
Qed.

Lemma copied_page_entry (s : paging) ws ac :
  space s ws -> pte_addr (p_mem s) (p_crt s) COPIED_PAGE_VADDR = Some ac ->
  entry_of s COPIED_PAGE_VADDR ac.
Proof. intros Hsp Hac. by eapply entry_outside. Qed.

(** The recursive call, with a frame given. *)
Lemma impl_given (s : paging) ws va a f fuel :
  space s ws -> is_u32 va -> pte_addr (p_mem s) (p_crt s) va = Some a -> 0 < f ->
  map_page_with_frame_impl (S fuel) s va f =
  Ok (set_mem s (store32 (p_mem s) a (pte_encode (pte_map (read_pte (p_mem s) a) f)))).
Proof.
  intros Hsp Hva Ha Hf. cbn [map_page_with_frame_impl].
  rewrite (need_table_present s ws va a) by done. cbn [mbind outcome_bind].
  destruct (page_entry s ws va a Hsp Hva Ha) as [-> Hput]. cbn [mbind outcome_bind].
  rewrite (proj2 (Z.ltb_lt 0 f)), Hput by done. cbn [mbind outcome_bind]. rewrite reload_id; [done |].
  by destruct Hsp.
Qed.

(** A page of physical memory through a mapping. *)
Lemma maps_intro (m : mem) D va a P :
  D mod 4096 = 0 -> is_u32 va -> pte_addr m D va = Some a -> is_present (read_pte m a) = true ->
  frame (read_pte m a) = P -> D / 4096 <> P -> a / 4096 <> P -> maps m D va a (P * 4096).
Proof. intros. constructor; try done; rewrite ?Z.div_mul; congruence. Qed.

(** The part on memory alone: mapping the copy page to [f] and copying. *)
Lemma copy_through m D va a ac g f :
  D mod 4096 = 0 -> is_u32 va -> pte_addr m D va = Some a -> a / 4096 <> D / 4096 ->
  pte_addr m D COPIED_PAGE_VADDR = Some ac -> ac / 4096 <> D / 4096 -> a <> ac ->
  is_present (read_pte m a) = true -> frame (read_pte m a) = g -> ~ table_frame m D g ->
  ~ in_use m D f -> 0 <= f < 1048576 ->
  let m1 := store32 m ac (pte_encode (pte_map (read_pte m ac) f)) in
  exists m2, vmemcpy m1 D COPIED_PAGE_VADDR (va / 4096 * 4096) PAGE_SIZE = Ok m2 /\
    page_is m1 m2 (f * 4096) (fun o => load8 m (g * 4096 + o)) /\ same_tables m1 m2 D /\
    (forall b, is_u32 b -> pte_addr m2 D b = pte_addr m D b) /\
    read_pte m2 a = read_pte m a /\ is_present (read_pte m2 ac) = true.
Proof.
  intros HD Hva Ha HaD Hac HacD Hne Hp Hg Hgt Hnu Hf m1.
  assert (Hcu : is_u32 COPIED_PAGE_VADDR) by done.
  destruct (pte_addr_range _ _ _ _ Ha Hva) as (Ha4 & _), (pte_addr_range _ _ _ _ Hac Hcu) as (Hac4 & _).
  set (e1 := pte_map (read_pte m ac) f) in m1.
  assert (read_pte m1 ac = e1) as Hre1 by by apply read_pte_store_same, pte_map_wf, read_pte_wf.
  assert (frame e1 = f) as Hfe1 by (cbn; by apply Z.mod_small).
  assert (forall b, is_u32 b -> pte_addr m1 D b = pte_addr m D b) as Haddr1
    by (intros b Hb; unfold m1; by rewrite pte_addr_store).
  assert (read_pte m1 a = read_pte m a) as Hra
    by (apply read_pte_store_ne; [done | done | by apply not_eq_sym]).
  assert (forall b x, is_u32 b -> pte_addr m D b = Some x -> x / 4096 <> f) as Htf
    by (intros b x Hb Hx Hd; apply Hnu; left; rewrite <- Hd; by eapply pte_addr_table_frame).
  assert (D / 4096 <> f) as HDf by (intros Hd; apply Hnu; left; by left).
  assert (ac / 4096 <> g) as Hacg
    by (intros Hd; apply Hgt; rewrite <- Hd; by apply (pte_addr_table_frame m D COPIED_PAGE_VADDR)).
  destruct (vmemcpy_spec m1 D COPIED_PAGE_VADDR va ac (f * 4096) a (g * 4096)) as (m2 & Hcp & Hpage).
  { apply maps_intro; rewrite ?Hre1, ?Haddr1; try done. by apply (Htf COPIED_PAGE_VADDR). }
  { apply maps_intro; rewrite ?Hra, ?Haddr1; try done; intros Hd; apply Hgt.
    - by left.
    - rewrite <- Hd. by apply (pte_addr_table_frame m D va). }
  { rewrite Z.div_mul by done. by apply (Htf va). }
  { intros Hd. apply Hnu. right. exists va, a. split_and!; try done. lia. }
  assert (~ table_frame m1 D f) as Hnt.
  { intros [Hd|(i & Hi & Hpr & Hfr)]; [by apply HDf | apply Hnu; left; right]. exists i.
    unfold m1 in Hpr, Hfr. by rewrite read_pte_store_ne in Hpr, Hfr by (done || lia). }
  pose proof (fill_page _ _ _ _ _ HD Hnt Hpage) as Hst.
  exists m2. split; [done |]. split; [|split; [done | split; [|split]]].
  - split; [apply Hpage |]. intros o Ho. rewrite (proj2 Hpage) by done. unfold m1.
    by rewrite load8_store32_ne by lia.
  - intros b Hb. by rewrite (same_tables_addr m1), Haddr1.
  - by rewrite (proj2 Hst va), Hra by (done || by rewrite Haddr1).
  - by rewrite (proj2 Hst COPIED_PAGE_VADDR), Hre1 by (done || by rewrite Haddr1).
Qed.

Lemma map_copy_spec (s : paging) ws va a ac g fuel :
  space s ws -> readonly s va a g -> ~ table_frame (p_mem s) (p_crt s) g ->
  pte_addr (p_mem s) (p_crt s) COPIED_PAGE_VADDR = Some ac -> a <> ac ->
  (exists c, free_frame ws c) -> ~ free_frame ws 0 -> unlocked (p_copy_lock s) ->
  exists f fr ws' m', map_copy (map_page_with_frame_impl (S fuel)) s va
      (PAGE_TABLES_VIRTUAL + 4 * (va / 4096)) =
    Ok (set_locks (set_mem (set_frames s fr) m') yieldlock_init (p_dir_lock s)) /\
    free_frame ws f /\ 0 < f < 1048576 /\ marked ws ws' [f] /\
    space (set_mem (set_frames s fr) m') ws' /\
    copy_memory (p_mem s) m' (p_crt s) a ac f
      (pte_set_rw (pte_set_frame (read_pte (p_mem s) a) f) 1) (fun o => load8 (p_mem s) (g * 4096 + o)).
Proof.
  intros Hsp [He Hp Hrw Hg] Hgt Hac Hne [c0 Hc0] Hz Hlk. pose proof He as [Hva Ha HaD].
  pose proof (copied_page_entry s ws ac Hsp Hac) as Hec. pose proof Hec as [Hcu _ HacD].
  pose proof Hsp as []. pose proof (do_aligned _ _ sp_dir) as HDa. unfold map_copy.
  destruct (need_frame_spec s ws sp_frames) as [[_ Hfull]|(f & fr & ws' & -> & Hf & Hfr & Hm & Hr)].
  { destruct Hc0 as [? Hcb]. by rewrite Hfull in Hcb. }
  cbn [mbind outcome_bind p_copy_lock set_frames]. rewrite lock_unlocked by done.
  cbn [mbind outcome_bind]. set (s2 := set_locks (set_frames s fr) locked _).
  assert (0 < f) as Hfp by (destruct (decide (f = 0)) as [->|]; [done | lia]).
  pose proof (free_not_used s ws f Hsp Hf) as Hnu.
  assert (space s2 ws') as Hs2 by (apply space_set_locks; by eapply space_frames).
  assert (forall p, frame p = f -> is_present p = true -> in_bits ws' (frame p) ->
    bit_of ws' (frame p) = true) as Hmk.
  { intros p -> _ Hin. eapply marked_new; [done | by rewrite <- (marked_bits _ _ _ _ Hm) | by left]. }
  rewrite (impl_given s2 ws' COPIED_PAGE_VADDR ac f) by done.
  cbn [mbind outcome_bind]. change (p_mem s2) with (p_mem s).
  destruct (copy_through (p_mem s) (p_crt s) va a ac g f)
    as (m2 & Hcp & Hpage & Hst & Haddr & Hr2 & Hpac); try done.
  set (e1 := pte_map _ f) in *. set (m1 := store32 (p_mem s) ac (pte_encode e1)) in *.
  assert (space (set_mem s2 m1) ws') as Hs3.
  { apply (space_store s2 _ COPIED_PAGE_VADDR); [done | by constructor | apply pte_map_wf, read_pte_wf |].
    apply Hmk. cbn. by apply Z.mod_small. }
  change (p_mem (set_mem s2 m1)) with m1. change (p_cr3 (set_mem s2 m1)) with (p_cr3 s).
  rewrite sp_cr3. unfold PAGE_SIZE in *. rewrite Hcp. cbn [mbind outcome_bind].
  set (s5 := set_locks (set_mem (set_mem s2 m1) m2) _ _).
  assert (space s5 ws') as Hs5 by (apply space_set_locks, (space_same (set_mem s2 m1)); done).
  destruct (page_entry s5 ws' va a Hs5 Hva) as [-> Hput]; [by rewrite <- Ha; apply Haddr |].
  cbn [mbind outcome_bind]. rewrite Hput. cbn [mbind outcome_bind].
  change (p_mem s5) with m2. rewrite Hr2. set (e2 := pte_set_rw (pte_set_frame _ f) 1).
  assert (pte_wf e2) as Hw2 by (apply pte_set_rw_wf; [apply pte_set_frame_wf, read_pte_wf | lia]).
  pose proof (entry_aligned _ _ _ He) as Ha4. pose proof (entry_aligned _ _ _ Hec) as Hac4.
  set (s6 := set_mem s5 _).
  assert (space s6 ws') as Hs6.
  { apply (space_store s5 _ va); [done | | done | apply Hmk; cbn; by apply Z.mod_small].
    constructor; [done | by rewrite <- Ha; apply Haddr | done]. }
  assert (pte_addr (p_mem s6) (p_crt s6) COPIED_PAGE_VADDR = Some ac) as Hac6
    by (cbn; by rewrite pte_addr_store, Haddr).
  rewrite (release_pages_one s6 ws'), Hac6, (release_page_keep s6 ws' _ ac) by
    (done || (cbn; by rewrite read_pte_store_ne)).
  exists f, fr, ws', (store32 (p_mem s6) ac (pte_encode pte_zero)). split_and!; try done; try lia.
  - apply (space_set_locks _ _ yieldlock_init (p_dir_lock s)).
    apply (space_store s6 _ COPIED_PAGE_VADDR); [done | by constructor | apply pte_zero_wf | done].
  - apply (copy_memory_steps _ m2 _ _ _ _ e1); try done; intros Hd; apply Hnu; left; rewrite <- Hd.
    + by apply (pte_addr_table_frame _ _ va).
    + by apply (pte_addr_table_frame _ _ COPIED_PAGE_VADDR).
Qed.

(** ** The faults, through the handler *)

Lemma entry_base (s : paging) va a : entry_of s va a -> entry_of s (va / 4096 * 4096) a.
Proof.
  intros [Hva Ha Ht]. constructor; [unfold is_u32 in *; lia | by rewrite pte_addr_base | done].
Qed.

Lemma entry_lock (s : paging) va a l : entry_of s va a -> entry_of (with_dir_lock s l) va a.
Proof.
  destruct (with_lock_same s l) as (Hm & Hc & _). intros []. by constructor; rewrite ?Hm, ?Hc.
Qed.

Lemma readonly_base (s : paging) va a g l :
  readonly s va a g -> readonly (with_dir_lock s l) (va / 4096 * 4096) a g.
Proof.
  intros []. destruct (with_lock_same s l) as (Hm & _).
  constructor; rewrite ?Hm; try done. by apply entry_lock, entry_base.
Qed.

Lemma copied_intro (s : paging) ws va a ac g s' ws' f :
  space s ws -> readonly s va a g -> pte_addr (p_mem s) (p_crt s) COPIED_PAGE_VADDR = Some ac ->
  0 < f < 1048576 -> free_frame ws f -> marked ws ws' [f] -> space s' ws' -> p_crt s' = p_crt s ->
  copy_memory (p_mem s) (p_mem s') (p_crt s) a ac f
    (pte_set_rw (pte_set_frame (read_pte (p_mem s) a) f) 1) (fun o => load8 (p_mem s) (g * 4096 + o)) ->
  copied s ws va a ac g s' ws' f.
Proof.
  intros Hsp [[Hva Ha _] Hp _ _] Hac Hf Hfree Hm Hsp' Hcrt [].
  pose proof (sp_cr3 _ _ Hsp) as Hr. pose proof (sp_cr3 _ _ Hsp') as Hr'. rewrite Hcrt in Hr'.
  assert (is_u32 COPIED_PAGE_VADDR) as Hcu by done.
  constructor; unfold p_translate; rewrite ?Hr, ?Hr'; try done.
  - intros o Ho. rewrite translate_tr, pte_addr_page, pte_addr_base, cm_addr0, Ha by (done || lia).
    cbn [mbind option_bind]. rewrite cm_a0. unfold tr_of. rewrite is_present_set_rw.
    change (is_present (pte_set_frame ?p f)) with (is_present p). rewrite Hp. cbn [frame pte_set_rw pte_set_frame].
    rewrite Z.mod_small by lia. f_equal. lia.
  - by rewrite cm_a0.
  - intros va' Hva' Hna Hnac. rewrite !translate_tr, cm_addr0 by done.
    destruct (pte_addr (p_mem s) (p_crt s) va') as [b|] eqn:Hb; [|done]. cbn [mbind option_bind].
    by rewrite (cm_other0 va') by congruence.
  - intros b Hb Hbf. apply cm_bytes0; [done | |]; intros Hd; apply Hb; rewrite Hd.
    + by apply (pte_addr_table_frame _ _ va).
    + by apply (pte_addr_table_frame _ _ COPIED_PAGE_VADDR).
Qed.

Lemma impl_copied (s : paging) ws va a ac g L R n fuel :
  space s ws -> readonly s va a g -> ~ table_frame (p_mem s) (p_crt s) g ->
  pte_addr (p_mem s) (p_crt s) COPIED_PAGE_VADDR = Some ac -> a <> ac ->
  (exists c, free_frame ws c) -> ~ free_frame ws 0 -> unlocked (p_copy_lock s) ->
  counts (p_cow s) L R -> R !! g = Some n ->
  exists s' ws' f L', map_page_with_frame_impl (S (S fuel)) s va (-1) = Ok s' /\
    copied s ws va a ac g s' ws' f /\ counts (p_cow s') L' (drop_ref R g) /\
    unlocked (p_copy_lock s') /\ p_cr3 s' = p_crt s'.
Proof.
  intros Hsp Hro Hgt Hac Hne Hfree Hz Hlk Hct Hn. pose proof Hro as [[Hva Ha HaD] Hp Hrw Hg].
  destruct (drop_ref_spec _ _ _ g Hct) as (c & L' & Hc & Hct').
  assert (0 < n) as Hn0 by (destruct Hct as [M []]; by destruct (ci_pos _ _ Hn)).
  remember (S fuel) as k eqn:Hk. cbn [map_page_with_frame_impl].
  change (0 <? -1) with false. cbn iota.
  rewrite (need_table_present s ws va a) by done. cbn [mbind outcome_bind].
  destruct (page_entry s ws va a Hsp Hva Ha) as [-> _]. cbn [mbind outcome_bind].
  rewrite Hp, Hrw. cbn [negb Z.eqb]. unfold map_cow. rewrite Hg, Hc, Hn. cbn [mbind outcome_bind].
  cbn [default from_option id]. rewrite (proj2 (Z.ltb_lt 0 n)) by done.
  destruct (map_copy_spec (set_cow s c) ws va a ac g fuel) as (f & fr & ws' & m' & He & Hf & Hfr & Hm & Hs' & Hcm);
    [by apply space_set_cow | constructor; try done; by constructor | done | done | done | done | done
    | done |].
  rewrite Hk, He. eexists _, ws', f, L'. split; [done |].
  split; [|split; [done | split; [done |]]].
  - by apply copied_intro; try done; apply space_set_locks.
  - by destruct Hs'.
Qed.
End share.
