(* ===== verification/PagingTheorems.v ===== *)
(** * Paging: the properties

    Page faults, releases and the initial map of frames, with a small address
    space on which the theorems are applied. *)

From S2P Require Import Prelude.
From S2P Require Import Memory.
From S2P Require Import YieldLock.
From S2P Require Import KHeap.
From S2P Require Import KMalloc.
From S2P Require Import Allocator.
From S2P Require Import Bitmap.
From S2P Require Import MathRand.
From S2P Require Import HashTable.
From S2P Require Import HashTableMap.
From S2P Require Import Paging.
From S2P Require Import PagingInv.
From S2P Require Import PagingMap.
From S2P Require Import PagingFault.
From S2P Require Import PagingCow.
From S2P Require Import PagingShare.

Section theorems.
Context {A : Type} `{AlignedAllocator A}.
Abbreviation paging := (paging (A := A)).

(** A write fault on a copy-on-write page nobody else uses any more makes
    the page writable in place: every address keeps its translation, and only
    the page's entry changes. *)
Theorem cow_fault_last (s : paging) ws va a g L R :
  space s ws -> readonly s va a g -> counts (p_cow s) L R -> R !! g = None -> dir_lock_free s ->
  exists s' L', page_fault_handler s va = Ok s' /\ made_writable s ws va a s' /\
    counts (p_cow s') L' R /\ dir_lock_free s'.
Proof.
  intros Hsp Hro Hct HR Hl. destruct (with_lock_same s locked) as (Hm & Hc & Hr & Hf & Hcw).
  destruct (impl_writable (with_dir_lock s locked) ws (va / 4096 * 4096) a g L R 2)
    as (s1 & L' & He & Hmw & Hct' & _); try done.
  { by apply space_with_lock. }
  { by apply readonly_base. }
  { by rewrite Hcw. }
  destruct (with_lock_same s1 yieldlock_init) as (Hm1 & Hc1 & Hr1 & Hf1 & Hcw1).
  exists (with_dir_lock s1 yieldlock_init), L'.
  split; [|split; [|split; [by rewrite Hcw1 | apply dir_lock_released]]].
  - unfold page_fault_handler, map_page, PAGE_SIZE.
    rewrite (map_page_with_frame_eq s _ (-1) s1) by done. cbn [mbind outcome_bind].
    rewrite reload_id; [done |]. rewrite Hr1, Hc1. by destruct Hmw as [[] _ _ _ _].
  - destruct Hmw as [Hs' Hrw Hk Hb Hfr]. unfold p_translate in *. rewrite Hm, Hr in *.
    constructor; unfold p_translate; rewrite ?Hm1, ?Hr1, ?Hf1; try done;
      [by apply space_with_lock | congruence].
Qed.

(** C24: a write fault on a page shared copy-on-write moves the page to a fresh
    frame with the same contents, writable; the old frame, and every other page
    that holds no tables, keep their contents, the other addresses their
    translations, and the shared frame has one user less.  This is for a kernel in
    which frame 0 is taken (a copy into it would be left unwritten), some frame is
    free, the page table of the page used for copying is there, and its lock is
    free. *)
Theorem cow_fault_shared (s : paging) ws va a ac g L R n :
  space s ws -> readonly s va a g -> ~ table_frame (p_mem s) (p_crt s) g ->
  pte_addr (p_mem s) (p_crt s) COPIED_PAGE_VADDR = Some ac -> a <> ac ->
  (exists c, free_frame ws c) -> ~ free_frame ws 0 -> unlocked (p_copy_lock s) -> dir_lock_free s ->
  counts (p_cow s) L R -> R !! g = Some n ->
  exists s' ws' f L', page_fault_handler s va = Ok s' /\ copied s ws va a ac g s' ws' f /\
    counts (p_cow s') L' (drop_ref R g) /\ unlocked (p_copy_lock s') /\ dir_lock_free s'.
Proof.
  intros Hsp Hro Hgt Hac Hne Hfree Hz Hlk Hl Hct Hn.
  destruct (with_lock_same s locked) as (Hm & Hc & Hr & Hf & Hcw).
  destruct (impl_copied (with_dir_lock s locked) ws (va / 4096 * 4096) a ac g L R n 1)
    as (s1 & ws' & f & L' & He & Hcp & Hct' & Hlk' & Hcr); rewrite ?Hm, ?Hc, ?Hcw; try done.
  { by apply space_with_lock. }
  { by apply readonly_base. }
  { unfold with_dir_lock. by destruct (p_multi s). }
  destruct (with_lock_same s1 yieldlock_init) as (Hm1 & Hc1 & Hr1 & Hf1 & Hcw1).
  exists (with_dir_lock s1 yieldlock_init), ws', f, L'.
  split; [|split; [|split; [by rewrite Hcw1 | split; [|apply dir_lock_released]]]].
  - unfold page_fault_handler, map_page, PAGE_SIZE.
    rewrite (map_page_with_frame_eq s _ (-1) s1) by done. cbn [mbind outcome_bind].
    rewrite reload_id; [done |]. by rewrite Hr1, Hc1.
  - destruct Hcp as [Hs' ? ? Hmaps ? ? ? ?]. unfold p_translate in *. rewrite Hm, Hc, Hr in *.
    constructor; unfold p_translate; rewrite ?Hm1, ?Hr1; try done.
    + by apply space_with_lock.
    + intros o Ho. specialize (Hmaps o Ho). by rewrite Z.div_mul in Hmaps by done.
  - unfold with_dir_lock. by destruct (p_multi s1).
Qed.

(** ** Releasing a page *)

(** The page of [va], in frame [g], is unmapped; [last] says that its frame is
    given back. *)
Record released (s : paging) (ws : list Z) (va a g : Z) (last : bool) (s' : paging) (ws' : list Z) :
    Prop := {
  rl_gone : p_translate s' va = None;
  rl_kept : forall va', is_u32 va' -> pte_addr (p_mem s) (p_crt s) va' <> Some a ->
    p_translate s' va' = p_translate s va';
  rl_bytes : same_out (p_mem s) (p_mem s') a (a + 4);
  rl_frames : frames_wf (p_frames s') ws';
  rl_length : length ws' = length ws;
  rl_bits : forall c, in_bits ws c ->
    bit_of ws' c = if last then negb (bool_decide (c = g)) && bit_of ws c else bit_of ws c
}.

Lemma release_frame_spec (fr : frames) ws f :
  frames_wf fr ws -> in_bits ws f ->
  exists fr' ws', release_phy_frame fr f = Ok fr' /\ frames_wf fr' ws' /\ length ws' = length ws /\
    forall c, in_bits ws c -> bit_of ws' c = negb (bool_decide (c = f)) && bit_of ws c.
Proof.
  intros [Hb Hl Hn] Hf. unfold release_phy_frame. rewrite lock_unlocked by done.
  cbn [mbind outcome_bind].
  destruct (bitmap_clear_bit_spec _ _ _ _ Hb Hf) as (st' & ws' & -> & Hs & Hwf & Hlen & Hbits).
  cbn [mbind outcome_bind]. eexists _, ws'. split; [done |]. split; [|done].
  constructor; cbn; [done | done | by rewrite Hlen].
Qed.

(** [release_pages] of a mapped page with its frame unmaps exactly that
    page; the frame is given back when no other address space shares it, and
    otherwise loses one user. *)
Theorem release_pages_correct (s : paging) ws va a g L R :
  space s ws -> entry_of s va a -> is_present (read_pte (p_mem s) a) = true ->
  frame (read_pte (p_mem s) a) = g -> in_bits ws g -> counts (p_cow s) L R ->
  exists s' ws' L', release_pages s va 1 true = Ok s' /\
    released s ws va a g (bool_decide (R !! g = None)) s' ws' /\ counts (p_cow s') L' (drop_ref R g).
Proof.
  intros Hsp He Hp Hg Hin Hct. pose proof He as [Hva Ha HaD]. pose proof Hsp as [].
  pose proof (entry_aligned _ _ _ He) as Ha4. pose proof (do_aligned _ _ sp_dir) as HDa.
  destruct (drop_ref_spec _ _ _ g Hct) as (c & L' & Hc & Hct').
  rewrite (release_pages_one s ws), Ha by done. unfold release_page.
  replace (va / 4096 * 4096 / 4096) with (va / 4096) by lia.
  destruct (page_entry s ws va a Hsp Hva Ha) as [-> _]. cbn [mbind outcome_bind].
  rewrite Hp, Hg, Hc. cbn [negb mbind outcome_bind].
  set (last := bool_decide (R !! g = None)).
  assert (exists fr ws', (if default 0 (R !! g) <=? 0 then
      f ← release_phy_frame (p_frames (set_cow s c)) g; Ok (set_frames (set_cow s c) f)
      else Ok (set_cow s c)) = Ok (set_frames (set_cow s c) fr) /\ frames_wf fr ws' /\
      length ws' = length ws /\ forall b, in_bits ws b ->
        bit_of ws' b = if last then negb (bool_decide (b = g)) && bit_of ws b else bit_of ws b)
    as (fr & ws' & -> & Hfr & Hlen & Hbits).
  { unfold last. destruct (R !! g) as [n|] eqn:Hn; cbn [default from_option id].
    - destruct Hct as [M []]. destruct (ci_pos _ _ Hn). rewrite (proj2 (Z.leb_gt _ _)) by done.
      exists (p_frames s), ws. by destruct s.
    - destruct (release_frame_spec _ _ _ sp_frames Hin) as (fr & ws' & Hr & ? & ? & ?).
      cbn [p_frames set_cow]. rewrite Hr. by exists fr, ws'. }
  cbn [mbind outcome_bind p_mem p_cr3 set_frames set_cow]. unfold vstore32.
  rewrite translate_table by (done || by rewrite sp_cr3). rewrite sp_cr3, Ha. cbn [deref mbind outcome_bind].
  eexists _, ws', L'. split; [done |]. split; [|done].
  pose proof pte_zero_wf. change 0 with (pte_encode pte_zero) at 1.
  constructor; cbn; try done.
  - unfold p_translate. cbn. rewrite translate_store by done. by rewrite decide_True by done.
  - intros va' Hva' Hne. unfold p_translate. cbn. rewrite translate_store, sp_cr3 by done.
    by rewrite decide_False by done.
  - apply same_out_store32.
Qed.

(** ** The initial map of frames *)

Lemma fill_words st array ws n :
  st !! array = Some ws -> (n <= length ws)%nat ->
  exists st' ws', for_up n 0 (fun i st => word_set st array i 0xFFFFFFFF) st = Ok st' /\
    st' !! array = Some ws' /\ length ws' = length ws.
Proof.
  intros Hst Hn.
  destruct (for_up_rule (fun _ t => exists ws', t !! array = Some ws' /\ length ws' = length ws) n 0
    (fun i st => word_set st array i 0xFFFFFFFF) st) as (st' & He & ws' & Hw & Hl).
  - by exists ws.
  - intros j t Hj (ws' & Hw & Hl). eexists. rewrite (word_set_ok _ _ ws') by (done || lia).
    split; [done |]. eexists. rewrite lookup_insert_eq, length_insert. done.
  - by exists st', ws'.
Qed.

(** [init_paging] reserves nothing but the last frame: it fills the words
    of the first 3MB and then calls [bitmap_create], which clears them, so that
    the frames of the boot code, of the kernel and of the kernel's page
    directory are handed out as free. *)
Theorem init_frames_reserves_nothing (s : paging) junk bitarray ws :
  fr_words (p_frames s) !! bitarray = Some ws -> length ws = 256%nat -> bitarray <> 0 ->
  exists s' ws', init_frames junk bitarray s = Ok s' /\
    bm_wf (fr_words (p_frames s')) (fr_map (p_frames s')) ws' /\ length ws' = 256%nat /\
    (forall c, 0 <= c < TOTAL_FRAMES -> bit_of ws' c = bool_decide (c = TOTAL_FRAMES - 1)) /\
    free_frame ws' (KERNEL_PAGE_DIR_PHY / PAGE_SIZE).
Proof.
  intros Hw Hl Hb. unfold init_frames. change (Z.to_nat (3 * 1024 * 1024 / PAGE_SIZE / 32)) with 24%nat.
  destruct (fill_words _ _ _ 24 Hw) as (st & ws1 & -> & Hw1 & Hl1); [lia |]. cbn [mbind outcome_bind].
  unfold bitmap_create, bitmap_init. change (Z.quot TOTAL_FRAMES 32) with 256.
  rewrite (proj2 (Z.eqb_neq bitarray 0)) by done. cbn [mbind outcome_bind].
  rewrite (zero_words_spec _ _ ws1) by (done || lia). cbn [mbind outcome_bind].
  rewrite Hl1, Hl. set (map := Build_bitmap_t _ _ _ _).
  assert (bm_wf (<[bitarray := replicate 256 0]> st) map (replicate 256 0)) as Hwf.
  { constructor; cbn -[replicate Z.mul]; rewrite ?length_replicate; try done.
    - by rewrite lookup_insert_eq.
    - apply Forall_zero. }
  destruct (bitmap_set_bit_spec _ _ _ (TOTAL_FRAMES - 1) Hwf) as (st' & ws' & -> & Hst & Hwf' & Hlen & Hbits).
  { unfold in_bits. by rewrite length_replicate. }
  cbn [mbind outcome_bind]. rewrite length_replicate in Hlen.
  assert (forall c, 0 <= c < TOTAL_FRAMES -> in_bits (replicate 256 0) c) as Hin
    by (intros c Hc; unfold in_bits; rewrite length_replicate; unfold TOTAL_FRAMES, PHYSICAL_MEM_SIZE, PAGE_SIZE in Hc; lia).
  assert (forall c, 0 <= c < TOTAL_FRAMES -> bit_of ws' c = bool_decide (c = TOTAL_FRAMES - 1)) as Hall.
  { intros c Hc. rewrite Hbits by by apply Hin. by rewrite bit_of_zero, orb_false_r. }
  eexists _, ws'. split; [done |]. cbn [p_frames set_heap set_cow set_frames fr_words fr_map].
  split_and!; try done. split; [unfold in_bits; by rewrite Hlen | by rewrite Hall].
Qed.
End theorems.

(** ** A small address space

    A directory at 0x101000 with its own entry, the page tables of the address
    ranges of 0x400000 and of the copy page, and three pages: 0x400000 and
    0x401000, not writable, in the frames 40 and 41, and 0x402000 in frame 5.
    The map has 32 frames, of which 0 and 5 are taken. *)

Definition mem_of (l : list (Z * Z)) : mem := foldr (fun e m => store32 m e.1 e.2) ∅ l.

Lemma mem_of_word l a :
  Forall (fun e => e.1 mod 4 = 0) l -> a mod 4 = 0 ->
  (exists e, e ∈ l /\ e.1 = a /\ load32 (mem_of l) a = u32 e.2) \/ load32 (mem_of l) a = 0.
Proof.
  induction 1 as [|e l He Hl IH]; intros Ha; [by right |]. cbn [mem_of foldr].
  destruct (decide (e.1 = a)) as [<-|Hne].
  - left. exists e. rewrite load32_store32_same. split; [by left | done].
  - rewrite load32_store32_ne by lia. destruct (IH Ha) as [(e' & He' & Ha' & Hw)|Hw]; [left | by right].
    exists e'. split; [by right | done].
Qed.

Definition demo_dir : Z := 0x101000.
Definition demo_table : Z := 258 * 4096.
Definition demo_entries : list (Z * Z) :=
  [ (demo_dir + 4 * 769, 257 * 4096 + 7); (demo_dir + 4 * 1023, 259 * 4096 + 7);
    (demo_dir + 4 * 1, 258 * 4096 + 7);
    (demo_table, 40 * 4096 + 5); (demo_table + 4, 41 * 4096 + 5); (demo_table + 8, 5 * 4096 + 7) ].
Definition demo_words : list Z := [33].

Definition demo_space {A} (c : cow (A := A)) : paging (A := A) :=
  {| p_mem := mem_of demo_entries; p_cr0 := 0; p_cr3 := demo_dir; p_crt := demo_dir;
     p_frames := {| fr_words := {[ 1 := demo_words ]};
                    fr_map := {| bm_array := 1; bm_alloc_array := false; bm_array_size := 1;
                                 bm_total_bits := 32 |};
                    fr_lock := yieldlock_init |};
     p_cow := c; p_copy_lock := yieldlock_init; p_multi := true; p_dir_lock := yieldlock_init;
     p_handlers := ∅ |}.

Ltac demo_cases He :=
  unfold demo_entries in He; rewrite !elem_of_cons, elem_of_nil in He;
  destruct He as [->|[->|[->|[->|[->|[->|[]]]]]]].

Lemma demo_entry a :
  a mod 4 = 0 -> is_present (read_pte (mem_of demo_entries) a) = true ->
  exists e, e ∈ demo_entries /\ e.1 = a /\ frame (read_pte (mem_of demo_entries) a) = e.2 / 4096.
Proof.
  intros Ha Hp. destruct (mem_of_word demo_entries a) as [(e & He & Hea & Hw)|Hw].
  - by repeat constructor.
  - done.
  - exists e. split_and!; try done. unfold read_pte. rewrite Hw.
    by demo_cases He.
  - unfold read_pte in Hp. by rewrite Hw in Hp.
Qed.

Lemma demo_space_wf {A} `{AlignedAllocator A} (c : cow (A := A)) : space (demo_space c) demo_words.
Proof.
  assert (forall a, a mod 4 = 0 -> is_present (read_pte (mem_of demo_entries) a) = true ->
    in_bits demo_words (frame (read_pte (mem_of demo_entries) a)) ->
    frame (read_pte (mem_of demo_entries) a) = 5) as Hframe.
  { intros a Ha Hp Hin. destruct (demo_entry a Ha Hp) as (e & He & _ & Hf). rewrite Hf in *.
    unfold in_bits in Hin. cbn in Hin. demo_cases He; cbn in Hin |- *; lia. }
  constructor; cbn [p_cr3 p_crt p_mem p_frames demo_space]; [done | | | |].
  - constructor; done.
  - intros i Hi Hne Hp. destruct (demo_entry (demo_dir + 4 * i)) as (e & He & Hea & ->); [unfold demo_dir; lia | done |].
    demo_cases He; unfold demo_dir, demo_table in *; cbn in Hea |- *; lia.
  - constructor; [|done|done]. constructor; cbn; [done | done | done | | done].
    by repeat constructor.
  - intros f Hu Hin. assert (f = 5) as ->; [|done].
    destruct Hu as [[->|(i & Hi & Hp & <-)]|(va & a & Hva & Ha & Hp & <-)].
    + unfold in_bits, demo_dir in Hin. cbn in Hin. lia.
    + apply Hframe; [unfold demo_dir; lia | done | done].
    + apply Hframe; [by destruct (pte_addr_range _ _ _ _ Ha Hva) | done | done].
Qed.

(** Counts on the kernel heap: frame 40 has one more user. *)
Definition demo_world : world kmem :=
  {| w_alloc := boot_heap; w_nodes := ∅; w_kvs := ∅; w_buckets := ∅ |}.
Definition demo_cow (w : world kmem) (t : hash_table_t) : cow (A := kmem) :=
  {| cw_ready := true; cw_world := w; cw_table := t; cw_cells := ∅; cw_lock := yieldlock_init |}.

Lemma counts_empty {A} `{AlignedAllocator A} (w : world A) L t :
  is_table w L t ∅ ->
  counts {| cw_ready := true; cw_world := w; cw_table := t; cw_cells := ∅; cw_lock := yieldlock_init |} L ∅.
Proof.
  intros Ht. exists ∅. constructor; cbn; try done.
  - eapply sparing_weaken; [by apply table_sparing_none |]. intros x [f Hf]. done.
Qed.

Lemma demo_counts : exists c L, counts (A := kmem) c L {[ 40 := 1 ]}.
Proof.
  destruct (hash_table_init_spec demo_world ∅) as [He|(w & L & t & He & Ht & HL & Hn)].
  - exact boot_heap_alive.
  - vm_compute. reflexivity.
  - vm_compute. reflexivity.
  - assert (is_panic (hash_table_init demo_world) = false) as Hp by (vm_compute; reflexivity).
    by rewrite He in Hp.
  - assert (match hash_table_init demo_world with
            | Ok (w, t) => is_panic (change_cow_frame_refcount (demo_cow w t) 40 1)
            | _ => true end = false) as Hp by (vm_compute; reflexivity).
    rewrite He in Hp.
    destruct (add_ref_spec _ L ∅ 40 (counts_empty w L t Ht)) as [Hc|(c & L' & _ & Hct & _)].
    + split; vm_compute; congruence.
    + rewrite HL. vm_compute. reflexivity.
    + unfold may_grow. cbn [cw_table]. rewrite Hn. split; vm_compute; reflexivity.
    + vm_compute. reflexivity.
    + rewrite lookup_empty. vm_compute. reflexivity.
    + unfold demo_cow in Hp. by rewrite Hc in Hp.
    + exists c, L'. unfold add_ref in Hct. by rewrite lookup_empty in Hct.
Qed.

Lemma demo_entry_of {A} `{AlignedAllocator A} (c : cow (A := A)) i :
  0 <= i < 3 -> entry_of (demo_space c) (0x400000 + 4096 * i) (demo_table + 4 * i).
Proof.
  intros Hi. assert (i = 0 \/ i = 1 \/ i = 2) as [->|[->| ->]] by lia;
    (constructor; [split; vm_compute; congruence | vm_compute; reflexivity | vm_compute; congruence]).
Qed.

Lemma demo_not_table {A} `{AlignedAllocator A} (c : cow (A := A)) :
  ~ table_frame (p_mem (demo_space c)) (p_crt (demo_space c)) 40.
Proof.
  intros [Hf|(i & Hi & Hp & Hf)]; [vm_compute in Hf; discriminate Hf |]. cbn [p_mem p_crt demo_space] in *.
  destruct (demo_entry (demo_dir + 4 * i)) as (e & He & Hea & Hfr); [unfold demo_dir; lia | done |].
  rewrite Hf in Hfr. demo_cases He; unfold demo_dir, demo_table in *; cbn in Hea, Hfr; lia.
Qed.

Lemma demo_two_free : two_free demo_words.
Proof. exists 1, 2. repeat split; vm_compute; congruence. Qed.

Lemma map_page_fresh_witness :
  exists c L s' ws' fs f, counts (A := kmem) c L {[ 40 := 1 ]} /\
    page_fault_handler (demo_space c) 0x800123 = Ok s' /\
    mapped_fresh (demo_space c) demo_words 0x800123 s' ws' fs f.
Proof.
  destruct demo_counts as (c & L & Hct).
  destruct (map_page_fresh (demo_space c) demo_words 0x800123) as (s' & ws' & fs & f & He & Hm & _).
  - apply demo_space_wf.
  - split; vm_compute; congruence.
  - vm_compute. congruence.
  - vm_compute. reflexivity.
  - exact demo_two_free.
  - intros _. reflexivity.
  - exists c, L, s', ws', fs, f. split; [exact Hct |]. split; [exact He | exact Hm].
Defined.

Lemma cow_fault_last_witness :
  exists c L s', counts (A := kmem) c L {[ 40 := 1 ]} /\
    page_fault_handler (demo_space c) 0x401000 = Ok s' /\
    made_writable (demo_space c) demo_words 0x401000 (demo_table + 4) s'.
Proof.
  destruct demo_counts as (c & L & Hct).
  destruct (cow_fault_last (demo_space c) demo_words 0x401000 (demo_table + 4) 41 L {[ 40 := 1 ]})
    as (s' & L' & He & Hm & _).
  - apply demo_space_wf.
  - constructor; [exact (demo_entry_of c 1 ltac:(lia)) | vm_compute; reflexivity.. ].
  - exact Hct.
  - reflexivity.
  - intros _. reflexivity.
  - exists c, L, s'. split; [exact Hct |]. split; [exact He | exact Hm].
Defined.

Lemma cow_fault_shared_witness :
  exists c L s' ws' f, counts (A := kmem) c L {[ 40 := 1 ]} /\
    page_fault_handler (demo_space c) 0x400abc = Ok s' /\
    copied (demo_space c) demo_words 0x400abc demo_table (259 * 4096 + 4 * 1023) 40 s' ws' f.
Proof.
  destruct demo_counts as (c & L & Hct).
  destruct (cow_fault_shared (demo_space c) demo_words 0x400abc demo_table (259 * 4096 + 4 * 1023) 40
    L {[ 40 := 1 ]} 1) as (s' & ws' & f & L' & He & Hm & _).
  - apply demo_space_wf.
  - constructor; [|vm_compute; reflexivity.. ].
    constructor; [split; vm_compute; congruence | vm_compute; reflexivity | vm_compute; congruence].
  - apply demo_not_table.
  - vm_compute. reflexivity.
  - vm_compute. congruence.
  - exists 1. split; [split|]; vm_compute; congruence.
  - intros [_ Hb]. vm_compute in Hb. discriminate Hb.
  - reflexivity.
  - intros _. reflexivity.
  - exact Hct.
  - reflexivity.
  - exists c, L, s', ws', f. split; [exact Hct |]. split; [exact He | exact Hm].
Defined.

Lemma release_pages_correct_witness :
  exists c L s' ws', counts (A := kmem) c L {[ 40 := 1 ]} /\
    release_pages (demo_space c) 0x402000 1 true = Ok s' /\
    released (demo_space c) demo_words 0x402000 (demo_table + 8) 5 true s' ws'.
Proof.
  destruct demo_counts as (c & L & Hct).
  destruct (release_pages_correct (demo_space c) demo_words 0x402000 (demo_table + 8) 5 L {[ 40 := 1 ]})
    as (s' & ws' & L' & He & Hm & _).
  - apply demo_space_wf.
  - exact (demo_entry_of c 2 ltac:(lia)).
  - vm_compute. reflexivity.
  - vm_compute. reflexivity.
  - split; vm_compute; congruence.
  - exact Hct.
  - exists c, L, s', ws'. split; [exact Hct |]. split; [exact He | exact Hm].
Defined.

Lemma init_frames_reserves_nothing_witness :
  exists s' ws', init_frames 0 7 (set_frames (demo_space (demo_cow demo_world (HT 0 0 0)))
      {| fr_words := {[ 7 := replicate 256 0 ]};
         fr_map := {| bm_array := 0; bm_alloc_array := false; bm_array_size := 0; bm_total_bits := 0 |};
         fr_lock := yieldlock_init |}) = Ok s' /\
    bm_wf (fr_words (p_frames s')) (fr_map (p_frames s')) ws' /\ free_frame ws' 257.
Proof.
  edestruct (init_frames_reserves_nothing (A := kmem)) as (s' & ws' & He & Hwf & _ & _ & Hf).
  4: { exists s', ws'. split; [exact He |]. split; [exact Hwf | exact Hf]. }
  - cbn [p_frames set_frames fr_words]. apply lookup_singleton_eq.
  - apply length_replicate.
  - congruence.
Defined.
