(* ===== verification/AddressSpace.v ===== *)
(** * Address spaces

    What the kernel and its programs rely on when they read and write bytes at
    virtual addresses: a class of byte spaces with its laws.  Two instances:
    the flat memory that the other components compute on, where what was never
    written is zero, and the paged memory of mem/paging.c, where a miss
    runs the page fault handler.  The laws of the second are what makes the
    first a model of it. *)

From S2P Require Import Prelude.
From S2P Require Import Memory.
From S2P Require Import YieldLock.
From S2P Require Import KHeap.
From S2P Require Import KMalloc.
From S2P Require Import Allocator.
From S2P Require Import Bitmap.
From S2P Require Import HashTable.
From S2P Require Import Paging.
From S2P Require Import PagingInv.
From S2P Require Import PagingMap.
From S2P Require Import PagingFault.
From S2P Require Import PagingTheorems.

(** [bs_view m a] is what a load at [a] yields.  An access at an address of
    the client's returns with the space still good, or stops the kernel for
    lack of memory. *)
Class ByteSpace (M : Type) := {
  bs_load : M -> Z -> outcome (M * Z);
  bs_store : M -> Z -> Z -> outcome M;
  bs_ok : M -> Prop;
  bs_user : Z -> Prop;
  bs_view : M -> Z -> Z;
  bs_view_range : forall m a, 0 <= bs_view m a < 256;
  bs_load_law : forall m a, bs_ok m -> bs_user a ->
    may (bs_load m a) (fun '(m', c) =>
      c = bs_view m a /\ bs_ok m' /\ forall b, bs_user b -> bs_view m' b = bs_view m b);
  bs_store_law : forall m a v, bs_ok m -> bs_user a ->
    may (bs_store m a v) (fun m' =>
      bs_ok m' /\ forall b, bs_user b -> bs_view m' b = if decide (b = a) then u8 v else bs_view m b)
}.

(** ** Flat memory *)

#[export] Instance flat_space : ByteSpace mem.
Proof.
  refine {| bs_load m a := Ok (m, load8 m a); bs_store m a v := Ok (store8 m a v);
            bs_ok _ := True; bs_user _ := True; bs_view := load8 |}.
  - apply load8_range.
  - intros m a _ _. by apply may_ret.
  - intros m a v _ _. apply may_ret. split; [done |].
    intros b _. case_decide as Hb; [subst; apply load8_store8_same | by apply load8_store8_ne].
Defined.

(** ** Paged memory *)

Section paged.
Context {A : Type} `{AlignedAllocator A}.
Abbreviation paging := (paging (A := A)).

(** An access of the kernel: the processor translates the address; when it is
    not mapped the page fault handler runs and the access is repeated. *)
Definition resolve (s : paging) (va : Z) : outcome (paging * Z) :=
  match p_translate s va with
  | Some pa => Ok (s, pa)
  | None => s ← page_fault_handler s va; pa ← deref (p_translate s va); Ok (s, pa)
  end.

Definition paged_load (s : paging) (va : Z) : outcome (paging * Z) :=
  '(s, pa) ← resolve s va; Ok (s, load8 (p_mem s) pa).
Definition paged_store (s : paging) (va v : Z) : outcome paging :=
  '(s, pa) ← resolve s va; Ok (set_mem s (store8 (p_mem s) pa v)).

(** The addresses of user programs, from 4MB to the top of the user stacks. *)
Definition user_addr (va : Z) : Prop := 0x400000 <= va < 0xBFC00000.

(** The addresses of the kernel, but for the window of the page tables. *)
Definition kernel_addr (va : Z) : Prop := is_u32 va /\ 768 <= va / 4194304 /\ va / 4194304 <> 769.

(** User pages do not share frames or hold tables, their tables are their own and
    the kernel's pages are writable. *)
Record user_space (m : mem) (D : Z) : Prop := {
  us_tables : forall i j, 1 <= i < 767 -> 0 <= j < 1024 -> j <> i ->
    is_present (read_pte m (D + 4 * i)) = true -> is_present (read_pte m (D + 4 * j)) = true ->
    frame (read_pte m (D + 4 * i)) <> frame (read_pte m (D + 4 * j));
  us_pages : forall va va' pa pa', user_addr va -> user_addr va' ->
    translate m D va = Some pa -> translate m D va' = Some pa' -> pa / 4096 = pa' / 4096 ->
    va / 4096 = va' / 4096;
  us_data : forall va pa, user_addr va -> translate m D va = Some pa -> ~ table_frame m D (pa / 4096);
  us_kernel_tables : forall i j, 768 <= i < 1024 -> i <> 769 -> 768 <= j < 1024 -> j <> 769 -> j <> i ->
    is_present (read_pte m (D + 4 * i)) = true -> is_present (read_pte m (D + 4 * j)) = true ->
    frame (read_pte m (D + 4 * i)) <> frame (read_pte m (D + 4 * j));
  us_kernel : forall va p, kernel_addr va -> mapping m D va = Some p -> rw p = 1
}.

Definition paged_ok (s : paging) : Prop :=
  (exists ws, space s ws) /\ user_space (p_mem s) (p_crt s) /\ dir_lock_free s.

(** Pages that were never touched read as zero. *)
Definition paged_view (s : paging) (va : Z) : Z :=
  match p_translate s va with Some pa => load8 (p_mem s) pa | None => 0 end.

Lemma user_u32 va : user_addr va -> is_u32 va /\ va / 4194304 <> 769 /\ 1 <= va / 4194304 < 767.
Proof. unfold user_addr, is_u32. lia. Qed.

Lemma translate_inv m D va pa :
  translate m D va = Some pa ->
  exists a, pte_addr m D va = Some a /\ is_present (read_pte m a) = true /\
    frame (read_pte m a) = pa / 4096 /\ pa mod 4096 = va mod 4096.
Proof.
  rewrite translate_tr. destruct (pte_addr m D va) as [a|]; [|done]. cbn [mbind option_bind].
  unfold tr_of. destruct (is_present (read_pte m a)) eqn:Hp; [|done]. intros He. apply (inj Some) in He as <-.
  exists a. split; [done |]. split; [done |]. generalize (frame (read_pte m a)). intros f. split; lia.
Qed.

Lemma translate_in_use m D va pa :
  is_u32 va -> translate m D va = Some pa -> in_use m D (pa / 4096).
Proof.
  intros Hva Ht. destruct (translate_inv _ _ _ _ Ht) as (a & Ha & Hp & Hf & _).
  right. by exists va, a.
Qed.

(** The addresses of one page are mapped together. *)
Lemma translate_page m D va va' :
  va / 4096 = va' / 4096 ->
  translate m D va' = match translate m D va with
    | Some pa => Some (pa / 4096 * 4096 + va' mod 4096) | None => None end.
Proof.
  intros Hp. rewrite !translate_tr.
  assert (pte_addr m D va' = pte_addr m D va) as ->.
  { rewrite <- (pte_addr_base m D va'), <- (pte_addr_base m D va). by rewrite Hp. }
  destruct (pte_addr m D va) as [a|]; [|done]. cbn [mbind option_bind]. unfold tr_of.
  destruct (is_present _); [|done]. f_equal. lia.
Qed.

Lemma same_tables_mapping m m' D va :
  D mod 4096 = 0 -> same_tables m m' D -> is_u32 va -> mapping m' D va = mapping m D va.
Proof.
  intros HD Hs Hva. unfold mapping. rewrite (same_tables_addr m) by done.
  destruct (pte_addr m D va) as [a|] eqn:Ha; [|done]. cbn. by rewrite (proj2 Hs va).
Qed.

Lemma table_frame_same m m' D f :
  same_tables m m' D -> table_frame m' D f -> table_frame m D f.
Proof.
  intros [Hs _] [->|(j & Hj & Hp & Hf)]; [by left |]. right. exists j.
  by rewrite (same_on_pde m m' D j Hs Hj) in Hp, Hf.
Qed.

Lemma user_space_same m m' D :
  D mod 4096 = 0 -> same_tables m m' D -> user_space m D -> user_space m' D.
Proof.
  intros HD Hs []. constructor.
  - intros i j Hi Hj Hne. rewrite !(same_on_pde m m' D _ (proj1 Hs)) by lia. by apply us_tables0.
  - intros va va' pa pa' Hva Hva'. destruct (user_u32 va Hva) as [? _], (user_u32 va' Hva') as [? _].
    rewrite !(same_tables_translate m m') by done. by apply us_pages0.
  - intros va pa Hva. destruct (user_u32 va Hva) as [? _].
    rewrite (same_tables_translate m m') by done. intros Ht Hf.
    apply (us_data0 va pa Hva Ht). by eapply table_frame_same.
  - intros i j Hi Hi' Hj Hj'. rewrite !(same_on_pde m m' D _ (proj1 Hs)) by lia. by apply us_kernel_tables0.
  - intros va p Hva. rewrite (same_tables_mapping m m') by (done || apply Hva). by apply us_kernel0.
Qed.

(** ** Storing a byte *)

Lemma paged_view_store (s : paging) va pa v :
  paged_ok s -> user_addr va -> p_translate s va = Some pa ->
  let s' := set_mem s (store8 (p_mem s) pa v) in
  paged_ok s' /\
  forall b, user_addr b -> paged_view s' b = if decide (b = va) then u8 v else paged_view s b.
Proof.
  intros ([ws Hsp] & Hus & Hl) Hva Ht s'. pose proof Hsp as []. pose proof (do_aligned _ _ sp_dir) as HD.
  unfold p_translate in Ht. rewrite sp_cr3 in Ht.
  pose proof (us_data _ _ Hus va pa Hva Ht) as Hnt.
  assert (same_tables (p_mem s) (store8 (p_mem s) pa v) (p_crt s)) as Hs.
  { apply (fill_page _ _ _ (pa / 4096) (fun o => load8 (store8 (p_mem s) pa v) (pa / 4096 * 4096 + o)));
      [done | done |]. split; [|done]. intros b Hb. apply load8_store8_ne. lia. }
  split.
  - split; [exists ws; by apply space_same |]. split; [|done]. by apply (user_space_same (p_mem s)).
  - intros b Hb. unfold paged_view, p_translate, s'. cbn [p_mem p_cr3 set_mem]. rewrite sp_cr3.
    destruct (user_u32 b Hb) as [Hb32 _]. rewrite (same_tables_translate (p_mem s)) by done.
    case_decide as He.
    + subst b. rewrite Ht. apply load8_store8_same.
    + destruct (translate (p_mem s) (p_crt s) b) as [pb|] eqn:Hpb; [|done].
      apply load8_store8_ne. intros ->. apply He.
      pose proof (us_pages _ _ Hus va b pb pb Hva Hb Ht Hpb eq_refl) as Hpg.
      destruct (translate_inv _ _ _ _ Ht) as (_ & _ & _ & _ & H1).
      destruct (translate_inv _ _ _ _ Hpb) as (_ & _ & _ & _ & H2). lia.
Qed.

(** ** Mapping a page *)

Section fresh.
Context (s : paging) (ws : list Z) (va : Z) (s' : paging) (ws' fs : list Z) (f : Z).
Hypothesis Hsp : space s ws.
Hypothesis Hus : user_space (p_mem s) (p_crt s).
Hypothesis Hva : user_addr va \/ kernel_addr va.
Hypothesis Habs : p_translate s va = None.
Hypothesis Hm : mapped_fresh s ws va s' ws' fs f.

Lemma fresh_index : is_u32 va /\ va / 4194304 <> 769 /\ 1 <= va / 4194304 < 1024.
Proof.
  destruct Hva as [Hu|(Hu & ? & ?)]; [destruct (user_u32 va Hu) as (? & ? & ?) |]; unfold is_u32 in *; lia.
Qed.

Lemma fresh_not_used g : g ∈ fs -> ~ in_use (p_mem s) (p_crt s) g.
Proof.
  intros Hg. apply (free_not_used s ws); [done |].
  pose proof (mf_free _ _ _ _ _ _ _ Hm) as Hf. rewrite Forall_forall in Hf. by apply Hf.
Qed.

Lemma fresh_translate b :
  user_addr b ->
  translate (p_mem s') (p_crt s) b =
  if decide (b / 4096 = va / 4096) then Some (f * 4096 + b mod 4096) else translate (p_mem s) (p_crt s) b.
Proof.
  intros Hb. pose proof Hm as []. pose proof (sp_cr3 _ _ Hsp) as E1. pose proof (sp_cr3 _ _ mf_space) as E2.
  unfold p_translate in *. rewrite E2, mf_crt in *. rewrite E1 in *.
  destruct (user_u32 b Hb) as (Hb32 & Hbo & Hbi). destruct fresh_index as (_ & _ & Hvi).
  case_decide as He.
  - rewrite <- (mf_maps (b mod 4096)) by lia. f_equal. lia.
  - apply mapping_eq, mf_other; [done | done | done |]. intros Hd Hp Hp'.
    apply (us_tables _ _ Hus); [lia | lia | lia | done | done].
Qed.

Lemma fresh_table_frame g : table_frame (p_mem s') (p_crt s) g -> table_frame (p_mem s) (p_crt s) g \/ g ∈ fs.
Proof.
  pose proof Hm as []. intros [Hg|(j & Hj & Hp & Hf)]; [left; by left |].
  destruct fresh_index as (_ & _ & Hvi).
  destruct (decide (j = va / 4194304 /\ is_present (read_pte (p_mem s) (p_crt s + 4 * j)) = false))
    as [[-> Hab]|Hno].
  - right. rewrite <- Hf. by apply mf_table.
  - assert (j <> va / 4194304 \/ is_present (read_pte (p_mem s) (p_crt s + 4 * j)) = true) as Hc.
    { destruct (decide (j = va / 4194304)); [right | by left].
      apply not_false_iff_true. tauto. }
    rewrite mf_pde in Hp, Hf by done.
    left. right. by exists j.
Qed.

(** The entries of the directory: as before, or the new table's. *)
Lemma fresh_entries i j :
  0 <= i < 1024 -> 0 <= j < 1024 -> j <> i ->
  (is_present (read_pte (p_mem s) (p_crt s + 4 * i)) = true ->
   is_present (read_pte (p_mem s) (p_crt s + 4 * j)) = true ->
   frame (read_pte (p_mem s) (p_crt s + 4 * i)) <> frame (read_pte (p_mem s) (p_crt s + 4 * j))) ->
  is_present (read_pte (p_mem s') (p_crt s + 4 * i)) = true ->
  is_present (read_pte (p_mem s') (p_crt s + 4 * j)) = true ->
  frame (read_pte (p_mem s') (p_crt s + 4 * i)) <> frame (read_pte (p_mem s') (p_crt s + 4 * j)).
Proof.
  pose proof Hm as []. destruct fresh_index as (_ & _ & Hvi).
  - intros Hi Hj Hne Hap. set (k := va / 4194304) in *.
    assert (forall l, 0 <= l < 1024 -> is_present (read_pte (p_mem s') (p_crt s + 4 * l)) = true ->
      frame (read_pte (p_mem s') (p_crt s + 4 * l)) ∈ fs /\ l = k \/
      (read_pte (p_mem s') (p_crt s + 4 * l) = read_pte (p_mem s) (p_crt s + 4 * l) /\
       is_present (read_pte (p_mem s) (p_crt s + 4 * l)) = true)) as Hl.
    { intros l Hl Hp. destruct (decide (l = k)) as [->|Hlk].
      - destruct (is_present (read_pte (p_mem s) (p_crt s + 4 * k))) eqn:Hpk.
        + right. split; [|done]. apply mf_pde; [done | by right].
        + left. split; [by apply mf_table | done].
      - rewrite mf_pde in Hp |- * by (done || by left). by right. }
    assert (forall l, 0 <= l < 1024 -> is_present (read_pte (p_mem s) (p_crt s + 4 * l)) = true ->
      frame (read_pte (p_mem s) (p_crt s + 4 * l)) ∉ fs) as Hold.
    { intros l Hll Hp Hin. apply (fresh_not_used _ Hin). left. right. by exists l. }
    intros Hpi Hpj. destruct (Hl i ltac:(lia) Hpi) as [[Fi ->]|[Ei Pi]], (Hl j Hj Hpj) as [[Fj ->]|[Ej Pj]].
    + done.
    + rewrite Ej. intros He. apply (Hold j Hj Pj). by rewrite <- He.
    + rewrite Ei. intros He. apply (Hold i ltac:(lia) Pi). by rewrite He.
    + rewrite Ei, Ej. by apply Hap.
Qed.

Lemma fresh_kernel b p : kernel_addr b -> mapping (p_mem s') (p_crt s) b = Some p -> rw p = 1.
Proof.
  intros (Hb & Hbi & Hbo). pose proof Hm as []. destruct fresh_index as (Hv32 & Hvo & Hvi).
  destruct (decide (b / 4096 = va / 4096)) as [He|Hne].
  - destruct mf_rw as (a & Ha & Hrw). rewrite mf_crt in Ha. unfold mapping.
    rewrite <- (pte_addr_base _ _ b), He, pte_addr_base, Ha. cbn [mbind option_bind].
    destruct (is_present (read_pte (p_mem s') a)); by intros [= <-].
  - rewrite <- mf_crt at 1. rewrite mf_other; [apply (us_kernel _ _ Hus); by split | done | done | done |].
    unfold pde_addr. intros Hd Hp Hp'. destruct Hva as [Hu|(_ & Hvk & _)].
    + apply not_eq_sym, (us_tables _ _ Hus); [by apply user_u32 | unfold is_u32 in *; lia | done..].
    + apply (us_kernel_tables _ _ Hus); try done; unfold is_u32 in *; lia.
Qed.

Lemma fresh_user_space : user_space (p_mem s') (p_crt s).
Proof.
  pose proof Hm as []. destruct fresh_index as (_ & _ & Hvi). constructor.
  - intros i j Hi Hj Hne. apply fresh_entries; [lia | done | done | by apply (us_tables _ _ Hus)].
  - intros b b' pa pa' Hb Hb'. rewrite !fresh_translate by done.
    destruct (user_u32 b Hb) as [Hb32 _], (user_u32 b' Hb') as [Hb32' _].
    assert (forall c pc, is_u32 c -> translate (p_mem s) (p_crt s) c = Some pc -> pc / 4096 <> f) as Hno.
    { intros c pc Hc Ht He. apply (fresh_not_used f mf_frame). rewrite <- He. by eapply translate_in_use. }
    repeat case_decide; intros E1 E2 He; try congruence.
    + injection E1 as <-. exfalso. apply (Hno b' pa' Hb32' E2). lia.
    + injection E2 as <-. exfalso. apply (Hno b pa Hb32 E1). lia.
    + by apply (us_pages _ _ Hus b b' pa pa').
  - intros b pa Hb. rewrite fresh_translate by done. destruct (user_u32 b Hb) as [Hb32 _].
    case_decide as He; intros Ht Hf.
    + injection Ht as <-. replace ((f * 4096 + b mod 4096) / 4096) with f in Hf by lia. done.
    + apply fresh_table_frame in Hf as [Hf|Hf]; [by apply (us_data _ _ Hus b pa) |].
      apply (fresh_not_used _ Hf). by eapply translate_in_use.
  - intros i j Hi Hi' Hj Hj' Hne. apply fresh_entries; [lia | lia | done | by apply (us_kernel_tables _ _ Hus)].
  - apply fresh_kernel.
Qed.

Lemma fresh_view b : user_addr b -> paged_view s' b = paged_view s b.
Proof.
  intros Hb. pose proof Hm as []. pose proof (sp_cr3 _ _ Hsp) as E1. pose proof (sp_cr3 _ _ mf_space) as E2.
  assert (translate (p_mem s) (p_crt s) va = None) as Hno by (rewrite <- E1; exact Habs).
  unfold paged_view, p_translate. rewrite E2, mf_crt, E1. rewrite fresh_translate by done. destruct (user_u32 b Hb) as [Hb32 _]. case_decide as He.
  - rewrite (translate_page _ _ va b) by done. rewrite Hno. apply mf_zero. lia.
  - destruct (translate (p_mem s) (p_crt s) b) as [pb|] eqn:Ht; [|done].
    apply mf_bytes; [by eapply translate_in_use | by apply (us_data _ _ Hus b)].
Qed.
End fresh.

(** ** The laws *)

(** A resolved address is mapped, and nothing a program can read has changed. *)
Lemma resolve_spec (s : paging) va :
  paged_ok s -> user_addr va ->
  may (resolve s va) (fun '(s', pa) => paged_ok s' /\ p_translate s' va = Some pa /\
    forall b, user_addr b -> paged_view s' b = paged_view s b).
Proof.
  intros Hok Hva. unfold resolve. destruct (p_translate s va) as [pa|] eqn:Ht.
  { by apply may_ret. }
  destruct Hok as ([ws Hsp] & Hus & Hl). destruct (user_u32 va Hva) as (H32 & Ho & _).
  destruct (page_fault_absent s ws va Hsp H32 Ho Ht Hl)
    as [[-> _]|(s' & ws' & fs & f & -> & Hm & Hl' & _)]; [by left | right].
  cbn [mbind outcome_bind].
  assert (p_translate s' va = Some (f * 4096 + va mod 4096)) as Hmap.
  { rewrite <- (mf_maps _ _ _ _ _ _ _ Hm) by lia. f_equal. lia. }
  rewrite Hmap. cbn [deref mbind outcome_bind].
  exists (s', f * 4096 + va mod 4096). split; [done |]. split; [|split; [done |]].
  - split; [exists ws'; apply Hm |]. split; [|done]. rewrite (mf_crt _ _ _ _ _ _ _ Hm).
    apply (fresh_user_space s ws va s' ws' fs f); try done. by left.
  - intros b Hb. apply (fresh_view s ws va s' ws' fs f); try done. by left.
Qed.

(** Nor have the reference counts, the heap or the directory. *)
Lemma resolve_keeps (s : paging) va :
  paged_ok s -> user_addr va ->
  may (resolve s va) (fun '(s', _) => p_cow s' = p_cow s /\ p_crt s' = p_crt s).
Proof.
  intros Hok Hva. destruct (resolve_spec s va Hok Hva) as [-> | ([s' pa] & He & _)]; [by left | right].
  exists (s', pa). split; [done |]. revert He. unfold resolve.
  destruct (p_translate s va) as [p|] eqn:Ht; [by intros [= <- _] |].
  destruct Hok as ([ws Hsp] & Hus & Hl). destruct (user_u32 va Hva) as (H32 & Ho & _).
  destruct (page_fault_absent s ws va Hsp H32 Ho Ht Hl)
    as [[-> _]|(s1 & ws' & fs & f & -> & Hm & _ & Hc & _)]; cbn; [done |]. apply mf_crt in Hm.
  by destruct (p_translate s1 va) as [p|]; cbn; [intros [= <- _] |].
Qed.

(** Mapping a page of the kernel shows in no user program. *)
Lemma map_page_kernel (s : paging) va :
  paged_ok s -> kernel_addr va ->
  may (map_page s va) (fun s' => paged_ok s' /\ p_cow s' = p_cow s /\
    forall b, user_addr b -> paged_view s' b = paged_view s b).
Proof.
  intros ([ws Hsp] & Hus & Hl) Hva. pose proof Hva as (H32 & Hi & Ho). pose proof (sp_cr3 _ _ Hsp) as Hcr.
  destruct (mapping (p_mem s) (p_crt s) va) as [p|] eqn:Hmap.
  - rewrite (map_page_writable s ws va p); [| done | done | done | done | by apply (us_kernel _ _ Hus va) | done].
    apply may_ret. destruct (with_lock_same s yieldlock_init) as (E1 & E2 & E3 & _ & E5).
    unfold paged_view, p_translate. rewrite E1, E3, E5. split; [|done].
    split; [exists ws; by apply space_with_lock |]. rewrite E1, E2. split; [done |]. apply dir_lock_released.
  - assert (p_translate s va = None) as Htr.
    { unfold p_translate. by rewrite Hcr, translate_mapping, Hmap. }
    destruct (map_page_absent s ws va Hsp H32 Ho Htr Hl)
      as [[-> _]|(s' & ws' & fs & f & -> & Hm & Hl' & Hcow & _)]; [by left | right].
    exists s'. split; [done |]. split; [|split; [done |]].
    + split; [exists ws'; apply Hm |]. split; [|done]. rewrite (mf_crt _ _ _ _ _ _ _ Hm).
      apply (fresh_user_space s ws va s' ws' fs f); try done. by right.
    + intros b Hb. apply (fresh_view s ws va s' ws' fs f); try done. by right.
Qed.

#[export] Instance paged_space : ByteSpace paging.
Proof.
  refine {| bs_load := paged_load; bs_store := paged_store; bs_ok := paged_ok;
            bs_user := user_addr; bs_view := paged_view |}.
  - intros s a. unfold paged_view. destruct (p_translate s a); [apply load8_range | lia].
  - intros s va Hok Hva. eapply may_bind; [by apply resolve_spec |].
    intros [s' pa] (Hok' & Ht & Hv). apply may_ret. split; [|done]. rewrite <- (Hv va Hva).
    unfold paged_view. by rewrite Ht.
  - intros s va v Hok Hva. eapply may_bind; [by apply resolve_spec |].
    intros [s' pa] (Hok' & Ht & Hv). apply may_ret.
    destruct (paged_view_store s' va pa v Hok' Hva Ht) as [Hok2 Hv2]. split; [done |].
    intros b Hb. rewrite Hv2 by done. case_decide; [done | by apply Hv].
Defined.
End paged.

(** ** The kernel's address space

    From 3GB up every address space is the kernel's own memory, below it is
    that of the current process. *)

Definition KERNEL_BASE : Z := 0xC0000000.

#[export] Instance kernel_space {M} `{ByteSpace M} : ByteSpace (mem * M).
Proof.
  refine {| bs_load s a :=
              if KERNEL_BASE <=? a then Ok (s, load8 s.1 a)
              else '(um, c) ← bs_load s.2 a; Ok ((s.1, um), c);
            bs_store s a v :=
              if KERNEL_BASE <=? a then Ok (store8 s.1 a v, s.2)
              else um ← bs_store s.2 a v; Ok (s.1, um);
            bs_ok s := bs_ok s.2;
            bs_user a := KERNEL_BASE <= a \/ (a < KERNEL_BASE /\ bs_user a);
            bs_view s a := if KERNEL_BASE <=? a then load8 s.1 a else bs_view s.2 a |}.
  - intros [km um] a. destruct (_ <=? _); [apply load8_range | apply bs_view_range].
  - intros [km um] a Hok Ha. cbn [fst snd] in *. destruct (Z.leb_spec KERNEL_BASE a) as [Hk|Hk].
    + by apply may_ret.
    + destruct Ha as [? | [_ Ha]]; [lia |]. eapply may_bind; [by apply bs_load_law |].
      intros [um' c] (-> & Hok' & Hv). apply may_ret. cbn [fst snd]. split; [done |]. split; [done |].
      intros b Hb. destruct (Z.leb_spec KERNEL_BASE b); [done |]. apply Hv.
      destruct Hb as [? | [_ Hb]]; [lia | done].
  - intros [km um] a v Hok Ha. cbn [fst snd] in *. destruct (Z.leb_spec KERNEL_BASE a) as [Hk|Hk].
    + apply may_ret. cbn [fst snd]. split; [done |]. intros b Hb.
      case_decide as He; [subst b; rewrite (proj2 (Z.leb_le _ _) Hk); apply load8_store8_same |].
      destruct (Z.leb_spec KERNEL_BASE b); [by apply load8_store8_ne; congruence | done].
    + destruct Ha as [? | [_ Ha]]; [lia |]. eapply may_bind; [by apply bs_store_law |].
      intros um' (Hok' & Hv). apply may_ret. cbn [fst snd]. split; [done |]. intros b Hb.
      destruct (Z.leb_spec KERNEL_BASE b); [by rewrite decide_False by lia |]. apply Hv.
      destruct Hb as [? | [_ Hb]]; [lia | done].
Defined.

(** ** Programs of loads and stores *)

Inductive access := Load (a : Z) | Store (a v : Z).
Definition access_addr (x : access) : Z := match x with Load a | Store a _ => a end.

(** The bytes the loads of a program yield. *)
Fixpoint run_accesses {M} `{ByteSpace M} (l : list access) (m : M) : outcome (M * list Z) :=
  match l with
  | [] => Ok (m, [])
  | Load a :: l => '(m, c) ← bs_load m a; '(m, out) ← run_accesses l m; Ok (m, c :: out)
  | Store a v :: l => m ← bs_store m a v; run_accesses l m
  end.

Lemma run_accesses_flat {M} `{ByteSpace M} l : forall (s : M) (m : mem),
  bs_ok s -> (forall b, bs_user b -> bs_view s b = load8 m b) ->
  Forall (fun x => bs_user (access_addr x)) l ->
  may (run_accesses l s) (fun '(s', out) => exists m', run_accesses l m = Ok (m', out) /\
    bs_ok s' /\ forall b, bs_user b -> bs_view s' b = load8 m' b).
Proof.
  induction l as [|[a|a v] l IH]; intros s m Hok Hv Hl; cbn [run_accesses].
  - apply may_ret. by exists m.
  - apply Forall_cons in Hl as [Ha Hl]. eapply may_bind; [by apply bs_load_law |].
    intros [s1 c] (-> & Hok1 & Hv1). eapply may_bind.
    { apply (IH s1 m); [done | | done]. intros b Hb. rewrite Hv1 by done. by apply Hv. }
    intros [s' out] (m' & Hm & Hok' & Hv'). apply may_ret. exists m'. split; [|done].
    change (bs_load m a) with (Ok (m, load8 m a)). cbn [mbind outcome_bind]. rewrite Hm. cbn [mbind outcome_bind].
    by rewrite Hv by done.
  - apply Forall_cons in Hl as [Ha Hl]. eapply may_bind; [by apply bs_store_law |].
    intros s1 (Hok1 & Hv1). apply (IH s1 (store8 m a v)); [done | | done].
    intros b Hb. rewrite Hv1 by done. case_decide as He.
    + subst b. symmetry. apply load8_store8_same.
    + rewrite load8_store8_ne by congruence. by apply Hv.
Qed.

(** C4: demand paging is invisible: a program of loads and stores at user addresses,
    run on paged memory with the page fault handler behind every miss, reads the
    same bytes as on flat memory with zeros where nothing was written, and
    leaves the same contents. *)
Theorem paged_memory_flat {A} `{AlignedAllocator A} (s : paging (A := A)) (m : mem) l :
  paged_ok s -> (forall b, user_addr b -> paged_view s b = load8 m b) ->
  Forall (fun x => user_addr (access_addr x)) l ->
  may (run_accesses l s) (fun '(s', out) => exists m', run_accesses l m = Ok (m', out) /\
    paged_ok s' /\ forall b, user_addr b -> paged_view s' b = load8 m' b).
Proof. exact (@run_accesses_flat _ paged_space l s m). Qed.

(** An address space with nothing but its directory, and 32 free frames. *)
Definition blank_dir : Z := 0x101000.
Definition blank_space : paging (A := kmem) :=
  {| p_mem := store32 ∅ (blank_dir + 4 * 769) (257 * 4096 + 7); p_cr0 := 0; p_cr3 := blank_dir; p_crt := blank_dir;
     p_frames := {| fr_words := {[ 1 := [0] ]};
                    fr_map := {| bm_array := 1; bm_alloc_array := false; bm_array_size := 1;
                                 bm_total_bits := 32 |};
                    fr_lock := yieldlock_init |};
     p_cow := {| cw_ready := false; cw_world := demo_world; cw_table := HT 0 0 0;
                 cw_cells := ∅; cw_lock := yieldlock_init |};
     p_copy_lock := yieldlock_init; p_multi := false; p_dir_lock := yieldlock_init; p_handlers := ∅ |}.

Lemma blank_entry a :
  a mod 4 = 0 -> is_present (read_pte (p_mem blank_space) a) = true -> a = blank_dir + 4 * 769.
Proof.
  intros Ha Hp. destruct (decide (a = blank_dir + 4 * 769)) as [->|Hne]; [done |]. exfalso.
  assert (load32 (p_mem blank_space) a = 0) as H0.
  { cbn [p_mem blank_space]. rewrite load32_store32_ne by (unfold blank_dir in *; lia). reflexivity. }
  unfold read_pte in Hp. by rewrite H0 in Hp.
Qed.

Lemma blank_frame : frame (read_pte (p_mem blank_space) (blank_dir + 4 * 769)) = 257.
Proof. vm_compute. reflexivity. Qed.

Lemma blank_space_wf : space blank_space [0].
Proof.
  constructor; cbn [p_cr3 p_crt p_frames blank_space].
  - done.
  - constructor; vm_compute; try done; split; congruence.
  - intros i Hi Hne Hp. apply blank_entry in Hp; unfold blank_dir in *; lia.
  - constructor; [|done|done]. constructor; cbn; [done | done | done | | done]. by repeat constructor.
  - intros f Hu Hin. exfalso. assert (f = 257) as ->; [| unfold in_bits in Hin; cbn in Hin; lia].
    destruct Hu as [[->|(i & Hi & Hp & <-)]|(va & a & Hva & Ha & Hp & <-)]; [done | |].
    + apply blank_entry in Hp as ->; [apply blank_frame | unfold blank_dir; lia].
    + apply blank_entry in Hp as ->; [apply blank_frame |].
      by destruct (pte_addr_range _ _ _ _ Ha Hva).
Qed.

Lemma blank_unmapped va : user_addr va -> p_translate blank_space va = None.
Proof.
  intros Hva. destruct (p_translate blank_space va) as [pa|] eqn:Ht; [|done]. exfalso.
  unfold p_translate in Ht. destruct (translate_inv _ _ _ _ Ht) as (a & Ha & _).
  apply pte_addr_Some in Ha. unfold pde_addr in Ha. cbn [p_cr3 blank_space] in Ha.
  apply blank_entry in Ha; unfold user_addr, blank_dir in *; lia.
Qed.

Lemma blank_space_ok : paged_ok blank_space.
Proof.
  split; [exists [0]; apply blank_space_wf |]. split; [|done]. constructor.
  - intros i j Hi Hj Hne Hp. apply blank_entry in Hp; cbn [p_crt blank_space] in *; unfold blank_dir in *; lia.
  - intros va va' pa pa' Hva _ Ht. pose proof (blank_unmapped va Hva) as Hn. unfold p_translate in Hn.
    cbn [p_cr3 p_crt blank_space] in *. congruence.
  - intros va pa Hva Ht. pose proof (blank_unmapped va Hva) as Hn. unfold p_translate in Hn.
    cbn [p_cr3 p_crt blank_space] in *. congruence.
  - intros i j Hi Hi' Hj Hj' Hne Hp. apply blank_entry in Hp; cbn [p_crt blank_space] in *; unfold blank_dir in *; lia.
  - intros va p (Hva & Hi & Ho) Hp. exfalso. unfold mapping in Hp.
    destruct (pte_addr _ _ va) as [a|] eqn:Ha; [|done]. apply pte_addr_Some in Ha. unfold pde_addr in Ha.
    apply blank_entry in Ha; cbn [p_crt blank_space] in *; unfold blank_dir in *; lia.
Qed.

(** Two loads around a store, each on a fresh page: they read 0 and 7. *)
Lemma paged_memory_flat_witness :
  exists s', run_accesses [Load 0x400123; Store 0x401456 7; Load 0x401456] blank_space = Ok (s', [0; 7]) /\
    paged_ok s'.
Proof.
  destruct (paged_memory_flat blank_space ∅ [Load 0x400123; Store 0x401456 7; Load 0x401456])
    as [Hp | ([s' out] & E & m' & Em & Hok & _)].
  - exact blank_space_ok.
  - intros b Hb. unfold paged_view. rewrite blank_unmapped by exact Hb. reflexivity.
  - repeat constructor; vm_compute; congruence.
  - exfalso. assert (is_panic (run_accesses [Load 0x400123; Store 0x401456 7; Load 0x401456] blank_space) = false)
      as Hno by (vm_compute; reflexivity).
    rewrite Hp in Hno. discriminate Hno.
  - exists s'. rewrite E. assert (out = [0; 7]) as ->; [| split; [reflexivity | exact Hok]].
    vm_compute in Em. injection Em as _ <-. reflexivity.
Defined.
