(* ===== verification/Gdt.v ===== *)
(** * Segment descriptors (mem/gdt.c, mem/gdt.h)

    The global descriptor table and the task-state segment the kernel loads.
    [gdt_entries_addr] and [tss_addr] are the addresses of the two statics.  The
    fields the processor reads out of a descriptor are decoded at the end. *)

From S2P Require Import Prelude.

Definition FLAG_G_4K : Z := Z.shiftl 1 3.
Definition FLAG_D_32 : Z := Z.shiftl 1 2.
Definition DESC_P : Z := Z.shiftl 1 7.
Definition DESC_DPL_0 : Z := Z.shiftl 0 5.
Definition DESC_DPL_3 : Z := Z.shiftl 3 5.
Definition DESC_S_CODE : Z := Z.shiftl 1 4.
Definition DESC_S_DATA : Z := Z.shiftl 1 4.
Definition DESC_S_SYS : Z := Z.shiftl 0 4.
Definition DESC_TYPE_CODE : Z := 0x8.
Definition DESC_TYPE_DATA : Z := 0x2.
Definition DESC_TYPE_TSS : Z := 0x9.
Definition RPL0 : Z := 0.
Definition RPL3 : Z := 3.
Definition TI_GDT : Z := 0.
Definition SELECTOR_K_CODE : Z := Z.shiftl 1 3 + Z.shiftl TI_GDT 2 + RPL0.
Definition SELECTOR_K_DATA : Z := Z.shiftl 2 3 + Z.shiftl TI_GDT 2 + RPL0.
Definition SELECTOR_U_CODE : Z := Z.shiftl 4 3 + Z.shiftl TI_GDT 2 + RPL3.
Definition SELECTOR_U_DATA : Z := Z.shiftl 5 3 + Z.shiftl TI_GDT 2 + RPL3.

Record gdt_entry_t := GdtEntry {
  limit_low : Z; base_low : Z; base_middle : Z; access : Z; attributes : Z; base_high : Z
}.

Record gdt_ptr_t := GdtPtr { gp_limit : Z; gp_base : Z }.

(** The fields of the task-state segment the code writes; the others are 0. *)
Record tss_entry_t := Tss {
  tss_esp0 : Z; tss_ss0 : Z;
  tss_es : Z; tss_cs : Z; tss_ss : Z; tss_ds : Z; tss_fs : Z; tss_gs : Z;
  tss_iomap_base : Z
}.
Definition TSS_SIZE : Z := 104.

Definition refresh_tss_esp0 (t : tss_entry_t) (esp : Z) : tss_entry_t :=
  Tss esp (tss_ss0 t) (tss_es t) (tss_cs t) (tss_ss t) (tss_ds t) (tss_fs t) (tss_gs t) (tss_iomap_base t).

(** The statics, and what the processor has loaded: the table's register and
    the task register. *)
Record gdt := Gdt {
  gdt_entries : list gdt_entry_t;
  gdt_ptr : gdt_ptr_t;
  tss_entry : tss_entry_t;
  gdtr : option gdt_ptr_t;
  task_register : option Z
}.

Definition gdt_static : gdt :=
  Gdt (replicate 7 (GdtEntry 0 0 0 0 0 0)) (GdtPtr 0 0) (Tss 0 0 0 0 0 0 0 0 0) None None.

Section gdt.
Context (gdt_entries_addr tss_addr : Z).

Definition refresh_gdt (s : gdt) : gdt :=
  Gdt (gdt_entries s) (gdt_ptr s) (tss_entry s) (Some (gdt_ptr s)) (task_register s).

(** mem/set_gdt.S: [ltr 0x30]. *)
Definition refresh_tss (s : gdt) : gdt :=
  Gdt (gdt_entries s) (gdt_ptr s) (tss_entry s) (gdtr s) (Some 0x30).

Definition gate (base limit access flags : Z) : gdt_entry_t :=
  GdtEntry (u16 (Z.land limit 0xFFFF)) (u16 (Z.land base 0xFFFF))
    (u8 (Z.land (Z.shiftr base 16) 0xFF)) access
    (Z.lor (u8 (Z.land (Z.shiftr limit 16) 0x0F)) (u8 (Z.land (Z.shiftl flags 4) 0xF0)))
    (u8 (Z.land (Z.shiftr base 24) 0xFF)).

(** A gate behind the table is out of bounds. *)
Definition gdt_set_gate (s : gdt) (num base limit access flags : Z) : outcome gdt :=
  if (0 <=? num) && (num <? Z.of_nat (length (gdt_entries s))) then
    Ok (Gdt (<[Z.to_nat num := gate base limit access flags]> (gdt_entries s))
          (gdt_ptr s) (tss_entry s) (gdtr s) (task_register s))
  else Fault.

Definition write_tss (s : gdt) (num ss0 esp0 : Z) : outcome gdt :=
  let data := Z.lor SELECTOR_K_DATA RPL3 in
  let t := Tss esp0 ss0 data (Z.lor SELECTOR_K_CODE RPL3) data data data data TSS_SIZE in
  let s := Gdt (gdt_entries s) (gdt_ptr s) t (gdtr s) (task_register s) in
  let base := tss_addr in
  let limit := u32 (base + TSS_SIZE) in
  gdt_set_gate s num base limit
    (Z.lor (Z.lor (Z.lor DESC_P DESC_DPL_0) DESC_S_SYS) DESC_TYPE_TSS) 0x0.

Definition init_gdt (s : gdt) : outcome gdt :=
  let code dpl := Z.lor (Z.lor (Z.lor DESC_P dpl) DESC_S_CODE) DESC_TYPE_CODE in
  let data dpl := Z.lor (Z.lor (Z.lor DESC_P dpl) DESC_S_DATA) DESC_TYPE_DATA in
  let flags := Z.lor FLAG_G_4K FLAG_D_32 in
  let s := Gdt (gdt_entries s) (GdtPtr (u16 (8 * 7 - 1)) gdt_entries_addr) (tss_entry s)
             (gdtr s) (task_register s) in
  s ← gdt_set_gate s 0 0 0 0 0;
  s ← gdt_set_gate s 1 0 0xFFFFF (code DESC_DPL_0) flags;
  s ← gdt_set_gate s 2 0 0xFFFFF (data DESC_DPL_0) flags;
  s ← gdt_set_gate s 3 0 7 (data DESC_DPL_0) flags;
  s ← gdt_set_gate s 4 0 0xBFFFF (code DESC_DPL_3) flags;
  s ← gdt_set_gate s 5 0 0xBFFFF (data DESC_DPL_3) flags;
  s ← write_tss s 6 0x10 0x0;
  Ok (refresh_tss (refresh_gdt s)).

Definition update_tss_esp (s : gdt) (esp : Z) : gdt :=
  Gdt (gdt_entries s) (gdt_ptr s) (refresh_tss_esp0 (tss_entry s) esp) (gdtr s) (task_register s).
End gdt.

(** ** What the processor reads *)

Definition seg_base (e : gdt_entry_t) : Z :=
  base_low e + 65536 * base_middle e + 16777216 * base_high e.
Definition seg_limit (e : gdt_entry_t) : Z := limit_low e + 65536 * (attributes e mod 16).
Definition seg_flags (e : gdt_entry_t) : Z := attributes e / 16.
Definition seg_present (e : gdt_entry_t) : bool := Z.testbit (access e) 7.
Definition seg_dpl (e : gdt_entry_t) : Z := access e / 32 mod 4.
Definition seg_system (e : gdt_entry_t) : bool := negb (Z.testbit (access e) 4).
Definition seg_type (e : gdt_entry_t) : Z := access e mod 16.
(** The number of bytes of the segment, by the granularity flag. *)
Definition seg_bytes (e : gdt_entry_t) : Z :=
  if Z.testbit (seg_flags e) 3 then (seg_limit e + 1) * 4096 else seg_limit e + 1.

Lemma lor_nibbles lo hi : 0 <= lo < 16 -> 0 <= hi < 16 -> Z.lor lo (16 * hi) = lo + 16 * hi.
Proof.
  intros Hl Hh.
  assert (forallb (fun a => forallb (fun b => Z.lor a (16 * b) =? a + 16 * b) (seqZ 0 16)) (seqZ 0 16) = true)
    as H by (vm_compute; reflexivity).
  rewrite forallb_forall in H. specialize (H lo). rewrite forallb_forall in H.
  apply Z.eqb_eq, H; apply list_elem_of_In, elem_of_seqZ; lia.
Qed.

Lemma land_low a n : 0 <= n -> Z.land a (2 ^ n - 1) = a mod 2 ^ n.
Proof. intros Hn. rewrite <- Z.land_ones by done. f_equal. by rewrite Z.ones_equiv, Z.sub_1_r. Qed.

(** A gate decodes to the base, the low 20 bits of the limit and the flags. *)
Lemma gate_spec base limit access flags :
  is_u32 base -> is_u32 limit -> 0 <= flags < 16 ->
  seg_base (gate base limit access flags) = base /\
  seg_limit (gate base limit access flags) = limit mod 1048576 /\
  seg_flags (gate base limit access flags) = flags.
Proof.
  intros Hb Hl Hf. unfold is_u32 in *. unfold seg_base, seg_limit, seg_flags, gate. cbn.
  rewrite !Z.shiftr_div_pow2, Z.shiftl_mul_pow2 by lia.
  change 0xFFFF with (2 ^ 16 - 1). change 0xFF with (2 ^ 8 - 1). change 0x0F with (2 ^ 4 - 1).
  rewrite !land_low by lia.
  replace (u8 (Z.land (flags * 2 ^ 4) 0xF0)) with (16 * flags).
  - unfold u16, u8. rewrite lor_nibbles by lia. lia.
  - assert (forallb (fun f => u8 (Z.land (f * 2 ^ 4) 0xF0) =? 16 * f) (seqZ 0 16) = true)
      as H by (vm_compute; reflexivity).
    rewrite forallb_forall in H. specialize (H flags). symmetry.
    apply Z.eqb_eq, H, list_elem_of_In, elem_of_seqZ. lia.
Qed.

(** A flat segment: from 0, of the given bytes, ring and type. *)
Definition flat (e : gdt_entry_t) (bytes dpl type : Z) : Prop :=
  seg_present e = true /\ seg_base e = 0 /\ seg_bytes e = bytes /\ seg_dpl e = dpl /\
  seg_system e = false /\ seg_type e = type.

(** The descriptors [init_gdt] writes, with their constants evaluated. *)
Lemma init_gdt_eq gdt_addr tss_addr s :
  length (gdt_entries s) = 7%nat ->
  init_gdt gdt_addr tss_addr s = Ok (Gdt
    [gate 0 0 0 0; gate 0 0xFFFFF 0x98 0xC; gate 0 0xFFFFF 0x92 0xC; gate 0 7 0x92 0xC;
     gate 0 0xBFFFF 0xF8 0xC; gate 0 0xBFFFF 0xF2 0xC;
     gate tss_addr (u32 (tss_addr + TSS_SIZE)) 0x89 0]
    (GdtPtr 55 gdt_addr) (Tss 0 0x10 0x13 0xB 0x13 0x13 0x13 0x13 TSS_SIZE)
    (Some (GdtPtr 55 gdt_addr)) (Some 0x30)).
Proof.
  intros Hlen. destruct s as [es p t r tr]. cbn [gdt_entries] in Hlen.
  destruct es as [|e0 [|e1 [|e2 [|e3 [|e4 [|e5 [|e6 [|]]]]]]]]; try discriminate Hlen.
  reflexivity.
Qed.

Lemma flat_gates :
  flat (gate 0 0xFFFFF 0x98 0xC) 4294967296 0 DESC_TYPE_CODE /\
  flat (gate 0 0xFFFFF 0x92 0xC) 4294967296 0 DESC_TYPE_DATA /\
  flat (gate 0 7 0x92 0xC) 32768 0 DESC_TYPE_DATA /\
  flat (gate 0 0xBFFFF 0xF8 0xC) 0xC0000000 3 DESC_TYPE_CODE /\
  flat (gate 0 0xBFFFF 0xF2 0xC) 0xC0000000 3 DESC_TYPE_DATA.
Proof. unfold flat. vm_compute. repeat split. Qed.

(** [init_gdt] returns with the table loaded; the kernel's segments
    cover the 4GB in ring 0, the user's cover exactly the 3GB below the kernel in
    ring 3, and the task register selects a present system descriptor whose base
    is the task-state segment, from which a trap takes the kernel's stack segment.
    The limit of that descriptor is the low part of the segment's end address,
    where its size less one belongs. *)
Theorem init_gdt_correct gdt_addr tss_addr s :
  length (gdt_entries s) = 7%nat -> is_u32 tss_addr ->
  exists s' null kcode kdata video ucode udata tss,
    init_gdt gdt_addr tss_addr s = Ok s' /\
    gdt_entries s' = [null; kcode; kdata; video; ucode; udata; tss] /\
    seg_present null = false /\
    flat kcode 4294967296 0 DESC_TYPE_CODE /\ flat kdata 4294967296 0 DESC_TYPE_DATA /\
    flat video 32768 0 DESC_TYPE_DATA /\
    flat ucode 0xC0000000 3 DESC_TYPE_CODE /\ flat udata 0xC0000000 3 DESC_TYPE_DATA /\
    seg_present tss = true /\ seg_system tss = true /\ seg_type tss = DESC_TYPE_TSS /\
    seg_base tss = tss_addr /\ seg_limit tss = u32 (tss_addr + TSS_SIZE) mod 1048576 /\
    tss_ss0 (tss_entry s') = SELECTOR_K_DATA /\
    gdtr s' = Some (GdtPtr 55 gdt_addr) /\ task_register s' = Some (8 * 6).
Proof.
  intros Hlen Htss. rewrite init_gdt_eq by done.
  destruct (gate_spec tss_addr (u32 (tss_addr + TSS_SIZE)) 0x89 0 Htss (u32_range _))
    as (E1 & E2 & _); [lia |].
  destruct flat_gates as (F1 & F2 & F3 & F4 & F5).
  eexists _, _, _, _, _, _, _, _. split; [reflexivity |]. split; [reflexivity |].
  split; [reflexivity |]. do 5 (split; [assumption |]). do 3 (split; [reflexivity |]).
  split; [exact E1 |]. split; [exact E2 |]. split; [reflexivity |]. split; reflexivity.
Qed.

Lemma init_gdt_correct_witness :
  exists s', init_gdt 0xC0010000 0xC0011000 gdt_static = Ok s' /\
    gdtr s' = Some (GdtPtr 55 0xC0010000) /\ task_register s' = Some 48.
Proof.
  destruct (init_gdt_correct 0xC0010000 0xC0011000 gdt_static)
    as (s' & _ & _ & _ & _ & _ & _ & _ & E & _ & _ & _ & _ & _ & _ & _ & _ & _ & _ & _ & _ & _ & G & T).
  - reflexivity.
  - unfold is_u32. lia.
  - exists s'. exact (conj E (conj G T)).
Defined.
