(* ===== verification/VMem.v ===== *)
(** * Routines on byte spaces (common/stdlib.c, on virtual addresses)

    Words, strings and copies through the loads and stores of an address space,
    where each access may map a page.  What a space holds is a function from
    addresses to bytes, and a routine's effect is a patch of that function.  On
    flat memory the copies are those of [CStdlib]. *)

From S2P Require Import Prelude.
From S2P Require Import Memory.
From S2P Require Import AddressSpace.
From S2P Require Import CStdlib.

(** ** Contents *)

(** The bytes at addresses, with [bs] at [p]. *)
Definition patch (f : Z -> Z) (p : Z) (bs : list Z) (b : Z) : Z :=
  if decide (p <= b < p + len bs) then default 0 (bs !! Z.to_nat (b - p)) else f b.

Definition slice (f : Z -> Z) (p n : Z) : list Z := (fun i => f (p + i)) <$> seqZ 0 n.

Definition word16 (f : Z -> Z) (p : Z) : Z := f p + 256 * f (p + 1).
Definition word32 (f : Z -> Z) (p : Z) : Z :=
  f p + 256 * f (p + 1) + 65536 * f (p + 2) + 16777216 * f (p + 3).
Definition bytes32 (v : Z) : list Z := [u8 v; u8 (v / 256); u8 (v / 65536); u8 (v / 16777216)].

(** The string [s] is at [p], with its terminator. *)
Definition string_at (f : Z -> Z) (p : Z) (s : list Z) : Prop :=
  Forall (fun c => c <> 0) s /\ slice f p (len s + 1) = s ++ [0].

Lemma slice_length f p n : 0 <= n -> len (slice f p n) = n.
Proof. intros Hn. unfold slice. rewrite length_fmap, length_seqZ. lia. Qed.

Lemma slice_lookup f p n i : 0 <= i < n -> slice f p n !! Z.to_nat i = Some (f (p + i)).
Proof.
  intros Hi. unfold slice. rewrite list_lookup_fmap, lookup_seqZ_lt by lia. cbn. f_equal. f_equal. lia.
Qed.

Lemma slice_ext f g p n : (forall b, p <= b < p + n -> f b = g b) -> slice f p n = slice g p n.
Proof.
  intros Hfg. unfold slice. apply list_fmap_ext. intros i x Hx. apply lookup_seqZ in Hx as [-> ?].
  apply Hfg. lia.
Qed.

Lemma slice_cons f p n : 0 <= n -> slice f p (n + 1) = f p :: slice f (p + 1) n.
Proof.
  intros Hn. unfold slice. rewrite seqZ_cons by lia. cbn. rewrite Z.add_0_r. f_equal.
  replace (Z.pred (n + 1)) with n by lia. change (Z.succ 0) with (1 + 0). rewrite <- (fmap_add_seqZ 1 0 n), <- list_fmap_compose.
  apply list_fmap_ext. intros i x _. cbn. f_equal. lia.
Qed.

Lemma slice_snoc f p n : 0 <= n -> slice f p (n + 1) = slice f p n ++ [f (p + n)].
Proof.
  intros Hn. unfold slice. rewrite seqZ_app, fmap_app by lia. by rewrite Z.add_0_l.
Qed.

Lemma patch_in f p bs b x :
  bs !! Z.to_nat (b - p) = Some x -> p <= b -> patch f p bs b = x.
Proof.
  intros Hx Hb. unfold patch. pose proof (lookup_lt_Some _ _ _ Hx).
  rewrite decide_True by lia. by rewrite Hx.
Qed.

Lemma patch_out f p bs b : b < p \/ p + len bs <= b -> patch f p bs b = f b.
Proof. intros Hb. unfold patch. by rewrite decide_False by lia. Qed.

Lemma patch_nil f p b : patch f p [] b = f b.
Proof. apply patch_out. cbn. lia. Qed.

Lemma patch_app f p bs cs b : patch f p (bs ++ cs) b = patch (patch f p bs) (p + len bs) cs b.
Proof.
  unfold patch at 1 2. rewrite length_app.
  destruct (decide (p + len bs <= b < p + len bs + len cs)) as [Hb|Hb].
  - rewrite decide_True by lia. rewrite lookup_app_r by lia. do 2 f_equal. lia.
  - unfold patch. destruct (decide (p <= b < p + len bs)) as [Hb'|Hb'].
    + rewrite decide_True by lia. by rewrite lookup_app_l by lia.
    + by rewrite decide_False by lia.
Qed.

Lemma patch_snoc f p bs x b : patch f p (bs ++ [x]) b = patch (patch f p bs) (p + len bs) [x] b.
Proof. apply patch_app. Qed.

Lemma patch_cons f p x bs b : patch f p (x :: bs) b = patch (patch f p [x]) (p + 1) bs b.
Proof. apply (patch_app f p [x] bs). Qed.

Lemma slice_patch_out f p bs q n :
  q + n <= p \/ p + len bs <= q -> slice (patch f p bs) q n = slice f q n.
Proof. intros Hq. apply slice_ext. intros b Hb. apply patch_out. lia. Qed.

Lemma slice_patch_in f p bs : slice (patch f p bs) p (len bs) = bs.
Proof.
  apply list_eq. intros i. destruct (decide (i < length bs)%nat) as [Hi|Hi].
  - destruct (lookup_lt_is_Some_2 bs i Hi) as [x Hx]. rewrite Hx.
    replace i with (Z.to_nat (Z.of_nat i)) at 1 by lia. rewrite slice_lookup by lia. f_equal.
    apply patch_in; [| lia]. by replace (Z.to_nat (p + Z.of_nat i - p)) with i by lia.
  - rewrite !lookup_ge_None_2; [done | lia |].
    pose proof (slice_length (patch f p bs) p (len bs) ltac:(lia)). lia.
Qed.

Lemma slice_4 f p : slice f p 4 = [f p; f (p + 1); f (p + 2); f (p + 3)].
Proof.
  change 4 with (0 + 1 + 1 + 1 + 1). rewrite !slice_cons by lia.
  replace (p + 1 + 1) with (p + 2) by lia. by replace (p + 2 + 1) with (p + 3) by lia.
Qed.

Lemma word32_slice f g p q : slice f p 4 = slice g q 4 -> word32 f p = word32 g q.
Proof.
  intros Hs. rewrite !slice_4 in Hs. injection Hs as E0 E1 E2 E3.
  unfold word32. congruence.
Qed.

Lemma word32_patch_out f p bs q :
  q + 4 <= p \/ p + len bs <= q -> word32 (patch f p bs) q = word32 f q.
Proof. intros Hq. apply word32_slice. by apply slice_patch_out. Qed.

Lemma word32_patch_in f p v : word32 (patch f p (bytes32 v)) p = u32 v.
Proof.
  assert (slice (patch f p (bytes32 v)) p 4 = bytes32 v) as Hs by exact (slice_patch_in f p (bytes32 v)).
  rewrite slice_4 in Hs. injection Hs as E0 E1 E2 E3.
  unfold word32. rewrite E0, E1, E2, E3. unfold u8, u32. lia.
Qed.

Lemma string_at_ext f g p s :
  (forall b, p <= b < p + len s + 1 -> f b = g b) -> string_at g p s -> string_at f p s.
Proof. intros Hfg [Hs He]. split; [done |]. rewrite <- He. apply slice_ext. intros b Hb. apply Hfg. lia. Qed.

Lemma string_at_cons f p c s : string_at f p (c :: s) <-> f p = c /\ c <> 0 /\ string_at f (p + 1) s.
Proof.
  unfold string_at. cbn [length app]. replace (Z.of_nat (S (length s)) + 1) with (len s + 1 + 1) by lia.
  rewrite slice_cons by lia. rewrite Forall_cons. split.
  - intros [[Hc Hs] He]. injection He as E1 E2. done.
  - intros (<- & Hc & Hs & He). split; [done |]. by rewrite He.
Qed.

Lemma string_at_nil f p : string_at f p [] <-> f p = 0.
Proof.
  unfold string_at. cbn [length app]. rewrite slice_cons by lia. change (slice f (p + 1) _) with (@nil Z).
  split; [by intros [_ [= ->]] | intros ->; by split].
Qed.

Lemma string_at_patch f p s : Forall (fun c => c <> 0) s -> string_at (patch f p (s ++ [0])) p s.
Proof.
  intros Hs. split; [done |].
  replace (len s + 1) with (len (s ++ [0])) by (rewrite length_app; cbn; lia). apply slice_patch_in.
Qed.

Lemma load8_poke bs : forall m p b, Forall (fun c => 0 <= c < 256) bs -> load8 (poke m p bs) b = patch (load8 m) p bs b.
Proof.
  induction bs as [|c bs IH]; intros m p b Hbs; cbn [poke].
  { by rewrite patch_nil. }
  apply Forall_cons in Hbs as [Hc Hbs]. rewrite IH, (patch_cons _ p c) by done.
  unfold patch at 1 2. case_decide; [done |]. unfold patch. cbn [length]. case_decide as Hb.
  - replace b with p by lia. rewrite load8_store8_same, Z.sub_diag. by apply u8_small.
  - by rewrite load8_store8_ne by lia.
Qed.

(** ** The routines *)

Section routines.
Context {M : Type} `{ByteSpace M}.

Definition bs_load16 (m : M) (a : Z) : outcome (M * Z) :=
  '(m, c0) ← bs_load m a; '(m, c1) ← bs_load m (u32 (a + 1)); Ok (m, c0 + 256 * c1).
Definition bs_load32 (m : M) (a : Z) : outcome (M * Z) :=
  '(m, lo) ← bs_load16 m a; '(m, hi) ← bs_load16 m (u32 (a + 2)); Ok (m, lo + 65536 * hi).
Definition bs_store32 (m : M) (a v : Z) : outcome M :=
  m ← bs_store m a v; m ← bs_store m (u32 (a + 1)) (v / 256);
  m ← bs_store m (u32 (a + 2)) (v / 65536); bs_store m (u32 (a + 3)) (v / 16777216).

(** The counts are of type int. *)
Definition bs_memset (m : M) (addr value num : Z) : outcome M :=
  for_up (Z.to_nat (s32 num)) 0 (fun i m => bs_store m (u32 (addr + i)) value) m.
Definition bs_memcpy (m : M) (dst src num : Z) : outcome M :=
  for_up (Z.to_nat (s32 num)) 0 (fun i m =>
    '(m, c) ← bs_load m (u32 (src + i)); bs_store m (u32 (dst + i)) c) m.

(** [num] is the number of bytes copied so far. *)
Fixpoint bs_strcpy_from (fuel : nat) (m : M) (dst src num : Z) : outcome (M * Z) :=
  match fuel with
  | O => NoFuel
  | S fuel =>
      '(m, c) ← bs_load m src;
      m ← bs_store m dst c;
      if c =? 0 then Ok (m, num) else bs_strcpy_from fuel m (u32 (dst + 1)) (u32 (src + 1)) (num + 1)
  end.
Definition bs_strcpy (fuel : nat) (m : M) (dst src : Z) : outcome (M * Z) := bs_strcpy_from fuel m dst src 0.

Fixpoint bs_strlen_from (fuel : nat) (m : M) (str i : Z) : outcome (M * Z) :=
  match fuel with
  | O => NoFuel
  | S fuel =>
      '(m, c) ← bs_load m (u32 (str + i));
      if c =? 0 then Ok (m, i) else bs_strlen_from fuel m str (i + 1)
  end.
Definition bs_strlen (fuel : nat) (m : M) (str : Z) : outcome (M * Z) := bs_strlen_from fuel m str 0.

Fixpoint bs_strcmp_from (fuel : nat) (m : M) (str1 str2 i : Z) : outcome (M * Z) :=
  match fuel with
  | O => NoFuel
  | S fuel =>
      '(m, c) ← bs_load m (u32 (str1 + i));
      '(m, c2) ← bs_load m (u32 (str2 + i));
      let c := s8 c in
      let c2 := s8 c2 in
      if negb (c =? 0) then
        if c2 =? 0 then Ok (m, 1)
        else if negb (c =? c2) then Ok (m, if c <? c2 then -1 else 1)
        else bs_strcmp_from fuel m str1 str2 (i + 1)
      else Ok (m, if c2 =? 0 then 0 else 1)
  end.
Definition bs_strcmp (fuel : nat) (m : M) (str1 str2 : Z) : outcome (M * Z) := bs_strcmp_from fuel m str1 str2 0.

(** ** What they do *)

(** A good space with the contents [f]. *)
Definition holds (m : M) (f : Z -> Z) : Prop := bs_ok m /\ forall b, bs_user b -> bs_view m b = f b.

(** The client may use the [n] bytes at [p]. *)
Definition usable (p n : Z) : Prop := forall b, p <= b < p + n -> is_u32 b /\ bs_user b.

Lemma usable_sub p n q k : usable p n -> p <= q -> q + k <= p + n -> usable q k.
Proof. intros Hu Hq Hk b Hb. apply Hu. lia. Qed.

Lemma usable_u32 p n i : usable p n -> 0 <= i < n -> u32 (p + i) = p + i /\ bs_user (p + i).
Proof. intros Hu Hi. destruct (Hu (p + i)) as [? ?]; [lia |]. split; [by apply u32_small | done]. Qed.

Lemma holds_ext m f g : (forall b, f b = g b) -> holds m f -> holds m g.
Proof. intros Hfg [Hok Hv]. split; [done |]. intros b Hb. rewrite Hv by done. apply Hfg. Qed.

Lemma holds_range m f p : holds m f -> bs_user p -> 0 <= f p < 256.
Proof. intros [_ Hv] Hp. rewrite <- Hv by done. apply bs_view_range. Qed.

Lemma bs_load_spec m f a : holds m f -> bs_user a -> may (bs_load m a) (fun '(m', c) => c = f a /\ holds m' f).
Proof.
  intros [Hok Hv] Ha. eapply may_mono; [by apply bs_load_law |]. intros [m' c] (-> & Hok' & Hv').
  split; [by apply Hv |]. split; [done |]. intros b Hb. rewrite Hv' by done. by apply Hv.
Qed.

Lemma bs_store_spec m f a v : holds m f -> bs_user a -> may (bs_store m a v) (fun m' => holds m' (patch f a [u8 v])).
Proof.
  intros [Hok Hv] Ha. eapply may_mono; [by apply bs_store_law |]. intros m' (Hok' & Hv').
  split; [done |]. intros b Hb. rewrite Hv' by done. case_decide as He.
  - subst. symmetry. apply patch_in; [by rewrite Z.sub_diag | lia].
  - rewrite patch_out by (cbn; lia). by apply Hv.
Qed.

Lemma bs_load_at m f p n i :
  holds m f -> usable p n -> 0 <= i < n ->
  may (bs_load m (u32 (p + i))) (fun '(m', c) => c = f (p + i) /\ holds m' f).
Proof. intros Hm Hu Hi. destruct (usable_u32 p n i Hu Hi) as [-> Ha]. by apply bs_load_spec. Qed.

Lemma bs_store_at m f p n i v :
  holds m f -> usable p n -> 0 <= i < n ->
  may (bs_store m (u32 (p + i)) v) (fun m' => holds m' (patch f (p + i) [u8 v])).
Proof. intros Hm Hu Hi. destruct (usable_u32 p n i Hu Hi) as [-> Ha]. by apply bs_store_spec. Qed.

Lemma bs_load16_spec m f a : holds m f -> usable a 2 ->
  may (bs_load16 m a) (fun '(m', c) => c = word16 f a /\ holds m' f).
Proof.
  intros Hm Hu. unfold bs_load16. eapply may_bind.
  { apply bs_load_spec; [done |]. apply (Hu a). lia. }
  intros [m1 c0] [-> H1]. eapply may_bind; [apply (bs_load_at m1 f a 2 1); [done | done | lia] |].
  intros [m2 c1] [-> H2]. by apply may_ret.
Qed.

Lemma bs_load32_spec m f a : holds m f -> usable a 4 ->
  may (bs_load32 m a) (fun '(m', c) => c = word32 f a /\ holds m' f).
Proof.
  intros Hm Hu. unfold bs_load32. eapply may_bind.
  { apply bs_load16_spec; [done |]. eapply usable_sub; [done | lia | lia]. }
  intros [m1 lo] [-> H1]. destruct (usable_u32 a 4 2 Hu) as [-> _]; [lia |]. eapply may_bind.
  { apply bs_load16_spec; [done |]. eapply usable_sub; [done | lia | lia]. }
  intros [m2 hi] [-> H2]. apply may_ret. split; [|done]. unfold word32, word16.
  replace (a + 2 + 1) with (a + 3) by lia. lia.
Qed.

Lemma bs_store32_spec m f a v : holds m f -> usable a 4 ->
  may (bs_store32 m a v) (fun m' => holds m' (patch f a (bytes32 v))).
Proof.
  intros Hm Hu. unfold bs_store32. eapply may_bind.
  { apply bs_store_spec; [done |]. apply (Hu a). lia. }
  intros m1 H1. cbv beta in H1. eapply may_bind; [eapply (bs_store_at m1 _ a 4 1); [done | done | lia] |].
  intros m2 H2. cbv beta in H2. eapply may_bind; [eapply (bs_store_at m2 _ a 4 2); [done | done | lia] |].
  intros m3 H3. cbv beta in H3. eapply may_mono; [eapply (bs_store_at m3 _ a 4 3); [done | done | lia] |].
  intros m4 H4. cbv beta in H4. eapply holds_ext; [|exact H4]. intros b. symmetry. unfold bytes32.
  rewrite (patch_cons f), (patch_cons (patch f _ _)), (patch_cons (patch (patch f _ _) _ _)).
  replace (a + 1 + 1) with (a + 2) by lia. by replace (a + 2 + 1) with (a + 3) by lia.
Qed.

(** [n] steps that each store a byte patch the bytes. *)
Lemma store_loop p bs (body : Z -> M -> outcome M) m f :
  holds m f ->
  (forall i c m', bs !! Z.to_nat i = Some c -> 0 <= i ->
     holds m' (patch f p (take (Z.to_nat i) bs)) ->
     may (body i m') (fun m'' => holds m'' (patch (patch f p (take (Z.to_nat i) bs)) (p + i) [c]))) ->
  may (for_up (length bs) 0 body m) (fun m' => holds m' (patch f p bs)).
Proof.
  intros Hm Hbody. eapply may_mono.
  - apply (may_for_up (fun i m' => holds m' (patch f p (take (Z.to_nat i) bs)))).
    + eapply holds_ext; [|exact Hm]. intros b. cbn. by rewrite patch_nil.
    + intros i m' Hi Hm'. destruct (lookup_lt_is_Some_2 bs (Z.to_nat i)) as [c Hc]; [lia |].
      eapply may_mono; [apply (Hbody i c); [done | lia | done] |]. intros m'' Hm''. eapply holds_ext; [|exact Hm''].
      intros b. replace (Z.to_nat (i + 1)) with (S (Z.to_nat i)) by lia.
      rewrite (take_S_r bs (Z.to_nat i) c) by done. rewrite patch_snoc.
      by replace (len (take (Z.to_nat i) bs)) with i by (rewrite length_take; lia).
  - intros m' Hm'. by rewrite Z.add_0_l, Nat2Z.id, take_ge in Hm' by lia.
Qed.

Lemma bs_memset_spec m f p v n :
  holds m f -> 0 <= n < 2147483648 -> usable p n ->
  may (bs_memset m p v n) (fun m' => holds m' (patch f p (replicate (Z.to_nat n) (u8 v)))).
Proof.
  intros Hm Hn Hu. unfold bs_memset. rewrite s32_small by (unfold is_s32; lia).
  rewrite <- (length_replicate (Z.to_nat n) (u8 v)) at 1. apply store_loop; [done |].
  intros i c m' Hc Hi Hm'. apply lookup_replicate in Hc as [-> Hlt].
  apply (bs_store_at m' _ p n); [done | done | lia].
Qed.

Lemma bs_memcpy_spec m f dst src n :
  holds m f -> 0 <= n < 2147483648 -> usable dst n -> usable src n ->
  dst + n <= src \/ src + n <= dst ->
  may (bs_memcpy m dst src n) (fun m' => holds m' (patch f dst (slice f src n))).
Proof.
  intros Hm Hn Hd Hs Hap. unfold bs_memcpy. rewrite s32_small by (unfold is_s32; lia).
  pose proof (slice_length f src n ltac:(lia)) as Hl.
  replace (Z.to_nat n) with (length (slice f src n)) by lia. apply store_loop; [done |].
  intros i c m' Hc Hi Hm'. pose proof (lookup_lt_Some _ _ _ Hc).
  rewrite slice_lookup in Hc by lia. injection Hc as <-.
  eapply may_bind; [apply (bs_load_at m' _ src n i Hm' Hs); lia |].
  intros [m1 c] [-> H1]. rewrite patch_out by (rewrite length_take; lia).
  pose proof (holds_range m f (src + i) Hm ltac:(apply Hs; lia)).
  rewrite <- (u8_small (f (src + i))) by done. rewrite (u8_small (f (src + i))) at 1 by done.
  apply (bs_store_at m1 _ dst n); [done | done | lia].
Qed.

Lemma bs_strcpy_from_spec s : forall fuel m f dst src num,
  holds m f -> usable dst (len s + 1) -> usable src (len s + 1) -> string_at f src s ->
  dst + len s + 1 <= src \/ src + len s + 1 <= dst -> (length s < fuel)%nat ->
  may (bs_strcpy_from fuel m dst src num)
    (fun '(m', n) => n = num + len s /\ holds m' (patch f dst (s ++ [0]))).
Proof.
  induction s as [|c s IH]; intros fuel m f dst src num Hm Hd Hs Hat Hap Hfu;
    (destruct fuel as [|fuel]; [cbn in Hfu; lia |]); cbn [bs_strcpy_from length app] in *.
  - apply string_at_nil in Hat. eapply may_bind; [apply (bs_load_spec m f src Hm), Hs; lia |].
    intros [m1 c] [-> H1]. eapply may_bind; [apply (bs_store_spec m1 f dst _ H1), Hd; lia |].
    intros m2 H2. rewrite Hat in *. cbn. apply may_ret. split; [lia | done].
  - apply string_at_cons in Hat as (Hc & Hne & Hat).
    eapply may_bind; [apply (bs_load_spec m f src Hm), Hs; lia |].
    intros [m1 c'] [-> H1]. rewrite Hc.
    pose proof (holds_range m f src Hm ltac:(apply Hs; lia)) as Hr. rewrite Hc in Hr.
    eapply may_bind; [apply (bs_store_spec m1 f dst _ H1), Hd; lia |].
    intros m2 H2. rewrite u8_small in H2 by done. rewrite (proj2 (Z.eqb_neq c 0)) by done.
    destruct (decide (s = [])) as [->|Hnil].
    + destruct (usable_u32 dst 2 1) as [-> _]; [done | lia |].
      destruct (usable_u32 src 2 1) as [-> _]; [done | lia |].
      eapply may_mono; [apply (IH fuel m2 _ (dst + 1) (src + 1) (num + 1) H2) |].
      * eapply usable_sub; [exact Hd | lia | cbn; lia].
      * eapply usable_sub; [exact Hs | lia | cbn; lia].
      * eapply string_at_ext; [|exact Hat]. intros b Hb. apply patch_out. cbn in *. lia.
      * cbn in *. lia.
      * lia.
      * intros [m' n] [-> Hm']. split; [cbn; lia |]. eapply holds_ext; [|exact Hm'].
        intros b. by rewrite (patch_cons f).
    + destruct (usable_u32 dst (Z.of_nat (S (length s)) + 1) 1) as [-> _]; [done | lia |].
      destruct (usable_u32 src (Z.of_nat (S (length s)) + 1) 1) as [-> _]; [done | lia |].
      eapply may_mono; [apply (IH fuel m2 _ (dst + 1) (src + 1) (num + 1) H2) |].
      * eapply usable_sub; [exact Hd | lia | lia].
      * eapply usable_sub; [exact Hs | lia | lia].
      * eapply string_at_ext; [|exact Hat]. intros b Hb. apply patch_out. cbn in *. lia.
      * lia.
      * lia.
      * intros [m' n] [-> Hm']. split; [lia |]. eapply holds_ext; [|exact Hm'].
        intros b. by rewrite (patch_cons f).
Qed.

(** A copied string is at the destination, and the result is its length. *)
Lemma bs_strcpy_spec s fuel m f dst src :
  holds m f -> usable dst (len s + 1) -> usable src (len s + 1) -> string_at f src s ->
  dst + len s + 1 <= src \/ src + len s + 1 <= dst -> (length s < fuel)%nat ->
  may (bs_strcpy fuel m dst src) (fun '(m', n) => n = len s /\ holds m' (patch f dst (s ++ [0]))).
Proof. intros. eapply may_mono; [by eapply bs_strcpy_from_spec |]. by intros [m' n] [-> Hm']. Qed.

Lemma bs_strlen_from_spec s : forall fuel m f str i,
  holds m f -> 0 <= i -> usable str (i + len s + 1) -> string_at f (str + i) s -> (length s < fuel)%nat ->
  may (bs_strlen_from fuel m str i) (fun '(m', n) => n = i + len s /\ holds m' f).
Proof.
  induction s as [|c s IH]; intros fuel m f str i Hm Hi Hu Hat Hfu;
    (destruct fuel as [|fuel]; [cbn in Hfu; lia |]); cbn [bs_strlen_from length] in *;
    (eapply may_bind; [eapply (bs_load_at m f str); [done | done | lia] |]; intros [m1 c'] [-> H1]).
  - apply string_at_nil in Hat. rewrite Hat. apply may_ret. split; [cbn; lia | done].
  - apply string_at_cons in Hat as (Hc & Hne & Hat). rewrite Hc, (proj2 (Z.eqb_neq c 0)) by done.
    eapply may_mono; [apply (IH fuel m1 f str (i + 1)) |].
    + done.
    + lia.
    + eapply usable_sub; [exact Hu | lia | lia].
    + by replace (str + (i + 1)) with (str + i + 1) by lia.
    + lia.
    + intros [m' n] [-> Hm']. split; [lia | done].
Qed.

Lemma bs_strlen_spec s fuel m f str :
  holds m f -> usable str (len s + 1) -> string_at f str s -> (length s < fuel)%nat ->
  may (bs_strlen fuel m str) (fun '(m', n) => n = len s /\ holds m' f).
Proof.
  intros Hm Hu Hat Hfu. eapply may_mono; [eapply (bs_strlen_from_spec s fuel m f str 0) |].
  - done.
  - done.
  - by rewrite Z.add_0_l.
  - by rewrite Z.add_0_r.
  - done.
  - by intros [m' n] [-> Hm'].
Qed.

Lemma bs_strcmp_from_spec s1 : forall s2 fuel m f str1 str2 i,
  holds m f -> 0 <= i -> usable str1 (i + len s1 + 1) -> usable str2 (i + len s2 + 1) ->
  string_at f (str1 + i) s1 -> string_at f (str2 + i) s2 -> (length s1 < fuel)%nat ->
  may (bs_strcmp_from fuel m str1 str2 i) (fun '(m', r) => r = compare_strings s1 s2 /\ holds m' f).
Proof.
  induction s1 as [|c1 s1 IH]; intros s2 fuel m f str1 str2 i Hm Hi Hu1 Hu2 H1 H2 Hfu;
    (destruct fuel as [|fuel]; [cbn in Hfu; lia |]); cbn [bs_strcmp_from length] in *;
    (eapply may_bind; [eapply (bs_load_at m f str1); [done | done | lia] |]; intros [m1 c] [-> G1]);
    (eapply may_bind; [eapply (bs_load_at m1 f str2); [done | done | lia] |]; intros [m2 c] [-> G2]);
    pose proof (holds_range m f (str1 + i) Hm ltac:(apply Hu1; lia)) as R1;
    pose proof (holds_range m f (str2 + i) Hm ltac:(apply Hu2; lia)) as R2;
    rewrite !s8_zero, s8_inj by done;
    destruct s2 as [|c2 s2]; rewrite ?string_at_nil, ?string_at_cons in *.
  - rewrite H1, H2. by apply may_ret.
  - destruct H2 as (E2 & N2 & _). rewrite H1, E2. destruct (Z.eqb_spec c2 0); [done |]. by apply may_ret.
  - destruct H1 as (E1 & N1 & _). rewrite E1, H2. destruct (Z.eqb_spec c1 0); [done |]. by apply may_ret.
  - destruct H1 as (E1 & N1 & T1), H2 as (E2 & N2 & T2). rewrite E1, E2. cbn [length] in *.
    destruct (Z.eqb_spec c1 0), (Z.eqb_spec c2 0); try done. cbn [negb compare_strings].
    destruct (Z.eqb_spec c1 c2); cbn [negb]; [|by apply may_ret].
    apply IH; [done | lia | eapply usable_sub; [exact Hu1 | lia | lia] | eapply usable_sub; [exact Hu2 | lia | lia]
      | by rewrite Z.add_assoc | by rewrite Z.add_assoc | lia].
Qed.

Lemma bs_strcmp_spec s1 s2 fuel m f str1 str2 :
  holds m f -> usable str1 (len s1 + 1) -> usable str2 (len s2 + 1) ->
  string_at f str1 s1 -> string_at f str2 s2 -> (length s1 < fuel)%nat ->
  may (bs_strcmp fuel m str1 str2) (fun '(m', r) => r = compare_strings s1 s2 /\ holds m' f).
Proof. intros. apply bs_strcmp_from_spec; rewrite ?Z.add_0_r; done. Qed.
End routines.
