(* ===== verification/Elf.v ===== *)
(** * Loading a program (elf/elf.c, elf/elf.h)

    [load_elf] on a byte space: the file is somewhere in it and the segments go
    to their addresses, which on paged memory maps their pages. *)

From S2P Require Import Prelude.
From S2P Require Import Memory.
From S2P Require Import YieldLock.
From S2P Require Import KHeap.
From S2P Require Import KMalloc.
From S2P Require Import Bitmap.
From S2P Require Import HashTable.
From S2P Require Import Allocator.
From S2P Require Import Paging.
From S2P Require Import PagingMap.
From S2P Require Import AddressSpace.
From S2P Require Import CStdlib.
From S2P Require Import VMem.

(** The fields of the headers, at their offsets. *)
Section elf.
Context {M : Type} `{ByteSpace M}.

Definition e_entry (m : M) (h : Z) : outcome (M * Z) := bs_load32 m (u32 (h + 24)).
Definition e_phoff (m : M) (h : Z) : outcome (M * Z) := bs_load32 m (u32 (h + 28)).
Definition e_phentsize (m : M) (h : Z) : outcome (M * Z) := bs_load16 m (u32 (h + 42)).
Definition e_phnum (m : M) (h : Z) : outcome (M * Z) := bs_load16 m (u32 (h + 44)).
Definition p_type (m : M) (h : Z) : outcome (M * Z) := bs_load32 m h.
Definition p_offset (m : M) (h : Z) : outcome (M * Z) := bs_load32 m (u32 (h + 4)).
Definition p_vaddr (m : M) (h : Z) : outcome (M * Z) := bs_load32 m (u32 (h + 8)).
Definition p_filesz (m : M) (h : Z) : outcome (M * Z) := bs_load32 m (u32 (h + 16)).

(** [e_ident[i] == c] for the four characters, in turn. *)
Fixpoint check_magic (m : M) (content i : Z) (magic : list Z) : outcome (M * bool) :=
  match magic with
  | [] => Ok (m, true)
  | c :: magic =>
      '(m, x) ← bs_load m (u32 (content + i));
      if negb (x =? c) then Ok (m, false) else check_magic m content (i + 1) magic
  end.
Definition ELF_MAGIC : list Z := [0x7f; 69; 76; 70].

(** The loop over the program headers.  A header of type 0 is not stepped
    over: the loop counts on with the same header. *)
Fixpoint load_sections (fuel : nat) (m : M) (content program_header i : Z) : outcome M :=
  match fuel with
  | O => NoFuel
  | S fuel =>
      '(m, phnum) ← e_phnum m content;
      if i <? phnum then
        '(m, ty) ← p_type m program_header;
        if ty =? 0 then load_sections fuel m content program_header (i + 1)
        else
          '(m, vaddr) ← p_vaddr m program_header;
          '(m, offset) ← p_offset m program_header;
          '(m, filesz) ← p_filesz m program_header;
          m ← bs_memcpy m vaddr (u32 (content + offset)) filesz;
          '(m, phentsize) ← e_phentsize m content;
          load_sections fuel m content (u32 (program_header + phentsize)) (i + 1)
      else Ok m
  end.

(** [e_phnum] is a uint16. *)
Definition PHNUM_FUEL : nat := Z.to_nat 65536.

(** The result, and [*entry_addr] when it is written. *)
Definition load_elf (m : M) (content : Z) : outcome (M * Z * option Z) :=
  '(m, ok) ← check_magic m content 0 ELF_MAGIC;
  if negb ok then Ok (m, -1, None)
  else
    '(m, phoff) ← e_phoff m content;
    m ← load_sections PHNUM_FUEL m content (u32 (content + phoff)) 0;
    '(m, entry) ← e_entry m content;
    Ok (m, 0, Some entry).

(** ** What a file says *)

(** The segments in file contents [f] of up to [n] headers: address, offset, size. *)
Fixpoint segments (f : Z -> Z) (n : nat) (program_header phentsize : Z) : list (Z * Z * Z) :=
  match n with
  | O => []
  | S n =>
      if word32 f program_header =? 0 then []
      else (word32 f (program_header + 8), word32 f (program_header + 4), word32 f (program_header + 16))
             :: segments f n (program_header + phentsize) phentsize
  end.

(** Memory with the segments in place, the later over the earlier. *)
Definition loaded (f : Z -> Z) (content : Z) (segs : list (Z * Z * Z)) (g : Z -> Z) : Z -> Z :=
  foldl (fun g '(vaddr, offset, filesz) => patch g vaddr (slice f (content + offset) filesz)) g segs.

Definition file_segments (f : Z -> Z) (content : Z) : list (Z * Z * Z) :=
  segments f (Z.to_nat (word16 f (content + 44))) (content + word32 f (content + 28)) (word16 f (content + 42)).

(** The segment is in the file and goes to memory of the client's that is not the file's. *)
Definition segment_ok (content size : Z) (s : Z * Z * Z) : Prop :=
  let '(vaddr, offset, filesz) := s in
  offset + filesz <= size /\ usable vaddr filesz /\
  (vaddr + filesz <= content \/ content + size <= vaddr).

(** A file of [size] bytes at [content] whose headers are inside it. *)
Record elf_file (f : Z -> Z) (content size : Z) : Prop := {
  ef_usable : usable content size;
  ef_size : 52 <= size < 2147483648;
  ef_headers : forall k, 0 <= k < word16 f (content + 44) ->
    word32 f (content + 28) + word16 f (content + 42) * k + 32 <= size;
  ef_segments : Forall (segment_ok content size) (file_segments f content)
}.

(** ** Loading *)

Section file.
Context (f : Z -> Z) (content size : Z).
Hypothesis Hef : elf_file f content size.

(** [g] still has the file. *)
Definition has_file (g : Z -> Z) : Prop := forall b, content <= b < content + size -> g b = f b.

Lemma has_word32 g p : has_file g -> content <= p -> p + 4 <= content + size -> word32 g p = word32 f p.
Proof. intros Hg Hp He. apply word32_slice, slice_ext. intros b Hb. apply Hg. lia. Qed.

Lemma has_word16 g p : has_file g -> content <= p -> p + 2 <= content + size -> word16 g p = word16 f p.
Proof. intros Hg Hp He. unfold word16. by rewrite !Hg by lia. Qed.

Lemma at_file p n : content <= p -> p + n <= content + size -> usable p n.
Proof. intros Hp Hn. eapply usable_sub; [apply Hef | lia | lia]. Qed.

Lemma file_u32 p : content <= p < content + size -> u32 p = p.
Proof. intros Hp. apply u32_small. destruct (ef_usable _ _ _ Hef p) as [? _]; [lia | done]. Qed.

Lemma field32 (m : M) g h o :
  holds m g -> has_file g -> content <= h + o -> h + o + 4 <= content + size ->
  may (bs_load32 m (u32 (h + o))) (fun '(m', c) => c = word32 f (h + o) /\ holds m' g).
Proof.
  intros Hm Hg Hl Hh. rewrite file_u32 by lia. rewrite <- (has_word32 g) by done.
  apply bs_load32_spec; [done |]. by apply at_file.
Qed.

Lemma field16 (m : M) g h o :
  holds m g -> has_file g -> content <= h + o -> h + o + 2 <= content + size ->
  may (bs_load16 m (u32 (h + o))) (fun '(m', c) => c = word16 f (h + o) /\ holds m' g).
Proof.
  intros Hm Hg Hl Hh. rewrite file_u32 by lia. rewrite <- (has_word16 g) by done.
  apply bs_load16_spec; [done |]. by apply at_file.
Qed.

Lemma word16_range (m : M) p : holds m f -> content <= p -> p + 2 <= content + size -> 0 <= word16 f p < 65536.
Proof.
  intros Hm Hl Hh. unfold word16.
  destruct (at_file p 2 Hl Hh p ltac:(lia)) as [_ H1], (at_file p 2 Hl Hh (p + 1) ltac:(lia)) as [_ H2].
  pose proof (holds_range m f _ Hm H1). pose proof (holds_range m f _ Hm H2). lia.
Qed.

Lemma word32_range (m : M) p : holds m f -> content <= p -> p + 4 <= content + size -> is_u32 (word32 f p).
Proof.
  intros Hm Hl Hh.
  assert (forall i, 0 <= i < 4 -> 0 <= f (p + i) < 256) as Hr.
  { intros i Hi. apply (holds_range m); [done |]. apply (at_file p 4); lia. }
  pose proof (Hr 0 ltac:(lia)) as H0. pose proof (Hr 1 ltac:(lia)). pose proof (Hr 2 ltac:(lia)).
  pose proof (Hr 3 ltac:(lia)). rewrite Z.add_0_r in H0. unfold is_u32, word32. lia.
Qed.

Context (m0 : M).
Hypothesis Hm0 : holds m0 f.
Abbreviation phnum := (word16 f (content + 44)).
Abbreviation ent := (word16 f (content + 42)).

(** Once a header of type 0 is met the rest of the loop does nothing. *)
Lemma load_sections_stuck n : forall fuel (m : M) g ph i,
  holds m g -> has_file g -> content <= ph -> ph + 4 <= content + size -> word32 f ph = 0 ->
  phnum - i <= Z.of_nat n -> (n < fuel)%nat ->
  may (load_sections fuel m content ph i) (fun m' => holds m' g).
Proof.
  pose proof (ef_size _ _ _ Hef) as Hsz.
  induction n as [|n IH]; intros fuel m g ph i Hm Hg Hl Hh Hz Hn Hfu;
    (destruct fuel as [|fuel]; [lia |]); cbn [load_sections];
    (eapply may_bind; [apply (field16 m g content 44); [done | done | lia | lia] |]); intros [m1 c] [-> H1].
  - rewrite (proj2 (Z.ltb_ge _ _)) by lia. by apply may_ret.
  - destruct (Z.ltb_spec i phnum); [| by apply may_ret].
    unfold p_type. eapply may_bind.
    { apply bs_load32_spec; [exact H1 | by apply at_file]. }
    intros [m2 ty] [-> H2]. rewrite (has_word32 g) by done. rewrite Hz. cbn [Z.eqb].
    apply IH; [done.. | lia | lia].
Qed.

Lemma has_file_patch g s :
  segment_ok content size s -> has_file g ->
  has_file (let '(v, o, n) := s in patch g v (slice f (content + o) n)).
Proof.
  destruct s as [[v o] n]. intros (_ & _ & Hap) Hg b Hb. unfold patch, slice.
  rewrite length_fmap, length_seqZ. rewrite decide_False by lia. by apply Hg.
Qed.

Lemma has_file_loaded segs : forall g,
  Forall (segment_ok content size) segs -> has_file g -> has_file (loaded f content segs g).
Proof.
  induction segs as [|s segs IH]; intros g Hs Hg; [done |].
  apply Forall_cons in Hs as [Hok Hs]. unfold loaded. cbn [foldl]. apply IH; [done |].
  destruct s as [[v o] n]. by apply (has_file_patch g (v, o, n)).
Qed.

Lemma load_sections_spec n : forall fuel (m : M) g ph i,
  holds m g -> has_file g ->
  (forall k, 0 <= k < Z.of_nat n -> content <= ph + ent * k /\ ph + ent * k + 32 <= content + size) ->
  Forall (segment_ok content size) (segments f n ph ent) ->
  0 <= i -> phnum - i = Z.of_nat n -> (n < fuel)%nat ->
  may (load_sections fuel m content ph i) (fun m' => holds m' (loaded f content (segments f n ph ent) g)).
Proof.
  pose proof (ef_size _ _ _ Hef) as Hsz.
  pose proof (word16_range m0 (content + 42) Hm0 ltac:(lia) ltac:(lia)) as Hent.
  induction n as [|n IH]; intros fuel m g ph i Hm Hg Hh Hs Hi Hn Hfu;
    (destruct fuel as [|fuel]; [lia |]); cbn [load_sections segments] in *;
    (eapply may_bind; [apply (field16 m g content 44); [done | done | lia | lia] |]); intros [m1 c] [-> H1].
  { rewrite (proj2 (Z.ltb_ge _ _)) by lia. by apply may_ret. }
  destruct (Hh 0) as [Hl Hh0]; [lia |]. rewrite Z.mul_0_r, Z.add_0_r in Hl, Hh0.
  rewrite (proj2 (Z.ltb_lt _ _)) by lia. unfold p_type. eapply may_bind.
  { apply bs_load32_spec; [exact H1 | apply at_file; lia]. }
  intros [m2 ty] [-> H2]. rewrite (has_word32 g) by (done || lia).
  destruct (Z.eqb_spec (word32 f ph) 0) as [Hz|Hz].
  { apply (load_sections_stuck n); [done | done | done | lia | done | lia | lia]. }
  apply Forall_cons in Hs as [Hok Hs]. pose proof Hok as (Hos & Hu & Hap).
  eapply may_bind; [apply (field32 m2 g ph 8); [done | done | lia | lia] |]. intros [m3 v] [-> H3].
  eapply may_bind; [apply (field32 m3 g ph 4); [done | done | lia | lia] |]. intros [m4 o] [-> H4].
  eapply may_bind; [apply (field32 m4 g ph 16); [done | done | lia | lia] |]. intros [m5 sz] [-> H5].
  pose proof (word32_range m0 (ph + 4) Hm0 ltac:(lia) ltac:(lia)) as Ro.
  pose proof (word32_range m0 (ph + 16) Hm0 ltac:(lia) ltac:(lia)) as Rs.
  set (vaddr := word32 f (ph + 8)) in *. set (offset := word32 f (ph + 4)) in *.
  set (filesz := word32 f (ph + 16)) in *. unfold is_u32 in Ro, Rs.
  assert (u32 (content + offset) = content + offset \/ filesz = 0) as Hoff.
  { destruct (decide (filesz = 0)); [by right | left]. apply file_u32. lia. }
  eapply may_bind.
  { apply (bs_memcpy_spec m5 g vaddr (u32 (content + offset)) filesz H5); [lia | done | |].
    - destruct Hoff as [-> | ->]; [apply at_file; lia |]. intros b Hb. lia.
    - destruct Hoff as [-> | ->]; lia. }
  intros m6 H6. cbv beta in H6.
  assert (slice g (u32 (content + offset)) filesz = slice f (content + offset) filesz) as Hsl.
  { destruct Hoff as [-> | ->]; [| done]. apply slice_ext. intros b Hb. apply Hg. lia. }
  rewrite Hsl in H6. pose proof (has_file_patch g _ Hok Hg) as Hg'. cbv beta iota in Hg'.
  set (g' := patch g vaddr _) in *.
  eapply may_bind; [apply (field16 m6 g' content 42); [done | done | lia | lia] |]. intros [m7 e] [-> H7].
  cbn [loaded foldl]. fold g'.
  assert (u32 (ph + ent) = ph + ent \/ n = O) as Hnext.
  { destruct n; [by right | left]. destruct (Hh 1) as [? ?]; [lia |]. apply file_u32. lia. }
  assert (segments f n (ph + ent) ent = segments f n (u32 (ph + ent)) ent) as Eseg.
  { by destruct Hnext as [-> | ->]. }
  rewrite Eseg in *. apply (IH fuel m7 g' (u32 (ph + ent)) (i + 1)); [done | done | | done | lia | lia | lia].
  intros k Hk. destruct Hnext as [-> | ->]; [| lia]. destruct (Hh (k + 1)) as [? ?]; [lia |].
  replace (ph + ent + ent * k) with (ph + ent * (k + 1)) by lia. done.
Qed.

Lemma check_magic_spec magic : forall (m : M) i,
  holds m f -> 0 <= i -> i + len magic <= size ->
  may (check_magic m content i magic) (fun '(m', ok) =>
    ok = bool_decide (slice f (content + i) (len magic) = magic) /\ holds m' f).
Proof.
  induction magic as [|c magic IH]; intros m i Hm Hi Hl; cbn [check_magic length] in *.
  { by apply may_ret. }
  eapply may_bind; [apply (bs_load_at m f content size i Hm); [apply Hef | lia] |].
  intros [m1 x] [-> H1].
  replace (Z.of_nat (S (length magic))) with (len magic + 1) by lia. rewrite slice_cons by lia.
  destruct (Z.eqb_spec (f (content + i)) c) as [Hc|Hc]; cbn [negb].
  - eapply may_mono; [apply IH; [done | lia | lia] |]. intros [m' ok] [-> Hm']. split; [|done].
    replace (content + (i + 1)) with (content + i + 1) by lia.
    apply bool_decide_ext. rewrite Hc. split; [by intros -> | by intros [= ->]].
  - apply may_ret. split; [|done]. symmetry. apply bool_decide_eq_false_2. by intros [= E _].
Qed.
End file.

(** C20: a file without the magic number is refused, with memory as it was.  Otherwise
    [load_elf] stores exactly the segments of the headers before the first one of
    type 0, the later ones over the earlier, and returns the entry address; or
    the kernel panics when a page cannot be mapped. *)
Theorem load_elf_correct (m : M) f content size :
  holds m f -> elf_file f content size ->
  may (load_elf m content) (fun '(m', r, entry) =>
    if decide (slice f content 4 = ELF_MAGIC) then
      r = 0 /\ entry = Some (word32 f (content + 24)) /\
      holds m' (loaded f content (file_segments f content) f)
    else r = -1 /\ entry = None /\ holds m' f).
Proof.
  intros Hm Hef. pose proof (ef_size _ _ _ Hef) as Hsz. unfold load_elf. eapply may_bind.
  { apply (check_magic_spec f content size Hef ELF_MAGIC m 0 Hm); [lia | cbn; lia]. }
  intros [m1 ok] [-> H1]. rewrite Z.add_0_r. change (len ELF_MAGIC) with 4.
  case_decide as Hmag; [rewrite bool_decide_eq_true_2 by done | rewrite bool_decide_eq_false_2 by done];
    cbn [negb]; [| by apply may_ret].
  pose proof (word32_range f content size Hef m (content + 28) Hm ltac:(lia) ltac:(lia)) as Ro.
  pose proof (word16_range f content size Hef m (content + 42) Hm ltac:(lia) ltac:(lia)) as Re.
  pose proof (word16_range f content size Hef m (content + 44) Hm ltac:(lia) ltac:(lia)) as Rn.
  pose proof (ef_headers _ _ _ Hef) as Hh. unfold is_u32 in Ro.
  eapply may_bind; [apply (field32 f content size Hef m1 f content 28); [done | done | lia | lia] |].
  intros [m2 phoff] [-> H2].
  assert (u32 (content + word32 f (content + 28)) = content + word32 f (content + 28) \/
    word16 f (content + 44) = 0) as Hph.
  { destruct (decide (word16 f (content + 44) = 0)); [by right | left].
    specialize (Hh 0 ltac:(lia)). apply (file_u32 f content size Hef). lia. }
  assert (file_segments f content = segments f (Z.to_nat (word16 f (content + 44)))
    (u32 (content + word32 f (content + 28))) (word16 f (content + 42))) as Eseg.
  { unfold file_segments. by destruct Hph as [-> | ->]. }
  eapply may_bind.
  { apply (load_sections_spec f content size Hef m Hm (Z.to_nat (word16 f (content + 44))) PHNUM_FUEL m2 f);
      [done | done | | | lia | lia | unfold PHNUM_FUEL; lia].
    - intros k Hk. destruct Hph as [-> | Hz]; [| lia]. specialize (Hh k ltac:(lia)). split; [nia | lia].
    - rewrite <- Eseg. apply Hef. }
  intros m3 H3. cbv beta in H3. rewrite <- Eseg in H3.
  assert (has_file f content size (loaded f content (file_segments f content) f)) as Hg.
  { by apply has_file_loaded; [apply Hef |]. }
  eapply may_bind; [apply (field32 f content size Hef m3 _ content 24 H3); [exact Hg | lia | lia] |].
  intros [m4 entry] [-> H4]. by apply may_ret.
Qed.
End elf.

(** A program of one segment of four bytes for 0x401000, in the kernel's memory, loaded
    into an empty address space. *)
Definition demo_elf : list Z :=
  [0x7f; 69; 76; 70] ++ replicate 20 0 ++ [0; 16; 64; 0] ++ [52; 0; 0; 0] ++ replicate 8 0 ++ [0; 0; 32; 0; 2; 0] ++
  replicate 6 0 ++
  ([1; 0; 0; 0] ++ [116; 0; 0; 0] ++ [0; 16; 64; 0] ++ replicate 4 0 ++ [4; 0; 0; 0] ++ replicate 12 0) ++
  replicate 32 0 ++ [11; 22; 33; 44].

Definition demo_file (b : Z) : Z := patch (fun _ => 0) 0xC1000000 demo_elf b.

Definition demo_elf_space : mem * paging (A := kmem) :=
  (loop_up 120 0 (fun i m => store8 m (0xC1000000 + i) (demo_file (0xC1000000 + i))) ∅, blank_space).

(** A byte of it reads as written: 120 computations, and 0 elsewhere. *)
Lemma demo_elf_holds : holds demo_elf_space demo_file.
Proof.
  split; [exact blank_space_ok |]. intros b Hb. cbn [bs_view kernel_space demo_elf_space fst snd].
  destruct (Z.leb_spec KERNEL_BASE b) as [Hk|Hk].
  - destruct (decide (0xC1000000 <= b < 0xC1000000 + 120)) as [Hi|Hi].
    + assert (forallb (fun b => load8 (demo_elf_space.1) b =? demo_file b) (seqZ 0xC1000000 120) = true) as H
        by (vm_compute; reflexivity).
      rewrite forallb_forall in H. apply Z.eqb_eq, H, list_elem_of_In, elem_of_seqZ. lia.
    + unfold demo_file. rewrite patch_out by (change (len demo_elf) with 120; lia).
      apply (loop_up_rule (fun i m => i <= 120 -> load8 m b = 0) 120 0); [done | | done].
      intros j m Hj IH Hle. rewrite load8_store8_ne by lia. apply IH. lia.
  - destruct Hb as [? | [_ Hb]]; [lia |]. cbn [bs_view paged_space]. unfold paged_view.
    rewrite blank_unmapped by exact Hb. unfold demo_file. rewrite patch_out; [done | unfold KERNEL_BASE in *; lia].
Qed.

Lemma demo_elf_file : elf_file (M := mem * paging (A := kmem)) demo_file 0xC1000000 120.
Proof.
  constructor.
  - intros b Hb. split; [unfold is_u32; lia |]. left. unfold KERNEL_BASE. lia.
  - lia.
  - intros k Hk. change (0 <= k < 2) in Hk. change (52 + 32 * k + 32 <= 120). lia.
  - assert (file_segments demo_file 0xC1000000 = [(0x401000, 116, 4)]) as -> by (vm_compute; reflexivity).
    apply Forall_singleton. split; [lia |]. split; [| lia]. intros b Hb. split; [unfold is_u32; lia |].
    right. unfold KERNEL_BASE. split; [lia |]. cbn. unfold user_addr. lia.
Qed.

Lemma load_elf_correct_witness :
  exists m', load_elf demo_elf_space 0xC1000000 = Ok (m', 0, Some 0x401000) /\
    bs_view m' 0x401000 = 11 /\ bs_view m' 0x401003 = 44 /\ bs_view m' 0x401004 = 0.
Proof.
  destruct (load_elf_correct demo_elf_space demo_file 0xC1000000 120) as [Hp | ([[m' r] entry] & E & Hr)].
  - exact demo_elf_holds.
  - exact demo_elf_file.
  - exfalso. assert (is_panic (load_elf demo_elf_space 0xC1000000) = false) as Hno by (vm_compute; reflexivity).
    rewrite Hp in Hno. discriminate Hno.
  - rewrite decide_True in Hr by (vm_compute; reflexivity). destruct Hr as (-> & -> & _ & Hv).
    exists m'. split; [exact E |].
    assert (forall b, 0x401000 <= b < 0x402000 -> bs_user (M := mem * paging (A := kmem)) b) as Hu.
    { intros b Hb. right. unfold KERNEL_BASE. split; [lia |]. cbn. unfold user_addr. lia. }
    rewrite !Hv by (apply Hu; lia). vm_compute. auto.
Defined.
