(* ===== verification/HeapSpace.v ===== *)
(** * Memory with a heap

    Code that allocates blocks and then reads and writes their bytes: an address
    space that is an allocator as well.  The two do not disturb each other, and
    live blocks are memory its client may use.  The kernel's address space over
    a user's is one, with mem/kheap.c and mem/paging.c behind it. *)

From S2P Require Import Prelude.
From S2P Require Import Memory.
From S2P Require Import YieldLock.
From S2P Require Import KHeap.
From S2P Require Import KMalloc.
From S2P Require Import Allocator.
From S2P Require Import Bitmap.
From S2P Require Import HashTable.
From S2P Require Import IdPool.
From S2P Require Import Paging.
From S2P Require Import PagingInv.
From S2P Require Import PagingMap.
From S2P Require Import PagingFault.
From S2P Require Import PagingTheorems.
From S2P Require Import CStdlib.
From S2P Require Import AddressSpace.
From S2P Require Import VMem.

Class HeapSpace (M : Type) `{ByteSpace M} `{BlockAllocator M} := {
  hs_map_page : M -> Z -> outcome M;
  hs_load_alive : forall m a m' c L, bs_ok m -> bs_user a -> bs_load m a = Ok (m', c) ->
    alive m L -> alive m' L;
  hs_store_alive : forall m a v m' L, bs_ok m -> bs_user a -> bs_store m a v = Ok m' ->
    alive m L -> alive m' L;
  hs_malloc_ok : forall m n m' p, bs_ok m -> a_malloc m n = Ok (m', p) ->
    bs_ok m' /\ forall b, bs_user b -> bs_view m' b = bs_view m b;
  hs_malloc_aligned_ok : forall m n m' p, bs_ok m -> a_malloc_aligned m n = Ok (m', p) ->
    bs_ok m' /\ forall b, bs_user b -> bs_view m' b = bs_view m b;
  hs_free_ok : forall m p m', bs_ok m -> a_free m p = Ok m' ->
    bs_ok m' /\ forall b, bs_user b -> bs_view m' b = bs_view m b;
  hs_block : forall m L p n, alive m L -> L !! p = Some n -> usable p n;
  hs_map_law : forall m L p n va, bs_ok m -> alive m L -> L !! p = Some n -> p <= va < p + n ->
    may (hs_map_page m va) (fun m' => bs_ok m' /\ alive m' L /\
      forall b, bs_user b -> bs_view m' b = bs_view m b)
}.

(** ** Working while blocks are live *)

Section live.
Context {M : Type} `{HeapSpace M}.

(** The same space, good only while something holds that no access changes. *)
Definition kept_space (P : M -> Prop)
    (Hload : forall m a m' c, bs_ok m -> bs_user a -> bs_load m a = Ok (m', c) -> P m -> P m')
    (Hstore : forall m a v m', bs_ok m -> bs_user a -> bs_store m a v = Ok m' -> P m -> P m') : ByteSpace M.
Proof.
  refine {| bs_load := bs_load; bs_store := bs_store; bs_ok m := bs_ok m /\ P m;
            bs_user := bs_user; bs_view := bs_view |}.
  - apply bs_view_range.
  - intros m a [Hok Hal] Ha. destruct (bs_load_law m a Hok Ha) as [-> | ([m' c] & He & Hc & Hok' & Hv)];
      [by left | right]. exists (m', c). split; [done |]. split; [done |]. split; [|done].
    split; [done | by apply (Hload m a m' c)].
  - intros m a v [Hok Hal] Ha. destruct (bs_store_law m a v Hok Ha) as [-> | (m' & He & Hok' & Hv)];
      [by left | right]. exists m'. split; [done |]. split; [|done]. split; [done | by apply (Hstore m a v m')].
Defined.

(** Exactly the blocks [L] are live. *)
Definition live_space (L : gmap Z Z) : ByteSpace M :=
  kept_space (fun m => alive m L) (fun m a m' c => hs_load_alive m a m' c L)
    (fun m a v m' => hs_store_alive m a v m' L).

Definition lholds (L : gmap Z Z) (m : M) (f : Z -> Z) : Prop := holds (H := live_space L) m f.

Lemma lholds_alive L m f : lholds L m f -> alive m L.
Proof. by intros [[_ ?] _]. Qed.

Lemma lholds_ext L m f g : (forall b, f b = g b) -> lholds L m f -> lholds L m g.
Proof. apply (holds_ext (H := live_space L)). Qed.

Lemma lholds_range L m f p : lholds L m f -> bs_user p -> 0 <= f p < 256.
Proof. apply (holds_range (H := live_space L)). Qed.

Lemma l_load_spec L m f a : lholds L m f -> bs_user a ->
  may (bs_load m a) (fun '(m', c) => c = f a /\ lholds L m' f).
Proof. apply (bs_load_spec (H := live_space L)). Qed.

Lemma l_store_spec L m f a v : lholds L m f -> bs_user a ->
  may (bs_store m a v) (fun m' => lholds L m' (patch f a [u8 v])).
Proof. apply (bs_store_spec (H := live_space L)). Qed.

Lemma l_load_at L m f p n i : lholds L m f -> usable p n -> 0 <= i < n ->
  may (bs_load m (u32 (p + i))) (fun '(m', c) => c = f (p + i) /\ lholds L m' f).
Proof. apply (bs_load_at (H := live_space L)). Qed.

Lemma l_load32_spec L m f a : lholds L m f -> usable a 4 ->
  may (bs_load32 m a) (fun '(m', c) => c = word32 f a /\ lholds L m' f).
Proof. exact (bs_load32_spec (H := live_space L) m f a). Qed.

Lemma l_store32_spec L m f a v : lholds L m f -> usable a 4 ->
  may (bs_store32 m a v) (fun m' => lholds L m' (patch f a (bytes32 v))).
Proof. exact (bs_store32_spec (H := live_space L) m f a v). Qed.

Lemma l_memset_spec L m f p v n : lholds L m f -> 0 <= n < 2147483648 -> usable p n ->
  may (bs_memset m p v n) (fun m' => lholds L m' (patch f p (replicate (Z.to_nat n) (u8 v)))).
Proof. exact (bs_memset_spec (H := live_space L) m f p v n). Qed.

Lemma l_memcpy_spec L m f dst src n :
  lholds L m f -> 0 <= n < 2147483648 -> usable dst n -> usable src n ->
  dst + n <= src \/ src + n <= dst ->
  may (bs_memcpy m dst src n) (fun m' => lholds L m' (patch f dst (slice f src n))).
Proof. exact (bs_memcpy_spec (H := live_space L) m f dst src n). Qed.

Lemma l_strcpy_spec L s fuel m f dst src :
  lholds L m f -> usable dst (len s + 1) -> usable src (len s + 1) -> string_at f src s ->
  dst + len s + 1 <= src \/ src + len s + 1 <= dst -> (length s < fuel)%nat ->
  may (bs_strcpy fuel m dst src) (fun '(m', n) => n = len s /\ lholds L m' (patch f dst (s ++ [0]))).
Proof. exact (bs_strcpy_spec (H := live_space L) s fuel m f dst src). Qed.

Lemma l_strlen_spec L s fuel m f str :
  lholds L m f -> usable str (len s + 1) -> string_at f str s -> (length s < fuel)%nat ->
  may (bs_strlen fuel m str) (fun '(m', n) => n = len s /\ lholds L m' f).
Proof. exact (bs_strlen_spec (H := live_space L) s fuel m f str). Qed.

Lemma l_strcmp_spec L s1 s2 fuel m f str1 str2 :
  lholds L m f -> usable str1 (len s1 + 1) -> usable str2 (len s2 + 1) ->
  string_at f str1 s1 -> string_at f str2 s2 -> (length s1 < fuel)%nat ->
  may (bs_strcmp fuel m str1 str2) (fun '(m', r) => r = compare_strings s1 s2 /\ lholds L m' f).
Proof. exact (bs_strcmp_spec (H := live_space L) s1 s2 fuel m f str1 str2). Qed.

(** ** Blocks *)

Lemma l_kept L L' m m' f :
  lholds L m f -> bs_ok m' -> (forall b, bs_user b -> bs_view m' b = bs_view m b) -> alive m' L' ->
  lholds L' m' f.
Proof. intros [_ Hv] Hok Hv' Hal. split; [done |]. intros b Hb. cbn in *. rewrite Hv' by done. by apply Hv. Qed.

Lemma l_malloc_spec L m f n :
  lholds L m f -> Z.of_nat (size L) < capacity -> 0 < n < request_limit ->
  may (a_malloc m n) (fun '(m', p) => exists k, n <= k /\ L !! p = None /\ lholds (<[p := k]> L) m' f).
Proof.
  intros Hm Hc Hn. pose proof Hm as [[Hok Hal] _].
  destruct (malloc_law m L n Hal Hc Hn) as [-> | (m' & p & k & He & Hp & Hk & Hal')]; [by left | right].
  exists (m', p). split; [done |]. exists k. split; [done |]. split; [done |].
  destruct (hs_malloc_ok m n m' p Hok He) as [Hok' Hv]. by eapply l_kept.
Qed.

Lemma l_malloc_aligned_spec L m f n :
  lholds L m f -> Z.of_nat (size L) < capacity -> 0 < n < request_limit ->
  may (a_malloc_aligned m n) (fun '(m', p) =>
    exists k, n <= k /\ L !! p = None /\ p mod PAGE_SIZE = 0 /\ lholds (<[p := k]> L) m' f).
Proof.
  intros Hm Hc Hn. pose proof Hm as [[Hok Hal] _].
  destruct (malloc_aligned_law m L n Hal Hc Hn) as [-> | (m' & p & k & He & Hp & Hk & Hpg & Hal')];
    [by left | right].
  exists (m', p). split; [done |]. exists k. split; [done |]. split; [done |]. split; [done |].
  destruct (hs_malloc_aligned_ok m n m' p Hok He) as [Hok' Hv]. by eapply l_kept.
Qed.

Lemma l_free_spec L m f p : lholds L m f -> is_Some (L !! p) ->
  exists m', a_free m p = Ok m' /\ lholds (delete p L) m' f.
Proof.
  intros Hm [n Hp]. pose proof Hm as [[Hok Hal] _].
  destruct (free_law m L p n Hal Hp) as (m' & He & Hal'). exists m'. split; [done |].
  destruct (hs_free_ok m p m' Hok He) as [Hok' Hv]. by eapply l_kept.
Qed.

Lemma l_map_spec L m f p n va :
  lholds L m f -> L !! p = Some n -> p <= va < p + n ->
  may (hs_map_page m va) (fun m' => lholds L m' f).
Proof.
  intros Hm Hp Hva. pose proof Hm as [[Hok Hal] _].
  eapply may_mono; [by eapply hs_map_law |]. intros m' (Hok' & Hal' & Hv). by eapply l_kept.
Qed.

(** A live block may be used, and what is outside of it is not in it. *)
Lemma block_usable L m f p n k : lholds L m f -> L !! p = Some k -> n <= k -> usable p n.
Proof.
  intros Hm Hp Hk. pose proof (lholds_alive _ _ _ Hm) as Hal.
  eapply usable_sub; [by eapply hs_block | lia | lia].
Qed.

(** The blocks of the space while it holds [f]: components that allocate keep it. *)
Definition holding_alloc (f : Z -> Z) : Allocator M.
Proof.
  refine {| a_malloc := a_malloc; a_free := a_free; alive m L := lholds L m f;
            capacity := capacity (A := M); request_limit := request_limit (A := M) |}.
  - intros m L p n Hm. apply (alive_pos m L p n). by eapply lholds_alive.
  - intros m L n Hm Hc Hn. destruct (l_malloc_spec L m f n Hm Hc Hn) as [-> | ([m' p] & -> & k & Hk & Hp & Hm')];
      [by left | right]. by exists m', p, k.
  - intros m L p n Hm Hp. destruct (l_free_spec L m f p Hm) as (m' & -> & Hm'); [by exists n |]. by exists m'.
  - apply free_null.
Defined.

(** An id pool, whatever the space holds. *)
Record pool_wf (L : gmap Z Z) (st : words) (pool : id_pool_t) (ws : list Z) : Prop := {
  po_map : bm_wf st (ip_id_map pool) ws;
  po_flag : bm_alloc_array (ip_id_map pool) = true;
  po_block : is_Some (L !! bm_array (ip_id_map pool));
  po_size : ip_size pool = 32 * Z.of_nat (length ws);
  po_pos : 0 < ip_size pool;
  po_max : ip_size pool <= ip_max_size pool < 2147483648;
  po_step : 0 < ip_expand_size pool < 2147483648;
  po_div : ip_max_size pool mod 32 = 0 /\ ip_expand_size pool mod 32 = 0;
  po_req : ip_max_size pool < request_limit (A := M);
  po_lock : unlocked (ip_lock pool)
}.

Lemma pool_wf_ip L m f st pool ws :
  lholds L m f -> pool_wf L st pool ws -> ip_wf (H := holding_alloc f) m L st pool ws.
Proof. intros Hm []. by constructor. Qed.

Lemma ip_pool_wf L m f st pool ws :
  ip_wf (H := holding_alloc f) m L st pool ws -> unlocked (ip_lock pool) ->
  pool_wf L st pool ws /\ lholds L m f.
Proof. intros [? [] ? ? ? ? ? ?] Hl. split; [by constructor | done]. Qed.

Lemma pool_wf_mono L L' st pool ws :
  (forall p n, L !! p = Some n -> is_Some (L' !! p)) -> pool_wf L st pool ws -> pool_wf L' st pool ws.
Proof. intros HL []. constructor; try done. destruct po_block0 as [n Hn]. by eapply HL. Qed.

Lemma l_allocate_id_spec junk fallthrough L m f st pool ws free_id :
  lholds L m f -> pool_wf L st pool ws -> Z.of_nat (size L) < capacity -> fallthrough <> 0 ->
  0 <= free_id < ip_max_size pool -> taken ws free_id = false ->
  may (id_pool_allocate_id junk fallthrough m st pool) (fun '(m', st', pool', ok, id) =>
    exists ws' L' i, ok = TRUE /\ id = Some i /\ lholds L' m' f /\ pool_wf L' st' pool' ws' /\
      size L' = size L /\ ip_max_size pool' = ip_max_size pool /\ 0 <= i < ip_max_size pool /\ taken ws i = false /\
      (forall c, 0 <= c < i -> taken ws c = true) /\
      (forall c, taken ws' c = bool_decide (c = i) || taken ws c) /\
      (forall p k, p <> bm_array (ip_id_map pool) -> L !! p = Some k ->
        L' !! p = Some k /\ p <> bm_array (ip_id_map pool'))).
Proof.
  intros Hm Hp Hc Hft Hid Hfree.
  destruct (id_pool_allocate_id_spec (H := holding_alloc f) junk fallthrough m L st pool ws free_id)
    as [He | (m' & st' & pool' & ws' & L' & i & He & Hwf & Hl & Hsz & Hi & Hmax & Hf & Ht & Hs & Hk)];
    try done; [by apply pool_wf_ip | apply Hp | by left |].
  right. eexists. split; [exact He |]. destruct (ip_pool_wf _ _ _ _ _ _ Hwf Hl) as [Hp' Hm'].
  exists ws', L', i. done.
Qed.

(** A new pool. *)
Lemma l_id_pool_init_spec junk L m f st sz mx n :
  lholds L m f -> Z.of_nat (size L) < capacity -> sz = 32 * n -> 0 < n -> sz <= mx ->
  mx < 2147483648 -> mx mod 32 = 0 -> mx < request_limit ->
  may (id_pool_init junk m st sz mx) (fun '(m', st', pool) => exists ws L',
    lholds L' m' f /\ pool_wf L' st' pool ws /\ ip_max_size pool = mx /\ ip_size pool = sz /\
    Z.of_nat (size L') <= Z.of_nat (size L) + 1 /\ forall c, taken ws c = false).
Proof.
  intros Hm Hc Hsz Hn Hle Hmx Hdiv Hreq.
  destruct (id_pool_init_spec (H := holding_alloc f) junk m L st sz mx n Hm Hc Hsz Hn Hle Hmx Hdiv Hreq)
    as [He | (m' & st' & pool & ws & k & He & Hwf & Hl & Hmax & Hs & Ht)]; [by left | right].
  eexists. split; [exact He |]. destruct (ip_pool_wf _ _ _ _ _ _ Hwf Hl) as [Hp Hm'].
  exists ws, (<[bm_array (ip_id_map pool) := k]> L). split; [done |]. split; [done |].
  split; [done |]. split; [done |]. split; [|done].
  assert (size (<[bm_array (ip_id_map pool) := k]> L) <= S (size L))%nat; [|lia].
  rewrite map_size_insert. destruct (L !! _); cbn; lia.
Qed.

(** Memory that no new block can be: below the heap, or in a live block. *)
Definition safe (L : gmap Z Z) (p n : Z) : Prop :=
  p + n <= 0xC0800000 \/ exists q k, L !! q = Some k /\ q <= p /\ p + n <= q + k.

Lemma safe_sub L p n q k : safe L p n -> p <= q -> q + k <= p + n -> safe L q k.
Proof. intros [? | (r & j & ? & ? & ?)] ? ?; [left; lia | right; exists r, j; split; [done | lia]]. Qed.

Lemma safe_mono L L' p n : L ⊆ L' -> safe L p n -> safe L' p n.
Proof.
  intros HL [? | (q & k & Hq & ?)]; [by left | right]. exists q, k. split; [|done].
  by eapply lookup_weaken.
Qed.

Lemma safe_apart (m : M) L L' p n r k :
  alive m L' -> L ⊆ L' -> safe L p n -> L' !! r = Some k -> L !! r = None -> p + n <= r \/ r + k <= p.
Proof.
  intros Hal HL Hs Hr Hr'. destruct (block_range m L' r k Hal Hr) as (_ & ? & _).
  destruct Hs as [? | (q & j & Hq & ? & ?)]; [left; lia |].
  assert (L' !! q = Some j) as Hq' by by eapply lookup_weaken.
  destruct (blocks_apart m L' q j r k Hal Hq' Hr) as [? | ?]; [congruence | left; lia | right; lia].
Qed.
End live.

(** ** The kernel's address space *)

Section kernel.
Context {A : Type} `{BlockAllocator A}.
Abbreviation space := (mem * paging (A := A))%type.

Definition heap_of (s : space) : A := w_alloc (cw_world (p_cow s.2)).
Definition with_heap (s : space) (a : A) : space := (s.1, set_heap s.2 a).

#[export] Instance space_allocator : Allocator space.
Proof.
  refine {| a_malloc s n := '(a, p) ← a_malloc (heap_of s) n; Ok (with_heap s a, p);
            a_free s p := a ← a_free (heap_of s) p; Ok (with_heap s a);
            alive s := alive (heap_of s);
            capacity := capacity (A := A); request_limit := request_limit (A := A) |}.
  - intros s. apply alive_pos.
  - intros s L n Ha Hc Hn. destruct (malloc_law (heap_of s) L n Ha Hc Hn) as [-> | (a & p & k & -> & Hp & Hk & Ha')];
      [by left | right]. by exists (with_heap s a), p, k.
  - intros s L p n Ha Hp. destruct (free_law (heap_of s) L p n Ha Hp) as (a & -> & Ha').
    by exists (with_heap s a).
  - intros [m pg]. cbn. rewrite free_null. unfold with_heap, heap_of, set_heap, set_cow, set_alloc. cbn.
    by destruct pg as [? ? ? ? ? [? [] ? ? ?] ? ? ? ?].
Defined.

#[export] Instance space_aligned_allocator : AlignedAllocator space.
Proof.
  refine {| a_malloc_aligned s n := '(a, p) ← a_malloc_aligned (heap_of s) n; Ok (with_heap s a, p) |}.
  intros s L n Ha Hc Hn.
  destruct (malloc_aligned_law (heap_of s) L n Ha Hc Hn) as [-> | (a & p & k & -> & Hp & Hk & Hpg & Ha')];
    [by left | right]. by exists (with_heap s a), p, k.
Defined.

#[export] Instance space_block_allocator : BlockAllocator space.
Proof.
  constructor.
  - intros s L p n. apply (block_range (heap_of s)).
  - intros s L p n q k. apply (blocks_apart (heap_of s)).
Qed.

(** The allocator is no part of what paging depends on. *)
Lemma with_heap_ok (s : space) a :
  bs_ok s -> bs_ok (with_heap s a) /\ forall b, bs_view (with_heap s a) b = bs_view s b.
Proof.
  intros ([ws []] & [] & Hl). split; [|done]. split; [by exists ws | split; [by constructor | done]].
Qed.

Lemma paged_load_keeps (s : paging (A := A)) a s' c :
  paged_ok s -> user_addr a -> paged_load s a = Ok (s', c) -> p_cow s' = p_cow s /\ p_crt s' = p_crt s.
Proof.
  intros Hok Ha. unfold paged_load. destruct (resolve_keeps s a Hok Ha) as [-> | ([s1 pa] & -> & Hc)]; [done |].
  cbn. by intros [= <- _].
Qed.

Lemma paged_store_keeps (s : paging (A := A)) a v s' :
  paged_ok s -> user_addr a -> paged_store s a v = Ok s' -> p_cow s' = p_cow s /\ p_crt s' = p_crt s.
Proof.
  intros Hok Ha. unfold paged_store. destruct (resolve_keeps s a Hok Ha) as [-> | ([s1 pa] & -> & Hc)]; [done |].
  cbn. by intros [= <-].
Qed.

#[export] Instance space_heap_space : HeapSpace space.
Proof.
  refine {| hs_map_page s va := pg ← map_page s.2 va; Ok (s.1, pg) |}.
  - intros [m pg] a [m' pg'] c L Hok Ha. cbn. case_match eqn:Hk; [by intros [= <- <- <-] |].
    destruct Ha as [Ha|[_ Ha]]; [lia |].
    destruct (paged_load pg a) as [[pg1 c1]| | | |] eqn:He; cbn; try done. intros [= <- <- <-].
    unfold heap_of. cbn. by rewrite (proj1 (paged_load_keeps pg a pg1 c1 Hok Ha He)).
  - intros [m pg] a v [m' pg'] L Hok Ha. cbn. case_match eqn:Hk; [by intros [= <- <-] |].
    destruct Ha as [Ha|[_ Ha]]; [lia |].
    destruct (paged_store pg a v) as [pg1| | | |] eqn:He; cbn; try done. intros [= <- <-].
    unfold heap_of. cbn. by rewrite (proj1 (paged_store_keeps pg a v pg1 Hok Ha He)).
  - intros s n s' p Hok. cbn. destruct (a_malloc (heap_of s) n) as [[a q]| | | |]; cbn; try done.
    intros [= <- <-]. by destruct (with_heap_ok s a Hok) as [? ?].
  - intros s n s' p Hok. cbn. destruct (a_malloc_aligned (heap_of s) n) as [[a q]| | | |]; cbn; try done.
    intros [= <- <-]. by destruct (with_heap_ok s a Hok) as [? ?].
  - intros s p s' Hok. cbn. destruct (a_free (heap_of s) p) as [a| | | |]; cbn; try done.
    intros [= <-]. by destruct (with_heap_ok s a Hok) as [? ?].
  - intros s L p n Ha Hp b Hb. destruct (block_range (heap_of s) L p n Ha Hp) as (? & ? & ?).
    split; [unfold is_u32; lia |]. left. unfold KERNEL_BASE. lia.
  - intros [m pg] L p n va Hok Ha Hp Hva. destruct (block_range (heap_of (m, pg)) L p n Ha Hp) as (? & ? & ?).
    eapply may_bind.
    { apply (map_page_kernel pg va Hok). unfold kernel_addr, is_u32. lia. }
    intros pg' (Hok' & Hc & Hv). apply may_ret. cbn in *. split; [done |]. split.
    + unfold heap_of in *. cbn in *. by rewrite Hc.
    + intros b [Hb | [Hb Hu]]; [by rewrite (proj2 (Z.leb_le _ _) Hb) |].
      rewrite (proj2 (Z.leb_gt _ _) Hb). by apply Hv.
Defined.

(** Neither does an access change the page directory. *)
Lemma space_load_dir (s s' : space) a c :
  bs_ok s -> bs_user (M := space) a -> bs_load s a = Ok (s', c) -> p_crt s'.2 = p_crt s.2.
Proof.
  destruct s as [m pg]. intros Hok Ha. cbn. case_match; [by intros [= <- _] |].
  destruct Ha as [Ha|[_ Ha]]; [lia |].
  destruct (paged_load pg a) as [[pg1 c1]| | | |] eqn:He; cbn; try done. intros [= <- _].
  by apply (paged_load_keeps pg a pg1 c1 Hok Ha He).
Qed.

Lemma space_store_dir (s s' : space) a v :
  bs_ok s -> bs_user (M := space) a -> bs_store s a v = Ok s' -> p_crt s'.2 = p_crt s.2.
Proof.
  destruct s as [m pg]. intros Hok Ha. cbn. case_match; [by intros [= <-] |].
  destruct Ha as [Ha|[_ Ha]]; [lia |].
  destruct (paged_store pg a v) as [pg1| | | |] eqn:He; cbn; try done. intros [= <-].
  by apply (paged_store_keeps pg a v pg1 Hok Ha He).
Qed.

Definition dir_space (L : gmap Z Z) (D : Z) : ByteSpace space.
Proof.
  refine (kept_space (fun m => alive m L /\ p_crt m.2 = D) _ _).
  - intros m a m' c Hok Ha He [Hal <-]. split; [by eapply hs_load_alive | by eapply space_load_dir].
  - intros m a v m' Hok Ha He [Hal <-]. split; [by eapply hs_store_alive | by eapply space_store_dir].
Defined.

Lemma store32_dir L (s : space) f a v :
  lholds L s f -> usable (M := space) a 4 ->
  may (bs_store32 s a v) (fun s' => lholds L s' (patch f a (bytes32 v)) /\ p_crt s'.2 = p_crt s.2).
Proof.
  intros [[Hok Hal] Hv] Ha.
  eapply may_mono; [apply (bs_store32_spec (H := dir_space L (p_crt s.2)) s f a v) |].
  - split; [by split | exact Hv].
  - exact Ha.
  - intros s' [(Hok' & Hal' & Hd) Hv']. split; [|done]. by split; [split |].
Qed.
End kernel.

(** An empty user space under kernel memory with the bytes [bs] at [p]. *)
Lemma blank_holds p bs :
  Forall (fun c => 0 <= c < 256) bs -> KERNEL_BASE <= p ->
  lholds ∅ (poke ∅ p bs, blank_space) (patch (fun _ => 0) p bs).
Proof.
  intros Hbs Hp. split.
  - split; [exact blank_space_ok | exact boot_heap_alive].
  - intros b Hb. cbn [bs_view live_space kept_space kernel_space fst snd]. destruct (Z.leb_spec KERNEL_BASE b) as [Hk|Hk].
    + by rewrite load8_poke.
    + destruct Hb as [? | [_ Hb]]; [lia |]. cbn [bs_view paged_space]. unfold paged_view.
      rewrite blank_unmapped by exact Hb. rewrite patch_out; [done | left; lia].
Qed.
