(* ===== verification/StrArray.v ===== *)
(** * Arrays of strings (utils/string.c)

    [copy_str_array] copies an array of strings, wherever it is, into blocks of
    the heap; [destroy_str_array] frees them.  Strings are read up to their
    terminator with fuel. *)

From S2P Require Import Prelude.
From S2P Require Import Memory.
From S2P Require Import KHeap.
From S2P Require Import Allocator.
From S2P Require Import Paging.
From S2P Require Import CStdlib.
From S2P Require Import AddressSpace.
From S2P Require Import VMem.
From S2P Require Import HeapSpace.


Section str_array.
Context {M : Type} `{HeapSpace M}.
Context (fuel : nat).

(** [str_array[i]] *)
Definition array_get (m : M) (str_array i : Z) : outcome (M * Z) := bs_load32 m (u32 (str_array + 4 * i)).

Definition copy_str (str_array result i : Z) (m : M) : outcome M :=
  '(m, s) ← array_get m str_array i;
  '(m, length) ← bs_strlen fuel m s;
  '(m, str) ← a_malloc m (u32 (length + 1));
  '(m, s) ← array_get m str_array i;
  '(m, _) ← bs_strcpy fuel m str s;
  bs_store32 m (u32 (result + 4 * i)) str.

Definition copy_str_array (m : M) (num str_array : Z) : outcome (M * Z) :=
  if (num =? 0) && (str_array =? 0) then Ok (m, 0)
  else
    '(m, result) ← a_malloc m (u32 (num * 4));
    m ← for_up (Z.to_nat num) 0 (copy_str str_array result) m;
    Ok (m, result).

Definition destroy_str_array (m : M) (num str_array : Z) : outcome M :=
  if (num =? 0) && (str_array =? 0) then Ok m
  else
    m ← for_up (Z.to_nat num) 0 (fun i m => '(m, s) ← array_get m str_array i; a_free m s) m;
    a_free m str_array.

(** ** Arrays in memory *)

(** The strings [ss] in safe memory, behind the pointers of the array at [p]. *)
Record strings (L : gmap Z Z) (f : Z -> Z) (p : Z) (ss : list (list Z)) : Prop := {
  sr_array : usable p (4 * len ss) /\ safe L p (4 * len ss);
  sr_string : forall i s, ss !! i = Some s ->
    let q := word32 f (p + 4 * Z.of_nat i) in
    string_at f q s /\ usable q (len s + 1) /\ safe L q (len s + 1)
}.

(** The copy so far: the array block [r] of [k] bytes and the blocks [ps] of the strings. *)
Record copies (L0 : gmap Z Z) (f0 : Z -> Z) (r k : Z) (ss : list (list Z)) (ps : list Z)
    (L : gmap Z Z) (f : Z -> Z) : Prop := {
  cp_size : (size L = size L0 + 1 + length ps)%nat;
  cp_array : L !! r = Some k;
  cp_nodup : NoDup (r :: ps);
  cp_live : forall p, L !! p = None -> L0 !! p = None /\ p ∉ r :: ps;
  cp_delete : delete r (foldr delete L ps) = L0;
  cp_fresh : forall p, p ∈ r :: ps -> L0 !! p = None;
  cp_length : length ps = length ss;
  cp_strings : forall i p s, ps !! i = Some p -> ss !! i = Some s ->
    string_at f p s /\ exists n, L !! p = Some n /\ len s + 1 <= n;
  cp_ptrs : forall i p, ps !! i = Some p -> word32 f (r + 4 * Z.of_nat i) = p;
  cp_frame : forall b, (forall p n, p ∈ r :: ps -> L !! p = Some n -> b < p \/ p + n <= b) -> f b = f0 b
}.

Lemma copies_sub L0 f0 r k ss ps L f : copies L0 f0 r k ss ps L f -> L0 ⊆ L.
Proof.
  intros []. rewrite <- cp_delete0. etransitivity; [apply delete_subseteq |].
  clear. induction ps as [|p ps IH]; cbn; [done |]. etransitivity; [apply delete_subseteq | done].
Qed.

Lemma copies_frame L0 f0 r k ss ps L f (m : M) p n :
  copies L0 f0 r k ss ps L f -> alive m L -> safe L0 p n -> forall b, p <= b < p + n -> f b = f0 b.
Proof.
  intros Hc Hal Hs b Hb. apply (cp_frame _ _ _ _ _ _ _ _ Hc). intros q j Hq Hj.
  destruct (safe_apart m L0 L p n q j Hal (copies_sub _ _ _ _ _ _ _ _ Hc) Hs Hj) as [? | ?];
    [by apply (cp_fresh _ _ _ _ _ _ _ _ Hc) | lia | lia].
Qed.

Lemma copies_strings L0 f0 r k ss ps L f (m : M) p all :
  copies L0 f0 r k ss ps L f -> alive m L -> strings L0 f0 p all ->
  forall i s, all !! i = Some s ->
  let q := word32 f0 (p + 4 * Z.of_nat i) in
  word32 f (p + 4 * Z.of_nat i) = q /\ string_at f q s /\ safe L q (len s + 1).
Proof.
  intros Hc Hal [[_ Ha] Hs] i s Hi q. destruct (Hs i s Hi) as (Hat & _ & Hsf). fold q in Hat, Hsf.
  pose proof (lookup_lt_Some _ _ _ Hi). split; [|split].
  - apply word32_slice, slice_ext. intros b Hb. apply (copies_frame L0 f0 r k ss ps L f m p (4 * len all)); [done.. | lia].
  - eapply string_at_ext; [|exact Hat]. intros b Hb. apply (copies_frame L0 f0 r k ss ps L f m q (len s + 1)); [done.. | lia].
  - eapply safe_mono; [by eapply copies_sub | done].
Qed.

Lemma array_get_spec L (m : M) f p n i :
  lholds L m f -> usable p (4 * n) -> 0 <= i < n ->
  may (array_get m p i) (fun '(m', c) => c = word32 f (p + 4 * i) /\ lholds L m' f).
Proof.
  intros Hm Hu Hi. unfold array_get. destruct (usable_u32 p (4 * n) (4 * i) Hu) as [-> _]; [lia |].
  apply l_load32_spec; [done |]. eapply usable_sub; [done | lia | lia].
Qed.

Lemma delete_insert_fresh (L : gmap Z Z) ps p n :
  p ∉ ps -> L !! p = None -> delete p (foldr delete (<[p := n]> L) ps) = foldr delete L ps.
Proof.
  induction ps as [|q ps IH]; cbn; intros Hp HL.
  - rewrite delete_insert_eq. by apply delete_id.
  - apply not_elem_of_cons in Hp as [Hne Hp]. by rewrite delete_delete, IH.
Qed.

(** ** One string *)

Lemma copies_push L0 f0 r k ss ps L f p n s (m : M) :
  copies L0 f0 r k ss ps L f -> alive m (<[p := n]> L) -> L !! p = None -> len s + 1 <= n ->
  4 * (len ps + 1) <= k -> Forall (fun c => c <> 0) s -> is_u32 p ->
  copies L0 f0 r k (ss ++ [s]) (ps ++ [p]) (<[p := n]> L)
    (patch (patch f p (s ++ [0])) (r + 4 * len ps) (bytes32 p)).
Proof.
  intros [] Hal Hp Hn Hk Hs Hp32. destruct (cp_live0 p Hp) as [Hp0 Hpn].
  pose proof Hpn as [Hpr Hpp]%not_elem_of_cons.
  assert (forall q j, L !! q = Some j -> <[p := n]> L !! q = Some j) as Hw.
  { intros q j Hq. rewrite lookup_insert_ne; [done | congruence]. }
  assert (<[p := n]> L !! p = Some n) as Hpp' by apply lookup_insert_eq.
  assert (len (s ++ [0]) = len s + 1) as Hl by (rewrite length_app; cbn; lia).
  pose proof (blocks_apart m _ p n r k Hal Hpp' (Hw _ _ cp_array0) Hpr) as Har.
  assert (forall q j, q ∈ ps -> L !! q = Some j -> (q + j <= r \/ r + k <= q) /\ (q + j <= p \/ p + n <= q)) as Hap.
  { intros q j Hq Hj. split.
    - apply (blocks_apart m _ q j r k Hal (Hw _ _ Hj) (Hw _ _ cp_array0)).
      intros ->. by apply NoDup_cons in cp_nodup0 as [? _].
    - apply (blocks_apart m _ q j p n Hal (Hw _ _ Hj) Hpp'). congruence. }
  assert (len (bytes32 p) = 4) as Hl4 by done.
  constructor.
  - rewrite map_size_insert_None, length_app by done. cbn. lia.
  - by apply Hw.
  - rewrite app_comm_cons. apply NoDup_app. split; [done |]. split; [| apply NoDup_singleton].
    by intros x Hx ->%list_elem_of_singleton.
  - intros q [Hq Hqp]%lookup_insert_None. destruct (cp_live0 q Hq). split; [done |].
    rewrite app_comm_cons, not_elem_of_app, list_elem_of_singleton. split; [done | congruence].
  - rewrite foldr_snoc, delete_insert_eq, (delete_id L p) by done. exact cp_delete0.
  - intros q. rewrite app_comm_cons, elem_of_app, list_elem_of_singleton. intros [Hq | ->]; [by apply cp_fresh0 | done].
  - rewrite !length_app. cbn. lia.
  - intros i q t [[Hi Hq]|[-> ->]]%lookup_snoc_Some [[Hi' Ht]|[Hi' ->]]%lookup_snoc_Some; try lia.
    + destruct (cp_strings0 i q t Hq Ht) as (Hat & j & Hj & Hjt). split; [|exists j; split; [by apply Hw | done]].
      assert (q ∈ ps) as Hin by by eapply list_elem_of_lookup_2. destruct (Hap q j Hin Hj).
      eapply string_at_ext; [|exact Hat]. intros b Hb. rewrite !patch_out; [done | lia | lia].
    + split; [|by exists n].
      eapply string_at_ext; [|by apply (string_at_patch f)]. intros b Hb. apply patch_out. lia.
  - intros i q [[Hi Hq]|[-> ->]]%lookup_snoc_Some.
    + rewrite word32_patch_out, word32_patch_out by lia. by apply cp_ptrs0.
    + rewrite word32_patch_in. by apply u32_small.
  - intros b Hb. rewrite patch_out, patch_out.
    + apply cp_frame0. intros q j Hq Hj. apply Hb; [rewrite app_comm_cons; apply elem_of_app; by left | by apply Hw].
    + destruct (Hb p n) as [?|?]; [rewrite app_comm_cons; apply elem_of_app; right; by apply list_elem_of_singleton
        | done | lia | lia].
    + destruct (Hb r k) as [?|?]; [left | by apply Hw | lia | lia].
Qed.

Lemma copy_str_spec (m : M) L0 f0 r k ss L f ps p i s :
  lholds L m f -> copies L0 f0 r k (take i ss) ps L f -> strings L0 f0 p ss -> ss !! i = Some s ->
  4 * len ss <= k -> Z.of_nat (size L) < capacity -> len s + 1 < request_limit -> len s + 1 < 4294967296 ->
  (length s < fuel)%nat ->
  may (copy_str p r (Z.of_nat i) m) (fun m' => exists q n f',
    lholds (<[q := n]> L) m' f' /\ copies L0 f0 r k (take (S i) ss) (ps ++ [q]) (<[q := n]> L) f').
Proof.
  intros Hm Hc Hs Hi Hk Hcap Hreq H32 Hfu. pose proof (lookup_lt_Some _ _ _ Hi) as Hlt.
  pose proof (sr_array _ _ _ _ Hs) as [Hua _]. pose proof (cp_length _ _ _ _ _ _ _ _ Hc) as Hl.
  rewrite length_take in Hl.
  destruct (copies_strings L0 f0 r k _ ps L f m p ss Hc (lholds_alive _ _ _ Hm) Hs i s Hi) as (Hw & Hat & Hsafe).
  destruct (sr_string _ _ _ _ Hs i s Hi) as (_ & Huq & _). cbv zeta in *.
  set (w := word32 f0 (p + 4 * Z.of_nat i)) in *.
  assert (string_at f w s) as Hat' by done.
  unfold copy_str. eapply may_bind; [apply (array_get_spec L m f p (len ss)); [done | done | lia] |].
  intros [m1 c1] [-> G1]. rewrite Hw. eapply may_bind; [by apply (l_strlen_spec L s fuel m1 f) |].
  intros [m2 c2] [-> G2]. rewrite (u32_small (len s + 1)) by lia.
  eapply may_bind; [apply (l_malloc_spec L m2 f (len s + 1)); [done | done | lia] |].
  intros [m3 q] (n & Hn & Hq & G3). eapply may_bind; [apply (array_get_spec (<[q := n]> L) m3 f p (len ss)); [done | done | lia] |].
  intros [m4 c4] [-> G4]. rewrite Hw.
  assert (<[q := n]> L !! q = Some n) as Hqq by apply lookup_insert_eq.
  pose proof (block_usable _ _ _ q (len s + 1) n G4 Hqq Hn) as Huq'.
  eapply may_bind.
  { apply (l_strcpy_spec (<[q := n]> L) s fuel m4 f q w); [done | done | done | done | | done].
    destruct (safe_apart m4 L (<[q := n]> L) w (len s + 1) q n (lholds_alive _ _ _ G4)) as [? | ?];
      [by apply insert_subseteq | done | done | done | lia | lia]. }
  intros [m5 c5] [-> G5].
  pose proof (cp_array _ _ _ _ _ _ _ _ Hc) as Hr.
  assert (<[q := n]> L !! r = Some k) as Hr' by (rewrite lookup_insert_ne; [done | congruence]).
  pose proof (block_usable _ _ _ r (4 * len ss) k G5 Hr' Hk) as Hur.
  destruct (usable_u32 r (4 * len ss) (4 * Z.of_nat i) Hur) as [-> _]; [lia |].
  eapply may_mono; [apply (l_store32_spec (<[q := n]> L) m5 (patch f q (s ++ [0]))); [exact G5 | eapply usable_sub; [exact Hur | lia | lia]] |].
  intros m6 G6. exists q, n, (patch (patch f q (s ++ [0])) (r + 4 * len ps) (bytes32 q)).
  replace (len ps) with (Z.of_nat i) by lia. split; [exact G6 |].
  rewrite (take_S_r ss i s Hi). replace (Z.of_nat i) with (len ps) by lia.
  apply (copies_push L0 f0 r k (take i ss) ps L f q n s m6); try done.
  - by apply (lholds_alive _ _ _ G6).
  - lia.
  - apply Hat.
  - destruct (Huq' q) as [? _]; [lia | done].
Qed.

(** The copies of an array: blocks of their own, everything else as it was. *)
Lemma copy_str_array_spec (m : M) L f p ss :
  lholds L m f -> strings L f p ss -> 0 < len ss < 1073741824 -> 4 * len ss < request_limit ->
  Z.of_nat (size L) + len ss < capacity ->
  Forall (fun s => len s + 1 < request_limit /\ len s + 1 < 4294967296 /\ (length s < fuel)%nat) ss ->
  may (copy_str_array m (len ss) p) (fun '(m', r) => exists k ps L' f',
    4 * len ss <= k /\ lholds L' m' f' /\ copies L f r k ss ps L' f').
Proof.
  intros Hm Hs Hn Hreq Hcap Hss. unfold copy_str_array.
  rewrite (proj2 (Z.eqb_neq (len ss) 0)) by lia. cbn [andb]. rewrite u32_small by lia.
  eapply may_bind; [apply (l_malloc_spec L m f (len ss * 4)); [done | lia | lia] |].
  intros [m1 r] (k & Hk & Hr & G1). rewrite Nat2Z.id. eapply may_bind.
  - apply (may_for_up (fun i m' => exists ps L' f', lholds L' m' f' /\
      copies L f r k (take (Z.to_nat i) ss) ps L' f')).
    + exists [], (<[r := k]> L), f. split; [done |]. cbn. constructor; cbn.
      * rewrite map_size_insert_None by done. lia.
      * apply lookup_insert_eq.
      * apply NoDup_singleton.
      * intros q [Hq Hne]%lookup_insert_None. split; [done |]. rewrite list_elem_of_singleton. congruence.
      * rewrite delete_insert_eq. by apply delete_id.
      * by intros q ->%list_elem_of_singleton.
      * done.
      * done.
      * done.
      * done.
    + intros i m' Hi (ps & L' & f' & Hm' & Hc).
      destruct (lookup_lt_is_Some_2 ss (Z.to_nat i)) as [s Hsi]; [lia |].
      pose proof (Forall_lookup_1 _ _ _ _ Hss Hsi) as (Hs1 & Hs2 & Hs3).
      pose proof (cp_size _ _ _ _ _ _ _ _ Hc). pose proof (cp_length _ _ _ _ _ _ _ _ Hc) as Hl.
      rewrite length_take in Hl.
      replace i with (Z.of_nat (Z.to_nat i)) at 1 by lia.
      eapply may_mono; [apply (copy_str_spec m' L f r k ss L' f' ps p (Z.to_nat i) s); (done || lia) |].
      intros m'' (q & n & f'' & Hm'' & Hc''). exists (ps ++ [q]), (<[q := n]> L'), f''.
      replace (Z.to_nat (i + 1)) with (S (Z.to_nat i)) by lia. done.
  - intros m2 (ps & L' & f' & G2 & Hc). rewrite Z.add_0_l, Nat2Z.id, take_ge in Hc by lia.
    apply may_ret. exists k, ps, L', f'. split; [lia | done].
Qed.

(** ** Freeing *)

Lemma free_strings ps : forall i (m : M) L f r n,
  lholds L m f -> (forall j p, ps !! j = Some p -> word32 f (r + 4 * (i + Z.of_nat j)) = p) ->
  NoDup ps -> (forall p, p ∈ ps -> is_Some (L !! p)) -> usable r (4 * n) -> 0 <= i -> i + len ps <= n ->
  may (for_up (length ps) i (fun i m => '(m, s) ← array_get m r i; a_free m s) m)
    (fun m' => lholds (foldr delete L ps) m' f).
Proof.
  induction ps as [|p ps IH]; intros i m L f r n Hm Hw Hnd HL Hu Hi Hn; cbn [length for_up foldr] in *.
  { by apply may_ret. }
  apply NoDup_cons in Hnd as [Hp Hnd].
  eapply may_bind.
  { eapply may_bind; [apply (array_get_spec L m f r n); [done | done | lia] |].
    intros [m1 c] [-> G1]. pose proof (Hw 0%nat p eq_refl) as Hw0. rewrite Z.add_0_r in Hw0. rewrite Hw0.
    destruct (l_free_spec L m1 f p G1) as (m2 & -> & G2); [apply HL; by left |]. apply may_ret. exact G2. }
  intros m2 G2. cbv beta in G2.
  assert (foldr delete (delete p L) ps = delete p (foldr delete L ps)) as <-.
  { clear. induction ps as [|q ps IH]; cbn; [done |]. by rewrite IH, delete_delete. }
  apply (IH (i + 1) m2 (delete p L) f r n); try done.
  - intros j q Hj. rewrite <- (Hw (S j) q Hj). do 2 f_equal. lia.
  - intros q Hq. rewrite lookup_delete_ne by (intros ->; done). apply HL. by right.
  - lia.
  - lia.
Qed.

(** Freeing the copies leaves the heap's blocks as they were before the copying. *)
Lemma destroy_str_array_spec (m : M) L f L0 f0 r k ss ps :
  lholds L m f -> copies L0 f0 r k ss ps L f -> 0 < len ss -> 4 * len ss <= k ->
  may (destroy_str_array m (len ss) r) (fun m' => lholds L0 m' f).
Proof.
  intros Hm Hc Hn Hk. pose proof Hc as []. unfold destroy_str_array.
  rewrite (proj2 (Z.eqb_neq (len ss) 0)) by lia. cbn [andb].
  rewrite Nat2Z.id, <- cp_length0. apply NoDup_cons in cp_nodup0 as [Hr Hnd].
  assert (forall p, p ∈ ps -> is_Some (L !! p)) as Hlive.
  { intros p Hp. apply not_eq_None_Some. intros Hnone. destruct (cp_live0 p Hnone) as [_ Hni].
    apply Hni. by right. }
  eapply may_bind.
  { pose proof (block_usable L m f r (4 * len ss) k Hm cp_array0 Hk) as Hur.
    apply (free_strings ps 0 m L f r (len ss)); [done | | done | done | done | lia | lia].
    intros j p Hj. rewrite <- (cp_ptrs0 j p Hj). done. }
  intros m1 G1. cbv beta in G1.
  destruct (l_free_spec _ m1 f r G1) as (m2 & -> & G2).
  - exists k. clear - Hr cp_array0. induction ps as [|q ps IH]; cbn; [done |].
    apply not_elem_of_cons in Hr as [Hne Hr]. rewrite lookup_delete_ne by done. by apply IH.
  - apply may_ret. rewrite <- cp_delete0. exact G2.
Qed.

(** C21: copying an array of strings and destroying the copy: between the two, the
    copy's pointers lead to the same strings in fresh blocks, while all memory outside
    of these is as it was; after both, exactly the blocks live before are live. *)
Theorem str_array_roundtrip (m : M) L f p ss :
  lholds L m f -> strings L f p ss -> 0 < len ss < 1073741824 -> 4 * len ss < request_limit ->
  Z.of_nat (size L) + len ss < capacity ->
  Forall (fun s => len s + 1 < request_limit /\ len s + 1 < 4294967296 /\ (length s < fuel)%nat) ss ->
  may (copy_str_array m (len ss) p) (fun '(m', r) =>
    (exists L' f', lholds L' m' f' /\
      (forall i s, ss !! i = Some s -> string_at f' (word32 f' (r + 4 * Z.of_nat i)) s) /\
      (forall q n, safe L q n -> forall b, q <= b < q + n -> f' b = f b)) /\
    may (destroy_str_array m' (len ss) r) (fun m'' => exists f'', lholds L m'' f'' /\
      forall q n, safe L q n -> forall b, q <= b < q + n -> f'' b = f b)).
Proof.
  intros Hm Hs Hn Hreq Hcap Hss.
  eapply may_mono; [by apply copy_str_array_spec |]. intros [m' r] (k & ps & L' & f' & Hk & Hm' & Hc).
  pose proof (fun q n H => copies_frame L f r k ss ps L' f' m' q n Hc (lholds_alive _ _ _ Hm') H) as Hfr.
  split.
  - exists L', f'. split; [done |]. split; [|exact Hfr]. intros i s Hi.
    destruct (lookup_lt_is_Some_2 ps i) as [q Hq].
    { rewrite (cp_length _ _ _ _ _ _ _ _ Hc). by eapply lookup_lt_Some. }
    rewrite (cp_ptrs _ _ _ _ _ _ _ _ Hc i q Hq). by eapply (cp_strings _ _ _ _ _ _ _ _ Hc i).
  - eapply may_mono; [apply (destroy_str_array_spec m' L' f' L f r k ss ps); (done || lia) |].
    intros m'' Hm''. by exists f'.
Qed.
End str_array.

(** The strings ab and the empty one, and their array, in kernel memory. *)
Definition demo_array : list Z := [8; 0; 16; 192; 11; 0; 16; 192; 97; 98; 0; 0].
Definition demo_strings : list (list Z) := [[97; 98]; []].
Abbreviation demo_bytes := (patch (fun _ => 0) 0xC0100000 demo_array).

Lemma demo_strings_ok : strings (M := mem * paging (A := kmem)) ∅ demo_bytes 0xC0100000 demo_strings.
Proof.
  assert (forall p n, KERNEL_BASE <= p -> p + n <= 0xC0800000 ->
    usable (M := mem * paging (A := kmem)) p n /\ safe ∅ p n) as Hks.
  { intros p n Hp Hn. split; [| by left]. intros b Hb. unfold KERNEL_BASE in Hp.
    split; [unfold is_u32; lia | left; unfold KERNEL_BASE; lia]. }
  constructor.
  - apply Hks; cbn; unfold KERNEL_BASE; lia.
  - intros [|[|i]] s Hi; injection Hi as <- || discriminate Hi; cbv zeta.
    + assert (word32 demo_bytes (0xC0100000 + 4 * Z.of_nat 0) = 0xC0100008) as -> by (vm_compute; reflexivity).
      split; [|apply Hks; cbn; unfold KERNEL_BASE; lia].
      split; [repeat constructor; discriminate | vm_compute; reflexivity].
    + assert (word32 demo_bytes (0xC0100000 + 4 * Z.of_nat 1) = 0xC010000B) as -> by (vm_compute; reflexivity).
      split; [|apply Hks; cbn; unfold KERNEL_BASE; lia].
      split; [constructor | vm_compute; reflexivity].
Qed.

Lemma str_array_roundtrip_witness :
  exists m' r m'', copy_str_array 8 (poke ∅ 0xC0100000 demo_array, blank_space) 2 0xC0100000 = Ok (m', r) /\
    destroy_str_array m' 2 r = Ok m'' /\ alive m'' ∅.
Proof.
  set (m := (poke ∅ 0xC0100000 demo_array, blank_space)).
  assert (is_panic ('(m', r) ← copy_str_array 8 m 2 0xC0100000; destroy_str_array m' 2 r) = false) as Hno
    by (vm_compute; reflexivity).
  destruct (str_array_roundtrip 8 m ∅ demo_bytes 0xC0100000 demo_strings) as [Hp | ([m' r] & E & _ & Hd)].
  - apply blank_holds; [repeat constructor; vm_compute; congruence | vm_compute; congruence].
  - exact demo_strings_ok.
  - vm_compute. split; [reflexivity | reflexivity].
  - vm_compute. reflexivity.
  - vm_compute. reflexivity.
  - repeat constructor; vm_compute; reflexivity.
  - exfalso. change (len demo_strings) with 2 in Hp. rewrite Hp in Hno. discriminate Hno.
  - change (len demo_strings) with 2 in *. rewrite E in Hno. cbn [mbind outcome_bind] in Hno.
    destruct Hd as [Hp | (m'' & E' & f'' & [[_ Ha] _] & _)]; [rewrite Hp in Hno; discriminate Hno |].
    exists m', r, m''. exact (conj E (conj E' Ha)).
Defined.
