(* ===== verification/Monitor.v ===== *)
(** * The text screen (monitor/monitor.c)

    The VGA text buffer of 25 rows of 80 cells, the cursor, numbers and text on
    it.  A write outside of the buffer is a fault.  Printing from memory is in
    [Printf]. *)

From S2P Require Import Prelude.
From S2P Require Import Memory.
From S2P Require Import YieldLock.
From S2P Require Import CStdlib.
From S2P Require Import MathRand.

Definition COLOR_BLACK : Z := 0.
Definition COLOR_WHITE : Z := 7.
Definition backColour : Z := COLOR_BLACK.
Definition foreColour : Z := COLOR_WHITE.

(** [vga_high] and [vga_low] are the registers 14 and 15 of the VGA board, the
    position of the hardware cursor. *)
Record monitor := Monitor {
  video_memory : list Z;
  cursor_x : Z;
  cursor_y : Z;
  vga_high : Z;
  vga_low : Z;
  monitor_lock : yieldlock_t
}.

Definition set_video (s : monitor) (v : list Z) : monitor :=
  Monitor v (cursor_x s) (cursor_y s) (vga_high s) (vga_low s) (monitor_lock s).
Definition set_cursor (s : monitor) (x y : Z) : monitor :=
  Monitor (video_memory s) (s16 x) (s16 y) (vga_high s) (vga_low s) (monitor_lock s).
Definition set_monitor_lock (s : monitor) (l : yieldlock_t) : monitor :=
  Monitor (video_memory s) (cursor_x s) (cursor_y s) (vga_high s) (vga_low s) l.

Definition monitor_init (s : monitor) : monitor := set_monitor_lock s yieldlock_init.

Definition move_cursor_position (s : monitor) : monitor :=
  let cursorLocation := u16 (cursor_y s * 80 + cursor_x s) in
  Monitor (video_memory s) (cursor_x s) (cursor_y s) (u8 (Z.shiftr cursorLocation 8))
    (u8 cursorLocation) (monitor_lock s).

(** [yieldlock_lock(&monitor_lock); ... yieldlock_unlock(&monitor_lock);] *)
Definition with_monitor_lock (s : monitor) (f : monitor -> outcome monitor) : outcome monitor :=
  l ← yieldlock_lock (monitor_lock s);
  s ← f (set_monitor_lock s l);
  Ok (set_monitor_lock s (yieldlock_unlock (monitor_lock s))).

Definition monitor_move_cursor (s : monitor) (delta_x delta_y : Z) : outcome monitor :=
  with_monitor_lock s (fun s =>
    let x := s16 (cursor_x s + delta_x) in
    let y_offset := div x 80 in
    let x := s16 (mod_ x 80) in
    let y := s16 (cursor_y s + s32 (delta_y + y_offset)) in
    let '(x, y) := if y <? 0 then (0, 0) else (x, y) in
    let '(x, y) := if 25 <=? y then (79, 24) else (x, y) in
    Ok (move_cursor_position (set_cursor s x y))).

(** A space in the colour of the screen. *)
Definition blank : Z :=
  let attributeByte := u8 (Z.lor (Z.shiftl backColour 4) (Z.land foreColour 0x0F)) in
  u16 (Z.lor 0x20 (Z.shiftl attributeByte 8)).

Definition scroll (s : monitor) : outcome monitor :=
  if 25 <=? cursor_y s then
    v ← for_up (Z.to_nat (24 * 80)) 0 (fun i v => c ← buf_get v (i + 80); buf_set v i c) (video_memory s);
    v ← for_up (Z.to_nat 80) (24 * 80) (fun i v => buf_set v i blank) v;
    Ok (set_cursor (set_video s v) (cursor_x s) 24)
  else Ok s.

Definition monitor_clear (s : monitor) : outcome monitor :=
  with_monitor_lock s (fun s =>
    v ← for_up (Z.to_nat (80 * 25)) 0 (fun i v => buf_set v i blank) (video_memory s);
    Ok (move_cursor_position (set_cursor (set_video s v) 0 0))).

(** The cell of a character: its code and the attribute byte. *)
Definition cell (c color : Z) : Z :=
  let attributeByte := u8 (Z.lor (Z.shiftl backColour 4) (Z.land color 0x0F)) in
  let attribute := u16 (Z.shiftl attributeByte 8) in
  u16 (Z.lor c attribute).

(** [c] is a byte, a signed [char] in the code. *)
Definition put_char (s : monitor) (c color : Z) : outcome monitor :=
  let c := s8 c in
  if (c =? 8) && negb (cursor_x s =? 0) then Ok (set_cursor s (cursor_x s - 1) (cursor_y s))
  else if c =? 9 then Ok (set_cursor s (Z.land (cursor_x s + 8) (Z.lnot (8 - 1))) (cursor_y s))
  else if c =? 13 then Ok (set_cursor s 0 (cursor_y s))
  else if c =? 10 then Ok (set_cursor s 0 (cursor_y s + 1))
  else if 32 <=? c then
    v ← buf_set (video_memory s) (cursor_y s * 80 + cursor_x s) (cell c color);
    Ok (set_cursor (set_video s v) (cursor_x s + 1) (cursor_y s))
  else Ok s.

Definition monitor_write_char_with_color (s : monitor) (c color : Z) : outcome monitor :=
  s ← put_char s c color;
  let s := if 80 <=? cursor_x s then set_cursor s 0 (cursor_y s + 1) else s in
  s ← scroll s;
  Ok (move_cursor_position s).

(** The characters of a string. *)
Fixpoint monitor_write_string_with_color (s : monitor) (c : list Z) (color : Z) : outcome monitor :=
  match c with
  | [] => Ok s
  | ch :: c => s ← monitor_write_char_with_color s ch color; monitor_write_string_with_color s c color
  end.

(** ** Numbers *)

Definition hex_char (tmp : Z) : Z := if 10 <=? tmp then tmp - 10 + 97 else tmp + 48.

(** [for (i = 28; i > 0; i -= 4)], [n] iterations from [i] on. *)
Fixpoint write_nibbles (k : nat) (s : monitor) (n i : Z) (noZeroes : bool) (color : Z) :
    outcome monitor :=
  match k with
  | O => Ok s
  | S k =>
      let tmp := Z.land (Z.shiftr n i) 0xF in
      if (tmp =? 0) && noZeroes then write_nibbles k s n (i - 4) noZeroes color
      else
        s ← monitor_write_char_with_color s (hex_char tmp) color;
        write_nibbles k s n (i - 4) false color
  end.

Definition monitor_write_hex_withc_color (s : monitor) (n color : Z) : outcome monitor :=
  s ← monitor_write_string_with_color s [48; 120] color;
  s ← write_nibbles 7 s n 28 true color;
  monitor_write_char_with_color s (hex_char (Z.land n 0xF)) color.

(** [while (acc > 0) { c[i] = '0' + acc % 10; acc /= 10; i++; }]: at most ten
    digits, in an array of 32. *)
Fixpoint low_digits (fuel : nat) (acc : Z) : outcome (list Z) :=
  match fuel with
  | O => NoFuel
  | S fuel =>
      if 0 <? acc then c ← low_digits fuel (acc / 10); Ok (48 + acc mod 10 :: c) else Ok []
  end.
Definition DEC_FUEL : nat := 33.

(** [while (i >= 0) c2[i--] = c[j++];] *)
Fixpoint reverse_into (c c2 : list Z) : list Z :=
  match c with [] => c2 | d :: c => reverse_into c (d :: c2) end.

Definition monitor_write_dec_with_color (s : monitor) (n color : Z) : outcome monitor :=
  if n =? 0 then monitor_write_char_with_color s 48 color
  else
    '(s, n) ← (if n <? 0 then
                 s ← monitor_write_char_with_color s 45 color; Ok (s, s32 (- n))
               else Ok (s, n));
    c ← low_digits DEC_FUEL (u32 n);
    monitor_write_string_with_color s (reverse_into c []) color.

(** ** The buffer and the cursor *)

(** The cursor is on the screen and the hardware cursor where it is. *)
Record screen (s : monitor) : Prop := {
  sc_len : length (video_memory s) = Z.to_nat (80 * 25);
  sc_x : 0 <= cursor_x s < 80;
  sc_y : 0 <= cursor_y s < 25;
  sc_hw : vga_high s * 256 + vga_low s = cursor_y s * 80 + cursor_x s
}.

(** The cell the cursor is at. *)
Definition position (s : monitor) : Z := cursor_y s * 80 + cursor_x s.

Lemma fill_spec b n : forall start v, (start + n <= length v)%nat ->
  for_up n (Z.of_nat start) (fun i v => buf_set v i b) v
  = Ok (take start v ++ replicate n b ++ drop (start + n) v).
Proof.
  induction n as [|n IH]; intros start v Hl; cbn [for_up].
  - cbn [replicate app]. by rewrite Nat.add_0_r, take_drop.
  - rewrite buf_set_ok by lia. cbn [mbind outcome_bind].
    replace (Z.of_nat start + 1) with (Z.of_nat (S start)) by lia.
    rewrite IH by (rewrite length_insert; lia). rewrite Nat2Z.id.
    rewrite drop_insert_lt by lia.
    rewrite (take_S_r _ _ b) by (apply list_lookup_insert_eq; lia).
    rewrite take_insert_ge, <- app_assoc by lia. cbn [replicate app].
    by replace (S start + n)%nat with (start + S n)%nat by lia.
Qed.

Lemma copy_up_spec v k n :
  (k + n <= length v)%nat -> (0 < k)%nat ->
  for_up n 0 (fun i v => c ← buf_get v (i + Z.of_nat k); buf_set v i c) v
  = Ok (take n (drop k v) ++ drop n v).
Proof.
  intros Hl Hk.
  destruct (for_up_rule (fun i w => w = take (Z.to_nat i) (drop k v) ++ drop (Z.to_nat i) v) n 0
    (fun i v => c ← buf_get v (i + Z.of_nat k); buf_set v i c) v) as (w & E & Hw).
  - by rewrite take_0, drop_0.
  - intros i w Hi ->. set (j := Z.to_nat i). assert (length (take j (drop k v)) = j) as Hj.
    { rewrite length_take, length_drop. lia. }
    destruct (lookup_lt_is_Some_2 v (j + k)%nat) as [c Hc]; [lia |].
    rewrite (buf_get_lookup _ _ c); [| lia |].
    2: { rewrite lookup_app_r by lia. rewrite Hj, lookup_drop, <- Hc. f_equal. lia. }
    cbn [mbind outcome_bind]. rewrite buf_set_ok by (rewrite length_app, Hj, length_drop; lia).
    eexists. split; [reflexivity |].
    replace (Z.to_nat (i + 1)) with (S j) by lia. fold j.
    rewrite (take_S_r _ _ c) by (rewrite lookup_drop, <- Hc; f_equal; lia).
    rewrite <- app_assoc. replace (<[j := c]> (take j (drop k v) ++ drop j v)) with
      (<[(length (take j (drop k v)) + 0)%nat := c]> (take j (drop k v) ++ drop j v))
      by (f_equal; lia).
    rewrite insert_app_r. f_equal. destruct (lookup_lt_is_Some_2 v j) as [d Hd]; [lia |].
    by rewrite (drop_S v d).
  - rewrite E, Hw. by replace (Z.to_nat (0 + Z.of_nat n)) with n by lia.
Qed.

Definition blank_row : list Z := replicate 80 blank.

Lemma scroll_spec s :
  length (video_memory s) = Z.to_nat (80 * 25) -> 0 <= cursor_x s < 80 ->
  scroll s = Ok (if 25 <=? cursor_y s
                 then set_cursor (set_video s (drop 80 (video_memory s) ++ blank_row)) (cursor_x s) 24
                 else s).
Proof.
  intros Hl Hx. unfold scroll. case_match; [| done]. change (80 * 25) with 2000 in Hl.
  pose proof (copy_up_spec (video_memory s) 80 (Z.to_nat (24 * 80)) ltac:(lia) ltac:(lia)) as E1.
  change (Z.of_nat 80) with 80 in E1. rewrite E1. cbn [mbind outcome_bind].
  set (v := take _ _ ++ drop _ _).
  assert (length v = 2000%nat) as Hv.
  { unfold v. rewrite length_app, length_take, !length_drop. lia. }
  pose proof (fill_spec blank (Z.to_nat 80) (Z.to_nat (24 * 80)) v ltac:(lia)) as E2.
  change (Z.of_nat (Z.to_nat (24 * 80))) with (24 * 80) in E2. rewrite E2. cbn [mbind outcome_bind].
  rewrite (drop_ge v), app_nil_r by lia. unfold v. rewrite take_app_le by (rewrite length_take, length_drop; lia).
  rewrite take_ge by (rewrite length_take, length_drop; lia).
  rewrite take_ge by (rewrite length_drop; lia). done.
Qed.

(** What a character does to the cursor before the end of the row is tested. *)
Lemma put_char_spec s c color :
  screen s -> exists s', put_char s c color = Ok s' /\
    length (video_memory s') = Z.to_nat (80 * 25) /\
    0 <= cursor_x s' <= 80 /\ 0 <= cursor_y s' <= 25 /\ (cursor_y s' = 25 -> cursor_x s' = 0) /\
    monitor_lock s' = monitor_lock s.
Proof.
  intros [Hl Hx Hy _]. unfold put_char.
  assert (forall x y, 0 <= x <= 80 -> 0 <= y <= 25 -> s16 x = x /\ s16 y = y) as Hs
    by (intros; split; apply s16_small; lia).
  repeat case_match; [| | | | rewrite buf_set_ok by (rewrite Hl; lia); cbn [mbind outcome_bind] |];
    (eexists; split; [reflexivity |]); cbn [set_cursor set_video video_memory cursor_x cursor_y monitor_lock].
  - apply andb_true_iff in H as [_ H%negb_true_iff%Z.eqb_neq].
    destruct (Hs (cursor_x s - 1) (cursor_y s)) as [-> ->]; [lia | lia | split_and!; first [done | lia]].
  - replace (Z.lnot (8 - 1)) with (Z.lnot (Z.ones 3)) by done.
    rewrite <- Z.ldiff_land, Z.ldiff_ones_r, Z.shiftl_mul_pow2, Z.shiftr_div_pow2 by lia.
    change (2 ^ 3) with 8. destruct (Hs ((cursor_x s + 8) / 8 * 8) (cursor_y s)) as [-> ->]; [lia | lia | split_and!; first [done | lia]].
  - destruct (Hs 0 (cursor_y s)) as [-> ->]; [lia | lia | split_and!; first [done | lia]].
  - destruct (Hs 0 (cursor_y s + 1)) as [-> ->]; [lia | lia | split_and!; first [done | lia]].
  - rewrite length_insert. destruct (Hs (cursor_x s + 1) (cursor_y s)) as [-> ->]; [lia | lia | split_and!; first [done | lia]].
  - split_and!; first [done | lia].
Qed.

Lemma registers loc : 0 <= loc < 65536 -> u8 (Z.shiftr loc 8) * 256 + u8 loc = loc.
Proof. intros Hl. rewrite Z.shiftr_div_pow2 by lia. change (2 ^ 8) with 256. unfold u8. lia. Qed.

Lemma moved_screen s :
  length (video_memory s) = Z.to_nat (80 * 25) -> 0 <= cursor_x s < 80 -> 0 <= cursor_y s < 25 ->
  screen (move_cursor_position s).
Proof.
  intros Hl Hx Hy. split; try done. cbn. rewrite u16_small by lia. apply registers. lia.
Qed.

(** The end of a row, the end of the screen, and the hardware cursor. *)
Definition settle (s : monitor) : monitor :=
  let s := if 80 <=? cursor_x s then set_cursor s 0 (cursor_y s + 1) else s in
  move_cursor_position
    (if 25 <=? cursor_y s
     then set_cursor (set_video s (drop 80 (video_memory s) ++ blank_row)) (cursor_x s) 24 else s).

Lemma write_char_settle s c color :
  screen s -> exists s1, put_char s c color = Ok s1 /\
    monitor_write_char_with_color s c color = Ok (settle s1) /\ screen (settle s1) /\
    monitor_lock (settle s1) = monitor_lock s.
Proof.
  intros Hs. destruct (put_char_spec s c color Hs) as (s1 & E & Hl & Hx & Hy & Hxy & Hk).
  exists s1. split; [done |]. unfold monitor_write_char_with_color, settle. rewrite E.
  cbn [mbind outcome_bind]. set (s2 := if 80 <=? cursor_x s1 then _ else s1).
  assert (length (video_memory s2) = Z.to_nat (80 * 25) /\ 0 <= cursor_x s2 < 80 /\
    0 <= cursor_y s2 <= 25 /\ monitor_lock s2 = monitor_lock s) as (Hl2 & Hx2 & Hy2 & Hk2).
  { unfold s2. destruct (Z.leb_spec 80 (cursor_x s1)); cbn [set_cursor video_memory cursor_x cursor_y monitor_lock].
    - rewrite !s16_small by lia. split_and!; done || lia.
    - split_and!; done || lia. }
  rewrite scroll_spec by done. cbn [mbind outcome_bind]. split; [done |].
  destruct (Z.leb_spec 25 (cursor_y s2)); [| split; [apply moved_screen; [done | done | lia] | done]].
  split; [| done]. apply moved_screen; cbn [set_cursor set_video cursor_x cursor_y video_memory]; rewrite ?(s16_small (cursor_x s2)), ?(s16_small 24) by lia; try lia.
  rewrite length_app, length_drop. replace (length blank_row) with 80%nat by done. lia.
Qed.

Lemma write_char_screen s c color :
  screen s -> exists s', monitor_write_char_with_color s c color = Ok s' /\ screen s' /\
    monitor_lock s' = monitor_lock s.
Proof.
  intros Hs. destruct (write_char_settle s c color Hs) as (s1 & _ & E & Hs' & Hk). by exists (settle s1).
Qed.

Lemma write_string_screen t : forall s color,
  screen s -> exists s', monitor_write_string_with_color s t color = Ok s' /\ screen s' /\
    monitor_lock s' = monitor_lock s.
Proof.
  induction t as [|c t IH]; intros s color Hs; cbn; [by exists s |].
  destruct (write_char_screen s c color Hs) as (s1 & -> & Hs1 & Hk1). cbn [mbind outcome_bind].
  destruct (IH s1 color Hs1) as (s2 & -> & Hs2 & Hk2). exists s2. by rewrite Hk2.
Qed.

Lemma write_string_app t t' s color :
  monitor_write_string_with_color s (t ++ t') color
  = (s ← monitor_write_string_with_color s t color; monitor_write_string_with_color s t' color).
Proof.
  revert s. induction t as [|c t IH]; intros s; cbn; [done |].
  destruct (monitor_write_char_with_color s c color); cbn; [apply IH | done..].
Qed.

(** A printable character on the screen: the cell at the cursor, and the next
    position; behind the last cell the screen moves up a row. *)
Definition printable (c : Z) : Prop := 32 <= c < 127.

Lemma write_printable s c color :
  screen s -> printable c ->
  exists s', monitor_write_char_with_color s c color = Ok s' /\ screen s' /\
    (if position s =? 1999
     then position s' = 1920 /\
       video_memory s' = drop 80 (<[1999%nat := cell c color]> (video_memory s)) ++ blank_row
     else position s' = position s + 1 /\
       video_memory s' = <[Z.to_nat (position s) := cell c color]> (video_memory s)).
Proof.
  intros Hs Hc. destruct (write_char_settle s c color Hs) as (s1 & E1 & -> & Hs' & _).
  exists (settle s1). split; [done |]. split; [done |]. destruct Hs as [Hl Hx Hy _].
  unfold printable in Hc. unfold put_char in E1. change (80 * 25) with 2000 in Hl.
  assert (s8 c = c) as Es by (unfold s8; lia). rewrite Es in E1.
  destruct (Z.eqb_spec c 8), (Z.eqb_spec c 9), (Z.eqb_spec c 13), (Z.eqb_spec c 10), (Z.leb_spec 32 c);
    try lia. cbn [andb] in E1. rewrite buf_set_ok in E1 by (rewrite Hl; lia).
  cbn [mbind outcome_bind] in E1. injection E1 as <-. fold (position s).
  unfold settle. cbn [set_cursor set_video cursor_x cursor_y video_memory].
  rewrite !s16_small by lia. unfold position in *.
  destruct (Z.leb_spec 80 (cursor_x s + 1)); cbn [set_cursor set_video cursor_x cursor_y video_memory];
    rewrite ?s16_small by lia.
  - destruct (Z.leb_spec 25 (cursor_y s + 1)), (Z.eqb_spec (cursor_y s * 80 + cursor_x s) 1999); try lia; cbn;
      rewrite ?s16_small by lia; (split; [lia |]).
    + replace (Z.to_nat (cursor_y s * 80 + cursor_x s)) with 1999%nat by lia. done.
    + done.
  - destruct (Z.leb_spec 25 (cursor_y s)), (Z.eqb_spec (cursor_y s * 80 + cursor_x s) 1999); try lia; cbn;
      rewrite ?s16_small by lia; (split; [lia | done]).
Qed.

(** Text that fits the rest of the screen. *)
Lemma write_text t : forall s color,
  screen s -> Forall printable t -> position s + Z.of_nat (length t) < 2000 ->
  exists s', monitor_write_string_with_color s t color = Ok s' /\ screen s' /\
    position s' = position s + Z.of_nat (length t) /\
    video_memory s' = take (Z.to_nat (position s)) (video_memory s)
      ++ ((fun c => cell c color) <$> t)
      ++ drop (Z.to_nat (position s) + length t) (video_memory s).
Proof.
  induction t as [|c t IH]; intros s color Hs Ht Hp; cbn [monitor_write_string_with_color fmap list_fmap length app].
  - exists s. rewrite Nat.add_0_r, take_drop. split_and!; done || lia.
  - apply Forall_cons in Ht as [Hc Ht]. simpl length in Hp.
    destruct (write_printable s c color Hs Hc) as (s1 & -> & Hs1 & H). cbn [mbind outcome_bind].
    destruct (Z.eqb_spec (position s) 1999); [lia |]. destruct H as [P1 V1].
    destruct (IH s1 color Hs1 Ht) as (s2 & -> & Hs2 & P2 & V2); [lia |].
    exists s2. split; [done |]. split; [done |]. split; [lia |].
    pose proof (sc_len _ Hs) as Hl. change (80 * 25) with 2000 in Hl.
    assert (0 <= position s) by (destruct Hs; unfold position; lia).
    rewrite V2, P1, V1. replace (Z.to_nat (position s + 1)) with (S (Z.to_nat (position s))) by lia.
    rewrite (take_S_r _ _ (cell c color)) by (apply list_lookup_insert_eq; lia).
    rewrite take_insert_ge, drop_insert_lt, <- app_assoc by lia. cbn [app].
    by replace (S (Z.to_nat (position s)) + length t)%nat with (Z.to_nat (position s) + S (length t))%nat by lia.
Qed.

(** ** Every operation keeps the cursor on the screen *)

Inductive screen_op :=
  | Write (t : list Z) (color : Z)
  | Move (delta_x delta_y : Z)
  | Clear.

Definition screen_step (s : monitor) (o : screen_op) : outcome monitor :=
  match o with
  | Write t color => with_monitor_lock s (fun s => monitor_write_string_with_color s t color)
  | Move delta_x delta_y => monitor_move_cursor s delta_x delta_y
  | Clear => monitor_clear s
  end.

Fixpoint screen_run (s : monitor) (os : list screen_op) : outcome monitor :=
  match os with [] => Ok s | o :: os => s ← screen_step s o; screen_run s os end.

Lemma with_lock_spec s f :
  unlocked (monitor_lock s) ->
  (forall s1, video_memory s1 = video_memory s -> cursor_x s1 = cursor_x s -> cursor_y s1 = cursor_y s ->
     vga_high s1 = vga_high s -> vga_low s1 = vga_low s ->
     exists s2, f s1 = Ok s2 /\ screen s2) ->
  exists s', with_monitor_lock s f = Ok s' /\ screen s' /\ unlocked (monitor_lock s').
Proof.
  intros Hu Hf. unfold with_monitor_lock. rewrite lock_unlocked by done. cbn [mbind outcome_bind].
  destruct (Hf (set_monitor_lock s YieldLock.locked)) as (s2 & -> & []); [done.. |]. cbn [mbind outcome_bind].
  eexists. split; [reflexivity |]. by split.
Qed.

Lemma screen_copy s s1 :
  screen s -> video_memory s1 = video_memory s -> cursor_x s1 = cursor_x s ->
  cursor_y s1 = cursor_y s -> vga_high s1 = vga_high s -> vga_low s1 = vga_low s -> screen s1.
Proof. intros [] H1 H2 H3 H4 H5. split; by rewrite ?H1, ?H2, ?H3, ?H4, ?H5. Qed.

Lemma clear_spec s :
  unlocked (monitor_lock s) -> length (video_memory s) = Z.to_nat (80 * 25) ->
  exists s', monitor_clear s = Ok s' /\ screen s' /\ unlocked (monitor_lock s').
Proof.
  intros Hu Hl. apply with_lock_spec; [done |]. intros s1 Hv _ _ _ _.
  pose proof (fill_spec blank (Z.to_nat (80 * 25)) 0 (video_memory s1) ltac:(rewrite Hv; lia)) as E.
  change (Z.of_nat 0) with 0 in E. rewrite E. cbn [mbind outcome_bind]. eexists. split; [reflexivity |].
  apply moved_screen; try done.
  cbn [set_cursor set_video video_memory]. rewrite !length_app, length_replicate, length_take, length_drop, Hv. lia.
Qed.

Lemma move_cursor_spec s dx dy :
  screen s -> unlocked (monitor_lock s) ->
  exists s', monitor_move_cursor s dx dy = Ok s' /\ screen s' /\ unlocked (monitor_lock s').
Proof.
  intros Hs Hu. apply with_lock_spec; [done |]. intros s1 Hv _ _ _ _.
  cbn beta zeta. set (x := s16 (cursor_x s1 + dx)). assert (-32768 <= x < 32768) as Hx by (unfold x, s16; lia).
  destruct (div_mod_floor x 80) as (_ & _ & _ & Hm); [unfold is_s32; lia | lia | lia |].
  rewrite (s16_small (mod_ x 80)) by lia. set (y := s16 (cursor_y s1 + _)).
  eexists. split.
  { instantiate (1 := if 25 <=? y then _ else if y <? 0 then _ else _).
    destruct (Z.ltb_spec y 0), (Z.leb_spec 25 y); try lia; reflexivity. }
  pose proof (sc_len _ Hs) as Hl. rewrite <- Hv in Hl.
  destruct (Z.leb_spec 25 y), (Z.ltb_spec y 0); try lia; apply moved_screen; try exact Hl;
    cbn [set_cursor cursor_x cursor_y]; rewrite s16_small by lia; lia.
Qed.

(** C40: whatever is written, in whatever colours, and however the cursor is
    moved, the monitor never accesses its buffer out of bounds: after a clear,
    every operation returns with the cursor inside the 25 rows of 80 cells, the
    hardware cursor at the same cell and the lock free. *)
Theorem monitor_bounds s os
    (Hl : length (video_memory s) = Z.to_nat (80 * 25)) (Hu : unlocked (monitor_lock s)) :
  exists s', screen_run s (Clear :: os) = Ok s' /\ screen s' /\ unlocked (monitor_lock s').
Proof.
  cbn [screen_run screen_step].
  destruct (clear_spec s Hu Hl) as (s1 & -> & Hs1 & Hu1). cbn [mbind outcome_bind].
  clear s Hl Hu. revert s1 Hs1 Hu1. induction os as [|o os IH]; intros s Hs Hu; cbn [screen_run]; [by exists s |].
  assert (exists s', screen_step s o = Ok s' /\ screen s' /\ unlocked (monitor_lock s')) as (s' & -> & Hs' & Hu').
  { destruct o; cbn [screen_step].
    - apply with_lock_spec; [done |]. intros s1 H1 H2 H3 H4 H5.
      destruct (write_string_screen t s1 color) as (s2 & E & Hs2 & _); [by eapply screen_copy | by exists s2].
    - by apply move_cursor_spec.
    - apply clear_spec; [done | apply Hs]. }
  cbn [mbind outcome_bind]. by apply IH.
Qed.

(** ** Numbers *)

(** The decimal numeral of a number, and the hexadecimal one without leading zeros. *)
Definition decimal (n : Z) : list Z :=
  if n =? 0 then [48]
  else (if n <? 0 then [45] else []) ++ digits DEC_FUEL 10 dec_digit (Z.abs n) [].
Definition hexadecimal (n : Z) : list Z :=
  [48; 120] ++ digits 7 16 hex_digit (n / 16) [] ++ [hex_digit (n mod 16)].

Lemma reverse_into_rev c : forall c2, reverse_into c c2 = rev c ++ c2.
Proof.
  induction c as [|d c IH]; intros c2; cbn [reverse_into]; [done |].
  rewrite IH. simpl. by rewrite <- app_assoc.
Qed.

Lemma low_digits_spec k : forall n, n < 2 ^ Z.of_nat k ->
  low_digits (S k) n = Ok (rev (digits (S k) 10 dec_digit n [])).
Proof.
  induction k as [|k IH]; intros n Hn.
  - simpl in Hn. cbn. destruct (Z.ltb_spec 0 n); [lia | done].
  - rewrite Nat2Z.inj_succ, Z.pow_succ_r in Hn by lia. set (k1 := S k) in *. cbn [low_digits digits].
    destruct (Z.ltb_spec 0 n); [| done]. rewrite IH by (apply Z.div_lt_upper_bound; lia).
    cbn [mbind outcome_bind]. by rewrite (digits_acc _ _ _ _ [_]), rev_app_distr.
Qed.

Lemma write_dec_spec s n color :
  is_s32 n -> monitor_write_dec_with_color s n color = monitor_write_string_with_color s (decimal n) color.
Proof.
  intros Hn. unfold monitor_write_dec_with_color, decimal. unfold is_s32 in Hn.
  destruct (Z.eqb_spec n 0) as [-> | H0].
  { cbn. by destruct (monitor_write_char_with_color s 48 color). }
  assert (forall s m, 0 < m <= 2147483648 -> 
    (c ← low_digits DEC_FUEL m; monitor_write_string_with_color s (reverse_into c []) color)
    = monitor_write_string_with_color s (digits DEC_FUEL 10 dec_digit m []) color) as Hm.
  { intros s0 m Hm. unfold DEC_FUEL. rewrite (low_digits_spec 32) by (change (2 ^ Z.of_nat 32) with 4294967296; lia).
    cbn [mbind outcome_bind]. by rewrite reverse_into_rev, rev_involutive, app_nil_r. }
  destruct (Z.ltb_spec n 0); cbn [mbind outcome_bind app].
  - cbn [monitor_write_string_with_color]. destruct (monitor_write_char_with_color s 45 color); try done.
    cbn [mbind outcome_bind]. replace (u32 (s32 (- n))) with (Z.abs n) by (unfold u32, s32; lia).
    apply Hm. lia.
  - rewrite u32_small by lia. replace (Z.abs n) with n by lia. apply Hm. lia.
Qed.

(** The number a hexadecimal digit stands for. *)
Definition hex_val (c : Z) : Z := if c <? 58 then c - 48 else c - 87.

Lemma hex_val_digit r : 0 <= r < 16 -> hex_val (hex_digit r) = r.
Proof. unfold hex_val, hex_digit. intros Hr. case_match; case_match; lia. Qed.

Lemma hex_char_digit r : 0 <= r < 16 -> hex_char r = hex_digit r.
Proof. unfold hex_char, hex_digit. intros Hr. destruct (Z.leb_spec 10 r), (Z.leb_spec r 9); lia. Qed.

Lemma nibble n i : 0 <= i -> Z.land (Z.shiftr n i) 0xF = n / 2 ^ i mod 16.
Proof. intros Hi. change 0xF with (Z.ones 4). rewrite Z.land_ones, Z.shiftr_div_pow2 by lia. done. Qed.

(** All digits, for a number that has a digit before. *)
Fixpoint all_nibbles (k : nat) (n : Z) : list Z :=
  match k with
  | O => []
  | S k => all_nibbles k (n / 16) ++ [hex_digit (n mod 16)]
  end.

Lemma all_nibbles_first k : forall n,
  all_nibbles (S k) n = hex_digit (n / 16 ^ Z.of_nat k mod 16) :: all_nibbles k n.
Proof.
  induction k as [|k IH]; intros n.
  - cbn. by rewrite Z.div_1_r.
  - change (all_nibbles (S (S k)) n) with (all_nibbles (S k) (n / 16) ++ [hex_digit (n mod 16)]).
    rewrite IH. change (all_nibbles (S k) n) with (all_nibbles k (n / 16) ++ [hex_digit (n mod 16)]).
    cbn [app]. f_equal. rewrite Z.div_div by lia. by rewrite Nat2Z.inj_succ, Z.pow_succ_r by lia.
Qed.

Lemma digits_nibbles k : forall n, 0 <= n -> 16 ^ Z.of_nat k <= n < 16 ^ Z.of_nat (S k) ->
  digits (S k) 16 hex_digit n [] = all_nibbles (S k) n.
Proof.
  induction k as [|k IH]; intros n H0 Hn.
  - simpl in Hn. cbn. destruct (Z.ltb_spec 0 n); [| lia]. done.
  - rewrite !Nat2Z.inj_succ, !Z.pow_succ_r in Hn by lia. set (k1 := S k) in *. cbn [digits all_nibbles].
    destruct (Z.ltb_spec 0 n); [| lia]. rewrite digits_acc. f_equal. apply IH; [apply Z.div_pos; lia |].
    unfold k1. rewrite Nat2Z.inj_succ, Z.pow_succ_r by lia.
    pose proof (Z.pow_pos_nonneg 16 (Z.of_nat k) ltac:(lia) ltac:(lia)).
    set (p := 16 ^ Z.of_nat k) in *. split; [apply Z.div_le_lower_bound | apply Z.div_lt_upper_bound]; lia.
Qed.

Lemma digits_small k : forall n, 0 <= n < 16 ^ Z.of_nat k ->
  digits (S k) 16 hex_digit n [] = digits k 16 hex_digit n [].
Proof.
  induction k as [|k IH]; intros n Hn.
  - simpl in Hn. cbn. destruct (Z.ltb_spec 0 n); [lia | done].
  - rewrite Nat2Z.inj_succ, Z.pow_succ_r in Hn by lia. set (k1 := S k) in *.
    cbn [digits]. change (digits k1 16 hex_digit n []) with (digits (S k) 16 hex_digit n []). cbn [digits].
    destruct (Z.ltb_spec 0 n); [| done]. rewrite digits_acc, (digits_acc k). f_equal. apply IH.
    split; [apply Z.div_pos; lia | apply Z.div_lt_upper_bound; lia].
Qed.

Lemma nibble_at n k : Z.land (Z.shiftr n (4 * Z.of_nat (S k))) 0xF = n / 16 / 16 ^ Z.of_nat k mod 16.
Proof.
  rewrite nibble by lia. rewrite Z.div_div by lia.
  rewrite Z.pow_mul_r by lia. change (2 ^ 4) with 16.
  rewrite Nat2Z.inj_succ, Z.pow_succ_r by lia. done.
Qed.

Lemma write_rest k : forall s n color,
  write_nibbles k s n (4 * Z.of_nat k) false color
  = monitor_write_string_with_color s (all_nibbles k (n / 16)) color.
Proof.
  induction k as [|k IH]; intros s n color; [done |].
  rewrite all_nibbles_first. cbn [write_nibbles monitor_write_string_with_color].
  rewrite andb_false_r, nibble_at, hex_char_digit by (apply Z.mod_pos_bound; lia).
  replace (4 * Z.of_nat (S k) - 4) with (4 * Z.of_nat k) by lia.
  destruct (monitor_write_char_with_color s _ color); try done. apply IH.
Qed.

Lemma write_leading k : forall s n color, 0 <= n / 16 < 16 ^ Z.of_nat k ->
  write_nibbles k s n (4 * Z.of_nat k) true color
  = monitor_write_string_with_color s (digits k 16 hex_digit (n / 16) []) color.
Proof.
  induction k as [|k IH]; intros s n color Hn; [done |].
  pose proof (Z.pow_pos_nonneg 16 (Z.of_nat k) ltac:(lia) ltac:(lia)) as Hp.
  assert (n / 16 / 16 ^ Z.of_nat k < 16) as Hlt.
  { rewrite Nat2Z.inj_succ, Z.pow_succ_r in Hn by lia. apply Z.div_lt_upper_bound; lia. }
  pose proof (Z.div_pos (n / 16) (16 ^ Z.of_nat k) ltac:(lia) Hp) as Hge.
  cbn [write_nibbles]. rewrite nibble_at, andb_true_r.
  replace (4 * Z.of_nat (S k) - 4) with (4 * Z.of_nat k) by lia.
  rewrite Z.mod_small by lia. destruct (Z.eqb_spec (n / 16 / 16 ^ Z.of_nat k) 0) as [Hz | Hnz].
  - apply Z.div_small_iff in Hz; [| lia]. rewrite digits_small by lia. apply IH. lia.
  - assert (16 ^ Z.of_nat k <= n / 16) as Hle.
    { destruct (Z.le_gt_cases (16 ^ Z.of_nat k) (n / 16)); [done |]. rewrite Z.div_small in Hnz by lia. done. }
    rewrite digits_nibbles by lia. rewrite all_nibbles_first. cbn [monitor_write_string_with_color].
    rewrite Z.mod_small, hex_char_digit by lia.
    destruct (monitor_write_char_with_color s _ color); try done. apply write_rest.
Qed.

Lemma write_hex_spec s n color :
  is_u32 n ->
  monitor_write_hex_withc_color s n color = monitor_write_string_with_color s (hexadecimal n) color.
Proof.
  intros Hn. unfold is_u32 in Hn. unfold monitor_write_hex_withc_color, hexadecimal.
  rewrite write_string_app. destruct (monitor_write_string_with_color s [48; 120] color); try done.
  cbn [mbind outcome_bind]. rewrite write_string_app. change 28 with (4 * Z.of_nat 7).
  rewrite write_leading by (change (16 ^ Z.of_nat 7) with 268435456; lia).
  destruct (monitor_write_string_with_color _ _ _) as [s1 | | | |]; try done. cbn [mbind outcome_bind].
  change 0xF with (Z.ones 4). rewrite Z.land_ones by lia. change (2 ^ 4) with 16.
  rewrite hex_char_digit by (apply Z.mod_pos_bound; lia).
  cbn. by destruct (monitor_write_char_with_color s1 _ color).
Qed.

(** The digits of a hexadecimal numeral, behind "0x". *)
Definition parse_hex (s : list Z) : Z := digits_value 16 hex_val (drop 2 s).

Lemma parse_decimal n : is_s32 n -> parse_dec (decimal n) = n.
Proof.
  intros Hn. unfold is_s32 in Hn. unfold decimal. destruct (Z.eqb_spec n 0) as [-> |]; [done |].
  assert (digits_value 10 dec_val (digits DEC_FUEL 10 dec_digit (Z.abs n) []) = Z.abs n) as Hv.
  { apply digits_value_digits; [lia | intros r _; unfold dec_val, dec_digit; lia |].
    change (2 ^ Z.of_nat DEC_FUEL) with 8589934592. lia. }
  destruct (Z.ltb_spec n 0); cbn [app].
  - unfold parse_dec. rewrite Hv. lia.
  - pose proof (digits_no_minus DEC_FUEL (Z.abs n)) as Hm.
    replace (parse_dec _) with (digits_value 10 dec_val (digits DEC_FUEL 10 dec_digit (Z.abs n) [])); [lia |].
    unfold parse_dec. destruct (digits DEC_FUEL 10 dec_digit (Z.abs n) []) as [|c ds]; [done |].
    apply Forall_cons in Hm as [Hc _]. destruct (decide (c = 45)); [lia |].
    by repeat (case_match; try done; try lia).
Qed.

Lemma digits_hex_value k : forall n, 0 <= n < 16 ^ Z.of_nat k ->
  digits_value 16 hex_val (digits k 16 hex_digit n []) = n.
Proof.
  induction k as [|k IH]; intros n Hn; [simpl in Hn; unfold digits_value; simpl; lia |].
  rewrite Nat2Z.inj_succ, Z.pow_succ_r in Hn by lia. cbn [digits].
  destruct (Z.ltb_spec 0 n); [| unfold digits_value; simpl; lia].
  rewrite digits_acc. unfold digits_value. rewrite foldl_app. cbn [foldl].
  fold (digits_value 16 hex_val (digits k 16 hex_digit (n / 16) [])).
  rewrite IH, hex_val_digit; [lia | apply Z.mod_pos_bound; lia |].
  split; [apply Z.div_pos; lia | apply Z.div_lt_upper_bound; lia].
Qed.

Lemma parse_hexadecimal n : is_u32 n -> parse_hex (hexadecimal n) = n.
Proof.
  intros Hn. unfold is_u32 in Hn. unfold parse_hex, hexadecimal.
  change (drop 2 ([48; 120] ++ digits 7 16 hex_digit (n / 16) [] ++ [hex_digit (n mod 16)]))
    with (digits 7 16 hex_digit (n / 16) [] ++ [hex_digit (n mod 16)]).
  unfold digits_value. rewrite foldl_app. cbn [foldl].
  fold (digits_value 16 hex_val (digits 7 16 hex_digit (n / 16) [])).
  rewrite hex_val_digit, digits_hex_value; [lia | | apply Z.mod_pos_bound; lia].
  change (16 ^ Z.of_nat 7) with 268435456. lia.
Qed.

Lemma hex_digit_zero r : 0 < r < 16 -> hex_digit r <> 48.
Proof. unfold hex_digit. intros Hr. case_match; lia. Qed.

(** No leading zero. *)
Lemma hex_head k : forall n, 0 < n < 16 ^ Z.of_nat (S k) ->
  (digits k 16 hex_digit (n / 16) [] ++ [hex_digit (n mod 16)]) !! 0%nat <> Some 48.
Proof.
  induction k as [|k IH]; intros n Hn; rewrite Nat2Z.inj_succ, Z.pow_succ_r in Hn by lia; cbn [digits].
  - simpl in Hn. cbn. intros [= E]. rewrite Z.mod_small in E by lia. by apply (hex_digit_zero n).
  - destruct (Z.ltb_spec 0 (n / 16)).
    + rewrite digits_acc, lookup_app_l by (rewrite length_app; simpl; lia).
      apply IH. split; [done | apply Z.div_lt_upper_bound; lia].
    + cbn. intros [= E]. assert (n < 16) by lia. rewrite Z.mod_small in E by lia.
      apply (hex_digit_zero n); [lia | done].
Qed.

(** Numbers are printed so that they can be read back: for every signed
    number the decimal output is a numeral whose value is the number, also for 0
    and the least number, and for every unsigned number the hexadecimal output is one
    behind "0x" without leading zeros. *)
Theorem monitor_numbers s n color :
  (is_s32 n -> monitor_write_dec_with_color s n color = monitor_write_string_with_color s (decimal n) color /\
     parse_dec (decimal n) = n) /\
  (is_u32 n -> monitor_write_hex_withc_color s n color = monitor_write_string_with_color s (hexadecimal n) color /\
     parse_hex (hexadecimal n) = n /\ (0 < n -> hexadecimal n !! 2%nat <> Some 48)).
Proof.
  split; intros Hn.
  - split; [by apply write_dec_spec | by apply parse_decimal].
  - split; [by apply write_hex_spec | split; [by apply parse_hexadecimal |]].
    intros Hp. unfold is_u32 in Hn.
    change (hexadecimal n !! 2%nat) with
      ((digits 7 16 hex_digit (n / 16) [] ++ [hex_digit (n mod 16)]) !! 0%nat).
    apply hex_head. change (16 ^ Z.of_nat 8) with 4294967296. lia.
Qed.

(** ** Text *)

(** printable text that fits behind the cursor appears on the screen cell by
    cell in its colour, the rest of the screen stays, and the cursor is behind it. *)
Theorem monitor_text_shown s t color
    (Hs : screen s) (Ht : Forall printable t) (Hp : position s + Z.of_nat (length t) < 2000) :
  exists s', monitor_write_string_with_color s t color = Ok s' /\ screen s' /\
    position s' = position s + Z.of_nat (length t) /\
    (forall i c, t !! i = Some c ->
       video_memory s' !! (Z.to_nat (position s) + i)%nat = Some (cell c color)) /\
    (forall j, (j < Z.to_nat (position s))%nat \/ (Z.to_nat (position s) + length t <= j)%nat ->
       video_memory s' !! j = video_memory s !! j).
Proof.
  destruct (write_text t s color Hs Ht Hp) as (s' & E & Hs' & P & V).
  exists s'. split; [done |]. split; [done |]. split; [done |].
  assert (0 <= position s < 2000) as Hp0 by (destruct Hs; unfold position; lia).
  pose proof (sc_len _ Hs) as Hl. change (80 * 25) with 2000 in Hl. rewrite V.
  assert (length (take (Z.to_nat (position s)) (video_memory s)) = Z.to_nat (position s)) as Hlt
    by (rewrite length_take; lia).
  split.
  - intros i c Hc. apply lookup_lt_Some in Hc as Hi. rewrite lookup_app_r by lia.
    rewrite lookup_app_l by (rewrite length_fmap; lia).
    rewrite Hlt, list_lookup_fmap. by replace (Z.to_nat (position s) + i - Z.to_nat (position s))%nat with i by lia; rewrite Hc.
  - intros j [Hj | Hj].
    + rewrite lookup_app_l, lookup_take_lt by lia. done.
    + rewrite lookup_app_r, lookup_app_r by (rewrite ?length_fmap; lia).
      rewrite Hlt, length_fmap, lookup_drop. f_equal. lia.
Qed.

(** ** Witnesses *)

Definition blank_screen : monitor := Monitor (replicate 2000 blank) 0 0 0 0 yieldlock_init.

Lemma blank_screen_ok : screen blank_screen.
Proof. split; try done; cbn; lia. Qed.

Lemma monitor_bounds_witness :
  exists s', screen_run blank_screen [Clear; Write [65; 9; 10; 8] 2; Move (-5) 300; Write [66; 67] 7] = Ok s' /\
    screen s'.
Proof.
  destruct (monitor_bounds blank_screen [Write [65; 9; 10; 8] 2; Move (-5) 300; Write [66; 67] 7]
    (length_replicate _ _) eq_refl) as (s' & E & Hs & _).
  exists s'. exact (conj E Hs).
Defined.

Lemma monitor_numbers_witness :
  parse_dec (decimal (-2147483648)) = -2147483648 /\ parse_hex (hexadecimal 0xC0DE) = 0xC0DE.
Proof.
  split.
  - apply (monitor_numbers blank_screen (-2147483648) 7). unfold is_s32. lia.
  - apply (monitor_numbers blank_screen 0xC0DE 7). unfold is_u32. lia.
Defined.

Lemma monitor_text_shown_witness :
  exists s', monitor_write_string_with_color blank_screen [76; 117; 99; 107] 2 = Ok s' /\ position s' = 4.
Proof.
  destruct (monitor_text_shown blank_screen [76; 117; 99; 107] 2 blank_screen_ok) as (s' & E & _ & P & _).
  - unfold printable. repeat constructor; lia.
  - vm_compute. reflexivity.
  - exists s'. exact (conj E P).
Defined.
