(* ===== verification/Printf.v ===== *)
(** * Formatted output (monitor/monitor.c)

    Strings and formats in an address space, printed on the text screen. *)

From S2P Require Import Prelude.
From S2P Require Import Memory.
From S2P Require Import YieldLock.
From S2P Require Import Allocator.
From S2P Require Import CStdlib.
From S2P Require Import AddressSpace.
From S2P Require Import VMem.
From S2P Require Import HeapSpace.
From S2P Require Import Monitor.

Section printf.
Context {M : Type} `{ByteSpace M}.

(** The string at an address. *)
Fixpoint read_string (fuel : nat) (m : M) (p : Z) : outcome (M * list Z) :=
  match fuel with
  | O => NoFuel
  | S fuel =>
      '(m, c) ← bs_load m p;
      if c =? 0 then Ok (m, []) else '(m, s) ← read_string fuel m (u32 (p + 1)); Ok (m, c :: s)
  end.

(** [yieldlock_lock(&monitor_lock); ... yieldlock_unlock(&monitor_lock);] *)
Definition locked_print (m : M) (s : monitor) (f : M -> monitor -> outcome (M * monitor)) : outcome (M * monitor) :=
  l ← yieldlock_lock (monitor_lock s);
  '(m, s) ← f m (set_monitor_lock s l);
  Ok (m, set_monitor_lock s (yieldlock_unlock (monitor_lock s))).

Definition monitor_print_with_color (fuel : nat) (m : M) (s : monitor) (str color : Z) : outcome (M * monitor) :=
  locked_print m s (fun m s =>
    '(m, c) ← read_string fuel m str; s ← monitor_write_string_with_color s c color; Ok (m, s)).

Definition monitor_print (fuel : nat) (m : M) (s : monitor) (str : Z) : outcome (M * monitor) :=
  monitor_print_with_color fuel m s str COLOR_WHITE.

Definition monitor_println (fuel : nat) (m : M) (s : monitor) (str : Z) : outcome (M * monitor) :=
  locked_print m s (fun m s =>
    '(m, c) ← read_string fuel m str;
    s ← monitor_write_string_with_color s c COLOR_WHITE;
    s ← monitor_write_string_with_color s [10] COLOR_WHITE; Ok (m, s)).

(** What a conversion character prints for the argument at [arg_ptr], and whether
    it takes one. *)
Definition convert (fuel : nat) (m : M) (s : monitor) (next arg_ptr : Z) : outcome (M * monitor * bool) :=
  if next =? 100 then
    '(m, arg) ← bs_load32 m arg_ptr; s ← monitor_write_dec_with_color s (s32 arg) COLOR_WHITE; Ok (m, s, true)
  else if next =? 117 then
    '(m, arg) ← bs_load32 m arg_ptr; s ← monitor_write_dec_with_color s (s32 arg) COLOR_WHITE; Ok (m, s, true)
  else if next =? 120 then
    '(m, arg) ← bs_load32 m arg_ptr; s ← monitor_write_hex_withc_color s arg COLOR_WHITE; Ok (m, s, true)
  else if next =? 99 then
    '(m, c) ← bs_load m arg_ptr; s ← monitor_write_char_with_color s c COLOR_WHITE; Ok (m, s, true)
  else if next =? 115 then
    '(m, arg) ← bs_load32 m arg_ptr;
    '(m, c) ← read_string fuel m arg; s ← monitor_write_string_with_color s c COLOR_WHITE; Ok (m, s, true)
  else Ok (m, s, false).

(** The loop of [monitor_printf_args].  As in [sprintf], the test for the end of
    the string behind a percent sign looks at the percent sign. *)
Fixpoint printf_from (fuel sfuel : nat) (m : M) (s : monitor) (str i arg_ptr : Z) : outcome (M * monitor) :=
  match fuel with
  | O => NoFuel
  | S fuel =>
      '(m, c) ← bs_load m (u32 (str + i));
      if c =? 0 then Ok (m, s)
      else if c =? 37 then
        let i := i + 1 in
        '(m, next) ← bs_load m (u32 (str + i));
        if c =? 0 then Ok (m, s)
        else
          '(m, s, taken) ← convert sfuel m s next arg_ptr;
          printf_from fuel sfuel m s str (i + 1) (if (taken : bool) then u32 (arg_ptr + 4) else arg_ptr)
      else
        s ← monitor_write_char_with_color s c COLOR_WHITE;
        printf_from fuel sfuel m s str (i + 1) arg_ptr
  end.

Definition monitor_printf_args (fuel : nat) (m : M) (s : monitor) (str arg_ptr : Z) : outcome (M * monitor) :=
  locked_print m s (fun m s => printf_from fuel fuel m s str 0 arg_ptr).

(** A literal format with its arguments, cut at the conversions: [monitor_printf]
    in the kernel. *)
Inductive piece := Lit (s : list Z) | Dec (n : Z) | Str (p : Z).
Fixpoint print_pieces (fuel : nat) (m : M) (s : monitor) (ps : list piece) : outcome (M * monitor) :=
  match ps with
  | [] => Ok (m, s)
  | Lit t :: ps => s ← monitor_write_string_with_color s t COLOR_WHITE; print_pieces fuel m s ps
  | Dec n :: ps => s ← monitor_write_dec_with_color s n COLOR_WHITE; print_pieces fuel m s ps
  | Str p :: ps =>
      '(m, c) ← read_string fuel m p; s ← monitor_write_string_with_color s c COLOR_WHITE; print_pieces fuel m s ps
  end.
Definition monitor_printf (fuel : nat) (m : M) (s : monitor) (ps : list piece) : outcome (M * monitor) :=
  locked_print m s (fun m s => print_pieces fuel m s ps).

(** ** What is printed *)

(** [shows fuel f next a t]: the conversion [next] shows the argument [a] as [t];
    strings are shorter than [fuel]. *)
Inductive shows (fuel : nat) (f : Z -> Z) : Z -> Z -> list Z -> Prop :=
  | Sh_d a : shows fuel f 100 a (decimal (s32 a))
  | Sh_u a : shows fuel f 117 a (decimal (s32 a))
  | Sh_x a : shows fuel f 120 a (hexadecimal a)
  | Sh_c a : shows fuel f 99 a [a mod 256]
  | Sh_s a t : string_at f a t -> usable a (len t + 1) -> (length t < fuel)%nat -> shows fuel f 115 a t.

(** The format [fmt] with the argument words [args] prints [out]. *)
Inductive prints (fuel : nat) (f : Z -> Z) : list Z -> list Z -> list Z -> Prop :=
  | P_nil args : prints fuel f [] args []
  | P_lit c fmt args out : c <> 37 -> prints fuel f fmt args out -> prints fuel f (c :: fmt) args (c :: out)
  | P_conv c fmt a t args out : shows fuel f c a t -> prints fuel f fmt args out ->
      prints fuel f (37 :: c :: fmt) (a :: args) (t ++ out)
  | P_other c fmt args out : c ∉ [100; 117; 120; 99; 115] -> prints fuel f fmt args out ->
      prints fuel f (37 :: c :: fmt) args out.

(** The argument words are at [p]. *)
Definition args_at (f : Z -> Z) (p : Z) (args : list Z) : Prop :=
  usable p (4 * len args) /\ forall i a, args !! i = Some a -> word32 f (p + 4 * Z.of_nat i) = a.

Lemma read_string_spec s : forall fuel m f p,
  holds m f -> usable p (len s + 1) -> string_at f p s -> (length s < fuel)%nat ->
  may (read_string fuel m p) (fun '(m', t) => t = s /\ holds m' f).
Proof.
  induction s as [|c s IH]; intros [|fuel] m f p Hm Hu Hs Hf; cbn [length] in *; try lia; cbn [read_string];
    (eapply may_bind; [apply bs_load_spec; [done |]; apply (Hu p); lia |]; intros [m1 c'] [-> G1]).
  - apply string_at_nil in Hs. rewrite Hs. by apply may_ret.
  - apply string_at_cons in Hs as (Hc & Hne & Hs). rewrite Hc, (proj2 (Z.eqb_neq c 0)) by done.
    destruct (usable_u32 p (Z.of_nat (S (length s)) + 1) 1) as [-> _]; [done | lia |].
    eapply may_bind; [apply (IH fuel m1 f (p + 1)); [done | eapply usable_sub; [exact Hu | lia | lia] | done | lia] |].
    intros [m2 t] [-> G2]. by apply may_ret.
Qed.

Lemma args_at_cons f p a args :
  args_at f p (a :: args) -> word32 f p = a /\ usable p 4 /\ args_at f (p + 4) args.
Proof.
  intros [Hu Ha]. cbn [length] in Hu. split; [rewrite <- (Ha 0%nat a) by done; f_equal; lia |].
  split; [eapply usable_sub; [exact Hu | lia | lia] |]. split; [eapply usable_sub; [exact Hu | lia | lia] |].
  intros i b Hi. rewrite <- (Ha (S i) b) by done. f_equal. lia.
Qed.

Lemma word32_byte m f p : holds m f -> usable p 4 -> word32 f p mod 256 = f p /\ is_u32 (word32 f p).
Proof.
  intros Hm Hu. pose proof (holds_range m f p Hm ltac:(apply Hu; lia)).
  pose proof (holds_range m f (p + 1) Hm ltac:(apply Hu; lia)).
  pose proof (holds_range m f (p + 2) Hm ltac:(apply Hu; lia)).
  pose proof (holds_range m f (p + 3) Hm ltac:(apply Hu; lia)). unfold word32, is_u32. lia.
Qed.

(** The text [t] was written. *)
Definition wrote (f : Z -> Z) (s : monitor) (t : list Z) (r : M * monitor) : Prop :=
  holds r.1 f /\ monitor_write_string_with_color s t COLOR_WHITE = Ok r.2.

Lemma wrote_app f s s1 t t' r : wrote f s1 t' r -> monitor_write_string_with_color s t COLOR_WHITE = Ok s1 ->
  wrote f s (t ++ t') r.
Proof. intros [Hm Hw] Hs. split; [done |]. by rewrite write_string_app, Hs. Qed.

(** A conversion whose effect on the screen is that of writing [t]. *)
Lemma write_ok f (m : M) s t :
  holds m f -> screen s ->
  exists s', monitor_write_string_with_color s t COLOR_WHITE = Ok s' /\ screen s' /\ wrote f s t (m, s').
Proof. intros Hm Hs. destruct (write_string_screen t s COLOR_WHITE Hs) as (s' & E & Hs' & _). by exists s'. Qed.

Lemma convert_spec fuel m f s next p a t :
  holds m f -> usable p 4 -> word32 f p = a -> shows fuel f next a t -> screen s ->
  may (convert fuel m s next p) (fun '(m', s', taken) => taken = true /\ wrote f s t (m', s')).
Proof.
  intros Hm Hu Ha Hsh Hs. destruct (word32_byte m f p Hm Hu) as [Hb Hr]. rewrite Ha in *.
  unfold convert. destruct Hsh as [a | a | a | a | a t Ht Hut Hf]; cbn [Z.eqb Pos.eqb];
    (eapply may_bind; [first [apply bs_load32_spec; done | apply bs_load_spec; [done | apply (Hu p); lia]] |]);
    intros [m1 c] [-> G1]; rewrite ?Ha; try (rewrite write_dec_spec by apply s32_range); try (rewrite write_hex_spec by done);
    try rewrite <- Hb.
  - destruct (write_ok f m1 s (decimal (s32 a)) G1 Hs) as (s' & -> & _ & Hw). by apply may_ret.
  - destruct (write_ok f m1 s (decimal (s32 a)) G1 Hs) as (s' & -> & _ & Hw). by apply may_ret.
  - destruct (write_ok f m1 s (hexadecimal a) G1 Hs) as (s' & -> & _ & Hw). by apply may_ret.
  - destruct (write_ok f m1 s [a mod 256] G1 Hs) as (s' & E & _ & Hw). cbn [monitor_write_string_with_color] in E.
    destruct (monitor_write_char_with_color s (a mod 256) COLOR_WHITE); try done. injection E as ->. by apply may_ret.
  - eapply may_bind; [by apply (read_string_spec t fuel m1 f a) |]. intros [m2 c] [-> G2].
    destruct (write_ok f m2 s t G2 Hs) as (s' & -> & _ & Hw). by apply may_ret.
Qed.

Lemma printf_from_spec sfuel f fmt args out :
  prints sfuel f fmt args out -> forall fuel m s str i arg_ptr,
  holds m f -> screen s -> 0 <= i -> usable str (i + len fmt + 1) -> string_at f (str + i) fmt ->
  args_at f arg_ptr args -> (length fmt < fuel)%nat ->
  may (printf_from fuel sfuel m s str i arg_ptr) (wrote f s out).
Proof.
  induction 1 as [args | c fmt args out Hc HP IH | c fmt a t args out Hsh HP IH | c fmt args out Hc HP IH];
    intros [|fuel] m s str i arg_ptr Hm Hs Hi Hu Hat Ha Hf; cbn [length] in *; try lia; cbn [printf_from];
    (eapply may_bind; [eapply (bs_load_at m f str); [done | exact Hu | lia] |]; intros [m1 c0] [-> G1]);
    rewrite ?string_at_nil, ?string_at_cons in Hat.
  - rewrite Hat. by apply may_ret.
  - destruct Hat as (E & N & Hat). rewrite E, (proj2 (Z.eqb_neq c 0)), (proj2 (Z.eqb_neq c 37)) by done.
    destruct (write_ok f m1 s [c] G1 Hs) as (s' & E' & Hs' & _). pose proof E' as E''.
    cbn [monitor_write_string_with_color] in E'.
    destruct (monitor_write_char_with_color s c COLOR_WHITE); try done. injection E' as ->. cbn [mbind outcome_bind].
    eapply may_mono; [apply (IH fuel m1 s' str (i + 1)) | intros r Hr; by apply (wrote_app f s s' [c])];
      [done | done | lia | eapply usable_sub; [exact Hu | lia | lia] | by rewrite Z.add_assoc | done | lia].
  - destruct Hat as (E & _ & E1 & _ & Hat). rewrite E. cbn [Z.eqb Pos.eqb].
    eapply may_bind; [eapply (bs_load_at m1 f str); [done | exact Hu | lia] |]. intros [m2 c1] [-> G2].
    rewrite Z.add_assoc, E1. apply args_at_cons in Ha as (Hw & Hu4 & Ha).
    eapply may_bind; [by apply (convert_spec sfuel m2 f s c arg_ptr a t) |]. intros [[m3 s'] taken] [-> [G3 Hwr]].
    cbn [fst snd] in *. destruct (write_string_screen t s COLOR_WHITE Hs) as (s1 & Es & Hs1 & _).
    rewrite Es in Hwr. injection Hwr as <-.
    assert (args = [] \/ u32 (arg_ptr + 4) = arg_ptr + 4) as Hnext.
    { destruct args; [by left | right]. destruct Ha as [Hua _]. apply u32_small. cbn in Hua.
      by destruct (Hua (arg_ptr + 4)); [lia |]. }
    eapply may_mono; [apply (IH fuel m3 s1 str (i + 1 + 1)) | intros r Hr; by apply (wrote_app f s s1 t)];
      [done | done | lia | eapply usable_sub; [exact Hu | lia | lia]
      | by replace (str + (i + 1 + 1)) with (str + i + 1 + 1) by lia | | lia].
    destruct Hnext as [-> | ->]; [|done]. split; [intros b Hb; cbn in Hb; lia | done].
  - destruct Hat as (E & _ & E1 & N1 & Hat). rewrite E. cbn [Z.eqb Pos.eqb].
    eapply may_bind; [eapply (bs_load_at m1 f str); [done | exact Hu | lia] |]. intros [m2 c1] [-> G2].
    rewrite Z.add_assoc, E1. unfold convert. rewrite !not_elem_of_cons in Hc.
    destruct Hc as (? & ? & ? & ? & ? & _). rewrite !(proj2 (Z.eqb_neq c _)) by done. cbn [mbind outcome_bind].
    apply (IH fuel m2 s str (i + 1 + 1)); [done | done | lia | eapply usable_sub; [exact Hu | lia | lia]
      | by replace (str + (i + 1 + 1)) with (str + i + 1 + 1) by lia | done | lia].
Qed.

(** Printing [out] under the lock is writing it. *)
Lemma locked_print_spec f (m : M) s body out :
  holds m f -> screen s -> unlocked (monitor_lock s) ->
  (forall s1, screen s1 -> may (body m s1) (wrote f s1 out)) ->
  may (locked_print m s body) (fun '(m', s') => holds m' f /\
    screen_step s (Write out COLOR_WHITE) = Ok s' /\ screen s' /\ unlocked (monitor_lock s')).
Proof.
  intros Hm Hs Hu Hb. unfold locked_print, screen_step, with_monitor_lock. rewrite lock_unlocked by done.
  cbn [mbind outcome_bind]. assert (screen (set_monitor_lock s locked)) as Hs1 by by apply (screen_copy s).
  eapply may_bind; [by apply Hb |]. intros [m' s'] [Hm' Hw]. cbn [fst snd] in *.
  destruct (write_string_screen out _ COLOR_WHITE Hs1) as (s2 & E & Hs2 & _). rewrite E in Hw. injection Hw as <-.
  rewrite E. cbn [mbind outcome_bind]. apply may_ret. split; [done |]. split; [done |]. split; [|done].
  by apply (screen_copy s2).
Qed.

(** [monitor_printf_args] of a format whose conversions all have an argument
    returns, unless the memory for a page of the strings runs out, and the
    screen, the cursor and the lock are exactly what writing the formatted text
    character by character leaves; memory is as it was. *)
Theorem monitor_printf_correct fuel m s f str fmt args arg_ptr out
    (Hm : holds m f) (Hs : screen s) (Hu : unlocked (monitor_lock s)) (Hus : usable str (len fmt + 1))
    (Hstr : string_at f str fmt) (Hargs : args_at f arg_ptr args) (HP : prints fuel f fmt args out)
    (Hf : (length fmt < fuel)%nat) :
  may (monitor_printf_args fuel m s str arg_ptr) (fun '(m', s') => holds m' f /\
    screen_step s (Write out COLOR_WHITE) = Ok s' /\ screen s' /\ unlocked (monitor_lock s')).
Proof.
  apply locked_print_spec; [done.. |]. intros s1 Hs1.
  eapply printf_from_spec; rewrite ?Z.add_0_r; done.
Qed.

(** The text of a literal format. *)
Inductive pieces_show (fuel : nat) (f : Z -> Z) : list piece -> list Z -> Prop :=
  | Ps_nil : pieces_show fuel f [] []
  | Ps_lit t ps out : pieces_show fuel f ps out -> pieces_show fuel f (Lit t :: ps) (t ++ out)
  | Ps_dec n ps out : is_s32 n -> pieces_show fuel f ps out -> pieces_show fuel f (Dec n :: ps) (decimal n ++ out)
  | Ps_str p t ps out : string_at f p t -> usable p (len t + 1) -> (length t < fuel)%nat ->
      pieces_show fuel f ps out -> pieces_show fuel f (Str p :: ps) (t ++ out).

Lemma print_pieces_spec fuel f ps out :
  pieces_show fuel f ps out -> forall (m : M) s, holds m f -> screen s ->
  may (print_pieces fuel m s ps) (wrote f s out).
Proof.
  induction 1 as [| t ps out HP IH | n ps out Hn HP IH | p t ps out Ht Hu Hf HP IH]; intros m s Hm Hs;
    cbn [print_pieces]; [by apply may_ret | | rewrite write_dec_spec by done |
      eapply may_bind; [by apply (read_string_spec t fuel m f p) |]; intros [m1 c] [-> G1]].
  - destruct (write_ok f m s t Hm Hs) as (s1 & E & Hs1 & _). rewrite E. cbn [mbind outcome_bind].
    eapply may_mono; [by apply IH |]. intros r Hr. by eapply wrote_app.
  - destruct (write_ok f m s (decimal n) Hm Hs) as (s1 & E & Hs1 & _). rewrite E. cbn [mbind outcome_bind].
    eapply may_mono; [by apply IH |]. intros r Hr. by eapply wrote_app.
  - destruct (write_ok f m1 s t G1 Hs) as (s1 & E & Hs1 & _). rewrite E. cbn [mbind outcome_bind].
    eapply may_mono; [by apply IH |]. intros r Hr. by eapply wrote_app.
Qed.

Lemma monitor_printf_spec fuel f ps out (m : M) s :
  pieces_show fuel f ps out -> holds m f -> screen s -> unlocked (monitor_lock s) ->
  may (monitor_printf fuel m s ps) (fun '(m', s') => holds m' f /\
    screen_step s (Write out COLOR_WHITE) = Ok s' /\ screen s' /\ unlocked (monitor_lock s')).
Proof. intros HP Hm Hs Hu. apply locked_print_spec; [done.. |]. intros s1 Hs1. by apply print_pieces_spec. Qed.
End printf.

(** On the kernel's heap. *)
Lemma l_printf_args {M : Type} `{HeapSpace M} L fuel (m : M) s f str fmt args arg_ptr out :
  lholds L m f -> screen s -> unlocked (monitor_lock s) -> usable str (len fmt + 1) -> string_at f str fmt ->
  args_at f arg_ptr args -> prints fuel f fmt args out -> (length fmt < fuel)%nat ->
  may (monitor_printf_args fuel m s str arg_ptr) (fun '(m', s') => lholds L m' f /\
    screen_step s (Write out COLOR_WHITE) = Ok s' /\ screen s' /\ unlocked (monitor_lock s')).
Proof.
  intros ? ? ? Hu Ha Hg HP ?.
  apply (locked_print_spec (H := live_space L)); [done.. |]. intros s1 Hs1.
  apply (printf_from_spec (H := live_space L) fuel f fmt args out); rewrite ?Z.add_0_r; try done.
  clear -HP. induction HP as [| |c fmt a t args out Hsh HP IH|]; constructor; try done. by destruct Hsh; constructor.
Qed.

Lemma l_printf {M : Type} `{HeapSpace M} L fuel f ps out (m : M) s :
  pieces_show fuel f ps out -> lholds L m f -> screen s -> unlocked (monitor_lock s) ->
  may (monitor_printf fuel m s ps) (fun '(m', s') => lholds L m' f /\
    screen_step s (Write out COLOR_WHITE) = Ok s' /\ screen s' /\ unlocked (monitor_lock s')).
Proof.
  intros HP. apply (monitor_printf_spec (H := live_space L)).
  clear -HP. induction HP; constructor; done.
Qed.

(** "<%d,%s>" with -42 and "ab". *)
Lemma monitor_printf_correct_witness :
  exists m' s', monitor_printf_args 64 sample blank_screen 1200 1300 = Ok (m', s') /\
    screen_step blank_screen (Write [60; 45; 52; 50; 44; 97; 98; 62] COLOR_WHITE) = Ok s'.
Proof.
  assert (forall p n, 0 <= p -> p + n < 4294967296 -> usable (M := mem) p n) as Hu.
  { intros p n Hp Hn b Hb. unfold is_u32. split; [lia | exact I]. }
  destruct (monitor_printf_correct 64 sample blank_screen (load8 sample) 1200 [60; 37; 100; 44; 37; 115; 62]
    [4294967254; 1000] 1300 [60; 45; 52; 50; 44; 97; 98; 62]) as [Hp | ([m' s'] & E & _ & E' & _)].
  - by split.
  - exact blank_screen_ok.
  - reflexivity.
  - apply Hu; cbn; lia.
  - split; [repeat constructor; lia | vm_compute; reflexivity].
  - split; [apply Hu; cbn; lia |].
    intros [|[|i]] a Hi; simpl in Hi; try done; injection Hi as <-; vm_compute; reflexivity.
  - apply P_lit; [done |]. apply (P_conv _ _ 100 [44; 37; 115; 62] 4294967254 [45; 52; 50] [1000] [44; 97; 98; 62]).
    + exact (Sh_d _ _ 4294967254).
    + apply P_lit; [done |]. apply (P_conv _ _ 115 [62] 1000 [97; 98] [] [62]).
      * apply Sh_s; [split; [repeat constructor; lia | vm_compute; reflexivity] | apply Hu; cbn; lia | cbn; lia].
      * apply P_lit; [done | apply P_nil].
  - cbn. lia.
  - assert (is_panic (monitor_printf_args 64 sample blank_screen 1200 1300) = false) as Hno by (vm_compute; reflexivity).
    rewrite Hp in Hno. discriminate Hno.
  - exists m', s'. split; [exact E | exact E'].
Defined.
