(* ===== verification/Disk.v ===== *)
(** * The disk and its file system (driver/hard_disk.c, fs/naive_fs.c,
    fs/vfs.c, user/disk_image_writer.c)

    Reading byte ranges of the disk by sectors, the read-only file system on
    top of it, and the tool that writes its image.  The bytes of the disk are
    a function of their offset.  Memory is an address space, where an access may
    map a page, but for the sector buffer of [read_hard_disk], a heap block of
    its own. *)

From S2P Require Import Prelude.
From S2P Require Import Memory.
From S2P Require Import Allocator.
From S2P Require Import MathRand.
From S2P Require Import YieldLock.
From S2P Require Import CStdlib.
From S2P Require Import AddressSpace.
From S2P Require Import VMem.
From S2P Require Import HeapSpace.
From S2P Require Import Monitor.
From S2P Require Import Printf.

Definition SECTOR_SIZE : Z := 512.

(** ** The image writer *)

(** [fwrite] of an [int]. *)
Definition le32 (v : Z) : list Z := [u8 v; u8 (v / 256); u8 (v / 65536); u8 (v / 16777216)].

Definition META_SIZE : Z := 72.
Definition NAME_SIZE : Z := 64.

(** A file: its name and its contents. *)
Abbreviation file := (list Z * list Z)%type.

(** The loop that writes the meta data; [data_offset] is the offset of the
    next file's contents. *)
Fixpoint write_metas (files : list file) (data_offset : Z) : list Z :=
  match files with
  | [] => []
  | (name, data) :: files =>
      let size := len data in
      name ++ replicate (Z.to_nat (NAME_SIZE - len name)) 0 ++ le32 size ++ le32 data_offset
        ++ write_metas files (data_offset + size)
  end.

Definition write_image (files : list file) : list Z :=
  let num := len files in
  let data_offset := 4 + num * META_SIZE in
  le32 num ++ write_metas files data_offset ++ concat (snd <$> files).

Section disk.
Context {M : Type} `{ByteSpace M} `{Allocator M}.
Context (disk : Z -> Z).

(** [read_disk] of one sector: the controller takes 28 bits of its number. *)
Definition read_sector (sector : Z) : list Z :=
  (fun i => u8 (disk (sector mod 268435456 * SECTOR_SIZE + i))) <$> seqZ 0 SECTOR_SIZE.

(** [memcpy] out of the sector buffer. *)
Definition copy_out (m : M) (dst : Z) (sector_buffer : list Z) (src num : Z) : outcome M :=
  for_up (Z.to_nat num) 0 (fun i m =>
    c ← deref (if 0 <=? src + i then sector_buffer !! Z.to_nat (src + i) else None);
    bs_store m (u32 (dst + i)) c) m.

(** The body of the loop over the sectors. *)
Definition read_part (start end_ i : Z) (s : M * Z) : outcome (M * Z) :=
  let '(m, buffer) := s in
  let sector_buffer := read_sector i in
  let copy_start_addr := max (u32 (i * SECTOR_SIZE)) start in
  let copy_end_addr := min (u32 ((i + 1) * SECTOR_SIZE)) end_ in
  let copy_size := u32 (copy_end_addr - copy_start_addr) in
  m ← copy_out m buffer sector_buffer (u32 (copy_start_addr - i * SECTOR_SIZE)) (s32 copy_size);
  Ok (m, u32 (buffer + copy_size)).

Definition read_hard_disk (m : M) (buffer start length : Z) : outcome M :=
  let end_ := u32 (start + length) in
  let start_sector := start / SECTOR_SIZE in
  let end_sector := u32 (end_ - 1) / SECTOR_SIZE + 1 in
  '(m, sector_buffer) ← a_malloc m SECTOR_SIZE;
  '(m, _) ← for_up (Z.to_nat (end_sector - start_sector)) start_sector (read_part start end_) (m, buffer);
  a_free m sector_buffer.

(** ** The file system *)

(** The address space and the static variables; [file_num] is at [FILE_NUM]. *)
Record naive := Naive {
  nf_space : M;
  nf_metas : Z;
  nf_offset : Z
}.
Context (FILE_NUM : Z).

Definition set_nf (s : naive) (m : M) : naive :=
  {| nf_space := m; nf_metas := nf_metas s; nf_offset := nf_offset s |}.

Definition file_num (s : naive) : outcome (naive * Z) :=
  '(m, n) ← bs_load32 (nf_space s) FILE_NUM; Ok (set_nf s m, n).

(** Names fit in 64 bytes. *)
Definition NAME_FUEL : nat := 64.

Definition meta_of (s : naive) (i : Z) : Z := u32 (nf_metas s + META_SIZE * i).

(** The loop over the meta data: the address of the first entry of that name. *)
Fixpoint find_meta (n : nat) (s : naive) (filename i : Z) : outcome (naive * option Z) :=
  match n with
  | O => Ok (s, None)
  | S n =>
      let meta := meta_of s i in
      '(m, r) ← bs_strcmp NAME_FUEL (nf_space s) meta filename;
      let s := set_nf s m in
      if r =? 0 then Ok (s, Some meta) else find_meta n s filename (i + 1)
  end.

Definition find_file (s : naive) (filename : Z) : outcome (naive * option Z) :=
  '(s, n) ← file_num s; find_meta (Z.to_nat n) s filename 0.

Definition meta_size (s : naive) (meta : Z) : outcome (naive * Z) :=
  '(m, size) ← bs_load32 (nf_space s) (u32 (meta + NAME_SIZE)); Ok (set_nf s m, size).
Definition meta_offset (s : naive) (meta : Z) : outcome (naive * Z) :=
  '(m, offset) ← bs_load32 (nf_space s) (u32 (meta + NAME_SIZE + 4)); Ok (set_nf s m, offset).

(** [*stat] is at the address [stat]. *)
Definition naive_fs_stat_file (s : naive) (filename stat : Z) : outcome (naive * Z) :=
  '(s, r) ← find_file s filename;
  match r with
  | Some meta =>
      '(s, size) ← meta_size s meta;
      m ← bs_store32 (nf_space s) stat size;
      Ok (set_nf s m, 0)
  | None => Ok (s, -1)
  end.

Definition naive_fs_read_data (s : naive) (filename buffer start length : Z) : outcome (naive * Z) :=
  '(s, r) ← find_file s filename;
  match r with
  | None => Ok (s, -1)
  | Some file_meta =>
      '(s, offset) ← meta_offset s file_meta;
      '(s, size) ← meta_size s file_meta;
      let length := if size <? length then size else length in
      m ← read_hard_disk (nf_space s) buffer (u32 (nf_offset s + offset + start)) length;
      Ok (set_nf s m, s32 length)
  end.

(** [while ((size /= 10) > 0) length++;]: at most ten digits. *)
Fixpoint size_digits (fuel : nat) (size length : Z) : Z :=
  match fuel with
  | O => length
  | S fuel => let size := size / 10 in if 0 <? size then size_digits fuel size (length + 1) else length
  end.

(** The sizes' lengths of the entries from [i] on, in [size_length]. *)
Fixpoint list_lengths (n : nat) (s : naive) (i : Z) : outcome (naive * list Z) :=
  match n with
  | O => Ok (s, [])
  | S n =>
      '(s, size) ← meta_size s (meta_of s i);
      '(s, ls) ← list_lengths n s (i + 1);
      Ok (s, size_digits 10 size 1 :: ls)
  end.

(** A line of the listing; [spaces] printings of a space. *)
Fixpoint print_spaces (fuel spaces : nat) (m : M) (mon : monitor) : outcome (M * monitor) :=
  match spaces with
  | O => Ok (m, mon)
  | S spaces => '(m, mon) ← monitor_printf fuel m mon [Lit [32]]; print_spaces fuel spaces m mon
  end.
Definition print_meta (fuel : nat) (s : naive) (mon : monitor) (meta spaces : Z) : outcome (naive * monitor) :=
  '(m, mon) ← monitor_printf fuel (nf_space s) mon [Lit [114; 111; 111; 116; 32; 32]];
  '(m, mon) ← print_spaces fuel (Z.to_nat spaces) m mon;
  '(s, size) ← meta_size (set_nf s m) meta;
  '(m, mon) ← monitor_printf fuel (nf_space s) mon [Dec (s32 size); Lit [32; 32]; Str meta; Lit [10]];
  Ok (set_nf s m, mon).
Fixpoint print_metas (fuel : nat) (s : naive) (mon : monitor) (max_length i : Z) (size_length : list Z) :
    outcome (naive * monitor) :=
  match size_length with
  | [] => Ok (s, mon)
  | l :: ls =>
      '(s, mon) ← print_meta fuel s mon (meta_of s i) (u32 (max_length - l));
      print_metas fuel s mon max_length (i + 1) ls
  end.

(** The result is -1 in every case. *)
Definition naive_fs_list_dir (fuel : nat) (s : naive) (mon : monitor) (dir : Z) : outcome (naive * monitor * Z) :=
  '(s, n) ← file_num s;
  '(s, size_length) ← list_lengths (Z.to_nat n) s 0;
  let max_length := foldl max 0 size_length in
  '(s, mon) ← print_metas fuel s mon max_length 0 size_length;
  Ok (s, mon, -1).

Definition init_naive_fs (s : naive) : outcome naive :=
  let offset := 2057 * SECTOR_SIZE in
  m ← read_hard_disk (nf_space s) FILE_NUM (u32 (0 + offset)) 4;
  '(m, n) ← bs_load32 m FILE_NUM;
  let meta_size := u32 (n * META_SIZE) in
  '(m, file_metas) ← a_malloc m meta_size;
  m ← read_hard_disk m file_metas (u32 (4 + offset)) meta_size;
  Ok {| nf_space := m; nf_metas := file_metas; nf_offset := offset |}.

(** ** The switch *)

Inductive fs_type := NAIVE | EXT4.

(** A mounted file system with its functions. *)
Record fs_t := {
  fs_kind : fs_type;
  fs_stat_file : naive -> Z -> Z -> outcome (naive * Z);
  fs_list_dir : nat -> naive -> monitor -> Z -> outcome (naive * monitor * Z);
  fs_read_data : naive -> Z -> Z -> Z -> Z -> outcome (naive * Z)
}.

Definition naive_fs : fs_t :=
  {| fs_kind := NAIVE; fs_stat_file := naive_fs_stat_file; fs_list_dir := naive_fs_list_dir;
     fs_read_data := naive_fs_read_data |}.

Definition get_fs (path : Z) : fs_t := naive_fs.
Definition init_file_system (s : naive) : outcome naive := init_naive_fs s.
Definition stat_file (s : naive) (filename stat : Z) : outcome (naive * Z) :=
  fs_stat_file (get_fs filename) s filename stat.
Definition list_dir (fuel : nat) (s : naive) (mon : monitor) (dir : Z) : outcome (naive * monitor * Z) :=
  fs_list_dir (get_fs dir) fuel s mon dir.
Definition read_file (s : naive) (filename buffer start length : Z) : outcome (naive * Z) :=
  fs_read_data (get_fs filename) s filename buffer start length.

(** ** Reading the disk *)

(** The bytes of the disk from [o] on. *)
Definition disk_bytes (o n : Z) : list Z := (fun i => u8 (disk (o + i))) <$> seqZ 0 n.

Lemma disk_bytes_lookup o n i :
  0 <= i < n -> disk_bytes o n !! Z.to_nat i = Some (u8 (disk (o + i))).
Proof.
  intros Hi. unfold disk_bytes. rewrite list_lookup_fmap, lookup_seqZ_lt by lia. cbn. do 3 f_equal. lia.
Qed.

Lemma disk_bytes_len o n : 0 <= n -> len (disk_bytes o n) = n.
Proof. intros Hn. unfold disk_bytes. rewrite length_fmap, length_seqZ. lia. Qed.

Lemma disk_bytes_snoc o n : 0 <= n -> disk_bytes o (n + 1) = disk_bytes o n ++ [u8 (disk (o + n))].
Proof.
  intros Hn. unfold disk_bytes. rewrite seqZ_app by lia. rewrite fmap_app. cbn. by rewrite Z.add_0_l.
Qed.

Lemma disk_bytes_app o n k : 0 <= n -> 0 <= k -> disk_bytes o (n + k) = disk_bytes o n ++ disk_bytes (o + n) k.
Proof.
  intros Hn Hk. unfold disk_bytes. rewrite seqZ_app, fmap_app by lia. f_equal.
  rewrite Z.add_0_l, <- (Z.add_0_r n) at 1. rewrite <- fmap_add_seqZ, <- list_fmap_compose.
  apply list_fmap_ext. intros i x Hx. cbn. do 2 f_equal. lia.
Qed.

End disk.

Section reading.
Context {M : Type} `{HeapSpace M}.
Context (disk : Z -> Z).

Lemma copy_out_spec L (m : M) f dst i src num :
  lholds L m f -> usable dst num ->
  0 <= src -> 0 <= num -> src + num <= SECTOR_SIZE -> 0 <= i < 268435456 ->
  may (copy_out m dst (read_sector disk i) src num)
    (fun m' => lholds L m' (patch f dst (disk_bytes disk (i * SECTOR_SIZE + src) num))).
Proof.
  intros Hm Hu Hs Hn Hb Hi. unfold copy_out. pose proof (disk_bytes_len disk (i * SECTOR_SIZE + src) num Hn) as Hl.
  replace (Z.to_nat num) with (length (disk_bytes disk (i * SECTOR_SIZE + src) num)) by lia.
  apply (store_loop (H := live_space L)); [done |].
  intros j c m' Hc Hj Hm'. pose proof (lookup_lt_Some _ _ _ Hc). rewrite disk_bytes_lookup in Hc by lia.
  injection Hc as <-. rewrite (proj2 (Z.leb_le 0 _)) by lia.
  assert (read_sector disk i = disk_bytes disk (i * SECTOR_SIZE) SECTOR_SIZE) as ->
    by (unfold read_sector; rewrite Z.mod_small by lia; done).
  rewrite disk_bytes_lookup by lia. cbn [deref mbind outcome_bind]. rewrite <- Z.add_assoc.
  set (c := u8 (disk (i * SECTOR_SIZE + (src + j)))).
  assert ([c] = [u8 c]) as -> by (by rewrite (u8_small c) by apply u8_range).
  apply (bs_store_at (H := live_space L) m' _ dst num); [done | done | lia].
Qed.

(** How much of the range the sectors before [i] hold. *)
Definition copied (start length i : Z) : Z := Z.min (Z.max (i * SECTOR_SIZE) start) (start + length) - start.

(** So much was read to [buffer]. *)
Definition got (L : gmap Z Z) (f : Z -> Z) (buffer start n : Z) (s : M * Z) : Prop :=
  lholds L s.1 (patch f buffer (disk_bytes disk start n)) /\ s.2 = u32 (buffer + n).

Lemma read_part_spec L f m buffer start length i :
  usable buffer length ->
  0 <= start -> 0 < length -> start + length <= 4294966784 -> start / SECTOR_SIZE <= i ->
  i * SECTOR_SIZE < start + length -> got L f buffer start (copied start length i) m ->
  may (read_part disk start (start + length) i m) (got L f buffer start (copied start length (i + 1))).
Proof.
  intros Hu Hs Hl Hb Hi He [Hm Hbuf]. destruct m as [m b]. cbn [fst snd] in *. subst b.
  unfold read_part, copied, SECTOR_SIZE in *.
  rewrite (u32_small (i * 512)), (u32_small ((i + 1) * 512)) by lia.
  assert (max (i * 512) start = Z.max (i * 512) start) as -> by (unfold max; destruct (Z.ltb_spec start (i * 512)); lia).
  assert (min ((i + 1) * 512) (start + length) = Z.min ((i + 1) * 512) (start + length)) as ->
    by (unfold min; destruct (Z.ltb_spec ((i + 1) * 512) (start + length)); lia).
  set (c0 := Z.max (i * 512) start) in *. set (c1 := Z.min ((i + 1) * 512) (start + length)).
  assert (0 <= c0 <= c1 /\ c1 - c0 <= 512 /\ c0 - i * 512 + (c1 - c0) <= 512 /\ 0 <= c0 - i * 512) as Hc
    by (unfold c0, c1; lia).
  replace (Z.min c0 (start + length) - start) with (c0 - start) in * by (unfold c0; lia).
  replace (Z.min (Z.max ((i + 1) * 512) start) (start + length) - start) with (c1 - start)
    by (unfold c1; lia).
  rewrite (u32_small (c1 - c0)), (u32_small (c0 - i * 512)), s32_small by (unfold is_s32; lia).
  destruct (usable_u32 buffer length (c0 - start) Hu) as [-> _]; [unfold c0; lia |].
  eapply may_bind.
  { eapply (copy_out_spec L m _ (buffer + (c0 - start)) i (c0 - i * 512) (c1 - c0)); [exact Hm | | lia | lia | unfold SECTOR_SIZE; lia | lia].
    eapply usable_sub; [exact Hu | unfold c0; lia | unfold c0, c1; lia]. }
  intros m2 Hm2. cbv beta in Hm2. apply may_ret. split; cbn [fst snd]; [|f_equal; lia].
  replace (c1 - start) with (c0 - start + (c1 - c0)) by lia.
  rewrite disk_bytes_app by (unfold c0; lia). eapply lholds_ext; [|exact Hm2]. intros b'.
  rewrite patch_app, disk_bytes_len by (unfold c0; lia).
  unfold SECTOR_SIZE. by replace (start + (c0 - start)) with (i * 512 + (c0 - i * 512)) by lia.
Qed.

Lemma read_hard_disk_spec L (m : M) f buffer start length :
  lholds L m f -> Z.of_nat (size L) < capacity -> SECTOR_SIZE < request_limit -> usable buffer length ->
  0 <= start -> 0 < length -> start + length <= 4294966784 ->
  may (read_hard_disk disk m buffer start length)
    (fun m' => lholds L m' (patch f buffer (disk_bytes disk start length))).
Proof.
  intros Hm Hc Hr Hu Hs Hl Hb. unfold read_hard_disk.
  eapply may_bind; [apply (l_malloc_spec L m f SECTOR_SIZE); [done | done | unfold SECTOR_SIZE in *; lia] |].
  intros [m1 p] (k & _ & Hp & Hm1). cbv beta iota.
  rewrite (u32_small (start + length)), (u32_small (start + length - 1)) by lia.
  unfold SECTOR_SIZE at 1 2 3. eapply may_bind.
  { apply (may_for_up (fun i t => got (<[p := k]> L) f buffer start (copied start length i) t)).
    - replace (copied start length (start / 512)) with 0 by (unfold copied, SECTOR_SIZE; lia).
      split; cbn [fst snd]; [|rewrite Z.add_0_r; symmetry; apply u32_small; apply (Hu buffer); lia].
      eapply lholds_ext; [|exact Hm1]. intros b. symmetry. apply patch_nil.
    - intros j t Hj Ht. apply read_part_spec; try done; unfold SECTOR_SIZE; lia. }
  intros [m2 b2] [Hm2 _]. cbn [fst snd] in *.
  destruct (l_free_spec (<[p := k]> L) m2 _ p Hm2) as (m3 & -> & Hm3); [rewrite lookup_insert_eq; by eexists |].
  rewrite delete_insert_eq, delete_id in Hm3 by done. right. exists m3. split; [done |].
  replace length with (copied start length
    (start / 512 + Z.of_nat (Z.to_nat ((start + length - 1) / 512 + 1 - start / 512)))) at 1; [done |].
  unfold copied, SECTOR_SIZE. lia.
Qed.
End reading.
