(* ===== verification/NaiveFs.v ===== *)
(** * The file system reads back what the image writer wrote

    The layout of the image in memory and on the disk, and the operations of
    the file system on it, in any address space with a heap. *)

From S2P Require Import Prelude.
From S2P Require Import Memory.
From S2P Require Import KHeap.
From S2P Require Import KMalloc.
From S2P Require Import Allocator.
From S2P Require Import Paging.
From S2P Require Import CStdlib.
From S2P Require Import AddressSpace.
From S2P Require Import VMem.
From S2P Require Import HeapSpace.
From S2P Require Import YieldLock.
From S2P Require Import MathRand.
From S2P Require Import Monitor.
From S2P Require Import Printf.
From S2P Require Import Disk.

(** ** Bytes *)

(** The bytes [s] are at [p]. *)
Definition bytes_at (f : Z -> Z) (p : Z) (s : list Z) : Prop :=
  forall i c, s !! i = Some c -> f (p + Z.of_nat i) = c.

Lemma bytes_at_cons f p c s : bytes_at f p (c :: s) <-> f p = c /\ bytes_at f (p + 1) s.
Proof.
  split.
  - intros Hb. split; [rewrite <- (Z.add_0_r p); by apply (Hb 0%nat) |]. intros i c' Hi.
    replace (p + 1 + Z.of_nat i) with (p + Z.of_nat (S i)) by lia. by apply Hb.
  - intros [Hc Hb] [|i] c' Hi; simplify_eq/=; [by rewrite Z.add_0_r |].
    replace (p + Z.of_nat (S i)) with (p + 1 + Z.of_nat i) by lia. by apply Hb.
Qed.

Lemma bytes_at_app f p s t : bytes_at f p (s ++ t) <-> bytes_at f p s /\ bytes_at f (p + len s) t.
Proof.
  revert p. induction s as [|c s IH]; intros p; cbn [app length].
  - rewrite Z.add_0_r. split; [intros ?; split; [intros i c Hi; done | done] | by intros [_ ?]].
  - rewrite !bytes_at_cons, IH. replace (p + Z.of_nat (S (length s))) with (p + 1 + len s) by lia. tauto.
Qed.

Lemma bytes_patch f p s : bytes_at (patch f p s) p s.
Proof.
  intros i c Hi. pose proof (lookup_lt_Some _ _ _ Hi). apply patch_in; [|lia].
  by replace (Z.to_nat (p + Z.of_nat i - p)) with i by lia.
Qed.

Lemma bytes_string f p s t : Forall (fun c => 0 < c < 256) s -> bytes_at f p (s ++ 0 :: t) -> string_at f p s.
Proof.
  intros Hs. revert p. induction Hs as [|c s Hc Hs IH]; intros p; cbn [app];
    rewrite bytes_at_cons, ?string_at_nil, ?string_at_cons; intros [? ?]; [done |].
  split_and!; [done | lia | by apply IH].
Qed.

Lemma bytes_le32 f p v t : bytes_at f p (le32 v ++ t) -> word32 f p = u32 v.
Proof.
  unfold le32. cbn [app]. rewrite !bytes_at_cons. intros (H0 & H1 & H2 & H3 & _). unfold word32.
  replace (p + 1 + 1 + 1) with (p + 3) in H3 by lia. replace (p + 1 + 1) with (p + 2) in H2 by lia.
  rewrite H0, H1, H2, H3. unfold u8, u32. lia.
Qed.

Lemma le32_len v : len (le32 v) = 4.
Proof. done. Qed.

(** The same bytes at the [n] addresses from [p] on. *)
Definition same_at (f g : Z -> Z) (p n : Z) : Prop := forall b, p <= b < p + n -> g b = f b.

Lemma same_sub f g p n q k : same_at f g p n -> p <= q -> q + k <= p + n -> same_at f g q k.
Proof. intros Hs Hq Hk b Hb. apply Hs. lia. Qed.

Lemma word32_same f g p : same_at f g p 4 -> word32 g p = word32 f p.
Proof. intros Hs. apply word32_slice, slice_ext. intros b Hb. by apply Hs. Qed.

(** ** The image *)

Definition valid_file (f : file) : Prop :=
  Forall (fun c => 0 < c < 256) f.1 /\ len f.1 < NAME_SIZE /\ Forall is_u8 f.2.

Definition data_size (files : list file) : Z := len (concat (snd <$> files)).

Record valid_files (files : list file) : Prop := {
  vf_files : Forall valid_file files;
  vf_names : NoDup (fst <$> files);
  vf_some : files <> [];
  vf_size : 4 + META_SIZE * len files + data_size files <= 1073741824
}.

(** The offset of the contents of file [i]. *)
Definition offset_of (files : list file) (i : nat) : Z :=
  4 + META_SIZE * len files + data_size (take i files).

Lemma data_size_cons f files : data_size (f :: files) = len f.2 + data_size files.
Proof. unfold data_size. cbn. rewrite length_app. lia. Qed.

Lemma data_size_nonneg files : 0 <= data_size files.
Proof. unfold data_size. lia. Qed.

Lemma write_metas_len files o : Forall valid_file files -> len (write_metas files o) = META_SIZE * len files.
Proof.
  intros Hv. revert o. induction Hv as [|[name data] files (_ & Hn & _) Hv IH]; intros o; [done |].
  cbn [write_metas fst] in *. rewrite !length_app, length_replicate. cbn [le32 length].
  specialize (IH (o + len data)). unfold META_SIZE, NAME_SIZE in *. lia.
Qed.

(** An entry of the table: the name, the size and the offset. *)
Record meta_at (f : Z -> Z) (p : Z) (name : list Z) (size offset : Z) : Prop := {
  ma_name : string_at f p name;
  ma_size : word32 f (p + NAME_SIZE) = size;
  ma_offset : word32 f (p + NAME_SIZE + 4) = offset
}.

Lemma write_metas_at f p files o i name data :
  Forall valid_file files -> bytes_at f p (write_metas files o) -> files !! i = Some (name, data) ->
  0 <= o -> o + data_size files < 4294967296 ->
  meta_at f (p + META_SIZE * Z.of_nat i) name (len data) (o + data_size (take i files)).
Proof.
  intros Hv. revert p o i. induction Hv as [|[name' data'] files (Hc & Hn & _) Hv IH]; intros p o i; [done |].
  cbn [write_metas fst snd] in *. intros Hb Hi Ho Hsz. rewrite data_size_cons in Hsz. cbn [snd] in Hsz.
  unfold NAME_SIZE in *. pose proof (data_size_nonneg files).
  set (k := Z.to_nat (64 - len name')) in *.
  assert (exists j, k = S j) as [j Hj] by (exists (Nat.pred k); lia).
  pose proof Hb as Hb'. rewrite app_assoc in Hb'. rewrite bytes_at_app in Hb'. destruct Hb' as [_ Hr].
  rewrite length_app, length_replicate in Hr.
  replace (p + Z.of_nat (length name' + k)) with (p + 64) in Hr by lia.
  destruct i as [|i]; cbn [lookup list_lookup] in Hi.
  - simplify_eq. replace (p + META_SIZE * Z.of_nat 0) with p by lia. constructor; unfold NAME_SIZE.
    + rewrite Hj in Hb. eapply bytes_string; [done |]. exact Hb.
    + rewrite (bytes_le32 _ _ _ _ Hr). apply u32_small. lia.
    + apply bytes_at_app in Hr as [_ Hr]. rewrite le32_len in Hr. rewrite (bytes_le32 _ _ _ _ Hr).
      unfold data_size. cbn. rewrite Z.add_0_r. apply u32_small. lia.
  - apply bytes_at_app in Hr as [_ Hr]. apply bytes_at_app in Hr as [_ Hr]. rewrite !le32_len in Hr.
    assert (p + META_SIZE * Z.of_nat (S i) = p + 64 + 4 + 4 + META_SIZE * Z.of_nat i) as -> by (unfold META_SIZE; lia).
    cbn [take]. rewrite data_size_cons. cbn [snd]. rewrite Z.add_assoc. apply IH; try done; lia.
Qed.

(** ** The mounted file system *)

Section naive_fs.
Context {M : Type} `{HeapSpace M}.
Context (disk : Z -> Z) (FILE_NUM : Z).
Abbreviation naive := (naive (M := M)).

Definition PARTITION : Z := 2057 * SECTOR_SIZE.

(** The disk holds the image. *)
Definition disk_holds (files : list file) : Prop :=
  forall i c, write_image files !! i = Some c -> u8 (disk (PARTITION + Z.of_nat i)) = c.

(** The table of [files] is in memory. *)
Record mounted (f : Z -> Z) (s : naive) (files : list file) : Prop := {
  mt_file_num : usable FILE_NUM 4;
  mt_num : word32 f FILE_NUM = len files;
  mt_offset : nf_offset s = PARTITION;
  mt_table : usable (nf_metas s) (META_SIZE * len files);
  mt_metas : forall i name data, files !! i = Some (name, data) ->
    meta_at f (nf_metas s + META_SIZE * Z.of_nat i) name (len data) (offset_of files i)
}.

Lemma disk_slice files o n :
  disk_holds files -> 0 <= o -> 0 <= n -> o + n <= len (write_image files) ->
  disk_bytes disk (PARTITION + o) n = take (Z.to_nat n) (drop (Z.to_nat o) (write_image files)).
Proof.
  intros Hd Ho Hn Hl. apply list_eq. intros i. destruct (decide (Z.of_nat i < n)).
  - rewrite <- (Nat2Z.id i), disk_bytes_lookup by lia. rewrite lookup_take_lt, lookup_drop by lia.
    destruct (lookup_lt_is_Some_2 (write_image files) (Z.to_nat o + Z.to_nat (Z.of_nat i))) as [c Hc]; [lia |].
    rewrite Hc. f_equal. rewrite <- (Hd _ _ Hc). do 2 f_equal. lia.
  - pose proof (disk_bytes_len disk (PARTITION + o) n Hn).
    rewrite !lookup_ge_None_2; [done | rewrite length_take; lia | lia].
Qed.

Lemma image_len files :
  Forall valid_file files -> len (write_image files) = 4 + META_SIZE * len files + data_size files.
Proof.
  intros Hv. unfold write_image. rewrite !length_app, !Nat2Z.inj_add, le32_len, write_metas_len by done.
  unfold data_size. lia.
Qed.

(** The contents of a file and all that follows it. *)
Lemma image_data files i name data :
  Forall valid_file files -> files !! i = Some (name, data) ->
  drop (Z.to_nat (offset_of files i)) (write_image files) = data ++ concat (snd <$> drop (S i) files).
Proof.
  intros Hv Hi. unfold write_image. rewrite app_assoc.
  assert (Z.to_nat (offset_of files i) = length (le32 (len files) ++ write_metas files (4 + len files * META_SIZE))
    + length (concat (snd <$> take i files)))%nat as ->.
  { pose proof (write_metas_len files (4 + len files * META_SIZE) Hv). rewrite length_app. cbn [le32 length].
    unfold offset_of, data_size, META_SIZE in *. lia. }
  rewrite <- drop_drop, drop_app_length. rewrite <- (take_drop_middle _ _ _ Hi) at 2.
  rewrite fmap_app, fmap_cons, concat_app. cbn [concat snd]. by rewrite drop_app_length.
Qed.

Lemma same_name (files : list file) i j name data data' :
  NoDup (fst <$> files) -> files !! i = Some (name, data) -> files !! j = Some (name, data') -> i = j.
Proof.
  intros Hnd Hi Hj. eapply NoDup_lookup; [done | |]; rewrite list_lookup_fmap; [by rewrite Hi | by rewrite Hj].
Qed.

(** The state moved to an address space with the same contents. *)
Definition moved (L : gmap Z Z) (f : Z -> Z) (s s' : naive) : Prop :=
  exists m, s' = set_nf s m /\ lholds L m f.

Lemma moved_trans L f s s1 s2 : moved L f s s1 -> moved L f s1 s2 -> moved L f s s2.
Proof. intros (m1 & -> & H1') (m2 & -> & H2'). by exists m2. Qed.

(** A name in memory that a caller passes. *)
Definition name_at (f : Z -> Z) (p : Z) (name : list Z) : Prop := string_at f p name /\ usable p (len name + 1).

(** Entry [i] of the table. *)
Lemma entry_usable f s files i :
  mounted f s files -> valid_files files -> (i < length files)%nat ->
  meta_of s (Z.of_nat i) = nf_metas s + META_SIZE * Z.of_nat i /\
  usable (nf_metas s + META_SIZE * Z.of_nat i) META_SIZE.
Proof.
  intros Hm Hvf Hi. pose proof (mt_table _ _ _ Hm) as Hu. unfold meta_of, META_SIZE in *.
  split; [|eapply usable_sub; [exact Hu | lia | lia]].
  apply (usable_u32 (nf_metas s) (72 * len files)); [done | lia].
Qed.

(** The search finds the file of that name. *)
Lemma find_meta_spec L f files filename name k n : forall s,
  lholds L (nf_space s) f -> mounted f s files -> valid_files files -> name_at f filename name ->
  (k + n = length files)%nat ->
  may (find_meta n s filename (Z.of_nat k)) (fun '(s', r) => moved L f s s' /\
    ((exists i data, r = Some (nf_metas s + META_SIZE * Z.of_nat i) /\ files !! i = Some (name, data)) \/
     (r = None /\ name ∉ fst <$> drop k files))).
Proof.
  revert k. induction n as [|n IH]; intros k s Hm Hmt Hvf [Hname Hu] Hk; cbn [find_meta].
  { apply may_ret. split; [exists (nf_space s); split; [by destruct s | done] |].
    right. split; [done |]. rewrite drop_ge by lia. cbn. apply not_elem_of_nil. }
  destruct (lookup_lt_is_Some_2 files k) as [[name' data] Hi]; [lia |].
  destruct (mt_metas _ _ _ Hmt _ _ _ Hi) as [Hc _ _].
  destruct (Forall_lookup_1 _ _ _ _ (vf_files _ Hvf) Hi) as (_ & Hlen & _). cbn [fst] in Hlen. unfold NAME_SIZE in Hlen.
  destruct (entry_usable f s files k Hmt Hvf) as [-> Hum]; [lia |].
  eapply may_bind.
  { apply (l_strcmp_spec L name' name NAME_FUEL (nf_space s) f _ filename Hm); try done.
    - eapply usable_sub; [exact Hum | lia | unfold META_SIZE; lia].
    - unfold NAME_FUEL. lia. }
  intros [m1 r] [-> Hm1]. destruct (Z.eqb_spec (compare_strings name' name) 0) as [He|He].
  - apply compare_strings_eq in He as ->. apply may_ret. split; [by exists m1 |]. left. by exists k, data.
  - replace (Z.of_nat k + 1) with (Z.of_nat (S k)) by lia.
    eapply may_mono; [apply (IH (S k) (set_nf s m1)); [done | by destruct Hmt | done | done | lia] |].
    intros [s' r] [Hmv Hr]. split; [eapply moved_trans; [by exists m1 | exact Hmv] |].
    destruct Hr as [Hr | [-> Hni]]; [by left | right]. split; [done |].
    rewrite (drop_S _ _ _ Hi), fmap_cons, not_elem_of_cons. split; [|done].
    cbn. intros ->. apply He. by apply compare_strings_eq.
Qed.

Lemma file_num_spec L f files s :
  lholds L (nf_space s) f -> mounted f s files ->
  may (file_num FILE_NUM s) (fun '(s', n) => moved L f s s' /\ n = len files).
Proof.
  intros Hm Hmt. unfold file_num. eapply may_bind; [apply (l_load32_spec L _ f _ Hm), (mt_file_num _ _ _ Hmt) |].
  intros [m1 c] [-> Hm1]. apply may_ret. split; [by exists m1 | apply Hmt].
Qed.

Lemma find_file_spec L f files filename name s :
  lholds L (nf_space s) f -> mounted f s files -> valid_files files -> name_at f filename name ->
  may (find_file FILE_NUM s filename) (fun '(s', r) => moved L f s s' /\
    ((exists i data, r = Some (nf_metas s + META_SIZE * Z.of_nat i) /\ files !! i = Some (name, data)) \/
     (r = None /\ name ∉ fst <$> files))).
Proof.
  intros Hm Hmt Hvf Hn. unfold find_file. eapply may_bind; [by apply file_num_spec |].
  intros [s1 c] [(m1 & -> & Hm1) ->]. rewrite Nat2Z.id. change 0 with (Z.of_nat 0).
  eapply may_mono; [apply (find_meta_spec L f files filename name 0 (length files) (set_nf s m1)); try done; by destruct Hmt |].
  intros [s' r] [Hmv Hr]. split; [eapply moved_trans; [by exists m1 | exact Hmv] | exact Hr].
Qed.

Lemma find_file_found L f files filename i name data s :
  lholds L (nf_space s) f -> mounted f s files -> valid_files files -> name_at f filename name ->
  files !! i = Some (name, data) ->
  may (find_file FILE_NUM s filename) (fun '(s', r) => moved L f s s' /\
    r = Some (nf_metas s + META_SIZE * Z.of_nat i)).
Proof.
  intros Hm Hmt Hvf Hn Hi. eapply may_mono; [by apply (find_file_spec L f files filename name) |].
  intros [s' r] [Hmv Hr]. split; [done |]. destruct Hr as [(j & d & -> & Hj) | [_ Hni]].
  - by rewrite (same_name files i j name data d (vf_names _ Hvf) Hi Hj).
  - exfalso. apply Hni, list_elem_of_fmap. exists (name, data). split; [done |]. by eapply list_elem_of_lookup_2.
Qed.

(** The fields of an entry. *)
Lemma meta_fields L f files s i name data :
  lholds L (nf_space s) f -> mounted f s files -> valid_files files -> files !! i = Some (name, data) ->
  let meta := nf_metas s + META_SIZE * Z.of_nat i in
  may (meta_size s meta) (fun '(s', c) => c = len data /\ moved L f s s') /\
  may (meta_offset s meta) (fun '(s', c) => c = offset_of files i /\ moved L f s s').
Proof.
  intros Hm Hmt Hvf Hi meta. destruct (mt_metas _ _ _ Hmt _ _ _ Hi) as [_ Hs Ho]. fold meta in Hs, Ho.
  destruct (entry_usable f s files i Hmt Hvf) as [_ Hu]; [by eapply lookup_lt_Some |]. fold meta in Hu.
  unfold meta_size, meta_offset, NAME_SIZE, META_SIZE in *.
  rewrite <- (Z.add_assoc meta 64 4) in *. split.
  - destruct (usable_u32 meta 72 64 Hu) as [-> _]; [lia |].
    eapply may_bind; [apply (l_load32_spec L _ f _ Hm); eapply usable_sub; [exact Hu | lia | lia] |].
    intros [m1 c] [-> Hm1]. apply may_ret. split; [done | by exists m1].
  - destruct (usable_u32 meta 72 (64 + 4) Hu) as [-> _]; [lia |].
    eapply may_bind; [apply (l_load32_spec L _ f _ Hm); eapply usable_sub; [exact Hu | lia | lia] |].
    intros [m1 c] [-> Hm1]. apply may_ret. split; [done | by exists m1].
Qed.

Lemma moved_mounted L f s s' files : moved L f s s' -> mounted f s files -> mounted f s' files.
Proof. intros (m & -> & _) []. by constructor. Qed.

Lemma moved_holds L f s s' : moved L f s s' -> lholds L (nf_space s') f /\ nf_metas s' = nf_metas s /\ nf_offset s' = nf_offset s.
Proof. by intros (m & -> & Hm). Qed.

(** The table survives writes elsewhere. *)
Lemma mounted_same f g s s' files :
  valid_files files -> mounted f s files -> nf_metas s' = nf_metas s -> nf_offset s' = nf_offset s ->
  same_at f g FILE_NUM 4 -> same_at f g (nf_metas s) (META_SIZE * len files) -> mounted g s' files.
Proof.
  intros [Hv _ _ _] [] Em Eo Hn Ht. constructor; rewrite ?Em, ?Eo; try done.
  - rewrite <- mt_num0. by apply word32_same.
  - intros i name data Hi. destruct (mt_metas0 i name data Hi) as [Hc Hs Ho].
    destruct (Forall_lookup_1 _ _ _ _ Hv Hi) as (_ & Hlen & _). cbn [fst] in Hlen.
    apply lookup_lt_Some in Hi. unfold META_SIZE, NAME_SIZE in *.
    constructor; unfold NAME_SIZE.
    + eapply string_at_ext; [|exact Hc]. intros b Hb. apply Ht. lia.
    + rewrite <- Hs. apply word32_same. eapply same_sub; [exact Ht | lia | lia].
    + rewrite <- Ho. apply word32_same. eapply same_sub; [exact Ht | lia | lia].
Qed.

(** Where the table of [n] files at [metas] and [file_num] are. *)
Definition fs_area (metas n b : Z) : Prop := FILE_NUM <= b < FILE_NUM + 4 \/ metas <= b < metas + META_SIZE * n.

(** Mounting sets up the table in a block of its own. *)
Lemma init_naive_fs_spec (s : naive) files L f :
  lholds L (nf_space s) f -> disk_holds files -> valid_files files -> usable FILE_NUM 4 -> safe L FILE_NUM 4 ->
  Z.of_nat (size L) + 1 < capacity -> SECTOR_SIZE < request_limit -> META_SIZE * len files < request_limit ->
  may (init_naive_fs disk FILE_NUM s) (fun s' => exists k f',
    lholds (<[nf_metas s' := k]> L) (nf_space s') f' /\ L !! nf_metas s' = None /\ mounted f' s' files /\
    forall b, ~ fs_area (nf_metas s') (len files) b -> f' b = f b).
Proof.
  intros Hm Hd Hvf Hun Hsn Hc Hr Hq. pose proof Hvf as [Hv Hnd Hsome Hsize].
  pose proof (image_len files Hv) as Hil. pose proof (data_size_nonneg files) as Hdn.
  assert (0 < len files) as Hpos by (destruct files; [done | cbn; lia]).
  unfold init_naive_fs. fold PARTITION.
  assert (u32 (0 + PARTITION) = PARTITION) as -> by done.
  assert (u32 (4 + PARTITION) = PARTITION + 4) as -> by done.
  eapply may_bind; [apply (read_hard_disk_spec disk L _ f FILE_NUM PARTITION 4 Hm); try done; lia |].
  intros m1 Hm1. cbv beta in Hm1. unfold META_SIZE in *.
  rewrite <- (Z.add_0_r PARTITION), (disk_slice files 0 4) in Hm1 by (done || lia).
  rewrite drop_0 in Hm1. change (Z.to_nat 4) with (length (le32 (len files))) in Hm1.
  unfold write_image in Hm1. rewrite take_app_length in Hm1. set (f1 := patch f FILE_NUM _) in *.
  assert (word32 f1 FILE_NUM = len files) as Hnum.
  { pose proof (bytes_patch f FILE_NUM (le32 (len files))) as Hb. rewrite <- (app_nil_r (le32 _)) in Hb at 2.
    apply bytes_le32 in Hb. unfold f1. rewrite Hb. apply u32_small. lia. }
  eapply may_bind; [by apply (l_load32_spec L m1 f1) |]. intros [m2 c] [-> Hm2].
  rewrite Hnum, u32_small, Z.mul_comm by lia.
  eapply may_bind; [apply (l_malloc_spec L m2 f1 (72 * len files)); [done | lia | lia] |].
  intros [m3 p] (k & Hk & Hp & Hm3).
  assert (usable p (72 * len files)) as Hup by (eapply block_usable; [exact Hm3 | apply lookup_insert_eq | lia]).
  assert (FILE_NUM + 4 <= p \/ p + k <= FILE_NUM) as Hap.
  { eapply (safe_apart m3 L (<[p := k]> L)); [by eapply lholds_alive | by apply insert_subseteq | done
      | apply lookup_insert_eq | done]. }
  eapply may_bind.
  { apply (read_hard_disk_spec disk (<[p := k]> L) m3 f1 p (PARTITION + 4) (72 * len files) Hm3); try done; try lia.
    - rewrite map_size_insert_None by done. lia.
    - unfold PARTITION, SECTOR_SIZE. lia. }
  intros m4 Hm4. cbv beta in Hm4. rewrite (disk_slice files) in Hm4 by (done || lia).
  unfold write_image in Hm4. change (Z.to_nat 4) with (length (le32 (len files))) in Hm4.
  pose proof (write_metas_len files (4 + len files * 72) Hv) as Hml. unfold META_SIZE in *.
  rewrite drop_app_length, take_app_length' in Hm4 by lia.
  apply may_ret. exists k, (patch f1 p (write_metas files (4 + len files * 72))). cbn [nf_space nf_metas].
  split; [exact Hm4 |]. split; [done |]. split.
  - constructor; cbn [nf_metas nf_offset]; unfold META_SIZE; try done.
    + rewrite word32_patch_out by lia. exact Hnum.
    + intros i name data Hi. unfold offset_of, META_SIZE.
      replace (4 + 72 * len files + data_size (take i files))
        with (4 + len files * 72 + data_size (take i files)) by lia.
      apply (write_metas_at _ p files); [done | apply bytes_patch | done | lia | lia].
  - intros b Hb. unfold fs_area, META_SIZE in Hb. unfold f1. rewrite !patch_out; [done | | lia]. rewrite le32_len. lia.
Qed.

(** Reading returns the requested number of bytes, at most the size of the
    file, and takes them from that position of the file on. *)
Lemma read_file_spec (s : naive) files L f filename name data i buffer start length :
  lholds L (nf_space s) f -> disk_holds files -> valid_files files -> mounted f s files ->
  Z.of_nat (size L) < capacity -> SECTOR_SIZE < request_limit ->
  name_at f filename name -> files !! i = Some (name, data) ->
  let n := Z.min length (len data) in
  let rest := concat (snd <$> drop (S i) files) in
  usable buffer n -> 0 <= start -> 0 < n -> start + n <= len (data ++ rest) ->
  may (read_file disk FILE_NUM s filename buffer start length) (fun '(s', r) => r = n /\
    moved L (patch f buffer (take (Z.to_nat n) (drop (Z.to_nat start) (data ++ rest)))) s s').
Proof.
  intros Hm Hd Hvf Hmt Hc Hr Hname Hi n rest Hu Hs Hn Hb. pose proof Hvf as [Hv Hnd Hsome Hsize].
  pose proof (image_len files Hv) as Hil.
  pose proof (image_data files i name data Hv Hi) as Himg. fold rest in Himg.
  assert (0 <= offset_of files i) as Ho
    by (unfold offset_of, META_SIZE; pose proof (data_size_nonneg (take i files)); lia).
  assert (offset_of files i + start + n <= len (write_image files)) as Hend.
  { apply (f_equal (fun l => len l)) in Himg. rewrite length_drop in Himg. lia. }
  unfold read_file, get_fs, naive_fs, fs_read_data, naive_fs_read_data.
  eapply may_bind; [by apply (find_file_found L f files filename i name data) |].
  intros [s1 r] [Hmv1 ->]. pose proof (moved_mounted _ _ _ _ _ Hmv1 Hmt) as Hmt1.
  destruct (moved_holds _ _ _ _ Hmv1) as (Hm1 & <- & _).
  eapply may_bind; [by apply (meta_fields L f files s1 i name data) |]. intros [s2 o] [-> Hmv2].
  pose proof (moved_mounted _ _ _ _ _ Hmv2 Hmt1) as Hmt2. destruct (moved_holds _ _ _ _ Hmv2) as (Hm2 & <- & _).
  eapply may_bind; [by apply (meta_fields L f files s2 i name data) |]. intros [s3 z] [-> Hmv3].
  pose proof (moved_mounted _ _ _ _ _ Hmv3 Hmt2) as Hmt3. destruct (moved_holds _ _ _ _ Hmv3) as (Hm3 & _ & _).
  rewrite (mt_offset _ _ _ Hmt3).
  assert ((if len data <? length then len data else length) = n) as ->
    by (unfold n; destruct (Z.ltb_spec (len data) length); lia).
  rewrite u32_small by (unfold PARTITION, SECTOR_SIZE; lia).
  eapply may_bind.
  { apply (read_hard_disk_spec disk L _ f buffer (PARTITION + offset_of files i + start) n Hm3); try done; try lia;
      unfold PARTITION, SECTOR_SIZE; lia. }
  intros m Hm4. cbv beta in Hm4. apply may_ret. rewrite s32_small by (unfold is_s32; lia). split; [done |].
  rewrite <- Z.add_assoc, (disk_slice files) in Hm4 by (done || lia).
  rewrite Z2Nat.inj_add, <- drop_drop, Himg in Hm4 by lia.
  destruct Hmv1 as (? & -> & _), Hmv2 as (? & -> & _), Hmv3 as (? & -> & _). by exists m.
Qed.

(** A whole file. *)
Lemma read_file_whole (s : naive) files L f filename name data i buffer length :
  lholds L (nf_space s) f -> disk_holds files -> valid_files files -> mounted f s files ->
  Z.of_nat (size L) < capacity -> SECTOR_SIZE < request_limit ->
  name_at f filename name -> files !! i = Some (name, data) -> data <> [] ->
  usable buffer (len data) -> len data <= length ->
  may (read_file disk FILE_NUM s filename buffer 0 length) (fun '(s', r) => r = len data /\
    moved L (patch f buffer data) s s').
Proof.
  intros Hm Hd Hvf Hmt Hc Hr Hname Hi Hne Hu Hlen.
  assert (0 < len data) as Hpos by (destruct data; [done | cbn; lia]).
  eapply may_mono.
  { apply (read_file_spec s files L f filename name data i buffer 0 length); try done;
      [by rewrite Z.min_r | lia | rewrite length_app; lia]. }
  intros [s2 r] [-> Hmv]. rewrite Z.min_r in Hmv |- * by done. split; [done |].
  by rewrite Nat2Z.id, drop_0, take_app_length in Hmv.
Qed.

(** C28: on a disk that holds an image written by the image writer, mounting
    panics only for lack of memory, changes nothing but the file table in a block
    of its own and its size, and afterwards, whatever else was written to memory,
    reading a file by its name with a buffer as long as the file returns its size
    and puts exactly its contents at the buffer, on mapped pages or not. *)
Theorem image_roundtrip (s : naive) files L f
    (Hm : lholds L (nf_space s) f) (Hd : disk_holds files) (Hvf : valid_files files)
    (Hun : usable FILE_NUM 4) (Hsn : safe L FILE_NUM 4) (Hc : Z.of_nat (size L) + 1 < capacity)
    (Hr : SECTOR_SIZE < request_limit) (Hq : META_SIZE * len files < request_limit) :
  may (init_file_system disk FILE_NUM s) (fun s1 => exists k f1,
    lholds (<[nf_metas s1 := k]> L) (nf_space s1) f1 /\ L !! nf_metas s1 = None /\
    (forall b, ~ fs_area (nf_metas s1) (len files) b -> f1 b = f b) /\
    forall i name data L2 f2 m filename buffer length,
      files !! i = Some (name, data) -> data <> [] -> lholds L2 m f2 -> Z.of_nat (size L2) < capacity ->
      (forall b, fs_area (nf_metas s1) (len files) b -> f2 b = f1 b) ->
      name_at f2 filename name -> usable buffer (len data) -> len data <= length ->
      may (read_file disk FILE_NUM (set_nf s1 m) filename buffer 0 length) (fun '(s2, r) =>
        r = len data /\ lholds L2 (nf_space s2) (patch f2 buffer data))).
Proof.
  eapply may_mono; [by apply (init_naive_fs_spec s files L f) |].
  intros s1 (k & f1 & Hm1 & HL & Hmt & Hf). exists k, f1. split; [done |]. split; [done |]. split; [done |].
  intros i name data L2 f2 m filename buffer length Hi Hne Hm2 Hc2 Harea Hname Hu Hlen.
  eapply may_mono.
  { apply (read_file_whole (set_nf s1 m) files L2 f2 filename name data i buffer length); try done.
    eapply mounted_same; [done | exact Hmt | done | done | |]; intros b Hb; apply Harea; unfold fs_area; [by left | by right]. }
  intros [s2 r] [-> Hmv]. split; [done | by apply (moved_holds _ _ _ _ Hmv)].
Qed.

(** C31: a read that starts inside a file and asks for at least its size returns
    the full size although fewer bytes are left: after the end of the file the
    buffer gets the bytes of the files behind it. *)
Theorem read_file_past_end (s : naive) files L f filename name data i buffer start length
    (Hm : lholds L (nf_space s) f) (Hd : disk_holds files) (Hvf : valid_files files)
    (Hmt : mounted f s files) (Hc : Z.of_nat (size L) < capacity) (Hr : SECTOR_SIZE < request_limit)
    (Hname : name_at f filename name) (Hi : files !! i = Some (name, data)) (Hu : usable buffer (len data))
    (Hs : 0 < start <= len data) (Hl : len data <= length)
    (Hrest : start <= len (concat (snd <$> drop (S i) files))) :
  may (read_file disk FILE_NUM s filename buffer start length) (fun '(s', r) => r = len data /\
    lholds L (nf_space s') (patch f buffer (drop (Z.to_nat start) data ++
      take (Z.to_nat start) (concat (snd <$> drop (S i) files))))).
Proof.
  eapply may_mono.
  { apply (read_file_spec s files L f filename name data i buffer start length); try done; try lia;
      rewrite ?Z.min_r by done; [done | rewrite length_app; lia]. }
  intros [s' r] [-> Hmv]. destruct (moved_holds _ _ _ _ Hmv) as [Hm' _]. rewrite Z.min_r in Hm' |- * by done. split; [done |].
  rewrite drop_app_le, take_app_ge in Hm' by (rewrite ?length_drop; lia).
  rewrite length_drop, Nat2Z.id in Hm'.
  by replace (Datatypes.length data - (Datatypes.length data - Z.to_nat start))%nat with (Z.to_nat start) in Hm' by lia.
Qed.

Lemma file_size files i name data :
  valid_files files -> files !! i = Some (name, data) -> len data <= data_size files /\ len data < 1073741824.
Proof.
  intros Hvf Hi. pose proof (vf_size _ Hvf). assert (len data <= data_size files); [|unfold META_SIZE in *; lia].
  rewrite <- (take_drop_middle _ _ _ Hi). unfold data_size.
  rewrite fmap_app, fmap_cons, concat_app. cbn [concat snd]. rewrite !length_app. lia.
Qed.

(** [stat_file] stores the size of the file of that name and returns 0; for
    a name that is not in the image it returns -1 and changes nothing. *)
Lemma stat_file_spec (s : naive) files L f filename name stat
    (Hm : lholds L (nf_space s) f) (Hvf : valid_files files) (Hmt : mounted f s files)
    (Hname : name_at f filename name) (Hu : usable stat 4) :
  may (stat_file disk FILE_NUM s filename stat) (fun '(s', r) =>
    (exists i data, files !! i = Some (name, data) /\ r = 0 /\ moved L (patch f stat (bytes32 (len data))) s s') \/
    ((name ∉ (fst <$> files)) /\ r = -1 /\ moved L f s s')).
Proof.
  unfold stat_file, get_fs, naive_fs, fs_stat_file, naive_fs_stat_file.
  eapply may_bind; [by apply (find_file_spec L f files filename name) |].
  intros [s1 r] [Hmv1 [(i & data & -> & Hi) | [-> Hni]]]; [|apply may_ret; by right].
  destruct (moved_holds _ _ _ _ Hmv1) as (Hm1 & <- & _).
  eapply may_bind; [apply (meta_fields L f files s1 i name data); try done; by eapply moved_mounted |].
  intros [s2 c] [-> Hmv2]. destruct (moved_holds _ _ _ _ Hmv2) as (Hm2 & _ & _).
  eapply may_bind; [by apply (l_store32_spec L _ f) |]. intros m Hm3. cbv beta in Hm3. apply may_ret.
  left. exists i, data. split; [done |]. split; [done |].
  destruct Hmv1 as (? & -> & _), Hmv2 as (? & -> & _). by exists m.
Qed.

(** ** Listing *)

(** A line of the listing, with the sizes right-aligned in [width] columns. *)
Definition line (width : Z) (fl : file) : list screen_op :=
  Write [114; 111; 111; 116; 32; 32] COLOR_WHITE ::
  replicate (Z.to_nat (width - len (decimal (len fl.2)))) (Write [32] COLOR_WHITE) ++
  [Write (decimal (len fl.2) ++ [32; 32] ++ fl.1 ++ [10]) COLOR_WHITE].
Definition widest (files : list file) : Z := foldr Z.max 0 ((fun fl => len (decimal (len fl.2))) <$> files).
Definition listing (files : list file) : list screen_op := concat (line (widest files) <$> files).

Lemma size_digits_spec fuel : forall K n l, 0 <= n < 10 ^ (Z.of_nat fuel + 1) -> (fuel < K)%nat ->
  size_digits fuel n l = l + len (digits K 10 dec_digit (n / 10) []).
Proof.
  induction fuel as [|fuel IH]; intros [|K] n l Hn HK; try lia; cbn [size_digits digits].
  - rewrite Z.div_small by (cbn in Hn; lia). cbn. lia.
  - assert (0 <= n / 10 < 10 ^ (Z.of_nat fuel + 1)) as Hd.
    { replace (Z.of_nat (S fuel) + 1) with (Z.succ (Z.of_nat fuel + 1)) in Hn by lia.
      rewrite Z.pow_succ_r in Hn by lia. lia. }
    destruct (Z.ltb_spec 0 (n / 10)); [|cbn; lia]. rewrite digits_acc, length_app. cbn [length].
    rewrite (IH K) by (lia || done). lia.
Qed.

Lemma size_digits_decimal n : 0 <= n < 1073741824 -> size_digits 10 n 1 = len (decimal n).
Proof.
  intros Hn. rewrite (size_digits_spec 10 32) by (cbn; lia). unfold decimal, DEC_FUEL.
  destruct (Z.eqb_spec n 0) as [->|Hz]; [done |]. rewrite (proj2 (Z.ltb_ge n 0)), Z.abs_eq by lia.
  cbn [app]. change (digits 33 10 dec_digit n []) with
    (if 0 <? n then digits 32 10 dec_digit (n / 10) [dec_digit (n mod 10)] else []).
  rewrite (proj2 (Z.ltb_lt 0 n)), (digits_acc 32 10 dec_digit (n / 10) [_]), length_app by lia. cbn [length]. lia.
Qed.

Lemma widest_max files : foldl max 0 ((fun fl => len (decimal (len fl.2))) <$> files) = widest files.
Proof.
  unfold widest. set (ls := _ <$> files).
  assert (0 <= foldr Z.max 0 ls) as H0' by (clearbody ls; induction ls; cbn; lia).
  assert (forall a, 0 <= a -> foldl max a ls = Z.max a (foldr Z.max 0 ls)) as Hf; [|rewrite Hf; lia].
  assert (Forall (fun l => 0 <= l) ls) as Hls by (apply Forall_forall; intros l (fl & -> & _)%list_elem_of_fmap; lia).
  clear H0'. induction Hls as [|l ls' Hl Hls IH]; intros a Ha; cbn; [lia |].
  rewrite IH; unfold max; destruct (Z.ltb_spec l a); lia.
Qed.

Lemma widest_in files fl : fl ∈ files -> len (decimal (len fl.2)) <= widest files.
Proof. unfold widest. induction 1 as [fl files | fl fl' files _ IH]; cbn; lia. Qed.

Lemma widest_bound files b :
  0 <= b -> (forall fl, fl ∈ files -> len (decimal (len fl.2)) <= b) -> widest files <= b.
Proof.
  intros Hb. unfold widest. induction files as [|fl fs IH]; intros Hl; cbn; [lia |].
  apply Z.max_lub; [apply Hl; left | apply IH; intros g Hg; apply Hl; by right].
Qed.

Lemma widest_small files : valid_files files -> widest files <= 11.
Proof.
  intros Hvf. apply widest_bound; [lia |]. intros [n d] [j Hj]%list_elem_of_lookup.
  destruct (file_size files j n d Hvf Hj). cbn [snd].
  rewrite <- size_digits_decimal, (size_digits_spec 10 32) by (cbn; lia).
  pose proof (digits_length 32 10 dec_digit (len d / 10) 10 ltac:(lia) ltac:(cbn; lia)). lia.
Qed.

Lemma list_lengths_spec L f files k n : forall s,
  lholds L (nf_space s) f -> mounted f s files -> valid_files files -> (k + n = length files)%nat ->
  may (list_lengths n s (Z.of_nat k)) (fun '(s', ls) => moved L f s s' /\
    ls = (fun fl => len (decimal (len fl.2))) <$> drop k files).
Proof.
  revert k. induction n as [|n IH]; intros k s Hm Hmt Hvf Hk; cbn [list_lengths].
  { apply may_ret. split; [exists (nf_space s); split; [by destruct s | done] |]. by rewrite drop_ge by lia. }
  destruct (lookup_lt_is_Some_2 files k) as [[name data] Hi]; [lia |].
  destruct (entry_usable f s files k Hmt Hvf) as [-> _]; [lia |].
  eapply may_bind; [by apply (meta_fields L f files s k name data) |]. intros [s1 c] [-> Hmv].
  destruct (moved_holds _ _ _ _ Hmv) as (Hm1 & _ & _).
  replace (Z.of_nat k + 1) with (Z.of_nat (S k)) by lia.
  eapply may_bind; [apply (IH (S k) s1); try done; [by eapply moved_mounted | lia] |].
  intros [s2 ls] [Hmv2 ->]. apply may_ret. split; [by eapply moved_trans |].
  rewrite (drop_S _ _ _ Hi), fmap_cons. f_equal. cbn [snd]. apply size_digits_decimal.
  destruct (file_size files k name data Hvf Hi). lia.
Qed.

(** The screen after printing. *)
Definition shown (mon : monitor) (os : list screen_op) (mon' : monitor) : Prop :=
  screen_run mon os = Ok mon' /\ screen mon' /\ unlocked (monitor_lock mon').

Lemma shown_app mon os mon1 os' mon2 : shown mon os mon1 -> shown mon1 os' mon2 -> shown mon (os ++ os') mon2.
Proof.
  intros [Hr _] [Hr' Hs]. split; [|exact Hs]. clear Hs. revert mon Hr. induction os as [|o os IH]; intros mon; cbn.
  - by intros [= ->].
  - destruct (screen_step mon o); cbn; try done. apply IH.
Qed.

Lemma printf_shown L fuel f ps out (m : M) mon :
  pieces_show fuel f ps out -> lholds L m f -> screen mon -> unlocked (monitor_lock mon) ->
  may (monitor_printf fuel m mon ps) (fun '(m', mon') => lholds L m' f /\ shown mon [Write out COLOR_WHITE] mon').
Proof.
  intros HP Hm Hs Hu. eapply may_mono; [by apply (l_printf L fuel f ps out) |].
  intros [m' mon'] (Hm' & E & Hs' & Hu'). split; [done |]. split; [|done]. cbn [screen_run]. by rewrite E.
Qed.

Lemma print_spaces_spec L fuel f n : forall (m : M) mon,
  lholds L m f -> screen mon -> unlocked (monitor_lock mon) ->
  may (print_spaces fuel n m mon) (fun '(m', mon') => lholds L m' f /\
    shown mon (replicate n (Write [32] COLOR_WHITE)) mon').
Proof.
  induction n as [|n IH]; intros m mon Hm Hs Hu; cbn [print_spaces replicate]; [by apply may_ret |].
  eapply may_bind; [apply (printf_shown L fuel f [Lit [32]] [32]); try done; apply (Ps_lit _ _ [32] [] []), Ps_nil |].
  intros [m1 mon1] (Hm1 & Hsh). pose proof Hsh as (_ & Hs1 & Hu1).
  eapply may_mono; [by apply IH |]. intros [m2 mon2] (Hm2 & Hsh2). split; [done |].
  by apply (shown_app mon [_] mon1).
Qed.

Lemma print_meta_spec L fuel f files s mon k name data width :
  lholds L (nf_space s) f -> mounted f s files -> valid_files files -> files !! k = Some (name, data) ->
  screen mon -> unlocked (monitor_lock mon) -> (64 <= fuel)%nat ->
  may (print_meta fuel s mon (nf_metas s + META_SIZE * Z.of_nat k) (width - len (decimal (len data))))
    (fun '(s', mon') => moved L f s s' /\ shown mon (line width (name, data)) mon').
Proof.
  intros Hm Hmt Hvf Hi Hs Hu Hfu. unfold print_meta, line. cbn [fst snd].
  eapply may_bind; [apply (printf_shown L fuel f _ [114; 111; 111; 116; 32; 32] (nf_space s)); try done;
    apply (Ps_lit _ _ [114; 111; 111; 116; 32; 32] [] []), Ps_nil |].
  intros [m1 mon1] (Hm1 & Hsh1). pose proof Hsh1 as (_ & Hs1 & Hu1).
  eapply may_bind; [by apply (print_spaces_spec L fuel f) |].
  intros [m2 mon2] (Hm2 & Hsh2). pose proof Hsh2 as (_ & Hs2 & Hu2).
  assert (moved L f s (set_nf s m2)) as Hmv2 by by exists m2.
  pose proof (moved_mounted _ _ _ _ _ Hmv2 Hmt) as Hmt2.
  eapply may_bind; [by apply (meta_fields L f files (set_nf s m2) k name data) |].
  intros [s3 c] [-> Hmv3]. destruct (moved_holds _ _ _ _ Hmv3) as (Hm3 & _ & _).
  destruct (mt_metas _ _ _ Hmt _ _ _ Hi) as [Hc _ _].
  destruct (Forall_lookup_1 _ _ _ _ (vf_files _ Hvf) Hi) as (_ & Hlen & _). cbn [fst] in Hlen. unfold NAME_SIZE in Hlen.
  destruct (entry_usable f s files k Hmt Hvf) as [_ Hum]; [by eapply lookup_lt_Some |].
  destruct (file_size files k name data Hvf Hi) as [_ Hsz].
  rewrite s32_small by (unfold is_s32; lia).
  eapply may_bind.
  { apply (printf_shown L fuel f _ (decimal (len data) ++ [32; 32] ++ name ++ [10]) (nf_space s3)); try done.
    apply Ps_dec; [unfold is_s32; lia |]. apply Ps_lit. apply Ps_str; [done | | lia |].
    - eapply usable_sub; [exact Hum | lia | unfold META_SIZE; lia].
    - apply (Ps_lit _ _ [10] [] []), Ps_nil. }
  intros [m4 mon4] (Hm4 & Hsh4). apply may_ret. split.
  - eapply moved_trans; [exact Hmv2 |]. eapply moved_trans; [exact Hmv3 |]. by exists m4.
  - apply (shown_app mon [_] mon1); [done |]. by apply (shown_app mon1 _ mon2).
Qed.

Lemma print_metas_spec L fuel f files k ls : forall s mon,
  lholds L (nf_space s) f -> mounted f s files -> valid_files files -> screen mon -> unlocked (monitor_lock mon) ->
  (64 <= fuel)%nat -> ls = (fun fl => len (decimal (len fl.2))) <$> drop k files ->
  may (print_metas fuel s mon (widest files) (Z.of_nat k) ls) (fun '(s', mon') => moved L f s s' /\
    shown mon (concat (line (widest files) <$> drop k files)) mon').
Proof.
  revert k. induction ls as [|l ls IH]; intros k s mon Hm Hmt Hvf Hs Hu Hfu Hls; cbn [print_metas].
  - symmetry in Hls. apply fmap_nil_inv in Hls. rewrite Hls. apply may_ret.
    split; [exists (nf_space s); split; [by destruct s | done] | done].
  - symmetry in Hls. apply fmap_cons_inv in Hls as ([name data] & fs & -> & -> & Hdrop).
    assert (files !! k = Some (name, data)) as Hi by (rewrite <- (Nat.add_0_r k), <- lookup_drop, Hdrop; done).
    destruct (entry_usable f s files k Hmt Hvf) as [-> _]; [by eapply lookup_lt_Some |].
    pose proof (widest_in files (name, data) (list_elem_of_lookup_2 _ _ _ Hi)) as Hw. cbn [snd] in *.
    assert (widest files < 4294967296) as Hw32.
    { pose proof (widest_small files Hvf). lia. }
    rewrite u32_small by lia.
    eapply may_bind; [by apply (print_meta_spec L fuel f files s mon k name data) |].
    intros [s1 mon1] [Hmv Hsh]. destruct (moved_holds _ _ _ _ Hmv) as (Hm1 & _ & _). pose proof Hsh as (_ & Hs1 & Hu1).
    assert (drop (S k) files = fs) as Hds by (rewrite (drop_S _ _ _ Hi) in Hdrop; by injection Hdrop).
    replace (Z.of_nat k + 1) with (Z.of_nat (S k)) by lia.
    eapply may_mono; [apply (IH (S k) s1 mon1); try done; [by eapply moved_mounted | by rewrite Hds] |].
    intros [s2 mon2] [Hmv2 Hsh2]. split; [by eapply moved_trans |].
    rewrite Hdrop, fmap_cons. cbn [concat]. rewrite Hds in Hsh2. by eapply shown_app.
Qed.

(** The listing is a line per file with the sizes right-aligned; the result is -1
    although nothing failed. *)
Theorem list_dir_correct fuel (s : naive) mon files L f dir
    (Hm : lholds L (nf_space s) f) (Hvf : valid_files files) (Hmt : mounted f s files)
    (Hs : screen mon) (Hu : unlocked (monitor_lock mon)) (Hfu : (64 <= fuel)%nat) :
  may (list_dir disk FILE_NUM fuel s mon dir) (fun '(s', mon', r) => r = -1 /\ moved L f s s' /\
    shown mon (listing files) mon').
Proof.
  unfold list_dir, get_fs, naive_fs, fs_list_dir, naive_fs_list_dir.
  eapply may_bind; [by apply (file_num_spec L f files) |]. intros [s1 n] [Hmv1 ->].
  destruct (moved_holds _ _ _ _ Hmv1) as (Hm1 & _ & _). pose proof (moved_mounted _ _ _ _ _ Hmv1 Hmt) as Hmt1.
  rewrite Nat2Z.id. change 0 with (Z.of_nat 0) at 1.
  eapply may_bind; [by apply (list_lengths_spec L f files 0 (length files)) |]. intros [s2 ls] [Hmv2 ->].
  destruct (moved_holds _ _ _ _ Hmv2) as (Hm2 & _ & _). pose proof (moved_mounted _ _ _ _ _ Hmv2 Hmt1) as Hmt2.
  rewrite drop_0, widest_max. change 0 with (Z.of_nat 0).
  eapply may_bind; [by apply (print_metas_spec L fuel f files 0) |].
  intros [s3 mon3] [Hmv3 Hr]. apply may_ret. rewrite drop_0 in Hr.
  split; [done |]. split; [eapply moved_trans; [exact Hmv1 | by eapply moved_trans] | done].
Qed.
End naive_fs.

(** ** A small image

    The files "a" with the bytes 1, 2, 3 and "bc" with 9, 8, over an empty user
    space; the names "bc" and "a" are in kernel memory, the buffer is the first
    user page, which nothing maps yet. *)

Abbreviation kspace := (mem * paging (A := kmem))%type.

Definition demo_files : list file := [([97], [1; 2; 3]); ([98; 99], [9; 8])].
Definition demo_disk (o : Z) : Z :=
  if 2057 * 512 <=? o then default 0 (write_image demo_files !! Z.to_nat (o - 2057 * 512)) else 0.
Definition demo_num : Z := 0xC0004000.
Definition demo_bytes : list Z := [98; 99; 0; 97; 0].
Definition demo_view : Z -> Z := patch (fun _ => 0) 0xC0100000 demo_bytes.
Definition demo_fs : naive (M := kspace) := Naive (poke ∅ 0xC0100000 demo_bytes, blank_space) 0 0.

Lemma demo_disk_holds : disk_holds demo_disk demo_files.
Proof.
  intros i c Hi. unfold demo_disk, PARTITION. rewrite (proj2 (Z.leb_le _ _)) by (unfold SECTOR_SIZE; lia).
  replace (Z.to_nat (2057 * SECTOR_SIZE + Z.of_nat i - 2057 * 512)) with i by (unfold SECTOR_SIZE; lia).
  rewrite Hi. cbn. apply u8_small.
  assert (Forall is_u8 (write_image demo_files)) as Hf by (vm_compute; repeat constructor; congruence).
  by apply (Forall_lookup_1 _ _ _ _ Hf Hi).
Qed.

Lemma demo_valid : valid_files demo_files.
Proof.
  constructor.
  - repeat constructor; vm_compute; congruence.
  - apply (bool_decide_unpack _). vm_compute. exact I.
  - unfold demo_files; congruence.
  - vm_compute. congruence.
Qed.

Lemma demo_holds : lholds ∅ (nf_space demo_fs) demo_view.
Proof. apply blank_holds; [repeat constructor; lia | vm_compute; congruence]. Qed.

Lemma kernel_usable p n : KERNEL_BASE <= p -> p + n <= 4294967296 -> usable (M := kspace) p n.
Proof. intros Hp Hn b Hb. unfold is_u32, KERNEL_BASE in *. split; [lia |]. left. unfold KERNEL_BASE. lia. Qed.

Lemma user_usable p n : 0x400000 <= p -> p + n <= 0xBFC00000 -> usable (M := kspace) p n.
Proof.
  intros Hp Hn b Hb. unfold is_u32. split; [lia |]. right. change (b < KERNEL_BASE /\ user_addr b).
  unfold user_addr, KERNEL_BASE. lia.
Qed.

(** What mounting computes. *)
Definition demo_mount : outcome (naive (M := kspace)) := init_file_system demo_disk demo_num demo_fs.
Definition demo_check : bool :=
  match demo_mount with
  | Ok s => negb (is_panic (read_file demo_disk demo_num s 0xC0100000 0x400000 0 10)) &&
            negb (is_panic (read_file demo_disk demo_num s 0xC0100003 0x400000 2 10)) &&
            negb (is_panic (stat_file demo_disk demo_num s 0xC0100000 0x400000)) &&
            negb (is_panic (list_dir demo_disk demo_num 64 s blank_screen 0))
  | _ => false
  end.

Lemma demo_check_true : demo_check = true.
Proof. vm_compute. reflexivity. Qed.

Lemma demo_names_at f : (forall b, 0xC0100000 <= b < 0xC0100005 -> f b = demo_view b) ->
  name_at (M := kspace) f 0xC0100000 [98; 99] /\ name_at (M := kspace) f 0xC0100003 [97].
Proof.
  intros Hf. split; (split; [eapply string_at_ext; [intros b Hb; apply Hf; cbn in Hb; lia |] |
    apply kernel_usable; unfold KERNEL_BASE; cbn; lia]);
    (split; [repeat constructor; lia | vm_compute; reflexivity]).
Qed.

Lemma demo_mounted :
  exists s k f, demo_mount = Ok s /\ lholds {[nf_metas s := k]} (nf_space s) f /\ mounted demo_num f s demo_files /\
    name_at (M := kspace) f 0xC0100000 [98; 99] /\ name_at (M := kspace) f 0xC0100003 [97] /\
    is_panic (read_file demo_disk demo_num s 0xC0100000 0x400000 0 10) = false /\
    is_panic (read_file demo_disk demo_num s 0xC0100003 0x400000 2 10) = false /\
    is_panic (stat_file demo_disk demo_num s 0xC0100000 0x400000) = false /\
    is_panic (list_dir demo_disk demo_num 64 s blank_screen 0) = false.
Proof.
  pose proof demo_check_true as Hc. unfold demo_check in Hc.
  destruct (init_naive_fs_spec demo_disk demo_num demo_fs demo_files ∅ demo_view) as [He|(s & He & k & f & Hm & _ & Hmt & Hf)].
  - exact demo_holds.
  - exact demo_disk_holds.
  - exact demo_valid.
  - apply kernel_usable; vm_compute; congruence.
  - left. vm_compute. congruence.
  - vm_compute. reflexivity.
  - vm_compute. reflexivity.
  - vm_compute. reflexivity.
  - unfold demo_mount, init_file_system in Hc. rewrite He in Hc. discriminate Hc.
  - assert (demo_mount = Ok s) as Hmo by exact He. rewrite Hmo in Hc.
    rewrite !andb_true_iff, !negb_true_iff in Hc. destruct Hc as (((Hr1 & Hr2) & Hr3) & Hr4).
    destruct (block_range (nf_space s) (<[nf_metas s := k]> ∅) (nf_metas s) k (lholds_alive _ _ _ Hm)) as (? & ? & _);
      [apply lookup_insert_eq |].
    destruct (demo_names_at f) as [Hn1 Hn2]; [intros b Hb; apply Hf; unfold fs_area, demo_num; lia |].
    exists s, k, f. split; [exact Hmo |]. split; [exact Hm |]. split; [exact Hmt |].
    split; [exact Hn1 |]. split; [exact Hn2 |]. split; [exact Hr1 |]. split; [exact Hr2 |]. split; [exact Hr3 | exact Hr4].
Qed.

Lemma demo_capacity (s : naive (M := kspace)) k : Z.of_nat (size ({[nf_metas s := k]} : gmap Z Z)) < capacity (A := kspace).
Proof. rewrite map_size_singleton. vm_compute. reflexivity. Qed.

Lemma image_roundtrip_witness :
  exists s1 s2, init_file_system demo_disk demo_num demo_fs = Ok s1 /\
    read_file demo_disk demo_num s1 0xC0100000 0x400000 0 10 = Ok (s2, 2) /\
    exists L g, lholds L (nf_space s2) g /\ slice g 0x400000 2 = [9; 8].
Proof.
  destruct demo_mounted as (s & k & f & He & _ & _ & _ & _ & Hr & _).
  destruct (image_roundtrip demo_disk demo_num demo_fs demo_files ∅ demo_view)
    as [Hp|(s1 & He1 & k1 & f1 & Hm & _ & Hf & Hread)].
  - exact demo_holds.
  - exact demo_disk_holds.
  - exact demo_valid.
  - apply kernel_usable; vm_compute; congruence.
  - left. vm_compute. congruence.
  - vm_compute. reflexivity.
  - vm_compute. reflexivity.
  - vm_compute. reflexivity.
  - unfold demo_mount in He. rewrite Hp in He. discriminate He.
  - unfold demo_mount in He. assert (s1 = s) as -> by congruence.
    destruct (block_range (nf_space s) (<[nf_metas s := k1]> ∅) (nf_metas s) k1 (lholds_alive _ _ _ Hm)) as (? & ? & _);
      [apply lookup_insert_eq |].
    destruct (demo_names_at f1) as [Hn _]; [intros b Hb; apply Hf; unfold fs_area, demo_num; lia |].
    destruct (Hread 1%nat [98; 99] [9; 8] (<[nf_metas s := k1]> ∅) f1 (nf_space s) 0xC0100000 0x400000 10)
      as [Hp|([s2 r] & He2 & -> & Hb)].
    + reflexivity.
    + congruence.
    + exact Hm.
    + apply demo_capacity.
    + done.
    + exact Hn.
    + apply user_usable; cbn; lia.
    + vm_compute. congruence.
    + assert (set_nf s (nf_space s) = s) as Heq by (destruct s; reflexivity).
      rewrite Heq in Hp. rewrite Hp in Hr. discriminate Hr.
    + assert (set_nf s (nf_space s) = s) as Heq by (destruct s; reflexivity). rewrite Heq in He2.
      exists s, s2. split; [exact He |]. split; [exact He2 |].
      exists (<[nf_metas s := k1]> ∅), (patch f1 0x400000 [9; 8]). split; [exact Hb | vm_compute; reflexivity].
Defined.

Lemma read_file_past_end_witness :
  exists s s', demo_mount = Ok s /\ read_file demo_disk demo_num s 0xC0100003 0x400000 2 10 = Ok (s', 3) /\
    exists L g, lholds L (nf_space s') g /\ slice g 0x400000 3 = [3; 9; 8].
Proof.
  destruct demo_mounted as (s & k & f & He & Hm & Hmt & _ & Hn & _ & Hr & _).
  destruct (read_file_past_end demo_disk demo_num s demo_files {[nf_metas s := k]} f 0xC0100003 [97] [1; 2; 3] 0 0x400000 2 10)
    as [Hp|([s' r] & He' & -> & Hb)].
  - exact Hm.
  - exact demo_disk_holds.
  - exact demo_valid.
  - exact Hmt.
  - apply demo_capacity.
  - vm_compute. reflexivity.
  - exact Hn.
  - reflexivity.
  - apply user_usable; cbn; lia.
  - vm_compute. split; congruence.
  - vm_compute. congruence.
  - vm_compute. congruence.
  - rewrite Hp in Hr. discriminate Hr.
  - exists s, s'. split; [exact He |]. split; [exact He' |].
    exists {[nf_metas s := k]}, (patch f 0x400000 [3; 9; 8]). split; [exact Hb | vm_compute; reflexivity].
Defined.

Lemma stat_file_example :
  exists s s', demo_mount = Ok s /\ stat_file demo_disk demo_num s 0xC0100000 0x400000 = Ok (s', 0).
Proof.
  destruct demo_mounted as (s & k & f & He & Hm & Hmt & Hn & _ & _ & _ & Hr & _).
  destruct (stat_file_spec demo_disk demo_num s demo_files {[nf_metas s := k]} f 0xC0100000 [98; 99] 0x400000)
    as [Hp|([s' r] & He' & [(i & d & _ & -> & _) | [Hni _]])].
  - exact Hm.
  - exact demo_valid.
  - exact Hmt.
  - exact Hn.
  - apply user_usable; cbn; lia.
  - rewrite Hp in Hr. discriminate Hr.
  - exists s, s'. split; [exact He | exact He'].
  - exfalso. apply Hni. right. left.
Defined.

(** Two lines: "root  3  a" and "root  2  bc". *)
Lemma list_dir_correct_witness :
  exists s s' mon', demo_mount = Ok s /\ list_dir demo_disk demo_num 64 s blank_screen 0 = Ok (s', mon', -1) /\
    screen_run blank_screen (listing demo_files) = Ok mon'.
Proof.
  destruct demo_mounted as (s & k & f & He & Hm & Hmt & _ & _ & _ & _ & _ & Hr).
  destruct (list_dir_correct demo_disk demo_num 64 s blank_screen demo_files {[nf_metas s := k]} f 0)
    as [Hp|([[s' mon'] r] & He' & -> & _ & Hmon & _)].
  - exact Hm.
  - exact demo_valid.
  - exact Hmt.
  - exact blank_screen_ok.
  - reflexivity.
  - lia.
  - rewrite Hp in Hr. discriminate Hr.
  - exists s, s', mon'. split; [exact He |]. split; [exact He' | exact Hmon].
Defined.
