(* ===== verification/Keyboard.v ===== *)
(** * Keyboard driver (driver/keyboard.c)

    The ring buffer of scancodes, the interrupt handler that fills it and wakes
    the readers, and the blocking read that translates scancodes into characters.
    The driver's static variables are one record; its queue of waiting threads is
    in the scheduler's state, at the address [kb_waiting]. *)

From S2P Require Import Prelude.
From S2P Require Import LinkedList.
From S2P Require Import Scheduler.
From S2P Require Import SchedulerInv.
From S2P Require Import Sync.
From S2P Require Import KeyHelp.

Definition KEYBOARD_BUF_SIZE : Z := 1024.

Record buffer_queue_t := BufferQueue {
  q_buffer : list Z;
  q_head : Z;
  q_tail : Z;
  q_size : Z
}.

Record keyboard := Keyboard {
  kb_queue : buffer_queue_t;
  kb_kh : kh;
  kb_waiting : Z;
  kb_lock : spinlock_t
}.

(** ** The ring buffer *)

(** C's remainder truncates towards zero. *)
Definition next_index (index : Z) : Z := Z.rem (s32 (index + 1)) KEYBOARD_BUF_SIZE.

Definition enqueue (queue : buffer_queue_t) (scanCode : Z) : outcome (buffer_queue_t * Z) :=
  if q_size queue =? KEYBOARD_BUF_SIZE then Ok (queue, -1)
  else
    buf ← buf_set (q_buffer queue) (q_tail queue) scanCode;
    Ok (BufferQueue buf (q_head queue) (next_index (q_tail queue)) (s32 (q_size queue + 1)), 0).

Definition dequeue (queue : buffer_queue_t) : outcome (buffer_queue_t * Z) :=
  code ← buf_get (q_buffer queue) (q_head queue);
  Ok (BufferQueue (q_buffer queue) (next_index (q_head queue)) (q_tail queue)
        (s32 (q_size queue - 1)), code).

(** ** Reading a character *)

(** [while (!(KH_HASDATA(augchar) && KH_ISMAKE(augchar)))].  Every iteration takes
    a scancode off the buffer, so its size bounds the iterations. *)
Fixpoint next_char (fuel : nat) (queue : buffer_queue_t) (st : kh) (augchar : Z) :
    outcome (buffer_queue_t * kh * Z) :=
  match fuel with
  | O => NoFuel
  | S fuel =>
      if negb (KH_HASDATA augchar && KH_ISMAKE augchar) then
        if q_size queue =? 0 then Ok (queue, st, -1)
        else
          '(queue, code) ← dequeue queue;
          let '(st, augchar) := process_scancode st code in
          next_char fuel queue st augchar
      else Ok (queue, st, KH_GETCHAR augchar)
  end.

Definition read_keyboard_char_impl (queue : buffer_queue_t) (st : kh) :
    outcome (buffer_queue_t * kh * Z) :=
  if q_size queue =? 0 then Ok (queue, st, -1)
  else
    let fuel := Z.to_nat (q_size queue) in
    '(queue, code) ← dequeue queue;
    let '(st, augchar) := process_scancode st code in
    next_char fuel queue st augchar.

(** One iteration of the loop of [read_keyboard_char]: the character, or none
    when the caller was queued and another thread runs. *)
Definition read_keyboard_char_round (s : sched) (kb : keyboard) :
    outcome (sched * keyboard * option Z) :=
  '(s, lock) ← spinlock_lock_irqsave s (kb_lock kb);
  '(queue, st, c) ← read_keyboard_char_impl (kb_queue kb) (kb_kh kb);
  if negb (c =? -1) then
    '(s, lock) ← spinlock_unlock_irqrestore s lock;
    Ok (s, Keyboard queue st (kb_waiting kb) lock, Some c)
  else
    s ← enqueue_current s (kb_waiting kb);
    '(s, lock) ← spinlock_unlock_irqrestore s lock;
    s ← schedule_thread_yield s;
    Ok (s, Keyboard queue st (kb_waiting kb) lock, None).

(** ** The interrupt *)

(** [while (node != nullptr)], over the nodes of the list [l]. *)
Fixpoint wake_all (fuel : nat) (s : sched) (l : linked_list_t) (node : Z) : outcome sched :=
  match fuel with
  | O => NoFuel
  | S fuel =>
      if negb (node =? 0) then
        n ← deref (s_nodes s !! node);
        let next_node := n_next n in
        '(nds, l) ← linked_list_remove (s_nodes s) l node;
        s ← add_thread_node_to_schedule_head (set_ready s nds (s_ready_tasks s)) node;
        wake_all fuel s l next_node
      else Ok s
  end.

(** [scancode] is the byte read from port 0x60. *)
Definition keyboard_interrupt_handler (s : sched) (kb : keyboard) (scancode : Z) :
    outcome (sched * keyboard) :=
  '(s, lock) ← spinlock_lock s (kb_lock kb);
  '(queue, _) ← enqueue (kb_queue kb) scancode;
  waiting_tasks ← deref (s_queues s !! kb_waiting kb);
  let '(waiting_tasks_get, waiting_tasks) := linked_list_move linked_list_init waiting_tasks in
  let s := set_queue s (s_nodes s) (kb_waiting kb) waiting_tasks in
  '(s, lock) ← spinlock_unlock s lock;
  s ← wake_all (S (Z.to_nat (ll_size waiting_tasks_get))) s waiting_tasks_get
        (ll_head waiting_tasks_get);
  thread ← get_crt_thread s;
  s ← update_thread s thread (fun t => with_ticks (t_ticks t) true t);
  Ok (s, Keyboard queue (kb_kh kb) (kb_waiting kb) lock).

(** [st] is the translator's state, which keyhelp.c initialises statically. *)
Definition init_keyboard (s : sched) (st : kh) (waiting : Z) : sched * keyboard :=
  (set_queue s (s_nodes s) waiting linked_list_init,
   Keyboard (BufferQueue (replicate (Z.to_nat KEYBOARD_BUF_SIZE) 0) 0 0 0) st waiting spinlock_init).

(** ** The buffer is a bounded first-in first-out queue *)

(** The buffer holds the scancodes [xs], oldest first. *)
Record holds (q : buffer_queue_t) (xs : list Z) : Prop := {
  ho_buffer : length (q_buffer q) = Z.to_nat KEYBOARD_BUF_SIZE;
  ho_head : 0 <= q_head q < KEYBOARD_BUF_SIZE;
  ho_size : q_size q = Z.of_nat (length xs);
  ho_bound : q_size q <= KEYBOARD_BUF_SIZE;
  ho_tail : q_tail q = (q_head q + q_size q) mod KEYBOARD_BUF_SIZE;
  ho_codes : forall i x, xs !! i = Some x ->
    q_buffer q !! Z.to_nat ((q_head q + Z.of_nat i) mod KEYBOARD_BUF_SIZE) = Some x
}.

Lemma next_index_mod i : 0 <= i < KEYBOARD_BUF_SIZE -> next_index i = (i + 1) mod KEYBOARD_BUF_SIZE.
Proof.
  unfold KEYBOARD_BUF_SIZE. intros Hi. unfold next_index, KEYBOARD_BUF_SIZE.
  rewrite s32_small by (unfold is_s32; lia). by rewrite Z.rem_mod_nonneg by lia.
Qed.

Definition accept (xs : list Z) (c : Z) : list Z :=
  if Z.of_nat (length xs) =? KEYBOARD_BUF_SIZE then xs else xs ++ [c].

Lemma enqueue_spec q xs c :
  holds q xs -> exists q', enqueue q c =
    Ok (q', if Z.of_nat (length xs) =? KEYBOARD_BUF_SIZE then -1 else 0) /\ holds q' (accept xs c).
Proof.
  intros Hq. pose proof Hq as [Hb Hh Hs Hn Ht Hc]. unfold enqueue, accept. rewrite Hs.
  destruct (Z.eqb_spec (Z.of_nat (length xs)) KEYBOARD_BUF_SIZE) as [|Hne]; [by eexists |].
  unfold KEYBOARD_BUF_SIZE in *.
  assert (0 <= q_tail q < 1024) as Hti by lia.
  destruct (buf_get_ok (q_buffer q) (q_tail q)) as (v & Hg & _); [rewrite Hb; lia |].
  unfold buf_set. rewrite Hg. cbn [mbind outcome_bind]. eexists. split; [reflexivity |].
  rewrite next_index_mod by done. unfold KEYBOARD_BUF_SIZE.
  rewrite s32_small by (unfold is_s32; lia).
  split; cbn [q_buffer q_head q_tail q_size]; unfold KEYBOARD_BUF_SIZE; try lia.
  - by rewrite length_insert.
  - rewrite length_app. simpl. lia.
  - intros i x Hx. destruct (decide (i = length xs)) as [-> | Hi].
    + rewrite list_lookup_middle in Hx by done. injection Hx as <-.
      rewrite <- Hs, <- Ht. rewrite list_lookup_insert_eq; [done | rewrite Hb; lia].
    + apply lookup_lt_Some in Hx as Hl. rewrite length_app in Hl. simpl in Hl.
      rewrite lookup_app_l in Hx by lia. rewrite list_lookup_insert_ne; [by apply Hc | lia].
Qed.

Lemma dequeue_spec q x xs :
  holds q (x :: xs) -> exists q', dequeue q = Ok (q', x) /\ holds q' xs.
Proof.
  intros [Hb Hh Hs Hn Ht Hc]. unfold dequeue. pose proof (Hc 0%nat x eq_refl) as H0.
  unfold KEYBOARD_BUF_SIZE in *. rewrite Z.add_0_r, Z.mod_small in H0 by done.
  unfold buf_get. destruct (Z.ltb_spec (q_head q) 0); [lia |]. rewrite H0.
  cbn [deref mbind outcome_bind]. eexists. split; [reflexivity |]. simpl length in Hs.
  rewrite next_index_mod by done. unfold KEYBOARD_BUF_SIZE.
  rewrite s32_small by (unfold is_s32; lia).
  split; cbn [q_buffer q_head q_tail q_size]; unfold KEYBOARD_BUF_SIZE; try lia; try done.
  intros i y Hy. rewrite <- (Hc (S i) y Hy). f_equal. f_equal. lia.
Qed.

Lemma init_holds s st w : holds (kb_queue (init_keyboard s st w).2) [].
Proof. split; try done. Qed.

(** ** Characters *)

(** The scancodes a read consumes, on the queue as a list: the translator's new
    state, the scancodes left, and the character or -1. *)
Fixpoint take_char (st : kh) (xs : list Z) : kh * list Z * Z :=
  match xs with
  | [] => (st, [], -1)
  | x :: xs =>
      let '(st, augchar) := process_scancode st x in
      if KH_HASDATA augchar && KH_ISMAKE augchar then (st, xs, KH_GETCHAR augchar)
      else take_char st xs
  end.

Lemma holds_empty q xs : holds q xs -> (q_size q =? 0) = bool_decide (xs = []).
Proof.
  intros Hq. rewrite (ho_size _ _ Hq). case_bool_decide as Hx; [by subst |].
  destruct xs; [done |]. apply Z.eqb_neq. simpl. lia.
Qed.

Lemma next_char_spec xs : forall fuel q st augchar,
  holds q xs -> (length xs < fuel)%nat ->
  let r := if KH_HASDATA augchar && KH_ISMAKE augchar then (st, xs, KH_GETCHAR augchar)
           else take_char st xs in
  exists q', next_char fuel q st augchar = Ok (q', r.1.1, r.2) /\ holds q' r.1.2.
Proof.
  induction xs as [|x xs IH]; intros [|fuel] q st augchar Hq Hf; simpl in Hf; try lia;
    cbn [next_char]; destruct (KH_HASDATA augchar && KH_ISMAKE augchar); cbn [negb];
    try (exists q; done).
  - rewrite (holds_empty _ _ Hq). by exists q.
  - rewrite (holds_empty _ _ Hq), bool_decide_false by done.
    destruct (dequeue_spec q x xs Hq) as (q1 & E & Hq1). rewrite E. cbn [mbind outcome_bind].
    cbn [take_char]. destruct (process_scancode st x) as [st1 a1]. apply IH; [done | lia].
Qed.

Lemma read_keyboard_char_impl_spec q xs st :
  holds q xs ->
  let r := take_char st xs in
  exists q', read_keyboard_char_impl q st = Ok (q', r.1.1, r.2) /\ holds q' r.1.2.
Proof.
  intros Hq. unfold read_keyboard_char_impl. rewrite (holds_empty _ _ Hq).
  destruct xs as [|x xs]; [by exists q |]. rewrite bool_decide_false by done.
  rewrite (ho_size _ _ Hq).
  destruct (dequeue_spec q x xs Hq) as (q1 & E & Hq1). rewrite E. cbn [mbind outcome_bind take_char].
  destruct (process_scancode st x) as [st1 a1]. apply next_char_spec; [done |]. simpl. lia.
Qed.

(** Taking characters one by one is decoding. *)
Lemma take_char_decode st xs :
  match (decode st xs).2 with
  | [] => take_char st xs = ((decode st xs).1, [], -1)
  | c :: cs => exists st1 ys, take_char st xs = (st1, ys, c) /\ decode st1 ys = ((decode st xs).1, cs)
  end.
Proof.
  revert st. induction xs as [|x xs IH]; intros st; cbn [decode take_char]; [done |].
  destruct (process_scancode st x) as [st1 a1]. specialize (IH st1).
  destruct (decode st1 xs) as [st2 cs] eqn:E. cbn [fst snd] in IH.
  destruct (KH_HASDATA a1 && KH_ISMAKE a1); cbn [snd fst]; [by eexists _, _ |].
  by destruct cs.
Qed.

Lemma getchar_range c : 0 <= KH_GETCHAR c < 256.
Proof. unfold KH_GETCHAR. change 0xFF with (Z.ones 8). rewrite Z.land_ones by lia. apply Z.mod_pos_bound. lia. Qed.

Lemma take_char_range st xs : (take_char st xs).2 = -1 \/ 0 <= (take_char st xs).2 < 256.
Proof.
  revert st. induction xs as [|x xs IH]; intros st; cbn [take_char]; [by left |].
  destruct (process_scancode st x) as [st1 a1]. case_match; [| apply IH].
  right. apply getchar_range.
Qed.

(** ** Arrivals and reads in any order *)

Inductive kb_event := Arrives (scancode : Z) | Reads.

Fixpoint kb_run (q : buffer_queue_t) (st : kh) (evs : list kb_event) :
    outcome (buffer_queue_t * kh * list Z) :=
  match evs with
  | [] => Ok (q, st, [])
  | Arrives c :: evs => '(q, _) ← enqueue q c; kb_run q st evs
  | Reads :: evs =>
      '(q, st, c) ← read_keyboard_char_impl q st;
      '(q, st, cs) ← kb_run q st evs;
      Ok (q, st, c :: cs)
  end.

(** The specification: a list of at most 1024 scancodes. *)
Fixpoint kb_spec (xs : list Z) (st : kh) (evs : list kb_event) : list Z * kh * list Z :=
  match evs with
  | [] => (xs, st, [])
  | Arrives c :: evs => kb_spec (accept xs c) st evs
  | Reads :: evs =>
      let '(st, xs, c) := take_char st xs in
      let '(xs, st, cs) := kb_spec xs st evs in (xs, st, c :: cs)
  end.

Lemma kb_run_spec evs : forall q xs st, holds q xs ->
  let r := kb_spec xs st evs in
  exists q', kb_run q st evs = Ok (q', r.1.2, r.2) /\ holds q' r.1.1.
Proof.
  induction evs as [|[c |] evs IH]; intros q xs st Hq; cbn [kb_run kb_spec].
  - by exists q.
  - destruct (enqueue_spec q xs c Hq) as (q1 & E & Hq1). rewrite E. cbn [mbind outcome_bind].
    by apply IH.
  - destruct (read_keyboard_char_impl_spec q xs st Hq) as (q1 & E & Hq1). rewrite E.
    cbn [mbind outcome_bind]. destruct (take_char st xs) as [[st1 ys] c]. cbn [fst snd] in *.
    destruct (IH q1 ys st1 Hq1) as (q2 & E2 & Hq2). rewrite E2. cbn [mbind outcome_bind].
    destruct (kb_spec ys st1 evs) as [[zs st2] cs]. by exists q2.
Qed.

(** C34: whatever the order of arrivals and reads, the driver never accesses its
    buffer out of bounds: the head and tail stay below 1024 and the size between
    0 and 1024, and the reads return what they return from a first-in first-out
    list that drops the scancodes that arrive while it holds 1024. *)
Theorem keyboard_buffer_bounds s st w evs :
  let kb := (init_keyboard s st w).2 in
  let '(xs, st', cs) := kb_spec [] st evs in
  exists q, kb_run (kb_queue kb) (kb_kh kb) evs = Ok (q, st', cs) /\
    0 <= q_head q < KEYBOARD_BUF_SIZE /\ 0 <= q_tail q < KEYBOARD_BUF_SIZE /\
    0 <= q_size q <= KEYBOARD_BUF_SIZE /\ q_size q = Z.of_nat (length xs) /\
    length (q_buffer q) = Z.to_nat KEYBOARD_BUF_SIZE.
Proof.
  intros kb. pose proof (kb_run_spec evs (kb_queue kb) [] (kb_kh kb) (init_holds s st w)) as H.
  change (kb_kh kb) with st in *. destruct (kb_spec [] st evs) as [[xs st'] cs].
  destruct H as (q & E & [Hb Hh Hs Hn Ht _]). exists q. cbn [fst snd] in *.
  unfold KEYBOARD_BUF_SIZE in *. repeat split; try done; lia.
Qed.

Lemma kb_spec_app evs evs' : forall xs st,
  kb_spec xs st (evs ++ evs')
  = let '(ys, st1, cs) := kb_spec xs st evs in
    let '(zs, st2, cs') := kb_spec ys st1 evs' in (zs, st2, cs ++ cs').
Proof.
  induction evs as [|[c |] evs IH]; intros xs st; cbn [app kb_spec].
  - by destruct (kb_spec xs st evs') as [[? ?] ?].
  - apply IH.
  - destruct (take_char st xs) as [[st1 ys] c]. rewrite IH.
    destruct (kb_spec ys st1 evs) as [[? st2] ?]. by destruct (kb_spec _ st2 evs') as [[? ?] ?].
Qed.

Lemma kb_spec_arrivals ks : forall xs st,
  Z.of_nat (length xs + length ks) <= KEYBOARD_BUF_SIZE ->
  kb_spec xs st (Arrives <$> ks) = (xs ++ ks, st, []).
Proof.
  unfold KEYBOARD_BUF_SIZE.
  induction ks as [|k ks IH]; intros xs st Hl; cbn [fmap list_fmap kb_spec]; [by rewrite app_nil_r |].
  simpl length in Hl. unfold accept, KEYBOARD_BUF_SIZE.
  rewrite (proj2 (Z.eqb_neq _ _)) by lia.
  change (list_fmap kb_event) with (@fmap list _ Z kb_event). rewrite IH.
  - by rewrite <- app_assoc.
  - rewrite length_app. simpl. lia.
Qed.

Lemma kb_spec_reads cs : forall xs st st',
  decode st xs = (st', cs) ->
  kb_spec xs st (replicate (S (length cs)) Reads) = ([], st', cs ++ [-1]).
Proof.
  induction cs as [|c cs IH]; intros xs st st' Hd; pose proof (take_char_decode st xs) as Ht;
    rewrite Hd in Ht; cbn [fst snd] in Ht.
  - simpl. by rewrite Ht.
  - destruct Ht as (st1 & ys & Ht & Hd1). cbn [length]. 
    change (replicate (S (S (length cs))) Reads) with (Reads :: replicate (S (length cs)) Reads).
    cbn [kb_spec]. by rewrite Ht, (IH ys st1 st' Hd1).
Qed.

(** Typing reaches the reader: when the scancodes that type a text fit the
    buffer and arrive on an idle keyboard, that many reads return exactly the
    text, and the next read finds nothing and leaves the buffer empty. *)
Theorem typed_text_read s w text (Ht : Forall typeable text)
    (Hl : Z.of_nat (length (type_text text)) <= KEYBOARD_BUF_SIZE) :
  let kb := (init_keyboard s kh_init w).2 in
  exists q, kb_run (kb_queue kb) (kb_kh kb)
      ((Arrives <$> type_text text) ++ replicate (S (length text)) Reads)
    = Ok (q, kh_init, text ++ [-1]) /\ q_size q = 0.
Proof.
  intros kb. pose proof (kb_run_spec
    ((Arrives <$> type_text text) ++ replicate (S (length text)) Reads) (kb_queue kb) [] kh_init
    (init_holds s kh_init w)) as H.
  rewrite kb_spec_app, kb_spec_arrivals in H by exact Hl. cbn [app] in H.
  rewrite (kb_spec_reads text _ _ kh_init) in H by by rewrite decode_type_text.
  destruct H as (q & E & Hq). exists q. split; [exact E | apply (ho_size _ _ Hq)].
Qed.

(** ** Waking the readers *)

(** An update of the running thread that keeps its status and process. *)
Lemma update_current s ready W t f :
  (forall t, t_status (f t) = t_status t) -> (forall t, t_process (f t) = t_process t) ->
  sched_wf s ready W -> tcb_of s (s_crt_thread_node s) = Some t ->
  exists s', (thread ← get_crt_thread s; update_thread s thread f) = Ok s' /\ sched_wf s' ready W /\
    (exists p, s' = set_tcbs s (alter f p (s_tcbs s))) /\
    tcb_of s' (s_crt_thread_node s) = Some (f t).
Proof.
  intros H1 H2 Hw Ht. destruct (get_crt_thread_ok _ _ _ Hw) as (p & t' & Hg & Hp & Ht').
  rewrite Hg. cbn [mbind outcome_bind]. rewrite update_thread_ok by by eexists.
  eexists. split; [reflexivity |]. split; [by apply wf_update |]. split; [by exists p |].
  by rewrite tcb_of_alter, decide_True, Ht by done.
Qed.

(** The nodes of a list in no queue of the scheduler, as if they were in queue [q]. *)
Definition as_queue (s : sched) (q : Z) (l : linked_list_t) : sched := set_queue s (s_nodes s) q l.

Lemma as_queue_head s q l x :
  add_thread_node_to_schedule_head (as_queue s q l) x
  = (s' ← add_thread_node_to_schedule_head s x; Ok (as_queue s' q l)).
Proof.
  unfold add_thread_node_to_schedule_head, node_thread. cbn.
  destruct (s_nodes s !! x) as [n |]; [| done]. cbn. unfold update_thread. cbn.
  destruct (s_tcbs s !! n_ptr n); [| done]. cbn.
  destruct (linked_list_insert_to_head _ _ _) as [[nds l'] | | | |]; done.
Qed.

Lemma as_queue_empty s ready W q l :
  sched_wf (as_queue s q l) ready W -> W !! q = Some [] -> s_queues s !! q = Some linked_list_init ->
  sched_wf s ready W.
Proof.
  intros Hw HW Hq. pose proof (sw_waits _ _ _ Hw) as Hwaits. destruct Hw. split; try done.
  intros q' xs Hq'. destruct (decide (q' = q)) as [-> | Hne].
  - assert (xs = []) as -> by congruence. exists linked_list_init. split; [done |].
    split; try done. apply NoDup_singleton.
  - destruct (Hwaits q' xs Hq') as (m & H1 & H2). cbn in H1.
    rewrite lookup_insert_ne in H1 by done. by exists m.
Qed.

(** Waking one after the other. *)
Fixpoint wake_order (ready xs : list Z) : list Z :=
  match xs with [] => ready | x :: xs => wake_order (insert_second ready x) xs end.

Lemma as_queue_next s l x xs ready W q :
  sched_wf (as_queue s q l) ready W -> W !! q = Some (x :: xs) ->
  exists n, s_nodes s !! x = Some n /\ n_next n = first xs 0 /\ x <> 0.
Proof.
  intros Hw HW. destruct (sw_waits _ _ _ Hw q _ HW) as (m & Hm & Hl).
  cbn in Hm. rewrite lookup_insert_eq in Hm. injection Hm as <-.
  destruct Hl as [[[v Hv] _] [H0 _]%NoDup_cons _ _ _ _]. cbn in Hv. eexists. split; [exact Hv |].
  split; [done |]. intros ->. apply H0. by left.
Qed.

Lemma wake_all_spec xs : forall fuel s l ready W q,
  (length xs < fuel)%nat ->
  sched_wf (as_queue s q l) ready W -> W !! q = Some xs ->
  (s_crt_thread_node s ∉ xs) ->
  exists s' l', wake_all fuel s l (first xs 0) = Ok s' /\
    sched_wf (as_queue s' q l') (wake_order ready xs) (<[q := []]> W) /\
    s_crt_thread_node s' = s_crt_thread_node s /\ s_main_thread_node s' = s_main_thread_node s /\
    s_queues s' = s_queues s /\
    tcb_of s' (s_crt_thread_node s) = tcb_of s (s_crt_thread_node s).
Proof.
  induction xs as [|x xs IH]; intros [|fuel] s l ready W q Hf Hw HW Hc; simpl in Hf; try lia;
    cbn [wake_all wake_order].
  { exists s, l. by rewrite insert_id. }
  destruct (as_queue_next _ _ _ _ _ _ _ Hw HW) as (n & Hn & Hnext & Hx0).
  change (first (x :: xs) 0) with x. rewrite (proj2 (Z.eqb_neq _ _)) by done. cbn [negb].
  rewrite Hn. cbn [deref mbind outcome_bind]. rewrite Hnext.
  destruct (wf_unqueue _ _ _ q l [] x xs Hw HW) as (nds & l1 & p & t & E & Hw1 & Hd & Hst & Hthr).
  { cbn. by rewrite lookup_insert_eq. }
  { cbn. intros ->. apply Hc. by left. }
  cbn [s_nodes as_queue set_queue] in E. rewrite E. cbn [mbind outcome_bind].
  set (s1 := set_ready s nds (s_ready_tasks s)).
  assert (set_queue (as_queue s q l) nds q l1 = as_queue s1 q l1) as Eq.
  { unfold as_queue, s1, set_queue, set_ready. cbn. by rewrite insert_insert_eq. }
  rewrite Eq in Hw1, Hd, Hthr.
  destruct (add_thread_node_to_schedule_head_spec _ _ _ _ _ _ Hw1 Hd) as (s2 & E2 & Hs2).
  rewrite as_queue_head in E2. apply bind_Ok in E2 as (s3 & E3 & [= <-]).
  rewrite E3. cbn [mbind outcome_bind].
  destruct Hs2 as (Hw2 & Hc2 & Hm2 & _ & Hq2 & _ & Ho2).
  destruct (IH fuel s3 l1 (insert_second ready x) (<[q := xs]> W) q) as
    (s' & l' & E' & Hw' & Hc' & Hm' & Hq' & Ht'); [lia | done | by rewrite lookup_insert_eq | |].
  { cbn in Hc2. rewrite Hc2. set_solver. }
  exists s', l'. split; [done |]. rewrite insert_insert_eq in Hw'. split; [done |].
  cbn in Hc2, Hm2. rewrite Hc', Hc2, Hm', Hm2, Hq'. split; [done |]. split; [done |]. split.
  { clear -E3. revert E3. unfold add_thread_node_to_schedule_head. intros E3. out_inv.
    destruct a1. out_inv. unfold update_thread in *. out_inv. done. }
  rewrite Hc2 in Ht'. rewrite Ht'.
  change (tcb_of s3 (s_crt_thread_node s) = tcb_of s (s_crt_thread_node s)).
  transitivity (tcb_of (as_queue s1 q l1) (s_crt_thread_node s)).
  - apply Ho2; [| by left]. intros Hx. apply Hc. rewrite Hx. by left.
  - unfold tcb_of. by rewrite Hthr.
Qed.

(** ** The handler and the read in the scheduler's state *)

Lemma wake_order_perm ready xs : wake_order ready xs ≡ₚ ready ++ xs.
Proof.
  revert ready. induction xs as [|x xs IH]; intros ready; cbn [wake_order].
  - by rewrite app_nil_r.
  - rewrite IH, insert_second_perm. simpl. apply Permutation_middle.
Qed.

Definition locked (t : tcb_t) : tcb_t := with_preempt_count (u32 (t_preempt_count t + 1)) t.
Definition unlocked_thread (t : tcb_t) : tcb_t :=
  with_preempt_count (u32 (t_preempt_count t - 1)) t.

Lemma unlock_locked t : 0 <= t_preempt_count t < 4294967295 -> unlocked_thread (locked t) = t.
Proof.
  intros Hc. unfold unlocked_thread, locked. destruct t as [a b c d e h i j k n]. cbn in *.
  unfold with_preempt_count. cbn. f_equal. rewrite (u32_small (n + 1)), u32_small; lia.
Qed.

(** Between the two the thread's nodes and its control block do not change. *)
Lemma preempt_region s ready W t :
  sched_wf s ready W -> tcb_of s (s_crt_thread_node s) = Some t ->
  0 <= t_preempt_count t < 4294967295 ->
  exists s1, disable_preempt s = Ok s1 /\ s_queues s1 = s_queues s /\ s_nodes s1 = s_nodes s /\
    s_interrupt s1 = s_interrupt s /\ sched_wf s1 ready W /\
    s_crt_thread_node s1 = s_crt_thread_node s /\ s_main_thread_node s1 = s_main_thread_node s /\
    tcb_of s1 (s_crt_thread_node s) = Some (locked t) /\
    (forall v, enable_preempt (set_interrupt s1 v) = Ok (set_interrupt s v)) /\
    (forall q l, enable_preempt (set_queue s1 (s_nodes s1) q l) = Ok (set_queue s (s_nodes s) q l)).
Proof.
  intros Hw Ht Hc. destruct (get_crt_thread_ok _ _ _ Hw) as (p & t' & Hg & Hp & Ht').
  assert (t' = t) as -> by (unfold tcb_of in Ht; rewrite Hp in Ht; simpl in Ht; congruence).
  set (T := alter locked p (s_tcbs s)).
  assert (alter unlocked_thread p T = s_tcbs s) as HT.
  { unfold T. apply map_eq. intros i. destruct (decide (i = p)) as [-> | Hi].
    - rewrite !lookup_alter_eq, Ht'. simpl. by rewrite unlock_locked.
    - by rewrite !lookup_alter_ne. }
  exists (set_tcbs s T). unfold disable_preempt, enable_preempt. rewrite Hg. cbn [mbind outcome_bind].
  rewrite update_thread_ok by by eexists. repeat (split; [done |]).
  split; [by apply wf_update |]. split; [done |]. split; [done |]. split.
  { unfold T. by rewrite tcb_of_alter, decide_True, Ht by done. }
  assert (is_Some (T !! p)) as HTp by (apply is_Some_alter; by eexists).
  split; [intros v | intros q l].
  - change (get_crt_thread (set_interrupt (set_tcbs s T) v)) with (get_crt_thread s). rewrite Hg.
    cbn [mbind outcome_bind]. rewrite update_thread_ok by exact HTp. f_equal.
    change (set_tcbs (set_interrupt s v) (alter unlocked_thread p T) = set_interrupt s v). rewrite HT. by destruct s.
  - change (get_crt_thread (set_queue (set_tcbs s T) (s_nodes (set_tcbs s T)) q l)) with (get_crt_thread s).
    rewrite Hg. cbn [mbind outcome_bind]. rewrite update_thread_ok by exact HTp. f_equal.
    change (set_tcbs (set_queue s (s_nodes s) q l) (alter unlocked_thread p T) = set_queue s (s_nodes s) q l).
    rewrite HT. by destruct s.
Qed.

Definition urgent (t : tcb_t) : tcb_t := with_ticks (t_ticks t) true t.

(** C35: the interrupt handler, while the interrupted thread is not itself among the
    waiting readers, returns: the scancode is the newest of the buffer, or dropped
    when the buffer is full; every waiting reader is ready, none is queued or lost,
    the running thread keeps running with its preemption count and is marked to be
    rescheduled.  (Between its unlock and its yield a reader is among the waiting
    ones: the handler then queues the thread that runs.) *)
Theorem keyboard_interrupt_correct s ready W t kb xs ws c
    (Hw : sched_wf s ready W) (Ht : tcb_of s (s_crt_thread_node s) = Some t)
    (Hc : 0 <= t_preempt_count t < 4294967295)
    (HW : W !! kb_waiting kb = Some ws) (Hn : s_crt_thread_node s ∉ ws)
    (Hq : holds (kb_queue kb) xs) :
  exists s' kb' ready', keyboard_interrupt_handler s kb c = Ok (s', kb') /\
    holds (kb_queue kb') (accept xs c) /\ kb_kh kb' = kb_kh kb /\ kb_waiting kb' = kb_waiting kb /\
    sched_wf s' ready' (<[kb_waiting kb := []]> W) /\
    ready' ≡ₚ ready ++ ws /\ head ready' = head (ready ++ ws) /\
    s_crt_thread_node s' = s_crt_thread_node s /\
    tcb_of s' (s_crt_thread_node s) = Some (urgent t).
Proof.
  unfold keyboard_interrupt_handler, spinlock_lock.
  destruct (preempt_region s ready W t Hw Ht Hc) as
    (s1 & E1 & Q1 & N1 & _ & _ & _ & _ & _ & _ & Hun).
  rewrite E1. cbn [mbind outcome_bind].
  destruct (enqueue_spec _ _ c Hq) as (q' & E2 & Hq'). rewrite E2. cbn [mbind outcome_bind].
  destruct (sw_waits _ _ _ Hw _ _ HW) as (l & Hl & Hls). rewrite Q1, Hl.
  cbn [deref mbind outcome_bind linked_list_move]. unfold spinlock_unlock. rewrite Hun.
  cbn [mbind outcome_bind ll_size ll_head].
  set (q := kb_waiting kb) in *. set (s2 := set_queue s (s_nodes s) q linked_list_init).
  assert (as_queue s2 q l = s) as Eq.
  { unfold as_queue, s2, set_queue. cbn. rewrite insert_insert_eq, insert_id by done. by destruct s. }
  replace (LList (ll_head l) (ll_tail l) (ll_size l)) with l by by destruct l.
  destruct (wake_all_spec ws (S (Z.to_nat (ll_size l))) s2 l ready W q) as
    (s3 & l' & E3 & Hw3 & Hc3 & Hm3 & Hq3 & Ht3).
  { rewrite (il_size _ _ _ Hls). lia. }
  { by rewrite Eq. }
  { done. }
  { done. }
  rewrite (il_head _ _ _ Hls), E3. cbn [mbind outcome_bind].
  assert (sched_wf s3 (wake_order ready ws) (<[q := []]> W)) as Hw3'.
  { eapply as_queue_empty; [exact Hw3 | apply lookup_insert_eq |].
    rewrite Hq3. cbn. apply lookup_insert_eq. }
  destruct (update_current s3 _ _ t urgent (fun _ => eq_refl) (fun _ => eq_refl) Hw3') as
    (s4 & E4 & Hw4 & (p & ->) & Ht4); [by rewrite Hc3, Ht3 |].
  rewrite <- (bind_assoc (get_crt_thread s3) (fun thread => update_thread s3 thread urgent)), E4.
  cbn [mbind outcome_bind].
  eexists _, _, _. split; [reflexivity |]. split; [done |]. split; [done |]. split; [done |].
  split; [exact Hw4 |]. split; [apply wake_order_perm |]. split.
  { clear. revert ready. induction ws as [|x ws IH]; intros ready; simpl; [by rewrite app_nil_r |].
    rewrite IH. by destruct ready. }
  split; [exact Hc3 |]. rewrite Hc3 in Ht4. exact Ht4.
Qed.

(** One round of a read returns.  With a character in the buffer it delivers
    the first one, consumes the scancodes up to it and leaves the scheduler as it
    was; without one it consumes the whole buffer, the caller becomes the last
    waiting reader, and the first ready thread (or the idle thread) runs. *)
Theorem read_keyboard_char_round_correct s ready W t kb xs ws
    (Hw : sched_wf s ready W) (Hr : runs s t) (Hc : 0 <= t_preempt_count t < 4294967295)
    (HW : W !! kb_waiting kb = Some ws) (Hq : holds (kb_queue kb) xs) :
  let '(st, ys, c) := take_char (kb_kh kb) xs in
  exists s' kb', read_keyboard_char_round s kb = Ok (s', kb', if c =? -1 then None else Some c) /\
    holds (kb_queue kb') ys /\ kb_kh kb' = st /\ kb_waiting kb' = kb_waiting kb /\
    (if c =? -1
     then sched_wf s' (tail ready) (<[kb_waiting kb := ws ++ [s_crt_thread_node s]]> W) /\
          s_crt_thread_node s' = default (s_main_thread_node s) (head ready)
     else s' = s).
Proof.
  pose proof (read_keyboard_char_impl_spec (kb_queue kb) xs (kb_kh kb) Hq) as Hread.
  pose proof (take_char_range (kb_kh kb) xs) as Hrange. cbn zeta in Hread.
  destruct (take_char (kb_kh kb) xs) as [[st ys] c]. cbn [fst snd] in *.
  destruct Hread as (q' & E & Hq'). pose proof Hr as (Ht & Hst & Hm).
  destruct (preempt_region s ready W t Hw Ht Hc) as
    (s1 & E1 & Q1 & N1 & I1 & Hw1 & C1 & M1 & T1 & Hrest & _).
  unfold read_keyboard_char_round, spinlock_lock_irqsave, spinlock_unlock_irqrestore.
  rewrite E1. cbn [mbind outcome_bind]. rewrite E. cbn [mbind outcome_bind].
  unfold disable_interrupt. destruct (Z.eqb_spec c (-1)) as [-> | Hne]; cbn [negb].
  - set (s2 := set_interrupt s1 false).
    destruct (enqueue_current_spec s2 ready W (kb_waiting kb) ws (locked t)) as
      (s3 & E3 & Hw3 & C3 & M3 & T3).
    { by apply wf_interrupt. }
    { done. }
    { change (s_crt_thread_node s2) with (s_crt_thread_node s1). rewrite C1. by eapply runs_not_waiting. }
    { change (tcb_of s2) with (tcb_of s1). change (s_crt_thread_node s2) with (s_crt_thread_node s1).
      by rewrite C1. }
    { cbn. by rewrite C1, M1. }
    rewrite E3. cbn [mbind outcome_bind sl_interrupt_mask]. cbn in C3, M3. rewrite C1 in C3.
    destruct (update_current s3 _ _ (with_status TASK_WAITING (locked t)) unlocked_thread (fun _ => eq_refl) (fun _ => eq_refl) Hw3)
      as (s4 & E4 & Hw4 & (p & ->) & T4).
    { rewrite C3. change (s_crt_thread_node s2) with (s_crt_thread_node s1) in T3. by rewrite C1 in T3. }
    change (enable_preempt s3) with
      (thread ← get_crt_thread s3; update_thread s3 thread unlocked_thread).
    rewrite E4. cbn [mbind outcome_bind]. set (s4 := set_tcbs s3 _) in *.
    set (s5 := if negb (_ =? 0) then enable_interrupt s4 else s4).
    assert (sched_wf s5 ready (<[kb_waiting kb := ws ++ [s_crt_thread_node s]]> W)) as Hw5.
    { change (s_crt_thread_node s2) with (s_crt_thread_node s1) in Hw4. rewrite C1 in Hw4.
      unfold s5. case_match; [by apply wf_interrupt | done]. }
    assert (tcb_of s5 = tcb_of s4 /\ s_crt_thread_node s5 = s_crt_thread_node s /\
      s_main_thread_node s5 = s_main_thread_node s) as (T5 & C5 & M5).
    { unfold s5. cbn in M3 |- *. rewrite M1 in M3. case_match; done. }
    destruct (schedule_thread_yield_spec s5 ready _
      (unlocked_thread (with_status TASK_WAITING (locked t))) Hw5) as (s' & E5 & Hw' & C' & _).
    { rewrite T5, C5, <- C3. exact T4. }
    rewrite E5. cbn [mbind outcome_bind]. eexists _, _. split; [reflexivity |].
    split; [done |]. split; [done |]. split; [done |]. split; [exact Hw' | by rewrite C', M5].
  - rewrite Hrest. cbn [mbind outcome_bind sl_interrupt_mask].
    eexists _, _. split; [reflexivity |]. split; [done |]. split; [done |]. split; [done |].
    rewrite I1. destruct (s_interrupt s) eqn:Ei; cbn; unfold enable_interrupt, set_interrupt;
      cbn; destruct s; cbn in *; by subst.
Qed.

(** ** Witnesses *)

Definition demo_keyboard : keyboard :=
  Keyboard (kb_queue (init_keyboard demo_sched kh_init 0x500).2) kh_init 0x500 spinlock_init.

Lemma demo_count : 0 <= t_preempt_count demo_current < 4294967295.
Proof. vm_compute. split; congruence. Qed.

Lemma typed_text_read_witness :
  exists q, kb_run (kb_queue demo_keyboard) kh_init
      ((Arrives <$> type_text [108; 115; 10]) ++ replicate 4 Reads)
    = Ok (q, kh_init, [108; 115; 10; -1]).
Proof.
  destruct (typed_text_read demo_sched 0x500 [108; 115; 10]) as (q & E & _).
  - repeat constructor; unfold typeable; vm_compute; intuition congruence.
  - vm_compute. congruence.
  - exists q. exact E.
Defined.

Lemma keyboard_interrupt_correct_witness :
  exists s' kb' ready', keyboard_interrupt_handler demo_sched demo_keyboard 0x1E = Ok (s', kb') /\
    holds (kb_queue kb') [0x1E] /\ ready' ≡ₚ [0x120; 0x130] /\
    sched_wf s' ready' (<[0x500 := []]> demo_waits).
Proof.
  destruct (keyboard_interrupt_correct demo_sched [0x120] demo_waits demo_current demo_keyboard []
    [0x130] 0x1E demo_wf (proj1 demo_runs) demo_count eq_refl)
    as (s' & kb' & r & E & Hq & _ & _ & Hw & Hp & _).
  - by intros ?%list_elem_of_singleton.
  - apply (init_holds demo_sched kh_init 0x500).
  - exists s', kb', r. exact (conj E (conj Hq (conj Hp Hw))).
Defined.

Lemma read_keyboard_char_round_correct_witness :
  exists s' kb', read_keyboard_char_round demo_sched demo_keyboard = Ok (s', kb', None) /\
    s_crt_thread_node s' = 0x120.
Proof.
  pose proof (read_keyboard_char_round_correct demo_sched [0x120] demo_waits demo_current
    demo_keyboard [] [0x130] demo_wf demo_runs demo_count eq_refl (init_holds demo_sched kh_init 0x500))
    as (s' & kb' & E & _ & _ & _ & _ & Hc).
  exists s', kb'. exact (conj E Hc).
Defined.
