(* ===== verification/Interrupts.v ===== *)
(** * Interrupt dispatch (interrupt/interrupt.c, interrupt/interrupt.h,
    interrupt/timer.c)

    The interrupt descriptor table, the table of handlers and the common
    handler all interrupts go through.  [isr] and [syscall_entry] are the addresses
    of the assembly stubs; writes to ports are logged in order.  What a handler does
    is a parameter: it works on these statics and on the rest of the system. *)

From S2P Require Import Prelude.
From S2P Require Import Gdt.

Definition IDT_GATE_P : Z := 1.
Definition IDT_GATE_DPL3 : Z := 3.
Definition IDT_GATE_32_TYPE : Z := 0xE.
Definition IDT_GATE_ATTR_DPL3 : Z :=
  Z.shiftl IDT_GATE_P 7 + Z.shiftl IDT_GATE_DPL3 5 + IDT_GATE_32_TYPE.
Definition SYSCALL_INT_NUM : Z := 0x80.
Definition IRQ0_INT_NUM : Z := 32.
Definition TIMER_FREQUENCY : Z := 50.

Record idt_entry_t := IdtEntry {
  handler_addr_low : Z; sel : Z; always0 : Z; attrs : Z; handler_addr_high : Z
}.

(** The words an interrupt leaves on the kernel stack. *)
Record isr_params_t := IsrParams {
  p_ds : Z; p_edi : Z; p_esi : Z; p_ebp : Z; p_esp : Z; p_ebx : Z; p_edx : Z; p_ecx : Z;
  p_eax : Z; p_int_num : Z; p_err_code : Z; p_eip : Z; p_cs : Z; p_eflags : Z;
  p_user_esp : Z; p_user_ss : Z
}.

Section interrupts.
Context {isr_t : Type}.

Record irq := Irq {
  idt_entries : list idt_entry_t;
  interrupt_handlers : list (option isr_t);
  in_irq_context : bool;
  irq_if : bool;
  idtr : option (Z * Z);
  ports : list (Z * Z)
}.

Definition irq_static : irq :=
  Irq (replicate 256 (IdtEntry 0 0 0 0 0)) (replicate 256 None) false false None [].

Definition set_context (s : irq) (v : bool) : irq :=
  Irq (idt_entries s) (interrupt_handlers s) v (irq_if s) (idtr s) (ports s).
Definition set_if (s : irq) (v : bool) : irq :=
  Irq (idt_entries s) (interrupt_handlers s) (in_irq_context s) v (idtr s) (ports s).
Definition outb (s : irq) (port value : Z) : irq :=
  Irq (idt_entries s) (interrupt_handlers s) (in_irq_context s) (irq_if s) (idtr s)
    (ports s ++ [(port, value)]).

Definition is_in_irq_context (s : irq) : bool := in_irq_context s.

(** ** The tables *)

Definition set_idt_gate (s : irq) (num base sel attrs : Z) : irq :=
  Irq (<[Z.to_nat num := IdtEntry (Z.land base 0xFFFF) sel 0 attrs
                           (Z.land (Z.shiftr base 16) 0xFFFF)]> (idt_entries s))
    (interrupt_handlers s) (in_irq_context s) (irq_if s) (idtr s) (ports s).

Definition register_interrupt_handler (s : irq) (n : Z) (handler : isr_t) : irq :=
  Irq (idt_entries s) (<[Z.to_nat n := Some handler]> (interrupt_handlers s))
    (in_irq_context s) (irq_if s) (idtr s) (ports s).

Definition init_pic (s : irq) : irq :=
  let s := outb (outb (outb (outb s 0x20 0x11) 0x21 0x20) 0x21 0x04) 0x21 0x01 in
  let s := outb (outb (outb (outb s 0xA0 0x11) 0xA1 0x28) 0xA1 0x02) 0xA1 0x01 in
  outb (outb s 0x21 0x0) 0xA1 0x0.

Context (isr : Z -> Z) (syscall_entry idt_addr : Z).

(** [memset] of both tables. *)
Definition clear_tables (s : irq) : irq :=
  Irq (replicate 256 (IdtEntry 0 0 0 0 0)) (replicate 256 None) (in_irq_context s)
    (irq_if s) (idtr s) (ports s).

Definition init_idt (s : irq) : irq :=
  let s := clear_tables s in
  let s := foldl (fun s n => set_idt_gate s n (isr n) SELECTOR_K_CODE IDT_GATE_ATTR_DPL3) s (seqZ 0 48) in
  let s := set_idt_gate s SYSCALL_INT_NUM syscall_entry SELECTOR_K_CODE IDT_GATE_ATTR_DPL3 in
  let s := Irq (idt_entries s) (interrupt_handlers s) (in_irq_context s) (irq_if s)
             (Some (8 * 256 - 1, idt_addr)) (ports s) in
  init_pic s.

(** [outb] of the two bytes of the divisor; a division by 0 traps. *)
Definition init_timer (s : irq) (timer_callback : isr_t) (frequency : Z) : outcome irq :=
  let s := register_interrupt_handler s IRQ0_INT_NUM timer_callback in
  if frequency =? 0 then Fault
  else
    let divisor := 1193180 / frequency in
    let s := outb s 0x43 0x36 in
    let l := u8 (Z.land divisor 0xFF) in
    let h := u8 (Z.land (Z.shiftr divisor 8) 0xFF) in
    Ok (outb (outb s 0x40 l) 0x40 h).

(** ** The common handler *)

Context {S : Type} (call : isr_t -> isr_params_t -> irq * S -> outcome (irq * S)).

Definition isr_handler (params : isr_params_t) (s : irq) (sys : S) : outcome (irq * S) :=
  let int_num := p_int_num params in
  let s :=
    if (32 <=? int_num) && (int_num <? SYSCALL_INT_NUM) then
      let s := if 40 <=? int_num then outb s 0xA0 0x20 else s in
      let s := outb s 0x20 0x20 in
      set_context s true
    else set_if s true in
  h ← deref (interrupt_handlers s !! Z.to_nat int_num);
  '(s, sys) ← match h with Some handler => call handler params (s, sys) | None => Panic end;
  Ok (if in_irq_context s then set_if (set_context s false) true else s, sys).

(** ** What the processor reads *)

Definition gate_offset (e : idt_entry_t) : Z := handler_addr_low e + 65536 * handler_addr_high e.
Definition gate_present (e : idt_entry_t) : bool := Z.testbit (attrs e) 7.
Definition gate_dpl (e : idt_entry_t) : Z := attrs e / 32 mod 4.

(** A present interrupt gate to kernel code that user programs may use. *)
Definition leads_to (e : idt_entry_t) (addr : Z) : Prop :=
  gate_present e = true /\ gate_offset e = addr /\ sel e = SELECTOR_K_CODE /\
  always0 e = 0 /\ attrs e mod 16 = IDT_GATE_32_TYPE /\ gate_dpl e = 3.

Lemma gate_leads_to addr :
  is_u32 addr ->
  leads_to (IdtEntry (Z.land addr 0xFFFF) SELECTOR_K_CODE 0 IDT_GATE_ATTR_DPL3
    (Z.land (Z.shiftr addr 16) 0xFFFF)) addr.
Proof.
  intros Ha. unfold leads_to. split; [reflexivity |]. split; [|repeat split].
  unfold gate_offset. cbn. rewrite Z.shiftr_div_pow2 by lia. change 0xFFFF with (2 ^ 16 - 1).
  rewrite !land_low by lia. unfold is_u32 in Ha. lia.
Qed.

Lemma set_gates_spec (s : irq) k n :
  0 <= k -> length (idt_entries s) = 256%nat -> k + n <= 256 ->
  let s' := foldl (fun s n => set_idt_gate s n (isr n) SELECTOR_K_CODE IDT_GATE_ATTR_DPL3) s (seqZ k n) in
  length (idt_entries s') = 256%nat /\ interrupt_handlers s' = interrupt_handlers s /\
  ports s' = ports s /\
  forall v, 0 <= v < 256 -> idt_entries s' !! Z.to_nat v =
    if decide (k <= v < k + n) then Some (IdtEntry (Z.land (isr v) 0xFFFF) SELECTOR_K_CODE 0
      IDT_GATE_ATTR_DPL3 (Z.land (Z.shiftr (isr v) 16) 0xFFFF))
    else idt_entries s !! Z.to_nat v.
Proof.
  intros Hk Hlen Hn. destruct (decide (n <= 0)) as [Hz|Hz].
  { rewrite seqZ_nil by lia. cbn. split; [done |]. split; [done |]. split; [done |].
    intros v Hv. by rewrite decide_False by lia. }
  assert (exists m, n = Z.of_nat m) as [m ->] by (exists (Z.to_nat n); lia).
  clear Hz. revert k s Hk Hlen Hn. induction m as [|m IH]; intros k s Hk Hlen Hn.
  { rewrite seqZ_nil by lia. cbn. split; [done |]. split; [done |]. split; [done |].
    intros v Hv. by rewrite decide_False by lia. }
  rewrite seqZ_cons by lia. replace (Z.pred (Z.of_nat (Datatypes.S m))) with (Z.of_nat m) by lia.
  cbn [foldl]. set (s1 := set_idt_gate s _ _ _ _).
  assert (length (idt_entries s1) = 256%nat) as Hl1 by (unfold s1; cbn; by rewrite length_insert).
  destruct (IH (Z.succ k) s1) as (E1 & E2 & E3 & E4); [lia | done | lia |].
  split; [exact E1 |]. split; [exact E2 |]. split; [exact E3 |]. intros v Hv. rewrite E4 by done.
  destruct (decide (Z.succ k <= v < Z.succ k + Z.of_nat m)).
  - by rewrite decide_True by lia.
  - unfold s1. cbn. destruct (decide (v = k)) as [-> |].
    + rewrite decide_True by lia. rewrite list_lookup_insert_eq by lia. done.
    + rewrite decide_False by lia. rewrite list_lookup_insert_ne by lia. done.
Qed.

Lemma outb_tables (s : irq) port v :
  idt_entries (outb s port v) = idt_entries s /\
  interrupt_handlers (outb s port v) = interrupt_handlers s.
Proof. done. Qed.

Lemma init_pic_tables (s : irq) :
  idt_entries (init_pic s) = idt_entries s /\ interrupt_handlers (init_pic s) = interrupt_handlers s.
Proof. unfold init_pic. cbv zeta. by rewrite !(proj1 (outb_tables _ _ _)), !(proj2 (outb_tables _ _ _)). Qed.

(** [init_idt] points the vectors 0 to 47 and 0x80 to their stubs, leaves the
    others not present and clears the handlers.  Every gate has privilege 3, so a
    user program can raise exceptions and hardware vectors by instruction. *)
Theorem init_idt_correct (s : irq) v :
  (forall n, is_u32 (isr n)) -> is_u32 syscall_entry -> 0 <= v < 256 ->
  exists e, idt_entries (init_idt s) !! Z.to_nat v = Some e /\
    interrupt_handlers (init_idt s) !! Z.to_nat v = Some None /\
    (if decide (v < 48) then leads_to e (isr v)
     else if decide (v = SYSCALL_INT_NUM) then leads_to e syscall_entry
     else gate_present e = false).
Proof.
  intros Hisr Hsys Hv.
  destruct (set_gates_spec (clear_tables s) 0 48) as (E1 & E2 & E3 & E4); [lia | done | lia |].
  cbv zeta in *. set (s1 := foldl _ (clear_tables s) _) in *.
  unfold init_idt. rewrite (proj1 (init_pic_tables _)), (proj2 (init_pic_tables _)). cbv zeta. cbn [idt_entries interrupt_handlers].
  fold s1. clearbody s1. unfold set_idt_gate, clear_tables in *. cbn [idt_entries interrupt_handlers].
  rewrite E2. cbn [interrupt_handlers].
  rewrite lookup_replicate_2 by lia.
  destruct (decide (v = SYSCALL_INT_NUM)) as [-> | Hne].
  - eexists. rewrite list_lookup_insert_eq by (rewrite E1; unfold SYSCALL_INT_NUM; lia).
    split; [reflexivity |]. split; [done |]. rewrite decide_False by (unfold SYSCALL_INT_NUM; lia).
    by apply gate_leads_to.
  - rewrite list_lookup_insert_ne by (unfold SYSCALL_INT_NUM in *; lia).
    rewrite E4 by done. destruct (decide (v < 48)) as [Hl|Hl].
    + rewrite decide_True by lia. eexists. split; [reflexivity |]. split; [done |].
      by apply gate_leads_to.
    + rewrite decide_False by lia. unfold clear_tables. cbn [idt_entries].
      rewrite lookup_replicate_2 by lia. eexists. split; [reflexivity |]. split; done.
Qed.

(** The timer's divisor is programmed whole exactly from 19 Hz on. *)
Theorem init_timer_correct (s : irq) cb frequency :
  0 < frequency ->
  exists s' l h, init_timer s cb frequency = Ok s' /\
    ports s' = ports s ++ [(0x43, 0x36); (0x40, l); (0x40, h)] /\
    0 <= l < 256 /\ 0 <= h < 256 /\
    (l + 256 * h = 1193180 / frequency <-> 19 <= frequency).
Proof.
  clear call isr. intros Hf. unfold init_timer. rewrite (proj2 (Z.eqb_neq _ _)) by lia.
  eexists _, _, _. split; [reflexivity |]. cbn. rewrite <- !app_assoc. split; [reflexivity |].
  set (d := 1193180 / frequency).
  rewrite Z.shiftr_div_pow2 by lia. change 0xFF with (2 ^ 8 - 1). rewrite !land_low by lia.
  assert (0 <= d) by (apply Z.div_pos; lia).
  assert (d < 65536 <-> 19 <= frequency) as Hd.
  { unfold d. split; intros H'; [| apply Z.div_lt_upper_bound; lia].
    destruct (decide (19 <= frequency)); [done |]. exfalso.
    assert (65536 <= 1193180 / frequency); [apply Z.div_le_lower_bound; lia | lia]. }
  unfold u8. change (2 ^ 8) with 256. split; [lia |]. split; [lia |]. rewrite <- Hd. lia.
Qed.

(** A handler that keeps the context flag it finds. *)
Definition keeps_context (h : isr_t) : Prop :=
  forall p s sys s' sys', call h p (s, sys) = Ok (s', sys') -> in_irq_context s' = in_irq_context s.

(** C23: the common handler: an interrupt without a handler stops the kernel.  For a
    hardware interrupt the controllers are told first, the second one only for
    the lines from 40 on; the handler runs in interrupt context with the
    flag as it was, and interrupts are enabled behind it.  For an exception
    interrupts are enabled before the handler runs. *)
Theorem isr_handler_correct params (s : irq) sys h :
  length (interrupt_handlers s) = 256%nat -> 0 <= p_int_num params < 256 ->
  in_irq_context s = false ->
  interrupt_handlers s !! Z.to_nat (p_int_num params) = Some h ->
  (forall f, h = Some f -> keeps_context f) ->
  let hardware := bool_decide (32 <= p_int_num params < SYSCALL_INT_NUM) in
  let acks := if decide (40 <= p_int_num params) then [(0xA0, 0x20); (0x20, 0x20)] else [(0x20, 0x20)] in
  let s1 := Irq (idt_entries s) (interrupt_handlers s) hardware (negb hardware || irq_if s) (idtr s)
              (if hardware then ports s ++ acks else ports s) in
  isr_handler params s sys =
    match h with
    | None => Panic
    | Some f =>
        '(s2, sys2) ← call f params (s1, sys);
        Ok (if hardware then set_if (set_context s2 false) true else s2, sys2)
    end.
Proof.
  clear isr idt_addr. intros Hlen Hn Hc Hh Hk hardware acks s1. unfold isr_handler.
  assert ((32 <=? p_int_num params) && (p_int_num params <? SYSCALL_INT_NUM) = hardware) as ->.
  { unfold hardware. apply eq_true_iff_eq. rewrite andb_true_iff, bool_decide_eq_true. lia. }
  assert ((if hardware then set_context (outb (if 40 <=? p_int_num params then outb s 0xA0 0x20 else s) 0x20 0x20) true
           else set_if s true) = s1) as Es.
  { unfold s1, acks. destruct hardware.
    - destruct (Z.leb_spec 40 (p_int_num params)) as [Hl|Hl].
      + rewrite decide_True by done. unfold set_context, outb. cbn. by rewrite <- app_assoc.
      + rewrite decide_False by lia. done.
    - unfold set_if. rewrite Hc. done. }
  cbv zeta. rewrite Es. change (interrupt_handlers s1) with (interrupt_handlers s). rewrite Hh. cbn [deref mbind outcome_bind].
  destruct h as [f|]; [|done].
  destruct (call f params (s1, sys)) as [[s2 sys2]| | | |] eqn:Ec; try done.
  cbn [mbind outcome_bind]. rewrite (Hk f eq_refl _ _ _ _ _ Ec). done.
Qed.
End interrupts.
Arguments irq : clear implicits.

Lemma init_idt_correct_witness :
  exists e, idt_entries (init_idt (isr_t := unit) (fun n => 0xC0000000 + n mod 256) 0xC0001000 0xC0002000
      irq_static) !! Z.to_nat 0x80 = Some e /\ leads_to e 0xC0001000.
Proof.
  destruct (init_idt_correct (isr_t := unit) (fun n => 0xC0000000 + n mod 256) 0xC0001000 0xC0002000
    irq_static 0x80) as (e & E & _ & L).
  - intros n. unfold is_u32. lia.
  - unfold is_u32. lia.
  - lia.
  - exists e. exact (conj E L).
Defined.

Lemma init_timer_correct_witness :
  exists s' l h, init_timer (isr_t := unit) irq_static tt TIMER_FREQUENCY = Ok s' /\
    l + 256 * h = 1193180 / TIMER_FREQUENCY.
Proof.
  destruct (init_timer_correct (isr_t := unit) irq_static tt TIMER_FREQUENCY) as (s' & l & h & E & _ & _ & _ & D).
  - vm_compute. reflexivity.
  - exists s', l, h. split; [exact E |]. apply D. vm_compute. discriminate.
Defined.

(** A keyboard interrupt whose handler counts. *)
Lemma isr_handler_correct_witness :
  let params := IsrParams 0 0 0 0 0 0 0 0 0 33 0 0 0 0 0 0 in
  let s := register_interrupt_handler irq_static 33 tt in
  let call := fun (_ : unit) (_ : isr_params_t) (x : irq unit * Z) => Ok (x.1, x.2 + 1) in
  exists s', isr_handler call params s 4 = Ok (s', 5) /\ ports s' = [(0x20, 0x20)] /\ irq_if s' = true.
Proof.
  cbv zeta. set (call := fun (_ : unit) (_ : isr_params_t) (x : irq unit * Z) => Ok (x.1, x.2 + 1)).
  rewrite (isr_handler_correct call _ _ 4 (Some tt)).
  - eexists. split; [reflexivity |]. split; reflexivity.
  - reflexivity.
  - cbn. lia.
  - reflexivity.
  - reflexivity.
  - intros f Hf p s sys s' sys' E. unfold call in E. injection E as <- <-. reflexivity.
Defined.
