(* ===== verification/Thread.v ===== *)
(** * Threads (task/thread.c): data and operations

    Control blocks are the records of the scheduler; their names and the kernel
    and user stacks are bytes of the address space.  A string written behind the
    end of [name] is a fault. *)

From S2P Require Import Prelude.
From S2P Require Import Memory.
From S2P Require Import Allocator.
From S2P Require Import Bitmap.
From S2P Require Import IdPool.
From S2P Require Import KHeap.
From S2P Require Import CStdlib.
From S2P Require Import Scheduler.
From S2P Require Import AddressSpace.
From S2P Require Import VMem.
From S2P Require Import HeapSpace.
From S2P Require Import StrArray.
From S2P Require Import Gdt.

(** Sizes of the structures, and the offset of [name] in a control block. *)
Definition TCB_SIZE : Z := 76.
Definition SWITCH_STACK_SIZE : Z := 40.
Definition INTERRUPT_STACK_SIZE : Z := 64.
Definition NAME_SIZE : Z := 32.
Definition TCB_NAME : Z := 12.

Definition EFLAGS_MBS : Z := Z.shiftl 1 1.
Definition EFLAGS_IF_1 : Z := Z.shiftl 1 9.
Definition EFLAGS_IOPL_0 : Z := Z.shiftl 0 12.
Definition THREAD_DEFAULT_PRIORITY : Z := 10.

(** The addresses of code that new threads start at. *)
Record entry_points := EntryPoints {
  at_kernel_thread : Z; at_switch_to_user_mode : Z; at_syscall_fork_exit : Z
}.

Section thread.
Context {M : Type} `{HeapSpace M}.

(** The state thread.c works on; [th_ids] is [thread_id_pool]. *)
Record threads := Threads {
  th_space : M;
  th_words : words;
  th_sched : sched;
  th_ids : id_pool_t
}.

Definition set_space (s : threads) (m : M) : threads := Threads m (th_words s) (th_sched s) (th_ids s).
Definition set_sched (s : threads) (sc : sched) : threads := Threads (th_space s) (th_words s) sc (th_ids s).
Definition set_ids (s : threads) (m : M) (st : words) (pool : id_pool_t) : threads :=
  Threads m st (th_sched s) pool.

(** A step on the space, and a write to fields of a thread. *)
Definition on_space (s : threads) (g : M -> outcome M) : outcome threads :=
  m ← g (th_space s); Ok (set_space s m).
Definition on_thread (s : threads) (thread : Z) (g : tcb_t -> tcb_t) : outcome threads :=
  sc ← update_thread (th_sched s) thread g; Ok (set_sched s sc).

(** ** Bytes of a control block and of a stack *)

(** The bytes of a string whose text is known, one after the other. *)
Fixpoint bs_puts (m : M) (p : Z) (bs : list Z) : outcome M :=
  match bs with
  | [] => Ok m
  | c :: bs => m ← bs_store m p c; bs_puts m (u32 (p + 1)) bs
  end.

(** [sprintf(buf, "<prefix>-%u", id); strcpy(name, buf);] *)
Definition default_name (prefix : list Z) (id : Z) : list Z := prefix ++ [45] ++ dec (s32 id).
Definition put_default_name (m : M) (dst : Z) (prefix : list Z) (id : Z) : outcome M :=
  bs_puts m dst (default_name prefix id ++ [0]).

(** [strcpy(name, s)] into the array of [NAME_SIZE] bytes at [dst]. *)
Definition put_name (m : M) (dst s : Z) : outcome M :=
  match bs_strcpy (Z.to_nat NAME_SIZE) m dst s with
  | Ok (m, _) => Ok m
  | NoFuel => Fault
  | Panic => Panic
  | Fault => Fault
  | Blocked => Blocked
  end.

(** Words at offsets from [p]. *)
Fixpoint store_fields (m : M) (p : Z) (l : list (Z * Z)) : outcome M :=
  match l with
  | [] => Ok m
  | (o, v) :: l => m ← bs_store32 m (u32 (p + o)) v; store_fields m p l
  end.

(** ** Creating a thread *)

(** [id_pool_init] leaves [junk] in the words of its map; [expand] of
    utils/id_pool.c returns [fallthrough]; an id that is not written is [no_id]. *)
Context (junk fallthrough no_id : Z) (code : entry_points).

Definition init_task_manager (s : threads) : outcome threads :=
  '(m, st, pool) ← id_pool_init junk (th_space s) (th_words s) 2048 32768;
  Ok (set_ids s m st pool).

(** [id_pool_allocate_id] of the thread ids: whether it reports success, and [id]. *)
Definition new_thread_id (s : threads) : outcome (threads * bool * Z) :=
  '(m, st, pool, ok, id) ← id_pool_allocate_id junk fallthrough (th_space s) (th_words s) (th_ids s);
  Ok (set_ids s m st pool, negb (ok =? 0), default no_id id).

Definition zero_tcb : tcb_t := Tcb 0 0 0 0 TASK_RUNNING 0 0 0 false 0.

Definition with_id (v : Z) (t : tcb_t) : tcb_t :=
  Tcb (t_kernel_esp t) (t_kernel_stack t) v (t_priority t) (t_status t) (t_ticks t) (t_process t)
    (t_user_stack_index t) (t_need_reschedule t) (t_preempt_count t).
Definition with_priority (priority : Z) (t : tcb_t) : tcb_t :=
  Tcb (t_kernel_esp t) (t_kernel_stack t) (t_id t) (u8 priority) TASK_READY 0 (t_process t)
    (-1) (t_need_reschedule t) (t_preempt_count t).
Definition with_stack (stack : Z) (t : tcb_t) : tcb_t :=
  Tcb (u32 (stack + KERNEL_STACK_SIZE - (INTERRUPT_STACK_SIZE + SWITCH_STACK_SIZE))) stack (t_id t)
    (t_priority t) (t_status t) (t_ticks t) (t_process t) (t_user_stack_index t) (t_need_reschedule t)
    (t_preempt_count t).

(** The block of a new thread. *)
Definition new_tcb (s : threads) : outcome (threads * Z) :=
  '(m, thread) ← a_malloc (th_space s) TCB_SIZE;
  m ← bs_memset m thread 0 TCB_SIZE;
  let s := set_space s m in
  Ok (set_sched s (set_tcbs (th_sched s) (<[thread := zero_tcb]> (s_tcbs (th_sched s)))), thread).

(** The kernel stack: its pages are mapped at once, and it is cleared. *)
Definition new_kernel_stack (m : M) : outcome (M * Z) :=
  '(m, kernel_stack) ← a_malloc_aligned m KERNEL_STACK_SIZE;
  m ← for_up (Z.to_nat (KERNEL_STACK_SIZE / PAGE_SIZE)) 0
        (fun i m => hs_map_page m (u32 (kernel_stack + i * PAGE_SIZE))) m;
  m ← bs_memset m kernel_stack 0 KERNEL_STACK_SIZE;
  Ok (m, kernel_stack).

(** [struct switch_stack] and [struct isr_params] as far as they are written. *)
Definition switch_fields (entry function : Z) : list (Z * Z) :=
  [(0, 0); (4, 0); (8, 0); (12, 0); (16, 0); (20, 0); (24, 0); (28, entry); (36, function)].
Definition interrupt_fields (function : Z) : list (Z * Z) :=
  [(0, SELECTOR_U_DATA); (4, 0); (8, 0); (12, 0); (16, 0); (20, 0); (24, 0); (28, 0); (32, 0);
   (44, function); (48, SELECTOR_U_CODE);
   (52, Z.lor (Z.lor EFLAGS_IOPL_0 EFLAGS_MBS) EFLAGS_IF_1); (60, SELECTOR_U_DATA)].

(** The frames at the top of the kernel stack, from [kernel_esp] on. *)
Definition init_frames (m : M) (kernel_esp function : Z) (user : bool) : outcome M :=
  m ← store_fields m kernel_esp (switch_fields (at_kernel_thread code) function);
  if user then
    m ← store_fields m kernel_esp [(28, at_switch_to_user_mode code)];
    store_fields m (u32 (kernel_esp + SWITCH_STACK_SIZE)) (interrupt_fields function)
  else Ok m.

(** [name] is null or a string; the result is null when no id is left. *)
Definition init_thread (s : threads) (thread name function priority : Z) (user : bool) :
    outcome (threads * Z) :=
  '(s, thread) ← (if thread =? 0 then new_tcb s else Ok (s, thread));
  '(s, ok, id) ← new_thread_id s;
  if negb ok then Ok (s, 0)
  else
    s ← on_thread s thread (with_id id);
    s ← on_space s (fun m =>
          if negb (name =? 0) then put_name m (u32 (thread + TCB_NAME)) name
          else put_default_name m (u32 (thread + TCB_NAME)) [116; 104; 114; 101; 97; 100] id);
    s ← on_thread s thread (with_priority priority);
    '(m, kernel_stack) ← new_kernel_stack (th_space s);
    s ← on_thread (set_space s m) thread (with_stack kernel_stack);
    t ← deref (s_tcbs (th_sched s) !! thread);
    s ← on_space s (fun m => init_frames m (t_kernel_esp t) function user);
    Ok (s, thread).

(** ** The stack of a user program *)

(** [while ((c != argv[i][j++]) != '\0') total_argv_length++;], where [c] is not
    initialised: the characters before the first one that equals it. *)
Fixpoint scan_arg (fuel : nat) (c : Z) (m : M) (argv i j total : Z) : outcome (M * Z) :=
  match fuel with
  | O => NoFuel
  | S fuel =>
      '(m, s) ← array_get m argv i;
      '(m, x) ← bs_load m (u32 (s + j));
      if negb (c =? x) then scan_arg fuel c m argv i (j + 1) (total + 1) else Ok (m, total)
  end.

(** The strings are copied upwards from [dst]; [args] are their addresses. *)
Definition copy_args (fuel : nat) (argv i : Z) (st : M * Z * list Z) : outcome (M * Z * list Z) :=
  let '(m, dst, args) := st in
  '(m, s) ← array_get m argv i;
  '(m, length) ← bs_strcpy fuel m dst s;
  Ok (m, u32 (dst + (length + 1)), args ++ [dst]).

Fixpoint store_args (m : M) (argv_start i : Z) (args : list Z) : outcome M :=
  match args with
  | [] => Ok m
  | a :: args => m ← bs_store32 m (u32 (argv_start + i * 4)) a; store_args m argv_start (i + 1) args
  end.

(** [c] is what the uninitialised local holds for each argument. *)
Definition prepare_user_stack (fuel : nat) (c : Z -> Z) (s : threads)
    (thread stack_top argc argv return_addr : Z) : outcome (threads * Z) :=
  '(m, total) ← for_up (Z.to_nat argc) 0 (fun i '(m, total) =>
      '(m, total) ← scan_arg fuel (c i) m argv i 0 total; Ok (m, total + 1)) (th_space s, 0);
  let stack_top := u32 (stack_top - total) / 4 * 4 in
  '(m, _, args) ← for_up (Z.to_nat argc) 0 (copy_args fuel argv) (m, stack_top, [u32 (thread + TCB_NAME)]);
  let stack_top := u32 (stack_top - (argc + 1) * 4) in
  let argv_start := stack_top in
  m ← store_args m argv_start 0 args;
  let stack_top := u32 (stack_top - 4) in
  m ← bs_store32 m stack_top argv_start;
  let stack_top := u32 (stack_top - 4) in
  m ← bs_store32 m stack_top (u32 (argc + 1));
  let stack_top := u32 (stack_top - 4) in
  m ← bs_store32 m stack_top return_addr;
  t ← deref (s_tcbs (th_sched s) !! thread);
  m ← bs_store32 m (u32 (t_kernel_esp t + SWITCH_STACK_SIZE + 56)) stack_top;
  Ok (set_space s m, stack_top).

(** ** Forking and destroying *)

(** The control block and its name are copied. *)
Definition copy_tcb (s : threads) (thread crt_thread : Z) : outcome threads :=
  m ← bs_memcpy (th_space s) thread crt_thread TCB_SIZE;
  t ← deref (s_tcbs (th_sched s) !! crt_thread);
  Ok (set_sched (set_space s m) (set_tcbs (th_sched s) (<[thread := t]> (s_tcbs (th_sched s))))).

(** The part after the allocation of the control block. *)
Definition fork_thread (s : threads) (crt_thread thread : Z) : outcome (threads * Z) :=
  s ← copy_tcb s thread crt_thread;
  '(s, ok, id) ← new_thread_id s;
  if negb ok then Ok (s, 0)
  else
    s ← on_thread s thread (with_id id);
    s ← on_space s (fun m => put_default_name m (u32 (thread + TCB_NAME)) [116; 104; 114; 101; 97; 100] id);
    s ← on_thread s thread (fun t => with_ticks 0 (t_need_reschedule t) t);
    '(m, kernel_stack) ← a_malloc_aligned (th_space s) KERNEL_STACK_SIZE;
    crt ← deref (s_tcbs (th_sched s) !! crt_thread);
    m ← bs_memcpy m kernel_stack (t_kernel_stack crt) KERNEL_STACK_SIZE;
    s ← on_thread (set_space s m) thread (with_stack kernel_stack);
    t ← deref (s_tcbs (th_sched s) !! thread);
    s ← on_space s (fun m => store_fields m (t_kernel_esp t) [(28, at_syscall_fork_exit code)]);
    Ok (s, thread).

Definition fork_crt_thread (s : threads) : outcome (threads * Z) :=
  crt_thread ← get_crt_thread (th_sched s);
  '(m, thread) ← a_malloc (th_space s) TCB_SIZE;
  if thread =? 0 then Ok (set_space s m, 0) else fork_thread (set_space s m) crt_thread thread.

Definition destroy_thread (s : threads) (thread : Z) : outcome threads :=
  t ← deref (s_tcbs (th_sched s) !! thread);
  st ← id_pool_free_id (th_words s) (th_ids s) (t_id t);
  m ← a_free (th_space s) (t_kernel_stack t);
  m ← a_free m thread;
  let sc := th_sched s in
  Ok (Threads m st (set_tcbs sc (delete thread (s_tcbs sc))) (th_ids s)).
End thread.
Arguments threads : clear implicits.
