(* ===== verification/ThreadSpec.v ===== *)
(** * Threads: what creating one leaves behind

    The contents of control blocks and stacks after the operations of [Thread],
    as patches of what the space held before. *)

From S2P Require Import Prelude.
From S2P Require Import Memory.
From S2P Require Import YieldLock.
From S2P Require Import Allocator.
From S2P Require Import Bitmap.
From S2P Require Import LinkedList.
From S2P Require Import IdPool.
From S2P Require Import KHeap.
From S2P Require Import KMalloc.
From S2P Require Import Paging.
From S2P Require Import CStdlib.
From S2P Require Import Scheduler.
From S2P Require Import AddressSpace.
From S2P Require Import VMem.
From S2P Require Import HeapSpace.
From S2P Require Import StrArray.
From S2P Require Import Gdt.
From S2P Require Import Thread.

(** ** Words *)

(** The words [ws] at [p]. *)
Definition words_at (f : Z -> Z) (p : Z) (ws : list Z) : Prop :=
  forall i w, ws !! i = Some w -> word32 f (p + 4 * Z.of_nat i) = w.

Lemma words_at_ext f g p ws :
  (forall b, p <= b < p + 4 * len ws -> f b = g b) -> words_at g p ws -> words_at f p ws.
Proof.
  intros Hfg Hw i w Hi. rewrite <- (Hw i w Hi). apply lookup_lt_Some in Hi.
  apply word32_slice, slice_ext. intros b Hb. apply Hfg. lia.
Qed.

Lemma words_at_store f p ws j v :
  words_at f p ws -> words_at (patch f (p + 4 * Z.of_nat j) (bytes32 v)) p (<[j := u32 v]> ws).
Proof.
  intros Hw i w Hi. destruct (decide (i = j)) as [->|Hne].
  - rewrite list_lookup_insert_Some in Hi. destruct Hi as [(_ & <- & _)|[? _]]; [apply word32_patch_in | done].
  - rewrite list_lookup_insert_ne in Hi by done.
    rewrite word32_patch_out by (change (len (bytes32 v)) with 4; lia). by apply Hw.
Qed.

Lemma words_at_app f p ws ws' :
  words_at f p (ws ++ ws') <-> words_at f p ws /\ words_at f (p + 4 * len ws) ws'.
Proof.
  split.
  - intros Hw. split; intros i w Hi.
    + apply Hw. by apply lookup_app_l_Some.
    + rewrite <- (Hw (length ws + i)%nat w); [f_equal; lia |].
      rewrite lookup_app_r by lia. by replace (length ws + i - length ws)%nat with i by lia.
  - intros [H1 H2] i w [Hi|[Hl Hi]]%lookup_app_Some; [by apply H1 |].
    rewrite <- (H2 _ w Hi). f_equal. lia.
Qed.

Lemma words_at_zero f p n : (forall b, p <= b < p + 4 * Z.of_nat n -> f b = 0) -> words_at f p (replicate n 0).
Proof.
  intros Hz i w [-> Hi]%lookup_replicate. unfold word32. rewrite !Hz by lia. done.
Qed.

(** The words of an array after the stores of [store_fields]. *)
Definition fields_patch (f : Z -> Z) (p : Z) (l : list (Z * Z)) : Z -> Z :=
  foldl (fun f '(o, v) => patch f (p + o) (bytes32 v)) f l.
Definition fields_words (ws : list Z) (l : list (Z * Z)) : list Z :=
  foldl (fun ws '(o, v) => <[Z.to_nat (o / 4) := u32 v]> ws) ws l.

Lemma words_at_fields f p ws l :
  words_at f p ws -> Forall (fun '(o, _) => 0 <= o /\ o mod 4 = 0) l ->
  words_at (fields_patch f p l) p (fields_words ws l).
Proof.
  revert f ws. induction l as [|[o v] l IH]; intros f ws Hw Hl; [done |].
  apply Forall_cons in Hl as [[Ho Hm] Hl]. apply IH; [|done].
  replace (p + o) with (p + 4 * Z.of_nat (Z.to_nat (o / 4))) by lia. by apply words_at_store.
Qed.

Lemma fields_patch_out f p l n b :
  Forall (fun '(o, _) => 0 <= o /\ o + 4 <= n) l -> b < p \/ p + n <= b -> fields_patch f p l b = f b.
Proof.
  revert f. induction l as [|[o v] l IH]; intros f Hl Hb; [done |].
  apply Forall_cons in Hl as [[? ?] Hl]. unfold fields_patch. cbn [foldl].
  etransitivity; [by apply (IH (patch f (p + o) (bytes32 v))) |].
  apply patch_out. change (len (bytes32 v)) with 4. lia.
Qed.

Section spec.
Context {M : Type} `{HeapSpace M}.

Lemma l_fields_spec L n l : forall (m : M) f p,
  lholds L m f -> usable p n -> Forall (fun '(o, _) => 0 <= o /\ o + 4 <= n) l ->
  may (store_fields m p l) (fun m' => lholds L m' (fields_patch f p l)).
Proof.
  induction l as [|[o v] l IH]; intros m f p Hm Hu Hl; cbn [store_fields fields_patch foldl].
  { by apply may_ret. }
  apply Forall_cons in Hl as [[? ?] Hl]. destruct (usable_u32 p n o Hu) as [-> _]; [lia |].
  eapply may_bind; [apply (l_store32_spec L m f); [done | eapply usable_sub; [exact Hu | lia | lia]] |].
  intros m1 Hm1. by apply IH.
Qed.

Lemma l_puts_spec L bs : forall (m : M) f p,
  lholds L m f -> usable p (len bs) -> Forall (fun c => 0 <= c < 256) bs ->
  may (bs_puts m p bs) (fun m' => lholds L m' (patch f p bs)).
Proof.
  induction bs as [|c bs IH]; intros m f p Hm Hu Hbs; cbn [bs_puts length] in *.
  { apply may_ret. eapply lholds_ext; [|exact Hm]. intros b. by rewrite patch_nil. }
  apply Forall_cons in Hbs as [Hc Hbs].
  eapply may_bind; [apply (l_store_spec L m f p); [done | apply Hu; lia] |].
  intros m1 Hm1. cbv beta in Hm1. rewrite u8_small in Hm1 by done.
  destruct (decide (bs = [])) as [->|Hne].
  - apply may_ret. exact Hm1.
  - assert (1 <= len bs) by (destruct bs; [done | cbn; lia]).
    destruct (usable_u32 p _ 1 Hu) as [-> _]; [lia |].
    eapply may_mono; [apply (IH m1 _ (p + 1) Hm1); [eapply usable_sub; [exact Hu | lia | lia] | done] |].
    intros m2 Hm2. eapply lholds_ext; [|exact Hm2]. intros b. by rewrite (patch_cons f p c).
Qed.

(** ** Kernel stacks *)

Lemma new_kernel_stack_spec L (m : M) f :
  lholds L m f -> Z.of_nat (size L) < capacity -> KERNEL_STACK_SIZE < request_limit ->
  may (new_kernel_stack m) (fun '(m', stack) => exists k,
    KERNEL_STACK_SIZE <= k /\ L !! stack = None /\ stack mod PAGE_SIZE = 0 /\
    lholds (<[stack := k]> L) m' (patch f stack (replicate (Z.to_nat KERNEL_STACK_SIZE) 0))).
Proof.
  intros Hm Hc Hreq. unfold new_kernel_stack.
  eapply may_bind; [apply (l_malloc_aligned_spec L m f); [done | done | unfold KERNEL_STACK_SIZE in *; lia] |].
  intros [m1 stack] (k & Hk & Hs & Hpg & Hm1).
  assert (<[stack := k]> L !! stack = Some k) as Hin by apply lookup_insert_eq.
  pose proof (block_usable _ _ _ stack KERNEL_STACK_SIZE k Hm1 Hin Hk) as Hu.
  eapply may_bind.
  { apply (may_for_up (fun _ m' => lholds (<[stack := k]> L) m' f)); [done |].
    intros i m2 Hi Hm2. unfold KERNEL_STACK_SIZE, PAGE_SIZE in *. change (8192 / 4096) with 2 in Hi.
    destruct (usable_u32 stack 8192 (i * 4096) Hu) as [-> _]; [lia |].
    apply (l_map_spec _ m2 f stack k); [done | done | lia]. }
  intros m2 Hm2. cbv beta in Hm2.
  eapply may_bind; [apply (l_memset_spec (<[stack := k]> L) m2 f stack 0 KERNEL_STACK_SIZE); [exact Hm2 | unfold KERNEL_STACK_SIZE; lia | done] |].
  intros m3 Hm3. apply may_ret. exists k. done.
Qed.

Context (code : entry_points).

(** The frames of a thread that has not run: what [resume_thread] pops, and for
    a user thread the end of an interrupt below it. *)
Definition user_frame (function user_esp : Z) : list Z :=
  [SELECTOR_U_DATA; 0; 0; 0; 0; 0; 0; 0; 0; 0; 0; function; SELECTOR_U_CODE; 514; user_esp; SELECTOR_U_DATA].
Definition first_words (function : Z) (user : bool) : list Z :=
  [0; 0; 0; 0; 0; 0; 0; if user then at_switch_to_user_mode code else at_kernel_thread code; 0; function] ++
  if user then user_frame function 0 else replicate 16 0.

Lemma switch_fields_ok entry function :
  Forall (fun '(o, _) => 0 <= o /\ o + 4 <= 40) (switch_fields entry function) /\
  Forall (fun '(o, _) => 0 <= o /\ o mod 4 = 0) (switch_fields entry function).
Proof. split; repeat constructor; lia. Qed.

Lemma interrupt_fields_ok function :
  Forall (fun '(o, _) => 0 <= o /\ o + 4 <= 64) (interrupt_fields function) /\
  Forall (fun '(o, _) => 0 <= o /\ o mod 4 = 0) (interrupt_fields function).
Proof. split; repeat constructor; lia. Qed.

Lemma switch_words entry function :
  fields_words (replicate 10 0) (switch_fields entry function) =
  [0; 0; 0; 0; 0; 0; 0; u32 entry; 0; u32 function].
Proof. reflexivity. Qed.

Lemma interrupt_words function :
  fields_words (replicate 16 0) (interrupt_fields function) =
  [SELECTOR_U_DATA; 0; 0; 0; 0; 0; 0; 0; 0; 0; 0; u32 function; SELECTOR_U_CODE; 514; 0; SELECTOR_U_DATA].
Proof. reflexivity. Qed.

Hypothesis Hcode : is_u32 (at_kernel_thread code) /\ is_u32 (at_switch_to_user_mode code).

Lemma init_frames_spec L (m : M) g esp function user :
  lholds L m g -> usable esp 104 -> (forall b, esp <= b < esp + 104 -> g b = 0) -> is_u32 function ->
  may (init_frames code m esp function user) (fun m' => exists g', lholds L m' g' /\
    words_at g' esp (first_words function user) /\
    forall b, b < esp \/ esp + 104 <= b -> g' b = g b).
Proof.
  intros Hm Hu Hz Hf. destruct Hcode as [Hk Hs]. unfold init_frames.
  destruct (switch_fields_ok (at_kernel_thread code) function) as [Hsw Hsw'].
  destruct (interrupt_fields_ok function) as [Hin Hin'].
  eapply may_bind; [apply (l_fields_spec L 40 _ m g esp Hm); [eapply usable_sub; [exact Hu | lia | lia] | done] |].
  intros m1 Hm1. cbv beta in Hm1. set (g1 := fields_patch g esp _) in *.
  assert (words_at g1 esp [0; 0; 0; 0; 0; 0; 0; at_kernel_thread code; 0; function]) as Hw1.
  { pose proof (words_at_fields g esp (replicate 10 0) (switch_fields (at_kernel_thread code) function)) as Hw.
    rewrite switch_words, !u32_small in Hw by done. apply Hw; [|done].
    apply words_at_zero. intros b Hb. apply Hz. lia. }
  assert (forall b, b < esp \/ esp + 40 <= b -> g1 b = g b) as Ho1.
  { intros b Hb. by apply (fields_patch_out g esp _ 40). }
  destruct user; cbn iota.
  2: { apply may_ret. exists g1. split; [done |]. split.
    - unfold first_words. apply words_at_app. split; [done |]. apply words_at_zero. cbn [length].
      intros b Hb. rewrite Ho1 by lia. apply Hz. lia.
    - intros b Hb. apply Ho1. lia. }
  assert (Forall (fun '(o, _) => 0 <= o /\ o + 4 <= 40) [(28, at_switch_to_user_mode code)]) as H28
    by (repeat constructor; lia).
  eapply may_bind; [apply (l_fields_spec L 40 _ m1 g1 esp Hm1); [eapply usable_sub; [exact Hu | lia | lia] | done] |].
  intros m2 Hm2. cbv beta in Hm2. set (g2 := fields_patch g1 esp _) in *.
  assert (words_at g2 esp [0; 0; 0; 0; 0; 0; 0; at_switch_to_user_mode code; 0; function]) as Hw2.
  { rewrite <- (u32_small (at_switch_to_user_mode code)) by done.
    apply (words_at_fields g1 esp [0; 0; 0; 0; 0; 0; 0; at_kernel_thread code; 0; function]
      [(28, at_switch_to_user_mode code)]); [done |]. repeat constructor; lia. }
  assert (forall b, b < esp \/ esp + 40 <= b -> g2 b = g b) as Ho2.
  { intros b Hb. unfold g2. rewrite (fields_patch_out g1 esp _ 40) by done. by apply Ho1. }
  unfold SWITCH_STACK_SIZE. destruct (usable_u32 esp 104 40 Hu) as [-> _]; [lia |].
  eapply may_mono; [apply (l_fields_spec L 64 _ m2 g2 (esp + 40) Hm2); [eapply usable_sub; [exact Hu | lia | lia] | done] |].
  intros m3 Hm3. exists (fields_patch g2 (esp + 40) (interrupt_fields function)). split; [exact Hm3 |].
  split.
  - unfold first_words. apply words_at_app. split.
    + eapply words_at_ext; [|exact Hw2]. cbn [length]. intros b Hb. apply (fields_patch_out g2 _ _ 64); [done | lia].
    + cbn [length]. change (4 * Z.of_nat 10) with 40. unfold user_frame.
      pose proof (words_at_fields g2 (esp + 40) (replicate 16 0) (interrupt_fields function)) as Hw.
      rewrite interrupt_words, !u32_small in Hw by done. apply Hw; [|done]. apply words_at_zero. intros b Hb. rewrite Ho2 by lia. apply Hz. lia.
  - intros b Hb. rewrite (fields_patch_out g2 _ _ 64) by (done || lia). apply Ho2. lia.
Qed.

(** A write to a thread whose control block is known. *)
Lemma on_thread_with (s : threads M) sc T thread t g :
  th_sched s = set_tcbs sc (<[thread := t]> T) ->
  on_thread s thread g = Ok (set_sched s (set_tcbs sc (<[thread := g t]> T))).
Proof.
  intros Es. unfold on_thread, update_thread. rewrite Es. cbn. rewrite lookup_insert_eq. cbn.
  by rewrite insert_insert_eq.
Qed.

Lemma may_on_space (s : threads M) g (P : M -> Prop) :
  may (g (th_space s)) P -> may (on_space s g) (fun s' => exists m, s' = set_space s m /\ P m).
Proof. intros Hg. unfold on_space. eapply may_bind; [exact Hg |]. intros m Hm. apply may_ret. by exists m. Qed.

(** ** The steps of [init_thread] *)

Lemma new_tcb_spec L s f :
  lholds L (th_space s) f -> Z.of_nat (size L) < capacity -> TCB_SIZE < request_limit ->
  may (new_tcb s) (fun '(s', thread) => exists k, TCB_SIZE <= k /\ L !! thread = None /\
    lholds (<[thread := k]> L) (th_space s') (patch f thread (replicate (Z.to_nat TCB_SIZE) 0)) /\
    th_words s' = th_words s /\ th_ids s' = th_ids s /\
    th_sched s' = set_tcbs (th_sched s) (<[thread := zero_tcb]> (s_tcbs (th_sched s)))).
Proof.
  intros Hm Hc Hreq. unfold new_tcb.
  eapply may_bind; [apply (l_malloc_spec L _ f); [done | done | unfold TCB_SIZE in *; lia] |].
  intros [m1 thread] (k & Hk & Hs & Hm1).
  assert (<[thread := k]> L !! thread = Some k) as Hin by apply lookup_insert_eq.
  pose proof (block_usable _ _ _ thread TCB_SIZE k Hm1 Hin Hk) as Hu.
  eapply may_bind; [apply (l_memset_spec (<[thread := k]> L) m1 f thread 0 TCB_SIZE); [exact Hm1 | unfold TCB_SIZE; lia | done] |].
  intros m2 Hm2. apply may_ret. exists k. done.
Qed.

Context (junk fallthrough no_id : Z).

(** What a step that takes an id leaves alone: all live blocks but the map of the ids. *)
Definition kept_blocks (map : Z) (L L' : gmap Z Z) : Prop :=
  forall p k, p <> map -> L !! p = Some k -> L' !! p = Some k.

Lemma new_thread_id_spec L s f ws free_id :
  lholds L (th_space s) f -> pool_wf (M := M) L (th_words s) (th_ids s) ws -> Z.of_nat (size L) < capacity ->
  fallthrough <> 0 -> 0 <= free_id < ip_max_size (th_ids s) -> taken ws free_id = false ->
  may (new_thread_id junk fallthrough no_id s) (fun '(s', ok, id) => exists ws' L',
    ok = true /\ lholds L' (th_space s') f /\ pool_wf (M := M) L' (th_words s') (th_ids s') ws' /\
    size L' = size L /\ th_sched s' = th_sched s /\
    0 <= id < ip_max_size (th_ids s) /\ taken ws id = false /\ (forall c, 0 <= c < id -> taken ws c = true) /\
    (forall c, taken ws' c = bool_decide (c = id) || taken ws c) /\
    kept_blocks (bm_array (ip_id_map (th_ids s))) L L' /\
    forall p, p <> bm_array (ip_id_map (th_ids s)) -> is_Some (L !! p) -> p <> bm_array (ip_id_map (th_ids s'))).
Proof.
  intros Hm Hp Hc Hft Hid Hfree. unfold new_thread_id.
  eapply may_bind; [by apply (l_allocate_id_spec junk fallthrough L _ f _ _ ws free_id) |].
  intros [[[[m st] pool] ok] id] (ws' & L' & i & -> & -> & Hm' & Hp' & Hsz & _ & Hi & Hf & Ht & Hs & Hk).
  apply may_ret. exists ws', L'. cbn. repeat (split; [done |]).
  split; [intros p k Hpm Hl; by apply Hk | intros p Hpm [k Hl]; by apply (Hk p k)].
Qed.

(** A name of at most 31 characters: the given one, or the default. *)
Lemma put_name_spec L (m : M) f dst name nm :
  lholds L m f -> usable dst NAME_SIZE -> string_at f name nm -> usable name (len nm + 1) ->
  len nm < NAME_SIZE -> dst + NAME_SIZE <= name \/ name + len nm + 1 <= dst ->
  may (put_name m dst name) (fun m' => lholds L m' (patch f dst (nm ++ [0]))).
Proof.
  intros Hm Hd Hat Hn Hl Hap. unfold put_name, NAME_SIZE in *.
  destruct (l_strcpy_spec L nm (Z.to_nat 32) m f dst name Hm) as [-> | ([m' n] & -> & _ & Hm')];
    [eapply usable_sub; [exact Hd | lia | lia] | done | done | lia | lia | by left |].
  by apply may_ret.
Qed.

Lemma default_name_ok prefix id :
  Forall (fun c => 0 < c < 256) prefix -> 0 <= id < 2147483648 ->
  Forall (fun c => 0 < c < 256) (default_name prefix id) /\ (length (default_name prefix id) <= length prefix + 11)%nat.
Proof.
  intros Hp Hid. unfold default_name. rewrite s32_small by (unfold is_s32; lia). split.
  - apply Forall_app. split; [done |]. constructor; [lia | apply dec_chars].
  - rewrite length_app. cbn [length app]. unfold dec. rewrite (proj2 (Z.ltb_ge id 0)) by lia. cbn [app].
    pose proof (digits_length DIGITS_FUEL 10 dec_digit id 10 ltac:(lia) ltac:(cbn; lia)). lia.
Qed.

Lemma kept_delete map L L' : kept_blocks map L L' -> delete map L ⊆ L'.
Proof. intros Hk. apply map_subseteq_spec. intros p k [Hne Hp]%lookup_delete_Some. by apply Hk. Qed.

Lemma kept_insert map L L' p k : kept_blocks map L L' -> L' !! p = None -> kept_blocks map L (<[p := k]> L').
Proof. intros Hk Hp q j Hq Hj. pose proof (Hk q j Hq Hj). rewrite lookup_insert_ne; [done | congruence]. Qed.

Lemma kept_weaken map L0 L L' : kept_blocks map L L' -> L0 ⊆ L -> kept_blocks map L0 L'.
Proof. intros Hk HL q j Hq Hj. apply Hk; [done | by eapply lookup_weaken]. Qed.

Lemma kept_apart (m : M) map L L' p n r k :
  alive m L' -> kept_blocks map L L' -> safe (delete map L) p n -> L' !! r = Some k -> L !! r = None ->
  p + n <= r \/ r + k <= p.
Proof.
  intros Hal Hk Hs Hr Hr'. eapply (safe_apart m (delete map L) L'); [done | by apply kept_delete | done | done |].
  by apply lookup_delete_None; right.
Qed.

(** The name of a thread: the string at [name], or one made of the id. *)
Definition thread_prefix : list Z := [116; 104; 114; 101; 97; 100].
Definition name_given (L : gmap Z Z) (f : Z -> Z) (name : Z) (nm : option (list Z)) : Prop :=
  match nm with
  | None => name = 0
  | Some s => name <> 0 /\ string_at f name s /\ usable name (len s + 1) /\ safe L name (len s + 1) /\
      len s < NAME_SIZE
  end.
Definition thread_text (nm : option (list Z)) (id : Z) : list Z := default (default_name thread_prefix id) nm.

(** The bytes of the name of a new thread. *)
Lemma name_step L (m : M) f name nm dst id :
  lholds L m f -> usable dst NAME_SIZE -> 0 <= id < 2147483648 ->
  match nm with
  | None => name = 0
  | Some s => name <> 0 /\ string_at f name s /\ usable name (len s + 1) /\ len s < NAME_SIZE /\
      (dst + NAME_SIZE <= name \/ name + len s + 1 <= dst)
  end ->
  may (if negb (name =? 0) then put_name m dst name else put_default_name m dst thread_prefix id)
    (fun m' => lholds L m' (patch f dst (thread_text nm id ++ [0]))) /\
  Forall (fun c => c <> 0) (thread_text nm id) /\ len (thread_text nm id) < NAME_SIZE.
Proof.
  intros Hm Hu Hid Hn. destruct nm as [nm|]; cbn [thread_text default] in *.
  - destruct Hn as (Hn & Hat & Hun & Hl & Hap). rewrite (proj2 (Z.eqb_neq name 0)) by done. cbn [negb].
    split; [by apply put_name_spec | split; [apply Hat | done]].
  - subst name. cbn [Z.eqb negb].
    destruct (default_name_ok thread_prefix id) as [Hc Hl]; [repeat constructor | done |].
    unfold thread_text. cbn [default]. cbn [length thread_prefix] in Hl.
    split; [| split; [eapply Forall_impl; [exact Hc | cbn; lia] | unfold NAME_SIZE; lia]].
    unfold put_default_name. apply l_puts_spec; [done | |].
    + eapply usable_sub; [exact Hu | lia | unfold NAME_SIZE; rewrite length_app; cbn [length]; lia].
    + apply Forall_app. split; [eapply Forall_impl; [exact Hc | cbn; lia] | constructor; [lia | done]].
Qed.

(** A block and an id that a step took for a thread, and what it left alone. *)
Record new_thread (L : gmap Z Z) (f : Z -> Z) (ws : list Z) (s s' : threads M) (thread stack id : Z)
    (t : tcb_t) (text : list Z) (L' : gmap Z Z) (f' : Z -> Z) : Prop := {
  nt_space : lholds L' (th_space s') f';
  nt_pool : exists ws', pool_wf (M := M) L' (th_words s') (th_ids s') ws' /\
    forall c, taken ws' c = bool_decide (c = id) || taken ws c;
  nt_id : 0 <= id < ip_max_size (th_ids s) /\ taken ws id = false /\ forall c, 0 <= c < id -> taken ws c = true;
  nt_sched : th_sched s' = set_tcbs (th_sched s) (<[thread := t]> (s_tcbs (th_sched s)));
  nt_apart : NoDup [thread; stack; bm_array (ip_id_map (th_ids s'))];
  nt_fresh : L !! thread = None /\ delete (bm_array (ip_id_map (th_ids s))) L !! stack = None /\ thread <> stack;
  nt_tcb : exists k, L' !! thread = Some k /\ TCB_SIZE <= k;
  nt_stack : (exists k, L' !! stack = Some k /\ KERNEL_STACK_SIZE <= k) /\ stack mod PAGE_SIZE = 0;
  nt_text : string_at f' (thread + TCB_NAME) text /\ len text < NAME_SIZE;
  nt_kept : kept_blocks (bm_array (ip_id_map (th_ids s))) L L';
  nt_size : size L' = S (S (size L));
  nt_frame : forall p n, safe (delete (bm_array (ip_id_map (th_ids s))) L) p n ->
    forall b, p <= b < p + n -> f' b = f b
}.

Definition first_esp (stack : Z) : Z := stack + KERNEL_STACK_SIZE - (INTERRUPT_STACK_SIZE + SWITCH_STACK_SIZE).
Definition ready_tcb (stack id priority : Z) : tcb_t :=
  Tcb (first_esp stack) stack id (u8 priority) TASK_READY 0 0 (-1) false 0.

(** The id of a thread whose block was allocated. *)
Lemma thread_id_step L (s : threads M) f ws free_id thread k :
  lholds (<[thread := k]> L) (th_space s) f -> L !! thread = None ->
  pool_wf (M := M) L (th_words s) (th_ids s) ws -> Z.of_nat (size L) + 1 < capacity -> fallthrough <> 0 ->
  0 <= free_id < ip_max_size (th_ids s) -> taken ws free_id = false ->
  may (new_thread_id junk fallthrough no_id s) (fun '(s', ok, id) => exists ws' L',
    ok = true /\ lholds L' (th_space s') f /\ pool_wf (M := M) L' (th_words s') (th_ids s') ws' /\
    size L' = S (size L) /\ th_sched s' = th_sched s /\
    (0 <= id < ip_max_size (th_ids s) /\ taken ws id = false /\ forall c, 0 <= c < id -> taken ws c = true) /\
    0 <= id < 2147483648 /\
    (forall c, taken ws' c = bool_decide (c = id) || taken ws c) /\
    kept_blocks (bm_array (ip_id_map (th_ids s))) (<[thread := k]> L) L' /\ L' !! thread = Some k /\
    thread <> bm_array (ip_id_map (th_ids s'))).
Proof.
  intros Hm HL Hp Hc Hft Hid Hfree.
  assert (size (<[thread := k]> L) = S (size L)) as Hsz by by apply map_size_insert_None.
  destruct (po_block _ _ _ _ Hp) as [kmap Hmap]. pose proof (po_max _ _ _ _ Hp) as Hmax.
  eapply may_mono; [apply (new_thread_id_spec (<[thread := k]> L) s f ws free_id); try (done || lia) |].
  { eapply pool_wf_mono; [|exact Hp]. intros q n Hq. exists n. rewrite lookup_insert_ne; [done | congruence]. }
  intros [[s2 ok] id] (ws' & L2 & -> & Hm2 & Hp2 & Hsz2 & Es2 & Hid2 & Hf2 & Hleast & Ht2 & Hk2 & Hmap2).
  exists ws', L2. repeat (split; [done || lia |]).
  assert (<[thread := k]> L !! thread = Some k) as HLt by apply lookup_insert_eq.
  split; [apply Hk2 | apply Hmap2]; done || congruence.
Qed.

(** What the two ways of making a thread have in common. *)
Lemma new_thread_made L f ws (s s2 s' : threads M) f1 f5 ws2 L2 thread k stack k4 id t text :
  lholds (<[stack := k4]> L2) (th_space s') f5 ->
  pool_wf (M := M) L2 (th_words s') (th_ids s') ws2 -> (forall c, taken ws2 c = bool_decide (c = id) || taken ws c) ->
  0 <= id < ip_max_size (th_ids s) /\ taken ws id = false /\ (forall c, 0 <= c < id -> taken ws c = true) ->
  th_sched s' = set_tcbs (th_sched s) (<[thread := t]> (s_tcbs (th_sched s))) ->
  kept_blocks (bm_array (ip_id_map (th_ids s))) (<[thread := k]> L) L2 -> size L2 = S (size L) ->
  thread <> bm_array (ip_id_map (th_ids s')) -> L !! thread = None -> L2 !! thread = Some k -> TCB_SIZE <= k ->
  L2 !! stack = None -> KERNEL_STACK_SIZE <= k4 -> stack mod PAGE_SIZE = 0 ->
  Forall (fun c => c <> 0) text -> len text < NAME_SIZE ->
  (forall b, b < thread \/ thread + TCB_SIZE <= b -> f1 b = f b) ->
  (forall b, b < stack \/ stack + KERNEL_STACK_SIZE <= b -> f5 b = patch f1 (thread + TCB_NAME) (text ++ [0]) b) ->
  new_thread L f ws s s' thread stack id t text (<[stack := k4]> L2) f5.
Proof.
  intros Hm Hp Hws Hid Es Hk Hsz Htm HLt HL2t Hkt HL2s Hks Hpg Htext Htl Hf1 Hf5.
  set (map := bm_array (ip_id_map (th_ids s))) in *.
  assert (<[stack := k4]> L2 !! stack = Some k4) as HL3s by apply lookup_insert_eq.
  assert (thread <> stack) as Hts by congruence.
  assert (<[stack := k4]> L2 !! thread = Some k) as HL3t by by rewrite lookup_insert_ne.
  pose proof (lholds_alive _ _ _ Hm) as Hal.
  pose proof (blocks_apart _ _ thread k stack k4 Hal HL3t HL3s Hts) as Hap.
  assert (kept_blocks map L (<[stack := k4]> L2)) as Hk3.
  { apply kept_insert; [|done]. apply (kept_weaken map L _ L2 Hk). by apply insert_subseteq. }
  assert (delete map L !! stack = None) as HLs.
  { apply eq_None_not_Some. intros [j [Hne Hj]%lookup_delete_Some].
    assert (L2 !! stack = Some j); [|congruence]. apply Hk; [done |]. rewrite lookup_insert_ne; [done | congruence]. }
  assert (len (text ++ [0]) = len text + 1) as Hlt by (rewrite length_app; cbn; lia).
  unfold TCB_SIZE, KERNEL_STACK_SIZE, NAME_SIZE, TCB_NAME in *.
  destruct (po_block _ _ _ _ Hp) as [j Hj].
  constructor; fold map; try done.
  - exists ws2. split; [|done]. eapply pool_wf_mono; [|exact Hp]. intros q n Hq. exists n.
    rewrite lookup_insert_ne; [done | congruence].
  - repeat (constructor; [rewrite ?not_elem_of_cons; split_and?; (apply not_elem_of_nil || congruence) |]). constructor.
  - by exists k.
  - split; [|done]. by exists k4.
  - split; [|done]. unfold TCB_NAME. eapply string_at_ext; [|by apply (string_at_patch f1)].
    intros b Hb. apply Hf5. lia.
  - rewrite map_size_insert_None by done. lia.
  - intros p n Hs b Hb.
    assert (p + n <= thread \/ thread + k <= p) by by apply (kept_apart _ map L _ p n thread k Hal).
    assert (p + n <= stack \/ stack + k4 <= p).
    { eapply (safe_apart _ (delete map L) _ p n stack k4 Hal); try done. by apply kept_delete. }
    rewrite Hf5, patch_out by lia. apply Hf1. lia.
Qed.

Lemma init_thread_spec L s f ws free_id name nm function priority user :
  lholds L (th_space s) f -> pool_wf (M := M) L (th_words s) (th_ids s) ws ->
  Z.of_nat (size L) + 1 < capacity -> KERNEL_STACK_SIZE < request_limit -> fallthrough <> 0 ->
  0 <= free_id < ip_max_size (th_ids s) -> taken ws free_id = false ->
  name_given L f name nm -> is_u32 function ->
  may (init_thread junk fallthrough no_id code s 0 name function priority user) (fun '(s', thread) =>
    exists stack id L' f', new_thread L f ws s s' thread stack id (ready_tcb stack id priority)
        (thread_text nm id) L' f' /\
      words_at f' (first_esp stack) (first_words function user)).
Proof.
  intros Hm Hp Hc Hreq Hft Hid Hfree Hnm Hfn. unfold init_thread. cbn [Z.eqb].
  eapply may_bind; [apply (new_tcb_spec L s f); [done | lia | unfold TCB_SIZE, KERNEL_STACK_SIZE in *; lia] |].
  intros [s1 thread] (k & Hk & HLt & Hm1 & Ew & Ei & Es).
  set (f1 := patch f thread _) in *. rewrite <- Ew, <- Ei in *.
  eapply may_bind; [by apply (thread_id_step L s1 f1 ws free_id thread k) |].
  intros [[s2 ok] id] (ws' & L2 & -> & Hm2 & Hp2 & Hsz2 & Es2 & Hid2 & Hid3 & Ht2 & Hk2 & HL2t & Htm). cbn [negb].
  pose proof (block_usable _ _ _ thread TCB_SIZE k Hm2 HL2t Hk) as Hut.
  rewrite Es in Es2. rewrite (on_thread_with _ _ _ _ _ _ Es2). cbn [mbind outcome_bind].
  destruct (usable_u32 thread TCB_SIZE TCB_NAME Hut) as [-> _]; [done |].
  destruct (name_step L2 (th_space s2) f1 name nm (thread + TCB_NAME) id) as (Hname & Htext & Htl).
  { done. }
  { eapply usable_sub; [exact Hut | unfold TCB_NAME; lia | unfold NAME_SIZE, TCB_NAME, TCB_SIZE; lia]. }
  { done. }
  { destruct nm as [nm|]; [|exact Hnm]. destruct Hnm as (? & Hat & ? & Hsafe & ?). split; [done |].
    assert (name + (len nm + 1) <= thread \/ thread + k <= name) as Hap.
    { apply (safe_apart (th_space s1) L (<[thread := k]> L) name (len nm + 1) thread k
        (lholds_alive _ _ _ Hm1)); [by apply insert_subseteq | done | apply lookup_insert_eq | done]. }
    unfold NAME_SIZE, TCB_NAME, TCB_SIZE in *.
    split; [| split; [done | split; [done | lia]]]. eapply string_at_ext; [|exact Hat].
    intros b Hb. apply patch_out. rewrite length_replicate. lia. }
  eapply may_bind; [apply may_on_space; exact Hname |]. intros s3 (m3 & -> & Hm3). cbv beta in Hm3.
  set (text := thread_text nm id) in *. set (f3 := patch f1 _ (text ++ [0])) in *. cbn [set_space th_space set_sched th_sched].
  erewrite on_thread_with by reflexivity. cbn [mbind outcome_bind set_space set_sched th_space th_sched].
  eapply may_bind; [apply (new_kernel_stack_spec L2 m3 f3); [exact Hm3 | lia | done] |].
  intros [m4 stack] (k4 & Hk4 & HL2s & Hpg & Hm4). set (f4 := patch f3 stack _) in *.
  erewrite on_thread_with by reflexivity. cbn [mbind outcome_bind set_space set_sched th_space th_sched th_words th_ids set_tcbs s_tcbs].
  rewrite lookup_insert_eq. cbn [deref mbind outcome_bind].
  assert (<[stack := k4]> L2 !! stack = Some k4) as HL3s by apply lookup_insert_eq.
  pose proof (block_usable _ _ _ stack KERNEL_STACK_SIZE k4 Hm4 HL3s Hk4) as Hus.
  cbn [with_stack t_kernel_esp].
  assert (u32 (stack + KERNEL_STACK_SIZE - (INTERRUPT_STACK_SIZE + SWITCH_STACK_SIZE)) = first_esp stack) as Hesp.
  { unfold first_esp. apply u32_small. destruct (Hus (stack + 8088)) as [? _]; [unfold KERNEL_STACK_SIZE; lia |].
    unfold is_u32, KERNEL_STACK_SIZE, INTERRUPT_STACK_SIZE, SWITCH_STACK_SIZE in *. lia. }
  rewrite Hesp.
  assert (stack <= first_esp stack /\ first_esp stack + 104 = stack + KERNEL_STACK_SIZE) as Htop
    by (unfold first_esp, KERNEL_STACK_SIZE, INTERRUPT_STACK_SIZE, SWITCH_STACK_SIZE; lia).
  assert (len (replicate (Z.to_nat KERNEL_STACK_SIZE) 0) = KERNEL_STACK_SIZE) as Hlen by (rewrite length_replicate; done).
  eapply may_bind.
  { apply may_on_space. apply (init_frames_spec (<[stack := k4]> L2) m4 f4 (first_esp stack) function user); [exact Hm4 | | | done].
    - eapply usable_sub; [exact Hus | lia | lia].
    - intros b Hb. apply patch_in; [|lia]. apply lookup_replicate. unfold KERNEL_STACK_SIZE in *. lia. }
  intros s5 (m5 & -> & f5 & Hm5 & Hw & Hframe). apply may_ret.
  exists stack, id, (<[stack := k4]> L2), f5. split; [|exact Hw].
  eapply (new_thread_made L f ws s s2 _ f1 f5 ws' L2 thread k stack k4 id); rewrite <- ?Ei; try done.
  - unfold ready_tcb. cbn [th_sched set_space set_sched]. unfold with_stack. rewrite Hesp. reflexivity.
  - intros b Hb. apply patch_out. rewrite length_replicate. unfold TCB_SIZE in *. lia.
  - intros b Hb. rewrite Hframe by lia. apply patch_out. lia.
Qed.

(** ** Forking *)

Definition fork_tcb (t : tcb_t) (stack id : Z) : tcb_t := with_stack stack (with_ticks 0 (t_need_reschedule t) (with_id id t)).

Lemma copy_tcb_spec L (s : threads M) f thread crt k t :
  lholds (<[thread := k]> L) (th_space s) f -> L !! thread = None -> TCB_SIZE <= k ->
  s_tcbs (th_sched s) !! crt = Some t -> usable crt TCB_SIZE -> safe L crt TCB_SIZE ->
  may (copy_tcb s thread crt) (fun s' =>
    lholds (<[thread := k]> L) (th_space s') (patch f thread (slice f crt TCB_SIZE)) /\
    th_words s' = th_words s /\ th_ids s' = th_ids s /\
    th_sched s' = set_tcbs (th_sched s) (<[thread := t]> (s_tcbs (th_sched s)))).
Proof.
  intros Hm HL Hk Ht Hu Hs. unfold copy_tcb.
  assert (<[thread := k]> L !! thread = Some k) as Hin by apply lookup_insert_eq.
  eapply may_bind.
  { apply (l_memcpy_spec (<[thread := k]> L) (th_space s) f thread crt TCB_SIZE Hm); [done | | done |].
    - by apply (block_usable _ _ _ thread TCB_SIZE k Hm).
    - destruct (safe_apart (th_space s) L (<[thread := k]> L) crt TCB_SIZE thread k
        (lholds_alive _ _ _ Hm)) as [?|?]; [by apply insert_subseteq | done | done | done | lia | lia]. }
  intros m1 Hm1. rewrite Ht. cbn. by apply may_ret.
Qed.

Lemma deref_bind {X Y} (x : X) (k : X -> outcome Y) : (deref (Some x) ≫= k) = k x.
Proof. done. Qed.

Lemma s_tcbs_set sc tcbs : s_tcbs (set_tcbs sc tcbs) = tcbs.
Proof. done. Qed.

(** The kernel stack of a forked thread is the copied one but for the word that
    the switch to the thread jumps to. *)
Definition forked_stack (f f' : Z -> Z) (from to : Z) : Prop :=
  word32 f' (first_esp to + 28) = u32 (at_syscall_fork_exit code) /\
  forall i, 0 <= i < KERNEL_STACK_SIZE -> i < 8116 \/ 8120 <= i -> f' (to + i) = f (from + i).

Lemma fork_crt_thread_spec L s f ws free_id crt t :
  lholds L (th_space s) f -> pool_wf (M := M) L (th_words s) (th_ids s) ws ->
  Z.of_nat (size L) + 1 < capacity -> KERNEL_STACK_SIZE < request_limit -> fallthrough <> 0 ->
  0 <= free_id < ip_max_size (th_ids s) -> taken ws free_id = false ->
  get_crt_thread (th_sched s) = Ok crt -> s_tcbs (th_sched s) !! crt = Some t ->
  usable crt TCB_SIZE -> safe L crt TCB_SIZE ->
  usable (t_kernel_stack t) KERNEL_STACK_SIZE ->
  safe (delete (bm_array (ip_id_map (th_ids s))) L) (t_kernel_stack t) KERNEL_STACK_SIZE ->
  may (fork_crt_thread junk fallthrough no_id code s) (fun '(s', thread) =>
    exists stack id L' f', new_thread L f ws s s' thread stack id (fork_tcb t stack id)
        (default_name thread_prefix id) L' f' /\
      forked_stack f f' (t_kernel_stack t) stack).
Proof.
  intros Hm Hp Hc Hreq Hft Hid Hfree Hcrt Ht Hucrt Hscrt Hufrom Hsfrom. unfold fork_crt_thread.
  rewrite Hcrt. cbn [mbind outcome_bind].
  eapply may_bind; [apply (l_malloc_spec L _ f TCB_SIZE); [done | lia | unfold TCB_SIZE, KERNEL_STACK_SIZE in *; lia] |].
  intros [m0 thread] (k & Hk & HLt & Hm0).
  destruct (block_range m0 _ thread k (lholds_alive _ _ _ Hm0)) as (_ & Hrange & _); [apply lookup_insert_eq |].
  rewrite (proj2 (Z.eqb_neq thread 0)) by lia. unfold fork_thread.
  assert (thread <> crt) as Htcrt.
  { intros ->. pose proof (safe_apart m0 L _ crt TCB_SIZE crt k (lholds_alive _ _ _ Hm0)) as Hap.
    unfold TCB_SIZE in *. destruct Hap; [by apply insert_subseteq | done | apply lookup_insert_eq | done | lia | lia]. }
  eapply may_bind; [by apply (copy_tcb_spec L (set_space s m0) f thread crt k t) |].
  intros s1 (Hm1 & Ew & Ei & Es). cbn [set_space th_words th_ids th_sched] in *. set (L1 := <[thread := k]> L) in *.
  rewrite <- Ew, <- Ei in *.
  set (f1 := patch f thread _) in *.
  eapply may_bind; [by apply (thread_id_step L s1 f1 ws free_id thread k) |].
  intros [[s2 ok] id] (ws' & L2 & -> & Hm2 & Hp2 & Hsz2 & Es2 & Hid2 & Hid3 & Ht2 & Hk2 & HL2t & Htm). cbn [negb].
  pose proof (block_usable _ _ _ thread TCB_SIZE k Hm2 HL2t Hk) as Hut.
  rewrite Es in Es2. rewrite (on_thread_with _ _ _ _ _ _ Es2). cbn [mbind outcome_bind].
  destruct (usable_u32 thread TCB_SIZE TCB_NAME Hut) as [-> _]; [done |].
  destruct (name_step L2 (th_space s2) f1 0 None (thread + TCB_NAME) id) as (Hname & Htext & Htl).
  { done. }
  { eapply usable_sub; [exact Hut | unfold TCB_NAME; lia | unfold NAME_SIZE, TCB_NAME, TCB_SIZE; lia]. }
  { done. }
  { done. }
  cbn [thread_text default] in *. set (text := default_name thread_prefix id) in *. cbn [Z.eqb negb] in Hname.
  eapply may_bind; [apply may_on_space; exact Hname |]. intros s3 (m3 & -> & Hm3). cbv beta in Hm3.
  set (f3 := patch f1 _ (text ++ [0])) in *. cbn [set_space th_space set_sched th_sched].
  erewrite on_thread_with by reflexivity. cbn [mbind outcome_bind set_space set_sched th_space th_sched].
  eapply may_bind; [apply (l_malloc_aligned_spec L2 m3 f3 KERNEL_STACK_SIZE); [exact Hm3 | lia | unfold KERNEL_STACK_SIZE in *; lia] |].
  intros [m4 stack] (k4 & Hk4 & HL2s & Hpg & Hm4).
  rewrite s_tcbs_set, lookup_insert_ne, Ht by done. rewrite deref_bind.
  assert (<[stack := k4]> L2 !! stack = Some k4) as HL3s by apply lookup_insert_eq.
  pose proof (block_usable _ _ _ stack KERNEL_STACK_SIZE k4 Hm4 HL3s Hk4) as Hus.
  set (from := t_kernel_stack t) in *.
  pose proof (lholds_alive _ _ _ Hm4) as Hal.
  set (map := bm_array (ip_id_map (th_ids s1))) in *.
  assert (<[stack := k4]> L2 !! thread = Some k) as HL3t by (rewrite lookup_insert_ne; [done | congruence]).
  assert (kept_blocks map L (<[stack := k4]> L2)) as Hk3.
  { apply kept_insert; [|done]. apply (kept_weaken map L _ L2 Hk2). by apply insert_subseteq. }
  assert (from + KERNEL_STACK_SIZE <= stack \/ stack + k4 <= from) as Hfs.
  { eapply (safe_apart _ (delete map L) _ _ _ stack k4 Hal); try done; [by apply kept_delete |].
    apply eq_None_not_Some. intros [j [Hne Hj]%lookup_delete_Some].
    assert (L2 !! stack = Some j); [|congruence]. apply Hk2; [done |]. rewrite lookup_insert_ne; [done | congruence]. }
  assert (from + KERNEL_STACK_SIZE <= thread \/ thread + k <= from) as Hft'
    by by apply (kept_apart _ map L _ from _ thread k Hal).
  eapply may_bind; [apply (l_memcpy_spec (<[stack := k4]> L2) m4 f3 stack from KERNEL_STACK_SIZE);
    [exact Hm4 | done | done | done | lia] |].
  intros m5 Hm5. cbv beta in Hm5. set (f5 := patch f3 stack _) in *.
  erewrite on_thread_with by reflexivity. cbn [mbind outcome_bind set_space set_sched th_space th_sched th_words th_ids].
  rewrite s_tcbs_set, lookup_insert_eq, deref_bind. cbn [with_stack t_kernel_esp].
  assert (u32 (stack + KERNEL_STACK_SIZE - (INTERRUPT_STACK_SIZE + SWITCH_STACK_SIZE)) = first_esp stack) as Hesp.
  { unfold first_esp. apply u32_small. destruct (Hus (stack + 8088)) as [? _]; [unfold KERNEL_STACK_SIZE; lia |].
    unfold is_u32, KERNEL_STACK_SIZE, INTERRUPT_STACK_SIZE, SWITCH_STACK_SIZE in *. lia. }
  rewrite Hesp.
  assert (first_esp stack = stack + 8088) as Htop by (unfold first_esp, KERNEL_STACK_SIZE, INTERRUPT_STACK_SIZE, SWITCH_STACK_SIZE; lia).
  assert (len (slice f3 from KERNEL_STACK_SIZE) = KERNEL_STACK_SIZE) as Hlen by (apply slice_length; done).
  unfold KERNEL_STACK_SIZE in *.
  assert (len (text ++ [0]) = len text + 1) as Hlt by (rewrite length_app; cbn; lia).
  unfold NAME_SIZE, TCB_SIZE, TCB_NAME in *.
  assert (Forall (fun '(o, _) => 0 <= o /\ o + 4 <= 40) [(28, at_syscall_fork_exit code)]) as H28
    by (repeat constructor; lia).
  eapply may_bind.
  { apply may_on_space. apply (l_fields_spec (<[stack := k4]> L2) 40 _ m5 f5 (first_esp stack)); [exact Hm5 | | exact H28].
    eapply usable_sub; [exact Hus | lia | lia]. }
  intros s6 (m6 & -> & Hm6). cbv beta in Hm6. set (f6 := fields_patch f5 _ _) in *.
  assert (forall b, b < stack + 8116 \/ stack + 8120 <= b -> f6 b = f5 b) as Hf6.
  { intros b Hb. unfold f6. cbn. apply patch_out. change (len (bytes32 _)) with 4. lia. }
  apply may_ret. exists stack, id, (<[stack := k4]> L2), f6. split.
  - eapply (new_thread_made L f ws s s2 _ f1 f6 ws' L2 thread k stack k4 id); rewrite <- ?Ei; try done.
    + intros b Hb. apply patch_out. rewrite slice_length by lia. unfold TCB_SIZE in *. lia.
    + unfold KERNEL_STACK_SIZE. intros b Hb. rewrite Hf6 by lia. apply patch_out. lia.
  - split; [unfold f6; cbn; apply word32_patch_in |]. intros i Hi Hi'. rewrite Hf6 by lia. unfold f5.
    unfold KERNEL_STACK_SIZE in *.
    rewrite (patch_in f3 stack _ (stack + i) (f3 (from + i))); [| | lia].
    + unfold f3, f1. rewrite patch_out by (rewrite Hlt; lia). apply patch_out. rewrite slice_length; lia.
    + replace (stack + i - stack) with i by lia. apply slice_lookup. lia.
Qed.

(** ** Destroying *)

Lemma taken_in ws id : taken ws id = true -> 0 <= id < 32 * Z.of_nat (length ws).
Proof. unfold taken. destruct (decide (in_bits ws id)) as [Hin|]; [by intros _ | done]. Qed.

Lemma destroy_thread_spec L (s : threads M) f ws thread t :
  lholds L (th_space s) f -> pool_wf (M := M) L (th_words s) (th_ids s) ws ->
  s_tcbs (th_sched s) !! thread = Some t -> taken ws (t_id t) = true ->
  is_Some (L !! thread) -> is_Some (L !! t_kernel_stack t) ->
  NoDup [thread; t_kernel_stack t; bm_array (ip_id_map (th_ids s))] ->
  exists s' ws', destroy_thread s thread = Ok s' /\ lholds (delete thread (delete (t_kernel_stack t) L)) (th_space s') f /\
    pool_wf (M := M) (delete thread (delete (t_kernel_stack t) L)) (th_words s') (th_ids s') ws' /\
    (forall c, taken ws' c = negb (bool_decide (c = t_id t)) && taken ws c) /\
    th_sched s' = set_tcbs (th_sched s) (delete thread (s_tcbs (th_sched s))).
Proof.
  intros Hm Hp Ht Hid HLt HLs Hnd. unfold destroy_thread. rewrite Ht. cbn [deref mbind outcome_bind].
  apply taken_in in Hid. pose proof (po_size _ _ _ _ Hp) as Hsz.
  destruct (id_pool_free_id_correct (H := holding_alloc f) (th_space s) L (th_words s) (th_ids s) ws (t_id t))
    as (st & ws' & -> & Hwf & Htk); [by apply pool_wf_ip | lia |].
  destruct (ip_pool_wf _ _ _ _ _ _ Hwf) as [Hp' _]; [apply Hp |].
  cbn [mbind outcome_bind].
  destruct (l_free_spec L (th_space s) f (t_kernel_stack t) Hm HLs) as (m1 & -> & Hm1). cbn [mbind outcome_bind].
  apply NoDup_cons in Hnd as [Hnt Hns]. apply NoDup_cons in Hns as [Hns _].
  apply not_elem_of_cons in Hnt as [Hts Htm]. apply not_elem_of_cons in Htm as [Htm _].
  apply not_elem_of_cons in Hns as [Hsm _].
  destruct (l_free_spec _ m1 f thread Hm1) as (m2 & -> & Hm2).
  { by rewrite lookup_delete_ne. }
  cbn [mbind outcome_bind]. eexists _, ws'. split; [reflexivity |]. cbn [th_space th_words th_ids th_sched].
  split; [done |]. split; [|done].
  destruct Hp'. constructor; try done.
  by rewrite !lookup_delete_ne.
Qed.

(** C8: a thread that [init_thread] makes has a control block of its own, ready to
    run, the least free id and its name; [destroy_thread] undoes it: the id is free
    again, as many blocks are live as before, the other threads and the bytes of all
    live blocks are as they were. *)
Theorem init_thread_destroy L s f ws free_id name nm function priority user :
  lholds L (th_space s) f -> pool_wf (M := M) L (th_words s) (th_ids s) ws ->
  Z.of_nat (size L) + 1 < capacity -> KERNEL_STACK_SIZE < request_limit -> fallthrough <> 0 ->
  0 <= free_id < ip_max_size (th_ids s) -> taken ws free_id = false ->
  name_given L f name nm -> is_u32 function ->
  (forall p, is_Some (s_tcbs (th_sched s) !! p) -> is_Some (L !! p)) ->
  may (init_thread junk fallthrough no_id code s 0 name function priority user) (fun '(s', thread) =>
    (exists stack id f', s_tcbs (th_sched s') !! thread = Some (ready_tcb stack id priority) /\
      taken ws id = false /\ (forall c, 0 <= c < id -> taken ws c = true) /\
      (forall b, bs_user b -> bs_view (th_space s') b = f' b) /\
      string_at f' (thread + TCB_NAME) (thread_text nm id) /\
      words_at f' (first_esp stack) (first_words function user)) /\
    exists s'' L'' f'' ws'', destroy_thread s' thread = Ok s'' /\
      lholds L'' (th_space s'') f'' /\ pool_wf (M := M) L'' (th_words s'') (th_ids s'') ws'' /\
      (forall c, taken ws'' c = taken ws c) /\ th_sched s'' = th_sched s /\ size L'' = size L /\
      kept_blocks (bm_array (ip_id_map (th_ids s))) L L'' /\
      forall p n, safe (delete (bm_array (ip_id_map (th_ids s))) L) p n ->
        forall b, p <= b < p + n -> f'' b = f b).
Proof.
  intros Hm Hp Hc Hreq Hft Hid Hfree Hnm Hfn Htcb.
  eapply may_mono; [by apply (init_thread_spec L s f ws free_id name nm function priority user) |].
  intros [s' thread] (stack & id & L' & f' & [] & Hw).
  destruct nt_pool0 as (ws' & Hp' & Hws'). destruct nt_id0 as (Hid' & Hidf & Hleast).
  destruct nt_tcb0 as (k & HLt & Hk). destruct nt_stack0 as [(k2 & HLs & Hk2) _].
  assert (s_tcbs (th_sched s') !! thread = Some (ready_tcb stack id priority)) as Ht
    by (rewrite nt_sched0; apply lookup_insert_eq).
  split.
  { exists stack, id, f'. split; [done |]. split; [done |]. split; [done |].
    split; [apply nt_space0 |]. split; [apply nt_text0 | done]. }
  destruct (destroy_thread_spec L' s' f' ws' thread (ready_tcb stack id priority))
    as (s'' & ws'' & He & Hm'' & Hp'' & Hws'' & Hs''); try done.
  { cbn. rewrite Hws'. by rewrite bool_decide_eq_true_2. }
  cbn [t_kernel_stack ready_tcb t_id] in *.
  pose proof nt_apart0 as Hnd. apply NoDup_cons in Hnd as [Hts _]. apply not_elem_of_cons in Hts as [Hts _].
  destruct nt_fresh0 as (HLt0 & HLs0 & _).
  exists s'', (delete thread (delete stack L')), f', ws''. split; [done |]. split; [done |]. split; [done |].
  split_and!.
  - intros c. rewrite Hws'', Hws'. destruct (bool_decide_reflect (c = id)) as [->|]; [by rewrite Hidf | done].
  - rewrite Hs'', nt_sched0. cbn. rewrite delete_insert_eq.
    rewrite delete_id; [by destruct (th_sched s) |].
    apply eq_None_not_Some. intros Hsome. destruct (Htcb _ Hsome). congruence.
  - rewrite !map_size_delete, (lookup_delete_ne L'), HLt, HLs by congruence. lia.
  - intros p j Hp0 Hj. assert (thread <> p) by congruence.
    assert (stack <> p) by (intros ->; rewrite lookup_delete_ne in HLs0 by congruence; congruence).
    rewrite !lookup_delete_ne by done. by apply nt_kept0.
  - done.
Qed.
End spec.

(** ** A first thread *)

(** Bytes in kernel memory, and a scheduler without threads. *)
Definition demo_sched : sched :=
  Sched ∅ ∅ linked_list_init 0 0 0 false ∅ false 0 0 0 0.
Definition demo_code : entry_points := EntryPoints 0xC0101000 0xC0102000 0xC0103000.
Definition demo_threads (p : Z) (bs : list Z) (sc : sched) : threads (mem * paging (A := kmem)) :=
  Threads (poke ∅ p bs, blank_space) ∅ sc (Build_id_pool_t 0 0 0 (Build_bitmap_t 0 false 0 0) yieldlock_init).

(** The state after [init_task_manager]. *)
Lemma demo_start p bs sc :
  Forall (fun c => 0 <= c < 256) bs -> KERNEL_BASE <= p ->
  is_panic (init_task_manager 0 (demo_threads p bs sc)) = false ->
  exists s ws L, init_task_manager 0 (demo_threads p bs sc) = Ok s /\
    lholds L (th_space s) (patch (fun _ => 0) p bs) /\
    pool_wf (M := mem * paging (A := kmem)) L (th_words s) (th_ids s) ws /\ ip_max_size (th_ids s) = 32768 /\
    Z.of_nat (size L) <= 1 /\ (forall c, taken ws c = false) /\ th_sched s = sc.
Proof.
  intros Hbs Hb Hno. unfold init_task_manager in *.
  destruct (l_id_pool_init_spec 0 ∅ (th_space (demo_threads p bs sc)) (patch (fun _ => 0) p bs)
    (th_words (demo_threads p bs sc)) 2048 32768 64) as [Hp | ([[m st] pool] & -> & ws & L & Hm & Hwf & Hmax & _ & HL & Ht)].
  - by apply blank_holds.
  - vm_compute. reflexivity.
  - lia.
  - lia.
  - lia.
  - lia.
  - reflexivity.
  - vm_compute. reflexivity.
  - rewrite Hp in Hno. discriminate Hno.
  - rewrite map_size_empty in HL. eexists _, ws, L. split; [reflexivity |].
    cbn [set_ids th_space th_words th_ids th_sched].
    exact (conj Hm (conj Hwf (conj Hmax (conj HL (conj Ht eq_refl))))).
Qed.

Lemma demo_code_ok : is_u32 (at_kernel_thread demo_code) /\ is_u32 (at_switch_to_user_mode demo_code).
Proof. vm_compute. repeat split; discriminate. Qed.

Lemma bytes_ok bs : forallb (fun c => (0 <=? c) && (c <? 256)) bs = true -> Forall (fun c => 0 <= c < 256) bs.
Proof. intros Hb. apply Forall_forall. intros c Hc. rewrite forallb_forall in Hb. specialize (Hb c). rewrite <- list_elem_of_In in Hb. specialize (Hb Hc). lia. Qed.

(** The text main. *)
Definition demo_name : list Z := [109; 97; 105; 110; 0].

Lemma demo_name_given L : name_given (M := mem * paging (A := kmem)) L (patch (fun _ => 0) 0xC0100000 demo_name)
  0xC0100000 (Some [109; 97; 105; 110]).
Proof.
  split; [done |]. split.
  { split; [repeat constructor; discriminate | vm_compute; reflexivity]. }
  split; [| split; [by left | done]]. intros b Hb. cbn in Hb.
  split; [unfold is_u32; lia | left; unfold KERNEL_BASE; lia].
Qed.

Lemma init_thread_destroy_witness :
  exists s s' thread s'', init_task_manager 0 (demo_threads 0xC0100000 demo_name demo_sched) = Ok s /\
    init_thread 0 1 7 demo_code s 0 0xC0100000 0xC0104000 5 true = Ok (s', thread) /\
    destroy_thread s' thread = Ok s'' /\ th_sched s'' = demo_sched.
Proof.
  assert (is_panic (s ← init_task_manager 0 (demo_threads 0xC0100000 demo_name demo_sched);
    init_thread 0 1 7 demo_code s 0 0xC0100000 0xC0104000 5 true) = false) as Hno by (vm_compute; reflexivity).
  destruct (demo_start 0xC0100000 demo_name demo_sched) as (s & ws & L & He & Hm & Hp & Hmax & HL & Ht & Hs).
  { apply bytes_ok. reflexivity. }
  { vm_compute. discriminate. }
  { vm_compute. reflexivity. }
  rewrite He in Hno. cbn [mbind outcome_bind] in Hno.
  destruct (init_thread_destroy demo_code demo_code_ok 0 1 7 L s _ ws 5 0xC0100000
    (Some [109; 97; 105; 110]) 0xC0104000 5 true Hm Hp) as [Hpa | ([s' thread] & Ei & _ & Hd)].
  - change capacity with (KHEAP_INDEX_NUM - 2). unfold KHEAP_INDEX_NUM. lia.
  - vm_compute. reflexivity.
  - lia.
  - rewrite Hmax. lia.
  - apply Ht.
  - apply demo_name_given.
  - vm_compute. split; congruence.
  - rewrite Hs. intros p [t Hlook]. discriminate Hlook.
  - rewrite Hpa in Hno. discriminate Hno.
  - destruct Hd as (s'' & L'' & f'' & ws'' & Ed & _ & _ & _ & Es & _). rewrite Hs in Es.
    exists s, s', thread, s''. exact (conj He (conj Ei (conj Ed Es))).
Defined.
