(* ===== verification/ThreadStack.v ===== *)
(** * Threads: the stack of a user program

    What [prepare_user_stack] leaves on the stack of a new user thread: the
    arguments as the main function of the program finds them. *)

From S2P Require Import Prelude.
From S2P Require Import Memory.
From S2P Require Import Allocator.
From S2P Require Import CStdlib.
From S2P Require Import Scheduler.
From S2P Require Import AddressSpace.
From S2P Require Import VMem.
From S2P Require Import HeapSpace.
From S2P Require Import StrArray.
From S2P Require Import Thread.
From S2P Require Import ThreadSpec.

(** Strings one after the other, and where each begins. *)
Definition packed (ss : list (list Z)) : list Z := concat (map (fun s => s ++ [0]) ss).
Fixpoint starts (base : Z) (ss : list (list Z)) : list Z :=
  match ss with [] => [] | s :: ss => base :: starts (base + len s + 1) ss end.

Lemma args_packed_app ss ss' : packed (ss ++ ss') = packed ss ++ packed ss'.
Proof. unfold packed. by rewrite map_app, concat_app. Qed.

Lemma packed_snoc ss s : packed (ss ++ [s]) = packed ss ++ s ++ [0].
Proof. rewrite args_packed_app. unfold packed at 2. cbn. by rewrite app_nil_r. Qed.

Lemma packed_cons_len s ss : len (packed (s :: ss)) = len s + 1 + len (packed ss).
Proof. unfold packed. cbn. rewrite !length_app. cbn. lia. Qed.

Lemma starts_length base ss : length (starts base ss) = length ss.
Proof. revert base. induction ss as [|s ss IH]; intros base; cbn; [done | by rewrite IH]. Qed.

Lemma starts_lookup ss : forall base i s, ss !! i = Some s ->
  starts base ss !! i = Some (base + len (packed (take i ss))) /\
  len (packed (take i ss)) + len s + 1 <= len (packed ss).
Proof.
  induction ss as [|s' ss IH]; intros base [|i] s Hi; try done; cbn [starts take].
  - injection Hi as <-. split; [cbn; f_equal; lia |]. rewrite packed_cons_len. cbn. lia.
  - change ((base :: starts (base + len s' + 1) ss) !! S i) with (starts (base + len s' + 1) ss !! i).
    destruct (IH (base + len s' + 1) i s Hi) as [-> Hl]. rewrite !packed_cons_len. split; [f_equal; lia | lia].
Qed.

Lemma starts_range base ss a : a ∈ starts base ss -> base <= a < base + len (packed ss).
Proof.
  intros [i Ha]%list_elem_of_lookup. pose proof (lookup_lt_Some _ _ _ Ha) as Hl. rewrite starts_length in Hl.
  destruct (lookup_lt_is_Some_2 ss i Hl) as [s Hs]. destruct (starts_lookup ss base i s Hs) as [He Hr].
  rewrite He in Ha. injection Ha as <-. lia.
Qed.

Lemma starts_snoc ss : forall base s, starts base (ss ++ [s]) = starts base ss ++ [base + len (packed ss)].
Proof.
  induction ss as [|s' ss IH]; intros base s; cbn [app starts].
  - cbn. by rewrite Z.add_0_r.
  - rewrite IH, packed_cons_len. do 3 f_equal. lia.
Qed.

(** Packed strings are strings. *)
Lemma packed_at f base ss i s :
  (forall b, base <= b < base + len (packed ss) -> f b = patch f base (packed ss) b) ->
  Forall (Forall (fun c => c <> 0)) ss -> ss !! i = Some s ->
  string_at f (base + len (packed (take i ss))) s.
Proof.
  intros Hf Hss Hi. pose proof (Forall_lookup_1 _ _ _ _ Hss Hi) as Hs.
  destruct (starts_lookup ss base i s Hi) as [_ Hr].
  assert (len (s ++ [0]) = len s + 1) as Hl by (rewrite length_app; cbn; lia).
  eapply string_at_ext; [|by apply (string_at_patch f)].
  intros b Hb. rewrite Hf by lia.
  assert (exists c, packed ss !! Z.to_nat (b - base) = Some c /\
    (s ++ [0]) !! Z.to_nat (b - (base + len (packed (take i ss)))) = Some c) as (c & Hc & Hc').
  { destruct (lookup_lt_is_Some_2 (s ++ [0]) (Z.to_nat (b - (base + len (packed (take i ss)))))) as [c Hc]; [lia |].
    exists c. split; [|done].
    rewrite <- (take_drop_middle ss i s Hi), args_packed_app. change (s :: drop (S i) ss) with ([s] ++ drop (S i) ss).
    rewrite args_packed_app, lookup_app_r by lia. change (packed [s]) with ((s ++ [0]) ++ []).
    rewrite app_nil_r, lookup_app_l by lia. rewrite <- Hc. f_equal. lia. }
  rewrite (patch_in f base _ b c Hc) by lia. symmetry. by apply patch_in; [|lia].
Qed.

(** A word pushed below others. *)
Lemma words_at_push f p w ws : is_u32 w -> words_at f p ws -> words_at (patch f (p - 4) (bytes32 w)) (p - 4) (w :: ws).
Proof.
  intros Hw Hws [|i] v Hi.
  - injection Hi as <-. rewrite Z.add_0_r, word32_patch_in. by apply u32_small.
  - rewrite <- (Hws i v Hi). rewrite word32_patch_out by (change (len (bytes32 w)) with 4; lia). f_equal. lia.
Qed.

Section stack.
Context {M : Type} `{HeapSpace M}.
Context (fuel : nat).

(** An argument vector above [lo]: no byte of it is on the stack below. *)
Record args_at (f : Z -> Z) (lo argv : Z) (ss : list (list Z)) : Prop := {
  aa_array : usable argv (4 * len ss) /\ (ss = [] \/ lo <= argv);
  aa_string : forall i s, ss !! i = Some s ->
    let q := word32 f (argv + 4 * Z.of_nat i) in
    string_at f q s /\ usable q (len s + 1) /\ lo <= q /\ (length s < fuel)%nat
}.

Lemma args_at_ext f g lo argv ss :
  (forall b, lo <= b -> g b = f b) -> args_at f lo argv ss -> args_at g lo argv ss.
Proof.
  intros Hfg []. constructor; [done |]. intros i s Hi. pose proof (lookup_lt_Some _ _ _ Hi).
  destruct aa_array0 as [_ [->|Ha]]; [done |].
  assert (word32 g (argv + 4 * Z.of_nat i) = word32 f (argv + 4 * Z.of_nat i)) as ->.
  { apply word32_slice, slice_ext. intros b Hb. apply Hfg. lia. }
  destruct (aa_string0 i s Hi) as (Hat & ? & Hq & ?). cbv zeta in *. split; [|done].
  eapply string_at_ext; [|exact Hat]. intros b Hb. apply Hfg. lia.
Qed.

Lemma arg_get L (m : M) f lo argv ss i s :
  lholds L m f -> args_at f lo argv ss -> ss !! i = Some s ->
  may (array_get m argv (Z.of_nat i)) (fun '(m', q) => lholds L m' f /\ string_at f q s /\
    usable q (len s + 1) /\ lo <= q /\ (length s < fuel)%nat).
Proof.
  intros Hm [[Hu _] Hstr] Hi. pose proof (lookup_lt_Some _ _ _ Hi).
  eapply may_mono; [apply (array_get_spec L m f argv (len ss)); [done | done | lia] |].
  intros [m' q] [-> Hm']. split; [done |]. by apply Hstr.
Qed.

(** ** Measuring the arguments *)

(** With [c] zero the loop counts the characters of the string. *)
Lemma scan_arg_spec L f lo argv ss i s : args_at f lo argv ss -> ss !! i = Some s ->
  forall fuel' (m : M) j total, lholds L m f -> 0 <= j <= len s -> (length s - Z.to_nat j < fuel')%nat ->
  may (scan_arg fuel' 0 m argv (Z.of_nat i) j total) (fun '(m', n) => lholds L m' f /\ n = total + (len s - j)).
Proof.
  intros Ha Hi. induction fuel' as [|fuel' IH]; intros m j total Hm Hj Hfu; [lia |]. cbn [scan_arg].
  eapply may_bind; [by apply (arg_get L m f lo argv ss i s) |].
  intros [m1 q] (Hm1 & [Hnz Hat] & Hu & Hq & _).
  eapply may_bind; [apply (l_load_at L m1 f q (len s + 1) j); [done | done | lia] |].
  intros [m2 x] [-> Hm2].
  assert (slice f q (len s + 1) !! Z.to_nat j = Some (f (q + j))) as Hx by (apply slice_lookup; lia).
  rewrite Hat in Hx. destruct (decide (j = len s)) as [->|Hne].
  - rewrite Nat2Z.id, list_lookup_middle in Hx by done. injection Hx as <-. cbn [Z.eqb negb].
    apply may_ret. split; [done | lia].
  - rewrite lookup_app_l in Hx by lia. pose proof (Forall_lookup_1 _ _ _ _ Hnz Hx) as Hne0.
    rewrite (proj2 (Z.eqb_neq 0 _)) by congruence. cbn [negb].
    eapply may_mono; [apply (IH m2 (j + 1) (total + 1) Hm2); lia |]. intros [m3 n] [Hm3 ->].
    split; [done | lia].
Qed.

Lemma scan_args_spec L f lo argv ss c (m : M) :
  args_at f lo argv ss -> lholds L m f -> (forall i, 0 <= i < len ss -> c i = 0) ->
  may (for_up (length ss) 0 (fun i '(m, total) =>
      '(m, total) ← scan_arg fuel (c i) m argv i 0 total; Ok (m, total + 1)) (m, 0))
    (fun '(m', total) => lholds L m' f /\ total = len (packed ss)).
Proof.
  intros Ha Hm Hc. eapply may_mono.
  - apply (may_for_up (fun i '(m', total) => lholds L m' f /\ total = len (packed (take (Z.to_nat i) ss))));
      [by split |].
    intros i [m1 total] Hi [Hm1 ->]. destruct (lookup_lt_is_Some_2 ss (Z.to_nat i)) as [s Hs]; [lia |].
    destruct (aa_string _ _ _ _ Ha _ _ Hs) as (_ & _ & _ & Hfu). rewrite Hc by lia.
    eapply may_bind.
    { replace i with (Z.of_nat (Z.to_nat i)) at 1 by lia.
      apply (scan_arg_spec L f lo argv ss (Z.to_nat i) s Ha Hs fuel m1 0); [done | lia | lia]. }
    intros [m2 n] [Hm2 ->]. apply may_ret. split; [done |].
    replace (Z.to_nat (i + 1)) with (S (Z.to_nat i)) by lia. rewrite (take_S_r ss _ s Hs), packed_snoc.
    rewrite !length_app. cbn [length]. lia.
  - intros [m' total] [Hm' ->]. split; [done |]. by rewrite Z.add_0_l, Nat2Z.id, take_ge by lia.
Qed.

(** ** Copying the arguments *)

Lemma copy_args_spec L f lo argv ss first base (m : M) :
  args_at f lo argv ss -> lholds L m f -> usable base (len (packed ss)) -> is_u32 base -> is_u32 (base + len (packed ss)) ->
  base + len (packed ss) <= lo ->
  may (for_up (length ss) 0 (copy_args fuel argv) (m, base, [first]))
    (fun '(m', _, args) => lholds L m' (patch f base (packed ss)) /\ args = first :: starts base ss).
Proof.
  intros Ha Hm Hu Hb0 Hb1 Hlo. eapply may_mono.
  - apply (may_for_up (fun i '(m', dst, args) => lholds L m' (patch f base (packed (take (Z.to_nat i) ss))) /\
      dst = base + len (packed (take (Z.to_nat i) ss)) /\ args = first :: starts base (take (Z.to_nat i) ss))).
    { cbn. rewrite Z.add_0_r. split; [|done]. eapply lholds_ext; [|exact Hm]. intros b. by rewrite patch_nil. }
    intros i [[m1 dst] args] Hi (Hm1 & -> & ->).
    destruct (lookup_lt_is_Some_2 ss (Z.to_nat i)) as [s Hs]; [lia |].
    destruct (starts_lookup ss base _ s Hs) as [_ Hr].
    replace (Z.to_nat (i + 1)) with (S (Z.to_nat i)) by lia. rewrite (take_S_r ss _ s Hs), packed_snoc, starts_snoc.
    set (before := take (Z.to_nat i) ss) in *. set (g := patch f base (packed before)) in *.
    assert (args_at g lo argv ss) as Hag.
    { apply (args_at_ext f); [|done]. intros b Hb. apply patch_out. lia. }
    unfold copy_args. replace i with (Z.of_nat (Z.to_nat i)) by lia.
    eapply may_bind; [by apply (arg_get L m1 g lo argv ss (Z.to_nat i) s) |].
    intros [m2 q] (Hm2 & Hat & Huq & Hq & Hfu).
    eapply may_bind.
    { apply (l_strcpy_spec L s fuel m2 g (base + len (packed before)) q); [done | | done | done | lia | done].
      eapply usable_sub; [exact Hu | lia | lia]. }
    intros [m3 n] [-> Hm3]. apply may_ret. split; [|split].
    + eapply lholds_ext; [|exact Hm3]. intros b. unfold g. symmetry. apply patch_app.
    + rewrite !length_app. cbn [length]. rewrite u32_small; [lia |].
      unfold is_u32 in *. lia.
    + done.
  - intros [[m' dst] args] (Hm' & _ & ->). by rewrite Z.add_0_l, Nat2Z.id, take_ge in * by lia.
Qed.

(** The array of the arguments' addresses. *)
Lemma store_args_spec L n args : forall (m : M) f p i,
  lholds L m f -> usable p n -> 0 <= i -> 4 * (i + len args) <= n -> Forall is_u32 args ->
  may (store_args m p i args) (fun m' => exists f', lholds L m' f' /\ words_at f' (p + 4 * i) args /\
    forall b, b < p + 4 * i \/ p + 4 * (i + len args) <= b -> f' b = f b).
Proof.
  induction args as [|a args IH]; intros m f p i Hm Hu Hi Hn Hargs; cbn [store_args length] in *.
  { apply may_ret. exists f. split; [done |]. split; [intros j w Hw; done | done]. }
  apply Forall_cons in Hargs as [Ha Hargs].
  replace (p + i * 4) with (p + 4 * i) by lia. destruct (usable_u32 p n (4 * i) Hu) as [-> _]; [lia |].
  eapply may_bind; [apply (l_store32_spec L m f); [done | eapply usable_sub; [exact Hu | lia | lia]] |].
  intros m1 Hm1. cbv beta in Hm1.
  eapply may_mono; [apply (IH m1 _ p (i + 1) Hm1 Hu); [lia | lia | done] |].
  intros m2 (f' & Hm2 & Hw & Hout). exists f'. split; [done |]. split.
  - intros [|j] w Hj; cbn in Hj.
    + injection Hj as <-. rewrite <- (u32_small a) by done. rewrite <- (word32_patch_in f (p + 4 * i) a).
      rewrite Z.add_0_r. apply word32_slice, slice_ext. intros b Hb. apply Hout. lia.
    + rewrite <- (Hw j w Hj). f_equal. lia.
  - intros b Hb. rewrite Hout by lia. apply patch_out. change (len (bytes32 a)) with 4. lia.
Qed.

(** ** The whole stack *)

(** What a program finds from its stack pointer [top] up: the address it returns to,
    the number of arguments, and their array, with the thread's name as the first. *)
Record user_stack (f : Z -> Z) (top hi thread return_addr : Z) (ss : list (list Z)) : Prop := {
  us_align : top mod 4 = 0;
  us_words : exists args, length args = length ss /\
    words_at f top ([return_addr; len ss + 1; top + 12; thread + TCB_NAME] ++ args) /\
    forall i a s, args !! i = Some a -> ss !! i = Some s ->
      string_at f a s /\ top + 16 + 4 * len ss <= a /\ a + len s + 1 <= hi
}.

(** The bytes the stack needs at most. *)
Definition stack_need (ss : list (list Z)) : Z := len (packed ss) + 3 + 4 * (len ss + 1) + 12.

Lemma prepare_user_stack_spec L s f thread stack_top argv ss return_addr t c :
  lholds L (th_space s) f -> args_at f stack_top argv ss -> (forall i, 0 <= i < len ss -> c i = 0) ->
  s_tcbs (th_sched s) !! thread = Some t -> usable (t_kernel_esp t) 104 -> stack_top <= t_kernel_esp t ->
  is_u32 stack_top -> stack_need ss <= stack_top -> usable (stack_top - stack_need ss) (stack_need ss) ->
  is_u32 return_addr -> is_u32 (thread + TCB_NAME) ->
  may (prepare_user_stack fuel c s thread stack_top (len ss) argv return_addr) (fun '(s', top) => exists f',
    s' = set_space s (th_space s') /\ lholds L (th_space s') f' /\
    stack_top - stack_need ss <= top /\ user_stack f' top stack_top thread return_addr ss /\
    word32 f' (t_kernel_esp t + 96) = top /\
    forall b, b < top \/ stack_top <= b -> b < t_kernel_esp t + 96 \/ t_kernel_esp t + 100 <= b -> f' b = f b).
Proof.
  intros Hm Ha Hc Ht Huk Hk Htop Hneed Hu Hret Hname. unfold prepare_user_stack. rewrite Nat2Z.id.
  unfold stack_need in *. set (total := len (packed ss)) in *.
  eapply may_bind; [by apply (scan_args_spec L f stack_top argv ss c) |].
  intros [m1 n] [Hm1 ->]. fold total. rewrite (u32_small (stack_top - total)) by (unfold is_u32 in *; lia).
  set (base := (stack_top - total) / 4 * 4).
  assert (stack_top - total - 3 <= base <= stack_top - total) as Hbase by lia.
  unfold TCB_NAME in *. rewrite (u32_small (thread + 12)) by done. eapply may_bind.
  { apply (copy_args_spec L f stack_top argv ss (thread + 12) base m1); try done; fold total.
    - eapply usable_sub; [exact Hu | lia | lia].
    - unfold is_u32 in *. lia.
    - unfold is_u32 in *. lia.
    - lia. }
  intros [[m2 dst] args] [Hm2 ->]. set (f2 := patch f base (packed ss)) in *.
  rewrite (u32_small (base - (len ss + 1) * 4)) by (unfold is_u32 in *; lia).
  set (argv_start := base - (len ss + 1) * 4) in *.
  eapply may_bind.
  { apply (store_args_spec L (4 * (len ss + 1)) (thread + 12 :: starts base ss) m2 f2 argv_start 0 Hm2).
    - eapply usable_sub; [exact Hu | lia | lia].
    - lia.
    - cbn [length]. rewrite starts_length. lia.
    - constructor; [done |]. apply Forall_forall. intros a Hin. apply starts_range in Hin.
      fold total in Hin. unfold is_u32 in *. lia. }
  intros m3 (f3 & Hm3 & Hw3 & Hf3). cbn [length] in Hf3. rewrite starts_length in Hf3.
  assert (forall b, b < argv_start \/ stack_top <= b -> f3 b = f b) as Hf30.
  { intros b Hb. rewrite Hf3 by lia. apply patch_out. fold total. lia. }
  rewrite Z.mul_0_r, Z.add_0_r in Hw3.
  rewrite (u32_small (argv_start - 4)), (u32_small (argv_start - 4 - 4)), (u32_small (argv_start - 4 - 4 - 4)),
    (u32_small (len ss + 1)) by (unfold is_u32 in *; lia).
  eapply may_bind; [apply (l_store32_spec L m3 f3); [done | eapply usable_sub; [exact Hu | lia | lia]] |].
  intros m4 Hm4. cbv beta in Hm4. set (f4 := patch f3 _ _) in *.
  eapply may_bind; [apply (l_store32_spec L m4 f4); [done | eapply usable_sub; [exact Hu | lia | lia]] |].
  intros m5 Hm5. cbv beta in Hm5. set (f5 := patch f4 _ _) in *.
  eapply may_bind; [apply (l_store32_spec L m5 f5); [done | eapply usable_sub; [exact Hu | lia | lia]] |].
  intros m6 Hm6. cbv beta in Hm6. set (f6 := patch f5 _ _) in *.
  rewrite Ht. cbn [deref mbind outcome_bind]. unfold SWITCH_STACK_SIZE.
  destruct (usable_u32 (t_kernel_esp t) 104 96 Huk) as [Hku _]; [lia |].
  replace (t_kernel_esp t + 40 + 56) with (t_kernel_esp t + 96) by lia. rewrite Hku.
  eapply may_bind; [apply (l_store32_spec L m6 f6); [done | eapply usable_sub; [exact Huk | lia | lia]] |].
  intros m7 Hm7. cbv beta in Hm7. set (top := argv_start - 4 - 4 - 4) in *. set (f7 := patch f6 _ _) in *.
  assert (is_u32 top /\ is_u32 argv_start /\ is_u32 (len ss + 1)) as (Htop32 & Has32 & Hn32) by (unfold is_u32 in *; lia).
  assert (forall v, len (bytes32 v) = 4) as Hl4 by done.
  assert (forall b, b < t_kernel_esp t + 96 \/ t_kernel_esp t + 100 <= b -> f7 b = f6 b) as Hf7.
  { intros b Hb. apply patch_out. rewrite Hl4. lia. }
  assert (forall b, b < top \/ argv_start <= b -> f6 b = f3 b) as Hf6.
  { intros b Hb. unfold f6, f5, f4. rewrite !patch_out; rewrite ?Hl4; [done | lia | lia | lia]. }
  apply may_ret. exists f7. split; [done |]. split; [exact Hm7 |]. split; [lia |]. split; [|split].
  - constructor; [lia |]. exists (starts base ss). split; [apply starts_length |]. split.
    + assert (words_at f6 top (return_addr :: len ss + 1 :: argv_start :: thread + 12 :: starts base ss)) as Hw6
        by (do 3 (apply words_at_push; [done |]); exact Hw3).
      replace (top + 12) with argv_start by lia. eapply words_at_ext; [|exact Hw6].
      intros b Hb. cbn [app length] in Hb. rewrite starts_length in Hb. apply Hf7. lia.
    + intros i a w Hai Hi. destruct (starts_lookup ss base i w Hi) as [He Hr]. rewrite He in Hai.
      injection Hai as <-. fold total in Hr. split; [|lia].
      apply packed_at; [| | done].
      * intros b Hb. fold total in Hb. rewrite Hf7, Hf6 by lia. rewrite Hf3 by lia. unfold f2.
        destruct (lookup_lt_is_Some_2 (packed ss) (Z.to_nat (b - base))) as [x Hx]; [lia |].
        rewrite (patch_in f base _ b x Hx), (patch_in f7 base _ b x Hx) by lia. done.
      * apply Forall_lookup. intros j x Hx. destruct (aa_string _ _ _ _ Ha j x Hx) as ([Hnz _] & _). done.
  - unfold f7. rewrite word32_patch_in. by apply u32_small.
  - intros b Hb Hb'. rewrite Hf7, Hf6, Hf30 by lia. done.
Qed.
End stack.
