(* ===== verification/Process.v ===== *)
(** * Processes (task/process.c, the rest of task/scheduler.c): data

    Control blocks of processes, with their three tables; the map of the processes
    and the lists of what is dead.  Every table has its nodes, pairs and arrays to
    itself, in blocks of the one kernel heap. *)

From S2P Require Import Prelude.
From S2P Require Import Memory.
From S2P Require Import YieldLock.
From S2P Require Import KHeap.
From S2P Require Import Allocator.
From S2P Require Import LinkedList.
From S2P Require Import Bitmap.
From S2P Require Import IdPool.
From S2P Require Import HashTable.
From S2P Require Import Paging.
From S2P Require Import CStdlib.
From S2P Require Import Scheduler.
From S2P Require Import Sync.
From S2P Require Import AddressSpace.
From S2P Require Import VMem.
From S2P Require Import HeapSpace.
From S2P Require Import Thread.

Inductive process_status : Type :=
  | PROCESS_NORMAL
  | PROCESS_EXIT
  | PROCESS_EXIT_ZOMBIE.

Definition USER_STACK_TOP : Z := 0xBFC00000.
Definition USER_STACK_SIZE : Z := 65536.
Definition USER_PRCOESS_THREDS_MAX : Z := 4096.
(** [sizeof(pcb_t)], and the offset of [name]. *)
Definition PCB_SIZE : Z := 124.
Definition PCB_NAME : Z := 4.

(** A hash table with its memory. *)
Record table := Table {
  tb_table : hash_table_t;
  tb_nodes : nodes;
  tb_kvs : gmap Z hash_table_kv_t;
  tb_buckets : gmap Z (list linked_list_t)
}.

(** A process.  Its [name] is bytes of the address space. *)
Record pcb_t := Pcb {
  pc_id : Z;
  pc_parent : Z;
  pc_status : process_status;
  pc_threads : table;
  pc_stacks : bitmap_t;
  pc_is_kernel : Z;
  pc_exit_code : Z;
  pc_children : table;
  pc_exit_children : table;
  pc_waiting_child_pid : Z;
  pc_waiting_thread_node : Z;
  pc_page_dir : Z;
  pc_page_dir_lock : yieldlock_t;
  pc_lock : yieldlock_t
}.

Definition pc_set_parent (v : Z) (p : pcb_t) : pcb_t :=
  Pcb (pc_id p) v (pc_status p) (pc_threads p) (pc_stacks p) (pc_is_kernel p) (pc_exit_code p) (pc_children p)
    (pc_exit_children p) (pc_waiting_child_pid p) (pc_waiting_thread_node p) (pc_page_dir p)
    (pc_page_dir_lock p) (pc_lock p).
Definition pc_set_exit (code : Z) (v : process_status) (p : pcb_t) : pcb_t :=
  Pcb (pc_id p) (pc_parent p) v (pc_threads p) (pc_stacks p) (pc_is_kernel p) code (pc_children p)
    (pc_exit_children p) (pc_waiting_child_pid p) (pc_waiting_thread_node p) (pc_page_dir p)
    (pc_page_dir_lock p) (pc_lock p).
Definition pc_set_threads (v : table) (p : pcb_t) : pcb_t :=
  Pcb (pc_id p) (pc_parent p) (pc_status p) v (pc_stacks p) (pc_is_kernel p) (pc_exit_code p) (pc_children p)
    (pc_exit_children p) (pc_waiting_child_pid p) (pc_waiting_thread_node p) (pc_page_dir p)
    (pc_page_dir_lock p) (pc_lock p).
Definition pc_set_is_kernel (v : Z) (p : pcb_t) : pcb_t :=
  Pcb (pc_id p) (pc_parent p) (pc_status p) (pc_threads p) (pc_stacks p) v (pc_exit_code p) (pc_children p)
    (pc_exit_children p) (pc_waiting_child_pid p) (pc_waiting_thread_node p) (pc_page_dir p)
    (pc_page_dir_lock p) (pc_lock p).
Definition pc_set_children (v : table) (p : pcb_t) : pcb_t :=
  Pcb (pc_id p) (pc_parent p) (pc_status p) (pc_threads p) (pc_stacks p) (pc_is_kernel p) (pc_exit_code p) v
    (pc_exit_children p) (pc_waiting_child_pid p) (pc_waiting_thread_node p) (pc_page_dir p)
    (pc_page_dir_lock p) (pc_lock p).
Definition pc_set_exit_children (v : table) (p : pcb_t) : pcb_t :=
  Pcb (pc_id p) (pc_parent p) (pc_status p) (pc_threads p) (pc_stacks p) (pc_is_kernel p) (pc_exit_code p)
    (pc_children p) v (pc_waiting_child_pid p) (pc_waiting_thread_node p) (pc_page_dir p)
    (pc_page_dir_lock p) (pc_lock p).
Definition pc_set_waiting (pid node : Z) (p : pcb_t) : pcb_t :=
  Pcb (pc_id p) (pc_parent p) (pc_status p) (pc_threads p) (pc_stacks p) (pc_is_kernel p) (pc_exit_code p)
    (pc_children p) (pc_exit_children p) pid node (pc_page_dir p) (pc_page_dir_lock p) (pc_lock p).
Definition pc_set_locks (dir lock : yieldlock_t) (p : pcb_t) : pcb_t :=
  Pcb (pc_id p) (pc_parent p) (pc_status p) (pc_threads p) (pc_stacks p) (pc_is_kernel p) (pc_exit_code p)
    (pc_children p) (pc_exit_children p) (pc_waiting_child_pid p) (pc_waiting_thread_node p) (pc_page_dir p)
    dir lock.

Section process.
Context {A : Type} `{BlockAllocator A}.
Abbreviation space := (mem * paging (A := A))%type.

(** The static variables of process.c and scheduler.c besides the scheduler's.
    [ts_dead_cv] is the address of the queue of [dead_resource_cv]. *)
Record tasks := Tasks {
  ts_threads : threads space;
  ts_pcbs : gmap Z pcb_t;
  ts_pids : id_pool_t;
  ts_map : table;
  ts_map_lock : yieldlock_t;
  ts_dead_nodes : nodes;
  ts_dead_tasks : linked_list_t;
  ts_dead_processes : linked_list_t;
  ts_dead_lock : yieldlock_t;
  ts_dead_cv : Z
}.

Definition t_space (s : tasks) : space := th_space (ts_threads s).
Definition t_sched (s : tasks) : sched := th_sched (ts_threads s).
Definition t_words (s : tasks) : words := th_words (ts_threads s).

Definition set_threads (s : tasks) (v : threads space) : tasks :=
  Tasks v (ts_pcbs s) (ts_pids s) (ts_map s) (ts_map_lock s) (ts_dead_nodes s) (ts_dead_tasks s)
    (ts_dead_processes s) (ts_dead_lock s) (ts_dead_cv s).
Definition set_pcbs (s : tasks) (v : gmap Z pcb_t) : tasks :=
  Tasks (ts_threads s) v (ts_pids s) (ts_map s) (ts_map_lock s) (ts_dead_nodes s) (ts_dead_tasks s)
    (ts_dead_processes s) (ts_dead_lock s) (ts_dead_cv s).
Definition set_map (s : tasks) (m : table) (l : yieldlock_t) : tasks :=
  Tasks (ts_threads s) (ts_pcbs s) (ts_pids s) m l (ts_dead_nodes s) (ts_dead_tasks s)
    (ts_dead_processes s) (ts_dead_lock s) (ts_dead_cv s).
Definition set_pids (s : tasks) (v : id_pool_t) : tasks :=
  Tasks (ts_threads s) (ts_pcbs s) v (ts_map s) (ts_map_lock s) (ts_dead_nodes s) (ts_dead_tasks s)
    (ts_dead_processes s) (ts_dead_lock s) (ts_dead_cv s).
Definition set_dead (s : tasks) (nds : nodes) (ts ps : linked_list_t) (l : yieldlock_t) : tasks :=
  Tasks (ts_threads s) (ts_pcbs s) (ts_pids s) (ts_map s) (ts_map_lock s) nds ts ps l (ts_dead_cv s).
Definition with_space (s : tasks) (m : space) : tasks := set_threads s (set_space (ts_threads s) m).
Definition with_words (s : tasks) (st : words) : tasks :=
  let t := ts_threads s in set_threads s (Threads (th_space t) st (th_sched t) (th_ids t)).
Definition with_sched (s : tasks) (sc : sched) : tasks := set_threads s (set_sched (ts_threads s) sc).

(** ** Steps *)

(** Fields of a process and of a thread written. *)
Definition get_pcb (s : tasks) (process : Z) : outcome pcb_t := deref (ts_pcbs s !! process).
Definition on_pcb (s : tasks) (process : Z) (f : pcb_t -> pcb_t) : outcome tasks :=
  p ← get_pcb s process; Ok (set_pcbs s (<[process := f p]> (ts_pcbs s))).
Definition get_tcb (s : tasks) (thread : Z) : outcome tcb_t := deref (s_tcbs (t_sched s) !! thread).
Definition on_tcb (s : tasks) (thread : Z) (f : tcb_t -> tcb_t) : outcome tasks :=
  sc ← update_thread (t_sched s) thread f; Ok (with_sched s sc).
Definition on_threads {R} (s : tasks) (f : threads space -> outcome (threads space * R)) : outcome (tasks * R) :=
  '(t, r) ← f (ts_threads s); Ok (set_threads s t, r).

(** [yieldlock_lock(&process->lock)] and its release. *)
Definition lock_pcb (s : tasks) (process : Z) : outcome tasks :=
  p ← get_pcb s process;
  l ← yieldlock_lock (pc_lock p);
  on_pcb s process (fun p => pc_set_locks (pc_page_dir_lock p) l p).
Definition unlock_pcb (s : tasks) (process : Z) : outcome tasks :=
  on_pcb s process (fun p => pc_set_locks (pc_page_dir_lock p) (yieldlock_unlock (pc_lock p)) p).

(** A step of the scheduler.  When it loads the page directory of another
    process, paging works on that, under that process's lock. *)
Definition load_dir (s : tasks) (old new : Z) : outcome tasks :=
  p ← get_pcb s new;
  let '(m, pg) := t_space s in
  let pcbs :=
    match ts_pcbs s !! old with
    | Some o => <[old := pc_set_locks (p_dir_lock pg) (pc_lock o) o]> (ts_pcbs s)
    | None => ts_pcbs s
    end in
  let pg := set_locks (reload_page_directory pg (pc_page_dir p)) (p_copy_lock pg) (pc_page_dir_lock p) in
  Ok (set_pcbs (with_space s (m, pg)) pcbs).
Definition on_sched (s : tasks) (g : sched -> outcome sched) : outcome tasks :=
  sc ← g (t_sched s);
  let old := s_page_dir (t_sched s) in
  let s := with_sched s sc in
  if s_page_dir sc =? old then Ok s else load_dir s old (s_page_dir sc).

(** ** Tables on the heap *)

Definition table_world (m : space) (t : table) : world A :=
  {| w_alloc := heap_of m; w_nodes := tb_nodes t; w_kvs := tb_kvs t; w_buckets := tb_buckets t |}.
Definition world_table (w : world A) (h : hash_table_t) : table :=
  Table h (w_nodes w) (w_kvs w) (w_buckets w).
Definition new_table (m : space) : outcome (space * table) :=
  '(w, h) ← hash_table_init (table_world m (Table (HT 0 0 0) ∅ ∅ ∅));
  Ok (with_heap m (w_alloc w), world_table w h).
Definition table_put (m : space) (t : table) (key v : Z) : outcome (space * table) :=
  '(w, h, _) ← hash_table_put (table_world m t) (tb_table t) key v;
  Ok (with_heap m (w_alloc w), world_table w h).
Definition table_get (m : space) (t : table) (key : Z) : outcome Z :=
  hash_table_get (table_world m t) (tb_table t) key.
Definition table_remove (m : space) (t : table) (key : Z) : outcome (space * table * Z) :=
  '(w, h, v) ← hash_table_remove (table_world m t) (tb_table t) key;
  Ok (with_heap m (w_alloc w), world_table w h, v).
Definition table_clear (m : space) (t : table) : outcome (space * table) :=
  '(w, h) ← hash_table_clear (table_world m t) (tb_table t);
  Ok (with_heap m (w_alloc w), world_table w h).
Definition table_destroy (m : space) (t : table) : outcome (space * table) :=
  '(w, h) ← hash_table_destroy (table_world m t) (tb_table t);
  Ok (with_heap m (w_alloc w), world_table w h).
(** The values of a table, which [hash_table_destroy] frees. *)
Definition table_values (t : table) : list Z := kv_v_ptr <$> (map_to_list (tb_kvs t)).*2.
End process.
