(* ===== verification/Tasks.v ===== *)
(** * Processes: operations (task/process.c, task/scheduler.c)

    Creating processes and their threads, fork, the parts of exec, wait
    and exit, and what becomes of dead threads and processes.  A call that blocks
    is cut into rounds where the thread leaves the processor: the state behind a
    round is the one the next thread finds. *)

From S2P Require Import Prelude.
From S2P Require Import Memory.
From S2P Require Import YieldLock.
From S2P Require Import KHeap.
From S2P Require Import Allocator.
From S2P Require Import LinkedList.
From S2P Require Import Bitmap.
From S2P Require Import IdPool.
From S2P Require Import HashTable.
From S2P Require Import Paging.
From S2P Require Import CStdlib.
From S2P Require Import Scheduler.
From S2P Require Import Sync.
From S2P Require Import AddressSpace.
From S2P Require Import VMem.
From S2P Require Import Elf.
From S2P Require Import HeapSpace.
From S2P Require Import StrArray.
From S2P Require Import Thread.
From S2P Require Import Process.

(** What the process layer knows of the code: the functions new threads run, and
    addresses of names in the kernel's read-only data. *)
Record kernel_text := KernelText {
  kt_code : entry_points;
  kt_schedule_thread_exit_normal : Z;
  kt_kernel_main_thread : Z; kt_kernel_clean_thread : Z; kt_kernel_init_thread : Z;
  kt_main_process_name : Z; kt_main_name : Z; kt_clean_name : Z; kt_init_name : Z
}.

Section tasks.
Context {A : Type} `{BlockAllocator A}.
Abbreviation space := (mem * paging (A := A))%type.
Abbreviation tasks := (tasks (A := A)).
(** As for the ids of threads; [fuel] bounds strings, [c] is what the
    uninitialised local of [prepare_user_stack] holds. *)
Context (junk fallthrough no_id : Z) (text : kernel_text) (fuel : nat) (c : Z -> Z).

(** [bool cond_var_notify] and the others of sync/ run on the scheduler. *)
Definition add_new_process (s : tasks) (process : Z) : outcome tasks :=
  l ← yieldlock_lock (ts_map_lock s);
  p ← get_pcb s process;
  '(m, t) ← table_put (t_space s) (ts_map s) (pc_id p) process;
  Ok (set_map (with_space s m) t (yieldlock_unlock l)).

(** [linked_list_append_ele] to a dead list, under its lock, and the notification. *)
Definition add_dead (s : tasks) (l : linked_list_t) (ptr : Z) : outcome (tasks * linked_list_t) :=
  '(m, st, l) ← linked_list_append_ele (t_space s) (ts_dead_nodes s) l ptr;
  let s := set_dead (with_space s m) st (ts_dead_tasks s) (ts_dead_processes s) (ts_dead_lock s) in
  s ← on_sched s (fun sc => cond_var_notify sc (ts_dead_cv s));
  Ok (s, l).
Definition add_dead_process (s : tasks) (process : Z) : outcome tasks :=
  l ← yieldlock_lock (ts_dead_lock s);
  let s := set_dead s (ts_dead_nodes s) (ts_dead_tasks s) (ts_dead_processes s) l in
  '(s, ps) ← add_dead s (ts_dead_processes s) process;
  Ok (set_dead s (ts_dead_nodes s) (ts_dead_tasks s) ps (yieldlock_unlock (ts_dead_lock s))).
Definition add_dead_task (s : tasks) (thread : Z) : outcome tasks :=
  l ← yieldlock_lock (ts_dead_lock s);
  let s := set_dead s (ts_dead_nodes s) (ts_dead_tasks s) (ts_dead_processes s) l in
  '(s, ts) ← add_dead s (ts_dead_tasks s) thread;
  Ok (set_dead s (ts_dead_nodes s) ts (ts_dead_processes s) (yieldlock_unlock (ts_dead_lock s))).

(** ** Creating processes and threads *)

Definition init_process_manager (s : tasks) : outcome tasks :=
  '(m, st, pool) ← id_pool_init junk (t_space s) (t_words s) 1024 16384;
  Ok (set_pids (with_words (with_space s m) st) pool).

Definition process_prefix : list Z := [112; 114; 111; 99; 101; 115; 115].

(** The control block; [name] is null or a string. *)
Definition new_pcb (s : tasks) (process id name is_kernel : Z) : outcome tasks :=
  m ← (if negb (name =? 0) then put_name (t_space s) (u32 (process + PCB_NAME)) name
       else put_default_name (t_space s) (u32 (process + PCB_NAME)) process_prefix id);
  '(m, threads) ← new_table m;
  '(m, st, stacks) ← bitmap_create junk m (t_words s) 0 USER_PRCOESS_THREDS_MAX;
  '(m, children) ← new_table m;
  '(m, exit_children) ← new_table m;
  '(pg, page_dir) ← clone_crt_page_dir m.2;
  let p := Pcb id 0 PROCESS_NORMAL threads stacks (u8 is_kernel) 0 children exit_children 0 0 page_dir
    yieldlock_init yieldlock_init in
  let s := with_words (with_space s (m.1, pg)) st in
  Ok (set_pcbs s (<[process := p]> (ts_pcbs s))).

Definition create_process (s : tasks) (name is_kernel : Z) : outcome (tasks * Z) :=
  '(m, process) ← a_malloc (t_space s) PCB_SIZE;
  m ← bs_memset m process 0 PCB_SIZE;
  '(m, st, pool, ok, id) ← id_pool_allocate_id junk fallthrough m (t_words s) (ts_pids s);
  let s := set_pids (with_words (with_space s m) st) pool in
  if ok =? 0 then Ok (s, 0)
  else
    s ← new_pcb s process (default no_id id) name is_kernel;
    s ← add_new_process s process;
    Ok (s, process).

Definition with_process (process : Z) (t : tcb_t) : tcb_t :=
  Tcb (t_kernel_esp t) (t_kernel_stack t) (t_id t) (t_priority t) (t_status t) (t_ticks t) process
    (t_user_stack_index t) (t_need_reschedule t) (t_preempt_count t).
Definition with_user_stack_index (v : Z) (t : tcb_t) : tcb_t :=
  Tcb (t_kernel_esp t) (t_kernel_stack t) (t_id t) (t_priority t) (t_status t) (t_ticks t) (t_process t)
    v (t_need_reschedule t) (t_preempt_count t).

Definition add_process_thread (s : tasks) (process thread : Z) : outcome tasks :=
  s ← on_tcb s thread (with_process process);
  s ← lock_pcb s process;
  p ← get_pcb s process;
  t ← get_tcb s thread;
  '(m, tb) ← table_put (t_space s) (pc_threads p) (t_id t) thread;
  s ← on_pcb (with_space s m) process (pc_set_threads tb);
  unlock_pcb s process.

Definition remove_process_thread (s : tasks) (process thread : Z) : outcome tasks :=
  s ← lock_pcb s process;
  p ← get_pcb s process;
  t ← get_tcb s thread;
  '(m, tb, removed_thread) ← table_remove (t_space s) (pc_threads p) (t_id t);
  s ← on_pcb (with_space s m) process (pc_set_threads tb);
  _ ← ASSERT (removed_thread =? thread);
  s ← on_tcb s thread (with_process 0);
  s ← (if 0 <=? t_user_stack_index t then
         st ← bitmap_clear_bit (t_words s) (pc_stacks p) (t_user_stack_index t); Ok (with_words s st)
       else Ok s);
  unlock_pcb s process.

Definition add_child_process (s : tasks) (parent child : Z) : outcome tasks :=
  s ← lock_pcb s parent;
  p ← get_pcb s parent;
  ch ← get_pcb s child;
  '(m, tb) ← table_put (t_space s) (pc_children p) (pc_id ch) child;
  s ← on_pcb (with_space s m) parent (pc_set_children tb);
  unlock_pcb s parent.

Definition new_thread_of (s : tasks) (name function : Z) (user : bool) : outcome (tasks * Z) :=
  on_threads s (fun t => init_thread junk fallthrough no_id (kt_code text) t 0 name function
    THREAD_DEFAULT_PRIORITY user).

Definition create_new_kernel_thread (s : tasks) (process name function : Z) : outcome (tasks * Z) :=
  '(s, thread) ← new_thread_of s name function false;
  s ← add_process_thread s process thread;
  Ok (s, thread).

(** The result is null when the process has no user stack left. *)
Definition create_new_user_thread (s : tasks) (process name user_function argc argv : Z) :
    outcome (tasks * Z) :=
  '(s, thread) ← new_thread_of s name user_function true;
  s ← add_process_thread s process thread;
  s ← lock_pcb s process;
  p ← get_pcb s process;
  '(st, r) ← bitmap_allocate_first_free (t_words s) (pc_stacks p);
  s ← unlock_pcb (with_words s st) process;
  match r with
  | None => Ok (s, 0)
  | Some stack_index =>
      s ← on_tcb s thread (with_user_stack_index (s32 stack_index));
      let thread_stack_top := u32 (USER_STACK_TOP - stack_index * USER_STACK_SIZE) in
      m ← hs_map_page (t_space s) (u32 (thread_stack_top - PAGE_SIZE));
      '(s, _) ← on_threads (with_space s m) (fun t =>
        prepare_user_stack fuel c t thread thread_stack_top argc argv (kt_schedule_thread_exit_normal text));
      Ok (s, thread)
  end.

(** [add_thread_to_schedule], on the kernel heap. *)
Definition schedule_new (s : tasks) (thread : Z) : outcome tasks :=
  '(m, sc) ← add_thread_to_schedule (t_space s) (t_sched s) thread;
  Ok (with_sched (with_space s m) sc).

(** ** Exit of a thread *)

Definition thread_dies (s : tasks) (thread : Z) : outcome tasks :=
  s ← on_tcb s thread (with_status TASK_DEAD);
  s ← add_dead_task s thread;
  on_sched s (fun sc => do_context_switch (disable_interrupt sc)).

Definition schedule_thread_exit (s : tasks) : outcome tasks :=
  thread ← get_crt_thread (t_sched s);
  t ← get_tcb s thread;
  s ← (if negb (t_process t =? 0) then remove_process_thread s (t_process t) thread else Ok s);
  thread_dies s thread.

(** ** Fork and exec *)

Definition release_user_space_pages (s : tasks) : outcome tasks :=
  let '(m, pg) := t_space s in
  pg ← release_pages pg (4 * 1024 * 1024) (767 * 1024) true;
  pg ← release_pages_tables pg 1 767;
  Ok (with_space s (m, pg)).

(** The new process's pid, or -1. *)
Definition process_fork (s : tasks) : outcome (tasks * Z) :=
  '(s, process) ← create_process s 0 0;
  s ← add_new_process s process;
  parent_process ← get_crt_process (t_sched s);
  s ← on_pcb s process (pc_set_parent parent_process);
  s ← add_child_process s parent_process process;
  '(s, thread) ← on_threads s (fork_crt_thread junk fallthrough no_id (kt_code text));
  if thread =? 0 then Ok (s, -1)
  else
    s ← add_process_thread s process thread;
    p ← get_pcb s process;
    t ← get_tcb s thread;
    st ← bitmap_set_bit (t_words s) (pc_stacks p) (u32 (t_user_stack_index t));
    s ← schedule_new (with_words s st) thread;
    Ok (s, s32 (pc_id p)).

(** [kfree] of the control blocks in a destroyed table. *)
Definition forget_threads (s : tasks) (vs : list Z) : tasks :=
  let sc := t_sched s in with_sched s (set_tcbs sc (foldr delete (s_tcbs sc) vs)).
Definition forget_processes (s : tasks) (vs : list Z) : tasks :=
  set_pcbs s (foldr delete (ts_pcbs s) vs).

(** The part of [process_exec] that leaves the process one thread. *)
Definition exec_threads (s : tasks) (process thread : Z) : outcome tasks :=
  p ← get_pcb s process;
  t ← get_tcb s thread;
  '(m, tb, keep_thread) ← table_remove (t_space s) (pc_threads p) (t_id t);
  _ ← ASSERT (keep_thread =? thread);
  '(m, _) ← table_destroy m tb;
  let s := forget_threads (with_space s m) (table_values tb) in
  s ← lock_pcb s process;
  t ← get_tcb s keep_thread;
  '(m, tb) ← new_table (t_space s);
  '(m, tb) ← table_put m tb (t_id t) thread;
  s ← on_pcb (with_space s m) process (pc_set_threads tb);
  st ← bitmap_clear (t_words s) (pc_stacks p);
  unlock_pcb (with_words s st) process.

(** The path and the arguments, copied to the heap. *)
Definition exec_copies (m : space) (path argc argv : Z) : outcome (space * Z * Z) :=
  '(m, args) ← copy_str_array fuel m argc argv;
  '(m, length) ← bs_strlen fuel m path;
  '(m, path_copy) ← a_malloc m (u32 (length + 1));
  '(m, _) ← bs_strcpy fuel m path_copy path;
  Ok (m, args, path_copy).

Definition exec_free (s : tasks) (argc args path_copy : Z) : outcome tasks :=
  m ← destroy_str_array (t_space s) argc args;
  m ← a_free m path_copy;
  Ok (with_space s m).

(** ** Exit and wait *)

(** The values of the tables are not freed by [hash_table_clear]. *)
Definition release_process_resources (s : tasks) (process : Z) : outcome tasks :=
  p ← get_pcb s process;
  '(m, st) ← bitmap_destroy (t_space s) (t_words s) (pc_stacks p);
  '(m, threads) ← table_clear m (pc_threads p);
  '(m, exit_children) ← table_destroy m (pc_exit_children p);
  let s := forget_processes (with_words (with_space s m) st) (table_values (pc_exit_children p)) in
  s ← on_pcb s process (fun p => pc_set_exit_children exit_children (pc_set_threads threads p));
  release_user_space_pages s.

(** The process of the current thread lets go of all it has; false when other
    threads still run in it. *)
Definition exit_release (s : tasks) (thread process exit_code : Z) : outcome (tasks * bool) :=
  s ← lock_pcb s process;
  p ← get_pcb s process;
  if 1 <? ht_size (tb_table (pc_threads p)) then s ← unlock_pcb s process; Ok (s, false)
  else
    t ← get_tcb s thread;
    '(m, tb, removed_thread) ← table_remove (t_space s) (pc_threads p) (t_id t);
    s ← on_pcb (with_space s m) process (pc_set_threads tb);
    _ ← ASSERT (removed_thread =? thread);
    s ← on_pcb s process (pc_set_exit exit_code PROCESS_EXIT);
    s ← release_process_resources s process;
    s ← on_tcb s thread (with_process 0);
    s ← unlock_pcb s process;
    Ok (s, true).

(** The parent gets the process among its exited children, and wakes up when it
    waits for it or for any. *)
Definition exit_notify (s : tasks) (process parent : Z) : outcome tasks :=
  s ← lock_pcb s parent;
  p ← get_pcb s process;
  pp ← get_pcb s parent;
  '(m, tb) ← table_put (t_space s) (pc_exit_children pp) (pc_id p) process;
  s ← on_pcb (with_space s m) parent (pc_set_exit_children tb);
  s ← (if (pc_waiting_child_pid pp =? pc_id p) || (pc_waiting_child_pid pp =? pc_id pp) then
         on_sched s (fun sc => add_thread_node_to_schedule sc (pc_waiting_thread_node pp))
       else Ok s);
  unlock_pcb s parent.

(** False when the call returns to its caller. *)
Definition process_exit (s : tasks) (exit_code : Z) : outcome (tasks * bool) :=
  thread ← get_crt_thread (t_sched s);
  t ← get_tcb s thread;
  let process := t_process t in
  p ← get_pcb s process;
  let parent := pc_parent p in
  '(s, ok) ← exit_release s thread process exit_code;
  if negb ok then Ok (s, false)
  else
    s ← exit_notify s process parent;
    s ← schedule_thread_exit s;
    Ok (s, true).

(** The exited child with which a wait for [pid] leaves its loop. *)
Definition take_exited (s : tasks) (process pid : Z) : outcome (tasks * option Z) :=
  p ← get_pcb s process;
  let exit_children := pc_exit_children p in
  '(m, tb, child) ←
    (if (pid =? 0) && (0 <? ht_size (tb_table exit_children)) then
       let w := table_world (t_space s) exit_children in
       let iter := hash_table_create_iterator in
       _ ← ASSERT (hash_table_iterator_has_next (tb_table exit_children) iter);
       '(_, kv_node) ← hash_table_iterator_next w (tb_table exit_children) iter;
       kv_node ← deref kv_node;
       kv ← deref (w_kvs w !! kv_node);
       '(m, tb, child) ← table_remove (t_space s) exit_children (kv_key kv);
       Ok (m, tb, Some child)
     else
       '(m, tb, child) ← table_remove (t_space s) exit_children pid;
       Ok (m, tb, if negb (child =? 0) then Some child else None));
  s ← on_pcb (with_space s m) process (pc_set_exit_children tb);
  Ok (s, child).

(** The body of the loop of [process_wait], entered with the lock held: the result
    of the call, or none when the thread blocked. *)
Definition wait_body (s : tasks) (process pid status : Z) : outcome (tasks * option Z) :=
  '(s, child) ← take_exited s process pid;
  match child with
  | Some child =>
      ch ← get_pcb s child;
      m ← (if negb (status =? 0) then bs_store32 (t_space s) status (u32 (pc_exit_code ch)) else Ok (t_space s));
      s ← unlock_pcb (with_space s m) process;
      s ← add_dead_process s child;
      Ok (s, Some 0)
  | None =>
      s ← on_pcb s process (fun p => pc_set_waiting (pc_waiting_child_pid p) (s_crt_thread_node (t_sched s)) p);
      s ← on_sched s schedule_mark_thread_block;
      s ← unlock_pcb s process;
      s ← on_sched s schedule_thread_yield;
      Ok (s, None)
  end.

Definition wait_process (s : tasks) : outcome Z :=
  thread ← node_thread (t_sched s) (get_crt_thread_node (t_sched s));
  t ← get_tcb s thread;
  Ok (t_process t).

Definition process_wait (s : tasks) (pid status : Z) : outcome (tasks * option Z) :=
  process ← wait_process s;
  s ← lock_pcb s process;
  p ← get_pcb s process;
  child ← (if 0 <? pid then table_get (t_space s) (pc_children p) pid else Ok 1);
  if child =? 0 then s ← unlock_pcb s process; Ok (s, Some (-1))
  else
    s ← on_pcb s process (fun p => pc_set_waiting (if 0 <? pid then pid else pc_id p) (pc_waiting_thread_node p) p);
    wait_body s process pid status.

(** The next round, when the thread runs again. *)
Definition process_wait_again (s : tasks) (pid status : Z) : outcome (tasks * option Z) :=
  process ← wait_process s;
  s ← lock_pcb s process;
  wait_body s process pid status.

(** ** Cleaning up *)

Definition destroy_process (s : tasks) (process : Z) : outcome tasks :=
  p ← get_pcb s process;
  let '(m, pg) := t_space s in
  f ← release_phy_frame (p_frames pg) (pc_page_dir p);
  let s := with_space s (m, set_frames pg f) in
  st ← id_pool_free_id (t_words s) (ts_pids s) (pc_id p);
  m ← a_free (t_space s) process;
  let s := with_words (with_space s m) st in
  Ok (set_pcbs s (delete process (ts_pcbs s))).

(** [while (receiver.size > 0) { ...; destroy(head->ptr); kfree(head); }] *)
Fixpoint clean_list (n : nat) (destroy : tasks -> Z -> outcome tasks) (s : tasks) (l : linked_list_t) :
    outcome tasks :=
  match n with
  | O => NoFuel
  | S n =>
      if 0 <? ll_size l then
        let head := ll_head l in
        '(st, l) ← linked_list_remove (ts_dead_nodes s) l head;
        nd ← deref (st !! head);
        s ← destroy s (n_ptr nd);
        m ← a_free (t_space s) head;
        clean_list n destroy
          (set_dead (with_space s m) (delete head st) (ts_dead_tasks s) (ts_dead_processes s) (ts_dead_lock s)) l
      else Ok s
  end.

Definition has_dead_resource (s : tasks) : bool :=
  (0 <? ll_size (ts_dead_processes s)) || (0 <? ll_size (ts_dead_tasks s)).

(** One iteration of [kernel_clean_thread], or of its wait. *)
Definition kernel_clean_round (s : tasks) : outcome tasks :=
  '(sc, lock, ok) ← cond_var_wait_round (t_sched s) (ts_dead_cv s) (ts_dead_lock s) (fun _ => has_dead_resource s);
  s ← on_sched s (fun _ => Ok sc);
  let s := set_dead s (ts_dead_nodes s) (ts_dead_tasks s) (ts_dead_processes s) lock in
  if negb ok then Ok s
  else
    let '(dead_tasks_receiver, dead_tasks) := linked_list_move linked_list_init (ts_dead_tasks s) in
    let '(dead_processes_receiver, dead_processes) := linked_list_move linked_list_init (ts_dead_processes s) in
    let s := set_dead s (ts_dead_nodes s) dead_tasks dead_processes (yieldlock_unlock (ts_dead_lock s)) in
    s ← clean_list (S (Z.to_nat (ll_size dead_tasks_receiver)))
          (fun s thread => t ← destroy_thread (ts_threads s) thread; Ok (set_threads s t))
          s dead_tasks_receiver;
    s ← clean_list (S (Z.to_nat (ll_size dead_processes_receiver))) destroy_process s dead_processes_receiver;
    on_sched s schedule_thread_yield.

(** ** The first threads *)

(** A thread's node, allocated and not scheduled. *)
Definition new_node (s : tasks) (thread : Z) : outcome (tasks * Z) :=
  '(m, node) ← a_malloc (t_space s) NODE_SIZE;
  let sc := t_sched s in
  Ok (with_sched (with_space s m) (set_ready sc (<[node := Node thread 0 0]> (s_nodes sc)) (s_ready_tasks sc)), node).

Definition set_main (sc : sched) (process node : Z) : sched :=
  Sched (s_tcbs sc) (s_nodes sc) (s_ready_tasks sc) node node process (s_main_in_ready_queue sc) (s_queues sc)
    (s_interrupt sc) (s_tss_esp sc) (s_page_dir sc) (s_esp sc) (s_tick sc).

(** The map of the threads is never used.  Up to the jump to [resume_thread], which enables interrupts and continues at the
    main thread's function. *)
Definition init_scheduler (s : tasks) : outcome tasks :=
  s ← on_sched s (fun sc => Ok (set_ready (disable_interrupt sc) (s_nodes sc) linked_list_init));
  '(m, map) ← new_table (t_space s);
  '(m, _) ← new_table m;
  let s := set_map (with_space s m) map yieldlock_init in
  let s := set_dead s (ts_dead_nodes s) linked_list_init linked_list_init yieldlock_init in
  s ← on_sched s (fun sc => Ok (cond_var_init sc (ts_dead_cv s)));
  '(s, main_process) ← create_process s (kt_main_process_name text) 1;
  '(s, main_thread) ← create_new_kernel_thread s main_process (kt_main_name text) (kt_kernel_main_thread text);
  '(s, main_thread_node) ← new_node s main_thread;
  s ← on_sched s (fun sc => Ok (set_main sc main_process main_thread_node));
  t ← get_tcb s main_thread;
  on_sched s (fun sc => Ok (enable_interrupt (set_esp sc (u32 (t_kernel_esp t + 28))))).

(** [kernel_init_thread] up to its call of [process_exec]. *)
Definition kernel_init_thread (s : tasks) : outcome tasks :=
  crt_process ← get_crt_process (t_sched s); on_pcb s crt_process (pc_set_is_kernel 0).

(** [multi_task_enabled = true] *)
Definition enable_multi (s : tasks) : tasks :=
  let '(m, pg) := t_space s in
  with_space s (m, {| p_mem := p_mem pg; p_cr0 := p_cr0 pg; p_cr3 := p_cr3 pg; p_crt := p_crt pg;
    p_frames := p_frames pg; p_cow := p_cow pg; p_copy_lock := p_copy_lock pg; p_multi := true;
    p_dir_lock := p_dir_lock pg; p_handlers := p_handlers pg |}).

(** Up to the idle loop. *)
Definition kernel_main_thread (s : tasks) : outcome tasks :=
  let main_process := s_main_process (t_sched s) in
  '(s, clean_thread) ← create_new_kernel_thread s main_process (kt_clean_name text) (kt_kernel_clean_thread text);
  '(s, kernel_clean_node) ← new_node s clean_thread;
  s ← on_sched s (fun sc => add_thread_node_to_schedule sc kernel_clean_node);
  '(s, init_process) ← create_process s 0 1;
  '(s, init_thread) ← create_new_kernel_thread s init_process (kt_init_name text) (kt_kernel_init_thread text);
  s ← schedule_new s init_thread;
  on_sched (enable_multi s) (fun sc => Ok (enable_interrupt sc)).
End tasks.
