(* ===== verification/ProcessInv.v ===== *)
(** * Processes: what holds between the steps of the task layer

    The tables of the processes are maps, the lists of the dead are apart, the
    scheduler's invariant holds and every page directory a switch may load is known. *)

From S2P Require Import Prelude.
From S2P Require Import Memory.
From S2P Require Import YieldLock.
From S2P Require Import Allocator.
From S2P Require Import LinkedList.
From S2P Require Import Bitmap.
From S2P Require Import HashTable.
From S2P Require Import HashTableInv.
From S2P Require Import HashTableSpec.
From S2P Require Import HashTableExpand.
From S2P Require Import HashTableMap.
From S2P Require Import HashTableIter.
From S2P Require Import Paging.
From S2P Require Import PagingCow.
From S2P Require Import CStdlib.
From S2P Require Import Scheduler.
From S2P Require Import SchedulerInv.
From S2P Require Import Sync.
From S2P Require Import AddressSpace.
From S2P Require Import VMem.
From S2P Require Import HeapSpace.
From S2P Require Import Thread.
From S2P Require Import Process.
From S2P Require Import Tasks.

Section spec.
Context {A : Type} `{BlockAllocator A}.
Abbreviation space := (mem * paging (A := A))%type.
Abbreviation tasks := (tasks (A := A)).

(** ** Tables *)

(** The table is the map [M], on a heap with the live blocks [L], and none of its
    blocks is one of [X]. *)
Definition table_is (m : space) (L : gmap Z Z) (t : table) (M : gmap Z Z) (X : Z -> Prop) : Prop :=
  sparing_table (table_world m t) L (tb_table t) M X.

Lemma table_is_alive m L t M X : table_is m L t M X -> alive (heap_of m) L.
Proof. apply sparing_alive. Qed.

(** A table depends on the heap only. *)
Lemma table_is_heap (m m' : space) L t M X :
  heap_of m' = heap_of m -> table_is m L t M X -> table_is m' L t M X.
Proof. unfold table_is, table_world. by intros ->. Qed.

Lemma table_is_malloc m L t M X a p k :
  table_is m L t M X -> alive a (<[p := k]> L) -> L !! p = None ->
  table_is (with_heap m a) (<[p := k]> L) t M (fun x => x = p \/ X x).
Proof. apply sparing_malloc. Qed.

Lemma table_get_is m L t M X key : table_is m L t M X -> table_get m t key = Ok (default 0 (M !! key)).
Proof. intros Ht. apply sparing_is_table, hash_table_lookup_spec with (key := key) in Ht as [Ht _]. exact Ht. Qed.

Lemma table_put_is m L t M X key v :
  table_is m L t M X -> is_u32 key -> Z.of_nat (size L) + 2 < capacity -> may_grow (tb_table t) ->
  may (table_put m t key v) (fun '(m', t') => exists a L', m' = with_heap m a /\
    table_is m' L' t' (<[key := v]> M) X /\ (size L' <= size L + 2)%nat /\
    ht_buckets_num (tb_table t') <= 2 * ht_buckets_num (tb_table t)).
Proof.
  intros Ht Hk Hc Hg. unfold table_put.
  destruct (sparing_put _ _ _ _ _ key v Ht Hk Hc Hg) as [->|(w' & L' & t' & -> & Ht' & Hn & HL)]; [by left | right].
  cbn [mbind outcome_bind]. eexists. split; [reflexivity |]. exists (w_alloc w'), L'. split; [done |].
  split; [by destruct w' |]. split; [done |]. destruct Ht as [_ Hnum _]. unfold INITIAL_BUCKETS_NUM in Hnum. cbn. lia.
Qed.

Lemma table_remove_is m L t M X key :
  table_is m L t M X ->
  exists a L' t', table_remove m t key = Ok (with_heap m a, t', default 0 (M !! key)) /\
    table_is (with_heap m a) L' t' (delete key M) X /\ (size L' <= size L)%nat /\
    ht_buckets_num (tb_table t') = ht_buckets_num (tb_table t).
Proof.
  intros Ht. unfold table_remove.
  destruct (sparing_remove _ _ _ _ _ key Ht (sparing_size _ _ _ _ _ Ht)) as (w' & L' & t' & -> & Ht' & Hn & HL).
  cbn [mbind outcome_bind]. exists (w_alloc w'), L', (world_table w' t'). split; [done |].
  split; [by destruct w' |]. split; [|done]. case_decide; [lia | by destruct HL as [-> _]].
Qed.

(** A new table is empty, on any later heap where its array is live. *)
Lemma new_table_is (m : space) L :
  alive (heap_of m) L -> Z.of_nat (size L) < capacity -> INITIAL_BUCKETS_NUM * LIST_SIZE < request_limit (A := A) ->
  may (new_table m) (fun '(m', t) => exists a p k, m' = with_heap m a /\ L !! p = None /\
    alive a (<[p := k]> L) /\ ht_buckets_num (tb_table t) = INITIAL_BUCKETS_NUM /\
    forall m2 L2 X, alive (heap_of m2) L2 -> is_Some (L2 !! p) ->
      (forall x, X x -> is_Some (L2 !! x) /\ x <> p) -> table_is m2 L2 t ∅ X).
Proof.
  intros Ha Hc Hr. unfold new_table.
  destruct (hash_table_init_rep (table_world m (Table (HT 0 0 0) ∅ ∅ ∅)) L Ha Hc Hr)
    as [->|(w' & p & k & bl & -> & Hp & Hrep)]; [by left | right].
  cbn [mbind outcome_bind]. eexists. split; [reflexivity |]. exists (w_alloc w'), p, k.
  split; [done |]. split; [done |]. split; [by destruct Hrep |]. split; [done |].
  intros m2 L2 X Ha2 Hp2 HX. constructor; [|done..].
  exists bl, (replicate (Z.to_nat INITIAL_BUCKETS_NUM) []). rewrite concat_nil_replicate. split.
  - destruct Hrep. rewrite concat_nil_replicate in *. constructor; rewrite ?concat_nil_replicate; try done.
    + by destruct hr_tbl.
    + intros x Hx. apply list_elem_of_singleton in Hx as ->. exact Hp2.
  - split; [done |]. intros x Hx. destruct (HX x Hx) as [? ?]. split; [done |]. by apply not_elem_of_cons; split; [|apply not_elem_of_nil].
Qed.

(** ** The scheduler and the page directories *)

(** The page directory of the process that [s_page_dir] names is loaded. *)
Definition dir_loaded (s : tasks) : Prop :=
  exists p, ts_pcbs s !! s_page_dir (t_sched s) = Some p /\ p_crt (t_space s).2 = pc_page_dir p.

(** Every thread's process exists, the idle one too. *)
Definition dirs_known (s : tasks) : Prop :=
  is_Some (ts_pcbs s !! s_main_process (t_sched s)) /\
  forall p t, s_tcbs (t_sched s) !! p = Some t -> t_process t <> 0 -> is_Some (ts_pcbs s !! t_process t).

Lemma on_sched_same (s : tasks) g sc :
  g (t_sched s) = Ok sc -> s_page_dir sc = s_page_dir (t_sched s) -> on_sched s g = Ok (with_sched s sc).
Proof. intros Hg Hd. unfold on_sched. rewrite Hg. cbn. by rewrite Hd, Z.eqb_refl. Qed.

(** The same process: all but the lock of the directory, which paging holds while
    it is loaded. *)
Definition same_pcb (p q : pcb_t) : Prop := exists l, q = pc_set_locks l (pc_lock p) p.

Lemma same_pcb_refl p : same_pcb p p.
Proof. exists (pc_page_dir_lock p). by destruct p. Qed.

(** The state behind a step of the scheduler. *)
Record scheduled_as (s s' : tasks) (sc : sched) : Prop := {
  sa_sched : t_sched s' = sc;
  sa_words : t_words s' = t_words s;
  sa_heap : heap_of (t_space s') = heap_of (t_space s);
  sa_mem : (t_space s').1 = (t_space s).1;
  sa_pcbs : forall q p, ts_pcbs s !! q = Some p -> exists p', ts_pcbs s' !! q = Some p' /\ same_pcb p p';
  sa_dead : ts_dead_nodes s' = ts_dead_nodes s /\ ts_dead_tasks s' = ts_dead_tasks s /\
    ts_dead_processes s' = ts_dead_processes s /\ ts_dead_lock s' = ts_dead_lock s /\ ts_dead_cv s' = ts_dead_cv s;
  sa_dir : dir_loaded s'
}.

Lemma on_sched_switch (s : tasks) g sc :
  dir_loaded s -> g (t_sched s) = Ok sc -> is_Some (ts_pcbs s !! s_page_dir sc) ->
  exists s', on_sched s g = Ok s' /\ scheduled_as s s' sc.
Proof.
  intros (p0 & Hp0 & Hcrt) Hg [pn Hpn]. unfold on_sched. rewrite Hg. cbn [mbind outcome_bind].
  destruct (Z.eqb_spec (s_page_dir sc) (s_page_dir (t_sched s))) as [E|E].
  - eexists. split; [done |]. split; try done; [| by exists p0; rewrite <- Hcrt; unfold t_sched; cbn; rewrite E].
    intros q p Hq. exists p. split; [done | apply same_pcb_refl].
  - unfold load_dir, get_pcb. cbn. rewrite Hpn. cbn [deref mbind outcome_bind].
    unfold t_space, t_sched in *. destruct (th_space (ts_threads s)) as [m pg] eqn:Em. cbn. rewrite Hp0.
    eexists. split; [done |]. split; unfold t_space, t_sched, t_words; cbn; try done.
    + by rewrite Em.
    + by rewrite Em.
    + intros q p Hq. destruct (decide (q = s_page_dir (th_sched (ts_threads s)))) as [->|Hne].
      * rewrite lookup_insert_eq. eexists. split; [done |]. rewrite Hp0 in Hq. injection Hq as <-. by eexists.
      * rewrite lookup_insert_ne by done. exists p. split; [done | apply same_pcb_refl].
    + exists pn. unfold t_space, t_sched. cbn. by rewrite lookup_insert_ne by done.
Qed.

(** ** The dead *)

(** The two lists of the dead, of the nodes [xs] and [ys]. *)
Record dead_wf (L : gmap Z Z) (st : nodes) (ts ps : linked_list_t) (xs ys : list Z) : Prop := {
  dw_tasks : is_list st ts xs;
  dw_processes : is_list st ps ys;
  dw_apart : xs ## ys;
  dw_live : forall x, x ∈ xs ++ ys -> is_Some (L !! x)
}.

Lemma live_short (L : gmap Z Z) st l xs :
  is_list st l xs -> (forall x, x ∈ xs -> is_Some (L !! x)) -> (length xs <= size L)%nat.
Proof.
  intros Hl Hx. rewrite <- (size_list_to_set (C := gset Z)) by by eapply is_list_nodup.
  rewrite <- size_dom. apply subseteq_size. intros x Hin%elem_of_list_to_set. by apply elem_of_dom, Hx.
Qed.

(** A new node for an element at the end of one of two lists. *)
Lemma append_dead (m : space) L st l xs ys ptr :
  alive (heap_of m) L -> Z.of_nat (size L) < capacity -> NODE_SIZE < request_limit ->
  is_list st l xs -> xs ## ys -> (forall x, x ∈ xs ++ ys -> is_Some (L !! x)) ->
  capacity (A := A) < 4294967295 ->
  may (linked_list_append_ele m st l ptr) (fun '(m', st', l') => exists a p k,
    m' = with_heap m a /\ L !! p = None /\ alive a (<[p := k]> L) /\ is_list st' l' (xs ++ [p]) /\
    values st' (xs ++ [p]) = values st xs ++ [ptr] /\ (forall l2, is_list st l2 ys -> is_list st' l2 ys) /\
    values st' ys = values st ys).
Proof.
  intros Ha Hc Hr Hl Hd Hlive Hlen.
  assert (length xs <= size L)%nat as Hshort by (eapply live_short; [done | set_solver]).
  destruct (linked_list_append_ele_spec (H := space_allocator) m L st l xs ptr Ha Hc Hr Hl) as
    [-> | (m' & st' & l' & p & k & E & Hp & Ha' & Hl' & Hptr & Hoth & Hsame)]; [set_solver | lia | by left | right].
  eexists. split; [exact E |].
  assert (exists a, m' = with_heap m a) as [a ->].
  { unfold linked_list_append_ele in E. cbn in E.
    destruct (a_malloc (heap_of m) NODE_SIZE) as [[a q]| | | |]; cbn in E; try done.
    destruct (linked_list_append _ _ _) as [[st1 l1]| | | |]; cbn in E; try done. injection E as <- _ _. by exists a. }
  assert (forall zs, (forall x, x ∈ zs -> is_Some (L !! x)) -> values st' zs = values st zs) as Hv.
  { intros zs Hz. unfold values. apply list_fmap_ext. intros i x Hx. rewrite Hoth; [done |].
    intros ->. destruct (Hz p) as [? ?]; [by eapply list_elem_of_lookup_2 | congruence]. }
  exists a, p, k. split; [done |]. split; [done |]. split; [exact Ha' |]. split; [done |]. split; [|split].
  - unfold values at 1. rewrite fmap_app. cbn. rewrite Hptr. cbn. f_equal. apply Hv. set_solver.
  - intros l2 H2. eapply is_list_frame; [|exact H2]. intros x Hx. apply Hsame. intros [->|?]%elem_of_cons.
    + destruct (Hlive p) as [? ?]; [set_solver | congruence].
    + set_solver.
  - apply Hv. set_solver.
Qed.

(** What a notified addition to one of the lists leaves. *)
Record dead_added (s s' : tasks) (sc : sched) (L : gmap Z Z) (node : Z) : Prop := {
  da_sched : t_sched s' = sc;
  da_keeps : queue_keeps (t_sched s) sc;
  da_words : t_words s' = t_words s;
  da_pcbs : ts_pcbs s' = ts_pcbs s;
  da_cv : ts_dead_cv s' = ts_dead_cv s;
  da_space : exists a k, t_space s' = with_heap (t_space s) a /\ alive a (<[node := k]> L) /\ L !! node = None
}.

Lemma add_dead_spec s ready W cs L xs ys l l2 t ptr :
  sched_wf (t_sched s) ready W -> tcb_of (t_sched s) (s_crt_thread_node (t_sched s)) = Some t ->
  t_status t <> TASK_WAITING -> W !! ts_dead_cv s = Some cs ->
  alive (heap_of (t_space s)) L -> Z.of_nat (size L) < capacity ->
  NODE_SIZE < request_limit -> capacity (A := A) < 4294967295 -> dead_wf L (ts_dead_nodes s) l l2 xs ys ->
  may (add_dead s l ptr) (fun '(s', l') => exists sc node,
    dead_added s s' sc L node /\
    ts_dead_tasks s' = ts_dead_tasks s /\ ts_dead_processes s' = ts_dead_processes s /\
    sched_wf sc (ready ++ take 1 cs) (<[ts_dead_cv s := tail cs]> W) /\
    s_crt_thread_node sc = s_crt_thread_node (t_sched s) /\
    s_main_thread_node sc = s_main_thread_node (t_sched s) /\
    tcb_of sc (s_crt_thread_node (t_sched s)) = Some t /\
    is_list (ts_dead_nodes s') l' (xs ++ [node]) /\ is_list (ts_dead_nodes s') l2 ys /\
    values (ts_dead_nodes s') (xs ++ [node]) = values (ts_dead_nodes s) xs ++ [ptr] /\
    values (ts_dead_nodes s') ys = values (ts_dead_nodes s) ys).
Proof.
  intros Hw Ht Hst HW Ha Hc Hr Hcap [Hx Hy Hd Hlive]. unfold add_dead.
  eapply may_bind; [by apply (append_dead (t_space s) L _ _ xs ys) |].
  intros [[m st] l'] (a & p & k & -> & Hp & Ha' & Hl' & Hv & Hf & Hv').
  destruct (wake_first_any (t_sched s) ready W (ts_dead_cv s) cs t Hw Ht Hst HW)
    as (sc & E & Hw' & Hcrt & Hm & Ht' & Hk).
  rewrite (on_sched_same _ _ sc); [| exact E | apply Hk]. cbn [mbind outcome_bind].
  apply may_ret. exists sc, p.
  split; [split; try done; by exists a, k |]. do 2 (split; [done |]).
  split; [by destruct cs as [|? []] |]. auto 10.
Qed.


Lemma table_is_live m L t M X x : table_is m L t M X -> X x -> is_Some (L !! x).
Proof. intros [(bl & ess & _ & _ & HX) _ _] Hx. by apply HX. Qed.

(** The state of the task layer: the scheduler with the ready queue [ready] and the
    waiters [W], [cs] of which wait for the dead; the live blocks [L] of the heap;
    the nodes [xs] and [ys] of the dead. *)
Record tasks_wf (s : tasks) (ready : list Z) (W : gmap Z (list Z)) (cs : list Z) (L : gmap Z Z)
    (xs ys : list Z) : Prop := {
  tw_sched : sched_wf (t_sched s) ready W;
  tw_cv : W !! ts_dead_cv s = Some cs;
  tw_heap : alive (heap_of (t_space s)) L;
  tw_dead : dead_wf L (ts_dead_nodes s) (ts_dead_tasks s) (ts_dead_processes s) xs ys;
  tw_lock : unlocked (ts_dead_lock s);
  tw_dir : dir_loaded s;
  tw_dirs : dirs_known s
}.

(** The dead take blocks from the heap, and are not too many to count. *)
Definition heap_limits : Prop := NODE_SIZE < request_limit (A := A) /\ capacity (A := A) < 4294967295.

(** Dead threads keep out of the tables. *)
Definition dead_nodes (xs ys : list Z) (x : Z) : Prop := x ∈ xs ++ ys.

Lemma keeps_refl s : queue_keeps s s.
Proof. by split. Qed.

(** What keeps the task layer well-formed. *)
Lemma tasks_wf_step s s' ready ready' W cs L L' xs ys :
  tasks_wf s ready W cs L xs ys -> sched_wf (t_sched s') ready' W -> queue_keeps (t_sched s) (t_sched s') ->
  (ts_dead_nodes s' = ts_dead_nodes s /\ ts_dead_tasks s' = ts_dead_tasks s /\
    ts_dead_processes s' = ts_dead_processes s /\ ts_dead_cv s' = ts_dead_cv s /\ ts_dead_lock s' = ts_dead_lock s) ->
  alive (heap_of (t_space s')) L' -> (forall x, dead_nodes xs ys x -> is_Some (L' !! x)) ->
  p_crt (t_space s').2 = p_crt (t_space s).2 ->
  (forall q p, ts_pcbs s !! q = Some p -> exists p', ts_pcbs s' !! q = Some p' /\ pc_page_dir p' = pc_page_dir p) ->
  tasks_wf s' ready' W cs L' xs ys.
Proof.
  intros [Hw HW Ha [D1 D2 D3 D4] Hl (p0 & Hp0 & Hcr) [M1 M2]] Hw' [Qm Qd _ Qf _] (E1 & E2 & E3 & E4 & E5) Ha' Hx Hcrt Hp.
  assert (forall q, is_Some (ts_pcbs s !! q) -> is_Some (ts_pcbs s' !! q)) as Hpres.
  { intros q [v Hv]. destruct (Hp q v Hv) as (p' & ? & _). by eexists. }
  split; rewrite ?E1, ?E2, ?E3, ?E4; try done; [by unfold unlocked; rewrite E5 | |].
  - destruct (Hp _ _ Hp0) as (p' & Hp' & Hd). exists p'. rewrite Qd, Hcrt, Hd. done.
  - split; rewrite ?Qm; [by apply Hpres |]. intros r t Hr Hn. apply Hpres. specialize (Qf r). rewrite Hr in Qf.
    cbn in Qf. destruct (s_tcbs (t_sched s) !! r) as [t0|] eqn:E; [|done]. injection Qf as Qf. rewrite Qf in *.
    by eapply M2.
Qed.

(** A new node on one of the two lists. *)
Lemma dead_grows L st ts ps xs ys xs' ys' node k :
  dead_wf L st ts ps xs ys -> L !! node = None -> (forall x, x ∈ xs' ++ ys' <-> x = node \/ x ∈ xs ++ ys) ->
  (xs' = xs ++ [node] /\ ys' = ys) \/ (xs' = xs /\ ys' = ys ++ [node]) ->
  forall st' ts' ps', is_list st' ts' xs' -> is_list st' ps' ys' -> dead_wf (<[node := k]> L) st' ts' ps' xs' ys'.
Proof.
  intros [_ _ D3 D4] Hn Hin Hcase st' ts' ps' H1' H2'.
  assert (node ∉ xs ++ ys) as Hnew by (intros Hx; destruct (D4 node Hx); congruence).
  split; try done.
  - intros x Hx Hy. destruct Hcase as [[-> ->]|[-> ->]]; set_solver.
  - intros x [->|Hx]%Hin; [by rewrite lookup_insert_eq; eexists |].
    rewrite lookup_insert_ne by (intros ->; done). by apply D4.
Qed.

(** The state with an element more on one of the lists. *)
Lemma dead_added_wf s s' sc ready ready' W W' cs cs' L xs ys xs' ys' node :
  tasks_wf s ready W cs L xs ys -> dead_added s s' sc L node ->
  sched_wf sc ready' W' -> W' !! ts_dead_cv s = Some cs' -> unlocked (ts_dead_lock s') ->
  (xs' = xs ++ [node] /\ ys' = ys) \/ (xs' = xs /\ ys' = ys ++ [node]) ->
  is_list (ts_dead_nodes s') (ts_dead_tasks s') xs' -> is_list (ts_dead_nodes s') (ts_dead_processes s') ys' ->
  exists k, tasks_wf s' ready' W' cs' (<[node := k]> L) xs' ys'.
Proof.
  intros [Hw HW Ha Hd Hl (p0 & Hp0 & Hcr) [M1 M2]] [Es1 Hk Ew Ep Ecv (a & k & Esp & Ha1 & Hnode)] Hw' HW' Hl' Hcase L1 L2.
  exists k. split; rewrite ?Es1, ?Ecv; try done.
  - by rewrite Esp.
  - eapply dead_grows; try done. intros x. destruct Hcase as [[-> ->]|[-> ->]]; set_solver.
  - exists p0. by rewrite Es1, Ep, (qk_page_dir _ _ Hk), Esp.
  - split; rewrite ?Es1, ?Ep; [by rewrite (qk_main_process _ _ Hk) |].
    intros r u Hr Hn. pose proof (qk_fields _ _ Hk r) as Qf. rewrite Hr in Qf. cbn in Qf.
    destruct (s_tcbs (t_sched s) !! r) as [t0|] eqn:E; [|done]. injection Qf as Qf. rewrite Qf in *. by eapply M2.
Qed.

(** What the end of a thread or process leaves. *)
Record joins_dead (s s' : tasks) (t : tcb_t) : Prop := {
  jd_crt : s_crt_thread_node (t_sched s') = s_crt_thread_node (t_sched s);
  jd_main : s_main_thread_node (t_sched s') = s_main_thread_node (t_sched s);
  jd_tcb : tcb_of (t_sched s') (s_crt_thread_node (t_sched s)) = Some t;
  jd_keeps : queue_keeps (t_sched s) (t_sched s');
  jd_pcbs : ts_pcbs s' = ts_pcbs s;
  jd_words : t_words s' = t_words s;
  jd_space : exists a, t_space s' = with_heap (t_space s) a
}.

(** A thread joins the dead. *)
Lemma add_dead_task_spec s ready W cs L xs ys t thread :
  tasks_wf s ready W cs L xs ys -> heap_limits -> Z.of_nat (size L) < capacity ->
  tcb_of (t_sched s) (s_crt_thread_node (t_sched s)) = Some t -> t_status t <> TASK_WAITING ->
  may (add_dead_task s thread) (fun s' => exists node k, L !! node = None /\
    tasks_wf s' (ready ++ take 1 cs) (<[ts_dead_cv s := tail cs]> W) (tail cs) (<[node := k]> L) (xs ++ [node]) ys /\
    joins_dead s s' t /\
    values (ts_dead_nodes s') (xs ++ [node]) = values (ts_dead_nodes s) xs ++ [thread] /\
    values (ts_dead_nodes s') ys = values (ts_dead_nodes s) ys).
Proof.
  intros Hs [Hr Hcap] Hc Ht Hst. pose proof Hs as [Hw HW Ha Hd Hl _ _]. unfold add_dead_task.
  rewrite lock_unlocked by done. cbn [mbind outcome_bind]. eapply may_bind.
  { by apply (add_dead_spec (set_dead s _ _ _ _) ready W cs L xs ys (ts_dead_tasks s) (ts_dead_processes s) t). }
  intros [s1 l'] (sc & node & [Es1 Hk Ew Ep Ecv Hsp] & _ & Eps & Hw' & Hcrt & Hmain & Ht' & L1 & L2 & V1 & V2).
  apply may_ret. exists node. set (s' := set_dead s1 _ _ _ _).
  destruct (dead_added_wf s s' sc ready (ready ++ take 1 cs) W (<[ts_dead_cv s := tail cs]> W) cs (tail cs) L xs ys (xs ++ [node]) ys node Hs) as [k Hs'];
    [by split | done | by rewrite lookup_insert_eq | done | by left | done | by cbn; rewrite Eps |].
  exists k. split; [by destruct Hsp as (? & ? & _ & _ & ?) |]. split; [done |]. split; [|done].
  destruct Hsp as (a & ? & ? & _). split; change (t_sched s') with (t_sched s1); rewrite ?Es1; try done. by exists a.
Qed.

(** A process joins the dead. *)
Lemma add_dead_process_spec s ready W cs L xs ys t process :
  tasks_wf s ready W cs L xs ys -> heap_limits -> Z.of_nat (size L) < capacity ->
  tcb_of (t_sched s) (s_crt_thread_node (t_sched s)) = Some t -> t_status t <> TASK_WAITING ->
  may (add_dead_process s process) (fun s' => exists node k, L !! node = None /\
    tasks_wf s' (ready ++ take 1 cs) (<[ts_dead_cv s := tail cs]> W) (tail cs) (<[node := k]> L) xs (ys ++ [node]) /\
    joins_dead s s' t /\
    values (ts_dead_nodes s') (ys ++ [node]) = values (ts_dead_nodes s) ys ++ [process] /\
    values (ts_dead_nodes s') xs = values (ts_dead_nodes s) xs).
Proof.
  intros Hs [Hr Hcap] Hc Ht Hst. pose proof Hs as [Hw HW Ha [D1 D2 D3 D4] Hl _ _]. unfold add_dead_process.
  rewrite lock_unlocked by done. cbn [mbind outcome_bind]. eapply may_bind.
  { apply (add_dead_spec (set_dead s _ _ _ _) ready W cs L ys xs (ts_dead_processes s) (ts_dead_tasks s) t); try done.
    split; [done | done | by intros x ? ?; apply (D3 x) |]. intros x Hx. apply D4. set_solver. }
  intros [s1 l'] (sc & node & [Es1 Hk Ew Ep Ecv Hsp] & Ets & _ & Hw' & Hcrt & Hmain & Ht' & L1 & L2 & V1 & V2).
  apply may_ret. exists node. set (s' := set_dead s1 _ _ _ _).
  destruct (dead_added_wf s s' sc ready (ready ++ take 1 cs) W (<[ts_dead_cv s := tail cs]> W) cs (tail cs) L xs ys xs (ys ++ [node]) node Hs) as [k Hs'];
    [by split | done | by rewrite lookup_insert_eq | done | by right | by cbn; rewrite Ets | done |].
  exists k. split; [by destruct Hsp as (? & ? & _ & _ & ?) |]. split; [done |]. split; [|done].
  destruct Hsp as (a & ? & ? & _). split; change (t_sched s') with (t_sched s1); rewrite ?Es1; try done. by exists a.
Qed.

(** ** Switching threads *)

(** The directory a switch loads is known. *)
Lemma switch_dir_known (s : tasks) ready W cs L xs ys sc :
  tasks_wf s ready W cs L xs ys -> switch_keeps (t_sched s) sc -> is_Some (ts_pcbs s !! s_page_dir sc).
Proof.
  intros [_ _ _ _ _ (p0 & Hp0 & _) [Hm Ht]] [Sm _ _ Sf _ Sd _ _].
  destruct Sd as [-> | [-> | (p & t & Hp & Hn & ->)]]; [by eexists | done | by eapply Ht].
Qed.

Lemma switch_wf (s s' : tasks) ready ready' W cs L xs ys sc :
  tasks_wf s ready W cs L xs ys -> switch_keeps (t_sched s) sc -> sched_wf sc ready' W ->
  scheduled_as s s' sc -> tasks_wf s' ready' W cs L xs ys.
Proof.
  intros [_ HW Ha Hd Hl _ [M1 M2]] [Sm _ _ Sf _ _ _ _] Hw [S1 S2 S3 S4 S5 (S6 & S7 & S8 & S9 & S10) S11].
  assert (forall q, is_Some (ts_pcbs s !! q) -> is_Some (ts_pcbs s' !! q)) as Hpres.
  { intros q [v Hv]. destruct (S5 q v Hv) as (? & ? & _). by eexists. }
  split; rewrite ?S1, ?S3, ?S6, ?S7, ?S8, ?S10; try done; [by unfold unlocked; rewrite S9 |].
  split; rewrite S1; [rewrite Sm; by apply Hpres |]. intros r u Hr Hn. apply Hpres.
  specialize (Sf r). rewrite Hr in Sf. cbn in Sf. destruct (s_tcbs (t_sched s) !! r) as [t0|] eqn:E; [|done].
  injection Sf as Sf. rewrite Sf in *. by eapply M2.
Qed.

(** A change of the current thread that is no change of its process. *)
Lemma current_wf (s : tasks) ready W cs L xs ys thread t f :
  tasks_wf s ready W cs L xs ys -> runs (t_sched s) t ->
  thr (t_sched s) (s_crt_thread_node (t_sched s)) = Some thread ->
  t_status (f t) <> TASK_READY -> (forall u, t_process (f u) = t_process u) ->
  let s' := with_sched s (set_tcbs (t_sched s) (alter f thread (s_tcbs (t_sched s)))) in
  tasks_wf s' ready W cs L xs ys /\ tcb_of (t_sched s') (s_crt_thread_node (t_sched s)) = Some (f t) /\
  s_tcbs (t_sched s') !! thread = Some (f t).
Proof.
  intros Hs (Ht & Hst & Hm) Hthr Hf Hp s'. pose proof Hs as [Hw _ Ha Hd _ _ [M1 M2]].
  assert (s_tcbs (t_sched s) !! thread = Some t) as Htc by (unfold tcb_of in Ht; by rewrite Hthr in Ht).
  destruct (wf_current (t_sched s) ready W thread f Hw Hthr Hm) as [Hw1 Ht1].
  { intros t0 Ht0. assert (t0 = t) as -> by congruence. split; [done |]. split; [|by left].
    intros Hx. pose proof (sw_is_waiting _ _ _ Hw _ _ Hx Ht). congruence. }
  split; [|split; [by apply Ht1 |]].
  2: { change (alter f thread (s_tcbs (t_sched s)) !! thread = Some (f t)). by rewrite lookup_alter_eq, Htc. }
  destruct Hs. split; try done. split; [done |]. intros r u Hr Hn.
  change (s_tcbs (t_sched s')) with (alter f thread (s_tcbs (t_sched s))) in Hr.
  apply lookup_alter_Some in Hr as [(<- & u0 & Hu0 & ->) | [_ Hr]]; [rewrite Hp in *; by eapply M2 | by eapply M2].
Qed.
End spec.
