(* ===== verification/ProcessSpec.v ===== *)
(** * Processes: the end of threads and processes

    A thread that exits, the parent of a process that exits, and the wait for a
    child, each from and to a well-formed task layer. *)

From S2P Require Import Prelude.
From S2P Require Import Memory.
From S2P Require Import YieldLock.
From S2P Require Import KHeap.
From S2P Require Import Allocator.
From S2P Require Import LinkedList.
From S2P Require Import Bitmap.
From S2P Require Import IdPool.
From S2P Require Import HashTable.
From S2P Require Import HashTableInv.
From S2P Require Import HashTableSpec.
From S2P Require Import HashTableMap.
From S2P Require Import HashTableIter.
From S2P Require Import Paging.
From S2P Require Import PagingCow.
From S2P Require Import CStdlib.
From S2P Require Import Scheduler.
From S2P Require Import SchedulerInv.
From S2P Require Import Sync.
From S2P Require Import AddressSpace.
From S2P Require Import VMem.
From S2P Require Import HeapSpace.
From S2P Require Import Thread.
From S2P Require Import Process.
From S2P Require Import Tasks.
From S2P Require Import ProcessInv.

Section spec.
Context {A : Type} `{BlockAllocator A}.
Abbreviation space := (mem * paging (A := A))%type.
Abbreviation tasks := (tasks (A := A)).

(** ** A thread leaves its process *)

Lemma on_tcb_ok (s : tasks) thread f t :
  s_tcbs (t_sched s) !! thread = Some t ->
  on_tcb s thread f = Ok (with_sched s (set_tcbs (t_sched s) (alter f thread (s_tcbs (t_sched s))))).
Proof. intros Ht. unfold on_tcb. rewrite update_thread_ok by (by eexists). done. Qed.

Lemma get_pcb_ok (s : tasks) q p : ts_pcbs s !! q = Some p -> get_pcb s q = Ok p.
Proof. intros Hp. unfold get_pcb. by rewrite Hp. Qed.

Lemma get_tcb_ok (s : tasks) q t : s_tcbs (t_sched s) !! q = Some t -> get_tcb s q = Ok t.
Proof. intros Ht. unfold get_tcb. by rewrite Ht. Qed.

Lemma on_pcb_ok (s : tasks) q f p :
  ts_pcbs s !! q = Some p -> on_pcb s q f = Ok (set_pcbs s (<[q := f p]> (ts_pcbs s))).
Proof. intros Hp. unfold on_pcb. by rewrite (get_pcb_ok _ _ _ Hp). Qed.

Lemma lock_pcb_ok (s : tasks) process p :
  ts_pcbs s !! process = Some p -> unlocked (pc_lock p) ->
  lock_pcb s process = Ok (set_pcbs s (<[process := pc_set_locks (pc_page_dir_lock p) locked p]> (ts_pcbs s))).
Proof.
  intros Hp Hl. unfold lock_pcb. rewrite (get_pcb_ok _ _ _ Hp). cbn [mbind outcome_bind].
  rewrite lock_unlocked by done. cbn [mbind outcome_bind]. by rewrite (on_pcb_ok _ _ _ _ Hp).
Qed.

Lemma unlock_pcb_ok (s : tasks) process p :
  ts_pcbs s !! process = Some p ->
  unlock_pcb s process =
    Ok (set_pcbs s (<[process := pc_set_locks (pc_page_dir_lock p) yieldlock_init p]> (ts_pcbs s))).
Proof. intros Hp. unfold unlock_pcb. by rewrite (on_pcb_ok _ _ _ _ Hp). Qed.

(** The bits of the stacks in use after [stack] was given back. *)
Definition stack_freed (st st' : words) (b : bitmap_t) (ws : list Z) (stack : Z) : Prop :=
  exists ws', bm_wf st' b ws' /\ length ws' = length ws /\
    forall i, in_bits ws i -> bit_of ws' i = negb (bool_decide (i = stack)) && bit_of ws i.

Lemma remove_process_thread_spec s L X process thread p t M ws :
  ts_pcbs s !! process = Some p -> unlocked (pc_lock p) -> s_tcbs (t_sched s) !! thread = Some t ->
  table_is (t_space s) L (pc_threads p) M X -> M !! t_id t = Some thread ->
  bm_wf (t_words s) (pc_stacks p) ws -> (0 <= t_user_stack_index t -> in_bits ws (t_user_stack_index t)) ->
  exists a L' tb st', table_is (with_heap (t_space s) a) L' tb (delete (t_id t) M) X /\ (size L' <= size L)%nat /\
    stack_freed (t_words s) st' (pc_stacks p) ws (t_user_stack_index t) /\
    remove_process_thread s process thread = Ok (set_pcbs
      (with_words (with_sched (with_space s (with_heap (t_space s) a))
        (set_tcbs (t_sched s) (alter (with_process 0) thread (s_tcbs (t_sched s))))) st')
      (<[process := pc_set_locks (pc_page_dir_lock p) yieldlock_init (pc_set_threads tb p)]> (ts_pcbs s))).
Proof.
  intros Hp Hl Ht Htab HM Hb Hi. unfold remove_process_thread.
  rewrite (lock_pcb_ok s process p) by done. cbn [mbind outcome_bind].
  destruct (table_remove_is (t_space s) L (pc_threads p) M X (t_id t) Htab) as (a & L' & tb & E & Ht' & HL & _).
  rewrite (get_pcb_ok _ _ _ (lookup_insert_eq _ _ _)), (get_tcb_ok _ thread t) by done. cbn [mbind outcome_bind].
  change (t_space (set_pcbs s _)) with (t_space s).
  change (pc_threads (pc_set_locks _ _ _)) with (pc_threads p). rewrite E. cbn [mbind outcome_bind]. rewrite HM.
  rewrite (on_pcb_ok _ _ _ _ (lookup_insert_eq _ _ _)). cbn [mbind outcome_bind default from_option id].
  rewrite Z.eqb_refl. cbn [ASSERT mbind outcome_bind].
  rewrite (on_tcb_ok _ thread (with_process 0) t) by done. cbn [mbind outcome_bind].
  set (s1 := with_sched _ _). change (t_words s1) with (t_words s).
  change (pc_stacks (pc_set_locks _ _ _)) with (pc_stacks p).
  assert (exists st', (if 0 <=? t_user_stack_index t
      then st ← bitmap_clear_bit (t_words s) (pc_stacks p) (t_user_stack_index t); Ok (with_words s1 st)
      else Ok s1) = Ok (with_words s1 st') /\
    stack_freed (t_words s) st' (pc_stacks p) ws (t_user_stack_index t)) as (st' & -> & Hst').
  { destruct (Z.leb_spec 0 (t_user_stack_index t)) as [Hle|Hle].
    - destruct (bitmap_clear_bit_spec (t_words s) (pc_stacks p) ws _ Hb (Hi Hle))
        as (st' & ws' & E' & (_ & Hb' & Hlen & Hbits)).
      rewrite E'. exists st'. split; [done |]. by exists ws'.
    - exists (t_words s). split; [done |]. exists ws. split; [done |]. split; [done |].
      intros i Hbit. unfold in_bits in Hbit. by rewrite bool_decide_false by lia. }
  cbn [mbind outcome_bind]. exists a, L', tb, st'. split; [exact Ht' |]. split; [done |]. split; [done |].
  rewrite (unlock_pcb_ok _ _ _ (lookup_insert_eq _ _ _)). cbn. by rewrite !insert_insert_eq.
Qed.

(** ** A thread dies *)

(** The state behind the last switch of the thread [thread]: it is dead and last
    on its list, and the first of the ready threads runs, those it woke included. *)
Record thread_gone (s s' : tasks) (ready cs : list Z) (W : gmap Z (list Z)) (L : gmap Z Z)
    (xs ys : list Z) (thread : Z) (t : tcb_t) (node k : Z) : Prop := {
  tg_wf : tasks_wf s' (tail (ready ++ take 1 cs)) (<[ts_dead_cv s := tail cs]> W) (tail cs)
    (<[node := k]> L) (xs ++ [node]) ys;
  tg_new : L !! node = None;
  tg_next : head (ready ++ take 1 cs) = Some (s_crt_thread_node (t_sched s'));
  tg_runs : exists u, tcb_of (t_sched s') (s_crt_thread_node (t_sched s')) = Some u /\ t_status u = TASK_RUNNING;
  tg_dead : exists t', s_tcbs (t_sched s') !! thread = Some t' /\ t_status t' = TASK_DEAD /\
    t_id t' = t_id t /\ t_process t' = t_process t;
  tg_tasks : values (ts_dead_nodes s') (xs ++ [node]) = values (ts_dead_nodes s) xs ++ [thread];
  tg_processes : values (ts_dead_nodes s') ys = values (ts_dead_nodes s) ys;
  tg_pcbs : forall q p, ts_pcbs s !! q = Some p -> exists p', ts_pcbs s' !! q = Some p' /\ same_pcb p p';
  tg_words : t_words s' = t_words s
}.

(** What a switch leaves of a dead thread. *)
Lemma left_dead (sc sc' : sched) thread t :
  switch_keeps sc sc' -> thr sc (s_crt_thread_node sc) = Some thread ->
  s_tcbs sc !! thread = Some (with_status TASK_DEAD t) -> s_crt_thread_node sc <> s_main_thread_node sc ->
  exists t', s_tcbs sc' !! thread = Some t' /\ t_status t' = TASK_DEAD /\ t_id t' = t_id t /\ t_process t' = t_process t.
Proof.
  intros [_ _ _ F1 F2 _ F3 _] Hthr Ht Hm. specialize (F1 thread). specialize (F2 thread).
  specialize (F3 thread _ Hthr Ht Hm ltac:(done)). rewrite Ht in F1, F2. cbn in F1, F2.
  destruct (s_tcbs sc' !! thread) as [t'|]; [|done]. exists t'. split; [done |].
  injection F1 as F1. injection F2 as F2. by injection F3.
Qed.

Lemma thread_dies_spec s ready W cs L xs ys thread t :
  tasks_wf s ready W cs L xs ys -> heap_limits -> Z.of_nat (size L) < capacity ->
  thr (t_sched s) (s_crt_thread_node (t_sched s)) = Some thread -> runs (t_sched s) t ->
  ready ++ take 1 cs <> [] ->
  may (thread_dies s thread) (fun s' => exists node k, thread_gone s s' ready cs W L xs ys thread t node k).
Proof.
  intros Hs Hlim Hc Hthr Hr Hne. unfold thread_dies. pose proof Hr as (Ht & Hst & Hm).
  assert (s_tcbs (t_sched s) !! thread = Some t) as Htc by (unfold tcb_of in Ht; by rewrite Hthr in Ht).
  rewrite (on_tcb_ok _ _ _ t) by done. cbn [mbind outcome_bind].
  destruct (current_wf s ready W cs L xs ys thread t (with_status TASK_DEAD) Hs Hr Hthr) as (Hs1 & Ht1 & _); [done | done |].
  set (s1 := with_sched s _) in *.
  eapply may_bind; [by apply (add_dead_task_spec s1 ready W cs L xs ys (with_status TASK_DEAD t) thread) |].
  intros s2 (node & k & Hnew & Hs2 & [Hcrt Hmain Ht2 Hk Ep Ew _] & V1 & V2).
  pose proof (tw_sched _ _ _ _ _ _ _ Hs2) as Hw2.
  change (ts_dead_cv s1) with (ts_dead_cv s) in *. change (ts_dead_nodes s1) with (ts_dead_nodes s) in *.
  change (s_crt_thread_node (t_sched s1)) with (s_crt_thread_node (t_sched s)) in *.
  change (s_main_thread_node (t_sched s1)) with (s_main_thread_node (t_sched s)) in *.
  destruct (ready ++ take 1 cs) as [|h rest] eqn:Eready; [done |].
  pose proof (wf_interrupt _ _ _ false Hw2) as Hw3.
  destruct (do_context_switch_spec _ h rest _ Hw3) as (old & next & sc & Ho & _ & E & Hw4 & Hcrt4 & _ & _ & _ & Hu).
  assert (switch_keeps (t_sched s2) sc) as Hsk by (destruct (do_context_switch_keeps _ _ _ _ _ Hw3 E); by split).
  assert (old = with_status TASK_DEAD t) as ->.
  { change (tcb_of (t_sched s2) (s_crt_thread_node (t_sched s2)) = Some old) in Ho. rewrite Hcrt in Ho. congruence. }
  destruct (on_sched_switch s2 (fun sc => do_context_switch (disable_interrupt sc)) sc) as (s' & -> & Hsa);
    [by eapply tw_dir | done | by eapply switch_dir_known |].
  apply may_ret. exists node, k. pose proof Hsa as [S1 S2 _ _ S5 (S6 & _) _].
  split; rewrite ?S1, ?S6, ?Hcrt4, ?Eready; try done.
  - eapply switch_wf; [exact Hs2 | exact Hsk | exact Hw4 | done].
  - apply (left_dead (t_sched s2) sc thread t); [done | | | by rewrite Hcrt, Hmain].
    + by rewrite Hcrt, (qk_thr _ _ Hk).
    + unfold tcb_of in Ht2. rewrite (qk_thr _ _ Hk) in Ht2. change (thr (t_sched s1)) with (thr (t_sched s)) in Ht2.
      by rewrite Hthr in Ht2.
  - rewrite Ep in S5. exact S5.
  - by rewrite S2, Ew.
Qed.

Lemma get_crt_thread_thr s thread :
  s_crt_thread_node s <> 0 -> thr s (s_crt_thread_node s) = Some thread -> get_crt_thread s = Ok thread.
Proof.
  intros Hn Ht. unfold get_crt_thread. rewrite (proj2 (Z.eqb_neq _ _)) by done. unfold node_thread, thr in *.
  destruct (s_nodes s !! _); [|done]. by injection Ht as <-.
Qed.

(** A thread that leaves its process leaves the rest of the state well-formed. *)
Lemma leave_wf s ready W cs L L' xs ys process thread t p q a tb M st :
  tasks_wf s ready W cs L xs ys -> runs (t_sched s) t ->
  thr (t_sched s) (s_crt_thread_node (t_sched s)) = Some thread ->
  ts_pcbs s !! process = Some p -> pc_page_dir q = pc_page_dir p ->
  table_is (with_heap (t_space s) a) L' tb M (dead_nodes xs ys) ->
  let s1 := set_pcbs (with_words (with_sched (with_space s (with_heap (t_space s) a))
    (set_tcbs (t_sched s) (alter (with_process 0) thread (s_tcbs (t_sched s))))) st) (<[process := q]> (ts_pcbs s)) in
  tasks_wf s1 ready W cs L' xs ys /\ runs (t_sched s1) (with_process 0 t).
Proof.
  intros [Hw HW Ha Hd Hl Hdir Hdirs] (Ht & Hst & Hm) Hthr Hp Hpd Htab s1.
  destruct (wf_current (t_sched s) ready W thread (with_process 0) Hw Hthr Hm) as [Hw1 Ht1].
  { intros t0 Ht0. assert (t0 = t) as -> by congruence. cbn. rewrite Hst. split; [done |]. split; [|by right].
    intros Hx. pose proof (sw_is_waiting _ _ _ Hw _ _ Hx Ht). congruence. }
  assert (forall r, is_Some (ts_pcbs s !! r) -> is_Some (<[process := q]> (ts_pcbs s) !! r)) as Hpres.
  { intros r [v Hv]. destruct (decide (r = process)) as [->|]; [rewrite lookup_insert_eq | rewrite lookup_insert_ne by done];
      by eexists. }
  split; [split; try done | split; [by apply Ht1 | done]].
  - by eapply table_is_alive.
  - destruct Hd as [D1 D2 D3 D4]. split; try done. intros x Hx. by eapply table_is_live.
  - destruct Hdir as (p0 & Hp0 & Hcr). change (s_page_dir (t_sched s1)) with (s_page_dir (t_sched s)).
    destruct (decide (s_page_dir (t_sched s) = process)) as [E|Hne].
    + exists q. unfold s1, dir_loaded. cbn. change (s_page_dir (t_sched s1)) with (s_page_dir (t_sched s)).
      rewrite E, lookup_insert_eq. split; [done |]. rewrite Hpd. rewrite E in Hp0. change (p_crt (t_space s).2 = pc_page_dir p). congruence.
    + exists p0. cbn. change (s_page_dir (t_sched s1)) with (s_page_dir (t_sched s)). by rewrite lookup_insert_ne.
  - destruct Hdirs as [D1 D2]. split; [by apply Hpres |]. intros r u Hr Hn. apply Hpres.
    change (s_tcbs (t_sched s1)) with (alter (with_process 0) thread (s_tcbs (t_sched s))) in Hr.
    apply lookup_alter_Some in Hr as [(<- & u0 & Hu0 & ->) | [_ Hr]]; [done | exact (D2 _ _ Hr Hn)].
Qed.

(** A thread of a process that exits. *)
Record member (s : tasks) (L : gmap Z Z) (X : Z -> Prop) (process thread : Z) (p : pcb_t) (t : tcb_t)
    (M : gmap Z Z) (ws : list Z) : Prop := {
  mb_process : t_process t = process /\ process <> 0;
  mb_pcb : ts_pcbs s !! process = Some p;
  mb_lock : unlocked (pc_lock p);
  mb_threads : table_is (t_space s) L (pc_threads p) M X;
  mb_in : M !! t_id t = Some thread;
  mb_stacks : bm_wf (t_words s) (pc_stacks p) ws;
  mb_stack : 0 <= t_user_stack_index t -> in_bits ws (t_user_stack_index t)
}.

(** C9: a thread that exits, while another is ready or waits for the dead, leaves the
    threads of its process, gives back its user stack, is marked as dead and put
    last on the list of dead threads; the waiting cleaner becomes ready, the first
    ready thread runs on its own page directory, and the task layer is
    well-formed again. *)
Theorem schedule_thread_exit_correct s ready W cs L xs ys process thread p t M ws
    (Hs : tasks_wf s ready W cs L xs ys) (Hlim : heap_limits) (Hc : Z.of_nat (size L) < capacity)
    (Hthr : thr (t_sched s) (s_crt_thread_node (t_sched s)) = Some thread) (Hr : runs (t_sched s) t)
    (Hnext : ready ++ take 1 cs <> []) (Hm : member s L (dead_nodes xs ys) process thread p t M ws) :
  may (schedule_thread_exit s) (fun s' => exists L' node,
    tasks_wf s' (tail (ready ++ take 1 cs)) (<[ts_dead_cv s := tail cs]> W) (tail cs) L' (xs ++ [node]) ys /\
    head (ready ++ take 1 cs) = Some (s_crt_thread_node (t_sched s')) /\
    (exists u, tcb_of (t_sched s') (s_crt_thread_node (t_sched s')) = Some u /\ t_status u = TASK_RUNNING) /\
    (exists t', s_tcbs (t_sched s') !! thread = Some t' /\ t_status t' = TASK_DEAD /\ t_process t' = 0) /\
    values (ts_dead_nodes s') (xs ++ [node]) = values (ts_dead_nodes s) xs ++ [thread] /\
    exists p', ts_pcbs s' !! process = Some p' /\ unlocked (pc_lock p') /\
      table_is (t_space s') L' (pc_threads p') (delete (t_id t) M) (dead_nodes (xs ++ [node]) ys) /\
      stack_freed (t_words s) (t_words s') (pc_stacks p) ws (t_user_stack_index t)).
Proof.
  destruct Hm as [[Hpr Hn0] Hp Hl Htab HM Hb Hi]. pose proof Hs as [Hw _ _ _ _ _ _].
  assert (s_tcbs (t_sched s) !! thread = Some t) as Htc
    by (destruct Hr as (Ht & _); unfold tcb_of in Ht; by rewrite Hthr in Ht).
  unfold schedule_thread_exit. rewrite (get_crt_thread_thr _ thread) by
    (done || apply (sw_known _ _ _ Hw); by left).
  cbn [mbind outcome_bind]. rewrite (get_tcb_ok _ _ t) by done. cbn [mbind outcome_bind]. rewrite Hpr.
  rewrite (proj2 (Z.eqb_neq process 0)) by done. cbn [negb].
  destruct (remove_process_thread_spec s L (dead_nodes xs ys) process thread p t M ws)
    as (a & L1 & tb & st & Ht1 & HL & Hfr & ->); try done.
  cbn [mbind outcome_bind]. set (s1 := set_pcbs _ _).
  destruct (leave_wf s ready W cs L L1 xs ys process thread t p
    (pc_set_locks (pc_page_dir_lock p) yieldlock_init (pc_set_threads tb p)) a tb _ st Hs Hr Hthr Hp eq_refl Ht1)
    as [Hs1 Hr1]. fold s1 in Hs1, Hr1.
  eapply may_mono; [apply (thread_dies_spec s1 ready W cs L1 xs ys thread (with_process 0 t)); try done; lia |].
  intros s' (node & k & [G1 G2 G3 G4 (t' & G5 & G6 & _ & G7) G8 _ G9 G10]). exists (<[node := k]> L1), node.
  split; [exact G1 |]. split; [done |]. split; [done |]. split; [by exists t' |]. split; [done |].
  destruct (G9 process _ (lookup_insert_eq _ _ _)) as (p' & Hp' & l & ->). eexists. split; [exact Hp' |].
  split; [done |]. split; [|by rewrite G10].
  pose proof (table_is_malloc _ _ _ _ _ (heap_of (t_space s')) node k Ht1 (tw_heap _ _ _ _ _ _ _ G1) G2) as Ht2.
  eapply sparing_weaken; [by eapply (table_is_heap _ (t_space s')) in Ht2 |].
  intros x. unfold dead_nodes. set_solver.
Qed.

(** ** The parent learns of an exit *)

(** Whether a process that exits wakes its parent. *)
Definition notified (p pp : pcb_t) : bool :=
  (pc_waiting_child_pid pp =? pc_id p) || (pc_waiting_child_pid pp =? pc_id pp).

Definition with_exit_children (tb : table) (pp : pcb_t) : pcb_t :=
  pc_set_locks (pc_page_dir_lock pp) yieldlock_init (pc_set_exit_children tb pp).

Lemma exit_notify_run s process parent p pp L M X sc :
  ts_pcbs s !! process = Some p -> ts_pcbs s !! parent = Some pp -> process <> parent ->
  unlocked (pc_lock pp) -> table_is (t_space s) L (pc_exit_children pp) M X -> is_u32 (pc_id p) ->
  Z.of_nat (size L) + 2 < capacity -> may_grow (tb_table (pc_exit_children pp)) ->
  (if notified p pp then add_thread_node_to_schedule (t_sched s) (pc_waiting_thread_node pp) = Ok sc
   else sc = t_sched s) ->
  may (exit_notify s process parent) (fun s' => exists a L' tb,
    table_is (with_heap (t_space s) a) L' tb (<[pc_id p := process]> M) X /\ (size L' <= size L + 2)%nat /\
    s' = set_pcbs (with_sched (with_space s (with_heap (t_space s) a)) sc)
      (<[parent := with_exit_children tb pp]> (ts_pcbs s))).
Proof.
  intros Hp Hpp Hne Hl Htab Hid Hc Hg Hsc. unfold exit_notify.
  rewrite (lock_pcb_ok s parent pp) by done. cbn [mbind outcome_bind].
  rewrite (get_pcb_ok _ process p) by (cbn; by rewrite lookup_insert_ne).
  rewrite (get_pcb_ok _ _ _ (lookup_insert_eq _ _ _)). cbn [mbind outcome_bind].
  change (t_space (set_pcbs s _)) with (t_space s).
  change (pc_exit_children (pc_set_locks _ _ pp)) with (pc_exit_children pp).
  change (pc_waiting_child_pid (pc_set_locks _ _ pp)) with (pc_waiting_child_pid pp).
  change (pc_waiting_thread_node (pc_set_locks _ _ pp)) with (pc_waiting_thread_node pp).
  change (pc_id (pc_set_locks _ _ pp)) with (pc_id pp).
  eapply may_bind; [by apply (table_put_is (t_space s) L _ M X) |].
  intros [m tb] (a & L' & -> & Ht & HL & _). rewrite (on_pcb_ok _ _ _ _ (lookup_insert_eq _ _ _)).
  cbn [mbind outcome_bind]. fold (notified p pp). set (s1 := set_pcbs _ _).
  assert ((if notified p pp then on_sched s1 (fun sc => add_thread_node_to_schedule sc (pc_waiting_thread_node pp))
           else Ok s1) = Ok (with_sched s1 sc)) as ->.
  { destruct (notified p pp); [|by subst sc]. apply (on_sched_same s1); [exact Hsc |].
    by apply add_thread_node_keeps, qk_page_dir in Hsc. }
  cbn [mbind outcome_bind]. rewrite (unlock_pcb_ok _ _ _ (lookup_insert_eq _ _ _)).
  apply may_ret. exists a, L', tb. split; [done |]. split; [done |]. cbn. by rewrite !insert_insert_eq.
Qed.

(** C10: a process that exits is among the exited children of its parent; a parent
    that waits for it, or for any, goes to the end of the ready queue, and the
    current thread goes on. *)
Theorem exit_notify_correct s ready W cs L xs ys process parent p pp M q t
    (Hs : tasks_wf s ready W cs L xs ys) (Hp : ts_pcbs s !! process = Some p)
    (Hpp : ts_pcbs s !! parent = Some pp) (Hne : process <> parent) (Hl : unlocked (pc_lock pp))
    (Ht : table_is (t_space s) L (pc_exit_children pp) M (dead_nodes xs ys)) (Hid : is_u32 (pc_id p))
    (Hc : Z.of_nat (size L) + 2 < capacity) (Hg : may_grow (tb_table (pc_exit_children pp)))
    (Hw : notified p pp = true ->
      detached (t_sched s) ready W (pc_waiting_thread_node pp) q t /\ t_status t <> TASK_DEAD) :
  may (exit_notify s process parent) (fun s' => exists L' pp',
    tasks_wf s' (if notified p pp then ready ++ [pc_waiting_thread_node pp] else ready) W cs L' xs ys /\
    s_crt_thread_node (t_sched s') = s_crt_thread_node (t_sched s) /\
    (notified p pp = true ->
      tcb_of (t_sched s') (pc_waiting_thread_node pp) = Some (with_status TASK_READY t)) /\
    ts_pcbs s' = <[parent := pp']> (ts_pcbs s) /\ unlocked (pc_lock pp') /\ pc_id pp' = pc_id pp /\
    table_is (t_space s') L' (pc_exit_children pp') (<[pc_id p := process]> M) (dead_nodes xs ys)).
Proof.
  pose proof (tw_sched _ _ _ _ _ _ _ Hs) as Hsw.
  assert (exists sc, (if notified p pp then add_thread_node_to_schedule (t_sched s) (pc_waiting_thread_node pp) = Ok sc
      else sc = t_sched s) /\ queue_keeps (t_sched s) sc /\
    sched_wf sc (if notified p pp then ready ++ [pc_waiting_thread_node pp] else ready) W /\
    s_crt_thread_node sc = s_crt_thread_node (t_sched s) /\
    (notified p pp = true -> tcb_of sc (pc_waiting_thread_node pp) = Some (with_status TASK_READY t)))
    as (sc & Esc & Hk & Hw' & Hcrt & Hrdy).
  { destruct (notified p pp); [|exists (t_sched s); split; [done |]; split; [apply keeps_refl | done]].
    destruct (Hw eq_refl) as [Hd Hst].
    destruct (add_thread_node_to_schedule_spec _ _ _ _ q t Hsw Hd Hst) as (sc & E & Hw' & Hcrt & _ & _ & _ & Ht' & _).
    exists sc. split; [done |]. split; [by eapply add_thread_node_keeps | done]. }
  eapply may_mono; [by apply (exit_notify_run s process parent p pp L M (dead_nodes xs ys) sc) |].
  intros s' (a & L' & tb & Ht' & HL & ->). exists L', (with_exit_children tb pp).
  split; [|by split_and!]. eapply tasks_wf_step; try done; [by eapply table_is_alive | |].
  - intros x Hx. by eapply table_is_live.
  - intros r v Hv. cbn. destruct (decide (parent = r)) as [->|].
    + rewrite lookup_insert_eq. eexists. split; [done |]. cbn. congruence.
    + rewrite lookup_insert_ne by done. by exists v.
Qed.

(** Queueing the last node of the ready queue again ties it to itself. *)
Lemma append_last_again st l xs x :
  is_list st l (xs ++ [x]) ->
  exists st' l' n, linked_list_append st l x = Ok (st', l') /\ st' !! x = Some n /\ n_next n = x /\
    ll_tail l' = x.
Proof.
  intros Hl. pose proof Hl as [Hs Hnd _ Ht _ _]. rewrite final_snoc in Ht.
  destruct (seg_in _ _ _ _ x Hs) as [n Hn]; [set_solver |].
  unfold linked_list_append, set_next, set_prev. rewrite Hn. cbn [deref mbind outcome_bind].
  rewrite (is_list_size _ _ _ Hl), bool_decide_false by by destruct xs. rewrite Ht.
  rewrite lookup_insert_eq. cbn [deref mbind outcome_bind]. rewrite lookup_insert_eq.
  cbn [deref mbind outcome_bind]. eexists _, _, _. split; [done |]. rewrite lookup_insert_eq. done.
Qed.

Lemma no_list_with_loop st l x n :
  st !! x = Some n -> n_next n = x -> ll_tail l = x -> x <> 0 -> forall xs, ~ is_list st l xs.
Proof.
  intros Hn Hx Ht Hx0 xs Hl. pose proof Hl as [Hs _ _ Ht' _ _]. rewrite Ht in Ht'.
  destruct xs as [|y ys _] using rev_ind; [done |]. rewrite final_snoc in Ht'. subst y.
  apply seg_app in Hs as [_ [[v Hv] _]]. rewrite Hn in Hv. injection Hv as ->. cbn in Hx. congruence.
Qed.

(** C13: process_wait leaves the fields for the waiting thread set.  When a parent that
    was woken is still ready, last in the queue, the exit of another child that
    these fields match queues it a second time: its node becomes its own successor,
    and the ready queue is no list any more. *)
Theorem exit_notify_stale s xs L process parent p pp M X q t
    (Hr : is_list (s_nodes (t_sched s)) (s_ready_tasks (t_sched s)) (xs ++ [pc_waiting_thread_node pp]))
    (Hq : thr (t_sched s) (pc_waiting_thread_node pp) = Some q) (Ht : s_tcbs (t_sched s) !! q = Some t)
    (Hn : notified p pp = true) (Hp : ts_pcbs s !! process = Some p)
    (Hpp : ts_pcbs s !! parent = Some pp) (Hne : process <> parent) (Hl : unlocked (pc_lock pp))
    (Htab : table_is (t_space s) L (pc_exit_children pp) M X) (Hid : is_u32 (pc_id p))
    (Hc : Z.of_nat (size L) + 2 < capacity) (Hg : may_grow (tb_table (pc_exit_children pp))) :
  may (exit_notify s process parent) (fun s' =>
    (exists n, s_nodes (t_sched s') !! pc_waiting_thread_node pp = Some n /\
      n_next n = pc_waiting_thread_node pp) /\
    forall ready, ~ is_list (s_nodes (t_sched s')) (s_ready_tasks (t_sched s')) ready).
Proof.
  set (x := pc_waiting_thread_node pp) in *.
  assert (x <> 0) as Hx0.
  { destruct Hr as [_ Hnd _ _ _ _]. apply NoDup_cons in Hnd as [Hnd _]. intros E. rewrite E in Hnd. set_solver. }
  destruct (append_last_again _ _ _ _ Hr) as (nds & l & n & E & Hnx & Hnn & Hlt).
  assert (exists sc, add_thread_node_to_schedule (t_sched s) x = Ok sc /\
    s_nodes sc = nds /\ s_ready_tasks sc = l) as (sc & Esc & En & El).
  { unfold add_thread_node_to_schedule, node_thread. unfold thr in Hq. cbn.
    destruct (s_nodes (t_sched s) !! x) as [m|]; [|done]. cbn in *. injection Hq as ->. rewrite Ht. cbn.
    case_bool_decide; cbn; [rewrite E; by eexists |]. unfold update_thread. cbn. rewrite Ht. cbn. rewrite E. by eexists. }
  eapply may_mono.
  { apply (exit_notify_run s process parent p pp L M X sc); try done. by rewrite Hn. }
  intros s' (a & L' & tb & _ & _ & ->). cbn. change (t_sched _) with sc. rewrite En, El. split; [by exists n |].
  by eapply no_list_with_loop.
Qed.

(** ** Waiting for a child *)

(** The first entry of a table, for [wait(0)]. *)
Lemma first_entry m L t M X :
  table_is m L t M X -> 0 < ht_size (tb_table t) ->
  exists it kv_node key v, hash_table_iterator_next (table_world m t) (tb_table t) hash_table_create_iterator
      = Ok (it, Some kv_node) /\
    tb_kvs t !! kv_node = Some (KV key v) /\ M !! key = Some v.
Proof.
  intros [(bl & ess & Hrep & -> & _) _ _] Hs.
  destruct (iterator_next_spec _ _ _ _ _ 0 hash_table_create_iterator Hrep) as (it & e & He & _ & E);
    [by left | rewrite (hr_size _ _ _ _ _ Hrep) in Hs; lia |].
  apply list_elem_of_lookup_2 in He. destruct (tb_holds _ _ _ _ (hr_tbl _ _ _ _ _ Hrep) e He) as [_ Hkv].
  exists it, (en_kv e), (en_key e), (en_v e). split; [done |]. split; [done |].
  apply dict_lookup; [apply Hrep |]. by exists e.
Qed.

Lemma table_size m L t M X : table_is m L t M X -> ht_size (tb_table t) = Z.of_nat (size M).
Proof. intros Ht. apply sparing_is_table in Ht. apply Ht. Qed.

(** The child that is taken: the one waited for, or some exited one. *)
Lemma take_exited_spec s L process p M X pid :
  ts_pcbs s !! process = Some p -> table_is (t_space s) L (pc_exit_children p) M X ->
  exists key a L' tb child, table_is (with_heap (t_space s) a) L' tb (delete key M) X /\ (size L' <= size L)%nat /\
    (pid <> 0 -> key = pid) /\ (pid = 0 -> M <> ∅ -> is_Some (M !! key)) /\
    ht_buckets_num (tb_table tb) = ht_buckets_num (tb_table (pc_exit_children p)) /\
    (forall v, M !! key = Some v -> v <> 0 -> child = Some v) /\ (M !! key = None -> child = None) /\
    take_exited s process pid = Ok (set_pcbs (with_space s (with_heap (t_space s) a))
      (<[process := pc_set_exit_children tb p]> (ts_pcbs s)), child).
Proof.
  intros Hp Ht. unfold take_exited. rewrite (get_pcb_ok _ _ _ Hp). cbn [mbind outcome_bind].
  destruct ((pid =? 0) && (0 <? ht_size (tb_table (pc_exit_children p)))) eqn:E.
  - apply andb_true_iff in E as [->%Z.eqb_eq Hs%Z.ltb_lt].
    destruct (first_entry _ _ _ _ _ Ht Hs) as (it & kv_node & key & v & Hn & Hkv & HM).
    assert (hash_table_iterator_has_next (tb_table (pc_exit_children p)) hash_table_create_iterator = true) as ->
      by (unfold hash_table_iterator_has_next; cbn; lia).
    cbn [ASSERT mbind outcome_bind]. rewrite Hn. cbn [mbind outcome_bind deref w_kvs table_world]. rewrite Hkv.
    cbn [mbind outcome_bind deref kv_key].
    destruct (table_remove_is _ _ _ _ _ key Ht) as (a & L' & tb & -> & Ht' & HL & Hnb). cbn [mbind outcome_bind].
    exists key, a, L', tb, (Some v). rewrite (on_pcb_ok _ _ _ p) by done. rewrite HM.
    split; [done |]. split; [done |]. split; [done |]. split; [by eexists |]. split; [exact Hnb |].
    split; [by intros ? [= <-] |]. split; [done | done].
  - destruct (table_remove_is _ _ _ _ _ pid Ht) as (a & L' & tb & -> & Ht' & HL & Hnb). cbn [mbind outcome_bind].
    eexists pid, a, L', tb, _. rewrite (on_pcb_ok _ _ _ p) by done.
    split; [done |]. split; [done |]. split; [done |]. split.
    { intros -> HM. apply table_size in Ht. cbn in E.
      assert (size M <> 0%nat) by (by rewrite map_size_empty_iff). lia. }
    split; [exact Hnb |]. split; [| split; [| done]].
    + intros v -> Hv. cbn [default from_option id]. by rewrite (proj2 (Z.eqb_neq v 0)).
    + by intros ->.
Qed.

(** A table on a heap with the same blocks. *)
Lemma table_is_moved m m' L t M X : alive (heap_of m') L -> table_is m L t M X -> table_is m' L t M X.
Proof.
  intros Ha [(bl & ess & [] & HM & HX) Hn Hl]. constructor; [|done..]. exists bl, ess. split; [|done].
  constructor; try done. by destruct hr_tbl.
Qed.

Lemma lholds_heap L L' (m : space) f a :
  lholds L m f -> alive a L' -> lholds L' (with_heap m a) f.
Proof.
  intros Hm Ha. pose proof Hm as [[Hok _] _]. destruct (with_heap_ok m a Hok) as [Hok' Hv].
  eapply (l_kept L L'); [done | done | by intros b _; apply Hv | exact Ha].
Qed.

Lemma node_thread_thr s x thread : thr s x = Some thread -> node_thread s x = Ok thread.
Proof. unfold thr, node_thread. destruct (s_nodes s !! x); [|done]. by intros [= <-]. Qed.

(** A process with an exited child that the wait is for. *)
Record has_exited (s : tasks) (L : gmap Z Z) (X : Z -> Prop) (process pid : Z) (p : pcb_t) (M C : gmap Z Z) : Prop := {
  he_pcb : ts_pcbs s !! process = Some p;
  he_lock : unlocked (pc_lock p);
  he_exited : table_is (t_space s) L (pc_exit_children p) M X;
  he_children : table_is (t_space s) L (pc_children p) C X;
  he_pid : 0 <= pid;
  he_one : pid <> 0 -> is_Some (M !! pid) /\ default 0 (C !! pid) <> 0;
  he_any : pid = 0 -> M <> ∅;
  he_pcbs : forall key child, M !! key = Some child ->
    child <> 0 /\ child <> process /\ exists ch, ts_pcbs s !! child = Some ch
}.

(** The exit code goes to [*status], unless that is null. *)
Definition stores (L : gmap Z Z) (m : space) (f : Z -> Z) (status : Z) : Prop :=
  status = 0 \/ lholds L m f /\ usable (M := space) status 4.

Lemma store_status L (m : space) f status v :
  alive (heap_of m) L -> stores L m f status ->
  may (if negb (status =? 0) then bs_store32 m status v else Ok m) (fun m' =>
    alive (heap_of m') L /\ p_crt m'.2 = p_crt m.2 /\
    (status <> 0 -> lholds L m' (patch f status (bytes32 v)))).
Proof.
  intros Ha Hst. destruct (Z.eqb_spec status 0) as [->|Hne]; cbn [negb].
  - apply may_ret. split; [done |]. split; [done |]. by intros ?.
  - destruct Hst as [?|[Hm Hu]]; [done |]. eapply may_mono; [by apply (store32_dir L m f) |].
    intros m' [Hm' Hd]. split; [by eapply lholds_alive in Hm' |]. done.
Qed.

(** A change to a process that keeps its page directory. *)
Lemma tasks_wf_pcb s ready W cs L xs ys process p p' :
  tasks_wf s ready W cs L xs ys -> ts_pcbs s !! process = Some p -> pc_page_dir p' = pc_page_dir p ->
  tasks_wf (set_pcbs s (<[process := p']> (ts_pcbs s))) ready W cs L xs ys.
Proof.
  intros Hs Hp Hd. eapply tasks_wf_step; [exact Hs | | apply keeps_refl | | | | |]; try done;
    [apply Hs | apply Hs | |].
  - intros x Hx. by apply (dw_live _ _ _ _ _ _ (tw_dead _ _ _ _ _ _ _ Hs)).
  - intros q v Hv. cbn. destruct (decide (process = q)) as [<-|].
    + rewrite lookup_insert_eq. eexists. split; [done |]. congruence.
    + rewrite lookup_insert_ne by done. by exists v.
Qed.

(** What a wait that takes an exited child leaves. *)
Definition child_taken (s : tasks) (ready cs : list Z) (W : gmap Z (list Z)) (xs ys : list Z) (process pid status : Z)
    (t : tcb_t) (M : gmap Z Z) (f : Z -> Z) '(s', r) : Prop :=
  exists L' node key child ch p',
    r = Some 0 /\ M !! key = Some child /\ (pid <> 0 -> key = pid) /\ ts_pcbs s !! child = Some ch /\
    tasks_wf s' (ready ++ take 1 cs) (<[ts_dead_cv s := tail cs]> W) (tail cs) L' xs (ys ++ [node]) /\
    s_crt_thread_node (t_sched s') = s_crt_thread_node (t_sched s) /\ runs (t_sched s') t /\
    values (ts_dead_nodes s') (ys ++ [node]) = values (ts_dead_nodes s) ys ++ [child] /\
    ts_pcbs s' !! process = Some p' /\ unlocked (pc_lock p') /\
    table_is (t_space s') L' (pc_exit_children p') (delete key M) (dead_nodes xs (ys ++ [node])) /\
    (status <> 0 -> lholds L' (t_space s') (patch f status (bytes32 (u32 (pc_exit_code ch))))).

(** The body of the loop, with the lock held. *)
Lemma wait_body_exited s ready W cs L xs ys process t p M pid status f :
  tasks_wf s ready W cs L xs ys -> heap_limits -> Z.of_nat (size L) < capacity -> runs (t_sched s) t ->
  ts_pcbs s !! process = Some p -> table_is (t_space s) L (pc_exit_children p) M (dead_nodes xs ys) ->
  (pid <> 0 -> is_Some (M !! pid)) -> (pid = 0 -> M <> ∅) ->
  (forall key child, M !! key = Some child -> child <> 0 /\ child <> process /\ exists ch, ts_pcbs s !! child = Some ch) ->
  stores L (t_space s) f status ->
  may (wait_body s process pid status) (child_taken s ready cs W xs ys process pid status t M f).
Proof.
  intros Hs Hlim Hc Hr Hp Hex Hone Hany Hpcbs Hst. unfold wait_body, child_taken.
  destruct (take_exited_spec s L process p M (dead_nodes xs ys) pid Hp Hex)
    as (key & a & L1 & tb & child & Ht1 & HL1 & Hk1 & Hk2 & Hnb & Hsome & Hnone & ->).
  assert (is_Some (M !! key)) as [v HM].
  { destruct (decide (pid = 0)) as [E|E]; [by apply Hk2; [|apply Hany] | by rewrite Hk1; [apply Hone |]]. }
  destruct (Hpcbs key v HM) as (Hchn & Hchp & ch & Hchild). rewrite (Hsome v HM Hchn). cbn [mbind outcome_bind].
  clear child Hsome Hnone. rename v into child. set (s2 := set_pcbs _ _).
  rewrite (get_pcb_ok s2 child ch) by (cbn; by rewrite lookup_insert_ne). cbn [mbind outcome_bind].
  change (t_space s2) with (with_heap (t_space s) a). pose proof (table_is_alive _ _ _ _ _ Ht1) as Ha1.
  eapply may_bind.
  { apply (store_status L1 (with_heap (t_space s) a) f status); [done |].
    destruct Hst as [?|[Hm Hu]]; [by left | right]. split; [by eapply lholds_heap | done]. }
  intros m (Ham & Hcrt & Hview).
  rewrite (unlock_pcb_ok (with_space s2 m) process _ (lookup_insert_eq _ _ _)). cbn [mbind outcome_bind].
  set (p3 := pc_set_locks _ yieldlock_init _). set (s3 := set_pcbs _ _).
  assert (tasks_wf s3 ready W cs L1 xs ys) as Hs3.
  { eapply tasks_wf_step; try done; [by apply (tw_sched _ _ _ _ _ _ _ Hs) | |].
    - intros x Hx. by eapply table_is_live.
    - intros q v Hv. cbn. destruct (decide (process = q)) as [<-|].
      + rewrite lookup_insert_eq. eexists. split; [done |]. cbn. congruence.
      + rewrite !lookup_insert_ne by done. by exists v. }
  pose proof Hr as (Ht & Hst' & Hm).
  eapply may_bind; [apply (add_dead_process_spec s3 ready W cs L1 xs ys t child); try done; [lia | by rewrite Hst'] |].
  intros s4 (node & k & Hnew & Hs4 & [Hcrt4 Hm4 Ht4 _ Ep4 _ (a4 & Esp4)] & Hv4 & _).
  assert (runs (t_sched s4) t) as Hr4 by (unfold runs; by rewrite Hcrt4, Hm4).
  apply may_ret. exists (<[node := k]> L1), node, key, child, ch, p3.
  pose proof (tw_heap _ _ _ _ _ _ _ Hs4) as Ha4. rewrite Ep4, Esp4. rewrite Esp4 in Ha4.
  split; [done |]. split; [done |]. split; [done |]. split; [done |]. split; [done |]. split; [done |].
  split; [done |]. split; [done |]. split; [apply lookup_insert_eq |]. split; [done |]. split.
  - eapply sparing_weaken; [apply table_is_malloc; [by eapply table_is_moved | exact Ha4 | done] |].
    intros x. unfold dead_nodes. set_solver.
  - intros Hn. eapply lholds_heap; [by apply Hview | done].
Qed.

(** C11: a wait for a child that exited, or for any when one exited, returns 0 at
    once, when it is called and when it goes on behind its wake-up: the child's
    exit code is in *status, the child leaves the exited children for the list of
    dead processes, whose cleaner wakes up, and the caller goes on. *)
Theorem process_wait_exited (again : bool) s ready W cs L xs ys process thread t p M C pid status f
    (Hs : tasks_wf s ready W cs L xs ys) (Hlim : heap_limits) (Hc : Z.of_nat (size L) < capacity)
    (Hthr : thr (t_sched s) (s_crt_thread_node (t_sched s)) = Some thread) (Hr : runs (t_sched s) t)
    (Hproc : t_process t = process) (He : has_exited s L (dead_nodes xs ys) process pid p M C)
    (Hst : stores L (t_space s) f status) :
  may (if again then process_wait_again s pid status else process_wait s pid status)
    (child_taken s ready cs W xs ys process pid status t M f).
Proof.
  destruct He as [Hp Hl Hex Hch Hpid Hone Hany Hpcbs].
  assert (s_tcbs (t_sched s) !! thread = Some t) as Htc
    by (destruct Hr as (Ht & _); unfold tcb_of in Ht; by rewrite Hthr in Ht).
  assert (forall p', pc_page_dir p' = pc_page_dir p -> pc_exit_children p' = pc_exit_children p ->
    may (wait_body (set_pcbs s (<[process := p']> (ts_pcbs s))) process pid status)
      (child_taken s ready cs W xs ys process pid status t M f)) as Hbody.
  { intros p' Hd Hx. eapply may_mono.
    { apply (wait_body_exited _ ready W cs L xs ys process t p' M pid status f); try done;
        [by eapply tasks_wf_pcb | apply lookup_insert_eq | by rewrite Hx | by intros [? ?]%Hone |].
      intros key child HM. destruct (Hpcbs key child HM) as (? & ? & ch & ?). split; [done |]. split; [done |].
      exists ch. cbn. by rewrite lookup_insert_ne. }
    intros [s' r] (L' & node & key & child & ch & p'' & E & HM & Hk & Hchild & H'). exists L', node, key, child, ch, p''.
    destruct (Hpcbs key child HM) as (_ & Hne & _). cbn in Hchild. rewrite lookup_insert_ne in Hchild by done. done. }
  unfold process_wait, process_wait_again, wait_process, get_crt_thread_node. rewrite (node_thread_thr _ _ _ Hthr).
  cbn [mbind outcome_bind]. rewrite (get_tcb_ok _ _ t) by done. cbn [mbind outcome_bind]. rewrite Hproc.
  rewrite (lock_pcb_ok s process p) by done. cbn [mbind outcome_bind]. destruct again; [by apply Hbody |].
  rewrite (get_pcb_ok _ _ _ (lookup_insert_eq _ _ _)). cbn [mbind outcome_bind].
  change (t_space (set_pcbs s _)) with (t_space s). change (pc_children (pc_set_locks _ _ _)) with (pc_children p).
  rewrite (table_get_is _ _ _ _ _ pid Hch).
  assert (exists c, (if 0 <? pid then Ok (default 0 (C !! pid)) else Ok 1) = Ok c /\ c <> 0) as (c & -> & Hc0).
  { destruct (Z.ltb_spec 0 pid); [|by exists 1]. eexists. split; [done |]. apply Hone. lia. }
  cbn [mbind outcome_bind]. rewrite (proj2 (Z.eqb_neq c 0)) by done.
  rewrite (on_pcb_ok _ _ _ _ (lookup_insert_eq _ _ _)). cbn [mbind outcome_bind ts_pcbs set_pcbs].
  rewrite insert_insert_eq. by apply Hbody.
Qed.

(** ** A wait that blocks *)

(** The node of a thread that waits for no object and left the processor is in no queue. *)
Lemma left_detached sc sc' ready W thread t :
  sched_wf sc ready W -> thr sc (s_crt_thread_node sc) = Some thread -> s_tcbs sc !! thread = Some t ->
  s_crt_thread_node sc <> s_main_thread_node sc -> ~ waiting W (s_crt_thread_node sc) ->
  switch_keeps sc sc' -> s_crt_thread_node sc' = default (s_main_thread_node sc) (head ready) ->
  t_status t <> TASK_RUNNING ->
  exists t', detached sc' (tail ready) W (s_crt_thread_node sc) thread t' /\ t_status t' = t_status t.
Proof.
  intros Hw Hthr Ht Hm Hnw [_ _ Kt Kf _ _ Kl Hmain] Hc Hst.
  specialize (Kf thread). specialize (Kl thread t Hthr Ht Hm Hst). rewrite Ht in Kf. cbn in Kf.
  destruct (s_tcbs sc' !! thread) as [t'|] eqn:Ht'; [|done]. injection Kl as Kl. exists t'. split; [|done].
  destruct (sw_crt _ _ _ Hw Hm) as [Hnr _].
  assert (forall y, known sc' (tail ready) W y -> known sc ready W y /\ y <> s_crt_thread_node sc) as Hk.
  { intros y [->|[->|[Hy|Hy]]].
    - rewrite Hc. destruct ready as [|h rest]; cbn; [split; [by right; left | done] |].
      split; [right; right; left; by left | set_solver].
    - rewrite Hmain. split; [by right; left | done].
    - destruct ready as [|h rest]; cbn in Hy; [by apply not_elem_of_nil in Hy |].
      split; [right; right; left; by right | set_solver].
    - split; [by right; right; right | by intros ->]. }
  split; try done.
  - apply (sw_known _ _ _ Hw). by left.
  - by rewrite Kt.
  - by intros [_ ?]%Hk.
  - intros y [Hy Hne]%Hk. rewrite Kt, <- Hthr. intros E. apply Hne. by apply (sw_inj _ _ _ Hw); [| left |].
Qed.

(** A process whose child is still running. *)
Record awaits (s : tasks) (L : gmap Z Z) (X : Z -> Prop) (process pid : Z) (p : pcb_t) (M C : gmap Z Z) : Prop := {
  aw_pcb : ts_pcbs s !! process = Some p;
  aw_lock : unlocked (pc_lock p);
  aw_exited : table_is (t_space s) L (pc_exit_children p) M X;
  aw_children : table_is (t_space s) L (pc_children p) C X;
  aw_pid : 0 <= pid;
  aw_one : pid <> 0 -> M !! pid = None /\ default 0 (C !! pid) <> 0;
  aw_any : pid = 0 -> M = ∅
}.

Lemma mark_block_ok sc thread t :
  thr sc (s_crt_thread_node sc) = Some thread -> s_tcbs sc !! thread = Some t ->
  schedule_mark_thread_block sc = Ok (set_tcbs sc (alter (with_status TASK_WAITING) thread (s_tcbs sc))).
Proof.
  intros Hthr Ht. unfold schedule_mark_thread_block. rewrite (node_thread_thr _ _ _ Hthr). cbn [mbind outcome_bind].
  apply update_thread_ok. by exists t.
Qed.

Lemma process_wait_blocks_spec s ready W cs L xs ys process thread t p M C pid status
    (Hs : tasks_wf s ready W cs L xs ys)
    (Hthr : thr (t_sched s) (s_crt_thread_node (t_sched s)) = Some thread) (Hr : runs (t_sched s) t)
    (Hproc : t_process t = process) (Ha : awaits s L (dead_nodes xs ys) process pid p M C) :
  exists s' L' p' t', process_wait s pid status = Ok (s', None) /\
    tasks_wf s' (tail ready) W cs L' xs ys /\
    s_crt_thread_node (t_sched s') = default (s_main_thread_node (t_sched s)) (head ready) /\
    (exists u, tcb_of (t_sched s') (s_crt_thread_node (t_sched s')) = Some u /\ t_status u = TASK_RUNNING) /\
    detached (t_sched s') (tail ready) W (s_crt_thread_node (t_sched s)) thread t' /\
    t_status t' = TASK_WAITING /\
    ts_pcbs s' !! process = Some p' /\ unlocked (pc_lock p') /\
    pc_waiting_thread_node p' = s_crt_thread_node (t_sched s) /\
    pc_waiting_child_pid p' = (if 0 <? pid then pid else pc_id p) /\ pc_id p' = pc_id p /\
    table_is (t_space s') L' (pc_exit_children p') M (dead_nodes xs ys) /\ (size L' <= size L)%nat /\
    ht_buckets_num (tb_table (pc_exit_children p')) = ht_buckets_num (tb_table (pc_exit_children p)) /\
    forall q v, q <> process -> ts_pcbs s !! q = Some v -> exists v', ts_pcbs s' !! q = Some v' /\ same_pcb v v'.
Proof.
  destruct Ha as [Hp Hl Hex Hch Hpid Hone Hany]. pose proof Hr as (Ht & Hst & Hm).
  assert (s_tcbs (t_sched s) !! thread = Some t) as Htc by (unfold tcb_of in Ht; by rewrite Hthr in Ht).
  unfold process_wait, wait_process, get_crt_thread_node. rewrite (node_thread_thr _ _ _ Hthr).
  cbn [mbind outcome_bind]. rewrite (get_tcb_ok _ _ t) by done. cbn [mbind outcome_bind]. rewrite Hproc.
  rewrite (lock_pcb_ok s process p) by done. cbn [mbind outcome_bind].
  rewrite (get_pcb_ok _ _ _ (lookup_insert_eq _ _ _)). cbn [mbind outcome_bind].
  change (t_space (set_pcbs s _)) with (t_space s). change (pc_children (pc_set_locks _ _ _)) with (pc_children p).
  rewrite (table_get_is _ _ _ _ _ pid Hch).
  assert (exists c, (if 0 <? pid then Ok (default 0 (C !! pid)) else Ok 1) = Ok c /\ c <> 0) as (c & -> & Hc0).
  { destruct (Z.ltb_spec 0 pid); [|by exists 1]. eexists. split; [done |]. apply Hone. lia. }
  cbn [mbind outcome_bind]. rewrite (proj2 (Z.eqb_neq c 0)) by done.
  rewrite (on_pcb_ok _ _ _ _ (lookup_insert_eq _ _ _)). cbn [mbind outcome_bind].
  set (p1 := pc_set_waiting _ _ _). set (s1 := set_pcbs _ _). unfold wait_body.
  destruct (take_exited_spec s1 L process p1 M (dead_nodes xs ys) pid) as (key & a & L1 & tb & child & Ht1 & HL1 & Hk1 & Hk2 & Hnb & Hsome & Hnone & ->);
    [apply lookup_insert_eq | exact Hex |].
  assert (M !! key = None) as HM.
  { destruct (decide (pid = 0)) as [E|E]; [by rewrite (Hany E), lookup_empty | by rewrite Hk1; [apply Hone |]]. }
  rewrite delete_id in Ht1 by done. rewrite (Hnone HM). cbn [mbind outcome_bind].
  rewrite (on_pcb_ok _ _ _ _ (lookup_insert_eq _ _ _)). cbn [mbind outcome_bind].
  change (s_crt_thread_node (t_sched (set_pcbs _ _))) with (s_crt_thread_node (t_sched s)).
  set (p2 := pc_set_waiting _ _ _). set (s2 := set_pcbs _ _).
  assert (tasks_wf s2 ready W cs L1 xs ys) as Hs2.
  { eapply tasks_wf_step; [exact Hs | | | | | | |]; try done;
      [exact (tw_sched _ _ _ _ _ _ _ Hs) | by eapply table_is_alive | |].
    - intros x Hx. by eapply table_is_live.
    - intros q v Hv. cbn. destruct (decide (process = q)) as [<-|].
      + rewrite lookup_insert_eq. eexists. split; [done |]. cbn. congruence.
      + rewrite !lookup_insert_ne by done. by exists v. }
  destruct (current_wf s2 ready W cs L1 xs ys thread t (with_status TASK_WAITING) Hs2 Hr Hthr) as (Hs3 & Ht3 & Htc3);
    [done | done |].
  rewrite (on_sched_same s2 schedule_mark_thread_block
    (set_tcbs (t_sched s2) (alter (with_status TASK_WAITING) thread (s_tcbs (t_sched s2))))).
  2: { exact (mark_block_ok (t_sched s2) thread t Hthr Htc). }
  2: { done. }
  cbn [mbind outcome_bind]. set (s3 := with_sched s2 _) in *.
  rewrite (unlock_pcb_ok s3 process p2) by apply lookup_insert_eq. cbn [mbind outcome_bind]. set (s4 := set_pcbs s3 _).
  assert (tasks_wf s4 ready W cs L1 xs ys) as Hs4.
  { eapply tasks_wf_step; [exact Hs3 | | apply keeps_refl | | | | |]; try done;
      [exact (tw_sched _ _ _ _ _ _ _ Hs3) | by eapply table_is_alive | |].
    - intros x Hx. by eapply table_is_live.
    - intros q v Hv. cbn. destruct (decide (process = q)) as [<-|].
      + rewrite lookup_insert_eq. eexists. split; [done |]. cbn in Hv. rewrite lookup_insert_eq in Hv.
        by injection Hv as <-.
      + rewrite lookup_insert_ne by done. by exists v. }
  pose proof (tw_sched _ _ _ _ _ _ _ Hs4) as Hw4.
  destruct (schedule_thread_yield_spec (t_sched s4) ready W _ Hw4 Ht3) as (sc & E & Hw5 & Hc5 & _ & Hu5).
  pose proof (schedule_thread_yield_keeps _ _ _ _ Hw4 E) as Hk5.
  destruct (on_sched_switch s4 schedule_thread_yield sc) as (s5 & -> & Hsa);
    [by eapply tw_dir | done | by eapply switch_dir_known |].
  cbn [mbind outcome_bind].
  destruct (left_detached (t_sched s4) sc ready W thread (with_status TASK_WAITING t)) as (t' & Hd & Hst'); try done.
  { intros Hx. pose proof (sw_is_waiting _ _ _ (tw_sched _ _ _ _ _ _ _ Hs) _ _ Hx Ht). congruence. }
  pose proof Hsa as [S1 _ S3 _ S5 _ _].
  destruct (S5 process _ (lookup_insert_eq _ _ _)) as (p' & Hp' & l & ->).
  eexists s5, L1, _, t'. split; [done |]. rewrite !S1.
  split; [by eapply switch_wf |]. split; [done |]. split; [done |]. split; [exact Hd |]. split; [done |].
  split; [exact Hp' |]. do 4 (split; [done |]). split; [by eapply (table_is_heap _ (t_space s5)) in Ht1 |].
  split; [done |]. split; [exact Hnb |]. intros q v Hq Hv. apply S5. cbn. by rewrite !lookup_insert_ne.
Qed.

(** C12: a wait for a child that is still running takes the caller off the processor,
    its process's lock free: the process names the child (itself, when any will
    do) and the caller's node, which is in no queue, so that the child's exit
    wakes it; the next ready thread or the idle one runs. *)
Theorem process_wait_blocks s ready W cs L xs ys process thread t p M C pid status
    (Hs : tasks_wf s ready W cs L xs ys)
    (Hthr : thr (t_sched s) (s_crt_thread_node (t_sched s)) = Some thread) (Hr : runs (t_sched s) t)
    (Hproc : t_process t = process) (Ha : awaits s L (dead_nodes xs ys) process pid p M C) :
  exists s' L' p' t', process_wait s pid status = Ok (s', None) /\
    tasks_wf s' (tail ready) W cs L' xs ys /\
    s_crt_thread_node (t_sched s') = default (s_main_thread_node (t_sched s)) (head ready) /\
    (exists u, tcb_of (t_sched s') (s_crt_thread_node (t_sched s')) = Some u /\ t_status u = TASK_RUNNING) /\
    detached (t_sched s') (tail ready) W (s_crt_thread_node (t_sched s)) thread t' /\
    t_status t' = TASK_WAITING /\
    ts_pcbs s' !! process = Some p' /\ unlocked (pc_lock p') /\
    pc_waiting_thread_node p' = s_crt_thread_node (t_sched s) /\
    pc_waiting_child_pid p' = (if 0 <? pid then pid else pc_id p) /\ pc_id p' = pc_id p /\
    table_is (t_space s') L' (pc_exit_children p') M (dead_nodes xs ys) /\ (size L' <= size L)%nat /\
    ht_buckets_num (tb_table (pc_exit_children p')) = ht_buckets_num (tb_table (pc_exit_children p)) /\
    forall q v, q <> process -> ts_pcbs s !! q = Some v -> exists v', ts_pcbs s' !! q = Some v' /\ same_pcb v v'.
Proof. by eapply process_wait_blocks_spec. Qed.

(** ** The last step *)

(** C14: destroying a process gives its page directory's address, not its frame, to
    release_phy_frame: for every directory from 8 KiB on that is a bit outside of
    the bitmap of the 8192 frames. *)
Theorem destroy_process_out_of_bounds s process p ws
    (Hp : ts_pcbs s !! process = Some p)
    (Hb : bm_wf (fr_words (p_frames (t_space s).2)) (fr_map (p_frames (t_space s).2)) ws)
    (Hlen : 32 * Z.of_nat (length ws) = PHYSICAL_MEM_SIZE / PAGE_SIZE)
    (Hl : unlocked (fr_lock (p_frames (t_space s).2))) (Hd : 8192 <= pc_page_dir p) :
  destroy_process s process = Fault.
Proof.
  unfold destroy_process. rewrite (get_pcb_ok _ _ _ Hp). cbn [mbind outcome_bind].
  destruct (t_space s) as [m pg]. cbn [snd] in *. unfold release_phy_frame. rewrite lock_unlocked by done.
  cbn [mbind outcome_bind]. unfold bitmap_clear_bit, word_get, INDEX_FROM_BIT. destruct Hb as [Ha _ _ _ _].
  rewrite Ha. cbn [deref mbind outcome_bind]. unfold PHYSICAL_MEM_SIZE, PAGE_SIZE in Hlen.
  rewrite (proj2 (Z.leb_le 0 _)), (lookup_ge_None_2 ws) by lia. done.
Qed.
End spec.

(** ** Examples

    The threads of [demo_sched]; the queue for the dead is the one at 0x500. *)

Abbreviation kspace := (mem * paging (A := kmem))%type.

Lemma kmem_limits : heap_limits (A := kmem) /\
  1000 < request_limit (A := kmem) /\ 10 < capacity (A := kmem).
Proof. vm_compute. by split_and!. Qed.

(** Two tables on an empty heap, with one entry in the second. *)
Definition demo_tables (m : kspace) (key v : Z) : outcome (kspace * table * table) :=
  '(m, t1) ← new_table m; '(m, t2) ← new_table m; '(m, t2) ← table_put m t2 key v; Ok (m, t1, t2).

Lemma demo_tables_ok (m : kspace) key v :
  alive (heap_of m) ∅ -> is_u32 key -> is_panic (demo_tables m key v) = false ->
  exists a t1 t2 L, demo_tables m key v = Ok (with_heap m a, t1, t2) /\ alive a L /\ (size L <= 4)%nat /\
    table_is (with_heap m a) L t1 ∅ (dead_nodes [] []) /\ table_is (with_heap m a) L t2 {[key := v]} (dead_nodes [] []) /\
    may_grow (tb_table t1) /\ may_grow (tb_table t2).
Proof.
  intros A0 Hk Hno. unfold demo_tables in *. destruct kmem_limits as (_ & Hr & Hc).
  destruct (new_table_is m ∅ A0) as [E | ([m1 t1] & E1 & a1 & p1 & k1 & -> & H1 & A1 & Hn1 & T1)];
    [rewrite map_size_empty; lia | unfold INITIAL_BUCKETS_NUM, LIST_SIZE; lia | by rewrite E in Hno |].
  rewrite E1 in *. cbn [mbind outcome_bind] in *.
  assert (size (<[p1 := k1]> (∅ : gmap Z Z)) = 1%nat) as Hsz1 by (by rewrite map_size_insert_None).
  destruct (new_table_is (with_heap m a1) (<[p1 := k1]> ∅) A1)
    as [E | ([m2 t2] & E2 & a2 & p2 & k2 & -> & H2 & A2 & Hn2 & T2)]; [rewrite Hsz1; lia | unfold INITIAL_BUCKETS_NUM, LIST_SIZE; lia | by rewrite E in Hno |].
  rewrite E2 in *. cbn [mbind outcome_bind] in *.
  assert (p2 <> p1) as Hne by (intros ->; by rewrite lookup_insert_eq in H2).
  assert (size (<[p2:=k2]> (<[p1:=k1]> (∅ : gmap Z Z))) = 2%nat) as Hsz
    by (by rewrite map_size_insert_None, Hsz1).
  assert (may_grow (tb_table t2)) as Hg by (unfold may_grow; rewrite Hn2; vm_compute; by split).
  destruct (table_put_is (with_heap (with_heap m a1) a2) (<[p2 := k2]> (<[p1 := k1]> ∅)) t2 ∅ (eq p1) key v)
    as [E | ([m3 t3] & E3 & a3 & L3 & -> & T3 & HL3 & Hn3)]; [| exact Hk | rewrite Hsz; lia | exact Hg | by rewrite E in Hno |].
  - apply T2; [done | by rewrite lookup_insert_eq; eexists |]. intros x <-.
    rewrite lookup_insert_ne, lookup_insert_eq by done. split; [by eexists | done].
  - rewrite E3. cbn [mbind outcome_bind]. exists a3, t1, t3, L3. split; [done |].
    pose proof (table_is_alive _ _ _ _ _ T3) as A3. split; [done |]. split; [lia |]. split; [|split].
    + apply T1; [done | exact (table_is_live _ _ _ _ _ p1 T3 eq_refl) | by intros x ?%not_elem_of_nil].
    + rewrite insert_empty in T3. eapply sparing_weaken; [exact T3 | by intros x ?%not_elem_of_nil].
    + split; [unfold may_grow; rewrite Hn1; vm_compute; by split |]. rewrite Hn2 in Hn3. unfold may_grow, LIST_SIZE, INITIAL_BUCKETS_NUM in *. lia.
Qed.

Definition no_table : table := Table (HT 0 0 0) ∅ ∅ ∅.
Definition demo_bits : bitmap_t := {| bm_array := 1; bm_alloc_array := false; bm_array_size := 1; bm_total_bits := 32 |}.
Definition demo_pcb (id : Z) (threads children exits : table) (pid node : Z) : pcb_t :=
  Pcb id 0 PROCESS_NORMAL threads demo_bits 0 42 children exits pid node blank_dir yieldlock_init yieldlock_init.

Lemma demo_bits_wf : bm_wf {[1 := [0]]} demo_bits [0].
Proof. split; try done. by repeat constructor. Qed.

Definition demo_pool : id_pool_t :=
  {| ip_size := 0; ip_max_size := 0; ip_expand_size := 0; ip_id_map := demo_bits; ip_lock := yieldlock_init |}.

(** The processes 7, 8 and 9 of the threads; [p8] is the current one. *)
Definition demo_tasks (m : kspace) (sc : sched) (p8 : pcb_t) : Process.tasks (A := kmem) :=
  Tasks (Threads m {[1 := [0]]} sc demo_pool)
    {[7 := demo_pcb 0 no_table no_table no_table 0 0; 8 := p8;
      9 := demo_pcb 5 no_table no_table no_table 0 0]}
    demo_pool no_table yieldlock_init ∅ linked_list_init linked_list_init yieldlock_init 0x500.

Definition demo_space (a : kmem) : kspace := with_heap (∅, blank_space) a.

Lemma demo_tasks_wf a L p8 :
  alive a L -> pc_page_dir p8 = blank_dir ->
  tasks_wf (demo_tasks (demo_space a) demo_sched p8) [0x120] demo_waits [0x130] L [] [].
Proof.
  intros Ha Hp. split; try done.
  - exact demo_wf.
  - split; [apply is_list_empty | apply is_list_empty | by intros x ?%not_elem_of_nil | by intros x ?%not_elem_of_nil].
  - exists p8. split; [done |]. by rewrite Hp.
  - split; [by eexists |]. intros q t. cbn -[lookup insert]. unfold demo_sched. cbn [s_tcbs].
    rewrite !lookup_insert_Some, lookup_singleton_Some.
    intros [[_ <-]|[_ [[_ <-]|[_ [[_ <-]|[_ [_ <-]]]]]]] _; by eexists.
Qed.

Lemma schedule_thread_exit_correct_witness :
  exists a t1 t2 s', let s := demo_tasks (demo_space a) demo_sched (demo_pcb 4 t2 no_table t1 0 0) in
    schedule_thread_exit s = Ok s' /\ s_crt_thread_node (t_sched s') = 0x120 /\
    exists node, values (ts_dead_nodes s') [node] = [0x1100].
Proof.
  destruct (demo_tables_ok (∅, blank_space) 1 0x1100 boot_heap_alive) as (a & t1 & t2 & L & E & Ha & HL & H1 & H2 & _ & _);
    [done | vm_compute; reflexivity |].
  exists a, t1, t2. set (s := demo_tasks _ _ _).
  assert (is_panic ('(m, t1, t2) ← demo_tables (∅, blank_space) 1 0x1100;
    schedule_thread_exit (demo_tasks m demo_sched (demo_pcb 4 t2 no_table t1 0 0))) = false) as Hno
    by (vm_compute; reflexivity).
  rewrite E in Hno. change (is_panic (schedule_thread_exit s) = false) in Hno.
  destruct (schedule_thread_exit_correct s [0x120] demo_waits [0x130] L [] [] 8 0x1100 (demo_pcb 4 t2 no_table t1 0 0)
    demo_current {[1 := 0x1100]} [0]) as [Hp | (s' & Hs' & L' & node & _ & Hn & _ & _ & Hv & _)].
  - by apply demo_tasks_wf.
  - apply kmem_limits.
  - destruct kmem_limits as (_ & _ & Hc). lia.
  - reflexivity.
  - apply demo_runs.
  - done.
  - split; [by split | reflexivity | reflexivity | exact H2 | reflexivity | exact demo_bits_wf | by intros []].
  - by rewrite Hp in Hno.
  - exists s'. split; [exact Hs' |]. split; [by injection Hn | by exists node].
Defined.

(** A wait of process 8 for child 5, process 9, with [t1] as exited children. *)
Definition demo_waiting_tasks (a : kmem) (t1 t2 : table) : Process.tasks (A := kmem) :=
  demo_tasks (demo_space a) demo_sched (demo_pcb 4 no_table t2 t1 0 0).

Lemma demo_awaits a L t1 t2 :
  table_is (demo_space a) L t1 ∅ (dead_nodes [] []) ->
  table_is (demo_space a) L t2 {[5 := 9]} (dead_nodes [] []) ->
  awaits (demo_waiting_tasks a t1 t2) L (dead_nodes [] []) 8 5 (demo_pcb 4 no_table t2 t1 0 0) ∅ {[5 := 9]}.
Proof. intros H1 H2. by split. Qed.

Lemma process_wait_blocks_witness :
  exists a t1 t2 s', process_wait (demo_waiting_tasks a t1 t2) 5 0 = Ok (s', None) /\
    s_crt_thread_node (t_sched s') = 0x120.
Proof.
  destruct (demo_tables_ok (∅, blank_space) 5 9 boot_heap_alive) as (a & t1 & t2 & L & E & Ha & HL & H1 & H2 & _);
    [done | vm_compute; reflexivity |].
  destruct (process_wait_blocks (demo_waiting_tasks a t1 t2) [0x120] demo_waits [0x130] L [] [] 8 0x1100
    demo_current (demo_pcb 4 no_table t2 t1 0 0) ∅ {[5 := 9]} 5 0) as (s' & p' & L' & t' & E' & _ & Hn & _).
  - by apply demo_tasks_wf.
  - reflexivity.
  - apply demo_runs.
  - reflexivity.
  - by apply demo_awaits.
  - exists a, t1, t2, s'. split; [exact E' | exact Hn].
Defined.

(** The child's exit wakes the parent that waits. *)
Lemma exit_notify_correct_witness :
  exists a t1 t2 s s', process_wait (demo_waiting_tasks a t1 t2) 5 0 = Ok (s, None) /\
    exit_notify s 9 8 = Ok s' /\ exists L', tasks_wf s' [0x110] demo_waits [0x130] L' [] [].
Proof.
  destruct (demo_tables_ok (∅, blank_space) 5 9 boot_heap_alive)
    as (a & t1 & t2 & L & E & Ha & HL & H1 & H2 & Hg & _); [done | vm_compute; reflexivity |].
  destruct (process_wait_blocks_spec (demo_waiting_tasks a t1 t2) [0x120] demo_waits [0x130] L [] [] 8 0x1100
    demo_current (demo_pcb 4 no_table t2 t1 0 0) ∅ {[5 := 9]} 5 0)
    as (s & L1 & pp & t & E1 & Hs & _ & _ & Hd & Hw & Hpp & Hl & Hwn & Hwc & _ & Ht & HL1 & Hb & Hq);
    [by apply demo_tasks_wf | reflexivity | apply demo_runs | reflexivity | by apply demo_awaits |].
  destruct (Hq 9 (demo_pcb 5 no_table no_table no_table 0 0)) as (p9 & Hp9 & l & Ep9); [done | reflexivity |].
  exists a, t1, t2, s. assert (is_panic (exit_notify s 9 8) = false) as Hno.
  { assert (is_panic ('(m, t1, t2) ← demo_tables (∅, blank_space) 5 9;
      '(s, _) ← process_wait (demo_tasks m demo_sched (demo_pcb 4 no_table t2 t1 0 0)) 5 0;
      exit_notify s 9 8) = false) as Hno by (vm_compute; reflexivity).
    rewrite E in Hno. change (is_panic ('(s, _) ← process_wait (demo_waiting_tasks a t1 t2) 5 0;
      exit_notify s 9 8) = false) in Hno. by rewrite E1 in Hno. }
  destruct (exit_notify_correct s [] demo_waits [0x130] L1 [] [] 9 8 p9 pp ∅ 0x1100 t)
    as [Hp | (s' & Hs' & L' & pp' & Hwf & _)].
  - exact Hs.
  - exact Hp9.
  - exact Hpp.
  - done.
  - exact Hl.
  - exact Ht.
  - rewrite Ep9. change (is_u32 5). unfold is_u32. lia.
  - destruct kmem_limits as (_ & _ & Hc). lia.
  - unfold may_grow. rewrite Hb. exact Hg.
  - intros _. rewrite Hwn. split; [exact Hd | rewrite Hw; discriminate].
  - by rewrite Hp in Hno.
  - exists s'. split; [done |]. split; [exact Hs' |]. exists L'.
    assert (notified p9 pp = true) as En by (unfold notified; rewrite Hwc, Ep9; reflexivity).
    rewrite En, Hwn in Hwf. exact Hwf.
Defined.

(** The parent is ready again after a wait for process 5, and process 5 exits. *)
Lemma exit_notify_stale_witness :
  exists a t1 t2 s', exit_notify (demo_tasks (demo_space a) demo_sched (demo_pcb 4 no_table t2 t1 5 0x120)) 9 8 = Ok s' /\
    forall ready, ~ is_list (s_nodes (t_sched s')) (s_ready_tasks (t_sched s')) ready.
Proof.
  destruct (demo_tables_ok (∅, blank_space) 5 9 boot_heap_alive)
    as (a & t1 & t2 & L & E & Ha & HL & H1 & H2 & Hg & _); [done | vm_compute; reflexivity |].
  exists a, t1, t2. set (s := demo_tasks _ _ _).
  assert (is_panic ('(m, t1, t2) ← demo_tables (∅, blank_space) 5 9;
    exit_notify (demo_tasks m demo_sched (demo_pcb 4 no_table t2 t1 5 0x120)) 9 8) = false) as Hno
    by (vm_compute; reflexivity).
  rewrite E in Hno. change (is_panic (exit_notify s 9 8) = false) in Hno.
  destruct (exit_notify_stale s [] L 9 8 (demo_pcb 5 no_table no_table no_table 0 0)
    (demo_pcb 4 no_table t2 t1 5 0x120) ∅ (dead_nodes [] []) 0x1200 (demo_tcb 2 TASK_READY 0 8))
    as [Hp | (s' & Hs' & _ & Hl)].
  - exact (sw_ready _ _ _ demo_wf).
  - reflexivity.
  - reflexivity.
  - reflexivity.
  - reflexivity.
  - reflexivity.
  - discriminate.
  - by split.
  - exact H1.
  - by split.
  - destruct kmem_limits as (_ & _ & Hc). lia.
  - exact Hg.
  - by rewrite Hp in Hno.
  - exists s'. split; [exact Hs' | exact Hl].
Defined.

(** The exit code of process 9 goes to the word at 4 MiB. *)
Lemma process_wait_exited_witness :
  exists a t1 t2 s', process_wait (demo_tasks (demo_space a) demo_sched (demo_pcb 4 no_table t1 t2 0 0)) 0 0x400000
      = Ok (s', Some 0) /\ exists node, values (ts_dead_nodes s') [node] = [9].
Proof.
  destruct (demo_tables_ok (∅, blank_space) 5 9 boot_heap_alive)
    as (a & t1 & t2 & L & E & Ha & HL & H1 & H2 & _ & _); [done | vm_compute; reflexivity |].
  exists a, t1, t2. set (s := demo_tasks _ _ _).
  assert (is_panic ('(m, t1, t2) ← demo_tables (∅, blank_space) 5 9;
    process_wait (demo_tasks m demo_sched (demo_pcb 4 no_table t1 t2 0 0)) 0 0x400000) = false) as Hno
    by (vm_compute; reflexivity).
  rewrite E in Hno. change (is_panic (process_wait s 0 0x400000) = false) in Hno.
  destruct (process_wait_exited false s [0x120] demo_waits [0x130] L [] [] 8 0x1100 demo_current
    (demo_pcb 4 no_table t1 t2 0 0) {[5 := 9]} ∅ 0 0x400000 (patch (fun _ => 0) KERNEL_BASE []))
    as [Hp | ([s' r] & Hs' & L' & node & key & child & ch & p' & -> & HM & _ & _ & _ & _ & _ & Hv & _)].
  - by apply demo_tasks_wf.
  - apply kmem_limits.
  - destruct kmem_limits as (_ & _ & Hc). lia.
  - reflexivity.
  - apply demo_runs.
  - reflexivity.
  - split.
    + reflexivity.
    + by split.
    + exact H2.
    + exact H1.
    + lia.
    + intros Hn. by destruct Hn.
    + intros _ He. discriminate (f_equal (lookup 5) He).
    + intros key child [<- <-]%lookup_singleton_Some. split; [done |]. split; [done |]. by eexists.
  - right. split.
    2: { intros b Hb. unfold is_u32. split; [lia |]. right.
      change (b < KERNEL_BASE /\ user_addr b). unfold user_addr, KERNEL_BASE. lia. }
    apply (lholds_heap ∅ L (∅, blank_space)); [by apply (blank_holds KERNEL_BASE []) | exact Ha].
  - by rewrite Hp in Hno.
  - exists s'. split; [exact Hs' |]. exists node. apply lookup_singleton_Some in HM as [_ <-]. exact Hv.
Defined.

(** The bitmap of all frames, and a directory above the first megabyte. *)
Lemma destroy_process_out_of_bounds_witness :
  destroy_process (demo_tasks (∅, set_frames blank_space
    {| fr_words := {[1 := replicate 256 0]};
       fr_map := {| bm_array := 1; bm_alloc_array := false; bm_array_size := 256; bm_total_bits := 8192 |};
       fr_lock := yieldlock_init |}) demo_sched (demo_pcb 4 no_table no_table no_table 0 0)) 8 = Fault.
Proof.
  apply (destroy_process_out_of_bounds _ 8 (demo_pcb 4 no_table no_table no_table 0 0) (replicate 256 0)).
  - reflexivity.
  - split; [reflexivity | reflexivity | reflexivity | | vm_compute; reflexivity].
    by apply Forall_replicate.
  - reflexivity.
  - by split.
  - vm_compute. discriminate.
Defined.
