(* ===== verification/Exec.v ===== *)
(** * Running a program (process_exec of task/process.c)

    The state of the kernel that system calls work on: processes, file system,
    screen and keyboard.  [process_exec] replaces the program of the current
    process; when the file is not there it says so and changes nothing else. *)

From S2P Require Import Prelude.
From S2P Require Import Memory.
From S2P Require Import YieldLock.
From S2P Require Import Allocator.
From S2P Require Import CStdlib.
From S2P Require Import Paging.
From S2P Require Import Scheduler.
From S2P Require Import AddressSpace.
From S2P Require Import VMem.
From S2P Require Import Elf.
From S2P Require Import HeapSpace.
From S2P Require Import StrArray.
From S2P Require Import Monitor.
From S2P Require Import Printf.
From S2P Require Import Disk.
From S2P Require Import NaiveFs.
From S2P Require Import Thread.
From S2P Require Import Process.
From S2P Require Import Tasks.
From S2P Require Import Keyboard.

Section exec.
Context {A : Type} `{BlockAllocator A}.
Abbreviation space := (mem * paging (A := A))%type.
Abbreviation tasks := (Process.tasks (A := A)).

(** [k_metas] and [k_offset] are the static variables of the file system. *)
Record kernel := Kernel {
  k_tasks : tasks;
  k_metas : Z;
  k_offset : Z;
  k_monitor : monitor;
  k_keyboard : keyboard
}.

Definition k_space (k : kernel) : space := t_space (k_tasks k).
Definition set_tasks (k : kernel) (s : tasks) : kernel := Kernel s (k_metas k) (k_offset k) (k_monitor k) (k_keyboard k).
Definition set_k_space (k : kernel) (m : space) : kernel := set_tasks k (with_space (k_tasks k) m).
Definition set_k_monitor (k : kernel) (mon : monitor) : kernel :=
  Kernel (k_tasks k) (k_metas k) (k_offset k) mon (k_keyboard k).

(** The file system's part of the state. *)
Definition k_fs (k : kernel) : naive := Naive (k_space k) (k_metas k) (k_offset k).
Definition on_fs {R} (k : kernel) (f : naive -> outcome (naive * R)) : outcome (kernel * R) :=
  '(s, r) ← f (k_fs k);
  Ok (Kernel (with_space (k_tasks k) (nf_space s)) (nf_metas s) (nf_offset s) (k_monitor k) (k_keyboard k), r).
Definition on_tasks {R} (k : kernel) (f : tasks -> outcome (tasks * R)) : outcome (kernel * R) :=
  '(s, r) ← f (k_tasks k); Ok (set_tasks k s, r).
Definition kernel_printf (fuel : nat) (k : kernel) (ps : list piece) : outcome kernel :=
  '(m, mon) ← monitor_printf fuel (k_space k) (k_monitor k) ps; Ok (set_k_monitor (set_k_space k m) mon).

Context (disk : Z -> Z) (FILE_NUM : Z).
Context (junk fallthrough no_id : Z) (text : kernel_text) (fuel : nat) (c : Z -> Z).

Definition not_found_message (path : Z) : list piece :=
  [Lit [67; 111; 109; 109; 97; 110; 100; 32]; Str path; Lit [32; 110; 111; 116; 32; 102; 111; 117; 110; 100; 10]].
Definition load_failed_message (path : Z) : list piece :=
  [Lit [70; 97; 105; 108; 101; 100; 32; 116; 111; 32; 108; 111; 97; 100; 32; 99; 109; 100; 32]; Str path; Lit [10]].
Definition elf_failed_message (path : Z) : list piece :=
  [Lit [102; 97; 105; 108; 101; 32; 116; 111; 32; 108; 111; 97; 100; 32; 101; 108; 102; 32; 102; 105; 108; 101; 32];
   Str path; Lit [10]].

(** The file could not be loaded: the only thread exits the process.  If it
    returned, the caller would go on with an entry that was never written. *)
Definition exec_failed (k : kernel) (argc args path_copy read_buffer : Z) : outcome kernel :=
  k ← kernel_printf fuel k (elf_failed_message path_copy);
  m ← a_free (k_space k) read_buffer;
  s ← exec_free (with_space (k_tasks k) m) argc args path_copy;
  '(s, ok) ← process_exit s (-1);
  match ok with true => Ok (set_tasks k s) | false => Fault end.

(** [process_exec] from the file in [read_buffer] on.  It ends in the exit of the
    current thread, or of the process when the file is not loaded. *)
Definition exec_loaded (k : kernel) (path argc argv read_buffer : Z) : outcome kernel :=
  let s := k_tasks k in
  crt_thread ← get_crt_thread (t_sched s);
  t ← get_tcb s crt_thread;
  let process := t_process t in
  s ← exec_threads s process crt_thread;
  '(m, args, path_copy) ← exec_copies fuel (t_space s) path argc argv;
  s ← release_user_space_pages (with_space s m);
  '(m, failed, exec_entry) ← load_elf (t_space s) read_buffer;
  let s := with_space s m in
  match exec_entry with
  | None => exec_failed (set_tasks k s) argc args path_copy read_buffer
  | Some exec_entry =>
      m ← a_free (t_space s) read_buffer;
      '(s, new_thread) ← create_new_user_thread junk fallthrough no_id text fuel c (with_space s m)
        process path_copy exec_entry argc args;
      s ← schedule_new s new_thread;
      s ← exec_free s argc args path_copy;
      s ← schedule_thread_exit s;
      Ok (set_tasks k s)
  end.

(** [stat] is the address of the local variable on the kernel stack.  The result
    of the call, or none when the calling thread is gone. *)
Definition process_exec (k : kernel) (stat path argc argv : Z) : outcome (kernel * option Z) :=
  '(k, r) ← on_fs k (fun s => stat_file disk FILE_NUM s path stat);
  if negb (r =? 0) then k ← kernel_printf fuel k (not_found_message path); Ok (k, Some (-1))
  else
    '(m, size) ← bs_load32 (k_space k) stat;
    '(m, read_buffer) ← a_malloc m size;
    '(k, n) ← on_fs (set_k_space k m) (fun s => read_file disk FILE_NUM s path read_buffer 0 size);
    if negb (u32 n =? size) then
      k ← kernel_printf fuel k (load_failed_message path);
      m ← a_free (k_space k) read_buffer;
      Ok (set_k_space k m, Some (-1))
    else k ← exec_loaded k path argc argv read_buffer; Ok (k, None).

(** ** A program that is not there *)

(** Only the address space and the screen changed. *)
Definition only_printed (k k' : kernel) : Prop :=
  k' = set_k_monitor (set_k_space k (k_space k')) (k_monitor k').

Lemma on_fs_moved L f k (s : naive) :
  moved L f (k_fs k) s ->
  exists m, lholds L m f /\
    Kernel (with_space (k_tasks k) (nf_space s)) (nf_metas s) (nf_offset s) (k_monitor k) (k_keyboard k) = set_k_space k m.
Proof. intros (m & -> & Hm). by exists m. Qed.

Lemma kernel_printf_spec L f k ps out :
  pieces_show (M := space) fuel f ps out -> lholds L (k_space k) f -> screen (k_monitor k) -> unlocked (monitor_lock (k_monitor k)) ->
  may (kernel_printf fuel k ps) (fun k' => lholds L (k_space k') f /\ only_printed k k' /\
    screen_step (k_monitor k) (Write out COLOR_WHITE) = Ok (k_monitor k')).
Proof.
  intros HP Hm Hs Hu. unfold kernel_printf.
  eapply may_bind; [by apply (l_printf L fuel f ps out) |]. intros [m mon] (Hm' & E & _). by apply may_ret.
Qed.

(** Asking for a file that is not there changes nothing. *)
Lemma stat_missing k files L f path name stat :
  lholds L (k_space k) f -> valid_files files -> mounted FILE_NUM f (k_fs k) files ->
  name_at (M := space) f path name -> name ∉ (fst <$> files) -> usable (M := space) stat 4 ->
  may (on_fs k (fun s => stat_file disk FILE_NUM s path stat)) (fun '(k', r) =>
    r = -1 /\ exists m, lholds L m f /\ k' = set_k_space k m).
Proof.
  intros Hm Hvf Hmt Hname Hni Hst. unfold on_fs.
  eapply may_bind; [by apply (stat_file_spec disk FILE_NUM (k_fs k) files L f path name stat) |].
  intros [s r] [(i & data & Hi & _)|(_ & -> & Hmv)].
  - exfalso. apply Hni, list_elem_of_fmap. exists (name, data). split; [done |]. by eapply list_elem_of_lookup_2.
  - destruct (on_fs_moved L f k s Hmv) as (m & Hm' & ->). apply may_ret. split; [done |]. by exists m.
Qed.

(** C19: exec of a path that names no file says so on the screen and returns -1; the
    process, its threads and what its memory holds are as before. *)
Theorem exec_not_found k files L f stat path name argc argv
    (Hm : lholds L (k_space k) f) (Hvf : valid_files files) (Hmt : mounted FILE_NUM f (k_fs k) files)
    (Hname : name_at (M := space) f path name) (Hni : name ∉ (fst <$> files)) (Hst : usable (M := space) stat 4)
    (Hs : screen (k_monitor k)) (Hu : unlocked (monitor_lock (k_monitor k))) (Hf : (length name < fuel)%nat) :
  may (process_exec k stat path argc argv) (fun '(k', r) => r = Some (-1) /\
    lholds L (k_space k') f /\ only_printed k k' /\
    screen_step (k_monitor k) (Write ([67; 111; 109; 109; 97; 110; 100; 32] ++ name ++
      [32; 110; 111; 116; 32; 102; 111; 117; 110; 100; 10]) COLOR_WHITE) = Ok (k_monitor k')).
Proof.
  unfold process_exec. eapply may_bind; [by apply (stat_missing k files L f path name stat) |].
  intros [k1 r] (-> & m & Hm1 & ->). cbn [Z.eqb negb].
  destruct Hname as [Hstr Hus].
  eapply may_bind; [apply (kernel_printf_spec L f (set_k_space k m) (not_found_message path)); try done |].
  { apply Ps_lit, Ps_str; [exact Hstr | exact Hus | exact Hf |]. apply (Ps_lit _ _ _ [] []), Ps_nil. }
  intros k2 (Hm2 & Ho & E). apply may_ret. split; [done |]. split; [done |]. split; [|exact E].
  unfold only_printed in *. rewrite Ho. done.
Qed.
End exec.
