(* ===== verification/Syscalls.v ===== *)
(** * System calls (syscall/syscall_impl.c)

    The dispatch of the system calls on the words that the entry stub left on the
    stack, over the kernel's state.  A call that blocks is one round of it: the
    state behind the round is the one the next thread finds. *)

From S2P Require Import Prelude.
From S2P Require Import Memory.
From S2P Require Import YieldLock.
From S2P Require Import KHeap.
From S2P Require Import KMalloc.
From S2P Require Import Allocator.
From S2P Require Import CStdlib.
From S2P Require Import Paging.
From S2P Require Import Scheduler.
From S2P Require Import AddressSpace.
From S2P Require Import VMem.
From S2P Require Import HeapSpace.
From S2P Require Import Monitor.
From S2P Require Import Printf.
From S2P Require Import Disk.
From S2P Require Import NaiveFs.
From S2P Require Import KeyHelp.
From S2P Require Import Sync.
From S2P Require Import Keyboard.
From S2P Require Import Interrupts.
From S2P Require Import Thread.
From S2P Require Import Process.
From S2P Require Import Tasks.
From S2P Require Import ProcessSpec.
From S2P Require Import Exec.

Definition SYSCALL_EXIT_NUM : Z := 0.
Definition SYSCALL_FORK_NUM : Z := 1.
Definition SYSCALL_EXEC_NUM : Z := 2.
Definition SYSCALL_YIELD_NUM : Z := 3.
Definition SYSCALL_READ_NUM : Z := 4.
Definition SYSCALL_WRITE_NUM : Z := 5.
Definition SYSCALL_STAT_NUM : Z := 6.
Definition SYSCALL_LISTDIR_NUM : Z := 7.
Definition SYSCALL_PRINT_NUM : Z := 8.
Definition SYSCALL_WAIT_NUM : Z := 9.
Definition SYSCALL_THREAD_EXIT_NUM : Z := 10.
Definition SYSCALL_READ_CHAR_NUM : Z := 11.
Definition SYSCALL_MOVE_CURSOR_NUM : Z := 12.

(** What becomes of the calling thread: it goes on with a result, in eax; it goes
    on with a result that the code leaves undefined; it waits; it is gone. *)
Inductive sys_result := Returns (v : Z) | Returns_undefined | Waits | Gone.

Section syscalls.
Context {A : Type} `{BlockAllocator A}.
Abbreviation space := (mem * paging (A := A))%type.
Abbreviation tasks := (Process.tasks (A := A)).
Abbreviation kernel := (Exec.kernel (A := A)).
Context (disk : Z -> Z) (FILE_NUM : Z).
(** [stat] is the address of the local variable of [process_exec]. *)
Context (junk fallthrough no_id : Z) (text : kernel_text) (fuel : nat) (c : Z -> Z) (stat : Z).

(** A call of [process_exit] returns when other threads run in the process;
    [syscall_exit_impl] has no return statement. *)
Definition syscall_exit_impl (k : kernel) (exit_code : Z) : outcome (kernel * sys_result) :=
  '(k, gone) ← on_tasks k (fun s => process_exit s exit_code);
  Ok (k, if (gone : bool) then Gone else Returns_undefined).

Definition syscall_fork_impl (k : kernel) : outcome (kernel * sys_result) :=
  '(k, pid) ← on_tasks k (process_fork junk fallthrough no_id text); Ok (k, Returns pid).

Definition syscall_exec_impl (k : kernel) (path argc argv : Z) : outcome (kernel * sys_result) :=
  '(k, r) ← process_exec disk FILE_NUM junk fallthrough no_id text fuel c k stat path argc argv;
  Ok (k, match r with Some v => Returns v | None => Gone end).

Definition syscall_yield_impl (k : kernel) : outcome (kernel * sys_result) := Ok (k, Returns 0).

Definition syscall_read_impl (k : kernel) (filename buffer offset size : Z) : outcome (kernel * sys_result) :=
  '(k, n) ← on_fs k (fun s => read_file disk FILE_NUM s filename buffer offset size); Ok (k, Returns n).

Definition syscall_write_impl (k : kernel) (filename buffer offset size : Z) : outcome (kernel * sys_result) :=
  Ok (k, Returns (-1)).

Definition syscall_stat_impl (k : kernel) (filename stat : Z) : outcome (kernel * sys_result) :=
  '(k, r) ← on_fs k (fun s => stat_file disk FILE_NUM s filename stat); Ok (k, Returns r).

Definition syscall_listdir_impl (k : kernel) (dir : Z) : outcome (kernel * sys_result) :=
  '(k, (mon, r)) ← on_fs k (fun s =>
    '(s, mon, r) ← list_dir disk FILE_NUM fuel s (k_monitor k) dir; Ok (s, (mon, r)));
  Ok (set_k_monitor k mon, Returns r).

Definition syscall_print_impl (k : kernel) (str args_ptr : Z) : outcome (kernel * sys_result) :=
  '(m, mon) ← monitor_printf_args fuel (k_space k) (k_monitor k) str args_ptr;
  Ok (set_k_monitor (set_k_space k m) mon, Returns 0).

Definition syscall_wait_impl (k : kernel) (pid status : Z) : outcome (kernel * sys_result) :=
  '(k, r) ← on_tasks k (fun s => process_wait s pid status);
  Ok (k, match r with Some v => Returns v | None => Waits end).

Definition syscall_thread_exit_impl (k : kernel) : outcome (kernel * sys_result) :=
  s ← schedule_thread_exit (k_tasks k); Ok (set_tasks k s, Gone).

Definition syscall_read_char_impl (k : kernel) : outcome (kernel * sys_result) :=
  let s := k_tasks k in
  '(sc, kb, r) ← read_keyboard_char_round (t_sched s) (k_keyboard k);
  s ← on_sched s (fun _ => Ok sc);
  Ok (Kernel s (k_metas k) (k_offset k) (k_monitor k) kb, match r with Some c => Returns c | None => Waits end).

Definition syscall_move_cursor_impl (k : kernel) (delta_x delta_y : Z) : outcome (kernel * sys_result) :=
  mon ← monitor_move_cursor (k_monitor k) delta_x delta_y; Ok (set_k_monitor k mon, Returns 0).

Definition syscall_handler (k : kernel) (isr_params : isr_params_t) : outcome (kernel * sys_result) :=
  let syscall_num := p_eax isr_params in
  let ecx := p_ecx isr_params in
  let edx := p_edx isr_params in
  let ebx := p_ebx isr_params in
  let esi := p_esi isr_params in
  if syscall_num =? SYSCALL_EXIT_NUM then syscall_exit_impl k (s32 ecx)
  else if syscall_num =? SYSCALL_FORK_NUM then syscall_fork_impl k
  else if syscall_num =? SYSCALL_EXEC_NUM then syscall_exec_impl k ecx edx ebx
  else if syscall_num =? SYSCALL_YIELD_NUM then syscall_yield_impl k
  else if syscall_num =? SYSCALL_READ_NUM then syscall_read_impl k ecx edx ebx esi
  else if syscall_num =? SYSCALL_WRITE_NUM then syscall_write_impl k ecx edx ebx esi
  else if syscall_num =? SYSCALL_STAT_NUM then syscall_stat_impl k ecx edx
  else if syscall_num =? SYSCALL_LISTDIR_NUM then syscall_listdir_impl k ecx
  else if syscall_num =? SYSCALL_PRINT_NUM then syscall_print_impl k ecx edx
  else if syscall_num =? SYSCALL_WAIT_NUM then syscall_wait_impl k ecx edx
  else if syscall_num =? SYSCALL_THREAD_EXIT_NUM then syscall_thread_exit_impl k
  else if syscall_num =? SYSCALL_READ_CHAR_NUM then syscall_read_char_impl k
  else if syscall_num =? SYSCALL_MOVE_CURSOR_NUM then syscall_move_cursor_impl k (s32 ecx) (s32 edx)
  else Panic.

Lemma handler_exec k p : p_eax p = SYSCALL_EXEC_NUM ->
  syscall_handler k p = syscall_exec_impl k (p_ecx p) (p_edx p) (p_ebx p).
Proof. intros E. unfold syscall_handler. by rewrite E. Qed.

(** The calls that work on files and the screen, read, write, stat, listdir,
    print, move_cursor and yield, give their caller a result and touch nothing
    but the address space, the screen and the caches of the file system: the
    processes, the threads and what runs are as before. *)
Theorem quiet_calls k p k' r
    (Hn : p_eax p ∈ [SYSCALL_YIELD_NUM; SYSCALL_READ_NUM; SYSCALL_WRITE_NUM; SYSCALL_STAT_NUM;
      SYSCALL_LISTDIR_NUM; SYSCALL_PRINT_NUM; SYSCALL_MOVE_CURSOR_NUM])
    (Hr : syscall_handler k p = Ok (k', r)) :
  k_tasks k' = with_space (k_tasks k) (k_space k') /\ k_keyboard k' = k_keyboard k /\ exists v, r = Returns v.
Proof.
  assert (forall s : tasks, s = with_space s (t_space s)) as Hid by (by intros [[] ? ? ? ? ? ? ? ? ?]).
  unfold syscall_handler in Hr.
  rewrite !elem_of_cons, elem_of_nil in Hn. destruct Hn as [E|[E|[E|[E|[E|[E|[E|[]]]]]]]]; rewrite E in Hr;
    cbn [Z.eqb Pos.eqb SYSCALL_EXIT_NUM SYSCALL_FORK_NUM SYSCALL_EXEC_NUM SYSCALL_YIELD_NUM SYSCALL_READ_NUM
      SYSCALL_WRITE_NUM SYSCALL_STAT_NUM SYSCALL_LISTDIR_NUM SYSCALL_PRINT_NUM SYSCALL_WAIT_NUM
      SYSCALL_THREAD_EXIT_NUM SYSCALL_READ_CHAR_NUM SYSCALL_MOVE_CURSOR_NUM] in Hr.
  - injection Hr as <- <-. split; [apply Hid | by eauto].
  - unfold syscall_read_impl, on_fs in Hr.
    destruct (read_file _ _ _ _ _ _ _) as [[s n]| | | |]; cbn in Hr; try done. injection Hr as <- <-. by eauto.
  - injection Hr as <- <-. split; [apply Hid | by eauto].
  - unfold syscall_stat_impl, on_fs in Hr.
    destruct (stat_file _ _ _ _ _) as [[s n]| | | |]; cbn in Hr; try done. injection Hr as <- <-. by eauto.
  - unfold syscall_listdir_impl, on_fs in Hr.
    destruct (list_dir _ _ _ _ _ _) as [[[s mon] n]| | | |]; cbn in Hr; try done. injection Hr as <- <-. by eauto.
  - unfold syscall_print_impl in Hr.
    destruct (monitor_printf_args _ _ _ _ _) as [[m mon]| | | |]; cbn in Hr; try done. injection Hr as <- <-. by eauto.
  - unfold syscall_move_cursor_impl in Hr.
    destruct (monitor_move_cursor _ _ _) as [mon| | | |]; cbn in Hr; try done. injection Hr as <- <-.
    split; [apply Hid | by eauto].
Qed.

Lemma read_whole k files L f filename name data i buffer count :
  lholds L (k_space k) f -> disk_holds disk files -> valid_files files -> mounted FILE_NUM f (k_fs k) files ->
  Z.of_nat (size L) < capacity (A := space) -> SECTOR_SIZE < request_limit (A := space) ->
  name_at (M := space) f filename name -> files !! i = Some (name, data) -> data <> [] ->
  usable (M := space) buffer (len data) -> len data <= count ->
  may (on_fs k (fun s => read_file disk FILE_NUM s filename buffer 0 count)) (fun '(k', n) => n = len data /\
    exists m, k' = set_k_space k m /\ lholds L m (patch f buffer data)).
Proof.
  intros. unfold on_fs.
  eapply may_bind; [by apply (read_file_whole disk FILE_NUM (k_fs k) files L f filename name data i buffer count) |].
  intros [s n] [-> Hmv]. destruct (on_fs_moved L _ k s Hmv) as (m & Hm' & ->). apply may_ret.
  split; [done |]. by exists m.
Qed.

(** C17: the system call read, on a disk that holds an image and from the state after
    mounting: for the name of a file, a buffer in user memory as long as the file,
    mapped or not, and offset 0, it returns the file's size with exactly its
    contents in the buffer and the rest of memory as it was. *)
Theorem syscall_read_correct k p files L f i name data
    (Hn : p_eax p = SYSCALL_READ_NUM) (Hm : lholds L (k_space k) f) (Hd : disk_holds disk files)
    (Hvf : valid_files files) (Hmt : mounted FILE_NUM f (k_fs k) files)
    (Hc : Z.of_nat (size L) < capacity (A := space)) (Hr : SECTOR_SIZE < request_limit (A := space))
    (Hname : name_at (M := space) f (p_ecx p) name) (Hi : files !! i = Some (name, data)) (Hne : data <> [])
    (Hoff : p_ebx p = 0) (Hlen : len data <= p_esi p) (Hu : usable (M := space) (p_edx p) (len data)) :
  may (syscall_handler k p) (fun '(k', r) => r = Returns (len data) /\
    lholds L (k_space k') (patch f (p_edx p) data) /\ k' = set_k_space k (k_space k')).
Proof.
  unfold syscall_handler. rewrite Hn. cbn [Z.eqb Pos.eqb SYSCALL_EXIT_NUM SYSCALL_FORK_NUM SYSCALL_EXEC_NUM
    SYSCALL_YIELD_NUM SYSCALL_READ_NUM]. unfold syscall_read_impl. rewrite Hoff.
  eapply may_bind; [by apply (read_whole k files L f (p_ecx p) name data i) |].
  intros [k1 n] [-> (m & -> & Hm')]. by apply may_ret.
Qed.

(** C18: the system call print shows exactly the formatted text, a user string with
    its arguments, on the screen, returns 0 and leaves memory as it was. *)
Theorem syscall_print_correct k p L f fmt args out
    (Hn : p_eax p = SYSCALL_PRINT_NUM) (Hm : lholds L (k_space k) f) (Hs : screen (k_monitor k))
    (Hl : unlocked (monitor_lock (k_monitor k))) (Hu : usable (M := space) (p_ecx p) (len fmt + 1))
    (Hfmt : string_at f (p_ecx p) fmt) (Hargs : args_at (M := space) f (p_edx p) args)
    (HP : prints (M := space) fuel f fmt args out) (Hfu : (length fmt < fuel)%nat) :
  may (syscall_handler k p) (fun '(k', r) => r = Returns 0 /\ lholds L (k_space k') f /\ only_printed k k' /\
    screen_step (k_monitor k) (Write out COLOR_WHITE) = Ok (k_monitor k')).
Proof.
  unfold syscall_handler. rewrite Hn. cbn [Z.eqb Pos.eqb SYSCALL_EXIT_NUM SYSCALL_FORK_NUM SYSCALL_EXEC_NUM
    SYSCALL_YIELD_NUM SYSCALL_READ_NUM SYSCALL_WRITE_NUM SYSCALL_STAT_NUM SYSCALL_LISTDIR_NUM SYSCALL_PRINT_NUM].
  unfold syscall_print_impl. eapply may_bind; [by apply (l_printf_args L fuel (k_space k) (k_monitor k) f _ fmt args _ out) |].
  intros [m mon] (Hm' & E & _). by apply may_ret.
Qed.
End syscalls.

(** ** Examples

    The kernel after mounting the image of [NaiveFs], with the processes of
    [ProcessSpec]. *)

Definition demo_kernel (s : naive (M := kspace)) : Exec.kernel (A := kmem) :=
  Kernel (demo_tasks (nf_space s) demo_sched (demo_pcb 4 no_table no_table no_table 0 0))
    (nf_metas s) (nf_offset s) blank_screen
    (Keyboard.Keyboard (BufferQueue (replicate 1024 0) 0 0 0) kh_init 0x600 spinlock_init).

Definition demo_text : kernel_text := KernelText (EntryPoints 0xC0101000 0xC0102000 0xC0103000)
  0xC0104000 0xC0105000 0xC0106000 0xC0107000 0 0 0 0.
Definition demo_params (eax ecx edx ebx esi : Z) : isr_params_t :=
  IsrParams 0 0 esi 0 0 ebx edx ecx eax 0 0 0 0 0 0 0.
Definition demo_call (s : naive (M := kspace)) (eax ecx edx ebx esi : Z) :
    outcome (Exec.kernel (A := kmem) * sys_result) :=
  syscall_handler demo_disk demo_num 0 1 7 demo_text 64 (fun _ => 0) 0xC0005000 (demo_kernel s)
    (demo_params eax ecx edx ebx esi).

Lemma demo_call_eq s eax ecx edx ebx esi :
  demo_call s eax ecx edx ebx esi = syscall_handler demo_disk demo_num 0 1 7 demo_text 64 (fun _ => 0) 0xC0005000
    (demo_kernel s) (demo_params eax ecx edx ebx esi).
Proof. reflexivity. Qed.

(** Reading "bc" to the first user page, printing it, and running "c". *)
Definition demo_calls : bool :=
  match demo_mount with
  | Ok s => negb (is_panic (demo_call s SYSCALL_READ_NUM 0xC0100000 0x400000 0 10)) &&
            negb (is_panic (demo_call s SYSCALL_PRINT_NUM 0xC0100000 0x400000 0 0)) &&
            negb (is_panic (demo_call s SYSCALL_EXEC_NUM 0xC0100001 0 0 0))
  | _ => false
  end.
Lemma demo_calls_true : demo_calls = true.
Proof. vm_compute. reflexivity. Qed.

Lemma demo_kernel_mounted :
  exists s k f, demo_mount = Ok s /\ lholds {[nf_metas s := k]} (k_space (demo_kernel s)) f /\
    mounted demo_num f (k_fs (demo_kernel s)) demo_files /\
    name_at (M := kspace) f 0xC0100000 [98; 99] /\ name_at (M := kspace) f 0xC0100001 [99] /\
    is_panic (demo_call s SYSCALL_READ_NUM 0xC0100000 0x400000 0 10) = false /\
    is_panic (demo_call s SYSCALL_PRINT_NUM 0xC0100000 0x400000 0 0) = false /\
    is_panic (demo_call s SYSCALL_EXEC_NUM 0xC0100001 0 0 0) = false.
Proof.
  destruct demo_mounted as (s & k & f & He & Hm & Hmt & [Hn Hu] & _).
  pose proof demo_calls_true as Hc. unfold demo_calls in Hc. rewrite He in Hc.
  rewrite !andb_true_iff, !negb_true_iff in Hc. destruct Hc as ((Hc1 & Hc2) & Hc3).
  exists s, k, f. assert (k_fs (demo_kernel s) = s) as -> by (destruct s; reflexivity).
  split; [exact He |]. split; [exact Hm |]. split; [exact Hmt |]. split; [by split |].
  split; [|split; [exact Hc1 | split; [exact Hc2 | exact Hc3]]].
  apply string_at_cons in Hn as (_ & _ & Hn). split; [exact Hn |].
  eapply usable_sub; [exact Hu | lia | cbn; lia].
Qed.

Lemma syscall_read_correct_witness :
  exists s k', demo_mount = Ok s /\ demo_call s SYSCALL_READ_NUM 0xC0100000 0x400000 0 10 = Ok (k', Returns 2) /\
    exists L g, lholds L (k_space k') g /\ slice g 0x400000 2 = [9; 8].
Proof.
  destruct demo_kernel_mounted as (s & k & f & He & Hm & Hmt & Hn & _ & Hno & _).
  destruct (syscall_read_correct demo_disk demo_num 0 1 7 demo_text 64 (fun _ => 0) 0xC0005000 (demo_kernel s)
    (demo_params SYSCALL_READ_NUM 0xC0100000 0x400000 0 10) demo_files {[nf_metas s := k]} f 1 [98; 99] [9; 8])
    as [Hp | ([k' r] & Hr & -> & Hm' & _)].
  - reflexivity.
  - exact Hm.
  - exact demo_disk_holds.
  - exact demo_valid.
  - exact Hmt.
  - apply demo_capacity.
  - vm_compute. reflexivity.
  - exact Hn.
  - reflexivity.
  - congruence.
  - reflexivity.
  - vm_compute. congruence.
  - apply user_usable; cbn; lia.
  - rewrite demo_call_eq, Hp in Hno. discriminate Hno.
  - exists s, k'. split; [exact He |]. split; [exact Hr |].
    exists {[nf_metas s := k]}, (patch f 0x400000 [9; 8]). split; [exact Hm' | vm_compute; reflexivity].
Defined.

Lemma syscall_print_correct_witness :
  exists s k', demo_mount = Ok s /\ demo_call s SYSCALL_PRINT_NUM 0xC0100000 0x400000 0 0 = Ok (k', Returns 0) /\
    screen_step blank_screen (Write [98; 99] COLOR_WHITE) = Ok (k_monitor k').
Proof.
  destruct demo_kernel_mounted as (s & k & f & He & Hm & Hmt & [Hn Hu] & _ & _ & Hno & _).
  destruct (syscall_print_correct demo_disk demo_num 0 1 7 demo_text 64 (fun _ => 0) 0xC0005000 (demo_kernel s)
    (demo_params SYSCALL_PRINT_NUM 0xC0100000 0x400000 0 0) {[nf_metas s := k]} f [98; 99] [] [98; 99])
    as [Hp | ([k' r] & Hr & -> & _ & _ & Hmon)].
  - reflexivity.
  - exact Hm.
  - exact blank_screen_ok.
  - reflexivity.
  - exact Hu.
  - exact Hn.
  - split; [intros b Hb; cbn in Hb; lia | by intros i a Hi].
  - apply P_lit; [done |]. apply P_lit; [done | apply P_nil].
  - cbn. lia.
  - rewrite demo_call_eq, Hp in Hno. discriminate Hno.
  - exists s, k'. change (k_monitor (demo_kernel s)) with blank_screen in Hmon.
    split; [exact He |]. split; [exact Hr | exact Hmon].
Defined.

Lemma exec_not_found_witness :
  exists s k', demo_mount = Ok s /\ demo_call s SYSCALL_EXEC_NUM 0xC0100001 0 0 0 = Ok (k', Returns (-1)).
Proof.
  destruct demo_kernel_mounted as (s & k & f & He & Hm & Hmt & _ & Hn & _ & _ & Hno).
  destruct (exec_not_found demo_disk demo_num 0 1 7 demo_text 64 (fun _ => 0) (demo_kernel s) demo_files
    {[nf_metas s := k]} f 0xC0005000 0xC0100001 [99] 0 0) as [Hp | ([k' r] & Hr & -> & _)].
  - exact Hm.
  - exact demo_valid.
  - exact Hmt.
  - exact Hn.
  - apply (bool_decide_unpack _). vm_compute. exact I.
  - apply kernel_usable; unfold KERNEL_BASE; cbn; lia.
  - exact blank_screen_ok.
  - reflexivity.
  - cbn. lia.
  - rewrite demo_call_eq, handler_exec in Hno by reflexivity. unfold syscall_exec_impl in Hno.
    cbn [p_ecx p_edx p_ebx demo_params] in Hno. rewrite Hp in Hno. discriminate Hno.
  - exists s, k'. split; [exact He |]. rewrite demo_call_eq, handler_exec by reflexivity.
    unfold syscall_exec_impl. cbn [p_ecx p_edx p_ebx demo_params]. rewrite Hr. reflexivity.
Defined.

Lemma quiet_calls_witness :
  exists k', demo_call demo_fs SYSCALL_MOVE_CURSOR_NUM 4294967291 3 0 0 = Ok (k', Returns 0) /\
    k_tasks k' = with_space (k_tasks (demo_kernel demo_fs)) (k_space k').
Proof.
  assert (exists k', demo_call demo_fs SYSCALL_MOVE_CURSOR_NUM 4294967291 3 0 0 = Ok (k', Returns 0)) as [k' E]
    by (eexists; reflexivity).
  exists k'. split; [exact E |]. rewrite demo_call_eq in E.
  apply (quiet_calls demo_disk demo_num 0 1 7 demo_text 64 (fun _ => 0) 0xC0005000 (demo_kernel demo_fs)
    (demo_params SYSCALL_MOVE_CURSOR_NUM 4294967291 3 0 0) k' (Returns 0)); [|exact E].
  cbn. do 6 right. left.
Defined.
