(* ===== verification/Shell.v ===== *)
(** * The shell (user/src/shell.c)

    The user program that edits a command line, splits it into a program and its
    arguments, and runs it.  [cmd_buffer], [cmd_end_index] and [line_cursor_index]
    are its global variables; the system calls it makes ([printf], [move_cursor])
    are recorded in the order they are made, and [fork], [exec] and [wait] are the
    command the line gives. *)

From S2P Require Import Prelude.
From S2P Require Import Memory.
From S2P Require Import CStdlib.
From S2P Require Import MathRand.
From S2P Require Import KeyHelp.

Definition LINE_CURSOR_INDEX_MIN : Z := 3.
Definition CMD_BUFFER_SIZE : Z := 512.
Definition ARG_BUFFER_SIZE : Z := 32 * 128.
Definition PROGRAM_SIZE : Z := 128.
Definition ARGS_MAX : Z := 32.

(** The system calls that write to the screen. *)
Inductive output := Printf (s : list Z) | MoveCursor (delta_x delta_y : Z).

Record shell := Shell {
  cmd_buffer : list Z;
  cmd_end_index : Z;
  line_cursor_index : Z;
  sh_out : list output
}.

Definition emit (s : shell) (o : list output) : shell :=
  Shell (cmd_buffer s) (cmd_end_index s) (line_cursor_index s) (sh_out s ++ o).

(** The string that starts at an index of an array. *)
Fixpoint cstring (bytes : list Z) : list Z :=
  match bytes with
  | [] => []
  | c :: bytes => if c =? 0 then [] else c :: cstring bytes
  end.
Definition string_at (buf : list Z) (i : Z) : list Z := cstring (drop (Z.to_nat i) buf).

(** "duan@luck$ " *)
Definition prompt : list Z := [100; 117; 97; 110; 64; 108; 117; 99; 107; 36; 32].
Definition print_shell (s : shell) : shell := emit s [Printf prompt].

Definition blank_line : list Z := replicate 80 32.
Definition clear_screen (s : shell) : shell :=
  emit s ([MoveCursor 0 (-25)] ++ replicate 25 (Printf blank_line) ++ [MoveCursor 0 (-25)]).

(** ** Splitting a line *)

(** [memcpy(dst + at, cmd_buffer + start, length)] *)
Definition copy_bytes (dst : list Z) (dst_at : Z) (src : list Z) (start length : Z) : outcome (list Z) :=
  for_up (Z.to_nat length) 0 (fun k dst =>
    c ← buf_get src (start + k); buf_set dst (dst_at + k) c) dst.

(** The local variables of [run_program]; [args] holds the offsets of the
    arguments in [arg_buffer], of which there is room for 32. *)
Record splitter := Splitter {
  sp_program : list Z;
  sp_arg_buffer : list Z;
  sp_arg_buffer_index : Z;
  sp_args : list Z;
  sp_split_start : Z;
  sp_program_get : bool;
  sp_in_token : bool;
  sp_args_index : Z
}.

(** The end of a token at index [split_end]. *)
Definition end_token (buf : list Z) (split_end : Z) (p : splitter) : outcome splitter :=
  let length := min (split_end - sp_split_start p) 127 in
  if negb (sp_program_get p) then
    program ← copy_bytes (sp_program p) 0 buf (sp_split_start p) length;
    program ← buf_set program length 0;
    Ok (Splitter program (sp_arg_buffer p) (sp_arg_buffer_index p) (sp_args p) (sp_split_start p)
          true false (sp_args_index p))
  else
    arg_buffer ← copy_bytes (sp_arg_buffer p) (sp_arg_buffer_index p) buf (sp_split_start p) length;
    args ← buf_set (sp_args p) (sp_args_index p) (sp_arg_buffer_index p);
    let arg_buffer_index := sp_arg_buffer_index p + length in
    arg_buffer ← buf_set arg_buffer arg_buffer_index 0;
    Ok (Splitter (sp_program p) arg_buffer (arg_buffer_index + 1) args (sp_split_start p)
          true false (sp_args_index p + 1)).

(** The body of the loop over the line. *)
Definition split_step (buf : list Z) (i : Z) (p : splitter) : outcome splitter :=
  c ← buf_get buf i;
  if negb (sp_in_token p) then
    if negb (c =? 32) && negb (c =? 0) then
      Ok (Splitter (sp_program p) (sp_arg_buffer p) (sp_arg_buffer_index p) (sp_args p) i
            (sp_program_get p) true (sp_args_index p))
    else Ok p
  else if (c =? 32) || (c =? 0) then end_token buf i p
  else Ok p.

(** What [exec] is called with. *)
Record command := Command { co_program : list Z; co_args : list (list Z) }.

(** [program], [arg_buffer] and [args] are not initialised: [junk] is what the
    stack holds. *)
Definition run_program (junk : Z) (s : shell) : outcome (shell * command) :=
  let s := emit s [Printf [10]] in
  p ← for_up (Z.to_nat (cmd_end_index s + 1)) 0 (split_step (cmd_buffer s))
        (Splitter (replicate (Z.to_nat PROGRAM_SIZE) junk) (replicate (Z.to_nat ARG_BUFFER_SIZE) junk) 0
           (replicate (Z.to_nat ARGS_MAX) junk) (-1) false false 0);
  Ok (s, Command (cstring (sp_program p))
           (string_at (sp_arg_buffer p) <$> take (Z.to_nat (sp_args_index p)) (sp_args p))).

(** ** Editing *)

(** [for (i = first; i < first + n; i++) cmd_buffer[i - 1] = cmd_buffer[i];] *)
Definition shift_down (n : nat) (first : Z) (buf : list Z) : outcome (list Z) :=
  for_up n first (fun i buf => c ← buf_get buf i; buf_set buf (i - 1) c) buf.

(** [for (i = last; i > last - n; i--) cmd_buffer[i + 1] = cmd_buffer[i];] *)
Fixpoint shift_up (n : nat) (last : Z) (buf : list Z) : outcome (list Z) :=
  match n with
  | O => Ok buf
  | S n => c ← buf_get buf last; buf ← buf_set buf (last + 1) c; shift_up n (last - 1) buf
  end.

(** [strcmp(literal, cmd_buffer) == 0], with the two at addresses of their own. *)
Fixpoint store_bytes (m : mem) (p : Z) (bytes : list Z) : mem :=
  match bytes with [] => m | c :: bytes => store_bytes (store8 m p c) (p + 1) bytes end.
Definition LITERAL_ADDR : Z := 0x1000.
Definition CMD_BUFFER_ADDR : Z := 0x2000.
Definition line_is (literal buf : list Z) : outcome bool :=
  r ← strcmp 16 (store_bytes (store_bytes ∅ LITERAL_ADDR (literal ++ [0])) CMD_BUFFER_ADDR buf)
        LITERAL_ADDR CMD_BUFFER_ADDR;
  Ok (r =? 0).

Definition EXIT_WORD : list Z := [101; 120; 105; 116].
Definition CLEAR_WORD : list Z := [99; 108; 101; 97; 114].

(** How a key leaves the loop over the keys. *)
Inductive action := NextKey | NextLine | ExitShell | RunCommand (c : command).

Definition backspace (s : shell) : outcome shell :=
  let cursor := line_cursor_index s - 3 in
  buf ← shift_down (Z.to_nat (cmd_end_index s - cursor)) cursor (cmd_buffer s);
  let cmd_end := cmd_end_index s - 1 in
  buf ← buf_set buf cmd_end 0;
  let line_cursor := line_cursor_index s - 1 in
  Ok (emit (Shell buf cmd_end line_cursor (sh_out s))
        [MoveCursor (-1) 0; Printf (string_at buf (line_cursor - 3)); Printf [32];
         MoveCursor (- (cmd_end + 1 - (line_cursor - 3))) 0]).

Definition insert_char (s : shell) (c : Z) : outcome shell :=
  let cursor := line_cursor_index s - 3 in
  buf ← shift_up (Z.to_nat (cmd_end_index s - cursor)) (cmd_end_index s - 1) (cmd_buffer s);
  buf ← buf_set buf cursor c;
  let cmd_end := cmd_end_index s + 1 in
  buf ← buf_set buf cmd_end 0;
  let line_cursor := line_cursor_index s + 1 in
  Ok (emit (Shell buf cmd_end line_cursor (sh_out s))
        [Printf (string_at buf cursor); MoveCursor (- (cmd_end - (line_cursor - 3))) 0]).

Definition move_line_cursor (s : shell) (d : Z) : shell :=
  emit (Shell (cmd_buffer s) (cmd_end_index s) (line_cursor_index s + d) (sh_out s)) [MoveCursor d 0].

Definition enter_key (junk : Z) (s : shell) : outcome (shell * action) :=
  if cmd_end_index s =? 0 then Ok (emit s [Printf [10]], NextLine)
  else
    is_exit ← line_is EXIT_WORD (cmd_buffer s);
    if (is_exit : bool) then Ok (emit s [Printf [10]], ExitShell)
    else
      is_clear ← line_is CLEAR_WORD (cmd_buffer s);
      if (is_clear : bool) then Ok (clear_screen s, NextLine)
      else '(s, c) ← run_program junk s; Ok (s, RunCommand c).

(** The body of the inner loop of [run_shell] for the character [c]. *)
Definition shell_key (junk : Z) (s : shell) (c : Z) : outcome (shell * action) :=
  if c <? 128 then
    if c =? 8 then
      if line_cursor_index s - 3 =? 0 then Ok (s, NextKey)
      else s ← backspace s; Ok (s, NextKey)
    else if c =? 12 then Ok (clear_screen s, NextLine)
    else if c =? 10 then enter_key junk s
    else if 32 <=? c then s ← insert_char s c; Ok (s, NextKey)
    else Ok (s, NextKey)
  else if c =? KHE_ARROW_LEFT then
    if line_cursor_index s =? LINE_CURSOR_INDEX_MIN then Ok (s, NextKey)
    else Ok (move_line_cursor s (-1), NextKey)
  else if c =? KHE_ARROW_RIGHT then
    if line_cursor_index s =? cmd_end_index s + 3 then Ok (s, NextKey)
    else Ok (move_line_cursor s 1, NextKey)
  else Ok (s, NextKey).

(** The start of the outer loop. *)
Definition new_line (s : shell) : shell := print_shell (Shell (cmd_buffer s) 0 3 (sh_out s)).

(** [run_shell] on the characters that are read: the commands it runs, and
    whether it returned. *)
Fixpoint shell_keys (junk : Z) (s : shell) (keys : list Z) : outcome (shell * list command * bool) :=
  match keys with
  | [] => Ok (s, [], false)
  | c :: keys =>
      '(s, a) ← shell_key junk s c;
      match a with
      | NextKey => shell_keys junk s keys
      | NextLine => shell_keys junk (new_line s) keys
      | ExitShell => Ok (s, [], true)
      | RunCommand co =>
          '(s, cs, r) ← shell_keys junk (new_line s) keys; Ok (s, co :: cs, r)
      end
  end.

Definition run_shell (junk : Z) (s : shell) (keys : list Z) : outcome (shell * list command * bool) :=
  buf ← buf_set (cmd_buffer s) 0 0;
  shell_keys junk (new_line (Shell buf 0 (line_cursor_index s) (sh_out s))) keys.

(** The initial values of the global variables. *)
Definition shell_start : shell := Shell (replicate (Z.to_nat CMD_BUFFER_SIZE) 0) 0 3 [].

(** ** Arrays of characters *)

(** The array starts with the text. *)
Definition starts_with (buf text : list Z) : Prop :=
  forall j c, text !! j = Some c -> buf !! j = Some c.

Lemma shift_down_spec n : forall (first : nat) buf,
  (0 < first)%nat -> (first + n <= length buf)%nat ->
  exists buf', shift_down n (Z.of_nat first) buf = Ok buf' /\ length buf' = length buf /\
    forall j, buf' !! j = if decide (first - 1 <= j < first - 1 + n)%nat then buf !! S j else buf !! j.
Proof.
  unfold shift_down. induction n as [|n IH]; intros first buf Hf Hl; cbn [for_up].
  - exists buf. split; [done |]. split; [done |]. intros j. by rewrite decide_False by lia.
  - destruct (lookup_lt_is_Some_2 buf first) as [c Hc]; [lia |].
    rewrite (buf_get_lookup _ _ c) by (rewrite ?Nat2Z.id; done || lia). cbn [mbind outcome_bind].
    rewrite buf_set_ok by lia. cbn [mbind outcome_bind].
    replace (Z.of_nat first + 1) with (Z.of_nat (S first)) by lia.
    replace (Z.to_nat (Z.of_nat first - 1)) with (first - 1)%nat by lia.
    destruct (IH (S first) (<[(first - 1)%nat := c]> buf)) as (buf' & E & Hl' & Hlk);
      [lia | rewrite length_insert; lia |].
    exists buf'. split; [done |]. rewrite length_insert in Hl'. split; [done |]. intros j.
    rewrite Hlk. destruct (decide (j = (first - 1)%nat)) as [-> | Hj].
    + repeat case_decide; try lia. rewrite list_lookup_insert_eq by lia. rewrite <- Hc. f_equal. lia.
    + repeat case_decide; try lia; by rewrite list_lookup_insert_ne by lia.
Qed.

Lemma shift_up_spec n : forall (first : nat) buf,
  (first + n < length buf)%nat ->
  exists buf', shift_up n (Z.of_nat first + Z.of_nat n - 1) buf = Ok buf' /\ length buf' = length buf /\
    forall j, buf' !! j = if decide (first < j <= first + n)%nat then buf !! (j - 1)%nat else buf !! j.
Proof.
  induction n as [|n IH]; intros first buf Hl; cbn [shift_up].
  - exists buf. split; [done |]. split; [done |]. intros j. by rewrite decide_False by lia.
  - destruct (lookup_lt_is_Some_2 buf (first + n)%nat) as [c Hc]; [lia |].
    rewrite (buf_get_lookup _ _ c) by (lia || (rewrite <- Hc; f_equal; lia)). cbn [mbind outcome_bind].
    rewrite buf_set_ok by lia. cbn [mbind outcome_bind].
    replace (Z.to_nat (Z.of_nat first + Z.of_nat (S n) - 1 + 1)) with (first + S n)%nat by lia.
    destruct (IH first (<[(first + S n)%nat := c]> buf)) as (buf' & E & Hl' & Hlk);
      [rewrite length_insert; lia |].
    replace (Z.of_nat first + Z.of_nat (S n) - 1 - 1) with (Z.of_nat first + Z.of_nat n - 1) by lia.
    exists buf'. split; [done |]. rewrite length_insert in Hl'. split; [done |]. intros j.
    rewrite Hlk. destruct (decide (j = (first + S n)%nat)) as [-> | Hj].
    + repeat case_decide; try lia. rewrite list_lookup_insert_eq by lia. rewrite <- Hc. f_equal. lia.
    + repeat case_decide; try lia; by rewrite list_lookup_insert_ne by lia.
Qed.

Lemma copy_bytes_spec dst (at_ : nat) src (start n : nat) :
  (at_ + n <= length dst)%nat -> (start + n <= length src)%nat ->
  copy_bytes dst (Z.of_nat at_) src (Z.of_nat start) (Z.of_nat n)
  = Ok (take at_ dst ++ take n (drop start src) ++ drop (at_ + n) dst).
Proof.
  intros Hd Hs. unfold copy_bytes. rewrite Nat2Z.id.
  destruct (for_up_rule (fun k d => d = take at_ dst ++ take (Z.to_nat k) (drop start src)
      ++ drop (at_ + Z.to_nat k) dst) n 0
    (fun k dst => c ← buf_get src (Z.of_nat start + k); buf_set dst (Z.of_nat at_ + k) c) dst)
    as (d & E & Hd').
  - change (Z.to_nat 0) with 0%nat. rewrite Nat.add_0_r, take_0, app_nil_l. symmetry. apply take_drop.
  - intros k d Hk ->. set (m := Z.to_nat k).
    destruct (lookup_lt_is_Some_2 src (start + m)%nat) as [c Hc]; [lia |].
    rewrite (buf_get_lookup _ _ c) by (lia || (rewrite <- Hc; f_equal; lia)). cbn [mbind outcome_bind].
    rewrite buf_set_ok by (rewrite !length_app, !length_take, !length_drop; lia).
    eexists. split; [reflexivity |].
    replace (Z.to_nat (Z.of_nat at_ + k)) with (length (take at_ dst) + m)%nat
      by (rewrite length_take; lia).
    rewrite insert_app_r. f_equal.
    replace (Z.to_nat (k + 1)) with (S m) by lia.
    rewrite (take_S_r _ _ c) by by rewrite lookup_drop. rewrite <- app_assoc.
    replace (<[m := c]> (take m (drop start src) ++ drop (at_ + m) dst)) with
      (<[(length (take m (drop start src)) + 0)%nat := c]> (take m (drop start src) ++ drop (at_ + m) dst))
      by (f_equal; rewrite length_take, length_drop; lia).
    rewrite insert_app_r. f_equal.
    destruct (lookup_lt_is_Some_2 dst (at_ + m)%nat) as [v Hv]; [lia |].
    rewrite (drop_S dst v) by done. cbn. f_equal. f_equal. lia.
  - rewrite E, Hd'. by replace (Z.to_nat (0 + Z.of_nat n)) with n by lia.
Qed.

(** ** Comparing the line with a word *)

Lemma store_bytes_out bytes : forall m p a,
  a < p \/ p + Z.of_nat (length bytes) <= a -> load8 (store_bytes m p bytes) a = load8 m a.
Proof.
  induction bytes as [|c bytes IH]; intros m p a Ha; cbn [store_bytes]; [done |].
  simpl length in Ha. rewrite IH by lia. apply load8_store8_ne. lia.
Qed.

Lemma store_bytes_at bytes : forall m p i c,
  bytes !! i = Some c -> load8 (store_bytes m p bytes) (p + Z.of_nat i) = u8 c.
Proof.
  induction bytes as [|d bytes IH]; intros m p [|i] c Hi; try done; cbn [store_bytes].
  - injection Hi as <-. rewrite store_bytes_out by lia. rewrite Z.add_0_r. apply load8_store8_same.
  - replace (p + Z.of_nat (S i)) with (p + 1 + Z.of_nat i) by lia. by apply IH.
Qed.

Lemma cstr_lookup m t : forall p,
  (forall i c, t !! i = Some c -> load8 m (p + Z.of_nat i) = c /\ c <> 0) ->
  load8 m (p + Z.of_nat (length t)) = 0 -> cstr m p t.
Proof.
  induction t as [|c t IH]; intros p Ht H0; cbn [cstr].
  - simpl in H0. by rewrite Z.add_0_r in H0.
  - destruct (Ht 0%nat c eq_refl) as [Hc Hn]. rewrite Z.add_0_r in Hc. split; [done |]. split; [done |].
    apply IH.
    + intros i d Hd. replace (p + 1 + Z.of_nat i) with (p + Z.of_nat (S i)) by lia. by apply Ht.
    + rewrite <- H0. f_equal. simpl. lia.
Qed.

Lemma stored_cstr m p buf t :
  starts_with buf t -> buf !! length t = Some 0 -> Forall (fun c => 0 < c < 256) t ->
  cstr (store_bytes m p buf) p t.
Proof.
  intros Hs H0 Ht. apply cstr_lookup.
  - intros i c Hc. rewrite (store_bytes_at _ _ _ _ c) by by apply Hs.
    pose proof (Forall_lookup_1 _ _ _ _ Ht Hc) as Hr. simpl in Hr. rewrite u8_small by lia. lia.
  - by rewrite (store_bytes_at _ _ _ _ 0).
Qed.

Lemma line_is_spec literal buf t :
  starts_with buf t -> buf !! length t = Some 0 -> Forall (fun c => 0 < c < 256) t ->
  Forall (fun c => 0 < c < 256) literal -> (length literal < 16)%nat ->
  line_is literal buf = Ok (bool_decide (t = literal)).
Proof.
  intros Hs H0 Ht Hl Hn. unfold line_is.
  set (m := store_bytes ∅ LITERAL_ADDR (literal ++ [0])).
  assert (cstr (store_bytes m CMD_BUFFER_ADDR buf) LITERAL_ADDR literal) as Hlit.
  { unfold m, LITERAL_ADDR, CMD_BUFFER_ADDR. apply cstr_lookup.
    - intros i c Hc. apply lookup_lt_Some in Hc as Hi. rewrite store_bytes_out by lia.
      rewrite (store_bytes_at _ _ _ _ c) by by apply lookup_app_l_Some.
      pose proof (Forall_lookup_1 _ _ _ _ Hl Hc) as Hr. simpl in Hr. rewrite u8_small by lia. lia.
    - rewrite store_bytes_out by lia. by rewrite (store_bytes_at _ _ _ _ 0) by by apply list_lookup_middle. }
  unfold strcmp. rewrite (strcmp_from_spec literal t);
    [| by rewrite Z.add_0_r | rewrite Z.add_0_r; by apply stored_cstr | done].
  cbn [mbind outcome_bind]. f_equal. case_bool_decide as E.
  - subst. by rewrite (proj2 (compare_strings_eq literal literal)).
  - apply Z.eqb_neq. rewrite compare_strings_eq. congruence.
Qed.

(** ** The line editor *)

(** A character of a line: printable, so neither a control character nor a key
    code. *)
Definition line_char (c : Z) : Prop := 32 <= c < 128.

(** The variables of the shell while it edits a line with the text [l] before the
    cursor and [r] behind it. *)
Record edits (s : shell) (l r : list Z) : Prop := {
  ed_len : length (cmd_buffer s) = Z.to_nat CMD_BUFFER_SIZE;
  ed_text : starts_with (cmd_buffer s) (l ++ r);
  ed_end : cmd_end_index s = Z.of_nat (length (l ++ r));
  ed_cursor : line_cursor_index s = 3 + Z.of_nat (length l);
  ed_fits : Z.of_nat (length (l ++ r)) < CMD_BUFFER_SIZE;
  ed_nul : l ++ r <> [] -> cmd_buffer s !! length (l ++ r) = Some 0;
  ed_chars : Forall line_char (l ++ r)
}.

Lemma insert_char_ready s l r :
  edits s l r -> exists buf,
    shift_up (Z.to_nat (cmd_end_index s - (line_cursor_index s - 3))) (cmd_end_index s - 1) (cmd_buffer s)
      = Ok buf /\ length buf = Z.to_nat CMD_BUFFER_SIZE /\
    (forall c, starts_with (<[length l := c]> buf) (l ++ c :: r)).
Proof.
  intros [Hl Ht He Hc Hf _ _]. rewrite length_app in He, Hf. unfold CMD_BUFFER_SIZE in *.
  destruct (shift_up_spec (length r) (length l) (cmd_buffer s)) as (buf & E & Hlb & Hlk); [lia |].
  exists buf. rewrite He, Hc.
  replace (Z.to_nat _) with (length r) by lia.
  replace (Z.of_nat (length l + length r) - 1) with (Z.of_nat (length l) + Z.of_nat (length r) - 1) by lia.
  split; [done |]. split; [lia |]. intros c j d Hd.
  destruct (decide (j = length l)) as [-> | Hj].
  - rewrite list_lookup_middle in Hd by done. injection Hd as <-.
    apply list_lookup_insert_eq. lia.
  - rewrite list_lookup_insert_ne, Hlk by done.
    apply lookup_lt_Some in Hd as Hlt. rewrite length_app in Hlt. simpl in Hlt.
    destruct (decide (j < length l)%nat).
    + rewrite decide_False by lia. apply Ht. by rewrite lookup_app_l in Hd |- * by done.
    + rewrite decide_True by lia. apply Ht. rewrite lookup_app_r in Hd |- * by lia.
      rewrite lookup_cons_ne_0 in Hd by lia. rewrite <- Hd. f_equal. lia.
Qed.

Lemma insert_char_spec s l r c :
  edits s l r -> line_char c -> Z.of_nat (length (l ++ r)) < CMD_BUFFER_SIZE - 1 ->
  exists s', insert_char s c = Ok s' /\ edits s' (l ++ [c]) r.
Proof.
  intros He Hch Hlt. destruct (insert_char_ready s l r He) as (buf & E & Hlb & Hst).
  destruct He as [Hl Ht Hend Hc Hf Hn Hchs]. unfold insert_char. rewrite E. cbn [mbind outcome_bind].
  rewrite length_app in *. unfold CMD_BUFFER_SIZE in *.
  rewrite buf_set_ok by (rewrite Hc, Hlb; lia). cbn [mbind outcome_bind].
  replace (Z.to_nat (line_cursor_index s - 3)) with (length l) by lia.
  rewrite buf_set_ok by (rewrite length_insert; lia). cbn [mbind outcome_bind].
  replace (Z.to_nat (cmd_end_index s + 1)) with (length l + S (length r))%nat by lia.
  eexists. split; [reflexivity |].
  assert ((l ++ [c]) ++ r = l ++ c :: r) as Hlr by by rewrite <- app_assoc.
  split; cbn [cmd_buffer cmd_end_index line_cursor_index emit]; unfold CMD_BUFFER_SIZE; rewrite ?Hlr;
    rewrite ?length_insert, ?length_app; cbn [length]; try lia.
  - intros j d Hd. apply lookup_lt_Some in Hd as Hj. rewrite length_app in Hj. simpl in Hj.
    rewrite list_lookup_insert_ne by lia. by apply Hst.
  - intros _. apply list_lookup_insert_eq. rewrite length_insert. lia.
  - apply Forall_app in Hchs as [? ?]. apply Forall_app. split; [done |]. by constructor.
Qed.

(** The terminator of a line of 511 characters does not fit. *)
Lemma insert_char_full s l r c :
  edits s l r -> Z.of_nat (length (l ++ r)) = CMD_BUFFER_SIZE - 1 -> insert_char s c = Fault.
Proof.
  intros He Hlt. destruct (insert_char_ready s l r He) as (buf & E & Hlb & _).
  destruct He as [Hl Ht Hend Hc Hf Hn Hchs]. unfold insert_char. rewrite E. cbn [mbind outcome_bind].
  rewrite length_app in *. unfold CMD_BUFFER_SIZE in *.
  rewrite buf_set_ok by (rewrite Hc, Hlb; lia). cbn [mbind outcome_bind].
  rewrite buf_set_out; [done | rewrite length_insert; lia].
Qed.

Lemma backspace_spec s l c r :
  edits s (l ++ [c]) r -> exists s', backspace s = Ok s' /\ edits s' l r.
Proof.
  intros [Hl Ht Hend Hc Hf Hn Hchs]. unfold backspace.
  rewrite !length_app in *. cbn [length] in *. unfold CMD_BUFFER_SIZE in *.
  replace (Z.to_nat (cmd_end_index s - (line_cursor_index s - 3))) with (length r) by lia.
  destruct (shift_down_spec (length r) (S (length l)) (cmd_buffer s)) as (buf & E & Hlb & Hlk); [lia.. |].
  replace (line_cursor_index s - 3) with (Z.of_nat (S (length l))) by lia.
  rewrite E. cbn [mbind outcome_bind]. rewrite buf_set_ok by lia. cbn [mbind outcome_bind].
  replace (Z.to_nat (cmd_end_index s - 1)) with (length l + length r)%nat by lia.
  eexists. split; [reflexivity |].
  split; cbn [cmd_buffer cmd_end_index line_cursor_index emit]; unfold CMD_BUFFER_SIZE;
    rewrite ?length_insert, ?length_app; try lia.
  - intros j d Hd. apply lookup_lt_Some in Hd as Hj. rewrite length_app in Hj.
    rewrite list_lookup_insert_ne by lia. rewrite Hlk.
    destruct (decide (j < length l)%nat).
    + rewrite decide_False by lia. apply Ht. rewrite <- app_assoc. by rewrite lookup_app_l in Hd |- * by lia.
    + rewrite decide_True by lia. apply Ht. rewrite <- app_assoc.
      rewrite lookup_app_r in Hd |- * by lia. rewrite <- Hd.
      replace (S j - length l)%nat with (S (j - length l)) by lia. done.
  - intros _. apply list_lookup_insert_eq. lia.
  - apply Forall_app in Hchs as [[? _]%Forall_app ?]. by apply Forall_app.
Qed.

(** Moving the cursor over a character. *)
Lemma move_line_cursor_spec s l r l' r' :
  edits s l r -> l' ++ r' = l ++ r ->
  edits (move_line_cursor s (Z.of_nat (length l') - Z.of_nat (length l))) l' r'.
Proof.
  intros [Hl Ht Hend Hc Hf Hn Hchs] E. split; cbn; rewrite ?E; try done. lia.
Qed.

(** ** Words

    The words of a line: the runs of characters other than spaces. *)

Definition flush (tok : list Z) : list (list Z) := match tok with [] => [] | _ => [tok] end.
Fixpoint words_from (tok t : list Z) : list (list Z) :=
  match t with
  | [] => flush tok
  | c :: t => if c =? 32 then flush tok ++ words_from [] t else words_from (tok ++ [c]) t
  end.
Definition words (t : list Z) : list (list Z) := words_from [] t.

(** The arguments as [arg_buffer] holds them, one behind the other. *)
Definition cut (w : list Z) : list Z := take 127 w.
Definition packed (ws : list (list Z)) : list Z := concat ((fun w => cut w ++ [0]) <$> ws).
Definition offsets (ws : list (list Z)) : list Z :=
  (fun j => Z.of_nat (length (packed (take j ws)))) <$> seq 0 (length ws).

Lemma packed_app ws ws' : packed (ws ++ ws') = packed ws ++ packed ws'.
Proof. unfold packed. by rewrite fmap_app, concat_app. Qed.

Lemma packed_one w : packed [w] = cut w ++ [0].
Proof. unfold packed. cbn. by rewrite app_nil_r. Qed.

Lemma offsets_snoc ws w : offsets (ws ++ [w]) = offsets ws ++ [Z.of_nat (length (packed ws))].
Proof.
  unfold offsets. rewrite length_app, seq_app, fmap_app. f_equal.
  - apply list_fmap_ext. intros i x Hx. apply lookup_seq in Hx as [-> Hx].
    by rewrite take_app_le by (simpl; lia).
  - simpl. by rewrite take_app_length.
Qed.

Lemma cstring_app x y : Forall (fun c => c <> 0) x -> cstring (x ++ 0 :: y) = x.
Proof.
  induction 1 as [|c x Hc Hx IH]; [done |]. cbn [app cstring].
  destruct (Z.eqb_spec c 0); [done | by rewrite IH].
Qed.

Lemma starts_with_take buf tok n :
  starts_with buf tok -> (n <= length tok)%nat -> take n buf = take n tok.
Proof.
  intros Hs Hn. apply list_eq. intros j. rewrite !lookup_take. case_decide; [| done].
  destruct (lookup_lt_is_Some_2 tok j) as [c Hc]; [lia |]. rewrite Hc. by apply Hs.
Qed.

Section splits.
Context (junk : Z).

(** The variables of [run_program] before index [i] of the line: the words [ws]
    are complete, [tok] is the part of a word read since. *)
Record splits (buf : list Z) (i : nat) (ws : list (list Z)) (tok : list Z) (p : splitter) : Prop := {
  sl_in : sp_in_token p = negb (bool_decide (tok = []));
  sl_start : tok <> [] -> sp_split_start p = Z.of_nat (i - length tok);
  sl_tok : starts_with (drop (i - length tok) buf) tok;
  sl_get : sp_program_get p = negb (bool_decide (ws = []));
  sl_program : match ws with
    | [] => sp_program p = replicate (Z.to_nat PROGRAM_SIZE) junk
    | w :: _ => cstring (sp_program p) = cut w
    end;
  sl_program_len : length (sp_program p) = Z.to_nat PROGRAM_SIZE;
  sl_chars : Forall (Forall (fun c => c <> 0)) (tok :: ws);
  sl_index : sp_args_index p = Z.of_nat (length (tail ws));
  sl_bound : (length (tail ws) <= 32)%nat;
  sl_args : take (length (tail ws)) (sp_args p) = offsets (tail ws);
  sl_args_len : length (sp_args p) = Z.to_nat ARGS_MAX;
  sl_packed : take (length (packed (tail ws))) (sp_arg_buffer p) = packed (tail ws);
  sl_buffer_index : sp_arg_buffer_index p = Z.of_nat (length (packed (tail ws)));
  sl_buffer_len : length (sp_arg_buffer p) = Z.to_nat ARG_BUFFER_SIZE;
  sl_total : (length (packed (tail ws)) + length tok <= i)%nat
}.

(** Copying the word [tok] to index [k] of an array and terminating it. *)
Lemma copy_word dst k buf start tok :
  starts_with (drop start buf) tok -> (start + length tok <= length buf)%nat ->
  (k + length (cut tok) < length dst)%nat ->
  exists d1, copy_bytes dst (Z.of_nat k) buf (Z.of_nat start) (Z.of_nat (length (cut tok))) = Ok d1 /\
    exists rest, buf_set d1 (Z.of_nat k + Z.of_nat (length (cut tok))) 0
      = Ok (take k dst ++ cut tok ++ 0 :: rest) /\
    length (take k dst ++ cut tok ++ 0 :: rest) = length dst.
Proof.
  intros Hs Hb Hd. set (n := length (cut tok)) in *.
  assert (n <= length tok)%nat as Hn by (unfold n, cut; rewrite length_take; lia).
  eexists. split; [apply copy_bytes_spec; lia |].
  rewrite (starts_with_take (drop start buf) tok n) by done.
  assert (take n tok = cut tok) as ->.
  { unfold n, cut. rewrite length_take. destruct (decide (127 <= length tok)%nat).
    - by rewrite Nat.min_l by lia.
    - rewrite Nat.min_r by lia. rewrite !take_ge by lia. done. }
  destruct (lookup_lt_is_Some_2 dst (k + n)%nat) as [v Hv]; [lia |].
  rewrite (drop_S dst v) by done.
  assert (length (take k dst ++ cut tok) = k + n)%nat as Hlen by (rewrite length_app, length_take; fold n; lia).
  exists (drop (S (k + n)) dst). rewrite app_assoc. split.
  - rewrite buf_set_ok by (rewrite length_app, Hlen; cbn; rewrite length_drop; lia). f_equal.
    replace (Z.to_nat _) with (length (take k dst ++ cut tok) + 0)%nat by lia.
    rewrite insert_app_r. by rewrite <- app_assoc.
  - rewrite app_assoc, length_app, Hlen. cbn. rewrite length_drop. lia.
Qed.

Lemma token_length buf i ws tok p :
  splits buf i ws tok p -> tok <> [] ->
  min (Z.of_nat i - sp_split_start p) 127 = Z.of_nat (length (cut tok)) /\
  sp_split_start p = Z.of_nat (i - length tok) /\ (length tok <= i)%nat.
Proof.
  intros Hp Ht. rewrite (sl_start _ _ _ _ _ Hp Ht). pose proof (sl_total _ _ _ _ _ Hp) as Hl.
  split; [| split; [done | lia]]. unfold cut. rewrite length_take.
  assert (forall a b, min a b = Z.min a b) as -> by (intros a b; unfold min; destruct (Z.ltb_spec a b); lia).
  lia.
Qed.

Lemma Forall_cut w : Forall (fun c => c <> 0) w -> Forall (fun c => c <> 0) (cut w).
Proof. apply Forall_take. Qed.

(** The first word goes to [program]. *)
Lemma end_program buf i tok p :
  splits buf i [] tok p -> tok <> [] -> (i < length buf)%nat ->
  exists p', end_token buf (Z.of_nat i) p = Ok p' /\ splits buf (S i) [tok] [] p'.
Proof.
  intros Hp Ht Hi. destruct (token_length _ _ _ _ _ Hp Ht) as (El & Es & Hle).
  unfold end_token. rewrite El, (sl_get _ _ _ _ _ Hp), Es. cbn [bool_decide negb].
  rewrite bool_decide_true by done. cbn [negb].
  destruct Hp as [_ _ Htok _ _ Hpl Hch Hidx Hbd Hargs Hal Hpk Hbi Hbl Htot]. cbn [tail length packed] in *.
  change (packed []) with (@nil Z) in *. cbn [length] in *.
  assert (length (cut tok) <= 127)%nat as Hc by (unfold cut; rewrite length_take; lia).
  destruct (copy_word (sp_program p) 0 buf (i - length tok) tok Htok) as (d1 & E1 & rest & E2 & Hlen);
    [lia | unfold PROGRAM_SIZE in *; lia |].
  change (Z.of_nat 0) with 0 in E1, E2. rewrite E1. cbn [mbind outcome_bind]. rewrite Z.add_0_l in E2.
  rewrite E2. cbn [mbind outcome_bind]. rewrite take_0 in *. cbn [app] in *.
  eexists. split; [reflexivity |].
  apply Forall_cons in Hch as [Hch _].
  split; cbn [sp_in_token sp_split_start sp_program sp_program_get sp_args_index sp_args sp_arg_buffer
    sp_arg_buffer_index tail]; change (packed []) with (@nil Z); rewrite ?take_0; try done;
    cbn [length]; try lia.
  - rewrite cstring_app by by apply Forall_cut. done.
  - by repeat constructor.
Qed.

(** Every other word is an argument. *)
Lemma end_argument buf i w ws tok p :
  splits buf i (w :: ws) tok p -> tok <> [] -> (i < length buf)%nat ->
  length buf = Z.to_nat CMD_BUFFER_SIZE ->
  if decide (length ws < 32)%nat
  then exists p', end_token buf (Z.of_nat i) p = Ok p' /\ splits buf (S i) ((w :: ws) ++ [tok]) [] p'
  else end_token buf (Z.of_nat i) p = Fault.
Proof.
  intros Hp Ht Hi Hlb. destruct (token_length _ _ _ _ _ Hp Ht) as (El & Es & Hle).
  unfold end_token. rewrite El, (sl_get _ _ _ _ _ Hp), Es, bool_decide_false by done. cbn [negb].
  destruct Hp as [_ _ Htok _ Hprog Hpl Hch Hidx Hbd Hargs Hal Hpk Hbi Hbl Htot]. cbn [tail] in *.
  unfold CMD_BUFFER_SIZE, ARG_BUFFER_SIZE, ARGS_MAX in *.
  assert (length (cut tok) <= length tok)%nat as Hc by (unfold cut; rewrite length_take; lia).
  destruct (copy_word (sp_arg_buffer p) (length (packed ws)) buf (i - length tok) tok Htok)
    as (d1 & E1 & rest & E2 & Hlen); [lia | lia |].
  rewrite Hbi, E1. cbn [mbind outcome_bind]. rewrite Hidx.
  case_decide as Hws; [| rewrite (buf_set_out (sp_args p)) by lia; done].
  rewrite (buf_set_ok (sp_args p)) by lia. cbn [mbind outcome_bind]. rewrite E2. cbn [mbind outcome_bind].
  eexists. split; [reflexivity |].
  apply Forall_cons in Hch as [Hct Hch]. rewrite Hpk in *.
  split; cbn [sp_in_token sp_split_start sp_program sp_program_get sp_args_index sp_args sp_arg_buffer
    sp_arg_buffer_index tail app]; unfold ARG_BUFFER_SIZE, ARGS_MAX; try done; try lia;
    rewrite ?packed_app, ?offsets_snoc, ?packed_one, ?length_app; cbn [length].
  - constructor; [constructor |]. change (w :: ws ++ [tok]) with ((w :: ws) ++ [tok]).
    apply Forall_app. split; [done | by repeat constructor].
  - lia.
  - lia.
  - replace (length ws + 1)%nat with (S (length ws)) by lia.
    rewrite (take_S_r _ _ (Z.of_nat (length (packed ws)))).
    + rewrite Nat2Z.id, take_insert_ge by lia. by rewrite Hargs.
    + rewrite Nat2Z.id. apply list_lookup_insert_eq. lia.
  - by rewrite length_insert.
  - replace (packed ws ++ cut tok ++ 0 :: rest) with ((packed ws ++ cut tok ++ [0]) ++ rest)
      by by rewrite <- !app_assoc.
    rewrite take_app_le by (rewrite !length_app; simpl; lia).
    rewrite take_ge by (rewrite !length_app; simpl; lia). done.
  - lia.
  - lia.
Qed.

(** Whether a line has a program and at most 32 arguments. *)
Definition room (ws : list (list Z)) : Prop := (length ws <= 33)%nat.

Lemma end_token_spec buf i ws tok p :
  splits buf i ws tok p -> tok <> [] -> (i < length buf)%nat -> length buf = Z.to_nat CMD_BUFFER_SIZE ->
  if decide (length ws < 33)%nat
  then exists p', end_token buf (Z.of_nat i) p = Ok p' /\ splits buf (S i) (ws ++ [tok]) [] p'
  else end_token buf (Z.of_nat i) p = Fault.
Proof.
  intros Hp Ht Hi Hb. destruct ws as [|w ws].
  - rewrite decide_True by (simpl; lia). by apply end_program.
  - pose proof (end_argument buf i w ws tok p Hp Ht Hi Hb) as H. cbn [length].
    case_decide; case_decide; try lia; done.
Qed.

(** A separator: the end of a word, if there is one. *)
Lemma split_separator buf i ws tok p c :
  splits buf i ws tok p -> buf !! i = Some c -> c = 32 \/ c = 0 ->
  length buf = Z.to_nat CMD_BUFFER_SIZE ->
  if decide (length (ws ++ flush tok) <= 33)%nat
  then exists p', split_step buf (Z.of_nat i) p = Ok p' /\ splits buf (S i) (ws ++ flush tok) [] p'
  else split_step buf (Z.of_nat i) p = Fault.
Proof.
  intros Hp Hc Hsep Hb. unfold split_step.
  rewrite (buf_get_lookup _ _ c) by (rewrite ?Nat2Z.id; done || lia). cbn [mbind outcome_bind].
  rewrite (sl_in _ _ _ _ _ Hp), negb_involutive.
  destruct (decide (tok = [])) as [-> | Ht].
  - rewrite bool_decide_true by done. cbn [flush]. rewrite app_nil_r.
    assert (length ws <= 33)%nat.
    { pose proof (sl_bound _ _ _ _ _ Hp). destruct ws; simpl in *; lia. }
    rewrite decide_True by done. exists p. split.
    { by destruct Hsep as [-> | ->]. }
    destruct Hp. split; try done; cbn [length] in *; try lia.
  - rewrite bool_decide_false by done.
    assert ((c =? 32) || (c =? 0) = true) as -> by (by destruct Hsep as [-> | ->]).
    destruct tok as [|d tok]; [done |]. cbn [flush]. rewrite length_app. cbn [length].
    pose proof (end_token_spec buf i ws (d :: tok) p Hp Ht (lookup_lt_Some _ _ _ Hc) Hb) as H.
    case_decide; case_decide; try lia; done.
Qed.

(** A character of a word. *)
Lemma split_letter buf i ws tok p c :
  splits buf i ws tok p -> buf !! i = Some c -> c <> 32 -> c <> 0 ->
  exists p', split_step buf (Z.of_nat i) p = Ok p' /\ splits buf (S i) ws (tok ++ [c]) p'.
Proof.
  intros Hp Hc H32 H0. unfold split_step.
  rewrite (buf_get_lookup _ _ c) by (rewrite ?Nat2Z.id; done || lia). cbn [mbind outcome_bind].
  rewrite (proj2 (Z.eqb_neq c 32)), (proj2 (Z.eqb_neq c 0)) by done.
  rewrite (sl_in _ _ _ _ _ Hp), negb_involutive. cbn [orb andb negb].
  assert (starts_with (drop (S i - length (tok ++ [c])) buf) (tok ++ [c])) as Htok.
  { rewrite length_app. cbn [length]. replace (S i - (length tok + 1))%nat with (i - length tok)%nat by lia.
    intros j d Hd. apply lookup_app_Some in Hd as [Hd | [Hj Hd]].
    - by apply (sl_tok _ _ _ _ _ Hp).
    - apply list_lookup_singleton_Some in Hd as [Hj0 <-]. rewrite lookup_drop, <- Hc. f_equal.
      pose proof (sl_total _ _ _ _ _ Hp). lia. }
  assert (Forall (Forall (fun c => c <> 0)) ((tok ++ [c]) :: ws)) as Hch.
  { pose proof (sl_chars _ _ _ _ _ Hp) as H. apply Forall_cons in H as [Hct ?].
    constructor; [| done]. apply Forall_app. split; [done | by repeat constructor]. }
  pose proof (sl_total _ _ _ _ _ Hp) as Htot.
  destruct (decide (tok = [])) as [-> | Ht].
  - rewrite bool_decide_true by done. eexists. split; [reflexivity |].
    destruct Hp. split; cbn; try done; cbn [length] in *; try lia.
  - rewrite bool_decide_false by done. exists p. split; [done |].
    destruct Hp. split; try done; rewrite ?length_app; cbn [length]; try lia.
    + rewrite sl_in0. rewrite !bool_decide_false; [done | by destruct tok | done].
Qed.

(** The loop, from index [i], where the text [t] is left. *)
Lemma split_loop buf t : forall i ws tok p,
  splits buf i ws tok p -> starts_with (drop i buf) (t ++ [0]) -> Forall line_char t ->
  length buf = Z.to_nat CMD_BUFFER_SIZE ->
  if decide (room (ws ++ words_from tok t))
  then exists p', for_up (S (length t)) (Z.of_nat i) (split_step buf) p = Ok p' /\
    splits buf (i + S (length t)) (ws ++ words_from tok t) [] p'
  else for_up (S (length t)) (Z.of_nat i) (split_step buf) p = Fault.
Proof.
  unfold room. induction t as [|c t IH]; intros i ws tok p Hp Hs Ht Hb.
  - cbn [words_from length for_up]. assert (buf !! i = Some 0) as Hc.
    { rewrite <- (Nat.add_0_r i), <- lookup_drop. by apply Hs. }
    pose proof (split_separator buf i ws tok p 0 Hp Hc (or_intror eq_refl) Hb) as H.
    case_decide; [| by rewrite H]. destruct H as (p' & E & Hp'). exists p'. rewrite E.
    split; [done |]. by replace (i + 1)%nat with (S i) by lia.
  - apply Forall_cons in Ht as [Hlc Ht]. cbn [words_from length]. 
    change (for_up (S (S (length t))) (Z.of_nat i) (split_step buf) p) with
      (p' ← split_step buf (Z.of_nat i) p; for_up (S (length t)) (Z.of_nat i + 1) (split_step buf) p').
    replace (Z.of_nat i + 1) with (Z.of_nat (S i)) by lia.
    replace (i + S (S (length t)))%nat with (S i + S (length t))%nat by lia.
    assert (buf !! i = Some c) as Hc.
    { rewrite <- (Nat.add_0_r i), <- lookup_drop. by apply Hs. }
    assert (starts_with (drop (S i) buf) (t ++ [0])) as Hs'.
    { intros j d Hd. rewrite lookup_drop. replace (S i + j)%nat with (i + S j)%nat by lia.
      rewrite <- lookup_drop. by apply Hs. }
    destruct (Z.eqb_spec c 32) as [-> | Hne].
    + pose proof (split_separator buf i ws tok p 32 Hp Hc (or_introl eq_refl) Hb) as H.
      rewrite app_assoc. case_decide as Hr.
      * destruct H as (p1 & E & Hp1). rewrite E. cbn [mbind outcome_bind].
        exact (IH (S i) _ [] p1 Hp1 Hs' Ht Hb).
      * rewrite H, decide_False by (rewrite length_app; lia). done.
    + unfold line_char in Hlc. destruct (split_letter buf i ws tok p c Hp Hc Hne) as (p1 & E & Hp1); [lia |].
      rewrite E. cbn [mbind outcome_bind]. exact (IH (S i) ws _ p1 Hp1 Hs' Ht Hb).
Qed.


Lemma string_packed ws : forall pre abuf rest,
  abuf = pre ++ packed ws ++ rest -> Forall (Forall (fun c => c <> 0)) ws ->
  (fun j => string_at abuf (Z.of_nat (length pre + length (packed (take j ws))))) <$> seq 0 (length ws)
  = cut <$> ws.
Proof.
  induction ws as [|w ws IH]; intros pre abuf rest Ha Hw; [done |].
  apply Forall_cons in Hw as [Hw Hws]. cbn [length seq fmap list_fmap]. f_equal.
  - cbn [take]. change (packed []) with (@nil Z). cbn [length]. unfold string_at.
    rewrite Ha, Nat2Z.id, Nat.add_0_r, drop_app_length.
    change (packed (w :: ws)) with (packed ([w] ++ ws)). rewrite packed_app, packed_one.
    rewrite <- !app_assoc. cbn [app]. apply cstring_app. by apply Forall_cut.
  - rewrite <- (IH (pre ++ cut w ++ [0]) abuf rest); [| | done].
    + rewrite <- fmap_S_seq, <- list_fmap_compose. apply list_fmap_ext. intros i j _. unfold compose.
      cbn [take]. change (packed (w :: take j ws)) with (packed ([w] ++ take j ws)).
      rewrite packed_app, packed_one, !length_app. f_equal. lia.
    + rewrite Ha. change (packed (w :: ws)) with (packed ([w] ++ ws)).
      by rewrite packed_app, packed_one, <- !app_assoc.
Qed.

(** The command of a line; the name of the program is not set when the line has
    no word. *)
Definition command_of (ws : list (list Z)) : command :=
  Command (match ws with [] => cstring (replicate (Z.to_nat PROGRAM_SIZE) junk) | w :: _ => cut w end)
    (cut <$> tail ws).

Lemma splits_command buf i ws p :
  splits buf i ws [] p ->
  Command (cstring (sp_program p))
    (string_at (sp_arg_buffer p) <$> take (Z.to_nat (sp_args_index p)) (sp_args p)) = command_of ws.
Proof.
  intros Hp. pose proof (sl_program _ _ _ _ _ Hp) as Hprog. unfold command_of.
  destruct ws as [|w ws].
  { by rewrite Hprog, (sl_index _ _ _ _ _ Hp). }
  rewrite Hprog. f_equal. rewrite (sl_index _ _ _ _ _ Hp), Nat2Z.id, (sl_args _ _ _ _ _ Hp). unfold offsets. cbn [tail].
  rewrite <- list_fmap_compose.
  pose proof (sl_packed _ _ _ _ _ Hp) as Hpk. cbn [tail] in Hpk.
  assert (Forall (Forall (fun c => c <> 0)) ws) as Hw.
  { pose proof (sl_chars _ _ _ _ _ Hp) as H. by apply Forall_cons in H as [_ [_ ?]%Forall_cons]. }
  apply (string_packed ws [] (sp_arg_buffer p) (drop (length (packed ws)) (sp_arg_buffer p))); [| done].
  cbn [app]. by rewrite <- Hpk at 1; rewrite take_drop.
Qed.

Definition split_start : splitter :=
  Splitter (replicate (Z.to_nat PROGRAM_SIZE) junk) (replicate (Z.to_nat ARG_BUFFER_SIZE) junk) 0
    (replicate (Z.to_nat ARGS_MAX) junk) (-1) false false 0.

Lemma split_start_splits buf : splits buf 0 [] [] split_start.
Proof.
  split; try done; cbn [split_start sp_program sp_args sp_arg_buffer tail length];
    rewrite ?length_replicate; try done.
  - by repeat constructor.
  - lia.
Qed.

Lemma run_program_spec s l r (He : edits s l r) (Hne : l ++ r <> []) :
  if decide (room (words (l ++ r)))
  then run_program junk s = Ok (emit s [Printf [10]], command_of (words (l ++ r)))
  else run_program junk s = Fault.
Proof.
  destruct He as [Hl Ht Hend Hc Hf Hn Hchs]. set (t := l ++ r) in *.
  unfold run_program. cbn [cmd_buffer cmd_end_index emit]. fold split_start.
  rewrite Hend. replace (Z.to_nat (Z.of_nat (length t) + 1)) with (S (length t)) by lia.
  assert (starts_with (drop 0 (cmd_buffer s)) (t ++ [0])) as Hs.
  { rewrite drop_0. intros j c [Hj | [Hj Hj0]]%lookup_app_Some; [by apply Ht |].
    apply list_lookup_singleton_Some in Hj0 as [Hj0 <-]. rewrite <- (Hn Hne). f_equal. lia. }
  pose proof (split_loop (cmd_buffer s) t 0 [] [] split_start
    (split_start_splits _) Hs Hchs Hl) as H. cbn [app] in H. fold (words t) in H.
  change (Z.of_nat 0) with 0 in H. case_decide; [| by rewrite H].
  destruct H as (p & E & Hp). rewrite E. cbn [mbind outcome_bind].
  by rewrite (splits_command _ _ _ _ Hp).
Qed.
End splits.

(** [run_program] splits the line at its spaces: the program is its first
    word (what the stack held when there is none), the arguments are the others, each
    cut off after 127 characters.  With
    more than 32 arguments it writes past the end of [args]. *)
Theorem run_program_correct junk s l r (He : edits s l r) (Hne : l ++ r <> []) :
  if decide (room (words (l ++ r)))
  then run_program junk s = Ok (emit s [Printf [10]], command_of junk (words (l ++ r)))
  else run_program junk s = Fault.
Proof. by apply run_program_spec. Qed.

(** ** A session

    The specification of the editor: the text before the cursor and the text
    behind it.  A key gives the next text, or ends the line, or does not fit. *)
Inductive edited := Editing (l r : list Z) | Entered (l r : list Z) | Cleared | Overflow.

Definition edit (l r : list Z) (c : Z) : edited :=
  if c <? 128 then
    if c =? 8 then Editing (removelast l) r
    else if c =? 12 then Cleared
    else if c =? 10 then Entered l r
    else if 32 <=? c then
      if Z.of_nat (length (l ++ r)) <? CMD_BUFFER_SIZE - 1 then Editing (l ++ [c]) r else Overflow
    else Editing l r
  else if c =? KHE_ARROW_LEFT then
    match last l with Some x => Editing (removelast l) (x :: r) | None => Editing l r end
  else if c =? KHE_ARROW_RIGHT then
    match r with x :: r => Editing (l ++ [x]) r | [] => Editing l r end
  else Editing l r.

(** The commands of a session and whether it ends; none when it overflows. *)
Fixpoint session (junk : Z) (l r : list Z) (keys : list Z) : option (list command * bool) :=
  match keys with
  | [] => Some ([], false)
  | c :: keys =>
      match edit l r c with
      | Editing l r => session junk l r keys
      | Cleared => session junk [] [] keys
      | Overflow => None
      | Entered l r =>
          let t := l ++ r in
          if bool_decide (t = []) then session junk [] [] keys
          else if bool_decide (t = EXIT_WORD) then Some ([], true)
          else if bool_decide (t = CLEAR_WORD) then session junk [] [] keys
          else if decide (room (words t)) then
            '(cs, e) ← session junk [] [] keys; Some (command_of junk (words t) :: cs, e)
          else None
      end
  end.

Lemma new_line_edits s l r : edits s l r -> edits (new_line s) [] [].
Proof. intros []. split; try done. Qed.

Lemma edits_out s l r o : edits s l r -> edits (emit s o) l r.
Proof. intros []. by split. Qed.

(** Enter. *)
Lemma enter_key_spec junk s l r :
  edits s l r ->
  let t := l ++ r in
  if bool_decide (t = []) then
    exists s', enter_key junk s = Ok (s', NextLine) /\ edits s' l r
  else if bool_decide (t = EXIT_WORD) then
    exists s', enter_key junk s = Ok (s', ExitShell) /\ edits s' l r
  else if bool_decide (t = CLEAR_WORD) then
    exists s', enter_key junk s = Ok (s', NextLine) /\ edits s' l r
  else if decide (room (words t)) then
    exists s', enter_key junk s = Ok (s', RunCommand (command_of junk (words t))) /\ edits s' l r
  else enter_key junk s = Fault.
Proof.
  intros He t. unfold enter_key. rewrite (ed_end _ _ _ He). fold t.
  case_bool_decide as Ht.
  { rewrite Ht. cbn. eexists. split; [reflexivity | by apply edits_out]. }
  rewrite (proj2 (Z.eqb_neq _ _)) by (destruct t; [done | simpl; lia]).
  assert (Forall (fun c => 0 < c < 256) t) as Hc.
  { eapply Forall_impl; [apply (ed_chars _ _ _ He) |]. unfold line_char. intros; simpl in *; lia. }
  assert (forall w, Forall (fun c => 0 < c < 256) w -> (length w < 16)%nat ->
    line_is w (cmd_buffer s) = Ok (bool_decide (t = w))) as Hline.
  { intros w Hw Hn. apply line_is_spec; try done; [apply (ed_text _ _ _ He) | by apply (ed_nul _ _ _ He)]. }
  rewrite (Hline EXIT_WORD) by (first [by repeat constructor | simpl; lia]). cbn [mbind outcome_bind].
  case_bool_decide; [eexists; split; [reflexivity | by apply edits_out] |].
  rewrite (Hline CLEAR_WORD) by (first [by repeat constructor | simpl; lia]). cbn [mbind outcome_bind].
  case_bool_decide; [eexists; split; [reflexivity | by apply edits_out] |].
  pose proof (run_program_spec junk s l r He Ht) as Hrun. fold t in Hrun.
  case_decide; rewrite Hrun; [| done]. eexists. split; [reflexivity | by apply edits_out].
Qed.

(** One key. *)
Lemma shell_key_spec junk s l r c :
  edits s l r -> c <> 10 ->
  match edit l r c with
  | Editing l' r' => exists s', shell_key junk s c = Ok (s', NextKey) /\ edits s' l' r'
  | Cleared => exists s', shell_key junk s c = Ok (s', NextLine) /\ edits s' l r
  | Overflow => shell_key junk s c = Fault
  | Entered _ _ => False
  end.
Proof.
  intros He Hc. unfold edit, shell_key, LINE_CURSOR_INDEX_MIN.
  pose proof (ed_cursor _ _ _ He) as Hcur. pose proof (ed_end _ _ _ He) as Hend.
  destruct (Z.ltb_spec c 128).
  - destruct (Z.eqb_spec c 8) as [-> | H8].
    + destruct l as [|x l _] using rev_ind.
      * rewrite Hcur. simpl. by exists s.
      * rewrite removelast_snoc, (proj2 (Z.eqb_neq _ _)) by (rewrite Hcur, length_app; simpl; lia).
        destruct (backspace_spec s l x r He) as (s' & -> & He'). by exists s'.
    + destruct (Z.eqb_spec c 12); [eexists; split; [reflexivity | by apply edits_out] |].
      destruct (Z.eqb_spec c 10); [done |]. destruct (Z.leb_spec 32 c); [| by exists s].
      destruct (Z.ltb_spec (Z.of_nat (length (l ++ r))) (CMD_BUFFER_SIZE - 1)).
      * destruct (insert_char_spec s l r c He) as (s' & -> & He'); [split; lia | lia | by exists s'].
      * rewrite (insert_char_full s l r); [done | done |]. pose proof (ed_fits _ _ _ He). lia.
  - destruct (Z.eqb_spec c KHE_ARROW_LEFT); [| destruct (Z.eqb_spec c KHE_ARROW_RIGHT); [| by exists s]].
    + destruct l as [|x l _] using rev_ind; [rewrite Hcur; by exists s |].
      rewrite last_snoc, removelast_snoc.
      rewrite (proj2 (Z.eqb_neq _ _)) by (rewrite Hcur, length_app; simpl; lia).
      eexists. split; [reflexivity |].
      replace (-1) with (Z.of_nat (length l) - Z.of_nat (length (l ++ [x])))
        by (rewrite length_app; simpl; lia).
      eapply move_line_cursor_spec; [done |]. by rewrite <- app_assoc.
    + rewrite length_app in Hend. destruct r as [|x r].
      * rewrite (proj2 (Z.eqb_eq _ _)) by (simpl in Hend; lia). by exists s.
      * rewrite (proj2 (Z.eqb_neq _ _)) by (simpl in Hend; lia). eexists. split; [reflexivity |].
        replace 1 with (Z.of_nat (length (l ++ [x])) - Z.of_nat (length l))
          by (rewrite length_app; simpl; lia).
        eapply move_line_cursor_spec; [done |]. by rewrite <- app_assoc.
Qed.

Lemma shell_keys_spec junk keys : forall s l r, edits s l r ->
  match session junk l r keys with
  | Some (cs, e) => exists s', shell_keys junk s keys = Ok (s', cs, e)
  | None => shell_keys junk s keys = Fault
  end.
Proof.
  induction keys as [|c keys IH]; intros s l r He; cbn [session shell_keys]; [by exists s |].
  destruct (decide (c = 10)) as [-> | Hc].
  - change (edit l r 10) with (Entered l r). change (shell_key junk s 10) with (enter_key junk s).
    pose proof (enter_key_spec junk s l r He) as H. cbn zeta iota in H |- *.
    destruct (bool_decide (l ++ r = [])) in H |- *;
      [| destruct (bool_decide (l ++ r = EXIT_WORD)) in H |- *;
         [| destruct (bool_decide (l ++ r = CLEAR_WORD)) in H |- *]].
    1, 3: destruct H as (s' & -> & He'); cbn [mbind outcome_bind];
      by apply IH, (new_line_edits _ _ _ He').
    { destruct H as (s' & -> & He'). by exists s'. }
    destruct (decide (room (words (l ++ r)))) in H |- *; [| by rewrite H].
    destruct H as (s' & -> & He'). cbn [mbind outcome_bind].
    pose proof (IH _ _ _ (new_line_edits _ _ _ He')) as IH'.
    destruct (session junk [] [] keys) as [[cs e] |]; cbn.
    + destruct IH' as (s2 & ->). by exists s2.
    + by rewrite IH'.
  - pose proof (shell_key_spec junk s l r c He Hc) as H.
    destruct (edit l r c) as [l' r' | | |]; [| done | |].
    + destruct H as (s' & -> & He'). cbn [mbind outcome_bind]. by apply IH.
    + destruct H as (s' & -> & He'). cbn [mbind outcome_bind]. by apply IH, (new_line_edits _ _ _ He').
    + by rewrite H.
Qed.

(** C39: a session of the shell.  For every sequence of keys, in any order, the
    shell runs exactly the commands of the lines that a cursor editor gives for
    those keys, and returns exactly at a line "exit"; it goes wrong (a write past
    the end of an array) exactly when a line gets its 512th character or a command
    has more than 32 arguments. *)
Theorem run_shell_correct junk s keys
    (Hb : length (cmd_buffer s) = Z.to_nat CMD_BUFFER_SIZE) :
  match session junk [] [] keys with
  | Some (cs, e) => exists s', run_shell junk s keys = Ok (s', cs, e)
  | None => run_shell junk s keys = Fault
  end.
Proof.
  unfold run_shell. rewrite buf_set_ok by (rewrite Hb; done). cbn [mbind outcome_bind].
  apply shell_keys_spec. split; try done; cbn; rewrite ?length_insert; done.
Qed.

Lemma run_program_correct_witness :
  run_program 7 (Shell ([108; 115; 32; 97] ++ replicate 508 0) 4 7 [])
  = Ok (Shell ([108; 115; 32; 97] ++ replicate 508 0) 4 7 [Printf [10]], Command [108; 115] [[97]]).
Proof.
  assert (edits (Shell ([108; 115; 32; 97] ++ replicate 508 0) 4 7 []) [108; 115; 32; 97] []) as He.
  { split; try done.
    - intros j c Hj. rewrite app_nil_r in Hj. change (([108; 115; 32; 97] ++ replicate 508 0) !! j = Some c).
      by apply lookup_app_l_Some.
    - repeat constructor; done. }
  exact (run_program_correct 7 _ _ _ He ltac:(discriminate)).
Defined.

Lemma run_shell_correct_witness :
  exists s', run_shell 7 shell_start [108; 120; 8; 115; 32; 97; 98; 0x82; 8; 10; 101; 120; 105; 116; 10]
    = Ok (s', [Command [108; 115] [[98]]], true).
Proof.
  pose proof (run_shell_correct 7 shell_start
    [108; 120; 8; 115; 32; 97; 98; 0x82; 8; 10; 101; 120; 105; 116; 10] (length_replicate _ _)) as H.
  assert (session 7 [] [] [108; 120; 8; 115; 32; 97; 98; 0x82; 8; 10; 101; 120; 105; 116; 10]
    = Some ([Command [108; 115] [[98]]], true)) as E by (vm_compute; reflexivity).
  rewrite E in H. exact H.
Defined.
