(* ===== verification/Cpu.v ===== *)
(** * The assembly of traps and switches (interrupt/idt.S,
    syscall/syscall_wrapper.S, task/schedule.S)

    The routines are lists of instructions, run by an interpreter on the
    registers and memory of the processor; what the C functions they call do to
    the machine is a parameter.  The theorems follow a trap from the interrupted
    program through the kernel's stack and back. *)

From S2P Require Import Prelude.
From S2P Require Import Memory.
From S2P Require Import Gdt.

(** ** The machine *)

Inductive reg := EAX | ECX | EDX | EBX | ESP | EBP | ESI | EDI.

#[export] Instance reg_eq_dec : EqDecision reg.
Proof. solve_decision. Defined.

Record regs := Regs {
  eax : Z; ecx : Z; edx : Z; ebx : Z; esp : Z; ebp : Z; esi : Z; edi : Z
}.

Definition get (r : regs) (x : reg) : Z :=
  match x with
  | EAX => eax r | ECX => ecx r | EDX => edx r | EBX => ebx r
  | ESP => esp r | EBP => ebp r | ESI => esi r | EDI => edi r
  end.

Definition set (r : regs) (x : reg) (v : Z) : regs :=
  let '(Regs a c d b sp bp si di) := r in
  match x with
  | EAX => Regs v c d b sp bp si di
  | ECX => Regs a v d b sp bp si di
  | EDX => Regs a c v b sp bp si di
  | EBX => Regs a c d v sp bp si di
  | ESP => Regs a c d b v bp si di
  | EBP => Regs a c d b sp v si di
  | ESI => Regs a c d b sp bp v di
  | EDI => Regs a c d b sp bp si v
  end.

(** The segment registers the code loads. *)
Record segs := Segs { sg_ds : Z; sg_es : Z; sg_fs : Z; sg_gs : Z }.

Record cpu := Cpu {
  c_regs : regs; c_segs : segs; c_eip : Z; c_cs : Z; c_ss : Z; c_eflags : Z; c_mem : mem
}.

Definition with_regs (c : cpu) (r : regs) : cpu :=
  Cpu r (c_segs c) (c_eip c) (c_cs c) (c_ss c) (c_eflags c) (c_mem c).
Definition with_segs (c : cpu) (s : segs) : cpu :=
  Cpu (c_regs c) s (c_eip c) (c_cs c) (c_ss c) (c_eflags c) (c_mem c).
Definition with_flags (c : cpu) (f : Z) : cpu :=
  Cpu (c_regs c) (c_segs c) (c_eip c) (c_cs c) (c_ss c) f (c_mem c).
Definition with_mem (c : cpu) (m : mem) : cpu :=
  Cpu (c_regs c) (c_segs c) (c_eip c) (c_cs c) (c_ss c) (c_eflags c) m.

(** The interrupt flag, bit 9. *)
Definition set_if (f : Z) : Z := Z.lor f 512.
Definition clear_if (f : Z) : Z := Z.land f (Z.lnot 512).

Inductive instr :=
  | PUSH (r : reg)
  | PUSH_BYTE (n : Z)
  | PUSHA
  | POP (r : reg)
  | POPA
  | ADD_ESP (n : Z)
  | MOV (r : reg) (n : Z)
  | MOV_LOW (r : reg) (n : Z)
  | GET_DS (r : reg)
  | SET_SEGS (r : reg)
  | LOAD (r base : reg) (off : Z)
  | STORE (base r : reg)
  | CLI
  | STI
  | RET
  | IRET.

Definition push (c : cpu) (v : Z) : cpu :=
  let p := u32 (esp (c_regs c) - 4) in
  with_mem (with_regs c (set (c_regs c) ESP p)) (store32 (c_mem c) p v).

(** The word on top of the stack, and the state without it. *)
Definition top (c : cpu) : Z := load32 (c_mem c) (esp (c_regs c)).
Definition drop_bytes (c : cpu) (n : Z) : cpu :=
  with_regs c (set (c_regs c) ESP (u32 (esp (c_regs c) + n))).
Definition pop (c : cpu) (r : reg) : cpu :=
  let c' := drop_bytes c 4 in with_regs c' (set (c_regs c') r (top c)).

(** The low 16 bits of a register replaced, as [mov ax, ...] does. *)
Definition low16 (v n : Z) : Z := v / 65536 * 65536 + n mod 65536.

(** [iret] leaves the kernel when the popped code segment is a user's. *)
Definition iret (c : cpu) : cpu :=
  let ip := top c in let c := drop_bytes c 4 in
  let cs := top c in let c := drop_bytes c 4 in
  let fl := top c in let c := drop_bytes c 4 in
  if cs mod 4 =? 3 then
    let sp := top c in let c := drop_bytes c 4 in
    let ss := top c in
    Cpu (set (c_regs c) ESP sp) (c_segs c) ip cs ss fl (c_mem c)
  else Cpu (c_regs c) (c_segs c) ip cs (c_ss c) fl (c_mem c).

Definition exec (i : instr) (c : cpu) : cpu :=
  match i with
  | PUSH r => push c (get (c_regs c) r)
  | PUSH_BYTE n => push c n
  | PUSHA =>
      let r := c_regs c in
      let c := push (push (push (push c (eax r)) (ecx r)) (edx r)) (ebx r) in
      push (push (push (push c (esp r)) (ebp r)) (esi r)) (edi r)
  | POP r => pop c r
  | POPA =>
      let c := pop (pop (pop c EDI) ESI) EBP in
      pop (pop (pop (pop (drop_bytes c 4) EBX) EDX) ECX) EAX
  | ADD_ESP n => drop_bytes c n
  | MOV r n => with_regs c (set (c_regs c) r n)
  | MOV_LOW r n => with_regs c (set (c_regs c) r (low16 (get (c_regs c) r) n))
  | GET_DS r => with_regs c (set (c_regs c) r (low16 (get (c_regs c) r) (sg_ds (c_segs c))))
  | SET_SEGS r => let v := get (c_regs c) r mod 65536 in with_segs c (Segs v v v v)
  | LOAD r base off => with_regs c (set (c_regs c) r (load32 (c_mem c) (u32 (get (c_regs c) base + off))))
  | STORE base r => with_mem c (store32 (c_mem c) (get (c_regs c) base) (get (c_regs c) r))
  | CLI => with_flags c (clear_if (c_eflags c))
  | STI => with_flags c (set_if (c_eflags c))
  | RET => let ip := top c in
      let c := drop_bytes c 4 in
      Cpu (c_regs c) (c_segs c) ip (c_cs c) (c_ss c) (c_eflags c) (c_mem c)
  | IRET => iret c
  end.

Definition run (code : list instr) (c : cpu) : cpu := foldl (fun c i => exec i c) c code.

(** What the processor does on an interrupt or a trap through a gate: from user
    mode it takes the kernel's stack from the task-state segment. *)
Definition trap (ss0 esp0 : Z) (err : option Z) (c : cpu) : cpu :=
  let r := c_regs c in
  let c' :=
    if c_cs c mod 4 =? 3 then
      push (push (Cpu (set r ESP esp0) (c_segs c) (c_eip c) (c_cs c) ss0 (c_eflags c) (c_mem c))
        (c_ss c)) (esp r)
    else c in
  let c' := push (push (push c' (c_eflags c)) (c_cs c)) (c_eip c) in
  let c' := match err with Some e => push c' e | None => c' end in
  Cpu (c_regs c') (c_segs c') (c_eip c') SELECTOR_K_CODE (c_ss c') (clear_if (c_eflags c')) (c_mem c').

(** ** The routines *)

(** The segment loads are of ds, es, fs and gs, in this order. *)
Definition isr_stub_noerrcode (n : Z) : list instr := [CLI; PUSH_BYTE 0; PUSH_BYTE n].
Definition isr_stub_errcode (n : Z) : list instr := [CLI; PUSH_BYTE n].
Definition isr_common_stub : list instr :=
  [PUSHA; GET_DS EAX; PUSH EAX; MOV_LOW EAX 0x10; SET_SEGS EAX].
Definition interrupt_exit : list instr := [POP EAX; SET_SEGS EAX; POPA; ADD_ESP 8; STI; IRET].

Definition syscall_entry : list instr :=
  [PUSH_BYTE 0; PUSH_BYTE 0; PUSH EAX; PUSH ECX; PUSH EDX; PUSH EBX; PUSH ESP; PUSH EBP; PUSH ESI;
   PUSH EDI; GET_DS ECX; PUSH ECX; MOV_LOW ECX 0x10; SET_SEGS ECX; STI].
Definition syscall_exit : list instr :=
  [POP ECX; SET_SEGS ECX; POP EDI; POP ESI; POP EBP; POP ESP; POP EBX; POP EDX; POP ECX; ADD_ESP 4;
   ADD_ESP 8; IRET].
Definition syscall_fork_exit : list instr :=
  [ADD_ESP 8; POP ECX; SET_SEGS ECX; POP EDI; POP ESI; POP EBP; ADD_ESP 4; POP EBX; POP EDX; POP ECX;
   MOV EAX 0; ADD_ESP 4; ADD_ESP 8; IRET].

Definition save_context : list instr :=
  [PUSH EAX; PUSH ECX; PUSH EDX; PUSH EBX; PUSH EBP; PUSH ESI; PUSH EDI;
   LOAD EAX ESP 32; STORE EAX ESP].
Definition load_context : list instr := [LOAD EAX ESP 36; LOAD ESP EAX 0].
Definition resume_thread : list instr :=
  [POP EDI; POP ESI; POP EBP; POP EBX; POP EDX; POP ECX; POP EAX; STI; RET].
Definition context_switch : list instr := save_context ++ load_context ++ resume_thread.
Definition switch_to_user_mode : list instr := [ADD_ESP 8].

(** The stub of each vector; [has_errcode] is the table of the stubs, the vectors
    that [DEFINE_ISR_ERRCODE] is used for. *)
Definition has_errcode (n : Z) : bool := bool_decide (n = 8 \/ 10 <= n <= 14).

(** The processor's own table, from its manual: it pushes an error code for the
    double fault (8), for the invalid segment, stack, protection and page faults (10
    to 14) and for the alignment check (17). *)
Definition cpu_errcode (n : Z) : bool := bool_decide (n = 8 \/ 10 <= n <= 14 \/ n = 17).

(** An exception or hardware interrupt with vector [n], up to the call of
    [isr_handler]: the processor's trap, the stub of the vector, the common stub. *)
Definition interrupt_frame (ss0 esp0 n : Z) (err : Z) (c : cpu) : cpu :=
  let stub := if has_errcode n then isr_stub_errcode n else isr_stub_noerrcode n in
  run isr_common_stub (run stub (trap ss0 esp0 (if cpu_errcode n then Some err else None) c)).

(** The C functions [isr_handler] and [schedule] run on the frame. *)
Definition interrupt (ss0 esp0 n err : Z) (isr_handler schedule : cpu -> cpu) (c : cpu) : cpu :=
  run interrupt_exit (schedule (isr_handler (interrupt_frame ss0 esp0 n err c))).

Definition syscall (ss0 esp0 : Z) (syscall_handler : cpu -> cpu) (c : cpu) : cpu :=
  run syscall_exit (syscall_handler (run syscall_entry (trap ss0 esp0 None c))).

(** ** The stack as a list

    [astate] is the machine with its stack as a list of words below [T], the
    address where the list ends; [aexec] runs an instruction on it. *)

Record astate := AState {
  a_regs : regs; a_segs : segs; a_eip : Z; a_cs : Z; a_ss : Z; a_eflags : Z; a_stack : list Z
}.

Definition aset (a : astate) (r : reg) (v : Z) : astate :=
  AState (set (a_regs a) r v) (a_segs a) (a_eip a) (a_cs a) (a_ss a) (a_eflags a) (a_stack a).
Definition awith (a : astate) (ws : list Z) : astate :=
  AState (a_regs a) (a_segs a) (a_eip a) (a_cs a) (a_ss a) (a_eflags a) ws.
Definition aflags (a : astate) (f : Z) : astate :=
  AState (a_regs a) (a_segs a) (a_eip a) (a_cs a) (a_ss a) f (a_stack a).

Section stack.
Variable T : Z.

Definition depth (ws : list Z) : Z := T - 4 * Z.of_nat (length ws).
Definition aget (a : astate) (r : reg) : Z :=
  match r with ESP => depth (a_stack a) | _ => get (a_regs a) r end.

Definition apop (a : astate) (r : reg) : option astate :=
  match a_stack a, r with
  | v :: ws, ESP => if v =? depth ws then Some (awith a ws) else None
  | v :: ws, _ => Some (aset (awith a ws) r v)
  | [], _ => None
  end.

Fixpoint adrop (n : nat) (a : astate) : option astate :=
  match n, a_stack a with
  | O, _ => Some a
  | S n, _ :: ws => adrop n (awith a ws)
  | S _, [] => None
  end.

Definition apush (a : astate) (v : Z) : astate := awith a (v :: a_stack a).

Definition aexec (i : instr) (a : astate) : option astate :=
  match i with
  | PUSH r => Some (apush a (aget a r))
  | PUSH_BYTE n => if (0 <=? n) && (n <? 128) then Some (apush a n) else None
  | PUSHA =>
      let r := aget a in
      Some (awith a (r EDI :: r ESI :: r EBP :: r ESP :: r EBX :: r EDX :: r ECX :: r EAX :: a_stack a))
  | POP r => apop a r
  | POPA =>
      a ← apop a EDI; a ← apop a ESI; a ← apop a EBP; a ← adrop 1 a;
      a ← apop a EBX; a ← apop a EDX; a ← apop a ECX; apop a EAX
  | ADD_ESP n => if n =? 4 then adrop 1 a else if n =? 8 then adrop 2 a else None
  | MOV r n => match r with ESP => None | _ => if n =? 0 then Some (aset a r 0) else None end
  | MOV_LOW r n => match r with ESP => None | _ => Some (aset a r (low16 (get (a_regs a) r) n)) end
  | GET_DS r =>
      match r with ESP => None | _ => Some (aset a r (low16 (get (a_regs a) r) (sg_ds (a_segs a)))) end
  | SET_SEGS r =>
      let v := aget a r mod 65536 in
      Some (AState (a_regs a) (Segs v v v v) (a_eip a) (a_cs a) (a_ss a) (a_eflags a) (a_stack a))
  | CLI => Some (aflags a (clear_if (a_eflags a)))
  | STI => Some (aflags a (set_if (a_eflags a)))
  | RET =>
      match a_stack a with
      | v :: ws => Some (AState (a_regs a) (a_segs a) v (a_cs a) (a_ss a) (a_eflags a) ws)
      | [] => None
      end
  | LOAD _ _ _ | STORE _ _ | IRET => None
  end.

Fixpoint arun (code : list instr) (a : astate) : option astate :=
  match code with
  | [] => Some a
  | i :: code => a ← aexec i a; arun code a
  end.

(** The most words an instruction pushes. *)
Definition pushes (i : instr) : Z := match i with PUSH _ | PUSH_BYTE _ => 1 | PUSHA => 8 | _ => 0 end.
Definition room (code : list instr) : Z := foldr (fun i n => pushes i + n) 0 code.

(** ** The simulation *)

Fixpoint words_on (m : mem) (p : Z) (ws : list Z) : Prop :=
  match ws with
  | [] => True
  | w :: ws => load32 m p = w /\ words_on m (p + 4) ws
  end.

Definition fits (r : regs) : Prop := forall x, x <> ESP -> is_u32 (get r x).

Record sim (c : cpu) (a : astate) : Prop := {
  sm_regs : c_regs c = set (a_regs a) ESP (depth (a_stack a));
  sm_segs : c_segs c = a_segs a;
  sm_eip : c_eip c = a_eip a;
  sm_cs : c_cs c = a_cs a;
  sm_ss : c_ss c = a_ss a;
  sm_eflags : c_eflags c = a_eflags a;
  sm_stack : words_on (c_mem c) (depth (a_stack a)) (a_stack a);
  sm_fits : fits (a_regs a);
  sm_ds : 0 <= sg_ds (a_segs a) < 65536;
  sm_room : 0 <= depth (a_stack a) /\ T < 4294967296
}.

Lemma words_on_store m p ws q v : q + 4 <= p -> words_on m p ws -> words_on (store32 m q v) p ws.
Proof.
  revert p. induction ws as [|w ws IH]; intros p Hq H; [done |]. destruct H as [H1 H2].
  split; [by rewrite load32_store32_ne by lia | apply IH; [lia | done]].
Qed.

Lemma words_on_same m m' p ws hi :
  same_on m m' p hi -> p + 4 * Z.of_nat (length ws) <= hi -> words_on m p ws -> words_on m' p ws.
Proof.
  revert p. induction ws as [|w ws IH]; intros p Hm Hh H; [done |]. destruct H as [H1 H2].
  cbn [length] in Hh. split.
  - rewrite <- H1. eapply load32_same_on; [done | lia | lia].
  - apply IH; [| lia | done]. eapply same_on_sub; [done | lia | lia].
Qed.

Lemma depth_cons v ws : depth (v :: ws) = depth ws - 4.
Proof. unfold depth. cbn [length]. lia. Qed.

Lemma low16_range v n : is_u32 v -> is_u32 (low16 v n).
Proof. unfold is_u32, low16. lia. Qed.

Lemma low16_mod v n : 0 <= n < 65536 -> low16 v n mod 65536 = n.
Proof. unfold low16. lia. Qed.

Lemma set_set r x v v' : set (set r x v) x v' = set r x v'.
Proof. by destruct r, x. Qed.

Lemma set_comm r x v w : x <> ESP -> set (set r ESP v) x w = set (set r x w) ESP v.
Proof. by destruct r, x. Qed.

Lemma get_set_esp r v x : x <> ESP -> get (set r ESP v) x = get r x.
Proof. by destruct r, x. Qed.

Lemma fits_set r x v : fits r -> is_u32 v -> fits (set r x v).
Proof. intros Hr Hv y Hy. specialize (Hr y Hy). by destruct r, x, y. Qed.

Lemma sim_get c a x : sim c a -> get (c_regs c) x = aget a x.
Proof.
  intros []. unfold aget. rewrite sm_regs0. by destruct (a_regs a), x.
Qed.

Lemma sim_word c a x : sim c a -> is_u32 (aget a x).
Proof.
  intros []. unfold aget. destruct x; try (by apply sm_fits0). unfold is_u32, depth in *. lia.
Qed.

Lemma sim_push c a v : sim c a -> is_u32 v -> 4 <= depth (a_stack a) -> sim (push c v) (apush a v).
Proof.
  intros Hs Hv Hr. destruct Hs. unfold push, apush.
  assert (esp (c_regs c) = depth (a_stack a)) as Hesp.
  { rewrite sm_regs0. by destruct (a_regs a). }
  assert (u32 (esp (c_regs c) - 4) = depth (a_stack a) - 4) as ->.
  { rewrite Hesp. apply u32_small. unfold depth in *. lia. }
  constructor; cbn [c_regs c_segs c_eip c_cs c_ss c_eflags c_mem with_mem with_regs awith
    a_regs a_segs a_eip a_cs a_ss a_eflags a_stack]; try done; rewrite ?depth_cons.
  - by rewrite sm_regs0, set_set.
  - split.
    + rewrite load32_store32_same. by apply u32_small.
    + replace (depth (a_stack a) - 4 + 4) with (depth (a_stack a)) by lia. apply words_on_store; [lia | done].
  - lia.
Qed.

Lemma sim_set c a x v : sim c a -> x <> ESP -> is_u32 v -> sim (with_regs c (set (c_regs c) x v)) (aset a x v).
Proof.
  intros Hs Hx Hv. destruct Hs. constructor; try done.
  - cbn. rewrite sm_regs0. by apply set_comm.
  - cbn. by apply fits_set.
Qed.

Lemma sim_drop c a v ws : sim c a -> a_stack a = v :: ws -> sim (drop_bytes c 4) (awith a ws) /\ top c = v.
Proof.
  intros [] Hw. rewrite Hw in *. rewrite depth_cons in *.
  assert (esp (c_regs c) = depth ws - 4) as Hesp.
  { rewrite sm_regs0. by destruct (a_regs a). }
  destruct sm_stack0 as [Hv Hs]. split.
  - unfold drop_bytes. rewrite Hesp.
    assert (u32 (depth ws - 4 + 4) = depth ws) as -> by (rewrite u32_small; unfold depth in *; lia).
    constructor; try done; cbn.
    + by rewrite sm_regs0, set_set.
    + by replace (depth ws - 4 + 4) with (depth ws) in Hs by lia.
    + lia.
  - unfold top. by rewrite Hesp.
Qed.

Lemma sim_stack_word c a v ws : sim c a -> a_stack a = v :: ws -> is_u32 v.
Proof. intros Hs Hw. destruct (sim_drop c a v ws Hs Hw) as [_ <-]. apply load32_range. Qed.

Lemma sim_pop c a a' r : sim c a -> apop a r = Some a' -> sim (pop c r) a'.
Proof.
  intros Hs Hp. unfold apop in Hp. destruct (a_stack a) as [|v ws] eqn:Hw; [done |].
  pose proof (sim_stack_word _ _ _ _ Hs Hw) as Hv. destruct (sim_drop c a v ws Hs Hw) as [Hd Ht].
  unfold pop. rewrite Ht. destruct (decide (r = ESP)) as [-> | Hr].
  - destruct (Z.eqb_spec v (depth ws)) as [-> |]; [|done]. injection Hp as <-.
    pose proof Hd as []. cbn [awith a_stack a_regs] in *.
    replace (with_regs _ _) with (drop_bytes c 4); [done |].
    transitivity (with_regs (drop_bytes c 4) (c_regs (drop_bytes c 4))); [by destruct (drop_bytes c 4) |].
    f_equal. rewrite sm_regs0 at 2. rewrite set_set. done.
  - assert (a' = aset (awith a ws) r v) as -> by (destruct r; congruence). by apply sim_set.
Qed.

Lemma sim_adrop1 c a a' : sim c a -> adrop 1 a = Some a' -> sim (drop_bytes c 4) a'.
Proof.
  intros Hs Hp. cbn in Hp. destruct (a_stack a) as [|v ws] eqn:Hw; [done |]. injection Hp as <-.
  by destruct (sim_drop c a v ws Hs Hw).
Qed.

Lemma drop_drop c m n : drop_bytes (drop_bytes c m) n = drop_bytes c (m + n).
Proof.
  unfold drop_bytes, with_regs. cbn. rewrite set_set. destruct (c_regs c). cbn. do 2 f_equal.
  unfold u32. rewrite Zplus_mod_idemp_l. f_equal. lia.
Qed.

Lemma sim_pop_bind c a b r (k : astate -> option astate) :
  sim c a -> (a' ← apop a r; k a') = Some b -> exists a', sim (pop c r) a' /\ k a' = Some b.
Proof.
  intros Hs Hk. destruct (apop a r) as [a'|] eqn:E; [| done]. exists a'. split; [by eapply sim_pop | done].
Qed.

Lemma sim_flags c a f : sim c a -> sim (with_flags c f) (aflags a f).
Proof. intros []. by constructor. Qed.

Lemma sim_segs_set c a v :
  sim c a -> 0 <= v < 65536 ->
  sim (with_segs c (Segs v v v v))
    (AState (a_regs a) (Segs v v v v) (a_eip a) (a_cs a) (a_ss a) (a_eflags a) (a_stack a)).
Proof. intros [] Hv. by constructor. Qed.

(** An instruction does on the machine what it does on the list. *)
Lemma sim_exec i c a a' :
  sim c a -> aexec i a = Some a' -> 4 * pushes i <= depth (a_stack a) -> sim (exec i c) a'.
Proof.
  intros Hs He Hr. destruct i; cbn [exec aexec pushes] in *; try discriminate He.
  - injection He as <-. rewrite (sim_get _ _ _ Hs). apply sim_push; [done | by eapply sim_word | lia].
  - destruct (Z.leb_spec 0 n); [|done]. destruct (Z.ltb_spec n 128); [|done]. injection He as <-.
    apply sim_push; [done | unfold is_u32; lia | lia].
  - assert (a' = awith a (aget a EDI :: aget a ESI :: aget a EBP :: aget a ESP :: aget a EBX ::
      aget a EDX :: aget a ECX :: aget a EAX :: a_stack a)) as -> by congruence. clear He.
    assert (forall x, get (c_regs c) x = aget a x) as Hg by (intros x; by apply sim_get).
    pose proof (fun x => sim_word c a x Hs) as Hu.
    change (eax (c_regs c)) with (get (c_regs c) EAX). change (ecx (c_regs c)) with (get (c_regs c) ECX).
    change (edx (c_regs c)) with (get (c_regs c) EDX). change (ebx (c_regs c)) with (get (c_regs c) EBX).
    change (esp (c_regs c)) with (get (c_regs c) ESP). change (ebp (c_regs c)) with (get (c_regs c) EBP).
    change (esi (c_regs c)) with (get (c_regs c) ESI). change (edi (c_regs c)) with (get (c_regs c) EDI).
    rewrite !Hg. cbv zeta. set (r := aget a) in *. clearbody r.
    do 8 (match goal with |- sim (push ?c' ?v) (awith a (?v :: ?ws)) =>
      apply (sim_push c' (awith a ws) v); [| apply Hu | cbn [awith a_stack]; rewrite ?depth_cons; lia] end).
    by destruct a.
  - by eapply sim_pop.
  - apply (sim_pop_bind _ _ _ _ _ Hs) in He as (a1 & H1 & He).
    apply (sim_pop_bind _ _ _ _ _ H1) in He as (a2 & H2 & He).
    apply (sim_pop_bind _ _ _ _ _ H2) in He as (a3 & H3 & He).
    destruct (adrop 1 a3) as [a4|] eqn:E4; [| done]. cbn [mbind option_bind] in He.
    pose proof (sim_adrop1 _ _ _ H3 E4) as H4.
    apply (sim_pop_bind _ _ _ _ _ H4) in He as (a5 & H5 & He).
    apply (sim_pop_bind _ _ _ _ _ H5) in He as (a6 & H6 & He).
    apply (sim_pop_bind _ _ _ _ _ H6) in He as (a7 & H7 & He).
    by eapply sim_pop.
  - destruct (Z.eqb_spec n 4) as [-> |].
    + by eapply sim_adrop1.
    + destruct (Z.eqb_spec n 8) as [-> |]; [|done].
      replace 8 with (4 + 4) by lia. rewrite <- drop_drop.
      cbn in He. destruct (a_stack a) as [|v [|w ws]] eqn:Hw; try done. injection He as <-.
      destruct (sim_drop c a v (w :: ws) Hs Hw) as [H1 _].
      by destruct (sim_drop _ _ w ws H1 eq_refl) as [H2 _].
  - assert (r <> ESP) as Hn by (intros ->; done).
    assert ((if n =? 0 then Some (aset a r 0) else None) = Some a') as He' by (by destruct r).
    destruct (Z.eqb_spec n 0) as [-> |]; [|done]. injection He' as <-.
    apply sim_set; [done | done | unfold is_u32; lia].
  - assert (r <> ESP) as Hn by (intros ->; done).
    assert (Some (aset a r (low16 (get (a_regs a) r) n)) = Some a') as He' by (by destruct r).
    injection He' as <-. rewrite (sim_get _ _ _ Hs).
    assert (aget a r = get (a_regs a) r) as -> by (by destruct r).
    apply sim_set; [done | done |]. apply low16_range. by apply (sm_fits _ _ Hs).
  - assert (r <> ESP) as Hn by (intros ->; done).
    assert (Some (aset a r (low16 (get (a_regs a) r) (sg_ds (a_segs a)))) = Some a') as He' by (by destruct r).
    injection He' as <-. rewrite (sim_get _ _ _ Hs), (sm_segs _ _ Hs).
    assert (aget a r = get (a_regs a) r) as -> by (by destruct r).
    apply sim_set; [done | done |]. apply low16_range. by apply (sm_fits _ _ Hs).
  - injection He as <-. rewrite (sim_get _ _ _ Hs). apply sim_segs_set; [done | lia].
  - injection He as <-. rewrite (sm_eflags _ _ Hs). by apply sim_flags.
  - injection He as <-. rewrite (sm_eflags _ _ Hs). by apply sim_flags.
  - destruct (a_stack a) as [|v ws] eqn:Hw; [done |]. injection He as <-.
    destruct (sim_drop c a v ws Hs Hw) as [[] ->]. by constructor.
Qed.

Lemma aexec_depth i a a' : aexec i a = Some a' -> depth (a_stack a) - 4 * pushes i <= depth (a_stack a').
Proof.
  assert (forall a r a', apop a r = Some a' -> depth (a_stack a) <= depth (a_stack a')) as Hpop.
  { intros b r b' H. unfold apop in H. destruct (a_stack b) as [|v ws]; [done |].
    rewrite depth_cons. destruct r; try (injection H as <-; cbn; lia).
    destruct (v =? depth ws); [injection H as <-; cbn; lia | done]. }
  assert (forall n a a', adrop n a = Some a' -> depth (a_stack a) <= depth (a_stack a')) as Hdrop.
  { induction n as [|n IH]; intros b b' H; cbn in H; [injection H as <-; lia |].
    destruct (a_stack b) as [|v ws]; [done |]. apply IH in H. rewrite depth_cons. cbn in H. lia. }
  intros H. destruct i; cbn [aexec pushes] in *; try discriminate H.
  - injection H as <-. cbn [apush awith a_stack]. rewrite depth_cons. lia.
  - destruct (_ && _); [|done]. injection H as <-. cbn [apush awith a_stack]. rewrite depth_cons. lia.
  - injection H as <-. cbn [awith a_stack]. rewrite !depth_cons. lia.
  - apply Hpop in H. lia.
  - repeat match goal with
    | H : (_ ≫= _) = Some _ |- _ => apply bind_Some in H as (? & ? & H)
    | H : apop _ _ = Some _ |- _ => apply Hpop in H
    | H : adrop _ _ = Some _ |- _ => apply Hdrop in H
    end. lia.
  - destruct (n =? 4); [apply Hdrop in H; lia |]. destruct (n =? 8); [apply Hdrop in H; lia | done].
  - destruct r; try done; destruct (n =? 0); try done; injection H as <-; cbn; lia.
  - destruct r; try done; injection H as <-; cbn; lia.
  - destruct r; try done; injection H as <-; cbn; lia.
  - injection H as <-. cbn. lia.
  - injection H as <-. cbn. lia.
  - injection H as <-. cbn. lia.
  - destruct (a_stack a) as [|v ws]; [done |]. injection H as <-. cbn. rewrite depth_cons. lia.
Qed.

Lemma room_pos code : 0 <= room code.
Proof.
  induction code as [|i code IH]; [done |]. change (room (i :: code)) with (pushes i + room code).
  destruct i; cbn [pushes]; lia.
Qed.

(** A routine does on the machine what it does on the list. *)
Lemma sim_run code : forall c a a',
  sim c a -> arun code a = Some a' -> 4 * room code <= depth (a_stack a) -> sim (run code c) a'.
Proof.
  induction code as [|i code IH]; intros c a a' Hs Hr Hd; cbn in Hr; [by injection Hr as <- |].
  apply bind_Some in Hr as (b & He & Hr). cbn [room foldr] in Hd.
  change (foldr _ 0 code) with (room code) in Hd. pose proof (room_pos code) as Hp.
  change (run (i :: code) c) with (run code (exec i c)).
  pose proof (aexec_depth _ _ _ He). eapply IH; [| exact Hr | lia].
  eapply sim_exec; [done | exact He | lia].
Qed.
End stack.

(** ** Traps *)

Lemma run_app l l' c : run (l ++ l') c = run l' (run l c).
Proof. apply foldl_app. Qed.

(** Every register holds a word, ds a selector. *)
Record machine_ok (c : cpu) : Prop := {
  mo_regs : forall x, is_u32 (get (c_regs c) x);
  mo_eip : is_u32 (c_eip c);
  mo_cs : is_u32 (c_cs c);
  mo_ss : is_u32 (c_ss c);
  mo_eflags : is_u32 (c_eflags c);
  mo_ds : 0 <= sg_ds (c_segs c) < 65536
}.

Definition in_user (c : cpu) : bool := c_cs c mod 4 =? 3.
(** Where the kernel's stack is when a trap arrives. *)
Definition kernel_top (esp0 : Z) (c : cpu) : Z := if in_user c then esp0 else esp (c_regs c).
(** The words the processor pushes. *)
Definition trap_words (c : cpu) : list Z :=
  [c_eip c; c_cs c; c_eflags c] ++ (if in_user c then [esp (c_regs c); c_ss c] else []).

Lemma sim_start c T :
  machine_ok c -> esp (c_regs c) = T -> T < 4294967296 ->
  sim T c (AState (c_regs c) (c_segs c) (c_eip c) (c_cs c) (c_ss c) (c_eflags c) []).
Proof.
  intros [] He HT. constructor; cbn; try done.
  - unfold depth. cbn [length Z.of_nat]. rewrite Z.mul_0_r, Z.sub_0_r, <- He. by destruct (c_regs c).
  - intros x _. apply mo_regs0.
  - unfold depth. cbn. specialize (mo_regs0 ESP). unfold is_u32 in mo_regs0. cbn in mo_regs0. lia.
Qed.

Lemma sim_code T c a cs f :
  sim T c a ->
  sim T (Cpu (c_regs c) (c_segs c) (c_eip c) cs (c_ss c) f (c_mem c))
    (AState (a_regs a) (a_segs a) (a_eip a) cs (a_ss a) f (a_stack a)).
Proof. intros []. by constructor. Qed.

(** The state of the handler's code when a trap arrives. *)
Lemma trap_spec ss0 esp0 err c :
  machine_ok c -> is_u32 ss0 -> (forall e, err = Some e -> is_u32 e) ->
  let T := kernel_top esp0 c in
  32 <= T < 4294967296 ->
  sim T (trap ss0 esp0 err c)
    (AState (c_regs c) (c_segs c) (c_eip c) SELECTOR_K_CODE (if in_user c then ss0 else c_ss c)
       (clear_if (c_eflags c)) (from_option (fun e => [e]) [] err ++ trap_words c)).
Proof.
  intros Hok Hss He T HT.
  set (a0 := AState (c_regs c) (c_segs c) (c_eip c) (c_cs c) (if in_user c then ss0 else c_ss c) (c_eflags c) []).
  assert (forall c' ws, sim T c' (awith a0 ws) -> (length ws <= 2)%nat ->
    sim T (let c' := push (push (push c' (c_eflags c)) (c_cs c)) (c_eip c) in
           let c' := match err with Some e => push c' e | None => c' end in
           Cpu (c_regs c') (c_segs c') (c_eip c') SELECTOR_K_CODE (c_ss c') (clear_if (c_eflags c')) (c_mem c'))
      (AState (c_regs c) (c_segs c) (c_eip c) SELECTOR_K_CODE (if in_user c then ss0 else c_ss c)
       (clear_if (c_eflags c)) (from_option (fun e => [e]) [] err ++ [c_eip c; c_cs c; c_eflags c] ++ ws))) as Hpush.
  { intros c' ws Hs Hw. destruct Hok.
    assert (T - 8 <= depth T ws) by (unfold depth; lia).
    apply (sim_push T _ _ (c_eflags c)) in Hs; [| done | cbn; lia].
    apply (sim_push T _ _ (c_cs c)) in Hs; [| done | cbn [apush awith a_stack]; rewrite depth_cons; lia].
    apply (sim_push T _ _ (c_eip c)) in Hs; [| done | cbn [apush awith a_stack]; rewrite !depth_cons; lia].
    cbv zeta. destruct err as [e|].
    - apply (sim_push T _ _ e) in Hs; [| by apply He | cbn [apush awith a_stack]; rewrite !depth_cons; lia].
      pose proof (sm_eflags _ _ _ Hs) as Hf. cbn [apush awith a_eflags a0] in Hf.
      apply (sim_code _ _ _ SELECTOR_K_CODE (clear_if (c_eflags c))) in Hs. rewrite Hf. exact Hs.
    - pose proof (sm_eflags _ _ _ Hs) as Hf. cbn [apush awith a_eflags a0] in Hf.
      apply (sim_code _ _ _ SELECTOR_K_CODE (clear_if (c_eflags c))) in Hs. rewrite Hf. exact Hs. }
  unfold trap, trap_words, T, kernel_top, in_user in *. destruct (c_cs c mod 4 =? 3).
  - apply Hpush; [| done].
    assert (machine_ok (Cpu (set (c_regs c) ESP esp0) (c_segs c) (c_eip c) (c_cs c) ss0 (c_eflags c) (c_mem c))) as Hok'.
    { destruct Hok. constructor; try done. cbn. intros x. specialize (mo_regs0 x).
      destruct (c_regs c), x; cbn in *; try done. unfold is_u32. lia. }
    pose proof (sim_start _ esp0 Hok' ltac:(cbn; by destruct (c_regs c)) ltac:(lia)) as Hs.
    assert (sim esp0 (Cpu (set (c_regs c) ESP esp0) (c_segs c) (c_eip c) (c_cs c) ss0 (c_eflags c) (c_mem c))
      (awith a0 [])) as Hs0.
    { destruct Hs. constructor; try done; cbn in *.
      - by destruct (c_regs c).
      - intros x Hx. apply Hok. }
    apply (sim_push esp0 _ _ (c_ss c)) in Hs0; [| apply Hok | cbn; unfold depth; cbn; lia].
    apply (sim_push esp0 _ _ (esp (c_regs c))) in Hs0; [exact Hs0 | apply (mo_regs _ Hok ESP) |].
    cbn [apush awith a_stack]. rewrite depth_cons. unfold depth. cbn. lia.
  - apply (Hpush c []); [| cbn; lia]. apply sim_start; [done | done | lia].
Qed.

(** The end of a trap. *)
Lemma iret_spec T c a ip cs fl rest :
  sim T c a -> a_stack a = ip :: cs :: fl :: rest ->
  iret c = if cs mod 4 =? 3 then
    match rest with
    | sp :: ss :: _ => Cpu (set (a_regs a) ESP sp) (a_segs a) ip cs ss fl (c_mem c)
    | _ => iret c
    end
  else Cpu (set (a_regs a) ESP (depth T rest)) (a_segs a) ip cs (a_ss a) fl (c_mem c).
Proof.
  intros Hs Hw. unfold iret.
  destruct (sim_drop T c a _ _ Hs Hw) as [H1 ->].
  destruct (sim_drop T _ _ cs (fl :: rest) H1 eq_refl) as [H2 ->].
  destruct (sim_drop T _ _ fl rest H2 eq_refl) as [H3 ->].
  destruct (Z.eqb_spec (cs mod 4) 3).
  - destruct rest as [|sp [|ss rest]]; [done | done |].
    destruct (sim_drop T _ _ sp (ss :: rest) H3 eq_refl) as [H4 ->].
    destruct (sim_drop T _ _ ss rest H4 eq_refl) as [_ ->].
    rewrite (sm_regs _ _ _ H4), (sm_segs _ _ _ H4). cbn [awith a_regs a_segs]. by rewrite set_set.
  - rewrite (sm_regs _ _ _ H3), (sm_segs _ _ _ H3), (sm_ss _ _ _ H3). done.
Qed.

(** Whatever follows, the first three words are what control goes back to. *)
Lemma iret_control T c a ip cs fl rest :
  sim T c a -> a_stack a = ip :: cs :: fl :: rest ->
  c_eip (iret c) = ip /\ c_cs (iret c) = cs /\ c_eflags (iret c) = fl.
Proof.
  intros Hs Hw. unfold iret.
  destruct (sim_drop T c a _ _ Hs Hw) as [H1 ->].
  destruct (sim_drop T _ _ cs (fl :: rest) H1 eq_refl) as [H2 ->].
  destruct (sim_drop T _ _ fl rest H2 eq_refl) as [_ ->]. by destruct (cs mod 4 =? 3).
Qed.

(** ** What the C code keeps

    A C function called with its stack below [T] returns with the stack
    pointer it found and the words above it unchanged. *)
Record keeps (T : Z) (h : cpu -> cpu) : Prop := {
  kp_esp : forall c, esp (c_regs (h c)) = esp (c_regs c);
  kp_mem : forall c, same_on (c_mem c) (c_mem (h c)) (esp (c_regs c)) T;
  kp_ss : forall c, c_ss (h c) = c_ss c;
  kp_regs : forall c, (forall x, is_u32 (get (c_regs c) x)) -> forall x, is_u32 (get (c_regs (h c)) x);
  kp_ds : forall c, 0 <= sg_ds (c_segs c) < 65536 -> 0 <= sg_ds (c_segs (h c)) < 65536
}.

Lemma sim_call T h c a :
  keeps T h -> sim T c a ->
  sim T (h c) (AState (c_regs (h c)) (c_segs (h c)) (c_eip (h c)) (c_cs (h c)) (a_ss a)
    (c_eflags (h c)) (a_stack a)).
Proof.
  intros [] Hs. assert (forall x, is_u32 (get (c_regs c) x)) as Hu.
  { intros x. rewrite (sim_get _ _ _ _ Hs). by eapply sim_word. }
  destruct Hs. assert (esp (c_regs c) = depth T (a_stack a)) as He.
  { rewrite sm_regs0. by destruct (a_regs a). }
  constructor; cbn; try done.
  - rewrite <- He, <- kp_esp0. by destruct (c_regs (h c)).
  - by rewrite kp_ss0.
  - eapply words_on_same; [rewrite <- He; apply kp_mem0 | unfold depth; lia | done].
  - intros x _. by apply kp_regs0.
  - apply kp_ds0. by rewrite sm_segs0.
Qed.

(** What the processor and the stub leave below the interrupted program's words;
    the common stub then saves the registers. *)
Definition errcode_words (n err : Z) : list Z :=
  (if has_errcode n then [] else [0]) ++ (if cpu_errcode n then [err] else []).
Definition saved_words (T : Z) (c : cpu) (base : list Z) : list Z :=
  let r := c_regs c in
  [low16 (eax r) (sg_ds (c_segs c)); edi r; esi r; ebp r; depth T base;
   ebx r; edx r; ecx r; eax r] ++ base.

(** The words of an interrupt's frame, the lowest first: the fields of
    [isr_params_t], with 0 where the processor has no error code. *)
Definition frame_words (T n err : Z) (c : cpu) : list Z :=
  saved_words T c ([n; if cpu_errcode n then err else 0] ++ trap_words c).

Lemma depth_4 T v w x y z ws : depth T (v :: w :: x :: y :: z :: ws) = depth T (z :: ws) - 16.
Proof. rewrite !depth_cons. lia. Qed.

Lemma interrupt_frame_any ss0 esp0 n err c :
  machine_ok c -> is_u32 ss0 -> is_u32 err -> 0 <= n < 128 ->
  let T := kernel_top esp0 c in
  128 <= T < 4294967296 ->
  exists r sg, sim T (interrupt_frame ss0 esp0 n err c)
    (AState r sg (c_eip c) SELECTOR_K_CODE (if in_user c then ss0 else c_ss c)
       (clear_if (clear_if (c_eflags c)))
       (saved_words T c (n :: errcode_words n err ++ trap_words c))).
Proof.
  intros Hok Hss Herr Hn T HT. unfold interrupt_frame.
  pose proof (trap_spec ss0 esp0 (if cpu_errcode n then Some err else None) c Hok Hss) as Hs.
  cbv zeta in Hs. fold T in Hs. specialize (Hs ltac:(intros e; by destruct (cpu_errcode n); intros; simplify_eq) ltac:(lia)).
  replace (from_option (fun e => [e]) [] (if cpu_errcode n then Some err else None))
    with (if cpu_errcode n then [err] else []) in Hs by (by destruct (cpu_errcode n)).
  set (low := (if cpu_errcode n then [err] else []) ++ trap_words c) in *.
  assert (T - 24 <= depth T low) as Hd.
  { unfold depth, low, trap_words. destruct (cpu_errcode n), (in_user c); cbn; lia. }
  assert ((0 <=? n) && (n <? 128) = true) as Eb by lia.
  set (a1 := AState (c_regs c) (c_segs c) (c_eip c) SELECTOR_K_CODE (if in_user c then ss0 else c_ss c)
       (clear_if (clear_if (c_eflags c))) (n :: errcode_words n err ++ trap_words c)).
  assert (sim T (run (if has_errcode n then isr_stub_errcode n else isr_stub_noerrcode n)
    (trap ss0 esp0 (if cpu_errcode n then Some err else None) c)) a1 /\ T - 32 <= depth T (a_stack a1)) as [H1 Hd1].
  { unfold a1, errcode_words. rewrite <- app_assoc. fold low. cbn [a_stack]. rewrite depth_cons. clearbody T low.
    destruct (has_errcode n); cbn [app]; rewrite ?depth_cons; (split; [| lia]).
    - eapply sim_run; [exact Hs | unfold isr_stub_errcode; cbn [arun aexec]; rewrite Eb; reflexivity |].
      cbn [room foldr pushes isr_stub_errcode a_stack]. lia.
    - eapply sim_run; [exact Hs | unfold isr_stub_noerrcode; cbn [arun aexec]; rewrite Eb; reflexivity |].
      cbn [room foldr pushes isr_stub_noerrcode a_stack]. lia. }
  clearbody T. assert (4 * room isr_common_stub <= depth T (a_stack a1)) as Hr.
  { cbn [room foldr pushes isr_common_stub]. lia. }
  unfold a1, saved_words in *. destruct c as [[] ? ? ? ? ? ?]. cbn [c_regs c_segs] in *.
  eexists _, _. eapply sim_run; [exact H1 | reflexivity | exact Hr].
Qed.

(** The stubs' table is the processor's, but for the alignment check. *)
Lemma stub_table n : 0 <= n < 48 -> n <> 17 -> has_errcode n = cpu_errcode n.
Proof. intros _ Hn. unfold has_errcode, cpu_errcode. apply bool_decide_ext. lia. Qed.

Lemma errcode_words_agree n err :
  has_errcode n = cpu_errcode n -> errcode_words n err = [if cpu_errcode n then err else 0].
Proof. unfold errcode_words. intros ->. by destruct (cpu_errcode n). Qed.

Lemma exit_words T ra rc rd rb rsp rbp rsi rdi sg ip cs ss fl w di si bp sp bx dx cx ax x y ws :
  arun T [POP EAX; SET_SEGS EAX; POPA; ADD_ESP 8; STI]
    (AState (Regs ra rc rd rb rsp rbp rsi rdi) sg ip cs ss fl
       (w :: di :: si :: bp :: sp :: bx :: dx :: cx :: ax :: x :: y :: ws)) =
  Some (AState (Regs ax cx dx bx rsp bp si di)
    (Segs (w mod 65536) (w mod 65536) (w mod 65536) (w mod 65536)) ip cs ss (set_if fl) ws).
Proof. reflexivity. Qed.

(** The exit code on a frame that holds the registers of [c]: what is left is
    [iret] on the words above the vector and one more. *)
Lemma interrupt_exit_spec T c c2 sg ip cs ss fl n y ws :
  0 <= sg_ds (c_segs c) < 65536 ->
  sim T c2 (AState (c_regs c2) sg ip cs ss fl (saved_words T c (n :: y :: ws))) ->
  let c3 := run [POP EAX; SET_SEGS EAX; POPA; ADD_ESP 8; STI] c2 in
  c_mem c3 = c_mem c2 /\ run interrupt_exit c2 = iret c3 /\
  exists f3, sim T c3 (AState (set (c_regs c) ESP (esp (c_regs c2)))
    (let ds := sg_ds (c_segs c) in Segs ds ds ds ds) ip cs ss f3 ws).
Proof.
  intros Hds H2 c3. split; [reflexivity |]. split; [reflexivity |].
  eexists. eapply sim_run; [exact H2 | | cbn [room foldr pushes]; pose proof (sm_room _ _ _ H2); lia].
  unfold saved_words. cbn [app]. destruct (c_regs c2). rewrite exit_words, low16_mod by done.
  cbv zeta. destruct (c_regs c). reflexivity.
Qed.

(** C5: an exception or hardware interrupt, with vector below 48 but not 17, resumes
    the interrupted program as it was: its registers, stack pointer, program counter
    and flags; the handlers see the words of [isr_params_t], with the processor's
    error code in its place, and the data segment registers all hold ds.  Which
    vectors come with an error code is the processor's table [cpu_errcode], what the
    stubs expect is [has_errcode]; they differ for the alignment check, 17. *)
Theorem interrupt_transparent ss0 esp0 n err isr_handler schedule c :
  machine_ok c -> is_u32 ss0 -> is_u32 err -> 0 <= n < 48 -> n <> 17 ->
  let T := kernel_top esp0 c in
  128 <= T < 4294967296 -> keeps T isr_handler -> keeps T schedule ->
  let f := interrupt_frame ss0 esp0 n err c in
  let c' := interrupt ss0 esp0 n err isr_handler schedule c in
  words_on (c_mem f) (esp (c_regs f)) (frame_words T n err c) /\
  c_regs c' = c_regs c /\ c_eip c' = c_eip c /\ c_cs c' = c_cs c /\ c_ss c' = c_ss c /\
  c_eflags c' = c_eflags c /\
  (let ds := sg_ds (c_segs c) in c_segs c' = Segs ds ds ds ds) /\
  c_mem c' = c_mem (schedule (isr_handler f)).
Proof.
  intros Hok Hss Herr Hn Hn17 T HT Hk1 Hk2 f c'.
  destruct (interrupt_frame_any ss0 esp0 n err c Hok Hss Herr ltac:(lia) HT) as (r & sg & Hf). fold T f in Hf.
  rewrite (errcode_words_agree n err (stub_table n Hn Hn17)) in Hf.
  change (saved_words T c _) with (frame_words T n err c) in Hf. split.
  { pose proof (sm_stack _ _ _ Hf) as Hw. cbn [a_stack] in Hw.
    assert (esp (c_regs f) = depth T (frame_words T n err c)) as ->; [| exact Hw].
    rewrite (sm_regs _ _ _ Hf). by destruct r. }
  pose proof (sim_call _ _ _ _ Hk2 (sim_call _ _ _ _ Hk1 Hf)) as H2.
  cbn [a_stack a_ss] in H2. set (c2 := schedule (isr_handler f)) in *.
  destruct (interrupt_exit_spec T c c2 _ _ _ _ _ _ _ _ (mo_ds _ Hok) H2) as (Em & Ee & f3 & H3).
  unfold c', interrupt. fold f c2. rewrite Ee. set (c3 := run _ c2) in *.
  clearbody c3. clear Hf H2 Ee. unfold trap_words in H3. cbn [app] in H3.
  pose proof (iret_spec T c3 _ _ _ _ _ H3 eq_refl) as Ei. cbn [a_regs a_segs a_ss] in Ei.
  unfold in_user in Ei. unfold T, kernel_top, in_user in *.
  destruct (c_cs c mod 4 =? 3); rewrite Ei; cbn; rewrite set_set, Em.
  - do 6 (split; [first [done | by destruct (c_regs c)] |]). done.
  - do 6 (split; [first [done | (unfold depth; cbn; rewrite Z.sub_0_r; by destruct (c_regs c))] |]). done.
Qed.

(** The alignment check on a processor that pushes its error code: the stub pushes
    another word, the exit code removes only that one, and [iret] takes the error
    code for the program counter and the program counter for the code segment. *)
Theorem alignment_check_shifted ss0 esp0 err isr_handler schedule c :
  machine_ok c -> is_u32 ss0 -> is_u32 err ->
  let T := kernel_top esp0 c in
  128 <= T < 4294967296 -> keeps T isr_handler -> keeps T schedule ->
  let c' := interrupt ss0 esp0 17 err isr_handler schedule c in
  c_eip c' = err /\ c_cs c' = c_eip c /\ c_eflags c' = c_cs c.
Proof.
  intros Hok Hss Herr T HT Hk1 Hk2 c'.
  destruct (interrupt_frame_any ss0 esp0 17 err c Hok Hss Herr ltac:(lia) HT) as (r & sg & Hf).
  change (errcode_words 17 err) with [0; err] in Hf.
  pose proof (sim_call _ _ _ _ Hk2 (sim_call _ _ _ _ Hk1 Hf)) as H2. fold T in H2.
  cbn [a_stack a_ss app] in H2. unfold c', interrupt. set (c2 := schedule _) in *.
  destruct (interrupt_exit_spec T c c2 _ _ _ _ _ _ _ _ (mo_ds _ Hok) H2) as (_ & Ee & f3 & H3).
  rewrite Ee. unfold trap_words in H3. cbn [app] in H3.
  by apply (iret_control T _ _ _ _ _ _ H3 eq_refl).
Qed.

(** ** System calls *)

(** The frame of a system call: two dummy words in the place of the vector and
    the error code, and the registers that carry the number and the arguments. *)
Definition syscall_words (T : Z) (c : cpu) : list Z :=
  let r := c_regs c in
  let base := [0; 0] ++ trap_words c in
  [low16 (ecx r) (sg_ds (c_segs c)); edi r; esi r; ebp r;
   depth T ([ebx r; edx r; ecx r; eax r] ++ base); ebx r; edx r; ecx r; eax r] ++ base.

Lemma syscall_entry_spec ss0 esp0 c :
  machine_ok c -> is_u32 ss0 ->
  let T := kernel_top esp0 c in
  128 <= T < 4294967296 ->
  exists r sg, sim T (run syscall_entry (trap ss0 esp0 None c))
    (AState r sg (c_eip c) SELECTOR_K_CODE (if in_user c then ss0 else c_ss c)
       (set_if (clear_if (c_eflags c))) (syscall_words T c)).
Proof.
  intros Hok Hss T HT.
  assert (sim T (trap ss0 esp0 None c)
    (AState (c_regs c) (c_segs c) (c_eip c) SELECTOR_K_CODE (if in_user c then ss0 else c_ss c)
       (clear_if (c_eflags c)) (trap_words c))) as Hs by (apply trap_spec; [done | done | done | lia]).
  assert (4 * room syscall_entry <= depth T (trap_words c)) as Hr.
  { unfold depth, trap_words. cbn [room foldr pushes syscall_entry length app].
    destruct (in_user c); cbn; lia. }
  clearbody T. unfold syscall_words in *. destruct c as [[] ? ? ? ? ? ?]. cbn [c_regs c_segs] in *.
  eexists _, _. eapply sim_run; [exact Hs | cbn -[depth low16 Z.modulo]; reflexivity | exact Hr].
Qed.

Lemma syscall_exit_words T d r0 sg ip cs ss fl w di si bp bx dx cx ax x y ws :
  d = depth T (bx :: dx :: cx :: ax :: x :: y :: ws) ->
  arun T [POP ECX; SET_SEGS ECX; POP EDI; POP ESI; POP EBP; POP ESP; POP EBX; POP EDX; POP ECX; ADD_ESP 4; ADD_ESP 8]
    (AState r0 sg ip cs ss fl
       (w :: di :: si :: bp :: d :: bx :: dx :: cx :: ax :: x :: y :: ws)) =
  Some (AState (Regs (eax r0) cx dx bx (esp r0) bp si di)
    (Segs (w mod 65536) (w mod 65536) (w mod 65536) (w mod 65536)) ip cs ss fl ws).
Proof.
  intros Hd. destruct r0. cbn -[depth Z.modulo]. rewrite Hd.
  rewrite (Z.eqb_refl (depth T (bx :: dx :: cx :: ax :: x :: y :: ws))). done.
Qed.

(** A user program's system call returns to the instruction behind the trap with
    every register as it was but eax, which holds the result; the handler
    sees the call's number and arguments in the fields of [isr_params_t]. *)
Theorem syscall_transparent ss0 esp0 syscall_handler c :
  machine_ok c -> is_u32 ss0 -> in_user c = true -> 128 <= esp0 < 4294967296 ->
  keeps esp0 syscall_handler ->
  let f := run syscall_entry (trap ss0 esp0 None c) in
  let c' := syscall ss0 esp0 syscall_handler c in
  words_on (c_mem f) (esp (c_regs f)) (syscall_words esp0 c) /\
  c_regs c' = set (c_regs c) EAX (eax (c_regs (syscall_handler f))) /\
  c_eip c' = c_eip c /\ c_cs c' = c_cs c /\ c_ss c' = c_ss c /\ c_eflags c' = c_eflags c /\
  (let ds := sg_ds (c_segs c) in c_segs c' = Segs ds ds ds ds) /\
  c_mem c' = c_mem (syscall_handler f).
Proof.
  intros Hok Hss Hu HT Hk f c'.
  destruct (syscall_entry_spec ss0 esp0 c Hok Hss) as (r & sg & Hf); [unfold kernel_top; by rewrite Hu |].
  unfold kernel_top in Hf. rewrite Hu in Hf. fold f in Hf. split.
  { pose proof (sm_stack _ _ _ Hf) as Hw. cbn [a_stack] in Hw.
    assert (esp (c_regs f) = depth esp0 (syscall_words esp0 c)) as ->; [| exact Hw].
    rewrite (sm_regs _ _ _ Hf). by destruct r. }
  pose proof (sim_call _ _ _ _ Hk Hf) as H1. cbn [a_stack a_ss] in H1.
  set (c1 := syscall_handler f) in *. unfold c', syscall. fold f c1.
  change syscall_exit with ([POP ECX; SET_SEGS ECX; POP EDI; POP ESI; POP EBP; POP ESP; POP EBX; POP EDX;
    POP ECX; ADD_ESP 4; ADD_ESP 8] ++ [IRET]). rewrite run_app. set (c2 := run _ c1).
  assert (c_mem c2 = c_mem c1) as Em by reflexivity.
  pose proof (mo_ds _ Hok) as Hds.
  assert (sim esp0 c2 (AState (set (set (c_regs c) EAX (eax (c_regs c1))) ESP (esp (c_regs c1)))
    (let ds := sg_ds (c_segs c) in Segs ds ds ds ds) (c_eip c1) (c_cs c1) ss0 (c_eflags c1) (trap_words c))) as H2.
  { eapply sim_run; [exact H1 | | cbn [room foldr pushes]; pose proof (sm_room _ _ _ H1); lia].
    unfold syscall_words. cbn [app]. rewrite syscall_exit_words by done. rewrite low16_mod by done.
    cbv zeta. destruct (c_regs c). reflexivity. }
  clearbody c2. clear Hf H1. unfold trap_words in H2. cbn [app] in H2.
  change (run [IRET] c2) with (iret c2).
  pose proof (iret_spec esp0 c2 _ _ _ _ _ H2 eq_refl) as Ei. cbn [a_regs a_segs a_ss] in Ei.
  unfold in_user in *. rewrite Hu in Ei. rewrite Ei. cbn.
  do 6 (split; [first [done | by destruct (c_regs c)] |]). done.
Qed.

(** ** New threads *)

(** A machine whose stack holds [ws]. *)
Definition stack_is (c : cpu) (ws : list Z) : Prop :=
  words_on (c_mem c) (esp (c_regs c)) ws /\
  esp (c_regs c) + 4 * Z.of_nat (length ws) < 4294967296.

Lemma sim_stack_is c ws :
  machine_ok c -> stack_is c ws ->
  let T := esp (c_regs c) + 4 * Z.of_nat (length ws) in
  sim T c (AState (c_regs c) (c_segs c) (c_eip c) (c_cs c) (c_ss c) (c_eflags c) ws).
Proof.
  intros [] [Hw Hl] T. assert (depth T ws = esp (c_regs c)) as Hd by (unfold depth, T; lia).
  constructor; cbn; try done; rewrite ?Hd; try done.
  - by destruct (c_regs c).
  - intros x _. apply mo_regs0.
  - specialize (mo_regs0 ESP). unfold is_u32 in mo_regs0. cbn in mo_regs0. unfold T. lia.
Qed.

Lemma fork_exit_words T r0 sg ip cs ss fl w1 w2 w di si bp sp bx dx cx ax x y ws :
  arun T [ADD_ESP 8; POP ECX; SET_SEGS ECX; POP EDI; POP ESI; POP EBP; ADD_ESP 4; POP EBX; POP EDX; POP ECX;
   MOV EAX 0; ADD_ESP 4; ADD_ESP 8]
    (AState r0 sg ip cs ss fl
       (w1 :: w2 :: w :: di :: si :: bp :: sp :: bx :: dx :: cx :: ax :: x :: y :: ws)) =
  Some (AState (Regs 0 cx dx bx (esp r0) bp si di)
    (Segs (w mod 65536) (w mod 65536) (w mod 65536) (w mod 65536)) ip cs ss fl ws).
Proof. destruct r0. cbn -[depth Z.modulo]. done. Qed.

(** The child of a fork: with a copy of the frame of the parent's system call on
    any stack, [syscall_fork_exit] returns to the parent's next instruction with
    all of the parent's registers but eax, which is 0. *)
Lemma syscall_fork_exit_spec c u T T' r0 sg ip cs ss fl w1 w2 ws :
  in_user u = true -> 0 <= sg_ds (c_segs u) < 65536 ->
  sim T' c (AState r0 sg ip cs ss fl ([w1; w2] ++ syscall_words T u ++ ws)) ->
  let c' := run syscall_fork_exit c in
  c_regs c' = set (c_regs u) EAX 0 /\ c_eip c' = c_eip u /\ c_cs c' = c_cs u /\ c_ss c' = c_ss u /\
  c_eflags c' = c_eflags u /\ (let ds := sg_ds (c_segs u) in c_segs c' = Segs ds ds ds ds) /\
  c_mem c' = c_mem c.
Proof.
  intros Hu Hds Hs c'.
  unfold c'. change syscall_fork_exit with ([ADD_ESP 8; POP ECX; SET_SEGS ECX; POP EDI; POP ESI; POP EBP; ADD_ESP 4;
    POP EBX; POP EDX; POP ECX; MOV EAX 0; ADD_ESP 4; ADD_ESP 8] ++ [IRET]). rewrite run_app. set (c2 := run _ c).
  assert (c_mem c2 = c_mem c) as Em by reflexivity.
  assert (sim T' c2 (AState (set (set (c_regs u) EAX 0) ESP (esp r0))
    (let ds := sg_ds (c_segs u) in Segs ds ds ds ds) ip cs ss fl (trap_words u ++ ws))) as H2.
  { eapply sim_run; [exact Hs | | cbn [room foldr pushes]; pose proof (sm_room _ _ _ Hs); lia].
    unfold syscall_words. cbn [app]. rewrite fork_exit_words. rewrite low16_mod by done.
    cbv zeta. destruct (c_regs u). reflexivity. }
  clearbody c2. clear Hs. unfold trap_words in H2. rewrite Hu in H2. cbn [app] in H2.
  change (run [IRET] c2) with (iret c2).
  pose proof (iret_spec T' c2 _ _ _ _ _ H2 eq_refl) as Ei. cbn [a_regs a_segs a_ss] in Ei.
  unfold in_user in Hu. rewrite Hu in Ei. rewrite Ei. cbn.
  do 6 (split; [first [done | by destruct (c_regs u)] |]). done.
Qed.

Lemma resume_words T r0 sg ip cs ss fl di si bp bx dx cx ax entry ws :
  arun T resume_thread (AState r0 sg ip cs ss fl (di :: si :: bp :: bx :: dx :: cx :: ax :: entry :: ws)) =
  Some (AState (Regs ax cx dx bx (esp r0) bp si di) sg entry cs ss (set_if fl) ws).
Proof. destruct r0. cbn -[depth]. done. Qed.

(** The frame below which a new user thread starts: ds, the general registers,
    two words for the vector and the error code, and the user's environment. *)
Definition start_frame (ds eip cs eflags user_esp user_ss : Z) : list Z :=
  [ds; 0; 0; 0; 0; 0; 0; 0; 0; 0; 0; eip; cs; eflags; user_esp; user_ss].

(** The first run of a user thread: [resume_thread] returns to
    [switch_to_user_mode], which falls into the end of an interrupt. *)
Definition first_run (schedule : cpu -> cpu) (c : cpu) : cpu :=
  run interrupt_exit (schedule (run switch_to_user_mode (run resume_thread c))).

(** It enters user mode at the thread's function with interrupts enabled, the user
    stack of the frame and the other registers zero. *)
Theorem user_thread_starts schedule c sw1 sw2 entry ds eip cs eflags user_esp user_ss :
  machine_ok c -> 0 <= ds < 65536 -> cs mod 4 = 3 ->
  stack_is c ([0; 0; 0; 0; 0; 0; 0; entry; sw1; sw2] ++ start_frame ds eip cs eflags user_esp user_ss) ->
  keeps (esp (c_regs c) + 104) schedule ->
  let c' := first_run schedule c in
  c_regs c' = Regs 0 0 0 0 user_esp 0 0 0 /\ c_eip c' = eip /\ c_cs c' = cs /\ c_ss c' = user_ss /\
  c_eflags c' = eflags /\ c_segs c' = Segs ds ds ds ds.
Proof.
  intros Hok Hds Hcs Hst Hk c'. pose proof (sim_stack_is _ _ Hok Hst) as Hs. cbv zeta in Hs.
  cbn [length app start_frame] in Hs. change (4 * Z.of_nat 26) with 104 in Hs. set (T := esp (c_regs c) + 104) in *.
  assert (sim T (run resume_thread c) (AState (Regs 0 0 0 0 (esp (c_regs c)) 0 0 0) (c_segs c) entry
    (c_cs c) (c_ss c) (set_if (c_eflags c)) (sw1 :: sw2 :: start_frame ds eip cs eflags user_esp user_ss))) as H1.
  { eapply sim_run; [exact Hs | cbn [app]; apply resume_words |].
    cbn [room foldr pushes resume_thread]. pose proof (sm_room _ _ _ Hs). lia. }
  assert (sim T (run switch_to_user_mode (run resume_thread c)) (AState (Regs 0 0 0 0 (esp (c_regs c)) 0 0 0)
    (c_segs c) entry (c_cs c) (c_ss c) (set_if (c_eflags c)) (start_frame ds eip cs eflags user_esp user_ss))) as H2.
  { eapply sim_run; [exact H1 | reflexivity |]. cbn [room foldr pushes switch_to_user_mode].
    pose proof (sm_room _ _ _ H1). lia. }
  pose proof (sim_call _ _ _ _ Hk H2) as H3. cbn [a_stack a_ss] in H3.
  unfold c', first_run. set (c3 := schedule _) in *. clearbody c3.
  change interrupt_exit with ([POP EAX; SET_SEGS EAX; POPA; ADD_ESP 8; STI] ++ [IRET]). rewrite run_app.
  assert (exists f4, sim T (run [POP EAX; SET_SEGS EAX; POPA; ADD_ESP 8; STI] c3)
    (AState (Regs 0 0 0 0 (esp (c_regs c3)) 0 0 0) (Segs ds ds ds ds) (c_eip c3) (c_cs c3) (c_ss c) f4
      [eip; cs; eflags; user_esp; user_ss])) as [f4 H4].
  { eexists. eapply sim_run; [exact H3 | | cbn [room foldr pushes]; pose proof (sm_room _ _ _ H3); lia].
    unfold start_frame. destruct (c_regs c3). rewrite exit_words. rewrite Z.mod_small by done. reflexivity. }
  set (c4 := run _ c3) in *. clearbody c4. change (run [IRET] c4) with (iret c4).
  rewrite (iret_spec T c4 _ _ _ _ _ H4 eq_refl). rewrite Hcs. cbn [Z.eqb Pos.eqb].
  do 5 (split; [reflexivity |]). reflexivity.
Qed.

(** ** Switching threads *)

(** The thread whose control block is at [tcb] was switched out with registers
    [r] and return address [ret]: the block's first word points to the seven
    registers, below [ret]. *)
Record suspended (m : mem) (tcb : Z) (r : regs) (ret : Z) : Prop := {
  su_esp : load32 m tcb = esp r - 28;
  su_words : words_on m (esp r - 28) [edi r; esi r; ebp r; ebx r; edx r; ecx r; eax r; ret];
  su_range : 28 <= esp r /\ esp r + 4 < 4294967296
}.

Lemma save_words T r sg ip cs ss fl ws :
  arun T [PUSH EAX; PUSH ECX; PUSH EDX; PUSH EBX; PUSH EBP; PUSH ESI; PUSH EDI]
    (AState r sg ip cs ss fl ws) =
  Some (AState r sg ip cs ss fl (edi r :: esi r :: ebp r :: ebx r :: edx r :: ecx r :: eax r :: ws)).
Proof. destruct r. cbn -[depth]. done. Qed.

Lemma words_on_cons m p w ws : words_on m p (w :: ws) <-> load32 m p = w /\ words_on m (p + 4) ws.
Proof. done. Qed.

Lemma words_on_outside m p ws q v :
  q + 4 <= p \/ p + 4 * Z.of_nat (length ws) <= q ->
  words_on m p ws -> words_on (store32 m q v) p ws.
Proof.
  intros Hq Hw. eapply words_on_same; [| reflexivity | exact Hw].
  intros b Hb. apply load8_store32_ne. lia.
Qed.

(** Pushing registers writes only below the stack pointer. *)
Lemma pushes_out l : forall c b,
  4 * Z.of_nat (length l) <= esp (c_regs c) -> esp (c_regs c) < 4294967296 ->
  b < esp (c_regs c) - 4 * Z.of_nat (length l) \/ esp (c_regs c) <= b ->
  load8 (c_mem (run (PUSH <$> l) c)) b = load8 (c_mem c) b.
Proof.
  induction l as [|x l IH]; intros c b Hl Hh Hb; [done |]. cbn [length] in *.
  change (run (PUSH <$> (x :: l)) c) with (run (PUSH <$> l) (push c (get (c_regs c) x))).
  assert (esp (c_regs (push c (get (c_regs c) x))) = esp (c_regs c) - 4) as He.
  { unfold push. cbn. rewrite u32_small by lia. by destruct (c_regs c). }
  rewrite IH; rewrite ?He; [| lia | lia | lia]. unfold push. cbn [c_mem with_mem].
  rewrite u32_small by lia. apply load8_store32_ne. lia.
Qed.

Lemma save_pushes_spec c ws :
  machine_ok c -> stack_is c ws -> 28 <= esp (c_regs c) ->
  let r := c_regs c in
  let c1 := run (PUSH <$> [EAX; ECX; EDX; EBX; EBP; ESI; EDI]) c in
  esp (c_regs c1) = esp r - 28 /\
  words_on (c_mem c1) (esp r - 28) ([edi r; esi r; ebp r; ebx r; edx r; ecx r; eax r] ++ ws).
Proof.
  intros Hok Hst He r c1. pose proof (sim_stack_is _ _ Hok Hst) as Hs. cbv zeta in Hs.
  set (T := esp (c_regs c) + 4 * Z.of_nat (length ws)) in *.
  assert (depth T ws = esp (c_regs c)) as Hd by (unfold depth, T; lia).
  eapply sim_run in Hs; [| apply save_words | cbn [room foldr pushes a_stack]; rewrite Hd; lia].
  change (run _ c) with c1 in Hs. pose proof (sm_regs _ _ _ Hs) as Hr. pose proof (sm_stack _ _ _ Hs) as Hw.
  cbn [a_regs a_stack] in Hr, Hw. rewrite !depth_cons, Hd in Hr, Hw. clearbody c1.
  split; [rewrite Hr; unfold r; destruct (c_regs c); cbn; lia |].
  replace (esp r - 28) with (esp (c_regs c) - 4 - 4 - 4 - 4 - 4 - 4 - 4) by (unfold r; lia). exact Hw.
Qed.

Lemma store_esp_spec c crt :
  load32 (c_mem c) (u32 (esp (c_regs c) + 32)) = crt ->
  let c' := run [LOAD EAX ESP 32; STORE EAX ESP] c in
  esp (c_regs c') = esp (c_regs c) /\ c_mem c' = store32 (c_mem c) crt (esp (c_regs c)).
Proof.
  intros Hl c'. unfold c', run. cbn [foldl exec get]. rewrite Hl. unfold with_mem, with_regs.
  cbn [c_regs c_mem]. by destruct (c_regs c).
Qed.

(** [context_switch(crt, next)] up to the switch of stacks. *)
Lemma save_context_spec c ret crt next :
  machine_ok c -> stack_is c [ret; crt; next] -> 28 <= esp (c_regs c) -> 0 <= crt < 4294967292 ->
  crt + 4 <= esp (c_regs c) - 28 \/ esp (c_regs c) + 12 <= crt ->
  let c' := run save_context c in
  suspended (c_mem c') crt (c_regs c) ret /\
  esp (c_regs c') = esp (c_regs c) - 28 /\ load32 (c_mem c') (esp (c_regs c') + 36) = next /\
  (forall b, b < esp (c_regs c) - 28 \/ esp (c_regs c) <= b -> b < crt \/ crt + 4 <= b ->
     load8 (c_mem c') b = load8 (c_mem c) b).
Proof.
  intros Hok Hst He Hcrt Hap. destruct (save_pushes_spec c _ Hok Hst He) as [He1 Hw].
  pose proof (proj2 Hst) as Hlt. cbn [length] in Hlt. clear Hst.
  pose proof (pushes_out [EAX; ECX; EDX; EBX; EBP; ESI; EDI] c) as Hout.
  cbn [length] in Hout. cbv zeta.
  change save_context with ((PUSH <$> [EAX; ECX; EDX; EBX; EBP; ESI; EDI]) ++ [LOAD EAX ESP 32; STORE EAX ESP]).
  rewrite run_app. set (c1 := run (PUSH <$> _) c) in *. clearbody c1. set (r := c_regs c) in *.
  cbn [app] in Hw. destruct Hw as (W1 & W2 & W3 & W4 & W5 & W6 & W7 & W8 & W9 & W10 & _).
  destruct (store_esp_spec c1 crt) as [He2 Hm2].
  { rewrite He1, <- W9. f_equal. rewrite u32_small; lia. }
  set (c2 := run _ c1) in *. clearbody c2. rewrite He2, Hm2, He1. split; [| split; [done | split]].
  - split; [| | lia].
    + rewrite load32_store32_same. apply u32_small. lia.
    + apply words_on_outside; [cbn; lia |]. cbn. do 8 (split; [assumption |]). done.
  - rewrite load32_store32_ne by lia. rewrite <- W10. f_equal. lia.
  - intros b Hb Hb'. rewrite load8_store32_ne by lia. apply Hout; lia.
Qed.

Lemma push_ok c v : machine_ok c -> machine_ok (push c v).
Proof.
  intros []. constructor; try done. intros x. unfold push. cbn.
  specialize (mo_regs0 x). pose proof (u32_range (esp (c_regs c) - 4)).
  destruct (c_regs c), x; cbn in *; done.
Qed.

Lemma set_ok c x v : machine_ok c -> is_u32 v -> machine_ok (with_regs c (set (c_regs c) x v)).
Proof.
  intros [] Hv. constructor; try done. intros y. cbn. specialize (mo_regs0 y).
  by destruct (c_regs c), x, y.
Qed.

Lemma mem_ok c m : machine_ok c -> machine_ok (with_mem c m).
Proof. intros []. by constructor. Qed.

Lemma save_context_ok c : machine_ok c -> machine_ok (run save_context c).
Proof.
  intros Hok. unfold save_context, run. cbn [foldl exec].
  apply mem_ok, set_ok; [| apply load32_range]. by do 7 apply push_ok.
Qed.

Lemma load_context_spec c next r ret :
  load32 (c_mem c) (u32 (esp (c_regs c) + 36)) = next -> suspended (c_mem c) next r ret ->
  (forall x, is_u32 (get r x)) -> is_u32 next -> machine_ok c ->
  let c' := run resume_thread (run load_context c) in
  c_regs c' = set r ESP (esp r + 4) /\ c_eip c' = ret /\ c_mem c' = c_mem c /\ c_segs c' = c_segs c /\
  c_cs c' = c_cs c /\ c_ss c' = c_ss c /\ c_eflags c' = set_if (c_eflags c).
Proof.
  intros Hn [Hsp Hw Hr] Hfit Hu Hok c'.
  set (c1 := run load_context c) in *.
  assert (c1 = with_regs c (set (set (c_regs c) EAX next) ESP (esp r - 28))) as Hc1.
  { unfold c1, run, load_context. cbn [foldl exec get]. rewrite Hn. unfold with_regs.
    cbn [c_regs c_segs c_eip c_cs c_ss c_eflags c_mem]. do 2 f_equal. rewrite <- Hsp. f_equal.
    assert (eax (set (c_regs c) EAX next) = next) as -> by (by destruct (c_regs c)).
    rewrite Z.add_0_r. by apply u32_small. }
  assert (machine_ok c1) as Hok1.
  { rewrite Hc1. destruct Hok. constructor; try done. cbn. intros x. specialize (mo_regs0 x).
    unfold is_u32 in *. destruct (c_regs c), x; cbn in *; lia. }
  assert (esp (c_regs c1) = esp r - 28) as He by (rewrite Hc1; by destruct (c_regs c)).
  assert (stack_is c1 [edi r; esi r; ebp r; ebx r; edx r; ecx r; eax r; ret]) as Hst.
  { split; rewrite He; [by rewrite Hc1 | cbn; lia]. }
  pose proof (sim_stack_is _ _ Hok1 Hst) as Hs. cbv zeta in Hs. cbn [length] in Hs.
  rewrite He in Hs. replace (esp r - 28 + 4 * Z.of_nat 8) with (esp r + 4) in Hs by lia.
  eapply sim_run in Hs; [| apply resume_words | cbn [room foldr pushes resume_thread a_stack]; unfold depth; cbn; lia].
  assert (c_mem c' = c_mem c) as Em by (unfold c'; rewrite Hc1; reflexivity).
  destruct Hs as [H1 H2 H3 H4 H5 H6 _ _ _ _]. fold c' in H1, H2, H3, H4, H5, H6.
  cbn [a_regs a_segs a_eip a_cs a_ss a_eflags a_stack] in *.
  rewrite H1, H2, H3, H4, H5, H6, Em, Hc1. unfold depth. cbn.
  split; [destruct r; cbn; f_equal; lia |]. done.
Qed.

(** The second half writes no memory. *)
Lemma load_mem c : c_mem (run resume_thread (run load_context c)) = c_mem c.
Proof.
  reflexivity.
Qed.

(** C22: [context_switch(crt, next)] leaves the calling thread suspended, with
    the registers and the return address of the call; and when [next] was
    suspended, execution goes on behind its own call with its own registers
    and interrupts enabled. *)
Theorem context_switch_correct c ret crt next :
  machine_ok c -> stack_is c [ret; crt; next] -> 28 <= esp (c_regs c) ->
  0 <= crt < 4294967292 -> 0 <= next < 4294967292 ->
  crt + 4 <= esp (c_regs c) - 28 \/ esp (c_regs c) + 12 <= crt ->
  let c' := run context_switch c in
  suspended (c_mem c') crt (c_regs c) ret /\
  (forall r ret', suspended (c_mem c) next r ret' -> (forall x, is_u32 (get r x)) ->
    (forall b, next <= b < next + 4 \/ esp r - 28 <= b < esp r + 4 ->
       (b < esp (c_regs c) - 28 \/ esp (c_regs c) <= b) /\ (b < crt \/ crt + 4 <= b)) ->
    c_regs c' = set r ESP (esp r + 4) /\ c_eip c' = ret' /\ c_segs c' = c_segs (run save_context c) /\
    exists f, c_eflags c' = set_if f).
Proof.
  intros Hok Hst He Hcrt Hnext Hap c'.
  destruct (save_context_spec c ret crt next Hok Hst He Hcrt Hap) as (Hs & He1 & Hn & Hout).
  unfold c', context_switch. rewrite run_app, run_app. set (c1 := run save_context c) in *.
  rewrite load_mem.
  split; [exact Hs |]. intros r ret' [Hsp Hw Hr] Hu Hb.
  assert (suspended (c_mem c1) next r ret') as Hs1.
  { split; [| | done].
    - rewrite <- Hsp. unfold load32. rewrite !Hout by (apply Hb; lia). done.
    - eapply words_on_same; [| | exact Hw]; [| reflexivity].
      intros b Hbb. cbn [length] in Hbb. apply Hout; apply Hb; lia. }
  assert (machine_ok c1) as Hok1.
  { by apply save_context_ok. }
  assert (load32 (c_mem c1) (u32 (esp (c_regs c1) + 36)) = next) as Hn'.
  { rewrite <- Hn. f_equal. apply u32_small. destruct Hst as [_ Hl]. cbn in Hl. lia. }
  destruct (load_context_spec c1 next r ret' Hn' Hs1 Hu) as (E1 & E2 & _ & E4 & _ & _ & E7);
    [unfold is_u32; lia | done |].
  split; [exact E1 |]. split; [exact E2 |]. split; [exact E4 |]. by eexists.
Qed.

(** ** Witnesses *)

(** A user program with its registers numbered, and its kernel stack at
    0xC0009000. *)
Definition demo_user : cpu :=
  Cpu (Regs 1 2 3 4 0xBFBFFF00 6 7 8) (Segs 0x2B 0x2B 0x2B 0x2B) 0x8048000 SELECTOR_U_CODE
    SELECTOR_U_DATA 0x202 ∅.

Lemma demo_user_ok : machine_ok demo_user.
Proof. constructor; [intros [] | ..]; vm_compute; split; congruence. Qed.

Lemma keeps_id T : keeps T (fun c => c).
Proof. by constructor. Qed.

Lemma keeps_result T v : is_u32 v -> keeps T (fun c => with_regs c (set (c_regs c) EAX v)).
Proof.
  intros Hv. constructor; try done.
  - intros c. by destruct c as [[] ? ? ? ? ? ?].
  - intros c Hc x. specialize (Hc x). by destruct c as [[] ? ? ? ? ? ?], x.
Qed.

(** A timer interrupt in the user program. *)
Lemma interrupt_transparent_witness :
  let c' := interrupt SELECTOR_K_DATA 0xC0009000 32 0 (fun c => c) (fun c => c) demo_user in
  c_regs c' = c_regs demo_user /\ c_eip c' = 0x8048000 /\ c_eflags c' = 0x202.
Proof.
  destruct (interrupt_transparent SELECTOR_K_DATA 0xC0009000 32 0 (fun c => c) (fun c => c) demo_user)
    as (_ & H1 & H2 & _ & _ & H3 & _).
  - exact demo_user_ok.
  - vm_compute. split; congruence.
  - unfold is_u32. lia.
  - lia.
  - lia.
  - vm_compute. split; congruence.
  - apply keeps_id.
  - apply keeps_id.
  - exact (conj H1 (conj H2 H3)).
Defined.

(** A system call that returns 42. *)
Lemma syscall_transparent_witness :
  let c' := syscall SELECTOR_K_DATA 0xC0009000 (fun c => with_regs c (set (c_regs c) EAX 42)) demo_user in
  c_regs c' = Regs 42 2 3 4 0xBFBFFF00 6 7 8 /\ c_eip c' = 0x8048000.
Proof.
  destruct (syscall_transparent SELECTOR_K_DATA 0xC0009000
    (fun c => with_regs c (set (c_regs c) EAX 42)) demo_user) as (_ & H1 & H2 & _).
  - exact demo_user_ok.
  - vm_compute. split; congruence.
  - reflexivity.
  - lia.
  - apply keeps_result. unfold is_u32. lia.
  - split; [| exact H2]. rewrite H1.
    destruct (c_regs (run syscall_entry (trap SELECTOR_K_DATA 3221262336 None demo_user))). reflexivity.
Defined.

Fixpoint put_words (m : mem) (p : Z) (ws : list Z) : mem :=
  match ws with [] => m | w :: ws => put_words (store32 m p w) (p + 4) ws end.

Definition demo_kernel (sp : Z) (m : mem) : cpu :=
  Cpu (Regs 11 12 13 14 sp 16 17 18) (Segs 0x10 0x10 0x10 0x10) 0xC0100000 SELECTOR_K_CODE SELECTOR_K_DATA 0x2 m.

Lemma demo_kernel_ok sp m : is_u32 sp -> machine_ok (demo_kernel sp m).
Proof.
  intros Hs. constructor; [intros []; try exact Hs | ..]; vm_compute; split; congruence.
Qed.

(** A switch from the thread at 0xC0200000 to one suspended on another stack. *)
Definition demo_next : regs := Regs 21 22 23 24 0xC0400000 26 27 28.
Definition switch_mem : mem :=
  put_words (put_words (store32 ∅ 0xC0201000 (0xC0400000 - 28)) (0xC0400000 - 28)
      [28; 27; 26; 24; 23; 22; 21; 0xC0100ABC])
    0xC0300000 [0xC0100123; 0xC0200000; 0xC0201000].

Lemma context_switch_correct_witness :
  let c' := run context_switch (demo_kernel 0xC0300000 switch_mem) in
  suspended (c_mem c') 0xC0200000 (Regs 11 12 13 14 0xC0300000 16 17 18) 0xC0100123 /\
  c_eip c' = 0xC0100ABC /\ c_regs c' = set demo_next ESP 0xC0400004.
Proof.
  destruct (context_switch_correct (demo_kernel 0xC0300000 switch_mem) 0xC0100123 0xC0200000 0xC0201000)
    as [H1 H2].
  - apply demo_kernel_ok. unfold is_u32. lia.
  - split; [vm_compute; tauto | vm_compute; reflexivity].
  - cbn. lia.
  - lia.
  - lia.
  - cbn. lia.
  - destruct (H2 demo_next 0xC0100ABC) as (E1 & E2 & _).
    + split; [vm_compute; reflexivity | vm_compute; tauto | cbn; lia].
    + intros []; unfold is_u32; cbn; lia.
    + intros b Hb. cbn in *. lia.
    + split; [exact H1 |]. split; [exact E2 | exact E1].
Defined.
