(* ===== verification/ThreadRun.v ===== *)
(** * Threads on the processor

    The frames that task/thread.c writes meet the assembly that pops them: a new
    user thread enters its program with the arguments on its stack, a forked one
    goes on behind its parent's system call. *)

From S2P Require Import Prelude.
From S2P Require Import Memory.
From S2P Require Import Allocator.
From S2P Require Import LinkedList.
From S2P Require Import Bitmap.
From S2P Require Import IdPool.
From S2P Require Import KHeap.
From S2P Require Import KMalloc.
From S2P Require Import CStdlib.
From S2P Require Import Scheduler.
From S2P Require Import Paging.
From S2P Require Import AddressSpace.
From S2P Require Import Gdt.
From S2P Require Import VMem.
From S2P Require Import HeapSpace.
From S2P Require Import StrArray.
From S2P Require Import Thread.
From S2P Require Import ThreadSpec.
From S2P Require Import ThreadStack.
From S2P Require Import Cpu.

(** ** Words of the space on the processor's stack *)

(** The processor sees the contents [f] of the [n] bytes at [p]. *)
Definition sees (c : cpu) (f : Z -> Z) (p n : Z) : Prop :=
  forall b, p <= b < p + n -> load8 (c_mem c) b = f b.

Lemma words_on_at c f n ws : forall p q,
  sees c f p n -> p <= q -> q + 4 * len ws <= p + n -> words_at f q ws -> words_on (c_mem c) q ws.
Proof.
  induction ws as [|w ws IH]; intros p q Hs Hq Hn Hw; [done |]. cbn [length words_on] in *. split.
  - rewrite <- (Hw 0%nat w eq_refl), Z.add_0_r. unfold load32, word32. rewrite !Hs by lia. done.
  - apply (IH p); [done | lia | lia |]. intros i v Hi. rewrite <- (Hw (S i) v Hi). f_equal. lia.
Qed.

(** A processor about to resume a thread with the stack [stack], whose switch frame
    is at its top. *)
Record resumes (c : cpu) (f : Z -> Z) (stack : Z) : Prop := {
  rs_ok : machine_ok c;
  rs_esp : esp (c_regs c) = first_esp stack;
  rs_sees : sees c f stack KERNEL_STACK_SIZE
}.

Lemma resumes_stack c f stack ws :
  resumes c f stack -> 0 <= stack -> stack + KERNEL_STACK_SIZE < 4294967296 -> len ws <= 26 ->
  words_at f (first_esp stack) ws -> stack_is c ws.
Proof.
  intros [Hok He Hs] Hlo Hhi Hl Hw.
  unfold first_esp, KERNEL_STACK_SIZE, INTERRUPT_STACK_SIZE, SWITCH_STACK_SIZE in *. split; rewrite He; [|lia].
  by apply (words_on_at c f 8192 ws stack); [| lia | lia |].
Qed.

Section run.
Context {M : Type} `{HeapSpace M}.
Context (junk fallthrough no_id : Z) (code : entry_points) (fuel : nat).
Hypothesis Hcode : is_u32 (at_kernel_thread code) /\ is_u32 (at_switch_to_user_mode code).

(** The argument vector is in memory that the new thread's blocks are not in. *)
Definition args_safe (L : gmap Z Z) (f : Z -> Z) (argv : Z) (ss : list (list Z)) : Prop :=
  safe L argv (4 * len ss) /\
  forall i s, ss !! i = Some s -> safe L (word32 f (argv + 4 * Z.of_nat i)) (len s + 1).

Lemma args_safe_at L f g lo argv ss :
  (forall p n, safe L p n -> forall b, p <= b < p + n -> g b = f b) ->
  args_safe L f argv ss -> args_at fuel f lo argv ss -> args_at fuel g lo argv ss.
Proof.
  intros Hfg [Ha Hs] []. constructor; [done |]. intros i s Hi. pose proof (lookup_lt_Some _ _ _ Hi).
  assert (word32 g (argv + 4 * Z.of_nat i) = word32 f (argv + 4 * Z.of_nat i)) as ->.
  { apply word32_slice, slice_ext. intros b Hb. apply (Hfg argv (4 * len ss)); [done | lia]. }
  destruct (aa_string i s Hi) as (Hat & ?). cbv zeta in *. split; [|done].
  eapply string_at_ext; [|exact Hat]. intros b Hb.
  apply (Hfg (word32 f (argv + 4 * Z.of_nat i)) (len s + 1)); [by apply Hs | lia].
Qed.

(** The frames of a thread after its user stack is known. *)
Lemma first_words_user f f' stack function top :
  words_at f (first_esp stack) (first_words code function true) ->
  word32 f' (first_esp stack + 96) = top ->
  (forall b, first_esp stack <= b < first_esp stack + 104 ->
     b < first_esp stack + 96 \/ first_esp stack + 100 <= b -> f' b = f b) ->
  words_at f' (first_esp stack)
    ([0; 0; 0; 0; 0; 0; 0; at_switch_to_user_mode code; 0; function] ++ user_frame function top).
Proof.
  intros Hw Htop Hf i w Hi. destruct (decide (i = 24%nat)) as [->|Hne].
  - injection Hi as <-. exact Htop.
  - pose proof (lookup_lt_Some _ _ _ Hi) as Hl. cbn in Hl. rewrite <- (Hw i w).
    + apply word32_slice, slice_ext. intros b Hb. apply Hf; lia.
    + rewrite <- Hi. unfold first_words, user_frame. cbn [app].
      do 26 (destruct i as [|i]; [done |]). done.
Qed.

Lemma user_thread_runs f stack function top schedule c :
  words_at f (first_esp stack)
    ([0; 0; 0; 0; 0; 0; 0; at_switch_to_user_mode code; 0; function] ++ user_frame function top) ->
  resumes c f stack -> 0 <= stack -> stack + KERNEL_STACK_SIZE < 4294967296 ->
  keeps (stack + KERNEL_STACK_SIZE) schedule ->
  let c' := first_run schedule c in
  c_regs c' = Regs 0 0 0 0 top 0 0 0 /\ c_eip c' = function /\ c_cs c' = SELECTOR_U_CODE /\
  c_ss c' = SELECTOR_U_DATA /\ c_eflags c' = 514 /\
  c_segs c' = Segs SELECTOR_U_DATA SELECTOR_U_DATA SELECTOR_U_DATA SELECTOR_U_DATA.
Proof.
  intros Hw Hr Hlo Hhi Hk. pose proof Hr as [Hok He _].
  apply (user_thread_starts schedule c 0 function (at_switch_to_user_mode code) SELECTOR_U_DATA function
    SELECTOR_U_CODE 514 top SELECTOR_U_DATA Hok).
  - vm_compute. split; congruence.
  - reflexivity.
  - by apply (resumes_stack c f stack).
  - rewrite He. unfold first_esp, INTERRUPT_STACK_SIZE, SWITCH_STACK_SIZE.
    by replace (stack + KERNEL_STACK_SIZE - (64 + 40) + 104) with (stack + KERNEL_STACK_SIZE) by lia.
Qed.

(** C7: a user thread that [init_thread] and [prepare_user_stack] made enters its
    program: when the switch resumes it, the processor goes to user mode at the
    thread's function with interrupts enabled, its stack pointer at a stack that
    holds the return address and the arguments, and the other registers zero.
    [prepare_user_stack] compares the characters of an argument with an
    uninitialised local variable; the values it holds, [fun _ => 0] in the statement,
    are taken to be 0, and for other values the theorem says nothing. *)
Theorem user_thread_enters L s f ws free_id name nm function priority stack_top argv ss return_addr :
  lholds L (th_space s) f -> pool_wf (M := M) L (th_words s) (th_ids s) ws ->
  Z.of_nat (size L) + 1 < capacity -> KERNEL_STACK_SIZE < request_limit -> fallthrough <> 0 ->
  0 <= free_id < ip_max_size (th_ids s) -> taken ws free_id = false ->
  name_given L f name nm -> is_u32 function ->
  args_at fuel f stack_top argv ss -> args_safe (delete (bm_array (ip_id_map (th_ids s))) L) f argv ss ->
  stack_need ss <= stack_top <= KERNEL_BASE -> usable (stack_top - stack_need ss) (stack_need ss) ->
  is_u32 return_addr ->
  may (init_thread junk fallthrough no_id code s 0 name function priority true) (fun '(s1, thread) =>
    may (prepare_user_stack fuel (fun _ => 0) s1 thread stack_top (len ss) argv return_addr) (fun '(s2, top) =>
      exists f' stack id, (forall b, bs_user b -> bs_view (th_space s2) b = f' b) /\
        s_tcbs (th_sched s2) !! thread = Some (ready_tcb stack id priority) /\
        stack_top - stack_need ss <= top /\ user_stack f' top stack_top thread return_addr ss /\
        forall schedule c, resumes c f' stack -> keeps (stack + KERNEL_STACK_SIZE) schedule ->
          let c' := first_run schedule c in
          c_regs c' = Regs 0 0 0 0 top 0 0 0 /\ c_eip c' = function /\ c_cs c' = SELECTOR_U_CODE /\
          c_ss c' = SELECTOR_U_DATA /\ c_eflags c' = 514 /\
          c_segs c' = Segs SELECTOR_U_DATA SELECTOR_U_DATA SELECTOR_U_DATA SELECTOR_U_DATA)).
Proof.
  intros Hm Hp Hc Hreq Hft Hid Hfree Hnm Hfn Hargs Hasafe Htop Hus Hret.
  eapply may_mono; [by apply (init_thread_spec code Hcode junk fallthrough no_id L s f ws free_id name nm) |].
  intros [s1 thread] (stack & id & L1 & f1 & [] & Hw).
  destruct nt_tcb as (kt & HLt & Hkt). destruct nt_stack as [(k & HLs & Hk) _].
  destruct (block_range _ L1 stack k (lholds_alive _ _ _ nt_space) HLs) as (_ & Hs0 & Hs1).
  destruct (block_range _ L1 thread kt (lholds_alive _ _ _ nt_space) HLt) as (_ & Ht0 & Ht1).
  pose proof (block_usable L1 _ f1 stack KERNEL_STACK_SIZE k nt_space HLs Hk) as Huk.
  unfold TCB_SIZE, KERNEL_BASE in *.
  assert (stack <= first_esp stack /\ first_esp stack + 104 = stack + KERNEL_STACK_SIZE) as Hfe
    by (unfold first_esp, INTERRUPT_STACK_SIZE, SWITCH_STACK_SIZE, KERNEL_STACK_SIZE; lia).
  eapply may_mono; [apply (prepare_user_stack_spec fuel L1 s1 f1 thread stack_top argv ss return_addr
    (ready_tcb stack id priority)); try done |].
  - by apply (args_safe_at (delete (bm_array (ip_id_map (th_ids s))) L) f f1).
  - rewrite nt_sched. apply lookup_insert_eq.
  - cbn [ready_tcb t_kernel_esp]. eapply usable_sub; [exact Huk | lia | lia].
  - cbn [ready_tcb t_kernel_esp]. lia.
  - unfold is_u32. unfold stack_need in *. lia.
  - apply Htop.
  - unfold is_u32, TCB_NAME. lia.
  - intros [s2 top] (f2 & Es2 & Hm2 & Htop2 & Hst & Hesp & Hf2). cbn [ready_tcb t_kernel_esp] in *.
    exists f2, stack, id. split; [apply Hm2 |]. split.
    { rewrite Es2. cbn [set_space th_sched]. rewrite nt_sched. apply lookup_insert_eq. }
    split; [done |]. split; [done |]. intros schedule c Hres Hkeep.
    apply (user_thread_runs f2 stack function top schedule c); try done; [| lia | lia].
    apply (first_words_user f1); [done | done |]. intros b Hb Hb'. apply Hf2; lia.
Qed.

(** The frame of a system call at the top of the kernel stack [stack] of [u]. *)
Definition in_syscall (f : Z -> Z) (stack : Z) (u : cpu) : Prop :=
  words_at f (first_esp stack + 40) (syscall_words (stack + KERNEL_STACK_SIZE) u).

(** A forked stack: seven registers, the way out of the system call, and its frame. *)
Lemma forked_words f f' from stack u :
  forked_stack code f f' from stack -> in_syscall f from u -> in_user u = true ->
  exists di si bp bx dx cx ax w1 w2, words_at f' (first_esp stack)
    ([di; si; bp; bx; dx; cx; ax; u32 (at_syscall_fork_exit code); w1; w2] ++
     syscall_words (from + KERNEL_STACK_SIZE) u).
Proof.
  intros [He Hc] Hw Hu. unfold in_syscall, first_esp, KERNEL_STACK_SIZE, INTERRUPT_STACK_SIZE, SWITCH_STACK_SIZE in *.
  replace (stack + 8192 - (64 + 40)) with (stack + 8088) in * by lia.
  replace (from + 8192 - (64 + 40)) with (from + 8088) in * by lia.
  set (g := fun i => word32 f' (stack + 8088 + 4 * i)).
  exists (g 0), (g 1), (g 2), (g 3), (g 4), (g 5), (g 6), (g 8), (g 9).
  apply words_at_app. split.
  - intros i w Hi. do 10 (destruct i as [|i]; [injection Hi as <-; first [reflexivity | exact He] |]). discriminate Hi.
  - intros i w Hi. rewrite <- (Hw i w Hi). cbn [length].
    pose proof (lookup_lt_Some _ _ _ Hi) as Hl. unfold syscall_words, trap_words in Hl. rewrite Hu in Hl. cbn in Hl.
    unfold word32. change (4 * Z.of_nat 10) with 40.
    assert (forall k, 8128 <= k < 8192 -> f' (stack + k) = f (from + k)) as Hk by (intros k Hk; apply Hc; lia).
    replace (stack + 8088 + 40 + 4 * Z.of_nat i) with (stack + (8128 + 4 * Z.of_nat i)) by lia.
    replace (from + 8088 + 40 + 4 * Z.of_nat i) with (from + (8128 + 4 * Z.of_nat i)) by lia.
    rewrite <- !Z.add_assoc. rewrite !Hk by lia. done.
Qed.

(** C6: the child of a fork: [fork_crt_thread] gives it an id, a name and a copy of
    the parent's kernel stack of its own; when the switch resumes it, the processor
    returns to user mode at the parent's next instruction, with the parent's stack
    pointer and registers but eax, which is 0. *)
Theorem fork_returns_zero L s f ws free_id crt t u :
  lholds L (th_space s) f -> pool_wf (M := M) L (th_words s) (th_ids s) ws ->
  Z.of_nat (size L) + 1 < capacity -> KERNEL_STACK_SIZE < request_limit -> fallthrough <> 0 ->
  0 <= free_id < ip_max_size (th_ids s) -> taken ws free_id = false ->
  get_crt_thread (th_sched s) = Ok crt -> s_tcbs (th_sched s) !! crt = Some t ->
  usable crt TCB_SIZE -> safe L crt TCB_SIZE ->
  usable (t_kernel_stack t) KERNEL_STACK_SIZE ->
  safe (delete (bm_array (ip_id_map (th_ids s))) L) (t_kernel_stack t) KERNEL_STACK_SIZE ->
  in_syscall f (t_kernel_stack t) u -> in_user u = true -> 0 <= sg_ds (c_segs u) < 65536 ->
  may (fork_crt_thread junk fallthrough no_id code s) (fun '(s', thread) => exists stack id f',
    (forall b, bs_user b -> bs_view (th_space s') b = f' b) /\
    s_tcbs (th_sched s') = <[thread := fork_tcb t stack id]> (s_tcbs (th_sched s)) /\
    taken ws id = false /\ stack <> t_kernel_stack t /\
    string_at f' (thread + TCB_NAME) (default_name thread_prefix id) /\
    forall c, resumes c f' stack ->
      c_eip (run resume_thread c) = u32 (at_syscall_fork_exit code) /\
      let c' := run syscall_fork_exit (run resume_thread c) in
      c_regs c' = set (c_regs u) EAX 0 /\ c_eip c' = c_eip u /\ c_cs c' = c_cs u /\ c_ss c' = c_ss u /\
      c_eflags c' = c_eflags u /\ (let ds := sg_ds (c_segs u) in c_segs c' = Segs ds ds ds ds)).
Proof.
  intros Hm Hp Hc Hreq Hft Hid Hfree Hcrt Ht Hucrt Hscrt Huf Hsf Hin Hu Hds.
  eapply may_mono; [by apply (fork_crt_thread_spec code junk fallthrough no_id L s f ws free_id crt t) |].
  intros [s1 thread] (stack & id & L1 & f1 & [] & Hfs).
  destruct nt_stack as [(k & HLs & Hk) _].
  destruct (block_range _ L1 stack k (lholds_alive _ _ _ nt_space) HLs) as (_ & Hs0 & Hs1).
  exists stack, id, f1. split; [apply nt_space |]. split; [by rewrite nt_sched |]. split; [apply nt_id |].
  split.
  { intros ->. destruct nt_fresh as (_ & Hn & _). destruct Hsf as [Hlow | (q & j & Hq & Hq1 & Hq2)].
    - unfold KERNEL_STACK_SIZE in *. lia.
    - assert (L1 !! q = Some j) as Hq' by (apply lookup_delete_Some in Hq as [? ?]; by apply nt_kept).
      destruct (blocks_apart _ L1 q j _ k (lholds_alive _ _ _ nt_space) Hq' HLs) as [?|?];
        [congruence | unfold KERNEL_STACK_SIZE in *; lia ..]. }
  split; [apply nt_text |]. intros c Hres. pose proof Hres as [Hok He _].
  destruct (forked_words f f1 (t_kernel_stack t) stack u Hfs Hin Hu)
    as (di & si & bp & bx & dx & cx & ax & w1 & w2 & Hw).
  assert (len (syscall_words (t_kernel_stack t + KERNEL_STACK_SIZE) u) = 16) as Hl
    by (unfold syscall_words, trap_words; rewrite Hu; done).
  set (ws' := _ ++ syscall_words _ u) in Hw.
  assert (stack_is c ws') as Hst
    by (apply (resumes_stack c f1 stack); [done | lia | lia | unfold ws'; rewrite length_app; cbn [length]; lia | done]).
  pose proof (sim_stack_is c _ Hok Hst) as Hsim. cbv zeta in Hsim. set (T := esp (c_regs c) + _) in *. clearbody T.
  set (e := u32 (at_syscall_fork_exit code)) in *.
  assert (sim T (run resume_thread c) (AState (Regs ax cx dx bx (esp (c_regs c)) bp si di) (c_segs c) e
    (c_cs c) (c_ss c) (set_if (c_eflags c)) ([w1; w2] ++ syscall_words (t_kernel_stack t + KERNEL_STACK_SIZE) u ++ []))) as H2'.
  { eapply sim_run; [exact Hsim | unfold ws'; cbn [app]; rewrite app_nil_r; apply resume_words |].
    cbn [room foldr pushes resume_thread]. pose proof (sm_room _ _ _ Hsim). lia. }
  split; [exact (sm_eip _ _ _ H2') |].
  destruct (syscall_fork_exit_spec _ u _ _ _ _ _ _ _ _ _ _ _ Hu Hds H2') as (E1 & E2 & E3 & E4 & E5 & E6 & _).
  done.
Qed.
End run.

(** ** A program started, and one forked *)

(** The strings of [demo_array] as arguments, and as the thread's name. *)
Definition demo_started : threads (mem * paging (A := kmem)) := demo_threads 0xC0100000 demo_array demo_sched.

(** The kernel stack and the user's stack pointer after the two steps. *)
Definition demo_stacks : outcome (Z * Z) :=
  s ← init_task_manager 0 demo_started;
  '(s, thread) ← init_thread 0 1 7 demo_code s 0 0xC0100008 0x8048000 5 true;
  '(s, top) ← prepare_user_stack 8 (fun _ => 0) s thread 0xBFC00000 2 0xC0100000 0xC0105000;
  t ← deref (s_tcbs (th_sched s) !! thread);
  Ok (t_kernel_stack t, top).

(** A processor at the end of a switch to the thread with this kernel stack. *)
Definition demo_resume (m : mem) (stack : Z) : cpu :=
  Cpu (Regs 11 12 13 14 (first_esp stack) 16 17 18) (Segs 0x10 0x10 0x10 0x10) 0xC0100000 SELECTOR_K_CODE SELECTOR_K_DATA 0x2 m.

Lemma demo_resumes (s : mem * paging (A := kmem)) f stack :
  (forall b, bs_user (M := mem * paging (A := kmem)) b -> bs_view s b = f b) ->
  KERNEL_BASE <= stack -> is_u32 (first_esp stack) -> resumes (demo_resume (fst s) stack) f stack.
Proof.
  intros Hv Hs Hu. constructor; [| reflexivity |].
  - constructor; [intros []; try exact Hu | ..]; vm_compute; split; congruence.
  - intros b Hb. cbn [c_mem demo_resume]. rewrite <- Hv by (left; lia). cbn [bs_view kernel_space].
    by rewrite (proj2 (Z.leb_le KERNEL_BASE b)) by lia.
Qed.

Lemma user_thread_enters_witness :
  exists c, let c' := first_run (fun c => c) c in
    in_user c = false /\ in_user c' = true /\ c_eip c' = 0x8048000 /\ c_regs c' = Regs 0 0 0 0 0xBFBFFFE4 0 0 0.
Proof.
  assert (demo_stacks = Ok (3234336768, 0xBFBFFFE4)) as Hd by (vm_compute; reflexivity).
  unfold demo_stacks in Hd.
  destruct (demo_start 0xC0100000 demo_array demo_sched) as (s & ws & L & He & Hm & Hp & Hmax & HL & Ht & Hs).
  { apply bytes_ok. reflexivity. }
  { vm_compute. discriminate. }
  { vm_compute. reflexivity. }
  unfold demo_started in Hd. rewrite He in Hd. cbn [mbind outcome_bind] in Hd.
  destruct demo_strings_ok as [[Hau Has] Hstr].
  destruct (user_thread_enters 0 1 7 demo_code 8 demo_code_ok L s _ ws 5 0xC0100008 (Some [97; 98]) 0x8048000 5
    0xBFC00000 0xC0100000 demo_strings 0xC0105000 Hm Hp) as [Hpa | ([s1 thread] & Ei & Hin)].
  - change capacity with (KHEAP_INDEX_NUM - 2). unfold KHEAP_INDEX_NUM. lia.
  - vm_compute. reflexivity.
  - lia.
  - rewrite Hmax. lia.
  - apply Ht.
  - destruct (Hstr 0%nat [97; 98] eq_refl) as (Hat & Hu & Hsf).
    replace (word32 _ _) with 0xC0100008 in * by (vm_compute; reflexivity).
    split; [done |]. split; [exact Hat |]. split; [exact Hu |]. split; [by left | done].
  - vm_compute. split; congruence.
  - split; [split; [exact Hau | right; vm_compute; discriminate] |].
    intros i x Hi. destruct (Hstr i x Hi) as (Hat & Hu & _). split; [exact Hat |]. split; [exact Hu |].
    destruct i as [|[|i]]; [injection Hi as <- | injection Hi as <- | discriminate Hi];
      (split; [vm_compute; discriminate | cbn; lia]).
  - split; [by left |]. intros i x Hi.
    destruct i as [|[|i]]; [injection Hi as <- | injection Hi as <- | discriminate Hi]; left; vm_compute; discriminate.
  - vm_compute. split; discriminate.
  - intros b Hb. change (stack_need demo_strings) with 31 in Hb. split; [unfold is_u32; lia | right].
    split; [unfold KERNEL_BASE; lia | change (user_addr b); unfold user_addr; lia].
  - vm_compute. split; congruence.
  - rewrite Hpa in Hd. discriminate Hd.
  - rewrite Ei in Hd. cbn [mbind outcome_bind] in Hd. change (len demo_strings) with 2 in Hin.
    destruct Hin as [Hpa | ([s2 top] & Ep & f' & stack & id & Hv & Htcb & _ & _ & Hrun)];
      [rewrite Hpa in Hd; discriminate Hd |].
    rewrite Ep in Hd. cbn [mbind outcome_bind] in Hd. rewrite Htcb in Hd. cbn in Hd. injection Hd as -> ->.
    destruct (Hrun (fun c => c) (demo_resume (fst (th_space s2)) 3234336768)) as (E1 & E2 & E3 & _).
    + apply (demo_resumes (th_space s2)); [exact Hv | vm_compute; discriminate | vm_compute; split; congruence].
    + apply keeps_id.
    + exists (demo_resume (fst (th_space s2)) 3234336768). cbv zeta in *. unfold in_user. rewrite E3.
      exact (conj eq_refl (conj eq_refl (conj E2 E1))).
Defined.

(** A thread inside a system call of [demo_user]: its control block at 0xC0200000,
    its kernel stack, below the system call's frame, at 0xC0300000. *)
Definition parent_frame : list Z := concat (map bytes32 (syscall_words 0xC0302000 demo_user)).
Definition parent_tcb : tcb_t := Tcb 0 0xC0300000 0 10 TASK_RUNNING 3 0xC0400000 0 false 0.
Definition parent_sched : sched :=
  Sched {[0xC0200000 := parent_tcb]} {[0xC0208000 := Node 0xC0200000 0 0]} linked_list_init 0xC0208000 0 0 false ∅
    false 0 0 0 0.

Lemma parent_in_syscall :
  in_syscall (patch (fun _ => 0) (0xC0302000 - 64) parent_frame) 0xC0300000 demo_user.
Proof.
  intros i w Hi.
  do 16 (destruct i as [|i]; [vm_compute in Hi; injection Hi as <-; vm_compute; reflexivity |]).
  apply lookup_lt_Some in Hi. vm_compute in Hi. exfalso. lia.
Qed.

Lemma fork_returns_zero_witness :
  exists c, let c' := run syscall_fork_exit (run resume_thread c) in
    c_regs c' = Regs 0 2 3 4 0xBFBFFF00 6 7 8 /\ c_eip c' = 0x8048000 /\ in_user c' = true.
Proof.
  set (start := demo_threads (0xC0302000 - 64) parent_frame parent_sched).
  assert ((s ← init_task_manager 0 start; '(s, thread) ← fork_crt_thread 0 1 7 demo_code s;
    t ← deref (s_tcbs (th_sched s) !! thread); Ok (t_kernel_stack t)) = Ok 3234336768) as Hd
    by (vm_compute; reflexivity).
  destruct (demo_start (0xC0302000 - 64) parent_frame parent_sched) as (s & ws & L & He & Hm & Hp & Hmax & HL & Ht & Hs).
  { apply bytes_ok. vm_compute. reflexivity. }
  { vm_compute. discriminate. }
  { vm_compute. reflexivity. }
  unfold start in Hd. rewrite He in Hd. cbn [mbind outcome_bind] in Hd.
  assert (forall p n, KERNEL_BASE <= p -> p + n <= 0xC0800000 -> usable (M := mem * paging (A := kmem)) p n) as Hlow.
  { intros p n Hlo Hhi b Hb. unfold KERNEL_BASE in *. split; [unfold is_u32; lia | left; unfold KERNEL_BASE; lia]. }
  destruct (fork_returns_zero 0 1 7 demo_code L s _ ws 5 0xC0200000 parent_tcb demo_user Hm Hp)
    as [Hpa | ([s1 thread] & Ef & stack & id & f' & Hv & Htcb & _ & _ & _ & Hrun)].
  - change capacity with (KHEAP_INDEX_NUM - 2). unfold KHEAP_INDEX_NUM. lia.
  - vm_compute. reflexivity.
  - lia.
  - rewrite Hmax. lia.
  - apply Ht.
  - rewrite Hs. vm_compute. reflexivity.
  - rewrite Hs. vm_compute. reflexivity.
  - apply Hlow; vm_compute; discriminate.
  - left. vm_compute. discriminate.
  - apply Hlow; vm_compute; discriminate.
  - left. vm_compute. discriminate.
  - exact parent_in_syscall.
  - reflexivity.
  - vm_compute. split; congruence.
  - rewrite Hpa in Hd. discriminate Hd.
  - rewrite Ef in Hd. cbn [mbind outcome_bind] in Hd. rewrite Htcb, lookup_insert_eq in Hd. cbn in Hd.
    injection Hd as ->.
    destruct (Hrun (demo_resume (fst (th_space s1)) 3234336768)) as (_ & E1 & E2 & E3 & _).
    + apply (demo_resumes (th_space s1)); [exact Hv | vm_compute; discriminate | vm_compute; split; congruence].
    + exists (demo_resume (fst (th_space s1)) 3234336768). cbv zeta in *. unfold in_user. rewrite E3.
      exact (conj E1 (conj E2 eq_refl)).
Defined.
