(* ===== verification/UserCalls.v ===== *)
(** * The user side of the system calls (syscall/syscall.c,
    syscall/syscall_trigger.S)

    The functions a program calls put the call's number and arguments into
    registers and trap.  [user_call_correct] follows such a call from the
    arguments on the user's stack through the entry stub to the kernel's
    dispatch and back behind the call. *)

From S2P Require Import Prelude.
From S2P Require Import Memory.
From S2P Require Import KHeap.
From S2P Require Import KMalloc.
From S2P Require Import Allocator.
From S2P Require Import CStdlib.
From S2P Require Import Gdt.
From S2P Require Import Cpu.
From S2P Require Import Paging.
From S2P Require Import Interrupts.
From S2P Require Import Thread.
From S2P Require Import NaiveFs.
From S2P Require Import Process.
From S2P Require Import Tasks.
From S2P Require Import Exec.
From S2P Require Import Syscalls.

(** ** The stubs

    The instructions before and behind [int 0x80]. *)

Definition stub : Type := list instr * list instr.

Definition DEFINE_SYSCALL_TRIGGER_0_PARAM (n : Z) : stub := ([MOV EAX n], [RET]).
Definition DEFINE_SYSCALL_TRIGGER_1_PARAM (n : Z) : stub := ([MOV EAX n; LOAD ECX ESP 4], [RET]).
Definition DEFINE_SYSCALL_TRIGGER_2_PARAM (n : Z) : stub := ([MOV EAX n; LOAD ECX ESP 4; LOAD EDX ESP 8], [RET]).
Definition DEFINE_SYSCALL_TRIGGER_3_PARAM (n : Z) : stub :=
  ([PUSH EBX; MOV EAX n; LOAD ECX ESP 8; LOAD EDX ESP 12; LOAD EBX ESP 16], [POP EBX; RET]).
Definition DEFINE_SYSCALL_TRIGGER_4_PARAM (n : Z) : stub :=
  ([PUSH EBX; PUSH ESI; MOV EAX n; LOAD ECX ESP 12; LOAD EDX ESP 16; LOAD EBX ESP 20; LOAD ESI ESP 24],
   [POP ESI; POP EBX; RET]).

(** A call of a stub, up to its return. *)
Definition trigger (ss0 esp0 : Z) (syscall_handler : cpu -> cpu) (s : stub) (c : cpu) : cpu :=
  run s.2 (syscall ss0 esp0 syscall_handler (run s.1 c)).

(** The functions of the system call library. *)
Inductive call :=
  | exit (exit_code : Z)
  | fork
  | exec (path argc argv : Z)
  | yield
  | read (filename buffer offset size : Z)
  | write (filename buffer offset size : Z)
  | stat (filename st : Z)
  | listdir (dir : Z)
  | print (str args : Z)
  | wait (pid status : Z)
  | thread_exit
  | read_char
  | move_cursor (delta_x delta_y : Z).

(** The stub of a function. *)
Definition trigger_syscall (f : call) : stub :=
  match f with
  | exit _ => DEFINE_SYSCALL_TRIGGER_1_PARAM 0
  | fork => DEFINE_SYSCALL_TRIGGER_0_PARAM 1
  | exec _ _ _ => DEFINE_SYSCALL_TRIGGER_3_PARAM 2
  | yield => DEFINE_SYSCALL_TRIGGER_0_PARAM 3
  | read _ _ _ _ => DEFINE_SYSCALL_TRIGGER_4_PARAM 4
  | write _ _ _ _ => DEFINE_SYSCALL_TRIGGER_4_PARAM 5
  | stat _ _ => DEFINE_SYSCALL_TRIGGER_2_PARAM 6
  | listdir _ => DEFINE_SYSCALL_TRIGGER_1_PARAM 7
  | print _ _ => DEFINE_SYSCALL_TRIGGER_2_PARAM 8
  | wait _ _ => DEFINE_SYSCALL_TRIGGER_2_PARAM 9
  | thread_exit => DEFINE_SYSCALL_TRIGGER_0_PARAM 10
  | read_char => DEFINE_SYSCALL_TRIGGER_0_PARAM 11
  | move_cursor _ _ => DEFINE_SYSCALL_TRIGGER_2_PARAM 12
  end.

(** What it passes to the stub. *)
Definition call_args (f : call) : list Z :=
  match f with
  | exit exit_code => [exit_code]
  | fork | yield | thread_exit | read_char => []
  | exec path argc argv => [path; argc; argv]
  | read filename buffer offset size | write filename buffer offset size => [filename; buffer; offset; size]
  | stat filename st => [filename; st]
  | listdir dir => [dir]
  | print str args => [str; args]
  | wait pid status => [pid; status]
  | move_cursor delta_x delta_y => [delta_x; delta_y]
  end.

(** The frame at [p], as the C code reads it. *)
Definition params_on (m : mem) (p : Z) : isr_params_t :=
  let w i := load32 m (p + 4 * i) in
  IsrParams (w 0) (w 1) (w 2) (w 3) (w 4) (w 5) (w 6) (w 7) (w 8) (w 9) (w 10) (w 11) (w 12) (w 13) (w 14) (w 15).

(** The kernel's frame for a user program's call of a stub. *)
Definition call_frame (ss0 esp0 : Z) (s : stub) (c : cpu) : cpu :=
  run syscall_entry (trap ss0 esp0 None (run s.1 c)).

(** ** The machine inside a stub *)

(** The registers a stub saves. *)
Definition saves (f : call) : list reg :=
  match f with exec _ _ _ => [EBX] | read _ _ _ _ | write _ _ _ _ => [ESI; EBX] | _ => [] end.

(** The trap of a call of [f] from [c]: the number and the arguments are in the
    registers, what the stub saved is on the stack, above it the return address. *)
Record trapping (f : call) (n ret : Z) (c u : cpu) : Prop := {
  tr_eax : eax (c_regs u) = n;
  tr_args : take (length (call_args f)) [ecx (c_regs u); edx (c_regs u); ebx (c_regs u); esi (c_regs u)] = call_args f;
  tr_esp : esp (c_regs u) = esp (c_regs c) - 4 * Z.of_nat (length (saves f));
  tr_kept : edi (c_regs u) = edi (c_regs c) /\ ebp (c_regs u) = ebp (c_regs c) /\
    (saves f <> [ESI; EBX] -> esi (c_regs u) = esi (c_regs c)) /\ (saves f = [] -> ebx (c_regs u) = ebx (c_regs c));
  tr_stack : words_on (c_mem u) (esp (c_regs u)) ((get (c_regs c) <$> saves f) ++ [ret]);
  tr_rest : c_segs u = c_segs c /\ c_eip u = c_eip c /\ c_cs u = c_cs c /\ c_ss u = c_ss c /\ c_eflags u = c_eflags c;
  tr_ok : machine_ok u
}.

Definition call_number (f : call) : Z :=
  match f with
  | exit _ => SYSCALL_EXIT_NUM | fork => SYSCALL_FORK_NUM | exec _ _ _ => SYSCALL_EXEC_NUM
  | yield => SYSCALL_YIELD_NUM | read _ _ _ _ => SYSCALL_READ_NUM | write _ _ _ _ => SYSCALL_WRITE_NUM
  | stat _ _ => SYSCALL_STAT_NUM | listdir _ => SYSCALL_LISTDIR_NUM | print _ _ => SYSCALL_PRINT_NUM
  | wait _ _ => SYSCALL_WAIT_NUM | thread_exit => SYSCALL_THREAD_EXIT_NUM | read_char => SYSCALL_READ_CHAR_NUM
  | move_cursor _ _ => SYSCALL_MOVE_CURSOR_NUM
  end.

Lemma load_on m p ws i w : words_on m p ws -> ws !! i = Some w -> load32 m (p + 4 * Z.of_nat i) = w.
Proof.
  revert p i. induction ws as [|v ws IH]; intros p [|i] Hw Hi; try done; destruct Hw as [H1 H2]; cbn in Hi.
  - injection Hi as <-. by rewrite Z.add_0_r.
  - rewrite <- (IH (p + 4) i H2 Hi). f_equal. lia.
Qed.

Lemma machine_ok_with c r m :
  machine_ok c -> (forall x, is_u32 (get r x)) -> machine_ok (with_mem (with_regs c r) m).
Proof. intros [] Hr. by constructor. Qed.

(** The stack of a caller: the return address and the arguments. *)
Record calls (f : call) (ret : Z) (c : cpu) : Prop := {
  cl_ok : machine_ok c;
  cl_stack : words_on (c_mem c) (esp (c_regs c)) (ret :: call_args f);
  cl_range : 8 <= esp (c_regs c) /\ esp (c_regs c) + 4 * (1 + len (call_args f)) < 4294967296
}.

(** The machine behind the instructions before the trap, for each number of
    parameters. *)
Definition entered (c : cpu) (n : Z) (args : list Z) (m : mem) (sp : Z) : cpu :=
  let r := c_regs c in
  let arg i x := default x (args !! i) in
  with_mem (with_regs c (Regs n (arg 0%nat (ecx r)) (arg 1%nat (edx r)) (arg 2%nat (ebx r)) sp (ebp r)
    (arg 3%nat (esi r)) (edi r))) m.

#[local] Arguments with_regs !c r /.
#[local] Arguments with_mem !c m /.
#[local] Arguments push !c v /.

Ltac run_stub :=
  intros; match goal with c : cpu |- _ => destruct c as [[ra rc rd rb sp rbp rsi rdi] sg ip cs ss fl m] end;
  cbn [c_regs esp c_mem] in *; unfold entered;
  cbn -[u32 load32 store32 Z.mul Z.add Z.sub];
  repeat match goal with |- context [u32 ?x] =>
    lazymatch x with context [u32 _] => fail | _ => rewrite (u32_small x) by lia end end;
  rewrite ?load32_store32_ne by lia.

Lemma enter_0 n c : run (DEFINE_SYSCALL_TRIGGER_0_PARAM n).1 c = entered c n [] (c_mem c) (esp (c_regs c)).
Proof. run_stub. done. Qed.

Lemma enter_1 n c a :
  load32 (c_mem c) (esp (c_regs c) + 4) = a -> 0 <= esp (c_regs c) -> esp (c_regs c) + 8 < 4294967296 ->
  run (DEFINE_SYSCALL_TRIGGER_1_PARAM n).1 c = entered c n [a] (c_mem c) (esp (c_regs c)).
Proof. run_stub. subst. done. Qed.

Lemma enter_2 n c a b :
  load32 (c_mem c) (esp (c_regs c) + 4) = a -> load32 (c_mem c) (esp (c_regs c) + 8) = b ->
  0 <= esp (c_regs c) -> esp (c_regs c) + 12 < 4294967296 ->
  run (DEFINE_SYSCALL_TRIGGER_2_PARAM n).1 c = entered c n [a; b] (c_mem c) (esp (c_regs c)).
Proof. run_stub. subst. done. Qed.

Lemma enter_3 n c a b d :
  load32 (c_mem c) (esp (c_regs c) + 4) = a -> load32 (c_mem c) (esp (c_regs c) + 8) = b ->
  load32 (c_mem c) (esp (c_regs c) + 12) = d -> 8 <= esp (c_regs c) -> esp (c_regs c) + 16 < 4294967296 ->
  run (DEFINE_SYSCALL_TRIGGER_3_PARAM n).1 c =
    entered c n [a; b; d] (store32 (c_mem c) (esp (c_regs c) - 4) (ebx (c_regs c))) (esp (c_regs c) - 4).
Proof. run_stub. subst. repeat (lia || f_equal). Qed.

Lemma enter_4 n c a b d e :
  load32 (c_mem c) (esp (c_regs c) + 4) = a -> load32 (c_mem c) (esp (c_regs c) + 8) = b ->
  load32 (c_mem c) (esp (c_regs c) + 12) = d -> load32 (c_mem c) (esp (c_regs c) + 16) = e ->
  8 <= esp (c_regs c) -> esp (c_regs c) + 20 < 4294967296 ->
  run (DEFINE_SYSCALL_TRIGGER_4_PARAM n).1 c =
    entered c n [a; b; d; e] (store32 (store32 (c_mem c) (esp (c_regs c) - 4) (ebx (c_regs c)))
      (esp (c_regs c) - 8) (esi (c_regs c))) (esp (c_regs c) - 8).
Proof. run_stub. subst. repeat (lia || f_equal). Qed.

Lemma entered_ok c n args m sp :
  machine_ok c -> is_u32 n -> Forall is_u32 args -> is_u32 sp -> machine_ok (entered c n args m sp).
Proof.
  intros Hok Hn Ha Hsp. unfold entered. apply machine_ok_with; [done |].
  assert (forall i x, is_u32 (get (c_regs c) x) -> is_u32 (default (get (c_regs c) x) (args !! i))) as Hd.
  { intros i x Hx. destruct (args !! i) as [a|] eqn:E; [|done]. by eapply Forall_lookup_1. }
  pose proof (mo_regs _ Hok) as Hr. intros [].
  - done.
  - apply (Hd 0%nat ECX), Hr.
  - apply (Hd 1%nat EDX), Hr.
  - apply (Hd 2%nat EBX), Hr.
  - done.
  - apply (Hr EBP).
  - apply (Hd 3%nat ESI), Hr.
  - apply (Hr EDI).
Qed.

(** The stack behind the saved registers. *)
Definition saved_mem (f : call) (c : cpu) : mem :=
  let r := c_regs c in
  match saves f with
  | [] => c_mem c
  | [_] => store32 (c_mem c) (esp r - 4) (ebx r)
  | _ => store32 (store32 (c_mem c) (esp r - 4) (ebx r)) (esp r - 8) (esi r)
  end.

Lemma trigger_entered f ret c :
  calls f ret c ->
  run (trigger_syscall f).1 c =
    entered c (call_number f) (call_args f) (saved_mem f c) (esp (c_regs c) - 4 * len (saves f)).
Proof.
  intros [Hok Hw [Hlo Hhi]].
  assert (forall i a, call_args f !! i = Some a -> load32 (c_mem c) (esp (c_regs c) + 4 * (1 + Z.of_nat i)) = a) as W.
  { intros i a Hi. rewrite <- (load_on _ _ _ (S i) a Hw Hi). f_equal. lia. }
  assert (esp (c_regs c) - 4 * Z.of_nat 0 = esp (c_regs c)) as E0 by lia.
  destruct f; cbn [call_args length] in *; unfold saved_mem; cbn [trigger_syscall call_number saves length];
    rewrite ?E0;
    [apply enter_1 | apply enter_0 | apply enter_3 | apply enter_0 | apply enter_4 | apply enter_4 | apply enter_2
    | apply enter_1 | apply enter_2 | apply enter_2 | apply enter_0 | apply enter_0 | apply enter_2];
    first [lia | by apply (W 0%nat) | by apply (W 1%nat) | by apply (W 2%nat) | by apply (W 3%nat)].
Qed.

Lemma trigger_enters f ret c :
  calls f ret c -> trapping f (call_number f) ret c (run (trigger_syscall f).1 c).
Proof.
  intros Hc. rewrite (trigger_entered f ret c Hc). destruct Hc as [Hok Hw [Hlo Hhi]].
  pose proof (mo_regs _ Hok) as Hr. destruct Hw as [Hret Hw].
  assert (Forall is_u32 (call_args f)) as Hargs.
  { apply Forall_lookup_2. intros i a Hi. rewrite <- (load_on _ _ _ i a Hw Hi). apply load32_range. }
  split.
  - done.
  - by destruct f.
  - done.
  - by destruct f.
  - change (c_mem (entered _ _ _ ?m _)) with m. change (esp (c_regs (entered _ _ _ _ ?sp))) with sp.
    unfold saved_mem. pose proof (Hr EBX) as Hb. pose proof (Hr ESI) as Hsi. cbn [get] in *.
    set (sp := esp (c_regs c)) in *.
    assert (sp - 4 * 0 = sp /\ sp - 4 * 1 + 4 = sp /\ sp - 4 * 1 = sp - 4 /\ sp - 4 * 2 + 4 + 4 = sp /\
      sp - 4 * 2 + 4 = sp - 4 /\ sp - 4 * 2 = sp - 8) as (E1 & E2 & E3 & E4 & E5 & E6) by lia.
    destruct f; cbn [saves length fmap list_fmap app words_on get];
      change (Z.of_nat 0) with 0; change (Z.of_nat 1) with 1; change (Z.of_nat 2) with 2;
      rewrite ?E1, ?E2, ?E3, ?E4, ?E5, ?E6; autorewrite with mem; rewrite ?(u32_small (ebx _)), ?(u32_small (esi _)); done.
  - done.
  - apply entered_ok; [done | by destruct f | done |]. unfold is_u32. specialize (Hr ESP). unfold is_u32 in Hr. cbn in Hr.
    assert (len (saves f) <= 2) by (destruct f; cbn; lia). lia.
Qed.

(** What the caller of a stub finds when it goes on: the result in eax, its stack
    without the return address, and the registers that C functions keep. *)
Record returned (ret result : Z) (c v w : cpu) : Prop := {
  rt_eip : c_eip w = ret;
  rt_eax : eax (c_regs w) = result;
  rt_esp : esp (c_regs w) = esp (c_regs c) + 4;
  rt_kept : ebx (c_regs w) = ebx (c_regs c) /\ esi (c_regs w) = esi (c_regs c) /\
    edi (c_regs w) = edi (c_regs c) /\ ebp (c_regs w) = ebp (c_regs c);
  rt_rest : c_segs w = c_segs v /\ c_cs w = c_cs v /\ c_ss w = c_ss v /\ c_eflags w = c_eflags v;
  rt_mem : c_mem w = c_mem v
}.

#[local] Arguments drop_bytes !c n /.
#[local] Arguments pop !c !r /.
#[local] Arguments top !c /.

Lemma leave_0 a b d e sp bp si di sg ip cs ss fl m ret :
  words_on m sp [ret] -> 0 <= sp -> sp + 4 < 4294967296 ->
  run [RET] (Cpu (Regs a b d e sp bp si di) sg ip cs ss fl m) = Cpu (Regs a b d e (sp + 4) bp si di) sg ret cs ss fl m.
Proof. intros [H _] ? ?. cbn -[u32 load32 Z.add]. by rewrite u32_small, H by lia. Qed.

Lemma leave_1 a b d e sp bp si di sg ip cs ss fl m x ret :
  words_on m sp [x; ret] -> 0 <= sp -> sp + 8 < 4294967296 ->
  run [POP EBX; RET] (Cpu (Regs a b d e sp bp si di) sg ip cs ss fl m) =
    Cpu (Regs a b d x (sp + 8) bp si di) sg ret cs ss fl m.
Proof.
  intros (H1 & H2 & _) ? ?. cbn -[u32 load32 Z.add run]. change (run [POP EBX; RET] ?c) with (run [RET] (pop c EBX)).
  cbn [pop drop_bytes]. cbn -[u32 load32 Z.add run]. rewrite H1, u32_small by lia.
  rewrite (leave_0 _ _ _ _ _ _ _ _ _ _ _ _ _ _ ret) by (done || lia). by rewrite <- Z.add_assoc.
Qed.

Lemma leave_2 a b d e sp bp si di sg ip cs ss fl m x y ret :
  words_on m sp [x; y; ret] -> 0 <= sp -> sp + 12 < 4294967296 ->
  run [POP ESI; POP EBX; RET] (Cpu (Regs a b d e sp bp si di) sg ip cs ss fl m) =
    Cpu (Regs a b d y (sp + 12) bp x di) sg ret cs ss fl m.
Proof.
  intros (H1 & H2 & H3) ? ?. change (run [POP ESI; POP EBX; RET] ?c) with (run [POP EBX; RET] (pop c ESI)).
  cbn -[u32 load32 Z.add run]. rewrite H1, u32_small by lia.
  rewrite (leave_1 _ _ _ _ _ _ _ _ _ _ _ _ _ _ y ret) by (done || lia). by rewrite <- Z.add_assoc.
Qed.

Lemma trigger_leaves f n ret result c u v :
  trapping f n ret c u -> 8 <= esp (c_regs c) -> esp (c_regs c) + 4 < 4294967296 ->
  c_regs v = set (c_regs u) EAX result ->
  words_on (c_mem v) (esp (c_regs u)) ((get (c_regs c) <$> saves f) ++ [ret]) ->
  returned ret result c v (run (trigger_syscall f).2 v).
Proof.
  intros [_ _ Hsp (Hdi & Hbp & Hsi & Hbx) _ _ _] Hlo Hhi Hv Hw.
  assert (esp (c_regs v) = esp (c_regs u) /\ ebp (c_regs v) = ebp (c_regs u) /\ edi (c_regs v) = edi (c_regs u) /\
    esi (c_regs v) = esi (c_regs u) /\ ebx (c_regs v) = ebx (c_regs u) /\ eax (c_regs v) = result)
    as (G1 & G2 & G3 & G4 & G5 & G6) by (rewrite Hv; by destruct (c_regs u)).
  rewrite <- G1 in *. rewrite <- G2, <- G3, <- G4, <- G5 in *. clear G1 G2 G3 G4 G5 Hv u.
  destruct v as [[ra rc rd rb sp rbp rsi rdi] sg ip cs ss fl m]. cbn [c_regs c_mem eax ebx esp ebp esi edi] in *. subst ra.
  destruct f; cbn [saves length fmap list_fmap app words_on get] in *;
    change (Z.of_nat 0) with 0 in *; change (Z.of_nat 1) with 1 in *; change (Z.of_nat 2) with 2 in *;
    first [erewrite leave_0 by (exact Hw || lia) | erewrite leave_1 by (exact Hw || lia) | erewrite leave_2 by (exact Hw || lia)];
    split; cbn -[Z.add Z.mul]; try done; try lia; rewrite ?Hbx, ?Hsi by done; done.
Qed.
Lemma params_words m p T u :
  words_on m p (syscall_words T u) -> in_user u = true ->
  let q := params_on m p in
  p_eax q = eax (c_regs u) /\ p_ecx q = ecx (c_regs u) /\ p_edx q = edx (c_regs u) /\
  p_ebx q = ebx (c_regs u) /\ p_esi q = esi (c_regs u).
Proof.
  intros Hw Hu q. unfold syscall_words, trap_words in Hw. rewrite Hu in Hw. cbn [app] in Hw. unfold q, params_on.
  cbn [p_eax p_ecx p_edx p_ebx p_esi].
  split; [by apply (load_on _ _ _ 8 _ Hw) |]. split; [by apply (load_on _ _ _ 7 _ Hw) |].
  split; [by apply (load_on _ _ _ 6 _ Hw) |]. split; [by apply (load_on _ _ _ 5 _ Hw) |].
  by apply (load_on _ _ _ 2 _ Hw).
Qed.

(** ** The kernel's stack

    Entering the kernel writes sixteen words below the stack's top. *)

Lemma push_apart c v lo hi :
  4 <= esp (c_regs c) < 4294967296 -> hi <= esp (c_regs c) - 4 ->
  esp (c_regs (push c v)) = esp (c_regs c) - 4 /\ same_on (c_mem c) (c_mem (push c v)) lo hi.
Proof.
  intros He Hh. unfold push. rewrite (u32_small (_ - 4)) by lia. cbn. split; [by destruct (c_regs c) |].
  intros b Hb. apply load8_store32_ne. lia.
Qed.

(** Instructions that only push, or change a register other than esp. *)
Definition plain (i : instr) : bool :=
  match i with
  | PUSH _ | PUSH_BYTE _ | SET_SEGS _ | STI => true
  | GET_DS r | MOV_LOW r _ => bool_decide (r <> ESP)
  | _ => false
  end.

Lemma run_apart lo hi code : forall c,
  forallb plain code = true -> 4 * room code <= esp (c_regs c) < 4294967296 ->
  hi <= esp (c_regs c) - 4 * room code ->
  esp (c_regs (run code c)) = esp (c_regs c) - 4 * room code /\ same_on (c_mem c) (c_mem (run code c)) lo hi.
Proof.
  induction code as [|i code IH]; intros c Hp He Hh; cbn [forallb] in Hp.
  { cbn. split; [lia | by intros b _]. }
  apply andb_true_iff in Hp as [Hi Hp]. change (room (i :: code)) with (pushes i + room code) in *.
  change (run (i :: code) c) with (run code (Cpu.exec i c)). pose proof (room_pos code) as Hrp.
  assert (esp (c_regs (Cpu.exec i c)) = esp (c_regs c) - 4 * pushes i /\
    same_on (c_mem c) (c_mem (Cpu.exec i c)) lo hi) as [E1 E2].
  { destruct i; cbn [plain] in Hi; try discriminate Hi; cbn [Cpu.exec pushes] in *;
      try (apply push_apart; lia);
      try (apply bool_decide_eq_true in Hi; split; [rewrite Z.mul_0_r, Z.sub_0_r; destruct r; try done; by destruct (c_regs c) | by intros b _]).
    - split; [by rewrite Z.mul_0_r, Z.sub_0_r | by intros b _].
    - split; [by rewrite Z.mul_0_r, Z.sub_0_r | by intros b _]. }
  assert (0 <= pushes i) by (destruct i; cbn; lia).
  destruct (IH (Cpu.exec i c) Hp) as [F1 F2]; [lia | lia |].
  split; [lia |]. intros b Hb. rewrite (F2 b Hb). apply (E2 b Hb).
Qed.

Lemma entry_apart ss0 esp0 c lo hi :
  in_user c = true -> 64 <= esp0 < 4294967296 -> hi <= esp0 - 64 ->
  same_on (c_mem c) (c_mem (run syscall_entry (trap ss0 esp0 None c))) lo hi.
Proof.
  intros Hu He Hh. unfold trap. unfold in_user in Hu. rewrite Hu.
  set (c0 := Cpu (set (c_regs c) ESP esp0) _ _ _ _ _ _).
  assert (esp (c_regs c0) = esp0) as E0 by (cbn; by destruct (c_regs c)).
  destruct (push_apart c0 (c_ss c) lo hi) as [E1 S1]; [lia | lia |]. set (c1 := push c0 _) in *.
  destruct (push_apart c1 (esp (c_regs c)) lo hi) as [E2 S2]; [lia | lia |]. set (c2 := push c1 _) in *.
  destruct (push_apart c2 (c_eflags c) lo hi) as [E3 S3]; [lia | lia |]. set (c3 := push c2 _) in *.
  destruct (push_apart c3 (c_cs c) lo hi) as [E4 S4]; [lia | lia |]. set (c4 := push c3 _) in *.
  destruct (push_apart c4 (c_eip c) lo hi) as [E5 S5]; [lia | lia |].
  set (c5 := push c4 (c_eip c)) in *. set (c6 := Cpu _ _ _ _ _ _ _).
  destruct (run_apart lo hi syscall_entry c6 eq_refl) as [_ S6];
    [change (esp (c_regs c6)) with (esp (c_regs c5)); cbn [room foldr pushes syscall_entry]; lia ..|].
  intros b Hb. rewrite (S6 b Hb). change (c_mem c6) with (c_mem c5).
  by rewrite (S5 b Hb), (S4 b Hb), (S3 b Hb), (S2 b Hb), (S1 b Hb).
Qed.

(** ** What the kernel does for a call *)

Section kernel_side.
Context {A : Type} `{BlockAllocator A}.
Abbreviation kernel := (Exec.kernel (A := A)).
Context (disk : Z -> Z) (FILE_NUM : Z).
Context (junk fallthrough no_id : Z) (text : kernel_text) (fuel : nat) (c_init : Z -> Z) (exec_stat : Z).

(** The service that a call asks for. *)
Definition service (f : call) (k : kernel) : outcome (kernel * sys_result) :=
  match f with
  | exit exit_code => syscall_exit_impl k (s32 exit_code)
  | fork => syscall_fork_impl junk fallthrough no_id text k
  | exec path argc argv => syscall_exec_impl disk FILE_NUM junk fallthrough no_id text fuel c_init exec_stat k path argc argv
  | yield => syscall_yield_impl k
  | read filename buffer offset size => syscall_read_impl disk FILE_NUM k filename buffer offset size
  | write filename buffer offset size => syscall_write_impl k filename buffer offset size
  | stat filename st => syscall_stat_impl disk FILE_NUM k filename st
  | listdir dir => syscall_listdir_impl disk FILE_NUM fuel k dir
  | print str args => syscall_print_impl fuel k str args
  | wait pid status => syscall_wait_impl k pid status
  | thread_exit => syscall_thread_exit_impl k
  | read_char => syscall_read_char_impl k
  | move_cursor delta_x delta_y => syscall_move_cursor_impl k (s32 delta_x) (s32 delta_y)
  end.

Abbreviation handle := (syscall_handler disk FILE_NUM junk fallthrough no_id text fuel c_init exec_stat).

Lemma handle_service f p k :
  p_eax p = call_number f ->
  take (length (call_args f)) [p_ecx p; p_edx p; p_ebx p; p_esi p] = call_args f ->
  handle k p = service f k.
Proof.
  intros He Ha. unfold syscall_handler. rewrite He.
  destruct f; cbn in Ha; simplify_eq; reflexivity.
Qed.

(** C15: a program's call of a system call function, with its arguments and return
    address on the user's stack: the frame that the stub and the entry code
    hand to the dispatch selects exactly the service of that function with
    these arguments; when the service ends, the program goes on behind the call
    with the result in eax, its stack pointer, ebx, esi, edi, ebp, mode and
    flags as the C calling convention has them, and memory as the service left it. *)
Theorem user_call_correct ss0 esp0 (h : cpu -> cpu) f ret c
    (Hc : calls f ret c) (Hss : is_u32 ss0) (Hu : in_user c = true) (Hesp : 128 <= esp0 < 4294967296)
    (Hk : keeps esp0 h)
    (Hap : esp (c_regs c) + 4 <= esp0 - 64)
    (Hst : let fr := call_frame ss0 esp0 (trigger_syscall f) c in
      same_on (c_mem fr) (c_mem (h fr)) (esp (c_regs c) - 8) (esp (c_regs c) + 4)) :
  let fr := call_frame ss0 esp0 (trigger_syscall f) c in
  let c' := trigger ss0 esp0 h (trigger_syscall f) c in
  (forall k, handle k (params_on (c_mem fr) (esp (c_regs fr))) = service f k) /\
  c_eip c' = ret /\ eax (c_regs c') = eax (c_regs (h fr)) /\ esp (c_regs c') = esp (c_regs c) + 4 /\
  (ebx (c_regs c') = ebx (c_regs c) /\ esi (c_regs c') = esi (c_regs c) /\
    edi (c_regs c') = edi (c_regs c) /\ ebp (c_regs c') = ebp (c_regs c)) /\
  c_cs c' = c_cs c /\ c_ss c' = c_ss c /\ c_eflags c' = c_eflags c /\ c_mem c' = c_mem (h fr).
Proof.
  intros fr c'. pose proof (trigger_enters f ret c Hc) as Ht.
  unfold c', trigger. unfold fr, call_frame in *. set (u := run (trigger_syscall f).1 c) in *.
  destruct (tr_rest _ _ _ _ _ Ht) as (R1 & R2 & R3 & R4 & R5).
  assert (in_user u = true) as Huu by (unfold in_user; by rewrite R3).
  destruct (syscall_transparent ss0 esp0 h u (tr_ok _ _ _ _ _ Ht) Hss Huu Hesp Hk)
    as (Hw & Hr & He & Hcs & Hs & Hf & _ & Hm). cbv zeta in *.
  set (fr' := run syscall_entry _) in *. set (v := syscall ss0 esp0 h u) in *.
  destruct (params_words _ _ _ _ Hw Huu) as (P1 & P2 & P3 & P4 & P5).
  split.
  { intros k. apply handle_service; [rewrite P1; apply Ht |]. rewrite P2, P3, P4, P5. apply Ht. }
  pose proof (cl_range _ _ _ Hc) as [Hlo Hhi].
  assert (esp (c_regs c) + 4 < 4294967296) as Hhi' by (pose proof (Zle_0_nat (length (call_args f))); lia).
  assert (len (saves f) <= 2) as Hsv by (destruct f; cbn; lia).
  destruct (trigger_leaves f _ ret _ c u v Ht Hlo Hhi' Hr) as [G1 G2 G3 G4 (_ & G5 & G6 & G7) G8].
  - pose proof (tr_esp _ _ _ _ _ Ht) as Eu.
    rewrite Hm. eapply words_on_same with (m := c_mem u) (hi := esp (c_regs c) + 4); [| | apply Ht].
    + intros b Hb. rewrite (Hst b) by lia. apply (entry_apart ss0 esp0 u (esp (c_regs u)) (esp (c_regs c) + 4)); try done; lia.
    + rewrite Eu, length_app, length_fmap. cbn [length]. lia.
  - split; [exact G1 |]. split; [exact G2 |]. split; [exact G3 |]. split; [exact G4 |].
    split; [by rewrite G5, Hcs |]. split; [by rewrite G6, Hs |]. split; [by rewrite G7, Hf |]. by rewrite G8.
Qed.
End kernel_side.

(** ** An example

    read("…", 0x400000, 0, 512) at 0x8048000, to return to 0x8048123. *)

Definition demo_read : call := read 0x8049000 0x400000 0 512.
Definition demo_caller : cpu :=
  with_mem demo_user (put_words ∅ 0xBFBFFF00 (0x8048123 :: call_args demo_read)).

Lemma user_call_correct_witness :
  let h := fun c => with_regs c (Cpu.set (c_regs c) EAX 512) in
  let fr := call_frame SELECTOR_K_DATA 0xC0009000 (trigger_syscall demo_read) demo_caller in
  let c' := trigger SELECTOR_K_DATA 0xC0009000 h (trigger_syscall demo_read) demo_caller in
  (forall k, syscall_handler (A := kmem) demo_disk demo_num 0 1 7 demo_text 64 (fun _ => 0) 0xC0005000 k
      (params_on (c_mem fr) (esp (c_regs fr))) =
    syscall_read_impl demo_disk demo_num k 0x8049000 0x400000 0 512) /\
  c_eip c' = 0x8048123 /\ eax (c_regs c') = 512 /\ esp (c_regs c') = 0xBFBFFF04.
Proof.
  cbv zeta. set (h := fun c => with_regs c (Cpu.set (c_regs c) EAX 512)).
  destruct (user_call_correct (A := kmem) demo_disk demo_num 0 1 7 demo_text 64 (fun _ => 0) 0xC0005000
    SELECTOR_K_DATA 0xC0009000 h demo_read 0x8048123 demo_caller) as (H1 & H2 & H3 & H4 & _).
  - split; [apply machine_ok_with with (r := c_regs demo_user); [exact demo_user_ok | apply demo_user_ok] |
      vm_compute; tauto | vm_compute; split; congruence].
  - vm_compute. split; congruence.
  - reflexivity.
  - lia.
  - apply keeps_result. unfold is_u32. lia.
  - vm_compute. congruence.
  - intros fr. clearbody fr. destruct fr as [[] ? ? ? ? ? ?]. intros b _. reflexivity.
  - split; [exact H1 |]. split; [exact H2 |]. split; [| exact H4]. rewrite H3.
    unfold h. generalize (call_frame SELECTOR_K_DATA 0xC0009000 (trigger_syscall demo_read) demo_caller).
    intros fr. destruct fr as [[] ? ? ? ? ? ?]. reflexivity.
Defined.
