(* ===== verification/UserPrograms.v ===== *)
(** * The user programs (user/src/*.c, user/src/sys/common.c, common/stdio.c)

    The programs that the disk image holds, run from their entry over the
    kernel's services.  A program reads and writes the address space like the
    kernel does: its pages are its own, since [exec] released those its process
    had and these programs do not fork.  The addresses of its literals and
    variables are parameters.
    [cat_correct] follows the bytes of a file from the image on the disk to the
    screen, [ls_correct] and [echo_correct] what the other two show. *)

From S2P Require Import Prelude.
From S2P Require Import Memory.
From S2P Require Import KHeap.
From S2P Require Import KMalloc.
From S2P Require Import YieldLock.
From S2P Require Import Allocator.
From S2P Require Import CStdlib.
From S2P Require Import Paging.
From S2P Require Import AddressSpace.
From S2P Require Import VMem.
From S2P Require Import HeapSpace.
From S2P Require Import Monitor.
From S2P Require Import Printf.
From S2P Require Import Disk.
From S2P Require Import NaiveFs.
From S2P Require Import Thread.
From S2P Require Import Process.
From S2P Require Import Tasks.
From S2P Require Import Exec.
From S2P Require Import Syscalls.
From S2P Require Import UserCalls.

Section views.
Context {A : Type} `{BlockAllocator A}.
Abbreviation space := (mem * paging (A := A))%type.
Abbreviation kernel := (Exec.kernel (A := A)).
Context (FILE_NUM : Z).

(** The words of a call's arguments. *)
Fixpoint push_args (m : space) (p : Z) (args : list Z) : outcome space :=
  match args with
  | [] => Ok m
  | a :: args => m ← bs_store32 m p a; push_args m (u32 (p + 4)) args
  end.

(** ** A program's view *)

Definition user_range (p n : Z) : Prop := 0x400000 <= p /\ p + n <= 0xBFC00000.

(** The kernel with the image mounted, as a program finds it. *)
Record running (k : kernel) (L : gmap Z Z) (f : Z -> Z) (files : list file) : Prop := {
  rn_holds : lholds L (k_space k) f;
  rn_screen : screen (k_monitor k);
  rn_lock : unlocked (monitor_lock (k_monitor k));
  rn_mounted : mounted FILE_NUM f (k_fs k) files;
  rn_kernel : KERNEL_BASE <= FILE_NUM /\ KERNEL_BASE <= k_metas k
}.

(** From [k] to [k'] the program only wrote memory, now [g], and showed [os]. *)
Definition displayed (L : gmap Z Z) (files : list file) (k : kernel) (g : Z -> Z) (os : list screen_op) (k' : kernel) : Prop :=
  running k' L g files /\ only_printed k k' /\ shown (k_monitor k) os (k_monitor k').

Lemma user_range_usable p n : user_range p n -> usable (M := space) p n.
Proof.
  intros [Hlo Hhi] b Hb. unfold is_u32. split; [lia | right]. change (b < KERNEL_BASE /\ user_addr b).
  unfold user_addr, KERNEL_BASE. lia.
Qed.

Lemma only_printed_space (k : kernel) (m : space) : only_printed k (set_k_space k m).
Proof. by destruct k as [[] ? ? ? ?]. Qed.

Lemma only_printed_trans (k k1 k2 : kernel) : only_printed k k1 -> only_printed k1 k2 -> only_printed k k2.
Proof. unfold only_printed. intros -> ->. done. Qed.

Lemma shown_nil mon : screen mon -> unlocked (monitor_lock mon) -> shown mon [] mon.
Proof. done. Qed.

Lemma displayed_trans L files k g1 os1 k1 g2 os2 k2 :
  displayed L files k g1 os1 k1 -> displayed L files k1 g2 os2 k2 -> displayed L files k g2 (os1 ++ os2) k2.
Proof.
  intros (_ & Ho1 & Hs1) (Hr & Ho2 & Hs2). split; [done |].
  split; [by eapply only_printed_trans | by eapply shown_app].
Qed.

Lemma displayed_refl L files (k : kernel) f : running k L f files -> displayed L files k f [] k.
Proof.
  intros Hr. split; [done |]. split; [by destruct k as [[[] ? ? ? ? ? ? ? ? ?] ? ? ? ?] | by apply shown_nil; apply Hr].
Qed.

(** Writes to user memory keep the kernel running. *)
Lemma running_view (k : kernel) L f g files (m : space) :
  running k L f files -> valid_files files -> lholds L m g -> (forall b, KERNEL_BASE <= b -> g b = f b) ->
  displayed L files k g [] (set_k_space k m).
Proof.
  intros [Hm Hs Hl Hmt Hk] Hvf Hg He. split; [|split; [apply only_printed_space | by apply shown_nil]].
  split; try done.
  apply (mounted_same (fun _ => 0) FILE_NUM f g (k_fs k) _ files Hvf Hmt); try done; intros b Hb; apply He; [lia |].
  cbn in Hb. lia.
Qed.

Lemma patch_user f p bs b : user_range p (len bs) -> KERNEL_BASE <= b -> patch f p bs b = f b.
Proof. intros [_ Hp] Hb. apply patch_out. unfold KERNEL_BASE in Hb. lia. Qed.

Definition words_bytes (args : list Z) : list Z := concat (bytes32 <$> args).

Lemma words_bytes_len args : len (words_bytes args) = 4 * len args.
Proof. unfold words_bytes. induction args as [|a args IH]; cbn [fmap list_fmap concat length]; rewrite ?length_app; cbn [bytes32 length]; lia. Qed.

Lemma push_args_spec L args : forall (m : space) f p,
  lholds L m f -> user_range p (4 * len args) ->
  may (push_args m p args) (fun m' => lholds L m' (patch f p (words_bytes args))).
Proof.
  induction args as [|a args IH]; intros m f p Hm Hp; cbn [push_args length] in *.
  { apply may_ret. eapply lholds_ext; [|exact Hm]. intros b. by rewrite patch_nil. }
  destruct Hp as [Hlo Hhi].
  eapply may_bind; [apply (l_store32_spec L _ f p a Hm), user_range_usable; split; lia |]. intros m1 Hm1. cbv beta in Hm1.
  rewrite u32_small by lia. eapply may_mono; [apply (IH m1 _ (p + 4) Hm1); split; lia |].
  intros m' Hm'. cbv beta in Hm'. eapply lholds_ext; [|exact Hm']. intros b.
  change (words_bytes (a :: args)) with (bytes32 a ++ words_bytes args). by rewrite patch_app.
Qed.

Lemma args_pushed f p args :
  user_range p (4 * len args) -> Forall is_u32 args ->
  args_at (M := space) (patch f p (words_bytes args)) p args.
Proof.
  intros Hp Ha. split; [by apply user_range_usable |]. intros i a Hi.
  pose proof (bytes_patch f p (words_bytes args)) as Hb. rewrite <- (take_drop_middle _ _ _ Hi) in Hb at 2.
  unfold words_bytes in Hb at 2. rewrite fmap_app, fmap_cons, concat_app in Hb. cbn [concat] in Hb.
  apply bytes_at_app in Hb as [_ Hb]. fold (words_bytes (take i args)) in Hb. rewrite words_bytes_len in Hb.
  rewrite length_take_le in Hb by (apply lookup_lt_Some in Hi; lia).
  rewrite (bytes_le32 _ _ _ _ Hb). apply u32_small. by eapply Forall_lookup_1 in Ha.
Qed.

Lemma running_ext k L f g files :
  valid_files files -> (forall b, g b = f b) -> running k L f files -> running k L g files.
Proof.
  intros Hvf He [Hm Hs Hl Hmt Hk]. split; try done.
  - eapply lholds_ext; [|exact Hm]. intros b. by rewrite He.
  - apply (mounted_same (fun _ => 0) FILE_NUM f g (k_fs k) _ files Hvf Hmt); try done; intros b _; apply He.
Qed.

(** The [n] bytes at [p] and the [m] at [q] do not overlap. *)
Definition apart (p n q m : Z) : Prop := p + n <= q \/ q + m <= p.

Lemma string_apart f p bs q s : apart p (len bs) q (len s + 1) -> string_at f q s -> string_at (patch f p bs) q s.
Proof. intros Ha. apply string_at_ext. intros b Hb. apply patch_out. unfold apart in Ha. lia. Qed.

End views.

Section programs.
Context {A : Type} `{BlockAllocator A}.
Abbreviation space := (mem * paging (A := A))%type.
Abbreviation kernel := (Exec.kernel (A := A)).
Context (disk : Z -> Z) (FILE_NUM : Z).
Context (junk fallthrough no_id : Z) (text : kernel_text) (fuel : nat) (c_init : Z -> Z) (exec_stat : Z).

Abbreviation running := (running FILE_NUM).
Abbreviation displayed := (displayed FILE_NUM).
Abbreviation service := (service disk FILE_NUM junk fallthrough no_id text fuel c_init exec_stat).

(** A call that gives its caller a result. *)
Definition invoke (f : call) (k : kernel) : outcome (kernel * Z) :=
  '(k, r) ← service f k;
  match r with Returns v => Ok (k, v) | _ => Blocked end.

(** ** The library

    The caller of [printf] stores the arguments behind the format, and [ebp + 12]
    in [printf] is the address of the first, [arg_ptr]. *)

Definition printf (k : kernel) (arg_ptr str : Z) (args : list Z) : outcome kernel :=
  m ← push_args (k_space k) arg_ptr args;
  '(k, _) ← invoke (print str arg_ptr) (set_k_space k m);
  Ok k.

(** [_start]: what becomes of the process when its program ends. *)
Definition _start (main : kernel -> Z -> Z -> outcome (kernel * Z)) (k : kernel) (argc argv : Z) :
    outcome (kernel * sys_result) :=
  '(k, exit_code) ← main k argc argv;
  service (exit (u32 exit_code)) k.

(** ** The programs

    [arg_ptr] is where a program puts the arguments of [printf]. *)

Context (arg_ptr : Z).

Definition fork_bomb_main (k : kernel) (argc argv : Z) : outcome (kernel * Z) := Ok (k, 0).

Definition help_main (text : Z) (k : kernel) (argc argv : Z) : outcome (kernel * Z) :=
  k ← printf k arg_ptr text []; Ok (k, 0).

(** The literals are "good luck!\n" and ".". *)
Definition ls_main (greeting dot : Z) (k : kernel) (argc argv : Z) : outcome (kernel * Z) :=
  k ← printf k arg_ptr greeting [];
  '(k, _) ← invoke (listdir dot) k;
  Ok (k, 0).

(** [argv[i]]. *)
Definition argument (k : kernel) (argv i : Z) : outcome (kernel * Z) :=
  '(m, p) ← bs_load32 (k_space k) (u32 (argv + 4 * i)); Ok (set_k_space k m, p).

(** The loop from [i] on, over [n] arguments: each is the format of its own
    [printf]. *)
Fixpoint echo_args (n : nat) (blank : Z) (k : kernel) (argv i : Z) : outcome kernel :=
  match n with
  | O => Ok k
  | S n =>
      '(k, p) ← argument k argv i;
      k ← printf k arg_ptr p [];
      k ← printf k arg_ptr blank [];
      echo_args n blank k argv (i + 1)
  end.

Definition echo_main (blank newline : Z) (k : kernel) (argc argv : Z) : outcome (kernel * Z) :=
  k ← echo_args (Z.to_nat (argc - 1)) blank k argv 1;
  k ← printf k arg_ptr newline [];
  Ok (k, 0).

Fixpoint hello_args (n : nat) (fmt : Z) (k : kernel) (argv i : Z) : outcome kernel :=
  match n with
  | O => Ok k
  | S n =>
      '(k, p) ← argument k argv i;
      k ← printf k arg_ptr fmt [i; p];
      hello_args n fmt k argv (i + 1)
  end.

Definition hello_main (start count fmt : Z) (k : kernel) (argc argv : Z) : outcome (kernel * Z) :=
  k ← printf k arg_ptr start [];
  k ← printf k arg_ptr count [argc];
  k ← hello_args (Z.to_nat argc) fmt k argv 0;
  Ok (k, 0).

(** The variable-length buffer is where the compiler puts one of that size. *)
Definition cat_main (usage not_found failed fmt : Z) (file_stat : Z) (buffer : Z -> Z)
    (k : kernel) (argc argv : Z) : outcome (kernel * Z) :=
  if negb (argc =? 2) then k ← printf k arg_ptr usage []; Ok (k, -1)
  else
    '(k, path) ← argument k argv 1;
    '(k, r) ← invoke (stat path file_stat) k;
    if negb (r =? 0) then k ← printf k arg_ptr not_found [path]; Ok (k, -1)
    else
      '(m, size) ← bs_load32 (k_space k) file_stat;
      let read_buffer := buffer (u32 (size + 1)) in
      '(k, n) ← invoke (read path read_buffer 0 size) (set_k_space k m);
      if negb (u32 n =? size) then k ← printf k arg_ptr failed [path]; Ok (k, -1)
      else
        m ← bs_store (k_space k) (u32 (read_buffer + size)) 0;
        k ← printf (set_k_space k m) arg_ptr fmt [read_buffer];
        Ok (k, 0).

(** What init does when its fork returned [pid]: the parent waits for the child,
    the child becomes the shell. *)
Definition init_forked (failed status prog : Z) (k : kernel) (pid : Z) : outcome (kernel * sys_result) :=
  if s32 pid <? 0 then k ← printf k arg_ptr failed []; Ok (k, Returns_undefined)
  else if 0 <? s32 pid then service (wait pid status) k
  else service (exec prog 0 0) k.

(** The system call. *)
Lemma print_spec k L f files str ap fmt args out :
  running k L f files -> valid_files files -> args_at (M := space) f ap args ->
  string_at f str fmt -> user_range str (len fmt + 1) -> prints (M := space) fuel f fmt args out ->
  (length fmt < fuel)%nat ->
  may (invoke (print str ap) k) (fun '(k', _) => displayed L files k f [Write out COLOR_WHITE] k').
Proof.
  intros Hr Hvf Ha Hstr Hus HP Hf. unfold invoke. change (service (print str ap) k) with
    (syscall_print_impl fuel k str ap). unfold syscall_print_impl.
  destruct Hr as [Hm Hs Hl Hmt Hk].
  destruct (l_printf_args L fuel (k_space k) (k_monitor k) f str fmt args ap out Hm Hs Hl
    (user_range_usable _ _ Hus) Hstr Ha HP Hf) as [-> | ([m mon] & -> & Hm' & E & Hs' & Hl')]; [by left | right].
  cbn [mbind outcome_bind]. eexists (_, _). split; [done |].
  split; [split; try done; by destruct Hmt |]. split; [by destruct k as [[] ? ? ? ?] |].
  split; [|done]. cbn [screen_run]. by rewrite E.
Qed.

(** A call of [printf]. *)
Lemma printf_spec k L f files ap str fmt args out :
  let g := patch f ap (words_bytes args) in
  running k L f files -> valid_files files -> user_range ap (4 * len args) -> Forall is_u32 args ->
  string_at g str fmt -> user_range str (len fmt + 1) -> prints (M := space) fuel g fmt args out ->
  (length fmt < fuel)%nat ->
  may (printf k ap str args) (displayed L files k g [Write out COLOR_WHITE]).
Proof.
  intros g Hr Hvf Hp Ha Hstr Hus HP Hf. unfold printf.
  eapply may_bind; [by apply (push_args_spec L args _ f ap), Hp; apply Hr |]. intros m Hm. cbv beta in Hm.
  assert (displayed L files k g [] (set_k_space k m)) as Hd.
  { apply (running_view FILE_NUM k L f); try done. intros b Hb. apply patch_user; [|done]. by rewrite words_bytes_len. }
  eapply may_bind; [apply (print_spec (set_k_space k m) L g files str ap fmt args out); try done;
    [apply Hd | by apply args_pushed] |].
  intros [k' r] Hk'. apply may_ret. by apply (displayed_trans FILE_NUM L files k g [] (set_k_space k m)).
Qed.

(** The listing. *)
Lemma listdir_spec k L f files dir :
  running k L f files -> valid_files files -> (64 <= fuel)%nat ->
  may (invoke (listdir dir) k) (fun '(k', _) => displayed L files k f (listing files) k').
Proof.
  intros [Hm Hs Hl Hmt Hk] Hvf Hf. unfold invoke. change (service (listdir dir) k) with
    (syscall_listdir_impl disk FILE_NUM fuel k dir). unfold syscall_listdir_impl, on_fs.
  destruct (list_dir_correct disk FILE_NUM fuel (k_fs k) (k_monitor k) files L f dir Hm Hvf Hmt Hs Hl Hf)
    as [-> | ([[s mon] r] & -> & _ & Hmv & Hsh)]; [by left | right]. cbn [mbind outcome_bind].
  destruct Hmv as (m & -> & Hm'). eexists (_, _). split; [done |].
  assert (only_printed k (set_k_monitor (set_k_space k m) mon)) as Ho by (by destruct k as [[] ? ? ? ?]).
  split; [|split; [exact Ho | exact Hsh]]. split; try done; try (by apply Hsh). by destruct Hmt.
Qed.

(** Text without conversions prints as it is. *)
Lemma prints_plain f t args : 37 ∉ t -> prints (M := space) fuel f t args t.
Proof.
  induction t as [|c t IH]; intros Ht; [constructor |]. rewrite not_elem_of_cons in Ht.
  apply P_lit; [intros ->; by destruct Ht | apply IH; by destruct Ht].
Qed.

(** Printing a text in user memory leaves memory alone. *)
Lemma printf_text k L f files str t :
  running k L f files -> valid_files files -> user_range arg_ptr 0 -> string_at f str t -> 37 ∉ t ->
  user_range str (len t + 1) -> (length t < fuel)%nat ->
  may (printf k arg_ptr str []) (displayed L files k f [Write t COLOR_WHITE]).
Proof.
  intros Hr Hvf Hp Hstr Ht Hus Hf.
  eapply may_mono.
  - apply (printf_spec k L f files arg_ptr str t [] t); try done; [|by apply prints_plain].
    eapply string_at_ext; [|exact Hstr]. intros b _. apply patch_nil.
  - intros k' (Hr' & Ho & Hsh). split; [|done]. eapply running_ext; [done | | exact Hr'].
    intros b. symmetry. apply patch_nil.
Qed.

(** [ls] shows its greeting and the listing of the image, one line per file with
    its size and name, and returns 0; memory is as it was. *)
Theorem ls_correct k L f files greeting dot t argc argv
    (Hr : running k L f files) (Hvf : valid_files files) (Hp : user_range arg_ptr 0)
    (Ht : string_at f greeting t) (Hpc : 37 ∉ t) (Hus : user_range greeting (len t + 1))
    (Hf : (length t < fuel)%nat) (H64 : (64 <= fuel)%nat) :
  may (ls_main greeting dot k argc argv) (fun '(k', r) => r = 0 /\
    displayed L files k f (Write t COLOR_WHITE :: listing files) k').
Proof.
  unfold ls_main. eapply may_bind; [by apply (printf_text k L f files greeting t) |].
  intros k1 Hd1. eapply may_bind; [apply (listdir_spec k1 L f files dot); [apply Hd1 | done | done] |].
  intros [k2 r] Hd2. apply may_ret. split; [done |]. by apply (displayed_trans FILE_NUM L files k f [_] k1).
Qed.

(** ** echo *)

(** The texts the arguments from [i] on point to. *)
Definition arguments_at (f : Z -> Z) (argv i : Z) (ts : list (list Z)) : Prop :=
  forall j t, ts !! j = Some t ->
    let p := word32 f (argv + 4 * (i + Z.of_nat j)) in
    string_at f p t /\ user_range p (len t + 1) /\ (37 ∉ t) /\ (length t < fuel)%nat.

Definition echoed (ts : list (list Z)) : list screen_op :=
  concat ((fun t => [Write t COLOR_WHITE; Write [32] COLOR_WHITE]) <$> ts).

(** Reading an argument. *)
Lemma argument_spec k L f files argv i n :
  running k L f files -> valid_files files -> user_range argv (4 * n) -> 0 <= i < n ->
  may (argument k argv i) (fun '(k', p) => p = word32 f (argv + 4 * i) /\ displayed L files k f [] k').
Proof.
  intros Hr Hvf [Hlo Hhi] Hi. unfold argument. rewrite u32_small by lia.
  eapply may_bind; [apply (l_load32_spec L (k_space k) f (argv + 4 * i)); [apply Hr | apply user_range_usable; split; lia] |].
  intros [m p] [-> Hm]. apply may_ret. split; [done |]. by apply (running_view FILE_NUM k L f).
Qed.

Lemma echo_args_spec L f files blank argv n ts : forall k i,
  running k L f files -> valid_files files -> user_range arg_ptr 0 -> user_range argv (4 * n) ->
  0 <= i -> i + len ts <= n -> arguments_at f argv i ts ->
  string_at f blank [32] -> user_range blank 2 -> (1 < fuel)%nat ->
  may (echo_args (length ts) blank k argv i) (displayed L files k f (echoed ts)).
Proof.
  induction ts as [|t ts IH]; intros k i Hr Hvf Hp Hav Hi Hn Hts Hb Hbu Hf; cbn [echo_args length] in *.
  { apply may_ret. by apply displayed_refl. }
  eapply may_bind; [apply (argument_spec k L f files argv i n); try done; lia |].
  intros [k1 p] [-> Hd1]. destruct (Hts 0%nat t eq_refl) as (Ht & Htu & Hpc & Htf). rewrite Z.add_0_r in *.
  eapply may_bind; [apply (printf_text k1 L f files _ t); try done; apply Hd1 |]. intros k2 Hd2.
  eapply may_bind; [apply (printf_text k2 L f files blank [32]); try done; [apply Hd2 | by intros ?%list_elem_of_singleton] |]. intros k3 Hd3.
  eapply may_mono; [apply (IH k3 (i + 1)); try done; [apply Hd3 | lia | lia |] |].
  - intros j t' Hj. specialize (Hts (S j) t' Hj). by replace (i + 1 + Z.of_nat j) with (i + Z.of_nat (S j)) by lia.
  - intros k4 Hd4. apply (displayed_trans FILE_NUM L files k f [] k1 _ (echoed (t :: ts))); [done |].
    apply (displayed_trans FILE_NUM L files k1 f [Write t COLOR_WHITE] k2 _ (_ :: echoed ts)); [done |].
    by apply (displayed_trans FILE_NUM L files k2 f [_] k3).
Qed.

(** [echo] shows its arguments in order, each with a blank behind it, and a line
    end, and returns 0, as long as no argument holds a percent sign. *)
Theorem echo_correct k L f files blank newline argv ts
    (Hr : running k L f files) (Hvf : valid_files files) (Hp : user_range arg_ptr 0)
    (Hav : user_range argv (4 * (1 + len ts))) (Hts : arguments_at f argv 1 ts)
    (Hb : string_at f blank [32]) (Hbu : user_range blank 2)
    (Hn : string_at f newline [10]) (Hnu : user_range newline 2) (Hf : (1 < fuel)%nat) :
  may (echo_main blank newline k (1 + len ts) argv) (fun '(k', r) => r = 0 /\
    displayed L files k f (echoed ts ++ [Write [10] COLOR_WHITE]) k').
Proof.
  unfold echo_main. replace (Z.to_nat (1 + len ts - 1)) with (length ts) by lia.
  eapply may_bind; [apply (echo_args_spec L f files blank argv (1 + len ts) ts k 1); try done; lia |].
  intros k1 Hd1.
  eapply may_bind; [apply (printf_text k1 L f files newline [10]); try done; [apply Hd1 | by intros ?%list_elem_of_singleton] |].
  intros k2 Hd2. apply may_ret. split; [done |]. by apply (displayed_trans FILE_NUM L files k f _ k1).
Qed.

(** ** cat *)

(** The two calls on files, for a file of the image and user memory. *)
Lemma stat_spec k L f files path name data i st :
  running k L f files -> valid_files files -> files !! i = Some (name, data) ->
  string_at f path name -> user_range path (len name + 1) -> user_range st 4 ->
  may (invoke (stat path st) k) (fun '(k', r) => r = 0 /\
    displayed L files k (patch f st (bytes32 (len data))) [] k').
Proof.
  intros Hr Hvf Hi Hs Hus Hst. unfold invoke. change (service (stat path st) k) with
    (syscall_stat_impl disk FILE_NUM k path st). unfold syscall_stat_impl, on_fs.
  destruct (stat_file_spec disk FILE_NUM (k_fs k) files L f path name st (rn_holds _ _ _ _ _ Hr) Hvf
    (rn_mounted _ _ _ _ _ Hr) (conj Hs (user_range_usable _ _ Hus)) (user_range_usable _ _ Hst))
    as [-> | ([s r] & -> & [(j & d & Hj & -> & Hmv) | (Hni & _)])]; [by left | right |].
  - rewrite <- (same_name files i j name data d (vf_names _ Hvf) Hi Hj) in Hj. rewrite Hi in Hj. injection Hj as <-.
    destruct (on_fs_moved L _ k s Hmv) as (m & Hm & E). cbn [mbind outcome_bind]. rewrite E.
    eexists (_, _). split; [done |]. split; [done |]. apply (running_view FILE_NUM k L f); try done.
    intros b Hb. by apply patch_user.
  - exfalso. apply Hni, list_elem_of_fmap. exists (name, data). split; [done |]. by eapply list_elem_of_lookup_2.
Qed.

Lemma read_spec k L f files path name data i buffer size_ :
  running k L f files -> valid_files files -> disk_holds disk files -> files !! i = Some (name, data) -> data <> [] ->
  Z.of_nat (size L) < capacity (A := space) -> SECTOR_SIZE < request_limit (A := space) ->
  string_at f path name -> user_range path (len name + 1) -> user_range buffer (len data) -> len data <= size_ ->
  may (invoke (read path buffer 0 size_) k) (fun '(k', n) => n = len data /\
    displayed L files k (patch f buffer data) [] k').
Proof.
  intros Hr Hvf Hd Hi Hne Hc Hq Hs Hus Hb Hl. unfold invoke. change (service (read path buffer 0 size_) k) with
    (syscall_read_impl disk FILE_NUM k path buffer 0 size_). unfold syscall_read_impl.
  destruct (read_whole disk FILE_NUM k files L f path name data i buffer size_ (rn_holds _ _ _ _ _ Hr) Hd Hvf
    (rn_mounted _ _ _ _ _ Hr) Hc Hq (conj Hs (user_range_usable _ _ Hus)) Hi Hne (user_range_usable _ _ Hb) Hl)
    as [-> | ([k' n] & -> & -> & m & -> & Hm)]; [by left | right]. cbn [mbind outcome_bind].
  eexists (_, _). split; [done |]. split; [done |]. apply (running_view FILE_NUM k L f); try done.
  intros b Hbb. by apply patch_user.
Qed.

(** Where cat's variables are. *)
Record cat_layout (f : Z -> Z) (path fmt file_stat buffer argv : Z) (name data : list Z) : Prop := {
  ct_argv : user_range argv 8 /\ word32 f (argv + 4) = path;
  ct_path : string_at f path name /\ user_range path (len name + 1);
  ct_fmt : string_at f fmt [37; 115] /\ user_range fmt 3;
  ct_ranges : user_range file_stat 4 /\ user_range buffer (len data + 1) /\ user_range arg_ptr 4;
  ct_stat : apart file_stat 4 path (len name + 1) /\ apart file_stat 4 fmt 3;
  ct_buffer : apart buffer (len data + 1) fmt 3 /\ apart arg_ptr 4 buffer (len data + 1) /\ apart arg_ptr 4 fmt 3
}.

(** The bytes before the first zero, all of them when there is none. *)
Fixpoint until_nul (s : list Z) : list Z :=
  match s with [] => [] | c :: s => if c =? 0 then [] else c :: until_nul s end.

Lemma until_nul_split data :
  exists rest, data ++ [0] = until_nul data ++ 0 :: rest.
Proof.
  induction data as [|c data [rest IH]]; simpl; [by exists [] |].
  destruct (Z.eqb_spec c 0) as [-> |]; [by eexists | exists rest; by rewrite IH].
Qed.

Lemma until_nul_nonzero data : Forall (fun c => c <> 0) (until_nul data).
Proof. induction data as [|c data IH]; simpl; [done |]. by destruct (Z.eqb_spec c 0); constructor. Qed.

Lemma until_nul_all data : Forall (fun c => c <> 0) data -> until_nul data = data.
Proof. induction 1 as [|c data Hc _ IH]; simpl; [done |]. by rewrite (proj2 (Z.eqb_neq _ _) Hc), IH. Qed.

Lemma until_nul_length data : (length (until_nul data) <= length data)%nat.
Proof. induction data as [|c data IH]; simpl; [done |]. destruct (c =? 0); simpl; lia. Qed.

(** A text with its terminator in memory, read as a C string. *)
Lemma string_until_nul f b data : string_at (patch f b (data ++ [0])) b (until_nul data).
Proof.
  destruct (until_nul_split data) as [rest ->].
  change (until_nul data ++ 0 :: rest) with (until_nul data ++ [0] ++ rest). rewrite app_assoc.
  eapply string_at_ext; [| apply (string_at_patch f), until_nul_nonzero].
  intros x Hx. rewrite patch_app. unfold patch at 1. rewrite decide_False; [done |].
  rewrite length_app. simpl. lia.
Qed.

(** C16: cat of a non-empty file of the image: of the bytes that the image writer put
    on the disk exactly those before the first zero byte appear on the screen, all of
    them for a text, only the first few for a program; the result is 0, and the
    kernel goes on with the image mounted. *)
Theorem cat_correct k L f files i name data usage not_found failed fmt file_stat buffer path argv
    (Hr : running k L f files) (Hvf : valid_files files) (Hd : disk_holds disk files)
    (Hi : files !! i = Some (name, data)) (Hne : data <> [])
    (Hc : Z.of_nat (size L) < capacity (A := space)) (Hq : SECTOR_SIZE < request_limit (A := space))
    (Hl : cat_layout f path fmt file_stat (buffer (len data + 1)) argv name data)
    (Hf : (length data < fuel)%nat) (Hf2 : (2 < fuel)%nat) :
  may (cat_main usage not_found failed fmt file_stat buffer k 2 argv) (fun '(k', r) => r = 0 /\
    exists g, displayed L files k g [Write (until_nul data) COLOR_WHITE] k').
Proof.
  destruct Hl as [[Hav Hpath] [Hps Hpu] [Hfs Hfu] (Hst & Hb & Hap) [Hs1 Hs2] (Hb1 & Hb2 & Hb3)].
  destruct (file_size disk FILE_NUM files i name data Hvf Hi) as [_ Hsz].
  unfold cat_main. cbn [Z.eqb Pos.eqb negb].
  eapply may_bind; [apply (argument_spec k L f files argv 1 2); done || lia |]. intros [k1 p] [-> Hd1].
  change (argv + 4 * 1) with (argv + 4). rewrite Hpath.
  eapply may_bind; [by apply (stat_spec k1 L f files path name data i file_stat); try done; apply Hd1 |].
  intros [k2 r] [-> Hd2]. cbn [Z.eqb negb]. set (f2 := patch f file_stat (bytes32 (len data))) in *.
  assert (string_at f2 path name /\ string_at f2 fmt [37; 115]) as [Hps2 Hfs2] by (split; by apply string_apart).
  eapply may_bind; [apply (l_load32_spec L (k_space k2) f2 file_stat); [apply Hd2 | by apply user_range_usable] |].
  assert (word32 f2 file_stat = len data) as Ez by (unfold f2; rewrite word32_patch_in; apply u32_small; lia).
  intros [m3 z] [-> Hm3]. rewrite Ez, (u32_small (len data + 1)) by lia.
  set (b := buffer (len data + 1)) in *. pose proof Hb as [Hb0 Hb9].
  assert (displayed L files k2 f2 [] (set_k_space k2 m3)) as Hd3 by (apply (running_view FILE_NUM k2 L f2); try done; apply Hd2).
  eapply may_bind.
  { apply (read_spec (set_k_space k2 m3) L f2 files path name data i b (len data)); try done;
      [apply Hd3 | split; lia]. }
  intros [k4 n] [-> Hd4]. rewrite (u32_small (len data)), Z.eqb_refl, u32_small by lia. cbn [negb].
  eapply may_bind; [apply (l_store_spec L (k_space k4) (patch f2 b data) (b + len data) 0); [apply Hd4 |];
    apply (user_range_usable b (len data + 1)); [done | lia] |].
  intros m5 Hm5. cbv beta in Hm5. set (f5 := patch (patch f2 b data) (b + len data) [u8 0]) in *.
  assert (forall x, f5 x = patch f2 b (data ++ [0]) x) as Hf5.
  { intros x. unfold f5. by rewrite patch_snoc. }
  pose proof (until_nul_length data) as Hul.
  assert (string_at f5 b (until_nul data)) as Hbs.
  { eapply string_at_ext; [intros x _; apply Hf5 |]. apply string_until_nul. }
  assert (string_at f5 fmt [37; 115]) as Hfs5.
  { eapply string_at_ext; [intros x _; apply Hf5 |]. apply string_apart; [|done]. by rewrite length_app, Nat2Z.inj_add. }
  assert (displayed L files k4 f5 [] (set_k_space k4 m5)) as Hd5.
  { apply (running_view FILE_NUM k4 L (patch f2 b data)); try done; [apply Hd4 |].
    intros x Hx. apply patch_user; [split; cbn; lia | done]. }
  eapply may_bind.
  { apply (printf_spec (set_k_space k4 m5) L f5 files arg_ptr fmt [37; 115] [b] (until_nul data ++ [])); try done.
    - apply Hd5.
    - repeat constructor; lia.
    - by apply string_apart.
    - apply P_conv; [|constructor]. apply Sh_s; [apply string_apart; [| exact Hbs]; change (len (words_bytes [b])) with 4; unfold apart in *; lia | apply user_range_usable; split; lia | lia]. }
  intros k6 Hd6. rewrite app_nil_r in Hd6. apply may_ret. split; [done |]. eexists.
  eapply (displayed_trans FILE_NUM L files k f [] k1); [exact Hd1 |].
  eapply (displayed_trans FILE_NUM L files k1 f2 [] k2); [exact Hd2 |].
  eapply (displayed_trans FILE_NUM L files k2 f2 [] _); [exact Hd3 |].
  eapply (displayed_trans FILE_NUM L files _ _ [] k4); [exact Hd4 |].
  eapply (displayed_trans FILE_NUM L files k4 f5 [] _); [exact Hd5 | exact Hd6].
Qed.
End programs.

(** ** An example

    The kernel of [Syscalls] after mounting, and in the page at 5 MiB of the
    program the vector [0; "bc"], the strings "bc", "%s", " ", "\n" and "hi". *)

Definition demo_words : list Z := [0; 0x500008; 0x6362; 0x7325; 0x20; 0x0A; 0x6968].
Definition demo_program (s : naive (M := kspace)) : outcome (Exec.kernel (A := kmem)) :=
  m ← push_args (k_space (demo_kernel s)) 0x500000 demo_words; Ok (set_k_space (demo_kernel s) m).
Definition demo_cat (k : Exec.kernel (A := kmem)) : outcome (Exec.kernel (A := kmem) * Z) :=
  cat_main demo_disk demo_num 0 1 7 demo_text 64 (fun _ => 0) 0xC0005000 0x600100 0 0 0 0x50000C 0x600000
    (fun _ => 0x600010) k 2 0x500000.
Definition demo_ls (k : Exec.kernel (A := kmem)) : outcome (Exec.kernel (A := kmem) * Z) :=
  ls_main demo_disk demo_num 0 1 7 demo_text 64 (fun _ => 0) 0xC0005000 0x600100 0x500018 0 k 1 0x500000.
Definition demo_echo (k : Exec.kernel (A := kmem)) : outcome (Exec.kernel (A := kmem) * Z) :=
  echo_main demo_disk demo_num 0 1 7 demo_text 64 (fun _ => 0) 0xC0005000 0x600100 0x500010 0x500014 k 2 0x500000.

Definition demo_programs : bool :=
  match demo_mount with
  | Ok s => (KERNEL_BASE <=? nf_metas s) && match demo_program s with
      | Ok k => negb (is_panic (demo_cat k)) && negb (is_panic (demo_ls k)) && negb (is_panic (demo_echo k))
      | _ => false
      end
  | _ => false
  end.
Lemma demo_programs_true : demo_programs = true.
Proof. vm_compute. reflexivity. Qed.

(** What the programs find in memory. *)
Definition demo_texts (g : Z -> Z) : Prop :=
  word32 g (0x500000 + 4) = 0x500008 /\ string_at g 0x500008 [98; 99] /\ string_at g 0x50000C [37; 115] /\
  string_at g 0x500010 [32] /\ string_at g 0x500014 [10] /\ string_at g 0x500018 [104; 105].

Lemma demo_words_texts f : demo_texts (patch f 0x500000 (words_bytes demo_words)).
Proof. repeat split; try (vm_compute; reflexivity); repeat constructor; lia. Qed.

(** A program about to start. *)
Lemma demo_running :
  exists s k L g, demo_mount = Ok s /\ demo_program s = Ok k /\ k_monitor k = blank_screen /\
    running demo_num k L g demo_files /\ Z.of_nat (size L) < capacity (A := kspace) /\ demo_texts g /\
    is_panic (demo_cat k) = false /\ is_panic (demo_ls k) = false /\ is_panic (demo_echo k) = false.
Proof.
  destruct demo_kernel_mounted as (s & kk & f & He & Hm & Hmt & _).
  pose proof demo_programs_true as Hc. unfold demo_programs in Hc. rewrite He in Hc.
  apply andb_true_iff in Hc as [Hmeta Hc]. apply Z.leb_le in Hmeta.
  assert (running demo_num (demo_kernel s) {[nf_metas s := kk]} f demo_files) as Hr.
  { split; [exact Hm | exact blank_screen_ok | reflexivity | exact Hmt |].
    split; [vm_compute; congruence | exact Hmeta]. }
  destruct (push_args_spec {[nf_metas s := kk]} demo_words (k_space (demo_kernel s)) f 0x500000 Hm)
    as [Hp | (m & Hm1 & Hm2)]; [split; vm_compute; congruence | |]; unfold demo_program in *.
  { rewrite Hp in Hc. discriminate Hc. }
  rewrite Hm1 in Hc. cbn [mbind outcome_bind] in Hc.
  apply andb_true_iff in Hc as [Hc Hc3]. apply andb_true_iff in Hc as [Hc1 Hc2]. rewrite negb_true_iff in Hc1, Hc2, Hc3.
  exists s, (set_k_space (demo_kernel s) m), {[nf_metas s := kk]}, (patch f 0x500000 (words_bytes demo_words)).
  split; [exact He |]. split; [by rewrite Hm1 |]. split; [reflexivity |].
  destruct (running_view demo_num (demo_kernel s) _ f _ demo_files m Hr demo_valid Hm2)
    as (Hr' & _ & _); [intros b Hb; apply patch_user; [split; vm_compute; congruence | exact Hb] |].
  split; [exact Hr' |]. split; [apply demo_capacity |]. split; [apply demo_words_texts |].
  split; [exact Hc1 |]. split; [exact Hc2 | exact Hc3].
Qed.

Lemma cat_correct_witness :
  exists s k k', demo_mount = Ok s /\ demo_program s = Ok k /\ demo_cat k = Ok (k', 0) /\
    screen_step blank_screen (Write [9; 8] COLOR_WHITE) = Ok (k_monitor k').
Proof.
  destruct demo_running as (s & k & L & g & He & Hk & Hmon & Hr & Hc & (T1 & T2 & T3 & _) & Hno & _).
  destruct (cat_correct demo_disk demo_num 0 1 7 demo_text 64 (fun _ => 0) 0xC0005000 0x600100 k L g demo_files 1
    [98; 99] [9; 8] 0 0 0 0x50000C 0x600000 (fun _ => 0x600010) 0x500008 0x500000)
    as [Hp | ([k' r] & Hk' & -> & g' & _ & _ & Hsh & _)].
  - exact Hr.
  - exact demo_valid.
  - exact demo_disk_holds.
  - reflexivity.
  - discriminate.
  - exact Hc.
  - vm_compute. reflexivity.
  - split; unfold user_range, apart; cbn [length]; (split_and! || idtac); first [exact T1 | exact T2 | exact T3 | lia].
  - cbn. lia.
  - lia.
  - unfold demo_cat in Hno. rewrite Hp in Hno. discriminate Hno.
  - exists s, k, k'. split; [exact He |]. split; [exact Hk |]. split; [exact Hk' |].
    rewrite Hmon in Hsh. change (until_nul [9; 8]) with [9; 8] in Hsh. cbn [screen_run] in Hsh.
    destruct (screen_step blank_screen (Write [9; 8] COLOR_WHITE)); exact Hsh.
Defined.

Lemma ls_correct_witness :
  exists s k k', demo_mount = Ok s /\ demo_program s = Ok k /\ demo_ls k = Ok (k', 0) /\
    screen_run blank_screen (Write [104; 105] COLOR_WHITE :: listing demo_files) = Ok (k_monitor k').
Proof.
  destruct demo_running as (s & k & L & g & He & Hk & Hmon & Hr & Hc & (_ & _ & _ & _ & _ & T6) & _ & Hno & _).
  destruct (ls_correct demo_disk demo_num 0 1 7 demo_text 64 (fun _ => 0) 0xC0005000 0x600100 k L g demo_files
    0x500018 0 [104; 105] 1 0x500000) as [Hp | ([k' r] & Hk' & -> & _ & _ & Hsh & _)].
  - exact Hr.
  - exact demo_valid.
  - split; lia.
  - exact T6.
  - apply (bool_decide_unpack _). vm_compute. exact I.
  - split; cbn; lia.
  - cbn. lia.
  - lia.
  - unfold demo_ls in Hno. rewrite Hp in Hno. discriminate Hno.
  - exists s, k, k'. split; [exact He |]. split; [exact Hk |]. split; [exact Hk' |]. rewrite Hmon in Hsh. exact Hsh.
Defined.

Lemma echo_correct_witness :
  exists s k k', demo_mount = Ok s /\ demo_program s = Ok k /\ demo_echo k = Ok (k', 0) /\
    screen_run blank_screen [Write [98; 99] COLOR_WHITE; Write [32] COLOR_WHITE; Write [10] COLOR_WHITE] = Ok (k_monitor k').
Proof.
  destruct demo_running as (s & k & L & g & He & Hk & Hmon & Hr & Hc & (T1 & T2 & _ & T4 & T5 & _) & _ & _ & Hno).
  destruct (echo_correct demo_disk demo_num 0 1 7 demo_text 64 (fun _ => 0) 0xC0005000 0x600100 k L g demo_files
    0x500010 0x500014 0x500000 [[98; 99]]) as [Hp | ([k' r] & Hk' & -> & _ & _ & Hsh & _)].
  - exact Hr.
  - exact demo_valid.
  - split; lia.
  - split; cbn; lia.
  - intros [|j] t Ht; [|done]. injection Ht as <-. cbn zeta.
    change (0x500000 + 4 * (1 + Z.of_nat 0)) with (0x500000 + 4). rewrite T1.
    split; [exact T2 |]. split; [split; cbn; lia |].
    split; [apply (bool_decide_unpack _); vm_compute; exact I | cbn; lia].
  - exact T4.
  - split; lia.
  - exact T5.
  - split; lia.
  - lia.
  - change (1 + len [[98; 99]]) with 2 in Hp. unfold demo_echo in Hno. rewrite Hp in Hno. discriminate Hno.
  - exists s, k, k'. split; [exact He |]. split; [exact Hk |]. split; [exact Hk' |]. rewrite Hmon in Hsh. exact Hsh.
Defined.
